(* ===== verification/_CoqProject ===== *)
-Q . S2P
Prelude.v
JsString.v
Model.v
Env.v
State.v
Common.v
Metadata.v
Analytics.v
Nft.v
Collection.v
IssueLog.v
Fees.v
Bid.v
RarityHandlers.v
Marketplace.v
Store.v
Batch.v
Processor.v
Samples.v
AnalyticsProofs.v
IssueLogProofs.v
WellFormed.v
LedgerProofs.v
OrderBook.v
SupplyProofs.v
OrderProofs.v
StoreProofs.v
BatchProofs.v
ProcessorProofs.v
ParsingProofs.v
EthWearables.v
EthModel.v
EthCommon.v
EthLand.v
EthToken.v
EthMarketplace.v
EthStore.v
EthProcessor.v
IndexManager.v
IndexProofs.v
HeadNotification.v
SyncEngine.v
SyncProofs.v
SyncSystemProofs.v
EthSamples.v
EthEstateProofs.v
EthSalesProofs.v
EthTokenProofs.v
EthWearableProofs.v
EthOrderProofs.v
ContentHash.v
ContentHashProofs.v
ContentTreeProofs.v
EditorHistory.v
EditorProofs.v
EditorTimeline.v
EditorSessionProofs.v
BootMachine.v
EditorBus.v
EditorBusProofs.v
JsonParse.v
JsonProofs.v
DebugDiff.v
SceneComposite.v
DebugDiffProofs.v
SceneProofs.v
SceneTree.v
TextSearch.v
AuthChain.v
AuthProofs.v
Drafts.v
DraftsProofs.v
PairStore.v
PairProofs.v
WebSamples.v
StepDebugger.v
StepDebuggerProofs.v
Experiments.v
ExperimentProofs.v
EngineInput.v
