(* ===== verification/Prelude.v ===== *)
(** * Verification of the Decentraland squid and of programs of its web clients

    The squid, [src/contracts/squid/src], is the indexer behind the marketplace:
    it turns the logs of the Decentraland contracts into the tables (tokens,
    items, orders, sales, accounts, daily totals, ...) that the other services
    query.  It has two processors, one for Polygon ([polygon/]) and one for
    Ethereum ([eth/]), over shared entities ([model/generated]) and utilities
    ([common/]).  Each processor is a function called with a batch of blocks:

    - a first pass over the logs queues the decoded events and collects the
      identifiers of the rows they need;
    - the rows are read from the database into maps by identifier;
    - a second pass hands every queued event to its handler, which changes the
      maps;
    - the maps are written back, and the Polygon processor announces gifts.

    Around the batches, each processor drops secondary indices while it catches up
    with the chain and creates them again at its head, and announces the head.

    The other programs are in the web clients, where scenes are made and published:

    - the sync engine of the creator hub,
      [src/ui3/src/creatorhub/lib/sync-engine.ts], keeps the scenes, saved locally
      first, in step with a server;
    - the scene editor, [src/ui3/src/editor]: the history of its edits, its channel
      to the running scene, the start of its engine, its step debugger;
    - the file of a scene and the tree of its entities,
      [src/sites/packages/data/src/lib/catalyst/creator-hub/scene-composite.ts];
    - the requests that are signed for a wallet, [src/sites/packages/data/src/lib/auth]
      and [src/ui3/src/data/auth], what the server checks of one, and the sign-in with
      a phone that makes such an identity;
    - the drafts of scenes on the server,
      [src/sites/packages/data/src/lib/catalyst/creator-hub/scene-drafts.server.ts],
      which is what the sync engine pushes to;
    - content identifiers,
      [src/sites/packages/data/src/lib/catalyst/hashing.ts]: the name under which a
      published file is stored;
    - experiments, [src/sites/packages/core/src/lib/experiments]: who sees which
      variant of a page;
    - touch controls, [src/ui3/src/explorer/mobile/controls/engineInput.ts], which are
      keys and a mouse to the engine.

    Paths below and in the other files are relative to [src/contracts/squid/src],
    those that start with [ui3/] or [sites/] to [src].

    ** How the code is modelled

    A handler is a computation of the monad [M S A := S -> Res A * S] of this
    file: it takes the state of the batch and returns the new state with a
    result or the exception raised, so that what a handler did before raising
    stays done, as in the code.  A map of the batch is a [gmap]; an entity is a
    record whose nullable columns are options.  JavaScript shares objects: an
    entity that another one holds stands as its identifier, and assigning to a
    property of an object held by a map is [mutate] (or [eth_mutate]) at its
    key, which does nothing to an object that is in no map.  Integers are exact
    ([bigint] in the code); counters that are [number]s stay far below 2^53, and where
    the code computes with fractions, in [Experiments] and [EngineInput], every
    operation is rounded to the 53 binary digits of a [number].
    Recursion is structural, on lists or strings, and every definition is total.
    Where a loop of the code is not structural it has fuel, which is proved enough:
    eight digits in [hexDigits], for 32 bits; the bits left in [drain] and those of
    the number in [writeVarint]; the length of the array in [slices]; the number of
    chunks in [reduceLevels], which a level never exceeds; the depth of a value in
    [walk]; twice the length of a text in the parser of JSON; one turn more than
    there are entities in [descend].  [readChain] takes the ten turns of the code,
    which refuses a chain of more than nine links.  The
    index manager is a computation of the same
    monad over what the module keeps and what the database holds.  The sync
    engine is a state and one function for every event; what comes after an
    [await] is an event of its own, so that events interleave as they do in the
    browser.  The history of the editor is a computation over its two stacks and
    the workspace, its callbacks included; the bus and the reducer of the start are
    functions of their state and an event; hashing is a computation that returns
    or rejects.  A function of the step debugger, and one of the announcement of the head,
    is a tree of what it awaits,
    [Async], so that any other call, or another process, may come between two
    [await]s.  The files of drafts are a map by path, the names from the root, which
    [path_join] follows as the library of Node does, [..] included.  A route of the
    server is a function of the request, the time and what the server keeps; one that
    waits while others run ([putDraft], the completion of a sign-in) is cut where it
    waits.

    What the repository does not define is a parameter, the field of a class
    ([DclSchemas], [Env], [Rpc], [EthRpc], [Publisher], [Proximities],
    [EthStoreOk], [Postgres], [VersionedServer], [WebCrypto], [JsonText],
    [SceneConsole], [Web], [DraftsRoot], [UpdateResult]) or a record ([Database],
    [EthDatabase]): constants of the schemas package, environment
    variables, reads of contracts, the delivery of notifications, the table of
    distances to the plaza, the success of a call of the store, the statements
    about indices, the server of the scenes, the digest, the text of a value, the
    console of a scene, signatures, dates and numerals of the platform, the rows in the
    tables, the directory of the drafts, what TypeORM makes of the rows that an update
    returns.  [PostgresLaws], [ServerLaws], [JsonTextLaws], [SceneConsoleLaws],
    [WebLaws] and [UpdateResultLaw] say what is relied on: a
    statement is carried out or fails and does nothing; a push is taken when it is
    based on the version the server holds; a value is read back from its text; a
    scene told to advance stops after so many ticks; a signature recovers the address of
    its key, a date and a numeral are read back; what an update gives has times only
    where it begins with a returned row.  [DraftsProofs] gives the store of
    drafts for the server of the sync engine and proves its laws.  Nothing is assumed of the
    digest: what a collision would do is part of the statement.

    ** Files

    Shared:
    - [Prelude]: record update, the monad, the predicates on computations
      ([steps], [keeps], [acts], [maintains], [total]) with their hint databases
      and tactics, sums over maps, keyed maps, what functions await ([Awaits]);
    - [JsString]: strings, arrays, buffers and numerals of JavaScript;
    - [Model] ([model/generated]), [Env] ([common/utils/addresses.ts],
      [network.ts], [catalyst.ts], [polygon/modules/*] identifiers), [State]
      ([polygon/types.ts], [polygon/state.ts]), [Common] ([common/modules],
      [common/utils]).

    Polygon:
    - [Metadata] ([polygon/modules/metadata]), [Analytics]
      ([polygon/modules/analytics.ts], [accountsDayData.ts]);
    - handlers: [Nft], [Collection], [Bid], [RarityHandlers], [Marketplace] (one
      per file of [polygon/handlers]), [IssueLog] ([polygon/utils/issueLog.ts]),
      [Fees] ([polygon/state.ts]);
    - [Store] ([polygon/store.ts], [collectionMulticall.ts] and the writes),
      [Batch] and [Processor] ([polygon/main.ts]).

    Ethereum:
    - [EthWearables] ([eth/data/wearables]), [EthModel] (entities, events and
      state, [eth/types.ts]), [EthCommon] ([eth/modules/analytics.ts],
      [count.ts]);
    - handlers: [EthLand] ([eth/handlers/estate.ts], [parcel.ts],
      [eth/modules/land.ts], [eth/LANDs/utils.ts]), [EthToken]
      ([eth/handlers/nft.ts], [ens.ts], [eth/modules/wearable.ts]),
      [EthMarketplace] ([eth/handlers/marketplace.ts], [bid.ts]);
    - [EthStore] ([eth/store.ts], [eth/state.ts]), [EthProcessor]
      ([eth/main.ts]).

    Around the batches: [IndexManager] ([common/utils/indexManager.ts] and the bulk
    index mode of [polygon/main.ts]), [HeadNotification]
    ([common/utils/head-notification.ts]).

    Web clients: [SyncEngine] ([ui3/src/creatorhub/lib/sync-engine.ts]);
    [ContentHash] ([sites/packages/data/src/lib/catalyst/hashing.ts]);
    [EditorHistory] ([ui3/src/editor/history.ts] and what records in it,
    [ui3/src/editor/pages/DeWorkspace.tsx] and [useEditorBusBridge.ts]); [EditorBus]
    ([ui3/src/editor/editor-bus.ts]); [BootMachine]
    ([ui3/src/editor/boot-machine.ts]); [DebugDiff] and [StepDebugger]
    ([ui3/src/editor/debugger.ts]), over [JsonParse], which is [JSON.parse], and
    [TextSearch], the patterns looked for in texts.

    Scenes and their drafts: [SceneComposite]
    ([sites/packages/data/src/lib/catalyst/creator-hub/scene-composite.ts]); [AuthChain]
    ([sites/packages/data/src/lib/auth], [ui3/src/data/auth/signerCore.ts] and
    [verifyAuthChainRequest] of [scene-drafts.server.ts]); [Drafts]
    ([scene-drafts.ts], [scene-drafts.server.ts],
    [sites/packages/routes/app/routes/api.creator-hub.drafts.$.tsx] and the transport of
    [SyncEngineBridge.tsx]); [PairStore]
    ([sites/packages/data/src/lib/auth/pair-store.server.ts], [pair.ts] and
    [sites/packages/routes/app/routes/internal.pair.tsx]).

    Pages: [Experiments] ([assign.ts], [flags.ts] and [story-loader.ts] of
    [sites/packages/core/src/lib/experiments]); [EngineInput]
    ([ui3/src/explorer/mobile/controls/engineInput.ts]), with its theorems.

    A definition is preceded by the file and lines it translates.  Its name is
    that of the code; a piece of a function, or a function whose name another
    file has taken, has a name of its own, such as [ethTrackSale].  [Samples]
    and [EthSamples] hold one small history each, computed by the handlers, on
    which the theorems are instantiated, [WebSamples] requests and scenes on a plain
    platform; [ContentTreeProofs] ends with SHA-256, with which the identifiers are
    those that the repository's tests expect.

    ** What is proved

    Claims are numbered C1 to C40 in the order of importance; each is one
    theorem, with a witness at a concrete input when it has hypotheses.  The files of
    proofs have more theorems than claims.

    - Money ([LedgerProofs], [AnalyticsProofs], [EthSalesProofs]):
      over a whole batch, on both networks, accounts together earn what they
      spend; a price is split without loss; a sale is recorded once, under a
      number no other sale has, and counted once in every total.
    - The order book ([OrderBook], [OrderProofs], [EthOrderProofs]):
      the handlers of both networks are moves of one abstract
      book, over an interface of orders; on Ethereum reachable states have at most one
      live order per token, the one the token shows; on Polygon, where two marketplaces
      feed one book, so for the tokens that were never on offer at both at once, and
      what a token shows is live in any case; what each event does to the book.
    - Supply ([SupplyProofs], [EthWearableProofs]): copies issued and left make up
      the maximum supply; identifiers carry item and issue numbers.
    - Estates, LAND and names ([EthEstateProofs], [EthTokenProofs]): an invariant of the estates in every reachable state,
      the coding of coordinates, who owns a token, a parcel, an estate, a name.
    - Identity and loading ([WellFormed], [BatchProofs], [StoreProofs]): maps are
      filed under identifiers; events are queued once, in order, with what they
      need; what is loaded, and that an account which is not loses its row; the two-step write of tokens and orders refines one
      write of the tokens into the tables.
    - Traded events ([IssueLogProofs]), gifts and cross-chain orders
      ([ProcessorProofs]): each mint log is used once and in order, no gift is
      announced twice, credits belong to their transaction.
    - Parsing ([ParsingProofs], [EthWearableProofs]): metadata, values separated
      by commas, legs of a trade and token URIs are read back as written; two
      searches of the wearables are one lookup.
    - Around the batches ([IndexProofs], [HeadNotification]): whatever fails, no
      index that is kept is touched and none is believed to exist that does not, and the
      statements sent in a process are bounded; the head is announced at most once, by
      processes that run statement by statement and fail at any, if an update gives its
      rows, and never if it gives a pair of the rows and their number.
    - The sync engine ([SyncProofs], [JsonProofs], [SyncSystemProofs]): the hash of a
      value does not depend on the order of keys; the text hashed is JSON, read back
      as the same value; after any interleaving of events, answers,
      failures and other writers, what was saved waits until the server has it,
      and a summary that says synced is right; an engine that is online empties
      its outbox.
    - Scenes ([SceneProofs], [SceneTree]): a scene file is read back as written; edits
      keep the entities a tree exactly until one is moved below itself or deleted
      without what is below it; a deletion takes what is below and nothing else.
    - Signed requests ([AuthProofs]): what is accepted for a wallet was signed by it or
      by a key it vouched for, and what the browser signs is accepted.
    - Drafts ([DraftsProofs]): requests stay, whatever names they use, in the directory of the wallet
      they are accepted for; with the engine in front, what it calls synced is on the disk.
    - Signing in with a phone ([PairProofs]): what is collected for a session is a
      signature of its message, and only once; an address opens few sessions.
    - Experiments ([ExperimentProofs]): variants get the shares of their weights,
      when these are multiples of a power of two, rounding included; a visitor keeps session and variant; the dashboard is asked
      once at a time, and not while its last answer is fresh.
    - Touch controls ([EngineInput]): as long as no release is lost, presses and releases that
      a canvas receives alternate and what is held is down; nothing stays held without
      an end.
    - Content identifiers ([ContentHashProofs], [ContentTreeProofs]): hashing any
      file returns the identifier of a tree that holds the file; two files with
      one identifier show a collision of the digest; base 32 and blocks are read
      back.
    - The scene editor ([EditorProofs], [EditorTimeline], [EditorSessionProofs],
      [EditorBusProofs], [BootMachine]): the workspace refines a timeline of its
      components, which undo and redo walk, and the scene is told of every change;
      a remote call ends exactly once; the engine's start ends and shows what is so.
    - The step debugger ([DebugDiffProofs], [StepDebuggerProofs]): what is shown of
      two snapshots is exactly what differs; whatever is called and answered, one
      step runs at a time and every call ends, the pause between polls being positive; alone with a scene, each step shows
      what its ticks changed.

    Where the code does otherwise than it says, the theorem states what the code
    does, or an [Example] next to it shows it on a history.

    ** Not modelled

    The subscriptions ([polygon/processor.ts], [eth/processor.ts]) configure a
    library; the publisher of events and Slack are
    messages to other services; the generated ABI decoders and the marshalling of columns
    are generated; [eth/data/lands/proximities.ts] is data.  Logging and metrics
    are left out of every function, and so is writing to the local store of the
    sync engine, which is read once, when it starts.  Of the editor, the rounding of
    dragged transforms to the grid and of the numbers the step debugger shows, in
    floating point, are arguments, and what its components draw is left out.  Of the web
    sites, the errors of the file system, the connection of a wallet, the storage of a
    session in the browser and the loop in which it polls for a sign-in are left out:
    they call the platform.  The rest of the repository (the rest of the web clients,
    services in Rust, scenes) is outside this development. *)

From stdpp Require Export base tactics gmap strings list fin_maps pretty sorting.
From Stdlib Require Export ZArith Lia.

#[export] Set Default Goal Selector "!".
Open Scope Z_scope.

(** ** Record update *)

(** [Eta R] rebuilds a record of type [R] from its projections; a record gets
    one instance, and [Setter p] is derived from it for every field [p]. *)
Class Eta (R : Type) := eta : R → R.

Class Setter {R T : Type} (p : R → T) := set : (T → T) → R → R.
Arguments set {R T} p {_} f r.

Ltac derive_setter :=
  lazymatch goal with
  | |- @Setter ?R ?T ?p =>
      let h := constr:(_ : Eta R) in
      let f := fresh "f" in
      let r := fresh "r" in
      refine (λ (f : T → T) (r : R), _);
      let t := eval hnf in (@eta R h r) in
      let t := eval pattern (p r) in t in
      lazymatch t with
      | ?g _ => let u := eval cbv beta in (g (f (p r))) in exact u
      end
  end.

#[export] Hint Extern 1 (Setter _) => derive_setter : typeclass_instances.

Declare Scope js_scope.
Delimit Scope js_scope with js.
Open Scope js_scope.
Notation "r <| p := v |>" := (set p (λ _, v) r)
  (at level 12, left associativity, format "r  <| p  :=  v |>") : js_scope.
Notation "r <| p ::= f |>" := (set p f r)
  (at level 12, left associativity, format "r  <| p  ::=  f |>") : js_scope.

(** ** JavaScript completions: a state monad with exceptions *)

(** What a handler may raise.  [TypeError] is a property read off [undefined],
    [RangeError] a [BigInt] of a non-integer, [JsError] an explicit [throw]. *)
Inductive Exn :=
  | TypeError
  | RangeError
  | RpcError
  | JsError (message : string).

Inductive Res (A : Type) :=
  | Ok (a : A)
  | Throw (e : Exn).
Arguments Ok {A} a.
Arguments Throw {A} e.

(** A handler mutates the state and then returns or throws; the mutations made
    before a [throw] stay visible to the code that catches it. *)
Definition M (S A : Type) : Type := S → Res A * S.

#[export] Instance M_ret S : MRet (M S) := λ A a s, (Ok a, s).
#[export] Instance M_bind S : MBind (M S) := λ A B k m s,
  match m s with
  | (Ok a, s') => k a s'
  | (Throw e, s') => (Throw e, s')
  end.

Section operations.
Context {S : Type}.

Definition throw {A} (e : Exn) : M S A := λ s, (Throw e, s).
Definition gets {A} (f : S → A) : M S A := λ s, (Ok (f s), s).
Definition modify (f : S → S) : M S unit := λ s, (Ok tt, f s).
Definition lift {A} (r : Res A) : M S A := λ s, (r, s).

(** [try { m } catch (e) { h(e) }] *)
Definition catch {A} (m : M S A) (h : Exn → M S A) : M S A := λ s,
  match m s with
  | (Ok a, s') => (Ok a, s')
  | (Throw e, s') => h e s'
  end.

Definition when (b : bool) (m : M S unit) : M S unit :=
  if b then m else mret tt.

(** [for (const x of l) { await f(x) }] *)
Fixpoint for_each {A} (l : list A) (f : A → M S unit) : M S unit :=
  match l with
  | [] => mret tt
  | x :: l => _ ← f x; for_each l f
  end.
End operations.

(** ** What a computation does to the state, whatever it returns *)

(** [steps R m]: every run of [m], normal or exceptional, relates the state
    before to the state after by [R]. *)
Definition steps {S A} (R : relation S) (m : M S A) : Prop :=
  ∀ s, R s (m s).2.

(** [keeps π m]: the observation [π] of the state is unchanged by [m]. *)
Abbreviation keeps π m := (steps (λ s s', π s' = π s) m) (only parsing).

(** [preserves I m]: the invariant [I] is preserved by [m]. *)
Definition preserves {S A} (I : S → Prop) (m : M S A) : Prop :=
  steps (λ s s', I s → I s') m.

#[export] Instance keeps_preorder {S T} (π : S → T) :
  PreOrder (λ s s', π s' = π s).
Proof. split; congruence. Qed.

#[export] Instance preserves_preorder {S} (I : S → Prop) :
  PreOrder (λ s s' : S, I s → I s').
Proof. split; intros ?; auto. Qed.

Section steps.
Context {S : Type} (R : relation S) `{!PreOrder R}.

Lemma steps_ret {A} (a : A) : steps R (mret a).
Proof. intros s. reflexivity. Qed.

Lemma steps_throw {A} e : steps R (throw e : M S A).
Proof. intros s. reflexivity. Qed.

Lemma steps_gets {A} (f : S → A) : steps R (gets f).
Proof. intros s. reflexivity. Qed.

Lemma steps_lift {A} (r : Res A) : steps R (lift r).
Proof. intros s. reflexivity. Qed.

Lemma steps_modify f : (∀ s, R s (f s)) → steps R (modify f).
Proof. intros H s. apply H. Qed.

Lemma steps_bind {A B} (m : M S A) (k : A → M S B) :
  steps R m → (∀ a, steps R (k a)) → steps R (m ≫= k).
Proof.
  intros Hm Hk s. unfold mbind, M_bind. specialize (Hm s).
  destruct (m s) as [[a|e] s']; simpl in *; [|done].
  transitivity s'; [done|]. apply Hk.
Qed.

Lemma steps_catch {A} (m : M S A) h :
  steps R m → (∀ e, steps R (h e)) → steps R (catch m h).
Proof.
  intros Hm Hh s. unfold catch. specialize (Hm s).
  destruct (m s) as [[a|e] s']; simpl in *; [done|].
  transitivity s'; [done|]. apply Hh.
Qed.

Lemma steps_when b m : steps R m → steps R (when b m).
Proof. destruct b; [done|]. intros _. apply steps_ret. Qed.

Lemma steps_for_each {A} (l : list A) f :
  (∀ x, x ∈ l → steps R (f x)) → steps R (for_each l f).
Proof.
  induction l as [|x l IH]; simpl; intros Hf; [apply steps_ret|].
  apply steps_bind; [apply Hf; set_solver|].
  intros _. apply IH. intros y Hy. apply Hf. set_solver.
Qed.
End steps.

Create HintDb frame.
#[export] Hint Resolve steps_ret steps_throw steps_gets steps_lift : frame.
#[export] Hint Extern 1 (PreOrder _) => typeclasses eauto : frame.

(** Symbolic execution of a [steps] goal down to its primitive updates; those
    the database [frame] or conversion can justify are discharged. *)
Ltac frame_step :=
  lazymatch goal with
  | |- steps _ (mbind _ _) => apply steps_bind; [typeclasses eauto| |intros ?]
  | |- steps _ (catch _ _) => apply steps_catch; [typeclasses eauto| |intros ?]
  | |- steps _ (when _ _) => apply steps_when; [typeclasses eauto|]
  | |- steps _ (for_each _ _) =>
      apply steps_for_each; [typeclasses eauto|intros ? _]
  | |- steps _ (mret _) => apply steps_ret; typeclasses eauto
  | |- steps _ (throw _) => apply steps_throw; typeclasses eauto
  | |- steps _ (gets _) => apply steps_gets; typeclasses eauto
  | |- steps _ (lift _) => apply steps_lift; typeclasses eauto
  | |- steps _ (match ?x with _ => _ end) => destruct x
  | |- steps _ (let '_ := ?x in _) => destruct x
  end.

Ltac frame_leaf :=
  first [ solve [eauto 3 with frame nocore]
        | solve [apply steps_modify; intros ?; reflexivity]
        | solve [apply steps_modify; intros ?; cbv beta; intros ?; assumption] ].

Ltac frames := repeat first [frame_leaf | frame_step].

(** ** Running a computation *)

Section run.
Context {S A B : Type}.
Implicit Types (m : M S A) (k : A → M S B).

Lemma bind_ok m k s a s' : m s = (Ok a, s') → (m ≫= k) s = k a s'.
Proof. intros Hm. unfold mbind, M_bind. by rewrite Hm. Qed.

Lemma bind_throw m k s e s' : m s = (Throw e, s') → (m ≫= k) s = (Throw e, s').
Proof. intros Hm. unfold mbind, M_bind. by rewrite Hm. Qed.

Lemma bind_inv m k s b s' :
  (m ≫= k) s = (Ok b, s') → ∃ a s1, m s = (Ok a, s1) ∧ k a s1 = (Ok b, s').
Proof.
  unfold mbind, M_bind. destruct (m s) as [[a|e] s1]; [|done].
  intros Hk. by exists a, s1.
Qed.
End run.

(** [m] returns, whatever the state. *)
Definition returns {S A} (m : M S A) : Prop := ∀ s, ∃ a, (m s).1 = Ok a.

(** [acts π g m]: [m] changes the observation [π] by [g]. *)
Definition acts {S A T} (π : S → T) (g : T → T) (m : M S A) : Prop :=
  ∀ s, π (m s).2 = g (π s).

(** [shifts π k m]: [m] adds [k] to the quantity [π]. *)
Definition shifts {S A} (π : S → Z) (k : Z) (m : M S A) : Prop := acts π (Z.add k) m.

Section returns.
Context {S : Type}.

Lemma returns_ret {A} (a : A) : returns (S:=S) (mret a).
Proof. intros s. by exists a. Qed.

Lemma returns_gets {A} (f : S → A) : returns (gets f).
Proof. intros s. by eexists. Qed.

Lemma returns_modify (f : S → S) : returns (modify f).
Proof. intros s. by eexists. Qed.

Lemma returns_bind {A B} (m : M S A) (k : A → M S B) :
  returns m → (∀ a, returns (k a)) → returns (m ≫= k).
Proof.
  intros Hm Hk s. unfold mbind, M_bind. destruct (Hm s) as [a Ha].
  destruct (m s) as [r s']. simpl in Ha. subst r. apply Hk.
Qed.

Lemma returns_when b (m : M S unit) : returns m → returns (when b m).
Proof. destruct b; [done|]. intros _. apply returns_ret. Qed.

Lemma returns_for_each {A} (l : list A) (f : A → M S unit) :
  (∀ x, returns (f x)) → returns (for_each l f).
Proof.
  intros Hf. induction l; simpl; [apply returns_ret|]. by apply returns_bind.
Qed.

Lemma returns_run {A} (m : M S A) s : returns m → ∃ a, m s = (Ok a, (m s).2).
Proof. intros Hm. destruct (Hm s) as [a Ha]. exists a. by rewrite <- Ha, <- surjective_pairing. Qed.
End returns.

Create HintDb returns.
#[export] Hint Resolve returns_ret returns_gets returns_modify returns_bind returns_when
  returns_for_each : returns.

Section acts.
Context {S T : Type} (π : S → T).

Lemma keeps_acts {A} (m : M S A) : keeps π m → acts π (λ x, x) m.
Proof. done. Qed.

Lemma acts_bind {A B} (m : M S A) (k : A → M S B) g g' :
  returns m → acts π g m → (∀ a, acts π g' (k a)) → acts π (λ x, g' (g x)) (m ≫= k).
Proof.
  intros Hr Hm Hk s. destruct (returns_run m s Hr) as [a Ha].
  rewrite (bind_ok m k s a _ Ha), (Hk a). by rewrite (Hm s).
Qed.

Lemma acts_bind_l {A B} (m : M S A) (k : A → M S B) g :
  returns m → keeps π m → (∀ a, acts π g (k a)) → acts π g (m ≫= k).
Proof. intros Hr Hm Hk. by apply (acts_bind m k (λ x, x) g). Qed.

Lemma acts_bind_r {A B} (m : M S A) (k : A → M S B) g :
  acts π g m → (∀ a, keeps π (k a)) → acts π g (m ≫= k).
Proof.
  intros Hm Hk s. unfold mbind, M_bind. specialize (Hm s).
  destruct (m s) as [[a|e] s']; simpl in *; [|done]. by rewrite (Hk a s').
Qed.
End acts.

Section shifts.
Context {S : Type} (π : S → Z).

Lemma keeps_shifts {A} (m : M S A) : keeps π m → shifts π 0 m.
Proof. intros Hm s. rewrite (Hm s). lia. Qed.

Lemma shifts_keeps {A} (m : M S A) : shifts π 0 m → keeps π m.
Proof. intros Hm s. rewrite (Hm s). lia. Qed.

Lemma shifts_bind {A B} (m : M S A) (k : A → M S B) z z' :
  returns m → shifts π z m → (∀ a, shifts π z' (k a)) → shifts π (z + z') (m ≫= k).
Proof.
  intros Hr Hm Hk s. rewrite (acts_bind π m k _ _ Hr Hm Hk s). lia.
Qed.

Lemma shifts_eq {A} (m : M S A) z z' : z = z' → shifts π z m → shifts π z' m.
Proof. by intros ->. Qed.
End shifts.

(** [maintains I m φ]: [m] preserves the invariant [I], and what it returns
    from a state with [I] satisfies [φ]. *)
Definition maintains {S A} (I : S → Prop) (m : M S A) (φ : A → Prop) : Prop :=
  ∀ s, I s → I (m s).2 ∧ ∀ a, (m s).1 = Ok a → φ a.

Section maintains.
Context {S : Type} (I : S → Prop).

Lemma maintains_ret {A} (a : A) (φ : A → Prop) : φ a → maintains I (mret a) φ.
Proof. intros Ha s Hs. split; [done|]. intros b Hb. by injection Hb as <-. Qed.

Lemma maintains_throw {A} e (φ : A → Prop) : maintains I (throw e) φ.
Proof. intros s Hs. by split. Qed.

Lemma maintains_lift {A} (r : Res A) (φ : A → Prop) :
  (∀ a, r = Ok a → φ a) → maintains I (lift r) φ.
Proof. intros Hr s Hs. by split. Qed.

Lemma maintains_gets {A} (f : S → A) (φ : A → Prop) :
  (∀ s, I s → φ (f s)) → maintains I (gets f) φ.
Proof. intros Hf s Hs. split; [done|]. intros a Ha. injection Ha as <-. auto. Qed.

Lemma maintains_modify f (φ : unit → Prop) :
  (∀ s, I s → I (f s)) → φ tt → maintains I (modify f) φ.
Proof. intros Hf Hφ s Hs. split; [by apply Hf|]. by intros []. Qed.

Lemma maintains_bind {A B} (m : M S A) (k : A → M S B) φ ψ :
  maintains I m φ → (∀ a, φ a → maintains I (k a) ψ) → maintains I (m ≫= k) ψ.
Proof.
  intros Hm Hk s Hs. destruct (Hm s Hs) as [Hs' Ha].
  unfold mbind, M_bind. destruct (m s) as [[a|e] s']; simpl in *; [|by split].
  apply Hk; auto.
Qed.

Lemma maintains_weaken {A} (m : M S A) (φ ψ : A → Prop) :
  maintains I m φ → (∀ a, φ a → ψ a) → maintains I m ψ.
Proof. intros Hm Hφ s Hs. destruct (Hm s Hs). split; auto. Qed.

Lemma maintains_catch {A} (m : M S A) h φ :
  maintains I m φ → (∀ e, maintains I (h e) φ) → maintains I (catch m h) φ.
Proof.
  intros Hm Hh s Hs. destruct (Hm s Hs) as [Hs' Ha]. unfold catch.
  destruct (m s) as [[a|e] s']; simpl in *; [by split|]. by apply Hh.
Qed.

Lemma maintains_when b m φ :
  φ tt → (b = true → maintains I m φ) → maintains I (when b m) φ.
Proof. intros Hφ Hm. destruct b; [by apply Hm|]. by apply maintains_ret. Qed.

Lemma maintains_for_each {A} (l : list A) f (φ : unit → Prop) :
  φ tt → (∀ x, x ∈ l → maintains I (f x) (λ _, True)) → maintains I (for_each l f) φ.
Proof.
  intros Hφ. induction l as [|x l IH]; simpl; intros Hf; [by apply maintains_ret|].
  eapply maintains_bind; [apply Hf; set_solver|]. intros _ _.
  apply IH. intros y Hy. apply Hf. set_solver.
Qed.

(** The last part of a computation may give up [I] for [Q]. *)
Lemma maintains_post {A B} (Q : S → Prop) (m : M S A) (k : A → M S B) φ s :
  maintains I m φ → (∀ s, I s → Q s) →
  (∀ a s, φ a → I s → Q (k a s).2) → I s → Q ((m ≫= k) s).2.
Proof.
  intros Hm HQ Hk Hs. destruct (Hm s Hs) as [Hs' Ha].
  unfold mbind, M_bind. destruct (m s) as [[a|e] s']; simpl in *; [|by apply HQ].
  apply Hk; auto.
Qed.

Lemma maintains_steps {A} (m : M S A) :
  steps (λ s s', I s → I s') m ↔ maintains I m (λ _, True).
Proof. split; intros Hm s; [by split; [apply Hm|]|]. intros Hs. by apply Hm. Qed.
End maintains.

Create HintDb inv.

(** Facts about what a computation returned, spread over its cases. *)
Ltac inv_facts :=
  repeat match goal with
  | H : ∀ a, Some ?x = Some a → _ |- _ => specialize (H x eq_refl)
  | H : ∀ a, None = Some a → _ |- _ => clear H
  end.

Ltac inv_step :=
  lazymatch goal with
  | |- maintains _ (mbind _ _) _ =>
      first [ eapply maintains_bind; [solve [eauto 3 with inv nocore]|intros ? ?; inv_facts]
            | apply (maintains_bind _ _ _ (λ _, True)); [|intros ? _] ]
  | |- maintains _ (catch _ _) _ => apply maintains_catch; [|intros ?]
  | |- maintains _ (when _ _) _ => apply maintains_when; [done|intros _]
  | |- maintains _ (for_each _ _) _ => apply maintains_for_each; [done|intros ? _]
  | |- maintains _ (mret _) (λ _, True) => by apply maintains_ret
  | |- maintains _ (throw _) _ => apply maintains_throw
  | |- maintains _ (match ?x with _ => _ end) _ => destruct x eqn:?; inv_facts
  | |- maintains _ (let '_ := ?x in _) _ => destruct x
  | |- maintains _ _ (λ _, True) =>
      solve [ eauto 3 with inv nocore
            | eapply maintains_weaken; [solve [eauto 3 with inv nocore]|done] ]
  end.

Ltac inv_go := repeat inv_step.

(** [total P m Q]: from a state with [P], [m] returns, and what it returns and
    the state it leaves satisfy [Q]. *)
Definition total {S A} (P : S → Prop) (m : M S A) (Q : A → S → Prop) : Prop :=
  ∀ s, P s → ∃ a s', m s = (Ok a, s') ∧ Q a s'.

Section total.
Context {S : Type}.
Implicit Types (P : S → Prop).

Lemma total_bind {A B} P (m : M S A) (k : A → M S B) R Q :
  total P m R → (∀ a, total (R a) (k a) Q) → total P (m ≫= k) Q.
Proof.
  intros Hm Hk s Hs. destruct (Hm s Hs) as (a & s' & Ha & HR).
  destruct (Hk a s' HR) as (b & s'' & Hb & HQ). exists b, s''.
  by rewrite (bind_ok _ _ _ _ _ Ha).
Qed.

Lemma total_ret {A} P (a : A) Q : (∀ s, P s → Q a s) → total P (mret a) Q.
Proof. intros HQ s Hs. exists a, s. auto. Qed.

Lemma total_gets {A} P (f : S → A) Q : (∀ s, P s → Q (f s) s) → total P (gets f) Q.
Proof. intros HQ s Hs. exists (f s), s. auto. Qed.

Lemma total_modify P f Q : (∀ s, P s → Q tt (f s)) → total P (modify f) Q.
Proof. intros HQ s Hs. exists tt, (f s). auto. Qed.

(** A computation that returns and maintains [P]. *)
Lemma total_maintains {A} P (m : M S A) φ :
  returns m → maintains P m φ → total P m (λ a s, P s ∧ φ a).
Proof.
  intros Hr Hm s Hs. destruct (returns_run m s Hr) as [a Ha]. destruct (Hm s Hs) as [HP Hφ].
  exists a, (m s).2. split; [done|]. split; [done|]. apply Hφ. by rewrite Ha.
Qed.

Lemma total_pre {A} P P' (m : M S A) Q : (∀ s, P s → P' s) → total P' m Q → total P m Q.
Proof. intros HP Hm s Hs. by apply Hm, HP. Qed.

Lemma total_post {A} P (m : M S A) Q Q' :
  total P m Q → (∀ a s, Q a s → Q' a s) → total P m Q'.
Proof. intros Hm HQ s Hs. destruct (Hm s Hs) as (a & s' & ? & ?). exists a, s'. auto. Qed.
End total.

(** ** Totals over a map *)

(** The sum of [f] over the values of a [Map<string, A>]. *)
Definition map_total {A} (f : A → Z) (m : gmap string A) : Z :=
  map_fold (λ _ a z, f a + z) 0 m.

Section map_total.
Context {A : Type} (f : A → Z).
Implicit Types (m : gmap string A).

Lemma map_total_empty : map_total f ∅ = 0.
Proof. apply map_fold_empty. Qed.

Lemma map_total_insert_new m k a :
  m !! k = None → map_total f (<[k:=a]> m) = f a + map_total f m.
Proof.
  intros Hk. unfold map_total.
  rewrite (map_fold_insert_L (λ _ a z, f a + z)); [done| |done].
  intros. lia.
Qed.

Lemma map_total_lookup m k a :
  m !! k = Some a → map_total f m = f a + map_total f (delete k m).
Proof.
  intros Hk. rewrite <- (insert_delete_id m k a Hk) at 1.
  apply map_total_insert_new, lookup_delete_eq.
Qed.

Lemma map_total_insert m k a b :
  m !! k = Some a →
  map_total f (<[k:=b]> m) = map_total f m + (f b - f a).
Proof.
  intros Hk. rewrite (map_total_lookup m k a Hk).
  rewrite (map_total_lookup (<[k:=b]> m) k b) by apply lookup_insert_eq.
  rewrite delete_insert_eq. lia.
Qed.

Lemma map_total_alter m k a g :
  m !! k = Some a →
  map_total f (alter g k m) = map_total f m + (f (g a) - f a).
Proof.
  intros Hk.
  replace (alter g k m) with (<[k:=g a]> m); [by apply map_total_insert|].
  apply map_eq. intros j. destruct (decide (k = j)) as [<-|Hne].
  - by rewrite lookup_insert_eq, lookup_alter_eq, Hk.
  - by rewrite lookup_insert_ne, lookup_alter_ne.
Qed.

Lemma map_total_alter_same m k g :
  (∀ a, m !! k = Some a → f (g a) = f a) →
  map_total f (alter g k m) = map_total f m.
Proof.
  intros Hg. destruct (m !! k) as [a|] eqn:Hk.
  - rewrite (map_total_alter m k a) by done.
    specialize (Hg a eq_refl). lia.
  - rewrite alter_id; [done|]. intros x Hx. congruence.
Qed.

Lemma map_total_nonneg m :
  (∀ k a, m !! k = Some a → 0 ≤ f a) → 0 ≤ map_total f m.
Proof.
  induction m as [|k a m Hk IH] using map_ind; intros Hf.
  - by rewrite map_total_empty.
  - rewrite map_total_insert_new by done.
    pose proof (Hf k a (lookup_insert_eq _ _ _)).
    assert (0 ≤ map_total f m); [|lia].
    apply IH. intros j b Hj. apply (Hf j).
    rewrite lookup_insert_ne; [done|]. congruence.
Qed.
End map_total.

(** ** Maps filed under the identifier of their values *)

Definition keyed {A} (f : A → string) (m : gmap string A) : Prop :=
  ∀ k a, m !! k = Some a → f a = k.

Section keyed.
Context {A : Type} (f : A → string).
Implicit Types (m : gmap string A).

Lemma keyed_empty : keyed f ∅.
Proof. intros k a. by rewrite lookup_empty. Qed.

Lemma keyed_insert m k a : f a = k → keyed f m → keyed f (<[k:=a]> m).
Proof.
  intros Hk Hm j b. destruct (decide (k = j)) as [<-|Hne].
  - rewrite lookup_insert_eq. by intros [= <-].
  - rewrite lookup_insert_ne by done. apply Hm.
Qed.

Lemma keyed_alter m k g : (∀ a, f (g a) = f a) → keyed f m → keyed f (alter g k m).
Proof.
  intros Hg Hm j b. destruct (decide (k = j)) as [<-|Hne].
  - rewrite lookup_alter_eq. destruct (m !! k) as [a|] eqn:E; [|done].
    intros [= <-]. rewrite Hg. by apply Hm.
  - rewrite lookup_alter_ne by done. apply Hm.
Qed.

Lemma keyed_filter m (P : string * A → Prop) `{∀ x, Decision (P x)} :
  keyed f m → keyed f (filter P m).
Proof. intros Hm k a [Ha _]%map_lookup_filter_Some. by apply Hm. Qed.

Lemma keyed_union m m' : keyed f m → keyed f m' → keyed f (m ∪ m').
Proof. intros Hm Hm' k a [Ha|[_ Ha]]%lookup_union_Some_raw; [by apply Hm|by apply Hm']. Qed.

Lemma keyed_fmap m g : (∀ a, f (g a) = f a) → keyed f m → keyed f (g <$> m).
Proof. intros Hg Hm k b (a & <- & Ha)%lookup_fmap_Some. rewrite Hg. by apply Hm. Qed.

Lemma keyed_default m k d : f d = k → keyed f m → f (default d (m !! k)) = k.
Proof. intros Hd Hm. destruct (m !! k) eqn:E; simpl; [by apply Hm|done]. Qed.
End keyed.
#[export] Instance keyed_dec {A} (f : A → string) (m : gmap string A) : Decision (keyed f m).
Proof.
  refine (cast_if (decide (map_Forall (λ k a, f a = k) m))); abstract done.
Defined.

(** A decidable proposition about concrete values holds by evaluation. *)
Ltac decided := apply (bool_decide_unpack _); vm_compute; exact I.

Create HintDb keyed.
#[export] Hint Resolve keyed_empty keyed_insert keyed_alter : keyed.

(** ** JavaScript truthiness of optional big integers *)

(** [if (x)] on a [bigint | undefined | null]: [0n] is falsy too. *)
Definition truthy_bigint (x : option Z) : bool :=
  match x with Some z => negb (z =? 0) | None => false end.

(** ** Functions that await *)

(** Over what is awaited, [C], and how it settles, [R]. *)
Module Awaits.
(** What a function is waiting for and how it goes on, over a state [T]; or how it
    ended. *)
#[warnings="-register-all"]
Inductive Async (C R T A : Type) :=
  | Returned (a : A)
  | Threw (error : string)
  | Await (call : C) (next : R → T → T * Async C R T A).
Arguments Returned {C R T A} a.
Arguments Threw {C R T A} error.
Arguments Await {C R T A} call next.

Section async.
Context {C R T : Type}.

Definition Act (A : Type) := T → T * Async C R T A.

Definition returns {A} (a : A) : Act A := λ s, (s, Returned a).
Definition throws {A} (error : string) : Act A := λ s, (s, Threw error).
Definition reading {A} (f : T → Act A) : Act A := λ s, f s s.
Definition writing (f : T → T) : Act unit := λ s, (f s, Returned tt).

(** [m] and then [f] of what it returned or threw. *)
Fixpoint resume {A B} (t : Async C R T A) (f : A + string → Act B) : Act B :=
  match t with
  | Returned a => f (inl a)
  | Threw e => f (inr e)
  | Await c next => λ s, (s, Await c (λ r s, let '(s, t) := next r s in resume t f s))
  end.

Definition after_all {A B} (m : Act A) (f : A + string → Act B) : Act B :=
  λ s, let '(s, t) := m s in resume t f s.

Definition bind {A B} (m : Act A) (f : A → Act B) : Act B :=
  after_all m (λ r, match r with inl a => f a | inr e => throws e end).

(** [try { m } catch (e) { f(e) }] *)
Definition catching {A} (m : Act A) (f : string → Act A) : Act A :=
  after_all m (λ r, match r with inl a => returns a | inr e => f e end).

(** [try { m } finally { f }] *)
Definition finishing {A} (m : Act A) (f : T → T) : Act A :=
  after_all m (λ r s, (f s, match r with inl a => Returned a | inr e => Threw e end)).
End async.
Arguments Act C R T A : clear implicits.

Declare Scope act_scope.
Delimit Scope act_scope with act.
Notation "x ← m ; k" := (bind m (λ x, k)) : act_scope.
Notation "m ;; k" := (bind m (λ _, k)) : act_scope.
End Awaits.
