(* ===== verification/JsString.v ===== *)
(** * JavaScript strings, arrays and buffers

    The string, array, buffer and numeral operations the squid calls, and the
    lemmas on them.  A string is a
    sequence of code units below 256 (Latin-1), the range in which one
    [Ascii.ascii] is one JavaScript code unit. *)

From Stdlib Require Import Ascii.
From S2P Require Import Prelude.

Open Scope string_scope.
Open Scope list_scope.
Open Scope Z_scope.

Implicit Types (s t : string).

(** ** Operations *)

Definition dash : Ascii.ascii := "-"%char.
Definition colon : Ascii.ascii := ":"%char.
Definition comma : Ascii.ascii := ","%char.
Definition slash : Ascii.ascii := "/"%char.

(** [s.split(c)] for a one-character separator: ["".split(c)] is [[""]]. *)
Fixpoint split (c : Ascii.ascii) s : list string :=
  match s with
  | EmptyString => [""]
  | String x s =>
      if decide (x = c) then "" :: split c s
      else match split c s with
           | [] => [String x ""]
           | y :: l => String x y :: l
           end
  end.

(** [s.split(sep)] for a separator that is not empty; [skip] characters of an
    occurrence are still to be passed over. *)
Fixpoint split_skip (sep : string) (skip : nat) s : list string :=
  match s with
  | EmptyString => [""]
  | String x s' =>
      match skip with
      | S k => split_skip sep k s'
      | O =>
          if String.prefix sep s then "" :: split_skip sep (pred (String.length sep)) s'
          else match split_skip sep 0 s' with
               | [] => [String x ""]
               | y :: l => String x y :: l
               end
      end
  end.

Definition split_on (sep s : string) : list string := split_skip sep 0 s.

(** [l.join(sep)] *)
Fixpoint join (sep : string) (l : list string) : string :=
  match l with
  | [] => ""
  | [x] => x
  | x :: l => x +:+ sep +:+ join sep l
  end.

(** [c.toLowerCase()] on Latin-1: [A-Z] and the accented capitals move up by
    32, the multiplication sign (215) excepted. *)
Definition lower_char (c : Ascii.ascii) : Ascii.ascii :=
  let n := Ascii.N_of_ascii c in
  if decide ((65 ≤ n ∧ n ≤ 90) ∨ (192 ≤ n ∧ n ≤ 222 ∧ n ≠ 215))%N
  then Ascii.ascii_of_N (n + 32) else c.

Fixpoint toLowerCase s : string :=
  match s with
  | EmptyString => ""
  | String c s => String (lower_char c) (toLowerCase s)
  end.

(** [s.slice(n)] for a non-negative [n]. *)
Fixpoint slice (n : nat) s : string :=
  match n, s with
  | O, _ => s
  | S n, EmptyString => ""
  | S n, String _ s => slice n s
  end.

(** [s.substr(start, len)] for a non-negative [start]. *)
Definition substr (start len : nat) s : string := String.substring start len s.

Definition startsWith (p s : string) : bool := String.prefix p s.

(** [s.indexOf(p)], [-1] when absent. *)
Definition indexOf (p s : string) : Z :=
  match String.index 0 p s with Some n => Z.of_nat n | None => -1 end.

Definition includes (p s : string) : bool :=
  match String.index 0 p s with Some _ => true | None => false end.

(** [Buffer.from(s, "hex")]: bytes up to the first pair that is not two
    hexadecimal digits; an odd last digit is dropped. *)
Definition hex_digit (c : Ascii.ascii) : option Z :=
  let n := Z.of_N (Ascii.N_of_ascii c) in
  if decide (48 ≤ n ≤ 57) then Some (n - 48)
  else if decide (97 ≤ n ≤ 102) then Some (n - 87)
  else if decide (65 ≤ n ≤ 70) then Some (n - 55)
  else None.

Fixpoint Buffer_from_hex s : list Z :=
  match s with
  | String a (String b s) =>
      match hex_digit a, hex_digit b with
      | Some x, Some y => (16 * x + y) :: Buffer_from_hex s
      | _, _ => []
      end
  | _ => []
  end.

(** [buffer.toString("hex")] *)
Definition hex_char (z : Z) : Ascii.ascii :=
  Ascii.ascii_of_N (Z.to_N (if decide (z < 10) then z + 48 else z + 87)).

Fixpoint Buffer_to_hex (l : list Z) : string :=
  match l with
  | [] => ""
  | b :: l => String (hex_char (b / 16)) (String (hex_char (b mod 16)) (Buffer_to_hex l))
  end.

(** [parseInt(s, 10)] of an unsigned numeral: its leading digits, [None] for
    [NaN]. *)
Definition digit (c : Ascii.ascii) : option Z :=
  let n := Z.of_N (Ascii.N_of_ascii c) in
  if decide (48 ≤ n ≤ 57) then Some (n - 48) else None.

Fixpoint parseDigits (acc : Z) (s : string) : Z :=
  match s with
  | String c s => match digit c with
                  | Some d => parseDigits (10 * acc + d) s
                  | None => acc
                  end
  | EmptyString => acc
  end.

Definition parseInt (s : string) : option Z :=
  match s with
  | String c _ => match digit c with Some _ => Some (parseDigits 0 s) | None => None end
  | EmptyString => None
  end.

(** [c] does not occur in [s]. *)
Fixpoint lacks (c : Ascii.ascii) s : Prop :=
  match s with
  | EmptyString => True
  | String x s => x ≠ c ∧ lacks c s
  end.

#[export] Instance lacks_dec c s : Decision (lacks c s).
Proof. induction s; simpl; apply _. Defined.

(** ** [split] and [join] are inverse *)

Lemma split_nonempty c s : split c s ≠ [].
Proof.
  destruct s as [|x s]; simpl; [done|]. case_decide; [done|].
  by destruct (split c s).
Qed.

Lemma split_lacks c s : lacks c s → split c s = [s].
Proof.
  induction s as [|x s IH]; simpl; [done|]. intros [Hx Hs].
  rewrite decide_False by done. by rewrite IH.
Qed.

Lemma split_app c s t : lacks c s → split c (s +:+ String c t) = s :: split c t.
Proof.
  induction s as [|x s IH]; simpl.
  - intros _. by rewrite decide_True by done.
  - intros [Hx Hs]. rewrite decide_False by done.
    change (String.append s (String c t)) with (s +:+ String c t).
    by rewrite IH.
Qed.

Lemma split_join c l :
  l ≠ [] → Forall (lacks c) l → split c (join (String c "") l) = l.
Proof.
  induction l as [|x [|y l] IH]; intros Hl Hall; [done| |].
  - inversion Hall; subst. by apply split_lacks.
  - inversion Hall as [|?? Hx Hrest]; subst.
    change (join (String c "") (x :: y :: l))
      with (x +:+ String c (join (String c "") (y :: l))).
    rewrite split_app by done. by rewrite IH.
Qed.

Lemma join_split c s : join (String c "") (split c s) = s.
Proof.
  induction s as [|x s IH]; simpl; [done|].
  pose proof (split_nonempty c s). case_decide as Hx.
  - subst x. destruct (split c s) as [|y l]; [done|].
    rewrite <- IH. reflexivity.
  - destruct (split c s) as [|y [|z l]]; [done| |]; rewrite <- IH; reflexivity.
Qed.

Lemma split_all_lack c s : Forall (lacks c) (split c s).
Proof.
  induction s as [|x s IH]; simpl; [by repeat constructor|].
  case_decide; [by constructor|].
  destruct (split c s) as [|y l]; [by repeat constructor|].
  inversion IH; subst. by repeat constructor.
Qed.

(** ** Composite identifiers *)

Lemma lacks_app c s t : lacks c (s +:+ t) ↔ lacks c s ∧ lacks c t.
Proof.
  induction s as [|x s IH]; simpl; [tauto|].
  change (String.append s t) with (s +:+ t). rewrite IH. tauto.
Qed.

(** A separator that the left parts lack makes concatenation injective. *)
Lemma sep_inj c a a' b b' :
  lacks c a → lacks c a' →
  a +:+ String c b = a' +:+ String c b' → a = a' ∧ b = b'.
Proof.
  revert a'. induction a as [|x a IH]; intros [|x' a']; simpl.
  - intros _ _ [= ->]. done.
  - intros _ [? ?] [= <- _]. done.
  - intros [? ?] _ [= -> _]. done.
  - intros [? Ha] [? Ha'] [= <- E].
    destruct (IH a' Ha Ha' E) as [-> ->]. done.
Qed.

Lemma string_app_assoc a b c : (a +:+ b) +:+ c = a +:+ b +:+ c.
Proof. induction a as [|x a IH]; [done|]. exact (f_equal (String x) IH). Qed.

Lemma string_app_nil_r a : a +:+ "" = a.
Proof. induction a as [|x a IH]; [done|]. exact (f_equal (String x) IH). Qed.

Lemma string_length_app s t :
  String.length (s +:+ t) = (String.length s + String.length t)%nat.
Proof. induction s as [|c s IH]; [done|]. change (S (String.length (s +:+ t)) =
  S (String.length s + String.length t)). by rewrite IH. Qed.

Lemma app_inj_l s s' t : s +:+ t = s' +:+ t → s = s'.
Proof.
  revert s'. induction s as [|c s IH]; intros [|c' s'] Heq; try done.
  - apply (f_equal String.length) in Heq. rewrite !string_length_app in Heq.
    simpl in Heq. lia.
  - apply (f_equal String.length) in Heq. rewrite !string_length_app in Heq.
    simpl in Heq. lia.
  - injection Heq as -> Heq. f_equal. by apply IH.
Qed.

Lemma app_inj_r s t t' : s +:+ t = s +:+ t' → t = t'.
Proof. induction s as [|x s IH]; simpl; [done|]. intros [= E]. auto. Qed.

(** Decimal numerals of natural numbers contain no dash. *)
Lemma lacks_pretty_N_go c x s :
  (∀ d, (d < 10)%N → pretty_N_char d ≠ c) → lacks c s → lacks c (pretty_N_go x s).
Proof.
  intros Hc. revert s. induction (N.lt_wf_0 x) as [x _ IH]; intros s Hs.
  destruct (decide (x = 0)%N) as [->|Hx]; [by rewrite pretty_N_go_0|].
  rewrite pretty_N_go_step by lia. apply IH.
  - apply N.div_lt; lia.
  - simpl. split; [|done]. apply Hc. apply N.mod_lt. lia.
Qed.

Lemma pretty_N_char_digit d :
  (d < 10)%N → (48 ≤ Ascii.N_of_ascii (pretty_N_char d) ≤ 57)%N.
Proof.
  intros Hd. destruct d as [|p]; [vm_compute; intuition congruence|].
  do 4 (try (destruct p as [p|p|]; try lia)); vm_compute; intuition congruence.
Qed.

Lemma lacks_pretty_N c (n : N) :
  ¬ (48 ≤ Ascii.N_of_ascii c ≤ 57)%N → lacks c (pretty n).
Proof.
  intros Hc. unfold pretty, pretty_N. case_decide.
  - simpl. split; [|done]. intros <-. apply Hc. vm_compute. intuition congruence.
  - apply lacks_pretty_N_go; [|done].
    intros d Hd <-. by apply Hc, pretty_N_char_digit.
Qed.

Lemma lacks_pretty_Z c (z : Z) :
  0 ≤ z → ¬ (48 ≤ Ascii.N_of_ascii c ≤ 57)%N → lacks c (pretty z).
Proof.
  intros Hz Hc. destruct z as [|p|p]; [|by apply (lacks_pretty_N c (N.pos p))|lia].
  apply (lacks_pretty_N c 0%N). done.
Qed.

Lemma pretty_N_go_nonempty x s : s ≠ "" → pretty_N_go x s ≠ "".
Proof.
  revert s. induction (N.lt_wf_0 x) as [x _ IH]; intros s Hs.
  destruct (decide (x = 0)%N) as [->|Hx]; [by rewrite pretty_N_go_0|].
  rewrite pretty_N_go_step by lia. apply IH; [apply N.div_lt; lia|done].
Qed.

Lemma pretty_Z_nonempty (z : Z) : pretty z ≠ "".
Proof.
  assert (∀ p, pretty (N.pos p) ≠ "") as Hp.
  { intros p. unfold pretty, pretty_N. case_decide; [done|].
    rewrite pretty_N_go_step by lia. by apply pretty_N_go_nonempty. }
  destruct z as [|p|p]; [done|apply Hp|]. intros Hz. discriminate Hz.
Qed.

Lemma lacks_dash_pretty (z : Z) : 0 ≤ z → lacks dash (pretty z).
Proof. intros. apply lacks_pretty_Z; [done|]. vm_compute. intuition congruence. Qed.

(** Parsing a printed number. *)

Lemma digit_pretty d : (d < 10)%N → digit (pretty_N_char d) = Some (Z.of_N d).
Proof.
  intros Hd. destruct d as [|p]; [done|].
  do 4 (try (destruct p as [p|p|]; try lia)); vm_compute; reflexivity.
Qed.

Lemma parseDigits_go x s :
  (0 < x)%N → parseDigits 0 (pretty_N_go x s) = parseDigits (Z.of_N x) s.
Proof.
  revert s. induction (N.lt_wf_0 x) as [x _ IH]; intros s Hx.
  rewrite pretty_N_go_step by lia.
  assert (x mod 10 < 10)%N as Hm by (by apply N.mod_lt).
  pose proof (N.div_mod x 10 ltac:(done)) as Hdm.
  destruct (decide (x / 10 = 0)%N) as [H0|H0].
  - rewrite H0, pretty_N_go_0. cbn [parseDigits]. rewrite digit_pretty by done.
    f_equal. lia.
  - rewrite IH by (try apply N.div_lt; lia). cbn [parseDigits]. rewrite digit_pretty by done.
    f_equal. lia.
Qed.

Lemma parseInt_pretty z : 0 ≤ z → parseInt (pretty z) = Some z.
Proof.
  intros Hz. destruct z as [|p|p]; [vm_compute; reflexivity| |lia].
  assert (∃ c s d, pretty (Z.pos p) = String c s ∧ digit c = Some d) as (c & s & d & Hp & Hc).
  { change (pretty (Z.pos p)) with (pretty (N.pos p)). unfold pretty, pretty_N.
    rewrite decide_False by done. cut (∀ x s, (0 < x)%N →
      ∃ c s' d, pretty_N_go x s = String c s' ∧ digit c = Some d); [intros Hgo; by apply Hgo|].
    clear. intros x. induction (N.lt_wf_0 x) as [x _ IH]; intros s Hx.
    rewrite pretty_N_go_step by lia.
    destruct (decide (x / 10 = 0)%N) as [->|H0].
    - rewrite pretty_N_go_0. eexists _, _, _. split; [done|].
      apply digit_pretty. by apply N.mod_lt.
    - apply IH; [apply N.div_lt; lia|by apply N.neq_0_lt_0]. }
  unfold parseInt. rewrite Hp, Hc, <- Hp. f_equal.
  change (pretty (Z.pos p)) with (pretty (N.pos p)). unfold pretty, pretty_N.
  rewrite decide_False by done. by apply parseDigits_go.
Qed.

Lemma parseDigits_nonneg acc s : 0 ≤ acc → 0 ≤ parseDigits acc s.
Proof.
  revert acc. induction s as [|c s IH]; intros acc Hacc; simpl; [done|].
  destruct (digit c) as [d|] eqn:Hd; [|done]. apply IH.
  unfold digit in Hd. case_decide; simplify_eq. lia.
Qed.

Lemma parseInt_nonneg s n : parseInt s = Some n → 0 ≤ n.
Proof.
  destruct s as [|c s]; [done|]. unfold parseInt. destruct (digit c); intros; simplify_eq.
  by apply parseDigits_nonneg.
Qed.

(** ** Buffers *)

Lemma hex_digit_char z : 0 ≤ z < 16 → hex_digit (hex_char z) = Some z.
Proof.
  intros Hz. assert (z ∈ seqZ 0 16) as Hin by (apply elem_of_seqZ; lia).
  revert Hin. replace (seqZ 0 16) with [0;1;2;3;4;5;6;7;8;9;10;11;12;13;14;15] by done.
  rewrite !elem_of_cons, elem_of_nil.
  intros Hin. repeat destruct Hin as [->|Hin]; done.
Qed.

Lemma Buffer_hex_roundtrip l :
  Forall (λ b, 0 ≤ b < 256) l → Buffer_from_hex (Buffer_to_hex l) = l.
Proof.
  induction 1 as [|b l Hb Hl IH]; simpl; [done|].
  assert (0 ≤ b / 16 < 16) by (split; [apply Z.div_pos; lia|apply Z.div_lt_upper_bound; lia]).
  assert (0 ≤ b mod 16 < 16) by (apply Z.mod_pos_bound; lia).
  rewrite !hex_digit_char by done.
  rewrite IH. f_equal. pose proof (Z.div_mod b 16). lia.
Qed.

Lemma toLowerCase_app s t : toLowerCase (s +:+ t) = toLowerCase s +:+ toLowerCase t.
Proof. induction s as [|c s IH]; simpl; [done|]. exact (f_equal (String (lower_char c)) IH). Qed.

Lemma lower_char_idem c : lower_char (lower_char c) = lower_char c.
Proof. destruct c as [[] [] [] [] [] [] [] []]; vm_compute; reflexivity. Qed.

Lemma toLowerCase_idem s : toLowerCase (toLowerCase s) = toLowerCase s.
Proof. induction s as [|c s IH]; simpl; [done|]. by rewrite lower_char_idem, IH. Qed.

(** ** Arrays used as sets *)

(** [[...new Set([...l, x]).values()]]: insertion order, duplicates dropped. *)
Definition set_values (l : list string) : list string :=
  foldl (λ acc x, if decide (x ∈ acc) then acc else acc ++ [x]) [] l.

Lemma set_values_spec l :
  NoDup (set_values l) ∧ ∀ x, x ∈ set_values l ↔ x ∈ l.
Proof.
  unfold set_values. cut (∀ acc, NoDup acc →
    let r := foldl (λ acc x, if decide (x ∈ acc) then acc else acc ++ [x]) acc l in
    NoDup r ∧ ∀ x, x ∈ r ↔ x ∈ acc ∨ x ∈ l).
  { intros H. destruct (H [] (NoDup_nil_2)) as [? Hr]. split; [done|].
    intros x. rewrite Hr. set_solver. }
  induction l as [|y l IH]; intros acc Hacc; simpl.
  - split; [done|]. set_solver.
  - case_decide as Hy.
    + destruct (IH acc Hacc) as [? Hr]. split; [done|].
      intros x. rewrite Hr. set_solver.
    + destruct (IH (acc ++ [y])) as [? Hr].
      * apply NoDup_app. split; [done|]. split; [set_solver|]. apply NoDup_singleton.
      * split; [done|]. intros x. rewrite Hr. set_solver.
Qed.

Lemma set_values_NoDup_id l : NoDup l → set_values l = l.
Proof.
  unfold set_values. cut (∀ acc, NoDup (acc ++ l) →
    foldl (λ acc x, if decide (x ∈ acc) then acc else acc ++ [x]) acc l = acc ++ l).
  { intros H Hl. by rewrite (H []). }
  induction l as [|y l IH]; intros acc; simpl; [by rewrite app_nil_r|].
  intros Hnd. rewrite decide_False.
  - rewrite IH; [by rewrite <- app_assoc|]. by rewrite <- app_assoc.
  - apply NoDup_app in Hnd as (_ & Hdisj & _). intros Hin.
    apply (Hdisj y Hin). set_solver.
Qed.

(** ** Integers of 32 bits *)

(** [x | 0]: the integer of 32 bits, with a sign, that is congruent to [x]. *)
Definition toInt32 (x : Z) : Z := (x + 2 ^ 31) mod 2 ^ 32 - 2 ^ 31.

Lemma toInt32_bounds x : -2 ^ 31 ≤ toInt32 x < 2 ^ 31.
Proof. unfold toInt32. pose proof (Z.mod_pos_bound (x + 2 ^ 31) (2 ^ 32)). lia. Qed.

Lemma toInt32_mod x : toInt32 x mod 2 ^ 32 = x mod 2 ^ 32.
Proof. unfold toInt32. rewrite Zminus_mod_idemp_l. f_equal. lia. Qed.
