(* ===== verification/Model.v ===== *)
(** * Entities of the index

    The enumerations and entities of [model/generated], as they are held in
    memory while a batch is processed.  A nullable column is an [option]
    ([undefined] and [null] are both [None]).  A property that holds another
    entity object holds here what the code reads through it that cannot change
    afterwards: the identifier of the entity, under which the batch's maps hold
    the object itself, with the address for an account. *)

From S2P Require Import Prelude.
Open Scope string_scope.
Open Scope list_scope.
Open Scope Z_scope.

(** [Category], model/generated/_category.ts:1-7.  Category of a token. *)
Inductive Category :=
  | cat_parcel
  | cat_estate
  | cat_wearable
  | cat_emote
  | cat_ens.

#[export] Instance Category_eq_dec : EqDecision Category.
Proof. solve_decision. Defined.

(** [Currency], model/generated/_currency.ts:1-4.  Currency a rarity is priced in. *)
Inductive Currency :=
  | cur_MANA
  | cur_USD.

#[export] Instance Currency_eq_dec : EqDecision Currency.
Proof. solve_decision. Defined.

(** [ItemType], model/generated/_itemType.ts:1-7.  What an item is; [undefined] is a value of the enum. *)
Inductive ItemType :=
  | item_undefined
  | item_wearable_v1
  | item_wearable_v2
  | item_smart_wearable_v1
  | item_emote_v1.

#[export] Instance ItemType_eq_dec : EqDecision ItemType.
Proof. solve_decision. Defined.

(** [Network], model/generated/_network.ts:1-4.  The indexed networks. *)
Inductive Network :=
  | ETHEREUM
  | POLYGON.

#[export] Instance Network_eq_dec : EqDecision Network.
Proof. solve_decision. Defined.

(** [Operation], model/generated/_operation.ts:1-6.  How a sale was paid. *)
Inductive Operation :=
  | op_native
  | op_fiat
  | op_cross_chain
  | op_credits.

#[export] Instance Operation_eq_dec : EqDecision Operation.
Proof. solve_decision. Defined.

(** [OrderStatus], model/generated/_orderStatus.ts:1-6.  Life cycle of an order or a bid. *)
Inductive OrderStatus :=
  | status_open
  | status_sold
  | status_cancelled
  | status_transferred.

#[export] Instance OrderStatus_eq_dec : EqDecision OrderStatus.
Proof. solve_decision. Defined.

(** [SaleType], model/generated/_saleType.ts:1-5.  Kind of a sale. *)
Inductive SaleType :=
  | sale_bid
  | sale_order
  | sale_mint.

#[export] Instance SaleType_eq_dec : EqDecision SaleType.
Proof. solve_decision. Defined.

(** The string an enumeration member stands for. *)
Definition network_str (n : Network) : string :=
  match n with ETHEREUM => "ETHEREUM" | POLYGON => "POLYGON" end.

Definition currency_str (c : Currency) : string :=
  match c with cur_MANA => "MANA" | cur_USD => "USD" end.

(** An account object as seen through [nft.owner] and the like: its key in
    the [accounts] map and its address, both fixed at creation. *)
Record AccountRef := mkAccountRef {
  aref_id : string;
  aref_address : string
}.

#[export] Instance AccountRef_eq_dec : EqDecision AccountRef.
Proof. solve_decision. Defined.

(** [Account], model/generated/account.model.ts:6-71.  *)
Record Account := mkAccount {
  acc_id : string;
  acc_address : string;
  acc_sales : Z;
  acc_purchases : Z;
  acc_spent : Z;
  acc_earned : Z;
  acc_isCommitteeMember : option bool;
  acc_totalCurations : option Z;
  acc_primarySales : Z;
  acc_primarySalesEarned : Z;
  acc_royalties : Z;
  acc_uniqueAndMythicItems : list string;
  acc_uniqueAndMythicItemsTotal : Z;
  acc_collections : Z;
  acc_creatorsSupported : list string;
  acc_creatorsSupportedTotal : Z;
  acc_uniqueCollectors : list string;
  acc_uniqueCollectorsTotal : Z;
  acc_network : Network
}.

#[export] Instance eta_Account : Eta Account := λ r,
  mkAccount (acc_id r) (acc_address r) (acc_sales r) (acc_purchases r)
    (acc_spent r) (acc_earned r) (acc_isCommitteeMember r)
    (acc_totalCurations r) (acc_primarySales r) (acc_primarySalesEarned r)
    (acc_royalties r) (acc_uniqueAndMythicItems r)
    (acc_uniqueAndMythicItemsTotal r) (acc_collections r)
    (acc_creatorsSupported r) (acc_creatorsSupportedTotal r)
    (acc_uniqueCollectors r) (acc_uniqueCollectorsTotal r) (acc_network r).

(** [AccountsDayData], model/generated/accountsDayData.model.ts:5-51.  *)
Record AccountsDayData := mkAccountsDayData {
  ad_id : string;
  ad_date : Z;
  ad_sales : Z;
  ad_purchases : Z;
  ad_earned : Z;
  ad_spent : Z;
  ad_uniqueCollectionsSales : list string;
  ad_uniqueCollectors : list string;
  ad_uniqueCollectorsTotal : Z;
  ad_uniqueAndMythicItems : list string;
  ad_uniqueAndMythicItemsTotal : Z;
  ad_creatorsSupported : list string;
  ad_creatorsSupportedTotal : Z;
  ad_network : Network
}.

#[export] Instance eta_AccountsDayData : Eta AccountsDayData := λ r,
  mkAccountsDayData (ad_id r) (ad_date r) (ad_sales r) (ad_purchases r)
    (ad_earned r) (ad_spent r) (ad_uniqueCollectionsSales r)
    (ad_uniqueCollectors r) (ad_uniqueCollectorsTotal r)
    (ad_uniqueAndMythicItems r) (ad_uniqueAndMythicItemsTotal r)
    (ad_creatorsSupported r) (ad_creatorsSupportedTotal r) (ad_network r).

(** [AnalyticsDayData], model/generated/analyticsDayData.model.ts:5-30.  *)
Record AnalyticsDayData := mkAnalyticsDayData {
  an_id : string;
  an_date : Z;
  an_sales : Z;
  an_volume : Z;
  an_creatorsEarnings : Z;
  an_daoEarnings : Z;
  an_network : Network
}.

#[export] Instance eta_AnalyticsDayData : Eta AnalyticsDayData := λ r,
  mkAnalyticsDayData (an_id r) (an_date r) (an_sales r) (an_volume r)
    (an_creatorsEarnings r) (an_daoEarnings r) (an_network r).

(** [ItemsDayData], model/generated/itemsDayData.model.ts:6-31.  *)
Record ItemsDayData := mkItemsDayData {
  idd_id : string;
  idd_date : Z;
  idd_sales : Z;
  idd_volume : Z;
  idd_searchEmoteCategory : option string;
  idd_searchWearableCategory : option string;
  idd_searchRarity : option string
}.

#[export] Instance eta_ItemsDayData : Eta ItemsDayData := λ r,
  mkItemsDayData (idd_id r) (idd_date r) (idd_sales r) (idd_volume r)
    (idd_searchEmoteCategory r) (idd_searchWearableCategory r)
    (idd_searchRarity r).

(** [Count], model/generated/count.model.ts:5-84.  *)
Record Count := mkCount {
  cnt_id : string;
  cnt_orderTotal : Z;
  cnt_orderParcel : Z;
  cnt_orderEstate : Z;
  cnt_orderWearable : Z;
  cnt_orderENS : Z;
  cnt_parcelTotal : Z;
  cnt_estateTotal : Z;
  cnt_wearableTotal : Z;
  cnt_ensTotal : Z;
  cnt_started : Z;
  cnt_salesTotal : Z;
  cnt_salesManaTotal : Z;
  cnt_creatorEarningsManaTotal : Z;
  cnt_daoEarningsManaTotal : Z;
  cnt_bidTotal : Z;
  cnt_collectionTotal : Z;
  cnt_itemTotal : Z;
  cnt_nftTotal : Z;
  cnt_primarySalesTotal : Z;
  cnt_primarySalesManaTotal : Z;
  cnt_secondarySalesTotal : Z;
  cnt_secondarySalesManaTotal : Z;
  cnt_royaltiesManaTotal : Z;
  cnt_network : Network
}.

#[export] Instance eta_Count : Eta Count := λ r,
  mkCount (cnt_id r) (cnt_orderTotal r) (cnt_orderParcel r) (cnt_orderEstate
    r) (cnt_orderWearable r) (cnt_orderENS r) (cnt_parcelTotal r)
    (cnt_estateTotal r) (cnt_wearableTotal r) (cnt_ensTotal r) (cnt_started
    r) (cnt_salesTotal r) (cnt_salesManaTotal r)
    (cnt_creatorEarningsManaTotal r) (cnt_daoEarningsManaTotal r)
    (cnt_bidTotal r) (cnt_collectionTotal r) (cnt_itemTotal r) (cnt_nftTotal
    r) (cnt_primarySalesTotal r) (cnt_primarySalesManaTotal r)
    (cnt_secondarySalesTotal r) (cnt_secondarySalesManaTotal r)
    (cnt_royaltiesManaTotal r) (cnt_network r).

(** [Collection], model/generated/collection.model.ts:6-88.  *)
Record Collection := mkCollection {
  col_id : string;
  col_owner : string;
  col_creator : string;
  col_name : string;
  col_symbol : string;
  col_isCompleted : option bool;
  col_isApproved : option bool;
  col_isEditable : option bool;
  col_minters : list string;
  col_managers : list string;
  col_urn : string;
  col_itemsCount : Z;
  col_createdAt : Z;
  col_updatedAt : Z;
  col_reviewedAt : Z;
  col_firstListedAt : option Z;
  col_searchIsStoreMinter : bool;
  col_searchIsMarketplaceV3Minter : bool;
  col_searchText : string;
  col_baseURI : string;
  col_chainId : Z;
  col_usedCredits : bool;
  col_creditValue : option Z;
  col_txHash : string;
  col_network : Network
}.

#[export] Instance eta_Collection : Eta Collection := λ r,
  mkCollection (col_id r) (col_owner r) (col_creator r) (col_name r)
    (col_symbol r) (col_isCompleted r) (col_isApproved r) (col_isEditable r)
    (col_minters r) (col_managers r) (col_urn r) (col_itemsCount r)
    (col_createdAt r) (col_updatedAt r) (col_reviewedAt r)
    (col_firstListedAt r) (col_searchIsStoreMinter r)
    (col_searchIsMarketplaceV3Minter r) (col_searchText r) (col_baseURI r)
    (col_chainId r) (col_usedCredits r) (col_creditValue r) (col_txHash r)
    (col_network r).

(** [Wearable], model/generated/wearable.model.ts:10-48.  *)
Record Wearable := mkWearable {
  wr_id : string;
  wr_owner : option AccountRef;
  wr_representationId : option string;
  wr_collection : string;
  wr_name : string;
  wr_description : string;
  wr_category : string;
  wr_rarity : string;
  wr_bodyShapes : option (list string);
  wr_network : Network
}.

#[export] Instance eta_Wearable : Eta Wearable := λ r,
  mkWearable (wr_id r) (wr_owner r) (wr_representationId r) (wr_collection
    r) (wr_name r) (wr_description r) (wr_category r) (wr_rarity r)
    (wr_bodyShapes r) (wr_network r).

(** [Emote], model/generated/emote.model.ts:8-45.  *)
Record Emote := mkEmote {
  em_id : string;
  em_name : string;
  em_description : string;
  em_collection : string;
  em_category : string;
  em_loop : bool;
  em_rarity : string;
  em_bodyShapes : option (list string);
  em_hasSound : option bool;
  em_hasGeometry : option bool;
  em_outcomeType : option string
}.

#[export] Instance eta_Emote : Eta Emote := λ r,
  mkEmote (em_id r) (em_name r) (em_description r) (em_collection r)
    (em_category r) (em_loop r) (em_rarity r) (em_bodyShapes r) (em_hasSound
    r) (em_hasGeometry r) (em_outcomeType r).

(** [Metadata], model/generated/metadata.model.ts:8-29. [wearable] and [emote] are the objects themselves: they are only reassigned together with them. *)
Record Metadata := mkMetadata {
  md_id : string;
  md_itemType : ItemType;
  md_wearable : option Wearable;
  md_emote : option Emote;
  md_network : Network
}.

#[export] Instance eta_Metadata : Eta Metadata := λ r,
  mkMetadata (md_id r) (md_itemType r) (md_wearable r) (md_emote r)
    (md_network r).

(** [Item], model/generated/item.model.ts:14-172.  *)
Record Item := mkItem {
  it_id : string;
  it_collection : option string;
  it_blockchainId : Z;
  it_creator : string;
  it_itemType : ItemType;
  it_totalSupply : Z;
  it_maxSupply : Z;
  it_rarity : string;
  it_creationFee : Z;
  it_available : Z;
  it_price : Z;
  it_beneficiary : string;
  it_contentHash : option string;
  it_uri : string;
  it_image : option string;
  it_minters : list string;
  it_managers : list string;
  it_metadata : option string;
  it_rawMetadata : string;
  it_urn : string;
  it_createdAt : Z;
  it_updatedAt : Z;
  it_reviewedAt : Z;
  it_soldAt : option Z;
  it_firstListedAt : option Z;
  it_sales : Z;
  it_volume : Z;
  it_searchText : option string;
  it_searchItemType : option ItemType;
  it_searchIsCollectionApproved : option bool;
  it_searchIsStoreMinter : bool;
  it_searchIsMarketplaceV3Minter : bool;
  it_searchIsWearableHead : option bool;
  it_searchIsWearableAccessory : option bool;
  it_searchWearableCategory : option string;
  it_searchWearableRarity : option string;
  it_searchWearableBodyShapes : option (list string);
  it_searchEmoteCategory : option string;
  it_searchEmoteLoop : option bool;
  it_searchEmoteRarity : option string;
  it_searchEmoteBodyShapes : option (list string);
  it_searchEmoteHasSound : option bool;
  it_searchEmoteHasGeometry : option bool;
  it_searchEmoteOutcomeType : option string;
  it_uniqueCollectors : list string;
  it_uniqueCollectorsTotal : Z;
  it_network : Network
}.

#[export] Instance eta_Item : Eta Item := λ r,
  mkItem (it_id r) (it_collection r) (it_blockchainId r) (it_creator r)
    (it_itemType r) (it_totalSupply r) (it_maxSupply r) (it_rarity r)
    (it_creationFee r) (it_available r) (it_price r) (it_beneficiary r)
    (it_contentHash r) (it_uri r) (it_image r) (it_minters r) (it_managers
    r) (it_metadata r) (it_rawMetadata r) (it_urn r) (it_createdAt r)
    (it_updatedAt r) (it_reviewedAt r) (it_soldAt r) (it_firstListedAt r)
    (it_sales r) (it_volume r) (it_searchText r) (it_searchItemType r)
    (it_searchIsCollectionApproved r) (it_searchIsStoreMinter r)
    (it_searchIsMarketplaceV3Minter r) (it_searchIsWearableHead r)
    (it_searchIsWearableAccessory r) (it_searchWearableCategory r)
    (it_searchWearableRarity r) (it_searchWearableBodyShapes r)
    (it_searchEmoteCategory r) (it_searchEmoteLoop r) (it_searchEmoteRarity
    r) (it_searchEmoteBodyShapes r) (it_searchEmoteHasSound r)
    (it_searchEmoteHasGeometry r) (it_searchEmoteOutcomeType r)
    (it_uniqueCollectors r) (it_uniqueCollectorsTotal r) (it_network r).

(** [NFT], model/generated/nft.model.ts:25-211. The Ethereum-only columns ([parcel], [estate], [wearable], [ens] and the LAND search fields) belong to the other processor and are left out; [orders] and [bids] are inverse sides with no column. *)
Record NFT := mkNFT {
  nft_id : string;
  nft_tokenId : Z;
  nft_contractAddress : string;
  nft_category : Category;
  nft_owner : option AccountRef;
  nft_ownerAddress : string;
  nft_tokenURI : option string;
  nft_activeOrder : option string;
  nft_name : option string;
  nft_image : option string;
  nft_createdAt : Z;
  nft_updatedAt : Z;
  nft_soldAt : option Z;
  nft_transferredAt : Z;
  nft_sales : Z;
  nft_volume : Z;
  nft_searchOrderStatus : option OrderStatus;
  nft_searchOrderPrice : option Z;
  nft_searchOrderExpiresAt : option Z;
  nft_searchOrderExpiresAtNormalized : option Z;
  nft_searchOrderCreatedAt : option Z;
  nft_searchText : option string;
  nft_searchIsWearableHead : option bool;
  nft_searchIsWearableAccessory : option bool;
  nft_searchWearableRarity : option string;
  nft_searchWearableCategory : option string;
  nft_searchWearableBodyShapes : option (list string);
  nft_itemBlockchainId : option Z;
  nft_issuedId : option Z;
  nft_itemType : option ItemType;
  nft_urn : option string;
  nft_collection : option string;
  nft_item : option string;
  nft_metadata : option string;
  nft_searchItemType : option ItemType;
  nft_searchEmoteCategory : option string;
  nft_searchEmoteLoop : option bool;
  nft_searchEmoteRarity : option string;
  nft_searchEmoteBodyShapes : option (list string);
  nft_network : Network
}.

#[export] Instance eta_NFT : Eta NFT := λ r,
  mkNFT (nft_id r) (nft_tokenId r) (nft_contractAddress r) (nft_category r)
    (nft_owner r) (nft_ownerAddress r) (nft_tokenURI r) (nft_activeOrder r)
    (nft_name r) (nft_image r) (nft_createdAt r) (nft_updatedAt r)
    (nft_soldAt r) (nft_transferredAt r) (nft_sales r) (nft_volume r)
    (nft_searchOrderStatus r) (nft_searchOrderPrice r)
    (nft_searchOrderExpiresAt r) (nft_searchOrderExpiresAtNormalized r)
    (nft_searchOrderCreatedAt r) (nft_searchText r)
    (nft_searchIsWearableHead r) (nft_searchIsWearableAccessory r)
    (nft_searchWearableRarity r) (nft_searchWearableCategory r)
    (nft_searchWearableBodyShapes r) (nft_itemBlockchainId r) (nft_issuedId
    r) (nft_itemType r) (nft_urn r) (nft_collection r) (nft_item r)
    (nft_metadata r) (nft_searchItemType r) (nft_searchEmoteCategory r)
    (nft_searchEmoteLoop r) (nft_searchEmoteRarity r)
    (nft_searchEmoteBodyShapes r) (nft_network r).

(** [Order], model/generated/order.model.ts:9-70.  *)
Record Order := mkOrder {
  ord_id : string;
  ord_marketplaceAddress : string;
  ord_category : Category;
  ord_nft : option string;
  ord_nftAddress : string;
  ord_tokenId : Z;
  ord_txHash : string;
  ord_owner : string;
  ord_buyer : option string;
  ord_price : Z;
  ord_status : OrderStatus;
  ord_blockNumber : Z;
  ord_expiresAt : Z;
  ord_expiresAtNormalized : Z;
  ord_createdAt : Z;
  ord_updatedAt : Z;
  ord_item : option string;
  ord_network : Network
}.

#[export] Instance eta_Order : Eta Order := λ r,
  mkOrder (ord_id r) (ord_marketplaceAddress r) (ord_category r) (ord_nft r)
    (ord_nftAddress r) (ord_tokenId r) (ord_txHash r) (ord_owner r)
    (ord_buyer r) (ord_price r) (ord_status r) (ord_blockNumber r)
    (ord_expiresAt r) (ord_expiresAtNormalized r) (ord_createdAt r)
    (ord_updatedAt r) (ord_item r) (ord_network r).

(** [Bid], model/generated/bid.model.ts:8-64.  *)
Record Bid := mkBid {
  bid_id : string;
  bid_bidAddress : string;
  bid_category : Category;
  bid_nft : option string;
  bid_nftAddress : string;
  bid_tokenId : Z;
  bid_bidder : option (list Z);
  bid_seller : option (list Z);
  bid_price : Z;
  bid_fingerprint : option (list Z);
  bid_status : OrderStatus;
  bid_blockchainId : string;
  bid_blockNumber : Z;
  bid_expiresAt : Z;
  bid_createdAt : Z;
  bid_updatedAt : Z;
  bid_network : Network
}.

#[export] Instance eta_Bid : Eta Bid := λ r,
  mkBid (bid_id r) (bid_bidAddress r) (bid_category r) (bid_nft r)
    (bid_nftAddress r) (bid_tokenId r) (bid_bidder r) (bid_seller r)
    (bid_price r) (bid_fingerprint r) (bid_status r) (bid_blockchainId r)
    (bid_blockNumber r) (bid_expiresAt r) (bid_createdAt r) (bid_updatedAt
    r) (bid_network r).

(** [Sale], model/generated/sale.model.ts:10-80.  *)
Record Sale := mkSale {
  sl_id : string;
  sl_type : SaleType;
  sl_buyer : string;
  sl_realBuyer : string;
  sl_operation : Operation;
  sl_seller : string;
  sl_price : Z;
  sl_nft : string;
  sl_timestamp : Z;
  sl_txHash : string;
  sl_searchTokenId : Z;
  sl_searchContractAddress : string;
  sl_searchCategory : Category;
  sl_beneficiary : option (list Z);
  sl_feesCollectorCut : option Z;
  sl_feesCollector : option (list Z);
  sl_royaltiesCut : option Z;
  sl_royaltiesCollector : option (list Z);
  sl_item : option string;
  sl_searchItemId : option Z;
  sl_network : Network
}.

#[export] Instance eta_Sale : Eta Sale := λ r,
  mkSale (sl_id r) (sl_type r) (sl_buyer r) (sl_realBuyer r) (sl_operation
    r) (sl_seller r) (sl_price r) (sl_nft r) (sl_timestamp r) (sl_txHash r)
    (sl_searchTokenId r) (sl_searchContractAddress r) (sl_searchCategory r)
    (sl_beneficiary r) (sl_feesCollectorCut r) (sl_feesCollector r)
    (sl_royaltiesCut r) (sl_royaltiesCollector r) (sl_item r)
    (sl_searchItemId r) (sl_network r).

(** [Mint], model/generated/mint.model.ts:7-55.  *)
Record Mint := mkMint {
  mt_id : string;
  mt_item : string;
  mt_nft : string;
  mt_creator : string;
  mt_beneficiary : string;
  mt_minter : string;
  mt_timestamp : Z;
  mt_searchPrimarySalePrice : option Z;
  mt_searchContractAddress : string;
  mt_searchItemId : Z;
  mt_searchTokenId : Z;
  mt_searchIssuedId : option Z;
  mt_searchIsStoreMinter : bool;
  mt_network : Network
}.

#[export] Instance eta_Mint : Eta Mint := λ r,
  mkMint (mt_id r) (mt_item r) (mt_nft r) (mt_creator r) (mt_beneficiary r)
    (mt_minter r) (mt_timestamp r) (mt_searchPrimarySalePrice r)
    (mt_searchContractAddress r) (mt_searchItemId r) (mt_searchTokenId r)
    (mt_searchIssuedId r) (mt_searchIsStoreMinter r) (mt_network r).

(** [Transfer], model/generated/transfer.model.ts:4-37.  *)
Record Transfer := mkTransfer {
  tr_id : string;
  tr_nftId : string;
  tr_network : Network;
  tr_block : Z;
  tr_timestamp : Z;
  tr_from : string;
  tr_to : string;
  tr_txHash : string
}.

#[export] Instance eta_Transfer : Eta Transfer := λ r,
  mkTransfer (tr_id r) (tr_nftId r) (tr_network r) (tr_block r)
    (tr_timestamp r) (tr_from r) (tr_to r) (tr_txHash r).

(** [Curation], model/generated/curation.model.ts:7-35.  *)
Record Curation := mkCuration {
  cu_id : string;
  cu_txHash : list Z;
  cu_curator : AccountRef;
  cu_collection : string;
  cu_item : option string;
  cu_isApproved : bool;
  cu_timestamp : Z
}.

#[export] Instance eta_Curation : Eta Curation := λ r,
  mkCuration (cu_id r) (cu_txHash r) (cu_curator r) (cu_collection r)
    (cu_item r) (cu_isApproved r) (cu_timestamp r).

(** [Data], model/generated/data.model.ts:6-33.  *)
Record Data := mkData {
  dat_id : string;
  dat_version : string;
  dat_name : option string;
  dat_description : option string;
  dat_ipns : option string
}.

#[export] Instance eta_Data : Eta Data := λ r,
  mkData (dat_id r) (dat_version r) (dat_name r) (dat_description r)
    (dat_ipns r).

(** [Rarity], model/generated/rarity.model.ts:5-24.  *)
Record Rarity := mkRarity {
  ra_id : string;
  ra_name : string;
  ra_maxSupply : Z;
  ra_price : Z;
  ra_currency : Currency
}.

#[export] Instance eta_Rarity : Eta Rarity := λ r,
  mkRarity (ra_id r) (ra_name r) (ra_maxSupply r) (ra_price r) (ra_currency
    r).

(** [SquidRouterOrder], model/generated/squidRouterOrder.model.ts:8-42.  *)
Record SquidRouterOrder := mkSquidRouterOrder {
  sro_id : string;
  sro_orderHash : string;
  sro_creditIds : list string;
  sro_totalCreditsUsed : Z;
  sro_txHash : string;
  sro_blockNumber : Z;
  sro_timestamp : Z;
  sro_network : Network
}.

#[export] Instance eta_SquidRouterOrder : Eta SquidRouterOrder := λ r,
  mkSquidRouterOrder (sro_id r) (sro_orderHash r) (sro_creditIds r)
    (sro_totalCreditsUsed r) (sro_txHash r) (sro_blockNumber r)
    (sro_timestamp r) (sro_network r).
