(* ===== verification/Env.v ===== *)
(** * Environment, addresses and chain reads

    The configuration a processor runs under: the environment variables, the
    constants of [@dcl/schemas], the per-network contract addresses, and the
    contract reads the handlers make through RPC.  What the repository does not
    define ([@dcl/schemas], the clock, the chain) is a field of a class. *)

From S2P Require Import Prelude JsString Model.
Open Scope string_scope.
Open Scope list_scope.
Open Scope Z_scope.

(** [ChainId] of [@dcl/schemas], a third-party package. *)
Class DclSchemas := {
  ETHEREUM_MAINNET : Z;
  ETHEREUM_SEPOLIA : Z;
  MATIC_MAINNET : Z;
  MATIC_AMOY : Z
}.

(** The process environment.  A chain id variable is unset or holds the
    canonical decimal numeral of the number given here. *)
Class Env := {
  env_schemas :: DclSchemas;
  ETHEREUM_CHAIN_ID : option Z;
  POLYGON_CHAIN_ID : option Z;
  MIN_TRANSFER_NOTIFICATION_TIMESTAMP : option Z;
  (** what [Date.now()] and [new Date()] read, in milliseconds *)
  now : Z
}.

(** [Network] of [@dcl/schemas], as the address and URN helpers take it. *)
Inductive DclNetwork := DCL_ETHEREUM | DCL_MATIC.

#[export] Instance DclNetwork_eq_dec : EqDecision DclNetwork.
Proof. solve_decision. Defined.

(** The exports of [polygon/addresses/<chain>.ts] the processor reads.
    [TRANSAK_TOKEN] is exported for amoy only. *)
Record Addresses := mkAddresses {
  CollectionFactory : string;
  CollectionFactoryV3 : string;
  BidV2 : string;
  Marketplace : string;
  MarketplaceV2 : string;
  OldCommittee : string;
  Committee : string;
  CollectionStore : string;
  RaritiesWithOracle : string;
  RarityContract : string;
  CollectionManager : string;
  MarketplaceV3 : string;
  MarketplaceV3_V2 : string;
  MANA_TOKEN : string;
  TRANSAK_TOKEN : option string;
  CreditsManager : list string;
  Spoke : option string
}.

(** [polygon_mainnet], polygon/addresses/mainnet.ts:1-29 *)
Definition polygon_mainnet : Addresses := {|
  CollectionFactory := "0xb549b2442b2bd0a53795bc5cdcbfe0caf7aca9f8";
  CollectionFactoryV3 := "0x3195e88ae10704b359764cb38e429d24f1c2f781";
  BidV2 := "0xb96697fa4a3361ba35b774a42c58daccaad1b8e1";
  Marketplace := "0x02080031b45a3c67d338dd4a2cc309d28756a160";
  MarketplaceV2 := "0x480a0f4e360e8964e68858dd231c2922f1df45ef";
  OldCommittee := "0x71d9350ef44e1e451f00e447c0dff2d1fb75510a";
  Committee := "0xaeec95a8aa671a6d3fec56594827d7804964fa70";
  CollectionStore := "0x214ffc0f0103735728dc66b61a22e4f163e275ae";
  RaritiesWithOracle := "0xa9158e22f89bb3f69c5600338895cb5fb81e5090";
  RarityContract := "0x17113b44fdd661a156cc01b5031e3acf72c32eb3";
  CollectionManager := "0x9d32aac179153a991e832550d9f96441ea27763a";
  MarketplaceV3 := "0x540fb08edb56aae562864b390542c97f562825ba";
  MarketplaceV3_V2 := "0xa40b1d129b8906888720686f3a01921ddf37716f";
  MANA_TOKEN := "0xa1c57f48f0deb89f569dfbe6e2b7f46d33606fd4";
  TRANSAK_TOKEN := None;
  CreditsManager := ["0xe9f961e6ded4e1476bbee4faab886d63a2493eb9";
                     "0x8b3a40ca1b6f5cafc99d112a4d02e897d1fd8cc5"];
  Spoke := Some "0xfe91aaa1012b47499cfe8758874f2d2c52b22cd8"
|}.

(** [polygon_amoy], polygon/addresses/amoy.ts:1-27 *)
Definition polygon_amoy : Addresses := {|
  CollectionFactory := "0x2A72Ec4241Ac4fBc915ae98aC5a5b01AdE721f4B";
  CollectionFactoryV3 := "0x802de0c509add2ee29de24de7225daaff4741c43";
  BidV2 := "0x4b66eab79cc03a96fb6275cfcdf23c0db431606d";
  Marketplace := "0x2a09a000224f5dbe0E17214cA95CDe506DA7CB74";
  MarketplaceV2 := "0x0c8ad1f6aadf89d2eb19f01a100a6143108fe2b0";
  OldCommittee := "0x4bb5ACe5ceB3Dd51ea35fa01a8f9B5507c234270";
  Committee := "0x53c9c388000b6fc91b91fb466742d0e869785c3b";
  CollectionStore := "0xe36abc9ec616c83caaa386541380829106149d68";
  RaritiesWithOracle := "0x25b6b4bac4adb582a0abd475439da6730777fbf7";
  RarityContract := "0xddb3781fff645325c8896aa1f067baa381607ecc";
  CollectionManager := "0x5309ae874fc4eb21adcd63f8b6c3f766cc3b1849";
  MarketplaceV3 := "0x6ab20ae56673ed65f520b7be332aeb61b3ed727d";
  MarketplaceV3_V2 := "0x1b67d0e31eeb6b52d8eeed71d3616c2f5b33b8e7";
  MANA_TOKEN := "0x7ad72b9f944ea9793cf4055d88f81138cc2c63a0";
  TRANSAK_TOKEN := Some "0x0c86a754a29714c4fe9c6f1359fa7099ed174c0b";
  CreditsManager := ["0x8052a560e6e6ac86eeb7e711a4497f639b322fb3"];
  Spoke := Some "0xfe91aaa1012b47499cfe8758874f2d2c52b22cd8"
|}.

(** The exports of [eth/addresses/<chain>.ts]; [ea_collections] lists the values
    of the object [collections], in order. *)
Record EthAddresses := mkEthAddresses {
  ea_Null : string;
  ea_LANDRegistry : string;
  ea_EstateRegistry : string;
  ea_Marketplace : string;
  ea_DCLRegistrar : string;
  ea_ERC721Bid : string;
  ea_DCLControllerV2 : string;
  ea_MarketplaceV3 : string;
  ea_MarketplaceV3_V2 : string;
  ea_Spoke : string;
  ea_MANA : string;
  ea_collections : list string
}.

(** [eth_mainnet], eth/addresses/mainnet.ts:1-59 *)
Definition eth_mainnet : EthAddresses := {|
  ea_Null := "0x0000000000000000000000000000000000000000";
  ea_LANDRegistry := "0xf87e31492faf9a91b02ee0deaad50d51d56d5d4d";
  ea_EstateRegistry := "0x959e104e1a4db6317fa58f8295f586e1a978c297";
  ea_Marketplace := "0x8e5660b4ab70168b5a6feea0e0315cb49c8cd539";
  ea_DCLRegistrar := "0x2a187453064356c898cae034eaed119e1663acb8";
  ea_ERC721Bid := "0xe479dfd9664c693b2e2992300930b00bfde08233";
  ea_DCLControllerV2 := "0xbe92b49aee993adea3a002adcda189a2b7dec56c";
  ea_MarketplaceV3 := "0x2d6b3508f9aca32d2550f92b2addba932e73c1ff";
  ea_MarketplaceV3_V2 := "0x1b67d0e31eeb6b52d8eeed71d3616c2f5b33b8e7";
  ea_Spoke := "0xfe91aaa1012b47499cfe8758874f2d2c52b22cd8";
  ea_MANA := "0x0f5d2fb29fb7d3cfee444a200298f468908cc942";
  ea_collections := ["0x4c290f486bae507719c562b6b524bdb71a2570c9";
    "0xa8ee490e4c4da48cc1653502c1a77479d4d818de";
    "0x90958d4531258ca11d18396d4174a007edbc2b42";
    "0x32b7495895264ac9d0b12d32afd435453458b1c6";
    "0x24d538a6265b006d4b53c45ba91af5ef60dca6cb";
    "0xc3ca6c364b854fd0a653a43f8344f8c22ddfdd26";
    "0x1e1d4e6262787c8a8783a37fee698bd42aa42bec";
    "0x3163d2cfee3183f9874e2869942cc62649eeb004";
    "0xd35147be6401dcb20811f2104c33de8e97ed6818";
    "0xe7a64f6a239ed7f5bf18caa1ce2920d0c1278129";
    "0x102daabd1e9d294d4436ec4c521dce7b1f15499e";
    "0x51e0b1afe5da0c038fc93a3fc8e11cf7a238b40b";
    "0x7038e9d2c6f5f84469a84cf9bc5f4909bb6ac5e0";
    "0xbf53c33235cbfc22cef5a61a83484b86342679c5";
    "0x574f64ac2e7215cba9752b85fc73030f35166bc0";
    "0x5cf39e64392c615fd8086838883958752a11b486";
    "0x54266bcf2ffa841af934f003d144957d5934f3ab";
    "0xc04528c14c8ffd84c7c1fb6719b4a89853035cdd";
    "0xc1f4b0eea2bd6690930e6c66efd3e197d620b9c2";
    "0xfeb52cbf71b9adac957c6f948a6cf9980ac8c907";
    "0xf64dc33a192e056bb5f0e5049356a0498b502d50";
    "0x1a57f6afc902d25792c53b8f19b7e17ef84222d5";
    "0x30d3387ff3de2a21bef7032f82d00ff7739e403c";
    "0x0b1c6c75d511fae05e7dc696f4cf14129a9c43c9";
    "0x60d8271c501501c4b8cd9ed5343ac59d1b79d993";
    "0x6a99abebb48819d2abe92c5e4dc4f48dc09a3ee8";
    "0x09305998a531fade369ebe30adf868c96a34e813";
    "0x75a3752579dc2d63ca229eebbe3537fbabf85a12";
    "0x68e139552c4077ce5c9ab929c7e18ca721ffff00";
    "0xffc5043d9a00865d089d5eefa5b3d1625aec6763";
    "0x6b47e7066c7db71aa04a1d5872496fe05c4c331f";
    "0x201c3af8c471e5842428b74d1e7c0249adda2a92";
    "0xb5d14052d1e2bce2a2d7459d0379256e632b855d";
    "0x480a0f4e360e8964e68858dd231c2922f1df45ef";
    "0xe1ecb4e5130f493551c7d6df96ad19e5b431a0a9";
    "0xc82a864a94db3550bc71fcb4ce07228bcec21f1a";
    "0x34ed0aa248f60f54dd32fbc9883d6137a491f4f3";
    "0xb96697fa4a3361ba35b774a42c58daccaad1b8e1";
    "0x5df4602e7f38a91ea7724fc167f0c67f61604b1e";
    "0xc3af02c0fd486c8e9da5788b915d6fff3f049866";
    "0xecf073f91101ce5628669c487aee8f5822a101b1";
    "0xdd9c7bc159dacb19c9f6b9d7e23948c87aa2397f"]
|}.

(** [eth_sepolia], eth/addresses/sepolia.ts:1-17 *)
Definition eth_sepolia : EthAddresses := {|
  ea_Null := "0x0000000000000000000000000000000000000000";
  ea_LANDRegistry := "0x42f4ba48791e2de32f5fbf553441c2672864bb33";
  ea_EstateRegistry := "0x369a7fbe718c870c79f99fb423882e8dd8b20486";
  ea_Marketplace := "0xccf0c17da6cd68041b1bf0f7e015767242077d8c";
  ea_DCLRegistrar := "0x7518456ae93eb98f3e64571b689c626616bb7f30";
  ea_ERC721Bid := "0x2c2835b95852fd975e087b3b25297322728792e2";
  ea_DCLControllerV2 := "0xd2046364317c21fa8d121d84185c39e6e910cf89";
  ea_MarketplaceV3 := "0x54bdd3ffc1448bdab0251f05dd554eec803adb2f";
  ea_MarketplaceV3_V2 := "0x1b67d0e31eeb6b52d8eeed71d3616c2f5b33b8e7";
  ea_Spoke := "0xfe91aaa1012b47499cfe8758874f2d2c52b22cd8";
  ea_MANA := "0xfa04d2e2ba9aec166c93dfeeba7427b2303befa9";
  ea_collections := ["0x11a970e744ff69db8f461c2d0fc91d4293914301"]
|}.

Section env.
Context `{Env}.

(** [getAddresses], common/utils/addresses.ts:3-21, for [Network.MATIC] *)
Definition getAddresses : Addresses :=
  if decide (POLYGON_CHAIN_ID = Some MATIC_MAINNET)
  then polygon_mainnet else polygon_amoy.

(** [getEthAddresses], common/utils/addresses.ts:3-21, [getAddresses] for
    [Network.ETHEREUM] *)
Definition getEthAddresses : EthAddresses :=
  if decide (ETHEREUM_CHAIN_ID = Some ETHEREUM_MAINNET)
  then eth_mainnet else eth_sepolia.

(** [getNetwork], common/utils/network.ts:3-17 *)
Definition getNetwork (network : DclNetwork) : string :=
  match network with
  | DCL_ETHEREUM =>
      if decide (ETHEREUM_CHAIN_ID = Some ETHEREUM_MAINNET)
      then "ethereum" else "sepolia"
  | DCL_MATIC =>
      if decide (POLYGON_CHAIN_ID = Some MATIC_MAINNET)
      then "matic" else "amoy"
  end.

(** [baseDecentralandURN], common/utils/network.ts:19-19 *)
Definition baseDecentralandURN : string := "urn:decentraland:".

(** [getURNForCollectionV2], common/utils/network.ts:21-31 *)
Definition getURNForCollectionV2 (network : DclNetwork) (collectionAddress : string)
    : string :=
  baseDecentralandURN +:+ getNetwork network +:+ ":collections-v2:"
    +:+ collectionAddress.

(** [getURNForCollectionV1], polygon/modules/metadata/wearable/index.ts:111-123 *)
Definition getURNForCollectionV1 (collection : Collection) (network : DclNetwork) : string :=
  let collectionName := split_on "dcl://" (col_name collection) in
  baseDecentralandURN +:+ getNetwork network +:+ ":collections-v1:"
    +:+ match collectionName with
        | _ :: name :: _ => name
        | name :: _ => name
        | [] => ""
        end.

(** [getURNForWearableV1], polygon/modules/metadata/wearable/index.ts:136-142 *)
Definition getURNForWearableV1 (collection : Collection) (representationId : string)
    (network : DclNetwork) : string :=
  getURNForCollectionV1 collection network +:+ ":" +:+ representationId.

(** [getURNForWearableV2], polygon/modules/metadata/wearable/index.ts:144-150 *)
Definition getURNForWearableV2 (collectionAddress itemId : string)
    (network : DclNetwork) : string :=
  getURNForCollectionV2 network collectionAddress +:+ ":" +:+ itemId.

(** [getCatalystBase], common/utils/catalyst.ts:3-17 *)
Definition getCatalystBase (chainId : Z) : string :=
  if decide (chainId = ETHEREUM_MAINNET ∨ chainId = MATIC_MAINNET)
  then "https://peer.decentraland.org"
  else if decide (chainId = ETHEREUM_SEPOLIA ∨ chainId = MATIC_AMOY)
  then "https://peer.decentraland.zone"
  else "".

(** [parseInt(process.env.POLYGON_CHAIN_ID || ChainId.MATIC_MAINNET)] *)
Definition polygonChainId : Z := default MATIC_MAINNET POLYGON_CHAIN_ID.

(** [getItemId], polygon/modules/item.ts:5-7 *)
Definition getItemId (contractAddress itemId : string) : string :=
  contractAddress +:+ "-" +:+ itemId.

(** [getItemImage], polygon/modules/item.ts:9-16 *)
Definition getItemImage (item : Item) : string :=
  getCatalystBase polygonChainId +:+ "/lambdas/collections/contents/"
    +:+ it_urn item +:+ "/thumbnail".

(** [removeItemMinter], polygon/modules/item.ts:18-21 *)
Definition removeItemMinter (item : Item) (minter : string) : list string :=
  filter (λ i, i ≠ minter) (it_minters item).

(** [getCurationId], polygon/modules/curation.ts:3-9 *)
Definition getCurationId (collectionAddress transactionHash logIndex : string)
    : string :=
  collectionAddress +:+ "-" +:+ transactionHash +:+ "-" +:+ logIndex.

(** [getBlockWhereRescueItemsStarted], polygon/modules/curation.ts:11-25 *)
Definition getBlockWhereRescueItemsStarted : Z :=
  if decide (polygonChainId = MATIC_MAINNET) then 20841775
  else if decide (polygonChainId = MATIC_AMOY) then 5706678
  else 0.
End env.

(** ** Blocks, logs and transactions *)

(** A block header; [timestamp] is in milliseconds. *)
Record Block := mkBlock {
  blk_height : Z;
  blk_timestamp : Z
}.

Record Transaction := mkTransaction {
  tx_hash : string;
  tx_from : string;
  tx_input : string;
  tx_transactionIndex : Z
}.

(** [BigInt(block.timestamp / 1000)]: raises on a fractional number of
    seconds. *)
Definition block_seconds {S} (block : Block) : M S Z :=
  if decide (blk_timestamp block `mod` 1000 = 0)
  then mret (blk_timestamp block `div` 1000)
  else throw RangeError.

Lemma steps_block_seconds {S} (R : relation S) `{!PreOrder R} block :
  steps R (block_seconds block).
Proof. unfold block_seconds. case_decide; [by apply steps_ret|by apply steps_throw]. Qed.
#[export] Hint Resolve steps_block_seconds : frame.

Lemma block_seconds_ok {S} (block : Block) (s : S) t :
  blk_timestamp block = t * 1000 → block_seconds block s = (Ok t, s).
Proof.
  intros Ht. unfold block_seconds. rewrite Ht, Z_mod_mult.
  case_decide; [|done]. by rewrite Z.div_mul.
Qed.

(** What a collection contract answers, in one multicall or nine calls. *)
Record CollectionData := mkCollectionData {
  cd_name : string;
  cd_symbol : string;
  cd_owner : string;
  cd_creator : string;
  cd_isCompleted : bool;
  cd_isApproved : bool;
  cd_isEditable : bool;
  cd_baseURI : string;
  cd_chainId : Z
}.

(** An entry of a rarities contract. *)
Record BlockchainRarity := mkBlockchainRarity {
  br_name : string;
  br_price : Z;
  br_maxSupply : Z
}.

(** Contract reads at a block height; every one may fail. *)
Class Rpc := {
  rpc_ownerOf : Z → string → Z → Res string;
  rpc_owner : Z → string → Res string;
  rpc_collection : Z → string → Res CollectionData;
  (** the nine reads of every address in one multicall, [None] for an address
      one of whose reads failed *)
  rpc_collections : Z → list string → Res (list (option CollectionData));
  (** [totalSupply] of [items(itemId)] *)
  rpc_item_totalSupply : Z → string → Z → Res Z;
  rpc_getRarityByName : Z → string → string → Res BlockchainRarity;
  rpc_raritiesCount : Z → string → Res Z;
  rpc_rarities : Z → string → Z → Res BlockchainRarity;
  rpc_feeCollector : Z → string → Res string;
  rpc_feeRate : Z → string → Res Z;
  rpc_royaltiesRate : Z → string → Res Z;
  rpc_fee : Z → string → Res Z;
  rpc_feeOwner : Z → string → Res string;
  rpc_ownerCutPerMillion : Z → string → Res Z;
  rpc_feesCollectorCutPerMillion : Z → string → Res Z;
  rpc_feesCollector : Z → string → Res string;
  rpc_royaltiesCutPerMillion : Z → string → Res Z
}.
