(* ===== verification/State.v ===== *)
(** * The state of a batch

    The maps a batch works on ([PolygonStoredData]), what it produces
    ([PolygonInMemoryState]), the module-level fee caches of [polygon/state.ts],
    and the getters and setters of those caches. *)

From S2P Require Import Prelude JsString Model Env.
Open Scope string_scope.
Open Scope list_scope.
Open Scope Z_scope.

(** ** Event arguments *)

Record SetGlobalMinterEventArgs := { sgm_minter : string; sgm_value : bool }.
Record SetGlobalManagerEventArgs := { sgg_manager : string; sgg_value : bool }.
Record SetItemMinterEventArgs := { sim_itemId : Z; sim_minter : string; sim_value : Z }.
Record SetItemManagerEventArgs := { sig_itemId : Z; sig_manager : string; sig_value : bool }.
Record AddItemEventArgs := {
  ai_itemId : Z; ai_rarity : string; ai_maxSupply : Z; ai_totalSupply : Z;
  ai_price : Z; ai_beneficiary : string; ai_metadata : string; ai_contentHash : string
}.
Record RescueItemEventArgs := { ri_itemId : Z; ri_contentHash : string; ri_metadata : string }.
Record UpdateItemDataEventArgs := {
  ui_itemId : Z; ui_price : Z; ui_beneficiary : string; ui_metadata : string
}.
Record IssueEventArgs := mkIssueEventArgs {
  is_beneficiary : string; is_tokenId : Z; is_itemId : Z; is_issuedId : Z; is_caller : string
}.
Record TransferEventArgs := { te_from : string; te_to : string; te_tokenId : Z }.
Record OrderCreatedEventArgs := {
  oc_id : string; oc_assetId : Z; oc_seller : string; oc_nftAddress : string;
  oc_priceInWei : Z; oc_expiresAt : Z
}.
Record OrderSuccessfulEventArgs := {
  os_id : string; os_assetId : Z; os_seller : string; os_nftAddress : string;
  os_totalPrice : Z; os_buyer : string
}.
Record OrderCancelledEventArgs := {
  ox_id : string; ox_assetId : Z; ox_seller : string; ox_nftAddress : string
}.
Record BidCreatedEventArgs := {
  bc_id : string; bc_tokenAddress : string; bc_tokenId : Z; bc_bidder : string;
  bc_price : Z; bc_expiresAt : Z; bc_fingerprint : string
}.
Record BidAcceptedEventArgs := {
  ba_id : string; ba_tokenAddress : string; ba_tokenId : Z; ba_bidder : string;
  ba_seller : string; ba_price : Z; ba_fee : Z
}.
Record BidCancelledEventArgs := {
  bx_id : string; bx_tokenAddress : string; bx_tokenId : Z; bx_bidder : string
}.

(** One side of a trade: what is sent, or what is received. *)
Record TradeAsset := mkTradeAsset {
  ta_assetType : Z; ta_contractAddress : string; ta_value : Z; ta_beneficiary : string
}.
Record TradedEventArgs := mkTradedEventArgs {
  td_sent : list TradeAsset; td_received : list TradeAsset
}.

(** The decoded event of a log, by topic. *)
Inductive LogEvent :=
  | EvProxyCreated (address : string)
  | EvOrderCreated (e : OrderCreatedEventArgs)
  | EvOrderSuccessful (e : OrderSuccessfulEventArgs)
  | EvOrderCancelled (e : OrderCancelledEventArgs)
  | EvBidCreated (e : BidCreatedEventArgs)
  | EvBidAccepted (e : BidAcceptedEventArgs)
  | EvBidCancelled (e : BidCancelledEventArgs)
  | EvFeeCollectorUpdated (feeCollector : string)
  | EvFeeRateUpdated (feeRate : Z)
  | EvRoyaltiesRateUpdated (royaltiesRate : Z)
  | EvChangedCutPerMillion (cut : Z)
  | EvMemberSet (member : string) (value : bool)
  | EvSetGlobalMinter (e : SetGlobalMinterEventArgs)
  | EvSetGlobalManager (e : SetGlobalManagerEventArgs)
  | EvSetItemMinter (e : SetItemMinterEventArgs)
  | EvSetItemManager (e : SetItemManagerEventArgs)
  | EvAddItem (e : AddItemEventArgs)
  | EvRescueItem (e : RescueItemEventArgs)
  | EvUpdateItemData (e : UpdateItemDataEventArgs)
  | EvIssue (e : IssueEventArgs)
  | EvSetApproved (newValue : bool)
  | EvSetEditable (newValue : bool)
  | EvComplete
  | EvCreatorshipTransferred (newCreator : string)
  | EvOwnershipTransferred (newOwner : string)
  | EvTransfer (e : TransferEventArgs)
  | EvAddRarity (name : string) (price maxSupply : Z)
  | EvUpdatePrice (name : string) (price : Z)
  | EvSetFee (fee : Z)
  | EvSetFeeOwner (feeOwner : string)
  | EvRaritiesSet (newRarities : string)
  | EvTraded (e : TradedEventArgs)
  | EvCreditUsed (creditId : string) (value : Z)
  | EvSpokeOrderCreated (orderHash : string)
  | EvOther.

(** A log.  A topic is a 256-bit word, held as the number it denotes; the
    decoded event is what the generated ABI code makes of topics and data. *)
Record Log := mkLog {
  log_address : string;
  log_topics : list Z;
  log_transactionIndex : Z;
  log_logIndex : Z;
  log_transactionHash : string;
  log_transaction : option Transaction;
  log_event : LogEvent
}.

Record BlockData := mkBlockData { bd_header : Block; bd_logs : list Log }.

(** ** Fee caches *)

(** [StoreContractData], polygon/state.ts:36-39 *)
Record StoreContractData := mkStoreContractData {
  scd_fee : option Z;
  scd_feeOwner : option string
}.
#[export] Instance eta_StoreContractData : Eta StoreContractData := λ r,
  mkStoreContractData (scd_fee r) (scd_feeOwner r).

(** [MarketplaceContractData], polygon/state.ts:41-44 *)
Record MarketplaceContractData := mkMarketplaceContractData {
  mcd_ownerCutPerMillion : option Z;
  mcd_owner : option string
}.
#[export] Instance eta_MarketplaceContractData : Eta MarketplaceContractData := λ r,
  mkMarketplaceContractData (mcd_ownerCutPerMillion r) (mcd_owner r).

(** [MarketplaceV2ContractData], polygon/state.ts:46-50 *)
Record MarketplaceV2ContractData := mkMarketplaceV2ContractData {
  m2_feesCollectorCutPerMillion : option Z;
  m2_feesCollector : option string;
  m2_royaltiesCutPerMillion : option Z
}.
#[export] Instance eta_MarketplaceV2ContractData : Eta MarketplaceV2ContractData := λ r,
  mkMarketplaceV2ContractData (m2_feesCollectorCutPerMillion r) (m2_feesCollector r)
    (m2_royaltiesCutPerMillion r).

(** [BidV2ContractData], polygon/state.ts:57-61 *)
Record BidV2ContractData := mkBidV2ContractData {
  b2_feesCollectorCutPerMillion : option Z;
  b2_feesCollector : option string;
  b2_royaltiesCutPerMillion : option Z
}.
#[export] Instance eta_BidV2ContractData : Eta BidV2ContractData := λ r,
  mkBidV2ContractData (b2_feesCollectorCutPerMillion r) (b2_feesCollector r)
    (b2_royaltiesCutPerMillion r).

(** [MarketplaceV3ContractData], polygon/state.ts:85-89 *)
Record MarketplaceV3ContractData := mkMarketplaceV3ContractData {
  m3_feeCollector : option string;
  m3_feeRate : option Z;
  m3_royaltiesRate : option Z
}.
#[export] Instance eta_MarketplaceV3ContractData : Eta MarketplaceV3ContractData := λ r,
  mkMarketplaceV3ContractData (m3_feeCollector r) (m3_feeRate r) (m3_royaltiesRate r).

(** The module-level variables of [polygon/state.ts]: the handlers receive
    references to these objects, so a setter is seen by every holder. *)
Record Caches := mkCaches {
  c_store : StoreContractData;
  c_marketplace : MarketplaceContractData;
  c_marketplaceV2 : MarketplaceV2ContractData;
  c_bidV2 : BidV2ContractData;
  c_marketplaceV3 : MarketplaceV3ContractData;
  c_marketplaceOwnerCutPerMillion : option Z;
  c_bidOwnerCutPerMillion : option Z
}.
#[export] Instance eta_Caches : Eta Caches := λ r,
  mkCaches (c_store r) (c_marketplace r) (c_marketplaceV2 r) (c_bidV2 r)
    (c_marketplaceV3 r) (c_marketplaceOwnerCutPerMillion r) (c_bidOwnerCutPerMillion r).

(** [initialCaches], polygon/state.ts:63-95.  Every field starts undefined. *)
Definition initialCaches : Caches := {|
  c_store := mkStoreContractData None None;
  c_marketplace := mkMarketplaceContractData None None;
  c_marketplaceV2 := mkMarketplaceV2ContractData None None None;
  c_bidV2 := mkBidV2ContractData None None None;
  c_marketplaceV3 := mkMarketplaceV3ContractData None None None;
  c_marketplaceOwnerCutPerMillion := None;
  c_bidOwnerCutPerMillion := None
|}.

(** ** The batch *)

(** [TransferGiftCandidate], common/utils/events.ts:12-20 *)
Record TransferGiftCandidate := mkTransferGiftCandidate {
  tg_nftId : string;
  tg_from : string;
  tg_to : string;
  tg_tokenURI : option string;
  tg_timestamp : Z;
  tg_txHash : string
}.

(** An event queued for the second pass, with the rarities known when it was
    seen (collection events and trades only). *)
Record QueuedEvent := mkQueuedEvent {
  qe_event : LogEvent;
  qe_block : BlockData;
  qe_log : Log;
  qe_transaction : option Transaction;
  qe_rarities : option (gmap string Rarity);
  (** which of the contract-data references were attached *)
  qe_hasStoreContractData : bool;
  qe_hasMarketplaceData : bool
}.

Record CollectionFactoryEvent := mkCollectionFactoryEvent {
  cf_address : string;
  cf_block : BlockData;
  cf_usedCredits : bool;
  cf_creditValue : option Z;
  cf_txHash : string
}.

(** [PolygonStoredData], polygon/types.ts:108-123 *)
Record PolygonStoredData := mkPolygonStoredData {
  accounts : gmap string Account;
  counts : gmap string Count;
  collections : gmap string Collection;
  orders : gmap string Order;
  bids : gmap string Bid;
  nfts : gmap string NFT;
  analytics : gmap string AnalyticsDayData;
  itemDayDatas : gmap string ItemsDayData;
  accountsDayDatas : gmap string AccountsDayData;
  items : gmap string Item;
  wearables : gmap string Wearable;
  emotes : gmap string Emote;
  metadatas : gmap string Metadata;
  rarities : gmap string Rarity
}.
#[export] Instance eta_PolygonStoredData : Eta PolygonStoredData := λ r,
  mkPolygonStoredData (accounts r) (counts r) (collections r) (orders r) (bids r)
    (nfts r) (analytics r) (itemDayDatas r) (accountsDayDatas r) (items r)
    (wearables r) (emotes r) (metadatas r) (rarities r).

(** Every map empty. *)
Definition emptyStoredData : PolygonStoredData :=
  mkPolygonStoredData ∅ ∅ ∅ ∅ ∅ ∅ ∅ ∅ ∅ ∅ ∅ ∅ ∅ ∅.

(** [PolygonInMemoryState], polygon/types.ts:38-106.  A map whose iteration
    order the code exposes is an association list in insertion order. *)
Record PolygonInMemoryState := mkPolygonInMemoryState {
  sales : gmap string Sale;
  curations : gmap string Curation;
  mints : gmap string Mint;
  transfers : gmap string Transfer;
  transferGiftCandidates : list (string * TransferGiftCandidate);
  squidRouterOrders : gmap string SquidRouterOrder;
  collectionIds : gset string;
  tokenIds : gmap string (list Z);
  itemIds : gmap string (list Z);
  accountIds : gset string;
  analyticsIds : gset string;
  itemDayDataIds : gset string;
  bidIds : gset string;
  consumedIssueLogs : gset string;
  collectionFactoryEvents : list CollectionFactoryEvent;
  events : list QueuedEvent;
  committeeEvents : list (string * bool)
}.
#[export] Instance eta_PolygonInMemoryState : Eta PolygonInMemoryState := λ r,
  mkPolygonInMemoryState (sales r) (curations r) (mints r) (transfers r)
    (transferGiftCandidates r) (squidRouterOrders r) (collectionIds r) (tokenIds r)
    (itemIds r) (accountIds r) (analyticsIds r) (itemDayDataIds r) (bidIds r)
    (consumedIssueLogs r) (collectionFactoryEvents r) (events r) (committeeEvents r).

(** [getBatchInMemoryState], polygon/state.ts:14-34 *)
Definition getBatchInMemoryState : PolygonInMemoryState := {|
  sales := ∅; curations := ∅; mints := ∅; transfers := ∅;
  transferGiftCandidates := []; squidRouterOrders := ∅;
  collectionIds := ∅; tokenIds := ∅; itemIds := ∅; accountIds := ∅;
  analyticsIds := ∅; itemDayDataIds := ∅; bidIds := ∅; consumedIssueLogs := ∅;
  collectionFactoryEvents := []; events := []; committeeEvents := []
|}.

(** Everything a handler can reach.  [nftItemObjects] holds, by token, the item
    objects loaded through the [item] relation of a token: they are distinct
    from the objects of the [items] map, and the code falls back on them when
    that map has no entry. *)
Record World := mkWorld {
  storedData : PolygonStoredData;
  inMemoryData : PolygonInMemoryState;
  nftItemObjects : gmap string Item;
  liveRarities : gmap string Rarity;
  caches : Caches
}.
#[export] Instance eta_World : Eta World := λ r,
  mkWorld (storedData r) (inMemoryData r) (nftItemObjects r) (liveRarities r) (caches r).

(** ** Map primitives *)

(** [storedData.<map>.get(k)] *)
Definition map_get {A} (p : PolygonStoredData → gmap string A) (k : string)
    : M World (option A) :=
  gets (λ w, p (storedData w) !! k).

Lemma steps_map_get {A} (R : relation World) `{!PreOrder R}
    (p : PolygonStoredData → gmap string A) k : steps R (map_get p k).
Proof. by apply steps_gets. Qed.
#[export] Hint Resolve steps_map_get : frame.

(** [storedData.<map>.set(k, v)] *)
Definition map_set {A} (p : PolygonStoredData → gmap string A) `{!Setter p}
    (k : string) (v : A) : M World unit :=
  modify (set storedData (set p <[k:=v]>)).

(** Assigning to properties of the object held under [k]. *)
Definition mutate {A} (p : PolygonStoredData → gmap string A) `{!Setter p}
    (k : string) (f : A → A) : M World unit :=
  modify (set storedData (set p (alter f k))).

(** [inMemoryData.<map>.set(k, v)] *)
Definition mem_set {A} (p : PolygonInMemoryState → gmap string A) `{!Setter p}
    (k : string) (v : A) : M World unit :=
  modify (set inMemoryData (set p <[k:=v]>)).

Definition mem_update {A} (p : PolygonInMemoryState → A) `{!Setter p} (f : A → A)
    : M World unit :=
  modify (set inMemoryData (set p f)).

(** [map.set(k, v)] on an insertion-ordered map: an existing key keeps its
    place. *)
Fixpoint alist_set {A} (k : string) (v : A) (l : list (string * A))
    : list (string * A) :=
  match l with
  | [] => [(k, v)]
  | (k', v') :: l =>
      if decide (k' = k) then (k, v) :: l else (k', v') :: alist_set k v l
  end.

Fixpoint alist_get {A} (k : string) (l : list (string * A)) : option A :=
  match l with
  | [] => None
  | (k', v) :: l => if decide (k' = k) then Some v else alist_get k l
  end.
