(* ===== verification/Common.v ===== *)
(** * Shared modules: accounts, counters, day buckets, identifiers, parsing

    [common/modules] and [common/utils]: the operations every handler is built
    from. *)

From Stdlib Require Import Ascii.
From S2P Require Import Prelude JsString Model Env State.
Open Scope string_scope.
Open Scope list_scope.
Open Scope Z_scope.

(** ** Accounts *)

(** [ZERO_ADDRESS], common/modules/account.ts:3-3 *)
Definition ZERO_ADDRESS : string := "0x0000000000000000000000000000000000000000".

(** [`${id}-${network}`], the key of an account *)
Definition accountKey (id : string) (network : Network) : string :=
  id +:+ "-" +:+ network_str network.

(** [createAccount], common/modules/account.ts:5-30 *)
Definition createAccount (id : string) (network : Network) : Account := {|
  acc_id := accountKey id network;
  acc_address := id;
  acc_sales := 0;
  acc_purchases := 0;
  acc_spent := 0;
  acc_earned := 0;
  acc_isCommitteeMember := Some false;
  acc_totalCurations := Some 0;
  acc_primarySales := 0;
  acc_primarySalesEarned := 0;
  acc_royalties := 0;
  acc_uniqueAndMythicItems := [];
  acc_uniqueAndMythicItemsTotal := 0;
  acc_collections := 0;
  acc_creatorsSupported := [];
  acc_creatorsSupportedTotal := 0;
  acc_uniqueCollectors := [];
  acc_uniqueCollectorsTotal := 0;
  acc_network := network
|}.

(** [createOrLoadAccount], common/modules/account.ts:32-46 *)
Definition createOrLoadAccount (id : string) (network : Network) : M World Account :=
  found ← map_get accounts (accountKey id network);
  let account := default (createAccount id network) found in
  _ ← map_set accounts (accountKey id network) account;
  mret account.

(** The reference other entities keep to an account object. *)
Definition account_ref (a : Account) : AccountRef :=
  mkAccountRef (acc_id a) (acc_address a).

(** ** Counters *)

(** [DEFAULT_ID], common/modules/count.ts:4-4 *)
Definition DEFAULT_ID : string := "all".

Definition countKey (network : Network) : string :=
  DEFAULT_ID +:+ "-" +:+ network_str network.

(** [newCount], common/modules/count.ts:15-42: the counter created when the
    network has none. *)
Definition newCount (network : Network) : Count := {|
  cnt_id := countKey network;
  cnt_orderTotal := 0; cnt_orderParcel := 0; cnt_orderEstate := 0;
  cnt_orderWearable := 0; cnt_orderENS := 0;
  cnt_parcelTotal := 0; cnt_estateTotal := 0; cnt_wearableTotal := 0;
  cnt_ensTotal := 0; cnt_started := 1;
  cnt_salesTotal := 0; cnt_salesManaTotal := 0;
  cnt_creatorEarningsManaTotal := 0; cnt_daoEarningsManaTotal := 0;
  cnt_bidTotal := 0; cnt_collectionTotal := 0; cnt_itemTotal := 0; cnt_nftTotal := 0;
  cnt_primarySalesTotal := 0; cnt_primarySalesManaTotal := 0;
  cnt_secondarySalesTotal := 0; cnt_secondarySalesManaTotal := 0;
  cnt_royaltiesManaTotal := 0;
  cnt_network := network
|}.

(** [buildCount], common/modules/count.ts:6-46, followed by the assignments [f]
    to the object it returns.  A counter that was just created is not in the
    map until the caller puts it there, and the assignments to it stay on the
    object. *)
Definition buildCount (network : Network) (f : Count → Count) : M World Count :=
  found ← map_get counts (countKey network);
  match found with
  | Some count =>
      _ ← map_set counts (countKey network) (f count);
      mret (f count)
  | None => mret (f (newCount network))
  end.

(** [countNFT], common/modules/count.ts:56-66 *)
Definition countNFT (category : Category) (c : Count) : Count :=
  let c := match category with
           | cat_parcel => c <| cnt_parcelTotal ::= Z.succ |>
           | cat_estate => c <| cnt_estateTotal ::= Z.succ |>
           | cat_wearable => c <| cnt_wearableTotal ::= Z.succ |>
           | cat_ens => c <| cnt_ensTotal ::= Z.succ |>
           | cat_emote => c
           end in
  c <| cnt_nftTotal ::= Z.succ |>.

(** [buildCountFromNFT], common/modules/count.ts:48-69 *)
Definition buildCountFromNFT (nft : NFT) (network : Network) : M World Count :=
  buildCount network (countNFT (nft_category nft)).

(** [countOrder], common/modules/count.ts:78-88 *)
Definition countOrder (category : Category) (c : Count) : Count :=
  let c := c <| cnt_orderTotal ::= Z.succ |> in
  match category with
  | cat_parcel => c <| cnt_orderParcel ::= Z.succ |>
  | cat_estate => c <| cnt_orderEstate ::= Z.succ |>
  | cat_wearable => c <| cnt_orderWearable ::= Z.succ |>
  | cat_ens => c <| cnt_orderENS ::= Z.succ |>
  | cat_emote => c
  end.

(** [buildCountFromOrder], common/modules/count.ts:71-89 *)
Definition buildCountFromOrder (order : Order) (network : Network) : M World unit :=
  _ ← buildCount network (countOrder (ord_category order));
  mret tt.

(** [buildCountFromCollection], common/modules/count.ts:104-110 *)
Definition buildCountFromCollection : M World Count :=
  buildCount POLYGON (λ c, c <| cnt_collectionTotal ::= Z.succ |>).

(** [buildCountFromItem], common/modules/count.ts:112-121 *)
Definition buildCountFromItem (network : Network) : M World Count :=
  buildCount network (λ c, c <| cnt_itemTotal ::= Z.succ |>).

(** [buildCountFromPrimarySale], common/modules/count.ts:123-131 *)
Definition buildCountFromPrimarySale (price : Z) : M World Count :=
  buildCount POLYGON (λ c, c <| cnt_primarySalesTotal ::= Z.succ |>
                             <| cnt_primarySalesManaTotal ::= Z.add price |>).

(** [buildCountFromSecondarySale], common/modules/count.ts:133-141 *)
Definition buildCountFromSecondarySale (price : Z) : M World Count :=
  buildCount POLYGON (λ c, c <| cnt_secondarySalesTotal ::= Z.succ |>
                             <| cnt_secondarySalesManaTotal ::= Z.add price |>).

(** [buildCountFromBid], common/modules/count.ts:143-149 *)
Definition buildCountFromBid : M World Count :=
  buildCount POLYGON (λ c, c <| cnt_bidTotal ::= Z.succ |>).

(** ** Day buckets *)

(** [timestamp / BigInt(86400)]: big integer division truncates. *)
Definition day_of (timestamp : Z) : Z := Z.quot timestamp 86400.

Definition analyticsKey (timestamp : Z) (network : Network) : string :=
  pretty (day_of timestamp) +:+ "-" +:+ network_str network.

(** [getOrCreateAnalyticsDayData], common/modules/analytics.ts:7-28 *)
Definition getOrCreateAnalyticsDayData (timestamp : Z) (network : Network)
    : M World AnalyticsDayData :=
  found ← map_get analytics (analyticsKey timestamp network);
  mret match found with
       | Some d => d
       | None => {|
           an_id := analyticsKey timestamp network;
           an_date := day_of timestamp * 86400;
           an_sales := 0;
           an_volume := 0;
           an_creatorsEarnings := 0;
           an_daoEarnings := 0;
           an_network := network
         |}
       end.

(** ** Identifiers *)

(** [getNFTId], common/utils/nft.ts:46-54 *)
Definition getNFTId (contractAddress tokenId : string) (category : option string) : string :=
  match category with
  | Some c =>
      if decide (c = "") then contractAddress +:+ "-" +:+ tokenId
      else c +:+ "-" +:+ contractAddress +:+ "-" +:+ tokenId
  | None => contractAddress +:+ "-" +:+ tokenId
  end.

(** [getBidId], common/handlers/bid.ts:1-7 *)
Definition getBidId (contractAddress tokenId bidder : string) : string :=
  contractAddress +:+ "-" +:+ tokenId +:+ "-" +:+ bidder.

(** [isMint], common/utils/nft.ts:131-133 *)
Definition isMint (from : string) : bool :=
  bool_decide (from = "0x0000000000000000000000000000000000000000").

(** ** Parsing and time *)

(** [ONE_MILLION], common/utils/utils.ts:1-1 *)
Definition ONE_MILLION : Z := 1000000.

(** [CSVState], common/utils/utils.ts:3-7 *)
Inductive CSVState := BETWEEN | UNQUOTED_VALUE | QUOTED_VALUE.

#[export] Instance CSVState_eq_dec : EqDecision CSVState.
Proof. solve_decision. Defined.

Definition quote : Ascii.ascii := Ascii.ascii_of_N 34.

(** One turn of the loop of [parseCSV], at index [i] on character [c].
    [parseCSV_step], common/utils/utils.ts:15-35 *)
Definition parseCSV_step (csv : string) (i : nat) (c : Ascii.ascii)
    (st : list string * nat * CSVState) : list string * nat * CSVState :=
  let '(values, valueStart, state) := st in
  match state with
  | BETWEEN =>
      if decide (c = comma) then st
      else if decide (c = quote) then (values, S i, QUOTED_VALUE)
      else (values, i, UNQUOTED_VALUE)
  | UNQUOTED_VALUE =>
      if decide (c = comma)
      then (values ++ [substr valueStart (i - valueStart) csv], valueStart, BETWEEN)
      else st
  | QUOTED_VALUE =>
      if decide (c = quote)
      then (values ++ [substr valueStart (i - valueStart) csv], valueStart, BETWEEN)
      else st
  end.

Fixpoint parseCSV_loop (csv : string) (i : nat) (rest : string)
    (st : list string * nat * CSVState) : list string * nat * CSVState :=
  match rest with
  | EmptyString => st
  | String c rest => parseCSV_loop csv (S i) rest (parseCSV_step csv i c st)
  end.

(** [parseCSV], common/utils/utils.ts:9-39 *)
Definition parseCSV (csv : string) : list string :=
  (parseCSV_loop csv 0 csv ([], 0%nat, BETWEEN)).1.1.

(** [normalizeTimestamp], common/utils/utils.ts:41-51: a [Date], as its
    milliseconds. *)
Definition normalizeTimestamp `{Env} (timestamp : Z) : Z :=
  let timestampStr : string := pretty timestamp in
  if decide (String.length timestampStr = 13%nat) then timestamp
  else if decide (String.length timestampStr = 10%nat) then timestamp * 1000
  else now.

(** [buildData], common/utils/data.ts:9-40 *)
Definition buildData (assetId csv : string) : option Data :=
  match csv with
  | String "0"%char _ =>
      let data := parseCSV csv in
      match data with
      | "0" :: _ =>
          Some {| dat_id := assetId;
                  dat_version := "0";
                  dat_name := data !! 1%nat;
                  dat_description := data !! 2%nat;
                  dat_ipns := data !! 3%nat |}
      | _ => None
      end
  | _ => None
  end.

(** ** Orders attached to a token *)

Section orders.
Context `{Env}.

(** [addNFTOrderProperties], common/utils/nft.ts:98-105 *)
Definition addNFTOrderProperties (nft : NFT) (order : Order) : NFT :=
  nft <| nft_activeOrder := Some (ord_id order) |>
      <| nft_searchOrderStatus := Some (ord_status order) |>
      <| nft_searchOrderPrice := Some (ord_price order) |>
      <| nft_searchOrderCreatedAt := Some (ord_createdAt order) |>
      <| nft_searchOrderExpiresAt := Some (ord_expiresAt order) |>
      <| nft_searchOrderExpiresAtNormalized :=
           Some (normalizeTimestamp (ord_expiresAt order)) |>.

(** [clearNFTOrderProperties], common/utils/nft.ts:107-114 *)
Definition clearNFTOrderProperties (nft : NFT) : NFT :=
  nft <| nft_activeOrder := None |>
      <| nft_searchOrderStatus := None |>
      <| nft_searchOrderPrice := None |>
      <| nft_searchOrderCreatedAt := None |>
      <| nft_searchOrderExpiresAt := None |>
      <| nft_searchOrderExpiresAtNormalized := None |>.

(** [updateNFTOrderProperties], common/utils/nft.ts:87-96 *)
Definition updateNFTOrderProperties (nft : NFT) (order : Order) : NFT :=
  match ord_status order with
  | status_open => addNFTOrderProperties nft order
  | status_sold | status_cancelled => clearNFTOrderProperties nft
  | status_transferred => nft
  end.

(** [cancelActiveOrder], common/utils/nft.ts:116-129 *)
Definition cancelActiveOrder (order : Order) (now : Z) : Order :=
  match ord_status order with
  | status_open | status_transferred =>
      order <| ord_status := status_cancelled |> <| ord_updatedAt := now |>
  | _ => order
  end.
End orders.

(** ** Trades of the off-chain marketplace *)

(** [TradeType], common/utils/marketplaceV3.ts:5-8 *)
Inductive TradeType := TradeOrder | TradeBid.

#[export] Instance TradeType_eq_dec : EqDecision TradeType.
Proof. solve_decision. Defined.

(** [ERC20], common/utils/marketplaceV3.ts:10-15 *)
Definition ERC20 : Z := 1.
Definition USD_PEGGED_MANA : Z := 2.
Definition ERC721 : Z := 3.
Definition ITEM : Z := 4.

(** [MANA_PAYMENT_ASSET_TYPES], common/utils/marketplaceV3.ts:20-23 *)
Definition MANA_PAYMENT_ASSET_TYPES : list Z := [ERC20; USD_PEGGED_MANA].

(** What [getTradeEventData] reads off a trade. *)
Record TradeData := mkTradeData {
  tdd_collectionAddress : string;
  tdd_tokenId : option Z;
  tdd_itemId : option Z;
  tdd_seller : string;
  tdd_buyer : string;
  tdd_price : Z;
  tdd_assetType : Z
}.

Section trades.
Context `{Env}.

(** [[addresses.MANA, addresses.TRANSAK_TOKEN]] *)
Definition paymentTokens (network : DclNetwork) : list (option string) :=
  match network with
  | DCL_MATIC => [Some (MANA_TOKEN getAddresses); TRANSAK_TOKEN getAddresses]
  | DCL_ETHEREUM => [Some (ea_MANA getEthAddresses); None]
  end.

(** A leg that pays in MANA: the asset type and the contract agree. *)
Definition isManaLeg (network : DclNetwork) (a : TradeAsset) : bool :=
  bool_decide (ta_assetType a ∈ MANA_PAYMENT_ASSET_TYPES) &&
  bool_decide (Some (ta_contractAddress a) ∈ paymentTokens network).

(** [getTradeEventType], common/utils/marketplaceV3.ts:25-65 *)
Definition getTradeEventType (event : TradedEventArgs) (network : DclNetwork) : option TradeType :=
  match head (td_sent event), head (td_received event) with
  | Some sent, Some received =>
      if isManaLeg network received then Some TradeOrder
      else if isManaLeg network sent then Some TradeBid
      else None
  | _, _ => None
  end.

(** Asset and payment legs of a classified trade. *)
Definition tradeDataOf (asset payment : TradeAsset) : TradeData := {|
  tdd_collectionAddress := ta_contractAddress asset;
  tdd_tokenId := if decide (ta_assetType asset = ERC721)
                 then Some (ta_value asset) else None;
  tdd_itemId := if decide (ta_assetType asset = ITEM)
                then Some (ta_value asset) else None;
  tdd_seller := ta_beneficiary payment;
  tdd_buyer := ta_beneficiary asset;
  tdd_price := ta_value payment;
  tdd_assetType := ta_assetType asset
|}.

(** [getTradeEventData], common/utils/marketplaceV3.ts:67-108 *)
Definition getTradeEventData (event : TradedEventArgs) (network : DclNetwork) : option TradeData :=
  match getTradeEventType event network, head (td_sent event), head (td_received event) with
  | Some TradeOrder, Some sent, Some received => Some (tradeDataOf sent received)
  | Some TradeBid, Some sent, Some received => Some (tradeDataOf received sent)
  | _, _, _ => None
  end.
End trades.
