(* ===== verification/Metadata.v ===== *)
(** * Item metadata: wearables and emotes

    [polygon/modules/metadata]: the raw metadata string of an item is parsed
    into a wearable or an emote, whose fields are then copied into the search
    columns of the item and of the tokens minted from it. *)

From S2P Require Import Prelude JsString Model Env State Common.
Open Scope string_scope.
Open Scope list_scope.
Open Scope Z_scope.

(** ** Categories *)

(** [isWearableHead], common/modules/metadata/wearable/index.ts:3-11 *)
Definition isWearableHead (category : string) : bool :=
  bool_decide (category ∈ ["eyebrows"; "eyes"; "facial_hair"; "hair"; "mouth"]).

(** [isWearableAccessory], common/modules/metadata/wearable/index.ts:13-23 *)
Definition isWearableAccessory (category : string) : bool :=
  bool_decide (category ∈ ["earring"; "eyewear"; "hat"; "helmet"; "mask"; "tiara";
                           "top_head"]).

(** [isValidWearableCategory], polygon/modules/metadata/wearable/index.ts:71-97 *)
Definition isValidWearableCategory (category : string) : bool :=
  bool_decide (category ∈
    ["eyebrows"; "eyes"; "facial_hair"; "hair"; "mouth"; "upper_body"; "lower_body";
     "feet"; "earring"; "eyewear"; "hat"; "helmet"; "mask"; "tiara"; "top_head"; "skin";
     "hands_wear"]).

(** [isValidEmoteCategory], polygon/modules/metadata/emote/index.ts:85-102 *)
Definition isValidEmoteCategory (category : string) : bool :=
  bool_decide (category ∈
    ["dance"; "stunt"; "greetings"; "fun"; "poses"; "reactions"; "horror";
     "miscellaneous"]).

(** [isValidLoopValue], polygon/modules/metadata/emote/index.ts:104-112 *)
Definition isValidLoopValue (value : string) : bool :=
  bool_decide (value = "0" ∨ value = "1").

(** The loop of [isValidBodyShape] from index [i], with [fuel] turns left.  Its
    header is [for (let i = 0; i++; i < bodyShapes.length)]: the middle clause,
    the old value of [i], is the condition, and the comparison is an update
    without effect. *)
Fixpoint isValidBodyShape_loop (fuel : nat) (i : nat) (bodyShapes : list string) : bool :=
  match fuel with
  | O => true
  | S fuel =>
      match i with
      | O => true
      | S _ =>
          match bodyShapes !! S i with
          | Some bodyShape =>
              if decide (bodyShape ≠ "BaseFemale" ∧ bodyShape ≠ "BaseMale")
              then false
              else isValidBodyShape_loop fuel (S i) bodyShapes
          | None => false
          end
      end
  end.

(** [isValidBodyShape], polygon/modules/metadata/wearable/index.ts:99-109 *)
Definition isValidBodyShape (bodyShapes : list string) : bool :=
  isValidBodyShape_loop (S (length bodyShapes)) 0 bodyShapes.

(** ** Emote outcomes *)

(** [OUTCOMES], polygon/modules/metadata/emote/outcomes.ts:1-9 *)
Definition OUTCOMES : list string := ["so"; "mo"; "ro"].

(** [mapOutcomeToString], polygon/modules/metadata/emote/outcomes.ts:11-19 *)
Definition mapOutcomeToString (outcome : string) : string :=
  if decide (outcome = "mo") then "multiple_outcome"
  else if decide (outcome = "ro") then "random_outcome"
  else "simple_outcome".

(** [data[n]] where the code has checked that it exists. *)
Definition part (data : list string) (n : nat) : string := default "" (data !! n).

(** [handleEmoteOutcomeType], polygon/modules/metadata/emote/index.ts:73-83 *)
Definition handleEmoteOutcomeType (data : list string) : option string :=
  if decide (8 ≤ length data ∧ part data 7 ∈ OUTCOMES)%nat
  then Some (mapOutcomeToString (part data 7))
  else if decide (9 ≤ length data ∧ part data 8 ∈ OUTCOMES)%nat
  then Some (mapOutcomeToString (part data 8))
  else None.

(** ** Building a wearable or an emote *)

(** The collection of an item: reading [item.collection.id] raises when the
    relation was not loaded. *)
Definition item_collection_id (item : Item) : M World string :=
  match it_collection item with
  | Some id => mret id
  | None => throw TypeError
  end.

Lemma steps_item_collection_id (R : relation World) `{!PreOrder R} item :
  steps R (item_collection_id item).
Proof. unfold item_collection_id. frames. Qed.
#[export] Hint Resolve steps_item_collection_id : frame.

(** [buildWearableItem], polygon/modules/metadata/wearable/index.ts:25-53 *)
Definition buildWearableItem (item : Item) : M World (option Wearable) :=
  let id := it_id item in
  let data := split colon (it_rawMetadata item) in
  if decide ((length data = 6 ∨ length data = 8)%nat ∧
             isValidWearableCategory (part data 4) = true ∧
             isValidBodyShape (split comma (part data 5)) = true)
  then
    found ← map_get wearables id;
    collection ← item_collection_id item;
    mret (Some {|
      wr_id := id;
      wr_owner := found ≫= wr_owner;
      wr_representationId := found ≫= wr_representationId;
      wr_collection := collection;
      wr_name := part data 2;
      wr_description := part data 3;
      wr_rarity := it_rarity item;
      wr_category := part data 4;
      wr_bodyShapes := Some (split comma (part data 5));
      wr_network := POLYGON
    |})
  else mret None.

(** [buildEmoteItem], polygon/modules/metadata/emote/index.ts:28-71.  Every
    field is assigned, so whether the emote existed does not show. *)
Definition buildEmoteItem (item : Item) : M World (option Emote) :=
  let id := it_id item in
  let data := split colon (it_rawMetadata item) in
  if decide ((length data = 6 ∨ length data = 7 ∨ length data = 8 ∨ length data = 9)%nat ∧
             isValidBodyShape (split comma (part data 5)) = true)
  then
    collection ← item_collection_id item;
    let isOutcomeType := bool_decide (8 ≤ length data ∧ part data 7 ∈ OUTCOMES)%nat in
    mret (Some {|
      em_id := id;
      em_collection := collection;
      em_name := part data 2;
      em_description := part data 3;
      em_rarity := it_rarity item;
      em_category := if isValidEmoteCategory (part data 4) then part data 4 else "dance";
      em_bodyShapes := Some (split comma (part data 5));
      em_loop := bool_decide (7 ≤ length data)%nat && isValidLoopValue (part data 6)
                 && bool_decide (part data 6 = "1");
      em_hasGeometry := Some (bool_decide (8 ≤ length data)%nat && negb isOutcomeType
                              && includes "g" (part data 7));
      em_hasSound := Some (bool_decide (8 ≤ length data)%nat && negb isOutcomeType
                           && includes "s" (part data 7));
      em_outcomeType := handleEmoteOutcomeType data
    |})
  else mret None.

(** The wearable branch of [buildItemMetadata], for items of type [itemType]. *)
Definition wearableMetadata (item : Item) (itemType : ItemType) (metadata : Metadata)
    : M World Metadata :=
  built ← buildWearableItem item;
  match built with
  | Some wearable =>
      _ ← map_set wearables (it_id item) wearable;
      mret (metadata <| md_itemType := itemType |> <| md_wearable := Some wearable |>)
  | None => mret (metadata <| md_itemType := item_undefined |>)
  end.

Definition emoteMetadata (item : Item) (metadata : Metadata) : M World Metadata :=
  built ← buildEmoteItem item;
  match built with
  | Some emote =>
      _ ← map_set emotes (it_id item) emote;
      mret (metadata <| md_itemType := item_emote_v1 |> <| md_emote := Some emote |>)
  | None => mret (metadata <| md_itemType := item_undefined |>)
  end.

Definition newMetadata (id : string) : Metadata := {|
  md_id := id; md_itemType := item_undefined;
  md_wearable := None; md_emote := None; md_network := POLYGON
|}.

(** [buildItemMetadata], polygon/modules/metadata/index.ts:25-79 *)
Definition buildItemMetadata (item : Item) : M World Metadata :=
  let id := it_id item in
  found ← map_get metadatas id;
  let metadata := default (newMetadata id) found in
  _ ← map_set metadatas id metadata;
  let data := split colon (it_rawMetadata item) in
  metadata ←
    (if decide (2 ≤ length data)%nat then
       let type := part data 1 in
       if decide (type = "w") then wearableMetadata item item_wearable_v2 metadata
       else if decide (type = "sw")
       then wearableMetadata item item_smart_wearable_v1 metadata
       else if decide (type = "e") then emoteMetadata item metadata
       else mret (metadata <| md_itemType := item_undefined |>)
     else mret (metadata <| md_itemType := item_undefined |>));
  _ ← map_set metadatas id metadata;
  mret metadata.

(** ** Search columns *)

(** [setItemWearableSearchFields], polygon/modules/metadata/wearable/index.ts:152-182 *)
Definition setItemWearableSearchFields (item : Item) : M World Item :=
  match it_metadata item with
  | None => mret item
  | Some metadataId =>
      metadata ← map_get metadatas metadataId;
      match metadata ≫= md_wearable with
      | Some w =>
          wearable ← map_get wearables (wr_id w);
          let item :=
            match wearable with
            | Some wearable =>
                item <| it_searchText :=
                          Some (toLowerCase (wr_name wearable +:+ " " +:+ wr_description wearable)) |>
                     <| it_searchIsWearableHead := Some (isWearableHead (wr_category wearable)) |>
                     <| it_searchIsWearableAccessory :=
                          Some (isWearableAccessory (wr_category wearable)) |>
                     <| it_searchWearableCategory := Some (wr_category wearable) |>
                     <| it_searchWearableBodyShapes := wr_bodyShapes wearable |>
                     <| it_searchWearableRarity := Some (wr_rarity wearable) |>
            | None => item
            end in
          mret (item <| it_searchItemType := Some (it_itemType item) |>)
      | None => mret item
      end
  end.

(** [setItemEmoteSearchFields], polygon/modules/metadata/emote/index.ts:114-143 *)
Definition setItemEmoteSearchFields (item : Item) : M World Item :=
  match it_metadata item with
  | None => mret item
  | Some metadataId =>
      metadata ← map_get metadatas metadataId;
      match metadata ≫= md_emote with
      | Some e =>
          emote ← map_get emotes (em_id e);
          let item :=
            match emote with
            | Some emote =>
                item <| it_searchText :=
                          Some (toLowerCase (em_name emote +:+ " " +:+ em_description emote)) |>
                     <| it_searchEmoteCategory := Some (em_category emote) |>
                     <| it_searchEmoteLoop := Some (em_loop emote) |>
                     <| it_searchEmoteBodyShapes := em_bodyShapes emote |>
                     <| it_searchEmoteRarity := Some (em_rarity emote) |>
                     <| it_searchEmoteHasSound := em_hasSound emote |>
                     <| it_searchEmoteHasGeometry := em_hasGeometry emote |>
                     <| it_searchEmoteOutcomeType := em_outcomeType emote |>
            | None => item
            end in
          mret (item <| it_searchItemType := Some (it_itemType item) |>)
      | None => mret item
      end
  end.

(** [setItemSearchFields], polygon/modules/metadata/index.ts:81-97 *)
Definition setItemSearchFields (item : Item) : M World Item :=
  match it_itemType item with
  | item_wearable_v2 | item_wearable_v1 | item_smart_wearable_v1 =>
      setItemWearableSearchFields item
  | item_emote_v1 => setItemEmoteSearchFields item
  | item_undefined => mret item
  end.

(** [setNFTWearableSearchFields], polygon/modules/metadata/wearable/index.ts:184-207 *)
Definition setNFTWearableSearchFields (nft : NFT) : M World NFT :=
  match nft_metadata nft with
  | None => mret nft
  | Some metadataId =>
      metadata ← map_get metadatas metadataId;
      match metadata ≫= md_wearable with
      | Some wearable =>
          mret (nft
            <| nft_searchText := Some (wr_name wearable +:+ " " +:+ wr_description wearable) |>
            <| nft_searchItemType := nft_itemType nft |>
            <| nft_searchIsWearableHead := Some (isWearableHead (wr_category wearable)) |>
            <| nft_searchIsWearableAccessory := Some (isWearableAccessory (wr_category wearable)) |>
            <| nft_searchWearableCategory := Some (wr_category wearable) |>
            <| nft_searchWearableBodyShapes := wr_bodyShapes wearable |>
            <| nft_searchWearableRarity := Some (wr_rarity wearable) |>)
      | None => mret nft
      end
  end.

(** [setNFTEmoteSearchFields], polygon/modules/metadata/emote/index.ts:145-173 *)
Definition setNFTEmoteSearchFields (nft : NFT) : M World NFT :=
  match nft_metadata nft with
  | None => mret nft
  | Some metadataId =>
      metadata ← map_get metadatas metadataId;
      match metadata ≫= md_emote with
      | Some emote =>
          mret (nft
            <| nft_searchText :=
                 Some (toLowerCase (em_name emote +:+ " " +:+ em_description emote)) |>
            <| nft_searchEmoteCategory := Some (em_category emote) |>
            <| nft_searchEmoteLoop := Some (em_loop emote) |>
            <| nft_searchEmoteBodyShapes := em_bodyShapes emote |>
            <| nft_searchEmoteRarity := Some (em_rarity emote) |>
            <| nft_searchItemType := nft_itemType nft |>)
      | None => mret nft
      end
  end.

(** [setNFTSearchFields], polygon/modules/metadata/index.ts:99-116 *)
Definition setNFTSearchFields (nft : NFT) : M World NFT :=
  match nft_itemType nft with
  | Some (item_wearable_v2 | item_wearable_v1 | item_smart_wearable_v1) =>
      setNFTWearableSearchFields nft
  | Some item_emote_v1 => setNFTEmoteSearchFields nft
  | _ => mret nft
  end.
