(* ===== verification/Analytics.v ===== *)
(** * Sales: the accounting of [polygon/modules/analytics.ts]

    [trackSale] turns a purchase into a [Sale] and into every total derived from
    it: the counters of the network, the buyer, seller, fee collector and royalty
    accounts, the item, the token, and the day buckets.  This file holds its
    definitions; [AnalyticsProofs] holds its theorems. *)

From S2P Require Import Prelude JsString Model Env State Common.
Open Scope string_scope.
Open Scope list_scope.
Open Scope Z_scope.

(** ** Who pays *)

(** [CREDIT_CONTRACTS], polygon/modules/analytics.ts:32-37 *)
Definition CREDIT_CONTRACTS : list string := [
  "0xa1691afad71b9a92d329f1a95c39d3077d8f2f5f";
  "0x037566bc90f85e76587e1b07f9184585f09c1420";
  "0x6a03991dfa9d661ef7ad3c6f88b31f16e5a282cf";
  "0xe9f961e6ded4e1476bbee4faab886d63a2493eb9"
].

(** [isCreditSale], polygon/modules/analytics.ts:39-41 *)
Definition isCreditSale (buyer : string) : bool := bool_decide (buyer ∈ CREDIT_CONTRACTS).

(** [isTransakOperation], polygon/modules/analytics.ts:43-50 *)
Definition isTransakOperation (buyer : string) : bool := bool_decide (buyer ∈ [
  "0xed038688ecf1193f8d9717eb3930f0bf0d745cb4";
  "0xcb9bd5acd627e8fccf9eb8d4ba72aeb1cd8ff5ef";
  "0x4a598b7ec77b1562ad0df7dc64a162695ce4c78a";
  "0xab88cd272863b197b48762ea283f24a13f6586dd"
]).

(** [isAxelarOperation], polygon/modules/analytics.ts:52-57 *)
Definition isAxelarOperation (buyer : string) : bool := bool_decide (buyer ∈ [
  "0xea749fd6ba492dbc14c24fe8a3d08769229b896c";
  "0xad6cea45f98444a922a2b4fe96b8c90f0862d2f4"
]).

(** [isThirdPartySale], polygon/modules/analytics.ts:60-65 *)
Definition isThirdPartySale (buyer : string) : bool :=
  isTransakOperation buyer || isAxelarOperation buyer.

(** [getOperation], polygon/modules/analytics.ts:67-76 *)
Definition getOperation (buyer : string) : Operation :=
  if isTransakOperation buyer then op_fiat
  else if isAxelarOperation buyer then op_cross_chain
  else if isCreditSale buyer then op_credits
  else op_native.

(** ** Sets of identifiers kept as arrays *)

(** [updateUniqueAndMythicItemsSet], polygon/modules/accountsDayData.ts:3-13 *)
Definition updateUniqueAndMythicItemsSet (uniqueAndMythicItems : list string)
    (item : Item) : list string :=
  set_values (uniqueAndMythicItems ++ [it_id item]).

(** [updateCreatorsSupportedSet], polygon/modules/accountsDayData.ts:15-25 *)
Definition updateCreatorsSupportedSet (creatorsSupported : list string) (seller : string)
    : list string :=
  set_values (creatorsSupported ++ [seller]).

(** [updateUniqueCollectorsSet], polygon/modules/accountsDayData.ts:27-37 *)
Definition updateUniqueCollectorsSet (collectors : list string) (buyer : string)
    : list string :=
  set_values (collectors ++ [buyer]).

(** [updateUniqueCollectionsSalesSet], polygon/modules/accountsDayData.ts:39-49 *)
Definition updateUniqueCollectionsSalesSet (uniqueCollectionsSales : list string)
    (collectionId : string) : list string :=
  set_values (uniqueCollectionsSales ++ [collectionId]).

(** [item.rarity === "unique" || item.rarity === "mythic"] *)
Definition uniqueOrMythic (item : Item) : bool :=
  bool_decide (it_rarity item = "unique" ∨ it_rarity item = "mythic").

(** ** Day buckets of accounts, items and the network *)

Definition accountsDayKey (timestamp : Z) (address : string) : string :=
  pretty (day_of timestamp) +:+ "-" +:+ address.

(** [getOrCreateAccountsDayData], polygon/modules/accountsDayData.ts:51-80 *)
Definition getOrCreateAccountsDayData (timestamp : Z) (address : string)
    : M World AccountsDayData :=
  found ← map_get accountsDayDatas (accountsDayKey timestamp address);
  mret match found with
       | Some d => d
       | None => {|
           ad_id := accountsDayKey timestamp address;
           ad_date := day_of timestamp * 86400;
           ad_sales := 0; ad_purchases := 0; ad_earned := 0; ad_spent := 0;
           ad_uniqueCollectionsSales := [];
           ad_uniqueCollectors := []; ad_uniqueCollectorsTotal := 0;
           ad_uniqueAndMythicItems := []; ad_uniqueAndMythicItemsTotal := 0;
           ad_creatorsSupported := []; ad_creatorsSupportedTotal := 0;
           ad_network := POLYGON
         |}
       end.

(** The assignments of [updateBuyerAccountsDayData] to its bucket. *)
Definition buyerDay (sale : Sale) (item : Item) (d : AccountsDayData) : AccountsDayData :=
  let d := d <| ad_purchases ::= Z.succ |> <| ad_spent ::= Z.add (sl_price sale) |> in
  let d := if uniqueOrMythic item then
             let s := updateUniqueAndMythicItemsSet (ad_uniqueAndMythicItems d) item in
             d <| ad_uniqueAndMythicItems := s |>
               <| ad_uniqueAndMythicItemsTotal := Z.of_nat (length s) |>
           else d in
  let s := updateCreatorsSupportedSet (ad_creatorsSupported d) (sl_seller sale) in
  d <| ad_creatorsSupported := s |> <| ad_creatorsSupportedTotal := Z.of_nat (length s) |>.

(** [updateBuyerAccountsDayData], polygon/modules/accountsDayData.ts:82-112 *)
Definition updateBuyerAccountsDayData (sale : Sale) (item : Item) : M World AccountsDayData :=
  d ← getOrCreateAccountsDayData (sl_timestamp sale) (sl_buyer sale);
  mret (buyerDay sale item d).

(** The assignments of [updateCreatorAccountsDayData] to its bucket. *)
Definition creatorDay (sale : Sale) (earned : Z) (collectionId : string)
    (d : AccountsDayData) : AccountsDayData :=
  let d := d <| ad_earned ::= Z.add earned |> in
  if decide (sl_type sale = sale_mint) then
    let c := updateUniqueCollectionsSalesSet (ad_uniqueCollectionsSales d) collectionId in
    let u := updateUniqueCollectorsSet (ad_uniqueCollectors d) (sl_buyer sale) in
    d <| ad_sales ::= Z.succ |>
      <| ad_uniqueCollectionsSales := c |>
      <| ad_uniqueCollectors := u |>
      <| ad_uniqueCollectorsTotal := Z.of_nat (length u) |>
  else d.

(** [updateCreatorAccountsDayData], polygon/modules/accountsDayData.ts:114-143 *)
Definition updateCreatorAccountsDayData (sale : Sale) (earned : Z) (collectionId : string)
    : M World AccountsDayData :=
  d ← getOrCreateAccountsDayData (sl_timestamp sale) (sl_seller sale);
  mret (creatorDay sale earned collectionId d).

(** The assignments of [updateAnalyticsDayData] to its bucket. *)
Definition analyticsDay (sale : Sale) (d : AnalyticsDayData) : AnalyticsDayData :=
  match sl_feesCollectorCut sale, sl_royaltiesCut sale with
  | Some feesCollectorCut, Some royaltiesCut =>
      d <| an_sales ::= Z.succ |>
        <| an_volume ::= Z.add (sl_price sale) |>
        <| an_creatorsEarnings ::= Z.add
             (if decide (sl_type sale = sale_mint)
              then sl_price sale - feesCollectorCut else royaltiesCut) |>
        <| an_daoEarnings ::= Z.add feesCollectorCut |>
  | _, _ => d
  end.

(** [updateAnalyticsDayData], polygon/modules/analytics.ts:287-320 *)
Definition updateAnalyticsDayData (sale : Sale) : M World AnalyticsDayData :=
  d ← getOrCreateAnalyticsDayData (sl_timestamp sale) POLYGON;
  mret (analyticsDay sale d).

Definition itemDayKey (timestamp : Z) (itemId : string) : string :=
  pretty (day_of timestamp) +:+ "-" +:+ itemId.

(** [getOrCreateItemDayData], polygon/modules/analytics.ts:322-341 *)
Definition getOrCreateItemDayData (timestamp : Z) (itemId : string) : M World ItemsDayData :=
  found ← map_get itemDayDatas (itemDayKey timestamp itemId);
  mret match found with
       | Some d => d
       | None => {|
           idd_id := itemDayKey timestamp itemId;
           idd_date := day_of timestamp * 86400;
           idd_sales := 0; idd_volume := 0;
           idd_searchEmoteCategory := None;
           idd_searchWearableCategory := None;
           idd_searchRarity := None
         |}
       end.

(** [updateItemDayData], polygon/modules/analytics.ts:343-362 *)
Definition updateItemDayData (sale : Sale) (item : Item) : M World ItemsDayData :=
  d ← getOrCreateItemDayData (sl_timestamp sale) (it_id item);
  mret (d <| idd_sales ::= Z.succ |>
          <| idd_volume ::= Z.add (sl_price sale) |>
          <| idd_searchWearableCategory := it_searchWearableCategory item |>
          <| idd_searchEmoteCategory := it_searchEmoteCategory item |>
          <| idd_searchRarity := Some (it_rarity item) |>).

(** ** The item of a sale *)

(** The object [trackSale] works on: the one in the [items] map or, when the map
    has none, the one loaded with the token. *)
Inductive ItemHandle :=
  | InItems (itemId : string)
  | OfToken (nftId : string).

Definition item_at (h : ItemHandle) (w : World) : option Item :=
  match h with
  | InItems itemId => items (storedData w) !! itemId
  | OfToken nftId => nftItemObjects w !! nftId
  end.

Definition mutate_item (h : ItemHandle) (f : Item → Item) : M World unit :=
  match h with
  | InItems itemId => mutate items itemId f
  | OfToken nftId => modify (set nftItemObjects (alter f nftId))
  end.

(** [saleItem], polygon/modules/analytics.ts:117-125: the item and token of a
    sale, [None] when either is missing. *)
Definition saleItem (itemId nftId : string) : M World (option (ItemHandle * Item * NFT)) :=
  w ← gets id;
  mret match nfts (storedData w) !! nftId with
       | None => None
       | Some nft =>
           match items (storedData w) !! itemId with
           | Some item => Some (InItems itemId, item, nft)
           | None =>
               match nft_item nft, nftItemObjects w !! nftId with
               | Some _, Some item => Some (OfToken nftId, item, nft)
               | _, _ => None
               end
           end
       end.

(** ** The split of a price *)

(** The cuts of a sale after the royalty receiver is known, the fees they were
    computed from, and the receiver itself. *)
Record Cuts := mkCuts {
  ct_feesCollectorCut : Z;
  ct_royaltiesCut : Z;
  ct_totalFees : Z;
  ct_royaltiesCollector : option string
}.

(** [saleCuts], polygon/modules/analytics.ts:153-183 *)
Definition saleCuts (price feesCollectorCut royaltiesCut : Z) (item : Item) : Cuts :=
  let fees := Z.quot (feesCollectorCut * price) ONE_MILLION in
  let royalties := Z.quot (royaltiesCut * price) ONE_MILLION in
  let totalFees := fees + royalties in
  if decide (royaltiesCut > 0) then
    if decide (it_beneficiary item ≠ ZERO_ADDRESS ∨ it_creator item ≠ ZERO_ADDRESS) then
      let collector := if decide (it_beneficiary item ≠ ZERO_ADDRESS)
                       then it_beneficiary item else it_creator item in
      mkCuts fees royalties totalFees (Some collector)
    else mkCuts (fees + royalties) 0 totalFees None
  else mkCuts fees royalties totalFees None.

Section trackSale.
Context `{Env, Rpc}.

(** The parameters of a sale. *)
Record SaleArgs := mkSaleArgs {
  sa_type : SaleType;
  sa_buyer : string;
  sa_seller : string;
  sa_beneficiary : string;
  sa_itemId : string;
  sa_nftId : string;
  sa_price : Z;
  sa_feesCollectorCut : Z;
  sa_feesCollector : string;
  sa_royaltiesCut : Z;
  sa_timestamp : Z;
  sa_txHash : string
}.

(** [saleOf], polygon/modules/analytics.ts:127-154: the [Sale] entity. *)
Definition saleOf (a : SaleArgs) (saleId buyer : string) (item : Item) (nft : NFT)
    (cuts : Cuts) : Sale := {|
  sl_id := saleId;
  sl_type := sa_type a;
  sl_realBuyer := sa_buyer a;
  sl_operation := getOperation (sa_buyer a);
  sl_buyer := buyer;
  sl_seller := sa_seller a;
  sl_beneficiary := Some (Buffer_from_hex (slice 2 (sa_beneficiary a)));
  sl_price := sa_price a;
  sl_item := Some (it_id item);
  sl_nft := nft_id nft;
  sl_timestamp := sa_timestamp a;
  sl_txHash := sa_txHash a;
  sl_searchItemId := Some (it_blockchainId item);
  sl_searchTokenId := nft_tokenId nft;
  sl_searchContractAddress := nft_contractAddress nft;
  sl_searchCategory := nft_category nft;
  sl_network := POLYGON;
  sl_feesCollector := Some (Buffer_from_hex (slice 2 (sa_feesCollector a)));
  sl_feesCollectorCut := Some (ct_feesCollectorCut cuts);
  sl_royaltiesCut := Some (ct_royaltiesCut cuts);
  sl_royaltiesCollector :=
    Some (Buffer_from_hex (slice 2 (default ZERO_ADDRESS (ct_royaltiesCollector cuts))))
|}.

(** The buyer recorded on the sale: the owner of the token when a provider or
    the credits contract pays.
    [saleBuyer], polygon/modules/analytics.ts:134-137 *)
Definition saleBuyer (block : Block) (buyer : string) (nft : NFT) : M World string :=
  if isThirdPartySale buyer || isCreditSale buyer
  then lift (rpc_ownerOf (blk_height block) (nft_contractAddress nft) (nft_tokenId nft))
  else mret buyer.

(** [countSale], polygon/modules/analytics.ts:110-115 *)
Definition countSale (price : Z) : M World Count :=
  count ← buildCount POLYGON (λ c, c <| cnt_salesTotal ::= Z.succ |>
                                     <| cnt_salesManaTotal ::= Z.add price |>);
  _ ← map_set counts (cnt_id count) count;
  mret count.

(** [countEarnings], polygon/modules/analytics.ts:156-195: the earnings the
    network counter accumulates. *)
Definition countEarnings (type : SaleType) (price : Z) (cuts : Cuts) (c : Count) : Count :=
  c <| cnt_royaltiesManaTotal ::= Z.add (ct_totalFees cuts) |>
    <| cnt_creatorEarningsManaTotal ::= Z.add
         (if decide (type = sale_mint)
          then price - ct_feesCollectorCut cuts else ct_royaltiesCut cuts) |>
    <| cnt_daoEarningsManaTotal ::= Z.add
         (if decide (type = sale_mint) then ct_feesCollectorCut cuts else 0) |>.

(** [payRoyalties], polygon/modules/analytics.ts:160-183 *)
Definition payRoyalties (cuts : Cuts) : M World unit :=
  match ct_royaltiesCollector cuts with
  | Some collector =>
      _ ← createOrLoadAccount collector POLYGON;
      mutate accounts (accountKey collector POLYGON) (λ acc,
        acc <| acc_earned ::= Z.add (ct_royaltiesCut cuts) |>
            <| acc_royalties ::= Z.add (ct_royaltiesCut cuts) |>)
  | None => mret tt
  end.

(** [creditBuyer], polygon/modules/analytics.ts:199-215 *)
Definition creditBuyer (item : Item) (seller : string) (price : Z) (acc : Account)
    : Account :=
  let acc := acc <| acc_purchases ::= Z.succ |> <| acc_spent ::= Z.add price |> in
  let acc := if uniqueOrMythic item then
               let s := updateUniqueAndMythicItemsSet (acc_uniqueAndMythicItems acc) item in
               acc <| acc_uniqueAndMythicItems := s |>
                   <| acc_uniqueAndMythicItemsTotal := Z.of_nat (length s) |>
             else acc in
  let s := updateCreatorsSupportedSet (acc_creatorsSupported acc) seller in
  acc <| acc_creatorsSupported := s |>
      <| acc_creatorsSupportedTotal := Z.of_nat (length s) |>.

(** [creditSeller], polygon/modules/analytics.ts:217-224 *)
Definition creditSeller (buyer : string) (earned : Z) (acc : Account) : Account :=
  let s := updateUniqueCollectorsSet (acc_uniqueCollectors acc) buyer in
  acc <| acc_sales ::= Z.succ |>
      <| acc_earned ::= Z.add earned |>
      <| acc_uniqueCollectors := s |>
      <| acc_uniqueCollectorsTotal := Z.of_nat (length s) |>.

(** [creditFeesCollector], polygon/modules/analytics.ts:226-234 *)
Definition creditFeesCollector (cut : Z) (acc : Account) : Account :=
  acc <| acc_earned ::= Z.add cut |> <| acc_royalties ::= Z.add cut |>.

(** An account is created or loaded, then assigned to. *)
Definition updateAccount (address : string) (f : Account → Account) : M World unit :=
  _ ← createOrLoadAccount address POLYGON;
  mutate accounts (accountKey address POLYGON) f.

(** [saleAccounts], polygon/modules/analytics.ts:199-234 *)
Definition saleAccounts (a : SaleArgs) (item : Item) (cuts : Cuts) : M World unit :=
  _ ← updateAccount (sa_buyer a) (creditBuyer item (sa_seller a) (sa_price a));
  _ ← updateAccount (sa_seller a)
        (creditSeller (sa_buyer a) (sa_price a - ct_totalFees cuts));
  updateAccount (sa_feesCollector a) (creditFeesCollector (ct_feesCollectorCut cuts)).

(** [soldItem], polygon/modules/analytics.ts:236-244 *)
Definition soldItem (timestamp price : Z) (buyer : string) (item : Item) : Item :=
  let s := updateUniqueCollectorsSet (it_uniqueCollectors item) buyer in
  item <| it_soldAt := Some timestamp |>
       <| it_sales ::= Z.succ |>
       <| it_volume ::= Z.add price |>
       <| it_updatedAt := timestamp |>
       <| it_uniqueCollectors := s |>
       <| it_uniqueCollectorsTotal := Z.of_nat (length s) |>.

(** [soldNFT], polygon/modules/analytics.ts:246-249 *)
Definition soldNFT (timestamp price : Z) (nft : NFT) : NFT :=
  nft <| nft_soldAt := Some timestamp |>
      <| nft_sales ::= Z.succ |>
      <| nft_volume ::= Z.add price |>
      <| nft_updatedAt := timestamp |>.

(** [primaryOrSecondary], polygon/modules/analytics.ts:251-263 *)
Definition primaryOrSecondary (a : SaleArgs) (item : Item) (cuts : Cuts) : M World unit :=
  if decide (sa_type a = sale_mint) then
    _ ← buildCountFromPrimarySale (sa_price a);
    updateAccount (it_creator item) (λ acc,
      acc <| acc_primarySales ::= Z.succ |>
          <| acc_primarySalesEarned ::= Z.add (sa_price a - ct_totalFees cuts) |>)
  else
    _ ← buildCountFromSecondarySale (sa_price a);
    mret tt.

(** [saleDayData], polygon/modules/analytics.ts:265-285 *)
Definition saleDayData (sale : Sale) (item : Item) (earned : Z) : M World unit :=
  analyticsDayData ← updateAnalyticsDayData sale;
  _ ← map_set analytics (an_id analyticsDayData) analyticsDayData;
  itemDayData ← updateItemDayData sale item;
  _ ← map_set itemDayDatas (idd_id itemDayData) itemDayData;
  buyerDayData ← updateBuyerAccountsDayData sale item;
  _ ← map_set accountsDayDatas (ad_id buyerDayData) buyerDayData;
  collectionId ← match it_collection item with
                 | Some id => mret id
                 | None => throw TypeError
                 end;
  creatorsDayData ← updateCreatorAccountsDayData sale earned collectionId;
  map_set accountsDayDatas (ad_id creatorsDayData) creatorsDayData.

(** [trackSale], polygon/modules/analytics.ts:78-227, its tail being
    [saleAccounts] and [saleDayData]. *)
Definition trackSale (block : Block) (a : SaleArgs) : M World unit :=
  if decide (sa_price a = 0) then mret tt else
  count ← countSale (sa_price a);
  found ← saleItem (sa_itemId a) (sa_nftId a);
  match found with
  | None => mret tt
  | Some (h, item, nft) =>
      let saleId := pretty (cnt_salesTotal count) +:+ "-" +:+ network_str POLYGON in
      buyer ← saleBuyer block (sa_buyer a) nft;
      let cuts := saleCuts (sa_price a) (sa_feesCollectorCut a) (sa_royaltiesCut a) item in
      let sale := saleOf a saleId buyer item nft cuts in
      _ ← payRoyalties cuts;
      _ ← mutate counts (cnt_id count) (countEarnings (sa_type a) (sa_price a) cuts);
      _ ← mem_set sales saleId sale;
      _ ← saleAccounts a item cuts;
      _ ← mutate_item h (soldItem (sa_timestamp a) (sa_price a) (sa_buyer a));
      _ ← mutate nfts (sa_nftId a) (soldNFT (sa_timestamp a) (sa_price a));
      _ ← primaryOrSecondary a item cuts;
      saleDayData sale item (sa_price a - ct_totalFees cuts)
  end.
End trackSale.
