(* ===== verification/Nft.v ===== *)
(** * Minting and transferring tokens

    [polygon/handlers/nft.ts]. *)

From S2P Require Import Prelude JsString Model Env State Common Metadata Analytics.
Open Scope string_scope.
Open Scope list_scope.
Open Scope Z_scope.

Section nft.
Context `{Env, Rpc}.

(** [isV3], the addresses the off-chain marketplace issues from. *)
Definition isMarketplaceV3 (minter : string) : bool :=
  bool_decide (minter = MarketplaceV3 getAddresses ∨
               minter = MarketplaceV3_V2 getAddresses).

(** [isStoreMinter], polygon/handlers/nft.ts:104-109 *)
Definition isStoreMinter (minter : string) : bool :=
  bool_decide (minter = CollectionStore getAddresses) || isMarketplaceV3 minter.

(** [mintedNFT], polygon/handlers/nft.ts:48-88: the token before its search
    fields. *)
Definition mintedNFT (collectionAddress nftId : string) (e : IssueEventArgs)
    (item : Item) (owner : Account) (timestamp : Z) : NFT := {|
  nft_id := nftId;
  nft_tokenId := is_tokenId e;
  nft_contractAddress := collectionAddress;
  nft_category := if decide (it_itemType item = item_emote_v1)
                  then cat_emote else cat_wearable;
  nft_owner := Some (account_ref owner);
  nft_ownerAddress := acc_address owner;
  nft_tokenURI := Some (it_uri item +:+ "/" +:+ pretty (is_issuedId e));
  nft_activeOrder := None;
  nft_name := None;
  nft_image := it_image item;
  nft_createdAt := timestamp;
  nft_updatedAt := timestamp;
  nft_soldAt := None;
  nft_transferredAt := timestamp;
  nft_sales := 0;
  nft_volume := 0;
  nft_searchOrderStatus := None;
  nft_searchOrderPrice := None;
  nft_searchOrderExpiresAt := None;
  nft_searchOrderExpiresAtNormalized := None;
  nft_searchOrderCreatedAt := None;
  nft_searchText := None;
  nft_searchIsWearableHead := None;
  nft_searchIsWearableAccessory := None;
  nft_searchWearableRarity := None;
  nft_searchWearableCategory := None;
  nft_searchWearableBodyShapes := None;
  nft_itemBlockchainId := Some (is_itemId e);
  nft_issuedId := Some (is_issuedId e);
  nft_itemType := Some (it_itemType item);
  nft_urn := Some (it_urn item);
  nft_collection := Some collectionAddress;
  nft_item := Some (it_id item);
  nft_metadata := it_metadata item;
  nft_searchItemType := None;
  nft_searchEmoteCategory := None;
  nft_searchEmoteLoop := None;
  nft_searchEmoteRarity := None;
  nft_searchEmoteBodyShapes := None;
  nft_network := POLYGON
|}.

(** [mintOf], polygon/handlers/nft.ts:111-122 *)
Definition mintOf (nft : NFT) (item : Item) (owner : Account) (collectionAddress : string)
    (e : IssueEventArgs) (timestamp : Z) : Mint := {|
  mt_id := nft_id nft;
  mt_item := it_id item;
  mt_nft := nft_id nft;
  mt_creator := it_creator item;
  mt_beneficiary := acc_id owner;
  mt_minter := is_caller e;
  mt_timestamp := timestamp;
  mt_searchPrimarySalePrice := None;
  mt_searchContractAddress := collectionAddress;
  mt_searchItemId := it_blockchainId item;
  mt_searchTokenId := nft_tokenId nft;
  mt_searchIssuedId := Some (is_issuedId e);
  mt_searchIsStoreMinter := isStoreMinter (is_caller e);
  mt_network := POLYGON
|}.

(** The first received leg of the trade an issue comes from. *)
Definition received0 (tradedEvent : option TradedEventArgs) : M World (option TradeAsset) :=
  match tradedEvent with
  | None => mret None
  | Some t => match head (td_received t) with
              | Some a => mret (Some a)
              | None => throw TypeError
              end
  end.

(** [mintTerms], polygon/handlers/nft.ts:132-148: the price of the primary
    sale and who receives it. *)
Definition mintTerms (item : Item) (minter : string) (received : option TradeAsset)
    : Z * string :=
  let beneficiary := if decide (it_beneficiary item ≠ ZERO_ADDRESS)
                     then it_beneficiary item else it_creator item in
  match received with
  | Some leg => if isMarketplaceV3 minter then (ta_value leg, ta_beneficiary leg)
                else (it_price item, beneficiary)
  | None => (it_price item, beneficiary)
  end.

(** [storeSale], polygon/handlers/nft.ts:150-172: the mint is recorded, and
    with it the primary sale when a store minted it. *)
Definition storeSale (block : Block) (transaction : Transaction) (e : IssueEventArgs)
    (item : Item) (nft : NFT) (mint : Mint) (fee : Z) (feeOwner : string)
    (received : option TradeAsset) (timestamp : Z) : M World unit :=
  let '(price, beneficiary) := mintTerms item (is_caller e) received in
  if isStoreMinter (is_caller e) then
    _ ← trackSale block {|
          sa_type := sale_mint;
          sa_buyer := is_beneficiary e;
          sa_seller := it_creator item;
          sa_beneficiary := beneficiary;
          sa_itemId := it_id item;
          sa_nftId := nft_id nft;
          sa_price := price;
          sa_feesCollectorCut := fee;
          sa_feesCollector := feeOwner;
          sa_royaltiesCut := 0;
          sa_timestamp := timestamp;
          sa_txHash := tx_hash transaction
        |};
    mem_set mints (mt_id mint)
      (mint <| mt_searchPrimarySalePrice := Some (it_price item) |>)
  else mem_set mints (mt_id mint) mint.

(** [handleMintNFT], polygon/handlers/nft.ts:33-173 *)
Definition handleMintNFT (e : IssueEventArgs) (block : Block) (transaction : Transaction)
    (collectionAddress : string) (item : Item) (storeContractData : StoreContractData)
    (tradedEvent : option TradedEventArgs) : M World unit :=
  let nftId := getNFTId collectionAddress (pretty (is_tokenId e)) None in
  collection ← map_get collections collectionAddress;
  match collection with
  | None => mret tt
  | Some _ =>
      owner ← createOrLoadAccount (is_beneficiary e) POLYGON;
      timestamp ← block_seconds block;
      nft ← setNFTSearchFields
              (mintedNFT collectionAddress nftId e item owner timestamp);
      _ ← createOrLoadAccount (is_beneficiary e) POLYGON;
      metric ← buildCountFromNFT nft POLYGON;
      _ ← map_set counts (cnt_id metric) metric;
      _ ← map_set nfts nftId nft;
      let mint := mintOf nft item owner collectionAddress e timestamp in
      match scd_fee storeContractData, scd_feeOwner storeContractData with
      | Some fee, Some feeOwner =>
          received ← (if isMarketplaceV3 (is_caller e) then received0 tradedEvent
                      else mret None);
          storeSale block transaction e item nft mint fee feeOwner received timestamp
      | _, _ => mret tt
      end
  end.

(** [orderStatusAfterTransfer], polygon/handlers/nft.ts:227-234: the status of
    the active order once the token belongs to [newOwner]. *)
Definition orderStatusAfterTransfer (order : Order) (newOwner : string) : OrderStatus :=
  if decide (ord_owner order = newOwner) then status_open else status_transferred.

(** [handleTransferNFT], polygon/handlers/nft.ts:175-240 *)
Definition handleTransferNFT (collectionAddress : string) (e : TransferEventArgs)
    (block : Block) (txHash : string) : M World unit :=
  let tokenId : string := pretty (te_tokenId e) in
  if decide (tokenId = "") then mret tt else
  let id := getNFTId collectionAddress tokenId None in
  found ← map_get nfts id;
  match found with
  | None => mret tt
  | Some nft =>
      ownerAccount ← createOrLoadAccount (te_to e) POLYGON;
      timestamp ← block_seconds block;
      _ ← mutate nfts id (λ nft,
            nft <| nft_owner := Some (account_ref ownerAccount) |>
                <| nft_ownerAddress := acc_address ownerAccount |>
                <| nft_updatedAt := timestamp |>
                <| nft_transferredAt := timestamp |>);
      _ ← mem_update transferGiftCandidates
            (alist_set (txHash +:+ "-" +:+ nft_id nft) {|
               tg_nftId := nft_id nft;
               tg_from := te_from e;
               tg_to := te_to e;
               tg_tokenURI := nft_tokenURI nft;
               tg_timestamp := timestamp;
               tg_txHash := txHash
             |});
      match nft_activeOrder nft with
      | None => mret tt
      | Some orderId =>
          order ← map_get orders orderId;
          match order with
          | None => mret tt
          | Some order =>
              let status := orderStatusAfterTransfer order (acc_address ownerAccount) in
              _ ← mutate orders orderId (λ o, o <| ord_status := status |>);
              mutate nfts id (λ nft, nft <| nft_searchOrderStatus := Some status |>)
          end
      end
  end.
End nft.
