(* ===== verification/Collection.v ===== *)
(** * Collection events

    [polygon/handlers/collection.ts]: the creation of a collection and every
    event its contract emits. *)

From S2P Require Import Prelude JsString Model Env State Common Metadata Analytics Nft.
Open Scope string_scope.
Open Scope list_scope.
Open Scope Z_scope.

Section collection.
Context `{Env, Rpc}.

(** [item.id] of the [i]-th item of a collection. *)
Definition itemIdAt (collectionAddress : string) (i : Z) : string :=
  getItemId collectionAddress (pretty i).

(** [for (let i = 0; i < itemsCount; i++)] *)
Definition indices (itemsCount : Z) : list Z := seqZ 0 itemsCount.

(** [handleCollectionCreation], polygon/handlers/collection.ts:39-127 *)
Definition handleCollectionCreation (block : Block) (address : string)
    (usedCredits : bool) (creditValue : option Z) (txHash : string)
    (prefetchedData : option CollectionData) : M World unit :=
  timestamp ← block_seconds block;
  data ← match prefetchedData with
         | Some d => mret d
         | None => lift (rpc_collection (blk_height block) address)
         end;
  _ ← map_set collections address {|
        col_id := address;
        col_name := cd_name data;
        col_symbol := cd_symbol data;
        col_owner := cd_owner data;
        col_creator := cd_creator data;
        col_isCompleted := Some (cd_isCompleted data);
        col_isApproved := Some (cd_isApproved data);
        col_isEditable := Some (cd_isEditable data);
        col_minters := [];
        col_managers := [];
        col_urn := getURNForCollectionV2 DCL_MATIC address;
        col_itemsCount := 0;
        col_createdAt := timestamp;
        col_updatedAt := timestamp;
        col_reviewedAt := timestamp;
        col_firstListedAt := None;
        col_searchIsStoreMinter := false;
        col_searchIsMarketplaceV3Minter := false;
        col_searchText := toLowerCase (cd_name data);
        col_baseURI := cd_baseURI data;
        col_chainId := cd_chainId data;
        col_usedCredits := usedCredits;
        col_creditValue := creditValue;
        col_txHash := txHash;
        col_network := POLYGON
      |};
  metric ← buildCountFromCollection;
  _ ← map_set counts (cnt_id metric) metric;
  _ ← createOrLoadAccount (cd_creator data) POLYGON;
  mutate accounts (accountKey (cd_creator data) POLYGON)
    (λ acc, acc <| acc_collections ::= Z.succ |>).

(** ** Minters *)

(** The minters that put items on sale: the collection store, or one of the two
    off-chain marketplace contracts. *)
Inductive SaleMinter := Store | V3.

(** [saleMinter], polygon/handlers/collection.ts:155-166 *)
Definition saleMinter (minter : string) : option SaleMinter :=
  if decide (minter = CollectionStore getAddresses) then Some Store
  else if isMarketplaceV3 minter then Some V3
  else None.

Definition flagCollection (k : SaleMinter) (b : bool) (c : Collection) : Collection :=
  match k with
  | Store => c <| col_searchIsStoreMinter := b |>
  | V3 => c <| col_searchIsMarketplaceV3Minter := b |>
  end.

Definition flagItem (k : SaleMinter) (b : bool) (i : Item) : Item :=
  match k with
  | Store => i <| it_searchIsStoreMinter := b |>
  | V3 => i <| it_searchIsMarketplaceV3Minter := b |>
  end.

(** [if (!item.firstListedAt) item.firstListedAt = BigInt(block.timestamp / 1000)] *)
Definition listItem (block : Block) (itemId : string) (item : Item) : M World unit :=
  if truthy_bigint (it_firstListedAt item) then mret tt else
  timestamp ← block_seconds block;
  mutate items itemId (λ i, i <| it_firstListedAt := Some timestamp |>).

(** [addGlobalMinter], polygon/handlers/collection.ts:152-198 *)
Definition addGlobalMinter (collectionAddress minter : string) (block : Block)
    (collection : Collection) : M World unit :=
  _ ← mutate collections collectionAddress (λ c, c <| col_minters ::= (λ l, l ++ [minter]) |>);
  match saleMinter minter with
  | None => mret tt
  | Some k =>
      _ ← mutate collections collectionAddress (flagCollection k true);
      _ ← (if truthy_bigint (col_firstListedAt collection) then mret tt else
           timestamp ← block_seconds block;
           mutate collections collectionAddress
             (λ c, c <| col_firstListedAt := Some timestamp |>));
      for_each (indices (col_itemsCount collection)) (λ i,
        let itemId := itemIdAt collectionAddress i in
        item ← map_get items itemId;
        match item with
        | None => mret tt
        | Some item =>
            _ ← mutate items itemId (flagItem k true);
            listItem block itemId item
        end)
  end.

(** The inner loop over the minters of the [i]-th item, which tests
    [itemMinters[i]] at every turn.
    [itemMinterFlags], polygon/handlers/collection.ts:225-237 *)
Definition itemMinterFlags (i : nat) (itemMinters : list string) : bool * bool :=
  foldl (λ (flags : bool * bool) _,
    match itemMinters !! i with
    | Some m =>
        if decide (CollectionStore getAddresses = m) then (true, flags.2)
        else if isMarketplaceV3 m then (flags.1, true)
        else flags
    | None => flags
    end) (false, false) itemMinters.

(** [removeGlobalMinter], polygon/handlers/collection.ts:199-246 *)
Definition removeGlobalMinter (collectionAddress minter : string)
    (collection : Collection) : M World unit :=
  let newMinters := filter (λ m, m ≠ minter) (col_minters collection) in
  _ ← match saleMinter minter with
      | None => mret tt
      | Some k =>
          _ ← mutate collections collectionAddress (flagCollection k false);
          for_each (indices (col_itemsCount collection)) (λ i,
            let itemId := itemIdAt collectionAddress i in
            item ← map_get items itemId;
            match item with
            | None => mret tt
            | Some item =>
                let '(isStoreItemMinter, isMarketplaceV3ItemMinter) :=
                  itemMinterFlags (Z.to_nat i) (it_minters item) in
                mutate items itemId (λ item,
                  item <| it_searchIsStoreMinter := isStoreItemMinter |>
                       <| it_searchIsMarketplaceV3Minter := isMarketplaceV3ItemMinter |>)
            end)
      end;
  mutate collections collectionAddress (λ c, c <| col_minters := newMinters |>).

(** [handleSetGlobalMinter], polygon/handlers/collection.ts:129-247 *)
Definition handleSetGlobalMinter (collectionAddress : string)
    (e : SetGlobalMinterEventArgs) (block : Block) : M World unit :=
  found ← map_get collections collectionAddress;
  match found with
  | None => mret tt
  | Some collection =>
      if sgm_value e
      then addGlobalMinter collectionAddress (sgm_minter e) block collection
      else removeGlobalMinter collectionAddress (sgm_minter e) collection
  end.

(** [handleSetGlobalManager], polygon/handlers/collection.ts:249-280 *)
Definition handleSetGlobalManager (collectionAddress : string)
    (e : SetGlobalManagerEventArgs) : M World unit :=
  found ← map_get collections collectionAddress;
  match found with
  | None => mret tt
  | Some _ =>
      mutate collections collectionAddress (λ c,
        c <| col_managers ::= (λ l,
          if sgg_value e then l ++ [sgg_manager e]
          else filter (λ m, m ≠ sgg_manager e) l) |>)
  end.

(** [handleSetItemMinter], polygon/handlers/collection.ts:282-347 *)
Definition handleSetItemMinter (collectionAddress : string)
    (e : SetItemMinterEventArgs) (block : Block) : M World unit :=
  let id := itemIdAt collectionAddress (sim_itemId e) in
  let minter := sim_minter e in
  found ← map_get items id;
  match found with
  | None => mret tt
  | Some item =>
      if decide (sim_value e > 0) then
        _ ← mutate items id (λ i, i <| it_minters ::= (λ l, l ++ [minter]) |>);
        match saleMinter minter with
        | None => mret tt
        | Some k =>
            _ ← mutate items id (flagItem k true);
            listItem block id item
        end
      else
        _ ← mutate items id (λ i, i <| it_minters ::= filter (λ m, m ≠ minter) |>);
        collectionId ← item_collection_id item;
        collection ← map_get collections collectionId;
        match collection, saleMinter minter with
        | Some c, Some Store =>
            when (negb (col_searchIsStoreMinter c)) (mutate items id (flagItem Store false))
        | Some c, Some V3 =>
            when (negb (col_searchIsMarketplaceV3Minter c)) (mutate items id (flagItem V3 false))
        | _, _ => mret tt
        end
  end.

(** [handleSetItemManager], polygon/handlers/collection.ts:349-374 *)
Definition handleSetItemManager (collectionAddress : string)
    (e : SetItemManagerEventArgs) : M World unit :=
  let id := itemIdAt collectionAddress (sig_itemId e) in
  found ← map_get items id;
  match found with
  | None => mret tt
  | Some _ =>
      mutate items id (λ i,
        i <| it_managers ::= (λ l,
          if sig_value e then l ++ [sig_manager e]
          else filter (λ m, m ≠ sig_manager e) l) |>)
  end.

(** ** Items *)

(** [itemCreationFee], polygon/handlers/collection.ts:412-440 *)
Definition itemCreationFee (block : Block) (rarity : option Rarity) : M World Z :=
  match rarity with
  | None => mret 0
  | Some r =>
      if decide (ra_currency r = cur_USD) then
        result ← lift (rpc_getRarityByName (blk_height block)
                         (RaritiesWithOracle getAddresses) (ra_name r));
        mret (br_price result)
      else mret (ra_price r)
  end.

(** [newItem], polygon/handlers/collection.ts:442-483: the item before its
    metadata. *)
Definition newItem (collectionAddress : string) (e : AddItemEventArgs)
    (collection : Collection) (creationFee timestamp : Z) : Item :=
  let itemId : string := pretty (ai_itemId e) in
  let urn := getURNForWearableV2 collectionAddress itemId DCL_MATIC in
  {|
    it_id := getItemId collectionAddress itemId;
    it_collection := Some (col_id collection);
    it_blockchainId := ai_itemId e;
    it_creator := col_creator collection;
    it_itemType := item_undefined;
    it_totalSupply := ai_totalSupply e;
    it_maxSupply := ai_maxSupply e;
    it_rarity := ai_rarity e;
    it_creationFee := creationFee;
    it_available := ai_maxSupply e;
    it_price := ai_price e;
    it_beneficiary := ai_beneficiary e;
    it_contentHash := Some (ai_contentHash e);
    it_uri := col_baseURI collection +:+ pretty (col_chainId collection) +:+ "/"
                +:+ collectionAddress +:+ "/" +:+ itemId;
    it_image := Some (getCatalystBase polygonChainId
                  +:+ "/lambdas/collections/contents/" +:+ urn +:+ "/thumbnail");
    it_minters := [];
    it_managers := [];
    it_metadata := None;
    it_rawMetadata := ai_metadata e;
    it_urn := urn;
    it_createdAt := timestamp;
    it_updatedAt := timestamp;
    it_reviewedAt := timestamp;
    it_soldAt := None;
    it_firstListedAt := None;
    it_sales := 0;
    it_volume := 0;
    it_searchText := None;
    it_searchItemType := None;
    it_searchIsCollectionApproved := None;
    it_searchIsStoreMinter := false;
    it_searchIsMarketplaceV3Minter := false;
    it_searchIsWearableHead := None;
    it_searchIsWearableAccessory := None;
    it_searchWearableCategory := None;
    it_searchWearableRarity := None;
    it_searchWearableBodyShapes := None;
    it_searchEmoteCategory := None;
    it_searchEmoteLoop := None;
    it_searchEmoteRarity := None;
    it_searchEmoteBodyShapes := None;
    it_searchEmoteHasSound := None;
    it_searchEmoteHasGeometry := None;
    it_searchEmoteOutcomeType := None;
    it_uniqueCollectors := [];
    it_uniqueCollectorsTotal := 0;
    it_network := POLYGON
  |}.

(** An item's metadata is rebuilt and copied into its search fields. *)
Definition refreshMetadata (item : Item) : M World Item :=
  metadata ← buildItemMetadata item;
  setItemSearchFields (item <| it_metadata := Some (md_id metadata) |>
                            <| it_itemType := md_itemType metadata |>).

(** [handleAddItem], polygon/handlers/collection.ts:376-507 *)
Definition handleAddItem (block : Block) (collectionAddress : string)
    (e : AddItemEventArgs) (raritiesNow : gmap string Rarity) : M World unit :=
  found ← map_get collections collectionAddress;
  match found with
  | None => mret tt
  | Some collection =>
      _ ← mutate collections collectionAddress (λ c, c <| col_itemsCount ::= Z.succ |>);
      creationFee ← itemCreationFee block (raritiesNow !! ai_rarity e);
      timestamp ← block_seconds block;
      item ← refreshMetadata (newItem collectionAddress e collection creationFee timestamp);
      _ ← buildCountFromItem POLYGON;
      _ ← mutate counts (countKey POLYGON)
            (λ c, c <| cnt_daoEarningsManaTotal ::= Z.add creationFee |>);
      analyticsDayData ← getOrCreateAnalyticsDayData timestamp POLYGON;
      _ ← map_set analytics (an_id analyticsDayData)
            (analyticsDayData <| an_daoEarnings ::= Z.add creationFee |>);
      map_set items (it_id item) item
  end.

(** ** Curations *)

(** [txInput.startsWith("0x07bd3522") || txInput.startsWith("0x81c9308e")] *)
Definition isCuration (txInput : string) : bool :=
  startsWith "0x07bd3522" txInput || startsWith "0x81c9308e" txInput.

(** [curatorOf], polygon/handlers/collection.ts:567-577: the curator is the
    sender of a direct call, or the first argument of the meta-transaction. *)
Definition curatorOf (transaction : Transaction) : string :=
  let txInput := tx_input transaction in
  if startsWith "0x81c9308e" txInput then tx_from transaction
  else
    let index := indexOf "0c53c51c" txInput in
    "0x" +:+ substr (Z.to_nat (index + 32)) 40 txInput.

(** [account.totalCurations += 1] where the field is set. *)
Definition countCuration (acc : Account) : Account :=
  acc <| acc_totalCurations ::= fmap Z.succ |>.

(** [recordCuration], polygon/handlers/collection.ts:558-604 *)
Definition recordCuration (log : Log) (transaction : Transaction)
    (collectionAddress : string) (collection : Collection) (item : Item)
    (timestamp : Z) : M World unit :=
  let curationId := getCurationId collectionAddress (tx_hash transaction)
                      (pretty (log_logIndex log)) in
  let curator := curatorOf transaction in
  account ← createOrLoadAccount curator POLYGON;
  _ ← mem_set curations curationId {|
        cu_id := curationId;
        cu_txHash := Buffer_from_hex (slice 2 (tx_hash transaction));
        cu_curator := account_ref account;
        cu_collection := col_id collection;
        cu_item := Some (it_id item);
        cu_isApproved := true;
        cu_timestamp := timestamp
      |};
  mutate accounts (accountKey curator POLYGON) countCuration.

(** [handleRescueItem], polygon/handlers/collection.ts:509-606 *)
Definition handleRescueItem (e : RescueItemEventArgs) (block : Block) (log : Log)
    (transaction : Transaction) : M World unit :=
  let collectionAddress := log_address log in
  let id := itemIdAt collectionAddress (ri_itemId e) in
  timestamp ← block_seconds block;
  found ← map_get items id;
  match found with
  | None => mret tt
  | Some item =>
      let isNewContent := bool_decide (it_contentHash item ≠ Some (ri_contentHash e)) in
      let item := item <| it_rawMetadata := ri_metadata e |>
                       <| it_contentHash := Some (ri_contentHash e) |> in
      _ ← map_set items id item;
      item ← refreshMetadata item;
      let item := item <| it_updatedAt := timestamp |> in
      _ ← map_set items id item;
      found ← map_get collections collectionAddress;
      match found with
      | None => mret tt
      | Some collection =>
          _ ← mutate collections collectionAddress (λ c,
                c <| col_updatedAt := timestamp |> <| col_reviewedAt := timestamp |>);
          when (isNewContent
                && bool_decide (getBlockWhereRescueItemsStarted ≤ blk_height block)
                && isCuration (tx_input transaction))
            (recordCuration log transaction collectionAddress collection item timestamp)
      end
  end.

(** [handleUpdateItemData], polygon/handlers/collection.ts:608-634 *)
Definition handleUpdateItemData (collectionAddress : string)
    (e : UpdateItemDataEventArgs) (block : Block) : M World unit :=
  let id := itemIdAt collectionAddress (ui_itemId e) in
  found ← map_get items id;
  match found with
  | None => mret tt
  | Some item =>
      let item := item <| it_price := ui_price e |>
                       <| it_beneficiary := ui_beneficiary e |>
                       <| it_rawMetadata := ui_metadata e |> in
      _ ← map_set items id item;
      item ← refreshMetadata item;
      _ ← map_set items id item;
      timestamp ← block_seconds block;
      mutate items id (λ i, i <| it_updatedAt := timestamp |>)
  end.

(** ** Token identifiers *)

(** [MAX_ITEM_ID], polygon/handlers/collection.ts:637-637 *)
Definition MAX_ITEM_ID : Z := 0xFFFFFFFFFF.

(** [MAX_ISSUED_ID], polygon/handlers/collection.ts:638-640: the literal has
    sixty hexadecimal digits. *)
Definition MAX_ISSUED_ID : Z :=
  0xFFFFFFFFFFFFFFFFFFFFFFFFFFFFFFFFFFFFFFFFFFFFFFFFFFFFFFFFFFFF.

(** [encodeTokenId], polygon/handlers/collection.ts:636-652 *)
Definition encodeTokenId (itemId issuedId : Z) : Res Z :=
  if decide (itemId > MAX_ITEM_ID)
  then Throw (JsError "encodeTokenId: INVALID_ITEM_ID")
  else if decide (issuedId > MAX_ISSUED_ID)
  then Throw (JsError "encodeTokenId: INVALID_ISSUED_ID")
  else Ok (Z.lor (Z.shiftl itemId 216) issuedId).

(** [handleIssue], polygon/handlers/collection.ts:654-696 *)
Definition handleIssue (collectionAddress : string) (e : IssueEventArgs) (block : Block)
    (transaction : Transaction) (storeContractData : StoreContractData)
    (tradedEvent : option TradedEventArgs) : M World unit :=
  let id := itemIdAt collectionAddress (is_itemId e) in
  found ← map_get items id;
  match found with
  | None => mret tt
  | Some item =>
      let item := item <| it_available ::= Z.pred |> <| it_totalSupply ::= Z.succ |> in
      _ ← map_set items id item;
      _ ← handleMintNFT e block transaction collectionAddress item storeContractData
            tradedEvent;
      _ ← item_collection_id item;
      mret tt
  end.

(** ** Collection attributes *)

(** [handleSetApproved], polygon/handlers/collection.ts:698-775.  The curation
    it builds is not put in the [curations] map. *)
Definition handleSetApproved (collectionAddress : string) (newValue : bool)
    (block : Block) (transaction : Transaction) : M World unit :=
  found ← map_get collections collectionAddress;
  timestamp ← block_seconds block;
  match found with
  | None => mret tt
  | Some collection =>
      _ ← mutate collections collectionAddress (λ c, c <| col_isApproved := Some newValue |>);
      _ ← for_each (indices (col_itemsCount collection)) (λ i,
            mutate items (itemIdAt collectionAddress i) (λ item,
              item <| it_searchIsCollectionApproved := Some newValue |>
                   <| it_reviewedAt := timestamp |>));
      _ ← mutate collections collectionAddress (λ c,
            c <| col_updatedAt := timestamp |> <| col_reviewedAt := timestamp |>);
      when (bool_decide (getBlockWhereRescueItemsStarted < blk_height block)
            && isCuration (tx_input transaction))
        (let curator := curatorOf transaction in
         _ ← createOrLoadAccount curator POLYGON;
         mutate accounts (accountKey curator POLYGON) countCuration)
  end.

(** [handleSetEditable], polygon/handlers/collection.ts:777-791 *)
Definition handleSetEditable (collectionAddress : string) (newValue : bool)
    : M World unit :=
  mutate collections collectionAddress (λ c, c <| col_isEditable := Some newValue |>).

(** [handleCompleteCollection], polygon/handlers/collection.ts:793-806 *)
Definition handleCompleteCollection (collectionAddress : string) : M World unit :=
  mutate collections collectionAddress (λ c, c <| col_isCompleted := Some true |>).

(** [handleTransferCreatorship], polygon/handlers/collection.ts:808-839 *)
Definition handleTransferCreatorship (collectionAddress newCreator : string)
    (block : Block) : M World unit :=
  found ← map_get collections collectionAddress;
  timestamp ← block_seconds block;
  match found with
  | None => mret tt
  | Some collection =>
      _ ← mutate collections collectionAddress (λ c,
            c <| col_creator := newCreator |> <| col_updatedAt := timestamp |>);
      for_each (indices (col_itemsCount collection)) (λ i,
        mutate items (itemIdAt (col_id collection) i) (λ item,
          item <| it_creator := newCreator |> <| it_updatedAt := timestamp |>))
  end.

(** [handleTransferOwnership], polygon/handlers/collection.ts:841-858 *)
Definition handleTransferOwnership (collectionAddress newOwner : string)
    (block : Block) : M World unit :=
  found ← map_get collections collectionAddress;
  timestamp ← block_seconds block;
  match found with
  | None => mret tt
  | Some _ =>
      mutate collections collectionAddress (λ c,
        c <| col_owner := newOwner |> <| col_updatedAt := timestamp |>)
  end.

(** [handleTransfer], polygon/handlers/collection.ts:860-873 *)
Definition handleTransfer (collectionAddress : string) (e : TransferEventArgs)
    (block : Block) (txHash : string) : M World unit :=
  if isMint (te_from e) then mret tt
  else handleTransferNFT collectionAddress e block txHash.
End collection.
