(* ===== verification/IssueLog.v ===== *)
(** * Pairing [Traded] events with [Issue] logs

    [polygon/utils/issueLog.ts].  A transaction that mints several units of an
    item emits one [Issue] log and one [Traded] event per unit; the logs are
    consumed in log order. *)

From S2P Require Import Prelude JsString Model Env State.
Open Scope string_scope.
Open Scope list_scope.
Open Scope Z_scope.

(** [CollectionV2ABI.events.Issue.topic], polygon/abi/CollectionV2.ts *)
Definition IssueTopic : Z :=
  0x57e2fe3f4d57a597e655a893f43c395d7dc18cb9c9c1898eda75cc0ad7608525.

(** [MarketplaceV3ABI.events.Traded.topic], polygon/abi/DecentralandMarketplacePolygon.ts *)
Definition TradedTopic : Z :=
  0xaaecdfa7e74e704650fcb273f630f42f68974eff42bfffc1732cf30db9e4685b.

(** ** A stable sort by a numeric key, as [Array.prototype.sort] is *)

Section sort.
Context {A : Type} (key : A → Z).

Fixpoint insert_by (x : A) (l : list A) : list A :=
  match l with
  | [] => [x]
  | y :: l => if decide (key x ≤ key y) then x :: y :: l else y :: insert_by x l
  end.

Definition sort_by (l : list A) : list A := foldr insert_by [] l.
End sort.

(** The parameters of the selection, but for the set it updates. *)
Record IssueQuery := mkIssueQuery {
  iq_transactionIndex : Z;
  iq_collectionAddress : string;
  iq_itemId : Z;
  iq_blockHeight : Z
}.

(** [issueLogKey], polygon/utils/issueLog.ts:58-60 *)
Definition issueLogKey (blockHeight logIndex : Z) : string :=
  pretty blockHeight +:+ "-" +:+ pretty logIndex.

(** [matchesIssue], polygon/utils/issueLog.ts:47-55 *)
Definition matchesIssue (q : IssueQuery) (l : Log) : bool :=
  bool_decide (log_transactionIndex l = iq_transactionIndex q) &&
  bool_decide (toLowerCase (log_address l) = toLowerCase (iq_collectionAddress q)) &&
  bool_decide (4 ≤ length (log_topics l))%nat &&
  bool_decide (log_topics l !! 0%nat = Some IssueTopic) &&
  bool_decide (log_topics l !! 3%nat = Some (iq_itemId q)).

(** [chooseIssueLog], polygon/utils/issueLog.ts:47-60: the first match, in log
    order, that is not consumed. *)
Definition chooseIssueLog (logs : list Log) (q : IssueQuery) (consumed : gset string)
    : option Log :=
  let matching := sort_by log_logIndex (filter (λ l, matchesIssue q l) logs) in
  head (filter (λ l, issueLogKey (iq_blockHeight q) (log_logIndex l) ∉ consumed) matching).

(** [selectIssueLogForTrade], polygon/utils/issueLog.ts:27-67 *)
Definition selectIssueLogForTrade (logs : list Log) (q : IssueQuery)
    (consumedIssueLogs : gset string) : option Log * gset string :=
  match chooseIssueLog logs q consumedIssueLogs with
  | Some chosen =>
      (Some chosen,
       {[issueLogKey (iq_blockHeight q) (log_logIndex chosen)]} ∪ consumedIssueLogs)
  | None => (None, consumedIssueLogs)
  end.

(** The selections of consecutive [Traded] events with the same parameters. *)
Fixpoint selectIssueLogs (n : nat) (logs : list Log) (q : IssueQuery)
    (consumed : gset string) : list (option Log) * gset string :=
  match n with
  | O => ([], consumed)
  | S n =>
      let '(chosen, consumed) := selectIssueLogForTrade logs q consumed in
      let '(rest, consumed) := selectIssueLogs n logs q consumed in
      (chosen :: rest, consumed)
  end.
