(* ===== verification/Fees.v ===== *)
(** * Contract data caches

    The getters and setters of [polygon/state.ts]: fee rates and collectors are
    read from the chain the first time they are needed and kept. *)

From S2P Require Import Prelude JsString Model Env State.
Open Scope string_scope.
Open Scope list_scope.
Open Scope Z_scope.

Section fees.
Context `{Env, Rpc}.

(** [height >= START_BLOCK[chainId]]: a chain without a start block compares
    with [undefined], which is false. *)
Definition startedAt (mainnet amoy height : Z) : bool :=
  if decide (polygonChainId = MATIC_MAINNET) then bool_decide (mainnet ≤ height)
  else if decide (polygonChainId = MATIC_AMOY) then bool_decide (amoy ≤ height)
  else false.

(** [storeStarted], polygon/state.ts:151-154 *)
Definition storeStarted : Z → bool := startedAt 15202567 5706656.

(** [marketplaceStarted], polygon/state.ts:185-188 *)
Definition marketplaceStarted : Z → bool := startedAt 15202000 14517370.

(** [marketplaceV2Started], polygon/state.ts:216-219 *)
Definition marketplaceV2Started : Z → bool := startedAt 22514900 5706656.

(** [bidV2Started], polygon/state.ts:248-251 *)
Definition bidV2Started : Z → bool := startedAt 22913743 5706662.

(** Assigns to a field of a cache what a contract read answers. *)
Definition fetch {A C} (answer : Res A) (p : Caches → C) `{!Setter p}
    (assign : A → C → C) : M World unit :=
  a ← lift answer;
  modify (set caches (set p (assign a))).

(** [getStoreContractData], polygon/state.ts:156-183 *)
Definition getStoreContractData (block : Block) : M World unit :=
  d ← gets (λ w, c_store (caches w));
  let h := blk_height block in
  let a := CollectionStore getAddresses in
  when ((bool_decide (scd_fee d = None) || bool_decide (scd_feeOwner d = None))
        && storeStarted h)
    (catch
       (_ ← fetch (rpc_fee h a) c_store (λ x d, d <| scd_fee := Some x |>);
        fetch (rpc_feeOwner h a) c_store (λ x d, d <| scd_feeOwner := Some x |>))
       (λ _, mret tt)).

(** [getMarketplaceContractData], polygon/state.ts:190-214 *)
Definition getMarketplaceContractData (block : Block) : M World unit :=
  d ← gets (λ w, c_marketplace (caches w));
  let h := blk_height block in
  let a := Marketplace getAddresses in
  when (bool_decide (polygonChainId = MATIC_MAINNET)
        && (bool_decide (mcd_ownerCutPerMillion d = None) || bool_decide (mcd_owner d = None))
        && marketplaceStarted h)
    (catch
       (_ ← fetch (rpc_ownerCutPerMillion h a) c_marketplace
              (λ x d, d <| mcd_ownerCutPerMillion := Some x |>);
        fetch (rpc_owner h a) c_marketplace (λ x d, d <| mcd_owner := Some x |>))
       (λ _, mret tt)).

(** [getMarketplaceV2ContractData], polygon/state.ts:221-246 *)
Definition getMarketplaceV2ContractData (block : Block) : M World unit :=
  d ← gets (λ w, c_marketplaceV2 (caches w));
  let h := blk_height block in
  let a := MarketplaceV2 getAddresses in
  when ((bool_decide (m2_feesCollectorCutPerMillion d = None)
         || bool_decide (m2_feesCollector d = None)
         || bool_decide (m2_royaltiesCutPerMillion d = None))
        && marketplaceV2Started h)
    (catch
       (_ ← fetch (rpc_feesCollectorCutPerMillion h a) c_marketplaceV2
              (λ x d, d <| m2_feesCollectorCutPerMillion := Some x |>);
        _ ← fetch (rpc_feesCollector h a) c_marketplaceV2
              (λ x d, d <| m2_feesCollector := Some x |>);
        fetch (rpc_royaltiesCutPerMillion h a) c_marketplaceV2
              (λ x d, d <| m2_royaltiesCutPerMillion := Some x |>))
       (λ _, mret tt)).

(** [getBidV2ContractData], polygon/state.ts:253-275 *)
Definition getBidV2ContractData (block : Block) : M World unit :=
  d ← gets (λ w, c_bidV2 (caches w));
  let h := blk_height block in
  let a := BidV2 getAddresses in
  when ((bool_decide (b2_feesCollectorCutPerMillion d = None)
         || bool_decide (b2_feesCollector d = None)
         || bool_decide (b2_royaltiesCutPerMillion d = None))
        && bidV2Started h)
    (catch
       (_ ← fetch (rpc_feesCollectorCutPerMillion h a) c_bidV2
              (λ x d, d <| b2_feesCollectorCutPerMillion := Some x |>);
        _ ← fetch (rpc_feesCollector h a) c_bidV2
              (λ x d, d <| b2_feesCollector := Some x |>);
        fetch (rpc_royaltiesCutPerMillion h a) c_bidV2
              (λ x d, d <| b2_royaltiesCutPerMillion := Some x |>))
       (λ _, mret tt)).

(** [getMarketplaceV3ContractData], polygon/state.ts:113-136: the three reads
    succeed together or the call fails and nothing is cached. *)
Definition getMarketplaceV3ContractData (block : Block) : M World (string * Z * Z) :=
  d ← gets (λ w, c_marketplaceV3 (caches w));
  match m3_feeCollector d, m3_feeRate d, m3_royaltiesRate d with
  | Some feeCollector, Some feeRate, Some royaltiesRate =>
      mret (feeCollector, feeRate, royaltiesRate)
  | _, _, _ =>
      let h := blk_height block in
      let a := MarketplaceV3 getAddresses in
      feeCollector ← lift (rpc_feeCollector h a);
      feeRate ← lift (rpc_feeRate h a);
      royaltiesRate ← lift (rpc_royaltiesRate h a);
      _ ← modify (set caches (set c_marketplaceV3 (λ _,
            mkMarketplaceV3ContractData (Some feeCollector) (Some feeRate)
              (Some royaltiesRate))));
      mret (feeCollector, feeRate, royaltiesRate)
  end.

(** [setMarketplaceV3FeeCollector], polygon/state.ts:138-140 *)
Definition setMarketplaceV3FeeCollector (value : string) : M World unit :=
  modify (set caches (set c_marketplaceV3 (set m3_feeCollector (λ _, Some value)))).

(** [setMarketplaceV3FeeRate], polygon/state.ts:142-144 *)
Definition setMarketplaceV3FeeRate (value : Z) : M World unit :=
  modify (set caches (set c_marketplaceV3 (set m3_feeRate (λ _, Some value)))).

(** [setMarketplaceV3RoyaltiesRate], polygon/state.ts:146-148 *)
Definition setMarketplaceV3RoyaltiesRate (value : Z) : M World unit :=
  modify (set caches (set c_marketplaceV3 (set m3_royaltiesRate (λ _, Some value)))).

(** [setStoreFee], polygon/state.ts:277-279 *)
Definition setStoreFee (fee : Z) : M World unit :=
  modify (set caches (set c_store (set scd_fee (λ _, Some fee)))).

(** [setStoreFeeOwner], polygon/state.ts:281-283 *)
Definition setStoreFeeOwner (feeOwner : string) : M World unit :=
  modify (set caches (set c_store (set scd_feeOwner (λ _, Some feeOwner)))).

(** [setMarketplaceOwnerCutPerMillion], polygon/state.ts:301-303 *)
Definition setMarketplaceOwnerCutPerMillion (value : Z) : M World unit :=
  modify (set caches (set c_marketplaceOwnerCutPerMillion (λ _, Some value))).

(** [setBidOwnerCutPerMillion], polygon/state.ts:309-311 *)
Definition setBidOwnerCutPerMillion (value : Z) : M World unit :=
  modify (set caches (set c_bidOwnerCutPerMillion (λ _, Some value))).
End fees.
