(* ===== verification/Bid.v ===== *)
(** * Bids

    [polygon/handlers/bid.ts]. *)

From S2P Require Import Prelude JsString Model Env State Common Analytics.
Open Scope string_scope.
Open Scope list_scope.
Open Scope Z_scope.

Section bid.
Context `{Env, Rpc}.

(** [Buffer.from(_fingerprint.slice(2), "hex")], the empty buffer for ["0x"] *)
Definition fingerprintOf (fingerprint : string) : list Z :=
  if decide (fingerprint = "0x") then [] else Buffer_from_hex (slice 2 fingerprint).

(** [newBid], polygon/handlers/bid.ts:42-66 *)
Definition newBid (e : BidCreatedEventArgs) (block : Block) (contractAddress : string)
    (nft : NFT) (owner : AccountRef) (timestamp : Z) : Bid := {|
  bid_id := getBidId (bc_tokenAddress e) (pretty (bc_tokenId e)) (bc_bidder e);
  bid_bidAddress := contractAddress;
  bid_category := cat_wearable;
  bid_nft := Some (nft_id nft);
  bid_nftAddress := bc_tokenAddress e;
  bid_tokenId := bc_tokenId e;
  bid_bidder := Some (Buffer_from_hex (slice 2 (bc_bidder e)));
  bid_seller := Some (Buffer_from_hex (slice 2 (aref_address owner)));
  bid_price := bc_price e;
  bid_fingerprint := Some (fingerprintOf (bc_fingerprint e));
  bid_status := status_open;
  bid_blockchainId := bc_id e;
  bid_blockNumber := blk_height block;
  bid_expiresAt := bc_expiresAt e * 1000;
  bid_createdAt := timestamp;
  bid_updatedAt := timestamp;
  bid_network := POLYGON
|}.

(** [handleBidCreated], polygon/handlers/bid.ts:21-76 *)
Definition handleBidCreated (e : BidCreatedEventArgs) (block : Block)
    (contractAddress : string) : M World unit :=
  let nftId := getNFTId (bc_tokenAddress e) (pretty (bc_tokenId e)) None in
  nft ← map_get nfts nftId;
  _ ← match nft with
      | None => mret tt
      | Some nft =>
          timestamp ← block_seconds block;
          owner ← match nft_owner nft with
                  | Some owner => mret owner
                  | None => throw TypeError
                  end;
          let bid := newBid e block contractAddress nft owner timestamp in
          _ ← map_set bids (bid_id bid) bid;
          mutate nfts nftId (λ nft, nft <| nft_updatedAt := timestamp |>)
      end;
  count ← buildCountFromBid;
  map_set counts (cnt_id count) count.

(** The assignments both terminations make to the bid. *)
Definition closeBid (status : OrderStatus) (block : Block) (timestamp : Z) (bid : Bid) : Bid :=
  bid <| bid_status := status |>
      <| bid_blockNumber := blk_height block |>
      <| bid_updatedAt := timestamp |>.

(** [handleBidAccepted], polygon/handlers/bid.ts:78-144 *)
Definition handleBidAccepted (e : BidAcceptedEventArgs) (block : Block) (txHash : string)
    (bidV2ContractData : BidV2ContractData) : M World unit :=
  let id := getBidId (ba_tokenAddress e) (pretty (ba_tokenId e)) (ba_bidder e) in
  found ← map_get bids id;
  match found with
  | None => mret tt
  | Some bid =>
      match bid_nft bid with
      | None => mret tt
      | Some nftId =>
          nft ← map_get nfts nftId;
          match nft with
          | None => mret tt
          | Some nft =>
              _ ← mutate bids id (λ b,
                    b <| bid_status := status_sold |>
                      <| bid_seller := Some (Buffer_from_hex (slice 2 (ba_seller e))) |>);
              timestamp ← block_seconds block;
              _ ← mutate bids id (closeBid status_sold block timestamp);
              _ ← mutate nfts nftId (λ n, n <| nft_updatedAt := timestamp |>);
              match b2_feesCollector bidV2ContractData,
                    b2_feesCollectorCutPerMillion bidV2ContractData,
                    b2_royaltiesCutPerMillion bidV2ContractData with
              | Some feesCollector, Some feesCollectorCut, Some royaltiesCut =>
                  match nft_item nft with
                  | None | Some EmptyString => mret tt
                  | Some itemId =>
                      trackSale block {|
                        sa_type := sale_bid;
                        sa_buyer := ba_bidder e;
                        sa_seller := ba_seller e;
                        sa_beneficiary := ba_seller e;
                        sa_itemId := itemId;
                        sa_nftId := nft_id nft;
                        sa_price := bid_price bid;
                        sa_feesCollectorCut := feesCollectorCut;
                        sa_feesCollector := feesCollector;
                        sa_royaltiesCut := royaltiesCut;
                        sa_timestamp := timestamp;
                        sa_txHash := txHash
                      |}
                  end
              | _, _, _ => mret tt
              end
          end
      end
  end.

(** [handleBidCancelled], polygon/handlers/bid.ts:146-173 *)
Definition handleBidCancelled (e : BidCancelledEventArgs) (block : Block) : M World unit :=
  let id := getBidId (bx_tokenAddress e) (pretty (bx_tokenId e)) (bx_bidder e) in
  found ← map_get bids id;
  match found with
  | None => mret tt
  | Some bid =>
      match bid_nft bid with
      | None => mret tt
      | Some nftId =>
          nft ← map_get nfts nftId;
          match nft with
          | None => mret tt
          | Some _ =>
              _ ← mutate bids id (λ b,
                    b <| bid_status := status_cancelled |>
                      <| bid_blockNumber := blk_height block |>);
              timestamp ← block_seconds block;
              _ ← mutate bids id (λ b, b <| bid_updatedAt := timestamp |>);
              mutate nfts nftId (λ n, n <| nft_updatedAt := timestamp |>)
          end
      end
  end.
End bid.
