(* ===== verification/RarityHandlers.v ===== *)
(** * Rarities and committee members

    [polygon/modules/rarity.ts], [polygon/handlers/rarity.ts],
    [polygon/handlers/collectionManager.ts] and [polygon/handlers/committee.ts].
    The rarities are the live map of the processor, not a map of the stored
    data. *)

From S2P Require Import Prelude JsString Model Env State Common.
Open Scope string_scope.
Open Scope list_scope.
Open Scope Z_scope.

Section rarity.
Context `{Env, Rpc}.

(** The rarity under [name] with its four columns assigned. *)
Definition rarityWith (name : string) (price maxSupply : Z) (currency : Currency) : Rarity := {|
  ra_id := name; ra_name := name; ra_maxSupply := maxSupply; ra_price := price;
  ra_currency := currency
|}.

(** [handleAddRarity], polygon/modules/rarity.ts:3-26 *)
Definition handleAddRarity (rarities : gmap string Rarity) (name : string)
    (price maxSupply : Z) (currency : Currency) : gmap string Rarity :=
  match rarities !! name with
  | None => <[name := rarityWith name price maxSupply currency]> rarities
  | Some rarity =>
      if decide (ra_currency rarity = currency) then
        <[name := rarity <| ra_name := name |> <| ra_price := price |>
                         <| ra_maxSupply := maxSupply |>
                         <| ra_currency := currency |>]> rarities
      else rarities
  end.

(** [handleUpdatePrice], polygon/modules/rarity.ts:28-51 *)
Definition handleUpdatePrice (rarities : gmap string Rarity) (name : string)
    (price : Z) (currency : Currency) : gmap string Rarity :=
  match rarities !! name with
  | None => rarities
  | Some rarity =>
      if decide (ra_currency rarity = currency) then
        <[name := rarity <| ra_price := price |> <| ra_currency := currency |>]> rarities
      else rarities
  end.

(** [handleAddRarityEvent], polygon/handlers/rarity.ts:5-17 *)
Definition handleAddRarityEvent (name : string) (price maxSupply : Z)
    (currency : Currency) : M World unit :=
  modify (set liveRarities (λ r, handleAddRarity r name price maxSupply currency)).

(** [handleUpdatePriceEvent], polygon/handlers/rarity.ts:19-25 *)
Definition handleUpdatePriceEvent (name : string) (price : Z)
    (currency : Currency) : M World unit :=
  modify (set liveRarities (λ r, handleUpdatePrice r name price currency)).

(** [addBlockchainRarity], polygon/handlers/collectionManager.ts:28-42: an
    entry replaces the columns of the rarity of its name, whatever its
    currency was. *)
Definition addBlockchainRarity (currency : Currency) (r : BlockchainRarity)
    (rarities : gmap string Rarity) : gmap string Rarity :=
  let columns rarity :=
    rarity <| ra_name := br_name r |> <| ra_price := br_price r |>
           <| ra_maxSupply := br_maxSupply r |> <| ra_currency := currency |> in
  let rarity := default (rarityWith (br_name r) 0 0 currency) (rarities !! br_name r) in
  <[br_name r := columns rarity]> rarities.

(** [readRarities], polygon/handlers/collectionManager.ts:20-61 *)
Definition readRarities (block : Block) (address : string) (currency : Currency)
    : M World unit :=
  raritiesCount ← lift (rpc_raritiesCount (blk_height block) address);
  for_each (seqZ 0 raritiesCount) (λ i,
    r ← lift (rpc_rarities (blk_height block) address i);
    modify (set liveRarities (addBlockchainRarity currency r))).

(** [handleRaritiesSet], polygon/handlers/collectionManager.ts:9-67 *)
Definition handleRaritiesSet (block : Block) (newRarities : string) : M World unit :=
  if decide (newRarities = RaritiesWithOracle getAddresses)
  then readRarities block (RaritiesWithOracle getAddresses) cur_USD
  else if decide (newRarities = RarityContract getAddresses)
  then readRarities block (RarityContract getAddresses) cur_MANA
  else mret tt.

(** [handleMemeberSet], polygon/handlers/committee.ts:5-12 *)
Definition handleMemeberSet (member : string) (value : bool) : M World unit :=
  _ ← createOrLoadAccount member POLYGON;
  mutate accounts (accountKey member POLYGON) (λ acc,
    acc <| acc_isCommitteeMember := Some value |>).
End rarity.
