(* ===== verification/Marketplace.v ===== *)
(** * Marketplace events

    [polygon/handlers/marketplace.ts]: orders of the first two marketplaces and
    trades of the third. *)

From S2P Require Import Prelude JsString Model Env State Common Metadata Analytics Nft.
From S2P Require Import Collection IssueLog Fees.
Open Scope string_scope.
Open Scope list_scope.
Open Scope Z_scope.

Section marketplace.
Context `{Env, Rpc}.

(** [newOrder], polygon/handlers/marketplace.ts:67-84 *)
Definition newOrder (e : OrderCreatedEventArgs) (block : Block)
    (contractAddress txHash : string) (nft : NFT) (timestamp : Z) : Order := {|
  ord_id := oc_id e;
  ord_marketplaceAddress := contractAddress;
  ord_category := cat_wearable;
  ord_nft := Some (nft_id nft);
  ord_nftAddress := oc_nftAddress e;
  ord_tokenId := oc_assetId e;
  ord_txHash := txHash;
  ord_owner := oc_seller e;
  ord_buyer := None;
  ord_price := oc_priceInWei e;
  ord_status := status_open;
  ord_blockNumber := blk_height block;
  ord_expiresAt := oc_expiresAt e;
  ord_expiresAtNormalized := normalizeTimestamp (oc_expiresAt e);
  ord_createdAt := timestamp;
  ord_updatedAt := timestamp;
  ord_item := nft_item nft;
  ord_network := POLYGON
|}.

(** [handleOrderCreated], polygon/handlers/marketplace.ts:51-105 *)
Definition handleOrderCreated (e : OrderCreatedEventArgs) (block : Block)
    (contractAddress txHash : string) : M World unit :=
  let nftId := getNFTId (oc_nftAddress e) (pretty (oc_assetId e)) None in
  found ← map_get nfts nftId;
  match found with
  | None => mret tt
  | Some nft =>
      timestamp ← block_seconds block;
      let order := newOrder e block contractAddress txHash nft timestamp in
      _ ← match nft_activeOrder nft with
          | Some old => mutate orders old (λ o, cancelActiveOrder o timestamp)
          | None => mret tt
          end;
      _ ← mutate nfts nftId (λ nft,
            updateNFTOrderProperties (nft <| nft_updatedAt := timestamp |>) order);
      _ ← buildCountFromOrder order POLYGON;
      map_set orders (ord_id order) order
  end.

(** The buyer becomes the owner when its account is loaded.
    [giveTo], polygon/handlers/marketplace.ts:141-147 *)
Definition giveTo (nftId buyer : string) : M World unit :=
  buyerAccount ← map_get accounts (accountKey buyer POLYGON);
  match buyerAccount with
  | Some acc => mutate nfts nftId (λ nft,
      nft <| nft_owner := Some (account_ref acc) |> <| nft_ownerAddress := buyer |>)
  | None => mret tt
  end.

(** [orderFees], polygon/handlers/marketplace.ts:152-184: the fee cut, its
    collector and the royalties cut of the marketplace an order is from. *)
Definition orderFees (order : Order) (mcd : MarketplaceContractData)
    (m2 : MarketplaceV2ContractData) : option (Z * string * Z) :=
  if decide (Marketplace getAddresses = ord_marketplaceAddress order) then
    match mcd_ownerCutPerMillion mcd, mcd_owner mcd with
    | Some cut, Some owner => Some (cut, owner, 0)
    | _, _ => None
    end
  else
    match m2_feesCollector m2, m2_feesCollectorCutPerMillion m2,
          m2_royaltiesCutPerMillion m2 with
    | Some collector, Some cut, Some royalties => Some (cut, collector, royalties)
    | _, _, _ => None
    end.

(** [sellOrder], polygon/handlers/marketplace.ts:128-133, its assignments to
    the order. *)
Definition sellOrder (e : OrderSuccessfulEventArgs) (block : Block) (o : Order) : Order :=
  o <| ord_status := status_sold |>
    <| ord_buyer := Some (os_buyer e) |>
    <| ord_price := os_totalPrice e |>
    <| ord_blockNumber := blk_height block |>.

(** [handleOrderSuccessful], polygon/handlers/marketplace.ts:107-208 *)
Definition handleOrderSuccessful (e : OrderSuccessfulEventArgs) (block : Block)
    (txHash : string) (mcd : MarketplaceContractData) (m2 : MarketplaceV2ContractData)
    : M World unit :=
  let nftId := getNFTId (os_nftAddress e) (pretty (os_assetId e)) None in
  let orderId := os_id e in
  found ← map_get orders orderId;
  match found with
  | None => mret tt
  | Some order =>
      _ ← mutate orders orderId (sellOrder e block);
      timestamp ← block_seconds block;
      _ ← mutate orders orderId (λ o, o <| ord_updatedAt := timestamp |>);
      let order := sellOrder e block order <| ord_updatedAt := timestamp |> in
      nft ← map_get nfts nftId;
      match nft with
      | None => mret tt
      | Some nft =>
          _ ← giveTo nftId (os_buyer e);
          _ ← mutate nfts nftId (λ nft,
                updateNFTOrderProperties (nft <| nft_updatedAt := timestamp |>) order);
          match orderFees order mcd m2, nft_item nft with
          | Some (feesCollectorCut, feesCollector, royaltiesCut), Some itemId =>
              trackSale block {|
                sa_type := sale_order;
                sa_buyer := os_buyer e;
                sa_seller := os_seller e;
                sa_beneficiary := os_seller e;
                sa_itemId := itemId;
                sa_nftId := nft_id nft;
                sa_price := ord_price order;
                sa_feesCollectorCut := feesCollectorCut;
                sa_feesCollector := feesCollector;
                sa_royaltiesCut := royaltiesCut;
                sa_timestamp := timestamp;
                sa_txHash := txHash
              |}
          | _, _ => mret tt
          end
      end
  end.

(** [handleOrderCancelled], polygon/handlers/marketplace.ts:210-239 *)
Definition handleOrderCancelled (e : OrderCancelledEventArgs) (block : Block)
    : M World unit :=
  let nftId := getNFTId (ox_nftAddress e) (pretty (ox_assetId e)) None in
  nft ← map_get nfts nftId;
  order ← map_get orders (ox_id e);
  match nft, order with
  | Some _, Some order =>
      let order := order <| ord_status := status_cancelled |>
                         <| ord_blockNumber := blk_height block |> in
      _ ← map_set orders (ox_id e) order;
      timestamp ← block_seconds block;
      let order := order <| ord_updatedAt := timestamp |> in
      _ ← map_set orders (ox_id e) order;
      mutate nfts nftId (λ nft,
        updateNFTOrderProperties (nft <| nft_updatedAt := timestamp |>) order)
  | _, _ => mret tt
  end.

(** ** Trades *)

(** [tradedNFT], polygon/handlers/marketplace.ts:266-311: a trade of a token
    that exists. *)
Definition tradedNFT (block : Block) (txHash : string) (tradeType : option TradeType)
    (t : TradeData) (feeRate : Z) (feesCollector : string) (royaltiesRate : Z)
    : M World unit :=
  if truthy_bigint (tdd_tokenId t) then
    let nftId := getNFTId (tdd_collectionAddress t)
                   (pretty (default 0 (tdd_tokenId t))) None in
    timestamp ← block_seconds block;
    found ← map_get nfts nftId;
    match found with
    | None => mret tt
    | Some nft =>
        _ ← giveTo nftId (tdd_buyer t);
        _ ← mutate nfts nftId (λ nft, nft <| nft_updatedAt := timestamp |>);
        match nft_item nft with
        | None => mret tt
        | Some itemId =>
            trackSale block {|
              sa_type := match tradeType with
                         | Some TradeBid => sale_bid
                         | _ => sale_order
                         end;
              sa_buyer := tdd_buyer t;
              sa_seller := tdd_seller t;
              sa_beneficiary := tdd_seller t;
              sa_itemId := itemId;
              sa_nftId := nft_id nft;
              sa_price := tdd_price t;
              sa_feesCollectorCut := feeRate;
              sa_feesCollector := feesCollector;
              sa_royaltiesCut := royaltiesRate;
              sa_timestamp := timestamp;
              sa_txHash := txHash
            |}
        end
    end
  else mret tt.

(** [selectIssueLogForTrade] on the batch's set of consumed logs. *)
Definition takeIssueLog (logs : list Log) (q : IssueQuery) : M World (option Log) :=
  w ← gets id;
  let '(chosen, consumed) :=
    selectIssueLogForTrade logs q (consumedIssueLogs (inMemoryData w)) in
  _ ← mem_update consumedIssueLogs (λ _, consumed);
  mret chosen.

(** [tradedAddress], polygon/handlers/marketplace.ts:351-365: the address of
    the first [Traded] log of the transaction, [""] when there is none. *)
Definition tradedAddress (logs : list Log) (transactionIndex : Z) : string :=
  match list_find (λ l, log_transactionIndex l = transactionIndex ∧
                        log_topics l !! 0%nat = Some TradedTopic) logs with
  | Some (_, l) => log_address l
  | None => ""
  end.

(** [tradedItem], polygon/handlers/marketplace.ts:312-390: a trade that mints. *)
Definition tradedItem (block : BlockData) (transaction : Transaction)
    (event : TradedEventArgs) (tradeType : option TradeType) (t : TradeData)
    (feeRate : Z) (feesCollector : string) : M World unit :=
  match tdd_itemId t with
  | None => mret tt
  | Some itemId =>
      issueLog ← takeIssueLog (bd_logs block) {|
        iq_transactionIndex := tx_transactionIndex transaction;
        iq_collectionAddress := tdd_collectionAddress t;
        iq_itemId := itemId;
        iq_blockHeight := blk_height (bd_header block)
      |};
      match issueLog with
      | None => mret tt
      | Some issueLog =>
          match log_event issueLog with
          | EvIssue issued =>
              leg ← match (if decide (tradeType = Some TradeOrder)
                           then head (td_sent event) else head (td_received event)) with
                    | Some leg => mret leg
                    | None => throw TypeError
                    end;
              handleIssue (tdd_collectionAddress t) {|
                is_beneficiary := ta_beneficiary leg;
                is_caller := tradedAddress (bd_logs block)
                               (tx_transactionIndex transaction);
                is_itemId := itemId;
                is_tokenId := is_tokenId issued;
                is_issuedId := is_issuedId issued
              |} (bd_header block) transaction
              (mkStoreContractData (Some feeRate) (Some feesCollector)) (Some event)
          | _ => throw TypeError
          end
      end
  end.

(** [handleTraded], polygon/handlers/marketplace.ts:241-396, its two branches
    being [tradedNFT] and [tradedItem]. *)
Definition handleTraded (event : TradedEventArgs) (block : BlockData)
    (transaction : Transaction) : M World unit :=
  let tradeType := getTradeEventType event DCL_MATIC in
  match getTradeEventData event DCL_MATIC with
  | None => mret tt
  | Some t =>
      '(feesCollector, feeRate, royaltiesRate) ←
        getMarketplaceV3ContractData (bd_header block);
      if decide (tdd_assetType t = ERC721) then
        tradedNFT (bd_header block) (tx_hash transaction) tradeType t feeRate
          feesCollector royaltiesRate
      else if decide (tdd_assetType t = ITEM) then
        tradedItem block transaction event tradeType t feeRate feesCollector
      else mret tt
  end.
End marketplace.
