(* ===== verification/Store.v ===== *)
(** * Loading and saving a batch

    [polygon/store.ts], the writes of [polygon/main.ts], and the multicall of
    [polygon/utils/collectionMulticall.ts].  The database is a parameter: its
    tables, keyed by primary key, hold the same records as the batch, with
    every relation resolved; a query is a filter of a table. *)

From S2P Require Import Prelude JsString Model Env State Common.
Open Scope string_scope.
Open Scope list_scope.
Open Scope Z_scope.

(** The contents of the database when a batch starts.  [db_arrayParam] is the
    text a driver makes of a query parameter that is an array. *)
Record Database := mkDatabase {
  db_accounts : gmap string Account;
  db_counts : gmap string Count;
  db_collections : gmap string Collection;
  db_orders : gmap string Order;
  db_bids : gmap string Bid;
  db_nfts : gmap string NFT;
  db_analytics : gmap string AnalyticsDayData;
  db_itemDayDatas : gmap string ItemsDayData;
  db_accountsDayDatas : gmap string AccountsDayData;
  db_items : gmap string Item;
  db_wearables : gmap string Wearable;
  db_emotes : gmap string Emote;
  db_metadatas : gmap string Metadata;
  db_rarities : gmap string Rarity;
  db_lastNotified : option Z;
  db_arrayParam : string → list Z → string
}.

(** The rows of a table that satisfy [where]. *)
Definition find {A} (table : gmap string A) (where_ : string → A → bool) : gmap string A :=
  filter (λ kv, where_ kv.1 kv.2) table.

(** [`${contractAddress}-${id}`] of every entry of a map of arrays.
    [flatIds], polygon/store.ts:42-64 *)
Definition flatIds (ids : gmap string (list Z)) : list string :=
  flat_map (λ '(contractAddress, l), (λ id : Z, contractAddress +:+ "-" +:+ pretty id) <$> l)
    (map_to_list ids).

Definition isPolygon (n : Network) : bool := bool_decide (n = POLYGON).

Definition isIn {A} `{EqDecision A} (x : A) (l : list A) : bool := bool_decide (x ∈ l).

(** A row read without the relation [collection], that is not asked for. *)
Definition loadedNFT (nft : NFT) : NFT := nft <| nft_collection := None |>.

(** An item read through the relation of a token: its own relations are not
    loaded. *)
Definition loadedNFTItem (item : Item) : Item :=
  item <| it_collection := None |> <| it_metadata := None |>.

(** An order read without its relations. *)
Definition loadedOrder (order : Order) : Order :=
  order <| ord_nft := None |> <| ord_item := None |>.

(** [storedNFTs], polygon/store.ts:82-95 *)
Definition storedNFTs (db : Database) (ids : PolygonInMemoryState) : gmap string NFT :=
  loadedNFT <$> find (db_nfts db) (λ id nft,
    isIn id (flatIds (tokenIds ids)) && isPolygon (nft_network nft)).

(** The item objects loaded with those tokens. *)
Definition storedNFTItems (db : Database) (ids : PolygonInMemoryState) : gmap string Item :=
  omap (λ nft, itemId ← nft_item nft; loadedNFTItem <$> db_items db !! itemId)
    (storedNFTs db ids).

(** [storedOrders], polygon/store.ts:183-189 *)
Definition storedOrders (db : Database) (ids : PolygonInMemoryState) : gmap string Order :=
  loadedOrder <$> find (db_orders db) (λ _ o,
    match ord_nft o with
    | Some nftId => isIn nftId (flatIds (tokenIds ids))
    | None => false
    end && isPolygon (ord_network o)).

(** [storedItems], polygon/store.ts:178-213 *)
Definition storedItems (db : Database) (ids : PolygonInMemoryState) : gmap string Item :=
  let nftItemIds := omap nft_item ((map_to_list (storedNFTs db ids)).*2) in
  find (db_items db) (λ id item,
    isPolygon (it_network item) &&
    (match it_collection item with
     | Some c => bool_decide (c ∈ collectionIds ids)
     | None => false
     end
     || isIn id (flatIds (itemIds ids))
     || isIn id nftItemIds)).

(** [storedAccounts], polygon/store.ts:216-231 *)
Definition storedAccounts (db : Database) (ids : PolygonInMemoryState)
    (items : gmap string Item) : gmap string Account :=
  let related := (map_to_list items).*2 in
  let lookFor := (λ id, accountKey id POLYGON) <$>
    elements (accountIds ids) ++ (it_creator <$> related) ++ (it_beneficiary <$> related) in
  find (db_accounts db) (λ id acc, isIn id lookFor && isPolygon (acc_network acc)).

(** [getStoredData], polygon/store.ts:26-249.  The wearables and emotes are
    looked up by the entries of [itemIds], and the day buckets of accounts by
    the identifiers of the network's. *)
Definition getStoredData (db : Database) (ids : PolygonInMemoryState) : PolygonStoredData :=
  let itemIdParams := (λ '(a, l), db_arrayParam db a l) <$> map_to_list (itemIds ids) in
  let storedItems := storedItems db ids in {|
    accounts := storedAccounts db ids storedItems;
    counts := find (db_counts db) (λ _ c, isPolygon (cnt_network c));
    collections := find (db_collections db) (λ id c,
      isPolygon (col_network c) && bool_decide (id ∈ collectionIds ids));
    orders := storedOrders db ids;
    bids := find (db_bids db) (λ id b,
      bool_decide (id ∈ bidIds ids) && isPolygon (bid_network b));
    nfts := storedNFTs db ids;
    analytics := find (db_analytics db) (λ id d,
      bool_decide (id ∈ analyticsIds ids) && isPolygon (an_network d));
    itemDayDatas := find (db_itemDayDatas db) (λ id _,
      bool_decide (id ∈ itemDayDataIds ids));
    accountsDayDatas := find (db_accountsDayDatas db) (λ id _,
      bool_decide (id ∈ analyticsIds ids));
    items := storedItems;
    wearables := find (db_wearables db) (λ id w,
      isIn id itemIdParams && isPolygon (wr_network w));
    emotes := find (db_emotes db) (λ id _, isIn id itemIdParams);
    metadatas := find (db_metadatas db) (λ id m,
      isPolygon (md_network m) && isIn id (flatIds (itemIds ids)));
    rarities := db_rarities db
  |}.

(** ** Writes *)

(** A call of the store, with the rows it is given. *)
Inductive Write :=
  | UpsertRarities (rows : list Rarity)
  | UpsertCounts (rows : list Count)
  | UpsertAccounts (rows : list Account)
  | UpsertCollections (rows : list Collection)
  | UpsertAnalytics (rows : list AnalyticsDayData)
  | UpsertItemDayDatas (rows : list ItemsDayData)
  | UpsertAccountsDayDatas (rows : list AccountsDayData)
  | UpsertWearables (rows : list Wearable)
  | UpsertEmotes (rows : list Emote)
  | UpsertMetadatas (rows : list Metadata)
  | UpsertItems (rows : list Item)
  | UpsertNFTs (rows : list NFT)
  | UpsertOrders (rows : list Order)
  | UpsertBids (rows : list Bid)
  | InsertSales (rows : list Sale)
  | InsertMints (rows : list Mint)
  | InsertTransfers (rows : list Transfer)
  | InsertCurations (rows : list Curation)
  | InsertSquidRouterOrders (rows : list SquidRouterOrder).

(** [[...map.values()]] *)
Definition values {A} (m : gmap string A) : list A := (map_to_list m).*2.

(** [orderByNFT], polygon/main.ts:263-269: the active orders by the id of
    their token, in the order the tokens are visited. *)
Definition orderByNFT (nfts : gmap string NFT) : list (string * string) :=
  foldl (λ l nft, match nft_activeOrder nft with
                  | Some order => alist_set (nft_id nft) order l
                  | None => l
                  end) [] (values nfts).

(** [restoreOrders], polygon/main.ts:280-287 *)
Definition restoreOrders (l : list (string * string)) (nfts : gmap string NFT)
    : gmap string NFT :=
  foldl (λ m '(nftId, order), alter (λ nft, nft <| nft_activeOrder := Some order |>) nftId m)
    nfts l.

(** [performUpserts], polygon/main.ts:211-317: the calls of the store, in
    order, and the tokens as the batch is left with. *)
Definition performUpserts : M World (list Write) :=
  w ← gets id;
  let s := storedData w in
  let phase1 := [
    UpsertRarities (values (liveRarities w));
    UpsertCounts (values (counts s));
    UpsertAccounts (values (accounts s));
    UpsertCollections (values (collections s));
    UpsertAnalytics (values (analytics s));
    UpsertItemDayDatas (values (itemDayDatas s));
    UpsertAccountsDayDatas (values (accountsDayDatas s));
    UpsertWearables (values (wearables s));
    UpsertEmotes (values (emotes s))] in
  let phase2 := [UpsertMetadatas (values (metadatas s)); UpsertItems (values (items s))] in
  let saved := orderByNFT (nfts s) in
  _ ← modify (set storedData (set nfts (fmap (λ nft, nft <| nft_activeOrder := None |>))));
  w ← gets id;
  let phase3 := [UpsertNFTs (values (nfts (storedData w))); UpsertOrders (values (orders s))] in
  _ ← modify (set storedData (set nfts (restoreOrders saved)));
  w ← gets id;
  let nftsWithOrders := omap (λ '(nftId, _), nfts (storedData w) !! nftId) saved in
  let m := inMemoryData w in
  let phase4 :=
    (if decide (0 < length nftsWithOrders)%nat then [UpsertNFTs nftsWithOrders] else []) ++ [
    UpsertBids (values (bids s));
    InsertSales (values (sales m));
    InsertMints (values (mints m));
    InsertTransfers (values (transfers m));
    InsertCurations (values (curations m));
    InsertSquidRouterOrders (values (squidRouterOrders m))] in
  mret (phase1 ++ phase2 ++ phase3 ++ phase4).

(** ** The multicall of new collections *)

Section multicall.
Context `{Rpc}.

(** [POLYGON_MULTICALL_CREATION_BLOCK], polygon/utils/collectionMulticall.ts:12-12 *)
Definition POLYGON_MULTICALL_CREATION_BLOCK : Z := 25770160.

(** [fetchCollectionDataMulticall], polygon/utils/collectionMulticall.ts:31-105 *)
Definition fetchCollectionDataMulticall (height : Z) (collectionAddresses : list string)
    : gmap string CollectionData :=
  if decide (collectionAddresses = [] ∨ height < POLYGON_MULTICALL_CREATION_BLOCK) then ∅
  else match rpc_collections height collectionAddresses with
       | Throw _ => ∅
       | Ok results =>
           foldl (λ m '(address, result),
             match result with
             | Some d =>
                 <[toLowerCase address := {|
                     cd_name := cd_name d;
                     cd_symbol := cd_symbol d;
                     cd_owner := toLowerCase (cd_owner d);
                     cd_creator := toLowerCase (cd_creator d);
                     cd_isCompleted := cd_isCompleted d;
                     cd_isApproved := cd_isApproved d;
                     cd_isEditable := cd_isEditable d;
                     cd_baseURI := cd_baseURI d;
                     cd_chainId := cd_chainId d
                   |}]> m
             | None => m
             end) ∅ (zip collectionAddresses results)
       end.
End multicall.
