(* ===== verification/Batch.v ===== *)
(** * The Polygon processor

    The batch handler of [polygon/main.ts]: one pass over the logs that collects
    what to load and queues the events, the load, the dispatch of the queued
    events to their handlers, the cross-chain orders, the writes and the gift
    notifications. *)

From S2P Require Import Prelude JsString Model Env State Common Metadata Analytics Nft.
From S2P Require Import Collection IssueLog Fees Bid RarityHandlers Marketplace Store.
Open Scope string_scope.
Open Scope list_scope.
Open Scope Z_scope.

(** ** Indexing the transactions *)

(** The credits and cross-chain orders of each transaction, and the collections
    created in the batch. *)
Record PreIndex := mkPreIndex {
  creditEventsByTx : gmap string (list (string * Z));
  orderHashByTx : list (string * string);
  proxyCreatedEvents : list string
}.
#[export] Instance eta_PreIndex : Eta PreIndex := λ r,
  mkPreIndex (creditEventsByTx r) (orderHashByTx r) (proxyCreatedEvents r).

(** [`${block.header.height}-${log.transactionIndex}`] *)
Definition txKeyOf (height transactionIndex : Z) : string :=
  pretty height +:+ "-" +:+ pretty transactionIndex.

(** [pushToMapArray], polygon/main.ts:139-146 *)
Definition pushToMapArray {V} (key : string) (value : V) (map : gmap string (list V))
    : gmap string (list V) :=
  <[key := default [] (map !! key) ++ [value]]> map.

(** What the first pass carries between logs besides the batch state. *)
Record Accumulator := mkAccumulator {
  validCollections : gset string;
  currentRaritiesSnapshot : gmap string Rarity;
  raritiesSnapshotDirty : bool
}.
#[export] Instance eta_Accumulator : Eta Accumulator := λ r,
  mkAccumulator (validCollections r) (currentRaritiesSnapshot r) (raritiesSnapshotDirty r).

(** [Number(z)] of a big integer: the nearest double, ties to even. *)
Definition Number (z : Z) : Z :=
  let a := Z.abs z in
  if decide (a < 2 ^ 53) then z
  else
    let u := 2 ^ (Z.log2 a - 52) in
    let q := a `div` u in
    let r := 2 * (a `mod` u) in
    let q' := if decide (r < u ∨ (r = u ∧ Z.even q = true)) then q else q + 1 in
    Z.sgn z * (q' * u).

Section batch.
Context `{Env, Rpc}.

(** [l.map(toLowerCase).includes(address)] *)
Definition oneOf (address : string) (l : list string) : bool :=
  bool_decide (address ∈ toLowerCase <$> l).

(** [isCreditsManager], polygon/main.ts:124-126 *)
Definition isCreditsManager (address : string) : bool :=
  oneOf (toLowerCase address) (CreditsManager getAddresses).

(** [isCollectionFactory], polygon/main.ts:127-131 *)
Definition isCollectionFactory (address : string) : bool :=
  oneOf address [CollectionFactory getAddresses; CollectionFactoryV3 getAddresses].

(** [isSpoke], polygon/main.ts:132-132 *)
Definition isSpoke (address : string) : bool :=
  bool_decide (Some (toLowerCase address) = toLowerCase <$> Spoke getAddresses).

Definition isMarketplace (address : string) : bool :=
  oneOf address [Marketplace getAddresses; MarketplaceV2 getAddresses].

Definition isCommittee (address : string) : bool :=
  oneOf address [Committee getAddresses; OldCommittee getAddresses].

(** [preIndexLog], polygon/main.ts:589-635 *)
Definition preIndexLog (height : Z) (log : Log) (p : PreIndex) : PreIndex :=
  let txKey := txKeyOf height (log_transactionIndex log) in
  match log_event log with
  | EvCreditUsed creditId value =>
      if isCreditsManager (log_address log)
      then p <| creditEventsByTx ::= pushToMapArray txKey (creditId, value) |> else p
  | EvSpokeOrderCreated orderHash =>
      if isSpoke (log_address log)
      then p <| orderHashByTx ::= alist_set txKey orderHash |> else p
  | EvProxyCreated address =>
      if isCollectionFactory (toLowerCase (log_address log))
      then p <| proxyCreatedEvents ::= λ l, l ++ [address] |> else p
  | _ => p
  end.

(** [preIndex], polygon/main.ts:579-636 *)
Definition preIndex (blocks : list BlockData) : PreIndex :=
  foldl (λ p block,
    foldl (λ p log, preIndexLog (blk_height (bd_header block)) log p) p (bd_logs block))
    (mkPreIndex ∅ [] []) blocks.

(** ** The first pass *)

Definition addAccount (address : string) : M World unit :=
  mem_update accountIds (union {[address]}).
Definition addAnalytics (id : string) : M World unit :=
  mem_update analyticsIds (union {[id]}).
Definition addItemDay (id : string) : M World unit :=
  mem_update itemDayDataIds (union {[id]}).
Definition addBid (id : string) : M World unit := mem_update bidIds (union {[id]}).
Definition addToken (address : string) (tokenId : Z) : M World unit :=
  mem_update tokenIds (pushToMapArray address tokenId).
Definition addItemId (address : string) (itemId : Z) : M World unit :=
  mem_update itemIds (pushToMapArray address itemId).
Definition addCollection (address : string) : M World unit :=
  mem_update collectionIds (union {[address]}).

Definition push (q : QueuedEvent) : M World unit :=
  mem_update events (λ l, l ++ [q]).

(** The shape of the entries of order and bid events. *)
Definition marketEvent (block : BlockData) (log : Log) : QueuedEvent := {|
  qe_event := log_event log; qe_block := block; qe_log := log;
  qe_transaction := None; qe_rarities := None;
  qe_hasStoreContractData := false; qe_hasMarketplaceData := true
|}.

(** The shape of the entries of collection and trade events. *)
Definition collectionEvent (block : BlockData) (log : Log) (rarities : gmap string Rarity)
    : QueuedEvent := {|
  qe_event := log_event log; qe_block := block; qe_log := log;
  qe_transaction := log_transaction log; qe_rarities := Some rarities;
  qe_hasStoreContractData := true; qe_hasMarketplaceData := false
|}.

(** A snapshot of the rarities is taken when they changed since the last one.
    [refreshSnapshot], polygon/main.ts:1095-1100 *)
Definition refreshSnapshot (acc : Accumulator) : M World Accumulator :=
  if raritiesSnapshotDirty acc then
    w ← gets id;
    mret (acc <| currentRaritiesSnapshot := liveRarities w |>
              <| raritiesSnapshotDirty := false |>)
  else mret acc.

(** [`${dayId}-nft-${contractAddress}-${tokenId}`] *)
Definition placeholderId (day contractAddress tokenId : string) : string :=
  day +:+ "-nft-" +:+ contractAddress +:+ "-" +:+ tokenId.

(** [accumulateProxyCreated], polygon/main.ts:714-793 *)
Definition accumulateProxyCreated (p : PreIndex) (prefetched : gmap string CollectionData)
    (block : BlockData) (log : Log) (address : string) (acc : Accumulator)
    : M World Accumulator :=
  if isCollectionFactory (log_address log) then
    let lower := toLowerCase address in
    let acc := acc <| validCollections ::= union {[lower]} |> in
    owner ← match prefetched !! lower with
            | Some d => mret (cd_owner d)
            | None => owner ← lift (rpc_owner (blk_height (bd_header block)) address);
                      mret (toLowerCase owner)
            end;
    _ ← addAccount owner;
    _ ← addCollection lower;
    let txKey := txKeyOf (blk_height (bd_header block)) (log_transactionIndex log) in
    let creditEvents := default [] (creditEventsByTx p !! txKey) in
    let usedCredits := bool_decide (0 < length creditEvents)%nat in
    let creditValue := foldl Z.add 0 creditEvents.*2 in
    _ ← mem_update collectionFactoryEvents (λ l, l ++ [{|
          cf_address := address;
          cf_block := block;
          cf_usedCredits := usedCredits;
          cf_creditValue := if usedCredits then Some creditValue else None;
          cf_txHash := log_transactionHash log
        |}]);
    mret acc
  else mret acc.

(** [accumulateOrder], polygon/main.ts:794-875: what an order event makes the
    batch load. *)
Definition accumulateOrder (day analyticDayDataId : string) (block : BlockData)
    (log : Log) : M World unit :=
  if isMarketplace (log_address log) then
    match log_event log with
    | EvOrderCreated e =>
        _ ← addToken (oc_nftAddress e) (oc_assetId e);
        push (marketEvent block log)
    | EvOrderSuccessful e =>
        _ ← addToken (os_nftAddress e) (os_assetId e);
        _ ← addAccount (os_seller e);
        _ ← addAccount (os_buyer e);
        _ ← addAnalytics analyticDayDataId;
        _ ← addItemDay (placeholderId day (os_nftAddress e) (pretty (os_assetId e)));
        push (marketEvent block log)
    | EvOrderCancelled e =>
        _ ← addToken (ox_nftAddress e) (ox_assetId e);
        push (marketEvent block log)
    | _ => mret tt
    end
  else mret tt.

(** [accumulateBid], polygon/main.ts:876-937 *)
Definition accumulateBid (day analyticDayDataId : string) (block : BlockData)
    (log : Log) : M World unit :=
  match log_event log with
  | EvBidCreated e =>
      _ ← addToken (bc_tokenAddress e) (bc_tokenId e);
      push (marketEvent block log)
  | EvBidAccepted e =>
      _ ← addAccount (ba_seller e);
      _ ← addAccount (ba_bidder e);
      _ ← addBid (getBidId (ba_tokenAddress e) (pretty (ba_tokenId e)) (ba_bidder e));
      _ ← addToken (ba_tokenAddress e) (ba_tokenId e);
      _ ← addAnalytics analyticDayDataId;
      _ ← addItemDay (placeholderId day (ba_tokenAddress e) (pretty (ba_tokenId e)));
      push (marketEvent block log)
  | EvBidCancelled e =>
      _ ← addBid (getBidId (bx_tokenAddress e) (pretty (bx_tokenId e)) (bx_bidder e));
      _ ← addToken (bx_tokenAddress e) (bx_tokenId e);
      push (marketEvent block log)
  | _ => mret tt
  end.

(** [transferOf], polygon/main.ts:1073-1089 *)
Definition transferOf (block : Block) (log : Log) (e : TransferEventArgs) (timestamp : Z)
    : Transfer :=
  let nftId := getNFTId (log_address log) (pretty (te_tokenId e)) None in {|
  tr_id := nftId +:+ "-" +:+ pretty timestamp;
  tr_nftId := nftId;
  tr_network := POLYGON;
  tr_block := blk_height block;
  tr_timestamp := timestamp;
  tr_from := te_from e;
  tr_to := te_to e;
  tr_txHash := log_transactionHash log
|}.

(** [accumulateCollection], polygon/main.ts:997-1115 *)
Definition accumulateCollection (day analyticDayDataId : string) (timestamp : Z)
    (block : BlockData) (log : Log) (acc : Accumulator) : M World Accumulator :=
  if bool_decide (log_address log ∈ validCollections acc) then
    _ ← match log_event log with
        | EvAddItem _ => addAnalytics analyticDayDataId
        | EvUpdateItemData e => addItemId (log_address log) (ui_itemId e)
        | EvIssue e =>
            _ ← addAccount (toLowerCase (is_beneficiary e));
            _ ← addAnalytics analyticDayDataId;
            _ ← addItemDay (day +:+ "-" +:+ (log_address log +:+ "-"
                              +:+ pretty (is_itemId e)));
            addItemId (log_address log) (is_itemId e)
        | EvTransfer e =>
            _ ← addAccount (toLowerCase (te_to e));
            _ ← addToken (log_address log) (te_tokenId e);
            let t := transferOf (bd_header block) log e timestamp in
            mem_set transfers (tr_id t) t
        | _ => mret tt
        end;
    acc ← refreshSnapshot acc;
    _ ← addCollection (toLowerCase (log_address log));
    _ ← push (collectionEvent block log (currentRaritiesSnapshot acc));
    mret acc
  else mret acc.

(** [currencyOf], polygon/main.ts:1121-1121 *)
Definition currencyOf (log : Log) : Currency :=
  if decide (log_address log = RarityContract getAddresses) then cur_MANA else cur_USD.

(** [accumulateTraded], polygon/main.ts:1158-1224 *)
Definition accumulateTraded (day analyticDayDataId : string) (block : BlockData)
    (log : Log) (event : TradedEventArgs) (acc : Accumulator) : M World Accumulator :=
  match getTradeEventData event DCL_MATIC with
  | None => mret acc
  | Some t =>
      let collectionAddress := tdd_collectionAddress t in
      tokenId ← match tdd_itemId t with
                | Some itemId =>
                    totalSupply ← lift (rpc_item_totalSupply
                      (blk_height (bd_header block)) collectionAddress itemId);
                    tokenId ← lift (encodeTokenId (Number itemId) (Number totalSupply));
                    mret (Some tokenId)
                | None => mret (tdd_tokenId t)
                end;
      _ ← addCollection collectionAddress;
      if truthy_bigint tokenId then
        let token := default 0 tokenId in
        _ ← addToken collectionAddress token;
        _ ← addAccount (tdd_seller t);
        _ ← addAccount (tdd_buyer t);
        _ ← addAnalytics analyticDayDataId;
        _ ← addItemDay match tdd_itemId t with
              | Some itemId => day +:+ "-" +:+ (collectionAddress +:+ "-" +:+ pretty itemId)
              | None => placeholderId day collectionAddress (pretty token)
              end;
        acc ← refreshSnapshot acc;
        _ ← push (collectionEvent block log (currentRaritiesSnapshot acc));
        mret acc
      else mret acc
  end.

(** Settings are applied to the caches as they are read.
    [accumulateFees], polygon/main.ts:938-980 *)
Definition accumulateFees (log : Log) : M World unit :=
  match log_event log with
  | EvFeeCollectorUpdated c => setMarketplaceV3FeeCollector c
  | EvFeeRateUpdated r => setMarketplaceV3FeeRate r
  | EvRoyaltiesRateUpdated r => setMarketplaceV3RoyaltiesRate r
  | EvChangedCutPerMillion cut =>
      if decide (log_address log = Marketplace getAddresses)
      then setMarketplaceOwnerCutPerMillion cut
      else setBidOwnerCutPerMillion cut
  | EvSetFee fee => setStoreFee fee
  | EvSetFeeOwner feeOwner => setStoreFeeOwner feeOwner
  | _ => mret tt
  end.

(** [accumulateMember], polygon/main.ts:981-996 *)
Definition accumulateMember (log : Log) (member : string) (value : bool) : M World unit :=
  if isCommittee (log_address log) then
    _ ← mem_update committeeEvents (λ l, l ++ [(member, value)]);
    addAccount (toLowerCase member)
  else mret tt.

(** [accumulateRarity], polygon/main.ts:1116-1157, and the two settings of
    the store, that [accumulateFees] handles. *)
Definition accumulateRarity (block : BlockData) (log : Log) (acc : Accumulator)
    : M World Accumulator :=
  _ ← match log_event log with
      | EvAddRarity name price maxSupply =>
          handleAddRarityEvent name price maxSupply (currencyOf log)
      | EvUpdatePrice name price => handleUpdatePriceEvent name price (currencyOf log)
      | EvRaritiesSet newRarities => handleRaritiesSet (bd_header block) newRarities
      | _ => mret tt
      end;
  mret (acc <| raritiesSnapshotDirty := true |>).

(** [accumulateLog], polygon/main.ts:693-714: the switch over the topic. *)
Definition accumulateLog (p : PreIndex) (prefetched : gmap string CollectionData)
    (blockTimestamp : Z) (block : BlockData) (log : Log) (acc : Accumulator)
    : M World Accumulator :=
  let day : string := pretty (day_of blockTimestamp) in
  let analyticDayDataId := day +:+ "-" +:+ network_str POLYGON in
  match log_event log with
  | EvProxyCreated address => accumulateProxyCreated p prefetched block log address acc
  | EvOrderCreated _ | EvOrderSuccessful _ | EvOrderCancelled _ =>
      _ ← accumulateOrder day analyticDayDataId block log; mret acc
  | EvBidCreated _ | EvBidAccepted _ | EvBidCancelled _ =>
      _ ← accumulateBid day analyticDayDataId block log; mret acc
  | EvFeeCollectorUpdated _ | EvFeeRateUpdated _ | EvRoyaltiesRateUpdated _
  | EvChangedCutPerMillion _ | EvSetFee _ | EvSetFeeOwner _ =>
      _ ← accumulateFees log; mret acc
  | EvMemberSet member value => _ ← accumulateMember log member value; mret acc
  | EvSetGlobalMinter _ | EvSetGlobalManager _ | EvSetItemMinter _ | EvSetItemManager _
  | EvAddItem _ | EvRescueItem _ | EvUpdateItemData _ | EvIssue _ | EvSetApproved _
  | EvSetEditable _ | EvComplete | EvCreatorshipTransferred _ | EvOwnershipTransferred _
  | EvTransfer _ =>
      accumulateCollection day analyticDayDataId blockTimestamp block log acc
  | EvAddRarity _ _ _ | EvUpdatePrice _ _ | EvRaritiesSet _ => accumulateRarity block log acc
  | EvTraded e => accumulateTraded day analyticDayDataId block log e acc
  | EvCreditUsed _ _ | EvSpokeOrderCreated _ | EvOther => mret acc
  end.

(** A loop that threads a value. *)
Fixpoint fold_each {A B} (l : list A) (f : A → B → M World B) (b : B) : M World B :=
  match l with
  | [] => mret b
  | x :: l => b ← f x b; fold_each l f b
  end.

(** [accumulate], polygon/main.ts:689-692: the loop over blocks and logs. *)
Definition accumulate (p : PreIndex) (prefetched : gmap string CollectionData)
    (blocks : list BlockData) (acc : Accumulator) : M World Accumulator :=
  fold_each blocks (λ block acc,
    timestamp ← block_seconds (bd_header block);
    fold_each (bd_logs block) (accumulateLog p prefetched timestamp block) acc) acc.
End batch.
