(* ===== verification/Processor.v ===== *)
(** * The Polygon processor: the second pass and the end of the batch

    The rest of [polygon/main.ts]: the load, the dispatch of the queued events,
    the cross-chain orders, the writes and the gift notifications. *)

From Stdlib Require Import Ascii.
From S2P Require Import Prelude JsString Model Env State Common Metadata Analytics Nft.
From S2P Require Import Collection IssueLog Fees Bid RarityHandlers Marketplace Store Batch.
Open Scope string_scope.
Open Scope list_scope.
Open Scope Z_scope.

(** Whether publishing a gift completes, [publishMessage] of
    [common/utils/event_publisher.ts].  The publisher of this deployment sends
    nothing and always completes; the others are services. *)
Class Publisher := publish_ok : TransferGiftCandidate → bool.

(** [lastNotified], as the module keeps it between batches. *)
Record NotifyState := mkNotifyState {
  cachedLastNotified : option Z;
  lastNotifiedLoaded : bool
}.

(** What a batch leaves outside: its writes, the gifts it published and the new
    watermark, if it set one. *)
Inductive BatchResult :=
  | Skipped
  | Saved (writes : list Write) (gifts : list TransferGiftCandidate) (watermark : option Z).

Section processor.
Context `{Env, Rpc, Publisher}.

(** ** Resolving placeholders *)

(** [resolvePlaceholder], polygon/main.ts:1263-1274 *)
Definition resolvePlaceholder (nfts : gmap string NFT) (id : string) (ids : gset string)
    : gset string :=
  match split dash id with
  | day :: _ :: nftIdParts =>
      match nfts !! join "-" nftIdParts with
      | Some nft =>
          match nft_item nft with
          | Some itemId => {[day +:+ "-" +:+ itemId]} ∪ (ids ∖ {[id]})
          | None => ids
          end
      | None => ids
      end
  | _ => ids
  end.

(** [resolvePlaceholders], polygon/main.ts:1260-1274 *)
Definition resolvePlaceholders (nfts : gmap string NFT) (ids : gset string) : gset string :=
  foldr (resolvePlaceholder nfts) ids
    (filter (λ id, includes "-nft-" id) (elements ids)).

(** [loadBatch], polygon/main.ts:1245-1284 *)
Definition loadBatch (db : Database) : M World unit :=
  w ← gets id;
  let m := inMemoryData w in
  let stored := getStoredData db m in
  let resolved := resolvePlaceholders (nfts stored) (itemDayDataIds m) in
  let additional := find (db_itemDayDatas db) (λ id _, bool_decide (id ∈ resolved)) in
  _ ← mem_update itemDayDataIds (λ _, resolved);
  modify (λ w, w <| storedData := stored <| itemDayDatas ::= union additional |> |>
                 <| nftItemObjects := storedNFTItems db m |>).

(** [createCollections], polygon/main.ts:1291-1311 *)
Definition createCollections (prefetched : gmap string CollectionData) : M World unit :=
  l ← gets (λ w, collectionFactoryEvents (inMemoryData w));
  for_each l (λ f,
    handleCollectionCreation (bd_header (cf_block f)) (cf_address f) (cf_usedCredits f)
      (cf_creditValue f) (cf_txHash f) (prefetched !! toLowerCase (cf_address f))).

(** ** Dispatch *)

(** [transaction && handle(transaction)] *)
Definition with_transaction (q : QueuedEvent) (f : Transaction → M World unit)
    : M World unit :=
  match qe_transaction q with Some t => f t | None => mret tt end.

(** [dispatchIssue], polygon/main.ts:1404-1427.  An [Issue] of the off-chain
    marketplace is left to its [Traded] event. *)
Definition dispatchIssue (q : QueuedEvent) (e : IssueEventArgs) : M World unit :=
  if qe_hasStoreContractData q then
    if isMarketplaceV3 (is_caller e) then mret tt
    else
      storeContractData ← gets (λ w, c_store (caches w));
      match qe_transaction q with
      | Some transaction =>
          handleIssue (log_address (qe_log q)) e (bd_header (qe_block q)) transaction
            storeContractData None
      | None => throw TypeError
      end
  else mret tt.

(** [dispatchMarket], polygon/main.ts:1483-1559: the cases of orders and bids. *)
Definition dispatchMarket (q : QueuedEvent) : M World unit :=
  let a := log_address (qe_log q) in
  let block := bd_header (qe_block q) in
  let txHash := log_transactionHash (qe_log q) in
  match qe_event q with
  | EvOrderCreated e => handleOrderCreated e block a txHash
  | EvOrderSuccessful e =>
      if qe_hasMarketplaceData q then
        c ← gets caches;
        handleOrderSuccessful e block txHash (c_marketplace c) (c_marketplaceV2 c)
      else mret tt
  | EvOrderCancelled e => handleOrderCancelled e block
  | EvBidCreated e => handleBidCreated e block a
  | EvBidAccepted e =>
      if qe_hasMarketplaceData q then
        c ← gets caches;
        handleBidAccepted e block txHash (c_bidV2 c)
      else mret tt
  | EvBidCancelled e => handleBidCancelled e block
  | _ => mret tt
  end.

(** [dispatch], polygon/main.ts:1333-1482: the handler of a queued event. *)
Definition dispatch (q : QueuedEvent) : M World unit :=
  let log := qe_log q in
  let a := log_address log in
  let block := bd_header (qe_block q) in
  match qe_event q with
  | EvSetGlobalMinter e => handleSetGlobalMinter a e block
  | EvSetGlobalManager e => handleSetGlobalManager a e
  | EvSetItemMinter e => handleSetItemMinter a e block
  | EvSetItemManager e => handleSetItemManager a e
  | EvAddItem e =>
      match qe_rarities q with
      | Some rarities => handleAddItem block a e rarities
      | None => mret tt
      end
  | EvRescueItem e => with_transaction q (handleRescueItem e block log)
  | EvUpdateItemData e => handleUpdateItemData a e block
  | EvTraded e =>
      if qe_hasStoreContractData q
      then with_transaction q (handleTraded e (qe_block q)) else mret tt
  | EvIssue e => dispatchIssue q e
  | EvSetApproved v => with_transaction q (handleSetApproved a v block)
  | EvSetEditable v => handleSetEditable a v
  | EvComplete => handleCompleteCollection a
  | EvCreatorshipTransferred c => handleTransferCreatorship a c block
  | EvOwnershipTransferred o => handleTransferOwnership a o block
  | EvTransfer e =>
      catch (handleTransfer a e block (log_transactionHash log)) (λ _, mret tt)
  | _ => dispatchMarket q
  end.

(** The queued events in order, then the committee events.
    [dispatchAll], polygon/main.ts:1560-1566 *)
Definition dispatchAll : M World unit :=
  l ← gets (λ w, events (inMemoryData w));
  _ ← for_each l dispatch;
  c ← gets (λ w, committeeEvents (inMemoryData w));
  for_each c (λ e, handleMemeberSet e.1 e.2).

(** ** Cross-chain orders *)

(** [squidRouterOrder], polygon/main.ts:1604-1655: the order of a transaction
    that used credits, [None] when it used none or its block is unknown. *)
Definition squidRouterOrder (blocks : list BlockData)
    (credits : gmap string (list (string * Z))) (txKey orderHash : string)
    : M World (option SquidRouterOrder) :=
  match default [] (credits !! txKey) with
  | [] => mret None
  | creditEvents =>
      let parts := split dash txKey in
      let blockHeight := head parts ≫= parseInt in
      match list_find (λ b, Some (blk_height (bd_header b)) = blockHeight) blocks with
      | None => mret None
      | Some (_, block) =>
          let txIndex := (parts !! 1%nat) ≫= parseInt in
          let txHash :=
            match list_find (λ l, Some (log_transactionIndex l) = txIndex)
                    (bd_logs block) with
            | Some (_, l) =>
                if decide (log_transactionHash l = "") then "unknown"
                else log_transactionHash l
            | None => "unknown"
            end in
          timestamp ← block_seconds (bd_header block);
          mret (Some {|
            sro_id := orderHash;
            sro_orderHash := orderHash;
            sro_creditIds := creditEvents.*1;
            sro_totalCreditsUsed := foldl Z.add 0 creditEvents.*2;
            sro_txHash := txHash;
            sro_blockNumber := blk_height (bd_header block);
            sro_timestamp := timestamp;
            sro_network := POLYGON
          |})
      end
  end.

(** [createSquidRouterOrders], polygon/main.ts:1603-1655 *)
Definition createSquidRouterOrders (blocks : list BlockData) (p : PreIndex) : M World unit :=
  for_each (orderHashByTx p) (λ '(txKey, orderHash),
    order ← squidRouterOrder blocks (creditEventsByTx p) txKey orderHash;
    match order with
    | Some order => mem_set squidRouterOrders orderHash order
    | None => mret tt
    end).

(** ** Gift notifications *)

(** [minTransferNotificationTimestamp], polygon/main.ts:175-178 *)
Definition minTransferNotificationTimestamp : Z :=
  default (now `div` 1000) MIN_TRANSFER_NOTIFICATION_TIMESTAMP.

(** [saleKey], polygon/main.ts:1693-1693 *)
Definition saleKey (txHash nftId : string) : string := toLowerCase txHash +:+ "-" +:+ nftId.

(** [soldKeys], polygon/main.ts:1691-1694 *)
Definition soldKeys (sales : gmap string Sale) : gset string :=
  list_to_set ((λ sale, saleKey (sl_txHash sale) (sl_nft sale)) <$> values sales).

(** [giftFloor], polygon/main.ts:1699-1702 *)
Definition giftFloor (batchLastNotified : option Z) : Z :=
  match batchLastNotified with
  | Some t => if decide (t ≠ 0 ∧ minTransferNotificationTimestamp < t) then t
              else minTransferNotificationTimestamp
  | None => minTransferNotificationTimestamp
  end.

(** [isGift], polygon/main.ts:1707-1715 *)
Definition isGift (floor : Z) (sold : gset string) (c : TransferGiftCandidate) : bool :=
  bool_decide (floor < tg_timestamp c) &&
  bool_decide (saleKey (tg_txHash c) (tg_nftId c) ∉ sold).

(** [publishGifts], polygon/main.ts:1704-1729: the gifts that were delivered
    and the largest of their timestamps, the floor when there is none. *)
Fixpoint publishGifts (floor : Z) (sold : gset string) (l : list TransferGiftCandidate)
    (maxNotified : Z) : list TransferGiftCandidate * Z :=
  match l with
  | [] => ([], maxNotified)
  | c :: l =>
      if isGift floor sold c && publish_ok c then
        let '(emitted, m) :=
          publishGifts floor sold l (Z.max maxNotified (tg_timestamp c)) in
        (c :: emitted, m)
      else publishGifts floor sold l maxNotified
  end.

(** [notifyGifts], polygon/main.ts:1682-1734 *)
Definition notifyGifts (batchLastNotified : option Z) (sales : gmap string Sale)
    (candidates : list TransferGiftCandidate)
    : list TransferGiftCandidate * option Z :=
  let floor := giftFloor batchLastNotified in
  let '(emitted, maxNotified) := publishGifts floor (soldKeys sales) candidates floor in
  (emitted,
   if decide ((0 < length emitted)%nat ∧ default 0 batchLastNotified < maxNotified)
   then Some maxNotified else None).

(** [readLastNotified], polygon/main.ts:541-562: the watermark of the batch,
    and what the module keeps of it. *)
Definition readLastNotified (db : Database) (n : NotifyState) (lastBlockTimestamp : Z)
    : option Z * NotifyState :=
  let cached := if lastNotifiedLoaded n then cachedLastNotified n
                else db_lastNotified db in
  match cached with
  | Some t =>
      if decide (t < lastBlockTimestamp)
      then (db_lastNotified db, mkNotifyState (db_lastNotified db) true)
      else (None, mkNotifyState cached true)
  | None => (db_lastNotified db, mkNotifyState (db_lastNotified db) true)
  end.

(** ** The batch *)

(** [isThereImportantDataInBatch], polygon/main.ts:480-500.  The addresses of
    polygon have no [ERC721Bid]. *)
Definition isThereImportantDataInBatch (blocks : list BlockData)
    (known : gset string) : bool :=
  existsb (λ b, existsb (λ l, bool_decide (log_address l ∈ [
      CollectionFactory getAddresses; CollectionFactoryV3 getAddresses;
      BidV2 getAddresses; Marketplace getAddresses; MarketplaceV2 getAddresses;
      OldCommittee getAddresses; Committee getAddresses; CollectionStore getAddresses;
      RaritiesWithOracle getAddresses; RarityContract getAddresses;
      CollectionManager getAddresses; MarketplaceV3 getAddresses;
      MarketplaceV3_V2 getAddresses])
    || bool_decide (log_address l ∈ known)) (bd_logs b)) blocks.

(** [validCollectionsOf], polygon/main.ts:468-478 *)
Definition validCollectionsOf (db : Database) (preloaded : list string) : gset string :=
  list_to_set preloaded ∪
  dom (find (db_collections db) (λ id c,
         negb (isIn id preloaded) && isPolygon (col_network c))).

(** The maps a batch starts from.  The stored data is assigned by [loadBatch]
    before it is read. *)
Definition initialWorld (db : Database) (caches : Caches) : World := {|
  storedData := emptyStoredData;
  inMemoryData := getBatchInMemoryState;
  nftItemObjects := ∅;
  liveRarities := db_rarities db;
  caches := caches
|}.

(** [processBatch], polygon/main.ts:502-592 and the calls in order of what
    follows.  The blocks are not empty. *)
Definition processBatch (db : Database) (preloaded : list string) (preloadedHeight : Z)
    (n : NotifyState) (blocks : list BlockData) (lastBlock : Block)
    : M World (BatchResult * NotifyState) :=
  let valid := validCollectionsOf db preloaded in
  if negb (isThereImportantDataInBatch blocks valid)
     && bool_decide (preloadedHeight < blk_height lastBlock)
  then mret (Skipped, n)
  else
    lastBlockTimestamp ← block_seconds lastBlock;
    let '(batchLastNotified, n) := readLastNotified db n lastBlockTimestamp in
    _ ← getMarketplaceContractData lastBlock;
    _ ← getMarketplaceV2ContractData lastBlock;
    _ ← getBidV2ContractData lastBlock;
    _ ← getStoreContractData lastBlock;
    let p := preIndex blocks in
    let prefetched :=
      fetchCollectionDataMulticall (blk_height lastBlock) (proxyCreatedEvents p) in
    snapshot ← gets liveRarities;
    _ ← accumulate p prefetched blocks (mkAccumulator valid snapshot false);
    _ ← loadBatch db;
    _ ← createCollections prefetched;
    _ ← dispatchAll;
    _ ← createSquidRouterOrders blocks p;
    writes ← performUpserts;
    w ← gets id;
    let '(gifts, watermark) :=
      notifyGifts batchLastNotified (sales (inMemoryData w))
        (transferGiftCandidates (inMemoryData w)).*2 in
    mret (Saved writes gifts watermark, n).
End processor.
