(* ===== verification/Samples.v ===== *)
(** * A small marketplace

    One configuration and one history on which the theorems are instantiated:
    a collection is created and put on sale, an item of it is added and minted
    through the collection store, and the buyer lists the token.  The states are
    computed by the handlers themselves. *)

From S2P Require Import Prelude JsString Model Env State Common Metadata Analytics Nft.
From S2P Require Import Collection IssueLog Fees Bid RarityHandlers Marketplace Store Batch.
From S2P Require Import Processor.
Open Scope string_scope.
Open Scope list_scope.
Open Scope Z_scope.

Module Samples.
(** ** Configuration: Polygon mainnet *)

Definition schemas : DclSchemas := {|
  ETHEREUM_MAINNET := 1; ETHEREUM_SEPOLIA := 11155111;
  MATIC_MAINNET := 137; MATIC_AMOY := 80002
|}.

Definition env : Env := {|
  env_schemas := schemas;
  ETHEREUM_CHAIN_ID := Some 1;
  POLYGON_CHAIN_ID := Some 137;
  MIN_TRANSFER_NOTIFICATION_TIMESTAMP := Some 1600000000;
  now := 1700000000000
|}.

(** A chain on which the third marketplace answers and nothing else does. *)
Definition rpc : Rpc := {|
  rpc_ownerOf := λ _ _ _, Throw RpcError;
  rpc_owner := λ _ _, Throw RpcError;
  rpc_collection := λ _ _, Throw RpcError;
  rpc_collections := λ _ _, Throw RpcError;
  rpc_item_totalSupply := λ _ _ _, Throw RpcError;
  rpc_getRarityByName := λ _ _ _, Throw RpcError;
  rpc_raritiesCount := λ _ _, Throw RpcError;
  rpc_rarities := λ _ _ _, Throw RpcError;
  rpc_feeCollector := λ _ _, Ok "0xda0";
  rpc_feeRate := λ _ _, Ok 25000;
  rpc_royaltiesRate := λ _ _, Ok 25000;
  rpc_fee := λ _ _, Throw RpcError;
  rpc_feeOwner := λ _ _, Throw RpcError;
  rpc_ownerCutPerMillion := λ _ _, Throw RpcError;
  rpc_feesCollectorCutPerMillion := λ _ _, Throw RpcError;
  rpc_feesCollector := λ _ _, Throw RpcError;
  rpc_royaltiesCutPerMillion := λ _ _, Throw RpcError
|}.

(** A queue that accepts every notification. *)
Definition publisher : Publisher := λ _, true.

#[local] Existing Instances env rpc publisher.

(** ** A history *)

Definition block (n : Z) : Block := mkBlock (30000000 + n) ((1700000000 + n) * 1000).

Definition blockData (n : Z) (logs : list Log) : BlockData := mkBlockData (block n) logs.

Definition transaction : Transaction := mkTransaction "0x7a" "0xf0" "0x" 3.

Definition log (address : string) (event : LogEvent) : Log := {|
  log_address := address; log_topics := []; log_transactionIndex := 3; log_logIndex := 0;
  log_transactionHash := "0x7a"; log_transaction := Some transaction; log_event := event
|}.

(** An event as the first pass queues it. *)
Definition queued (n : Z) (address : string) (event : LogEvent) : QueuedEvent := {|
  qe_event := event; qe_block := blockData n [log address event]; qe_log := log address event;
  qe_transaction := Some transaction; qe_rarities := Some ∅;
  qe_hasStoreContractData := true; qe_hasMarketplaceData := true
|}.

Definition collectionData : CollectionData := {|
  cd_name := "Hats"; cd_symbol := "HAT"; cd_owner := "0x0a"; cd_creator := "0x0c";
  cd_isCompleted := true; cd_isApproved := true; cd_isEditable := false;
  cd_baseURI := "https://peer/"; cd_chainId := 137
|}.

Definition addedItem : AddItemEventArgs := {|
  ai_itemId := 0; ai_rarity := "unique"; ai_maxSupply := 2; ai_totalSupply := 0;
  ai_price := 1000; ai_beneficiary := "0x0c";
  ai_metadata := "1:w:Hat:A hat:hat:BaseMale"; ai_contentHash := "Qm"
|}.

Definition minted : QueuedEvent := queued 3 "0xc1" (EvIssue {|
  is_beneficiary := "0xb1"; is_tokenId := 7; is_itemId := 0; is_issuedId := 1;
  is_caller := CollectionStore getAddresses
|}).

Definition listed : QueuedEvent := queued 4 (MarketplaceV2 getAddresses) (EvOrderCreated {|
  oc_id := "0x01"; oc_assetId := 7; oc_seller := "0xb1"; oc_nftAddress := "0xc1";
  oc_priceInWei := 5000; oc_expiresAt := 1800000000
|}).

Definition purchased : QueuedEvent := queued 5 (MarketplaceV2 getAddresses)
  (EvOrderSuccessful {|
    os_id := "0x01"; os_assetId := 7; os_seller := "0xb1"; os_nftAddress := "0xc1";
    os_totalPrice := 5000; os_buyer := "0xb2"
  |}).

Definition cancelled : QueuedEvent := queued 5 (MarketplaceV2 getAddresses)
  (EvOrderCancelled {|
    ox_id := "0x01"; ox_assetId := 7; ox_seller := "0xb1"; ox_nftAddress := "0xc1"
  |}).

Definition transferred : TransferEventArgs :=
  {| te_from := "0xb1"; te_to := "0xb2"; te_tokenId := 7 |}.

Definition returned : TransferEventArgs :=
  {| te_from := "0xb2"; te_to := "0xb1"; te_tokenId := 7 |}.

(** Every fee known: 2.5% to the marketplaces and 2.5% of royalties. *)
Definition knownCaches : Caches := {|
  c_store := mkStoreContractData (Some 25000) (Some "0xda0");
  c_marketplace := mkMarketplaceContractData (Some 25000) (Some "0xda0");
  c_marketplaceV2 := mkMarketplaceV2ContractData (Some 25000) (Some "0xda0") (Some 25000);
  c_bidV2 := mkBidV2ContractData (Some 25000) (Some "0xda0") (Some 25000);
  c_marketplaceV3 := mkMarketplaceV3ContractData (Some "0xda0") (Some 25000) (Some 25000);
  c_marketplaceOwnerCutPerMillion := None;
  c_bidOwnerCutPerMillion := None
|}.

Definition emptyWorld : World := {|
  storedData := emptyStoredData; inMemoryData := getBatchInMemoryState;
  nftItemObjects := ∅; liveRarities := ∅; caches := knownCaches
|}.

(** The collection exists and the item is on sale. *)
Definition onSale : World :=
  ((_ ← handleCollectionCreation (block 0) "0xc1" false None "0x70" (Some collectionData);
    for_each [
      queued 1 "0xc1" (EvSetGlobalMinter
        {| sgm_minter := CollectionStore getAddresses; sgm_value := true |});
      queued 2 "0xc1" (EvAddItem addedItem)] dispatch) emptyWorld).2.

(** The token is minted, and its price paid. *)
Definition sold : World := (dispatch minted onSale).2.

(** The token is on the secondary market. *)
Definition onMarket : World := (dispatch listed sold).2.

Definition item : Item :=
  default (newItem "" addedItem (mkCollection "" "" "" "" "" None None None [] [] "" 0 0 0 0
    None false false "" "" 0 false None "" POLYGON) 0 0)
    (items (storedData sold) !! "0xc1-0").

Definition nft : NFT :=
  default (mintedNFT "" "" (mkIssueEventArgs "" 0 0 0 "") item (createAccount "" POLYGON) 0)
    (nfts (storedData sold) !! "0xc1-7").

Definition listedNFT : NFT :=
  default nft (nfts (storedData onMarket) !! "0xc1-7").

Definition order : Order :=
  default (newOrder (Build_OrderCreatedEventArgs "" 0 "" "" 0 0) (block 0) "" "" nft 0)
    (orders (storedData onMarket) !! "0x01").

(** A database with what the history leaves. *)
Definition database : Database :=
  let s := storedData onMarket in {|
  db_accounts := accounts s; db_counts := counts s; db_collections := collections s;
  db_orders := orders s; db_bids := bids s; db_nfts := nfts s; db_analytics := analytics s;
  db_itemDayDatas := itemDayDatas s; db_accountsDayDatas := accountsDayDatas s;
  db_items := items s; db_wearables := wearables s; db_emotes := emotes s;
  db_metadatas := metadatas s; db_rarities := rarities s;
  db_lastNotified := None; db_arrayParam := λ a _, a
|}.

(** The history is what it is said to be. *)
Example history :
  cnt_salesTotal (default (newCount POLYGON) (counts (storedData sold) !! "all-POLYGON")) = 1 ∧
  it_available item = 1 ∧ it_totalSupply item = 1 ∧ it_itemType item = item_wearable_v2 ∧
  nft_ownerAddress nft = "0xb1" ∧ nft_activeOrder listedNFT = Some "0x01" ∧
  ord_status order = status_open ∧
  (acc_earned <$> accounts (storedData sold) !! "0x0c-POLYGON") = Some 975.
Proof. vm_compute. tauto. Qed.
End Samples.
