(* ===== verification/AnalyticsProofs.v ===== *)
(** * Sales: what the accounting conserves

    The theorems of [Analytics]: a sale moves money between accounts without
    creating or losing any, splits its price exactly, is recorded under a fresh
    identifier, and is counted once. *)

From S2P Require Import Prelude JsString Model Env State Common Analytics Samples.
Open Scope string_scope.
Open Scope list_scope.
Open Scope Z_scope.

(** ** Observations *)

(** What the accounts have earned and spent, over the whole map. *)
Definition totalEarned (w : World) : Z := map_total acc_earned (accounts (storedData w)).
Definition totalSpent (w : World) : Z := map_total acc_spent (accounts (storedData w)).
Definition imbalance (w : World) : Z := totalSpent w - totalEarned w.

(** The counter of the network, as [buildCount] finds or creates it. *)
Definition polygonCount (w : World) : Count :=
  default (newCount POLYGON) (counts (storedData w) !! countKey POLYGON).

(** An account as [createOrLoadAccount] finds or creates it. *)
Definition accountAt (w : World) (address : string) : Account :=
  default (createAccount address POLYGON)
    (accounts (storedData w) !! accountKey address POLYGON).

(** The network counter is filed under its own identifier. *)
Definition countKeyed (w : World) : Prop := cnt_id (polygonCount w) = countKey POLYGON.

(** ** Accounts *)

Lemma createOrLoadAccount_run address w :
  createOrLoadAccount address POLYGON w =
  (Ok (accountAt w address),
   w <| storedData ::= set accounts
          <[accountKey address POLYGON := accountAt w address]> |>).
Proof. reflexivity. Qed.

Lemma accountKey_inj a b network : accountKey a network = accountKey b network → a = b.
Proof. apply app_inj_l. Qed.

(** Loading an account changes no account. *)
Lemma createOrLoadAccount_accountAt a b w :
  accountAt (createOrLoadAccount a POLYGON w).2 b = accountAt w b.
Proof.
  rewrite createOrLoadAccount_run. unfold accountAt at 1. cbn [snd].
  change (accounts (storedData (set storedData (set accounts ?g) w)))
    with (g (accounts (storedData w))).
  destruct (decide (a = b)) as [->|Hne]; [by rewrite lookup_insert_eq|].
  rewrite lookup_insert_ne; [done|]. by intros ?%accountKey_inj.
Qed.

Lemma updateAccount_run address f w :
  updateAccount address f w =
  (Ok tt, w <| storedData ::= set accounts
                 <[accountKey address POLYGON := f (accountAt w address)]> |>).
Proof.
  unfold updateAccount. rewrite (bind_ok _ _ _ _ _ (createOrLoadAccount_run address w)).
  unfold mutate, modify. apply (f_equal (pair (Ok tt))). destruct w as [[] ? ? ? ?].
  unfold set. cbn. do 2 f_equal. apply alter_insert_eq.
Qed.

Lemma updateAccount_returns address f : returns (updateAccount address f).
Proof. intros w. exists tt. by rewrite updateAccount_run. Qed.

(** Writing an account changes a total by what it changes the account. *)
Lemma map_total_account (g : Account → Z) m address network acc :
  g (createAccount address network) = 0 →
  map_total g (<[accountKey address network := acc]> m) =
  map_total g m +
    (g acc - g (default (createAccount address network) (m !! accountKey address network))).
Proof.
  intros Hg. destruct (m !! accountKey address network) as [old|] eqn:E; simpl.
  - by apply map_total_insert.
  - rewrite map_total_insert_new by done. lia.
Qed.

(** The quantity [g], summed over the accounts. *)
Definition accountTotal (g : Account → Z) (w : World) : Z :=
  map_total g (accounts (storedData w)).

Lemma updateAccount_shifts g address f d :
  g (createAccount address POLYGON) = 0 → (∀ acc, g (f acc) = g acc + d) →
  shifts (accountTotal g) d (updateAccount address f).
Proof.
  intros Hg Hf w. rewrite updateAccount_run. unfold accountTotal. cbn [snd].
  change (accounts (storedData (set storedData (set accounts ?h) w)))
    with (h (accounts (storedData w))).
  rewrite map_total_account by done. fold (accountAt w address). rewrite Hf. lia.
Qed.

Lemma createOrLoadAccount_keeps g address :
  g (createAccount address POLYGON) = 0 →
  keeps (accountTotal g) (createOrLoadAccount address POLYGON).
Proof.
  intros Hg w. rewrite createOrLoadAccount_run. unfold accountTotal. cbn [snd].
  change (accounts (storedData (set storedData (set accounts ?h) w)))
    with (h (accounts (storedData w))).
  rewrite map_total_account by done. fold (accountAt w address). lia.
Qed.

Lemma imbalance_total w : imbalance w = accountTotal acc_spent w - accountTotal acc_earned w.
Proof. reflexivity. Qed.

Lemma createOrLoadAccount_keeps_balance address :
  keeps imbalance (createOrLoadAccount address POLYGON).
Proof.
  intros w. by rewrite !imbalance_total, (createOrLoadAccount_keeps acc_spent _ eq_refl w),
    (createOrLoadAccount_keeps acc_earned _ eq_refl w).
Qed.
#[export] Hint Resolve createOrLoadAccount_keeps_balance : frame.

(** ** The split of a price *)

Lemma saleCuts_sum price fc rc item :
  let c := saleCuts price fc rc item in
  ct_feesCollectorCut c + ct_royaltiesCut c = ct_totalFees c.
Proof. unfold saleCuts. repeat case_decide; simpl; lia. Qed.

(** Who is paid royalties, and that nobody is owed any otherwise. *)
Lemma saleCuts_collector price fc rc item :
  0 ≤ rc →
  let c := saleCuts price fc rc item in
  ct_royaltiesCollector c = None → ct_royaltiesCut c = 0.
Proof.
  intros Hrc. unfold saleCuts. repeat case_decide; simpl; intros; try done.
  assert (rc = 0) as -> by lia. reflexivity.
Qed.

Lemma rate_bounds rate price :
  0 ≤ rate → 0 ≤ price → 0 ≤ Z.quot (rate * price) ONE_MILLION.
Proof. intros. apply Z.quot_pos; [nia|done]. Qed.

(** Rounding down loses less than a unit. *)
Lemma rate_rounding rate price :
  0 ≤ rate → 0 ≤ price →
  rate * price - ONE_MILLION < Z.quot (rate * price) ONE_MILLION * ONE_MILLION ≤ rate * price.
Proof.
  unfold ONE_MILLION. intros. rewrite Z.quot_div_nonneg by nia.
  pose proof (Z.div_mod (rate * price) 1000000). pose proof (Z.mod_pos_bound (rate * price) 1000000).
  lia.
Qed.

Lemma rates_bound fc rc price :
  0 ≤ fc → 0 ≤ rc → fc + rc ≤ ONE_MILLION → 0 ≤ price →
  Z.quot (fc * price) ONE_MILLION + Z.quot (rc * price) ONE_MILLION ≤ price.
Proof.
  unfold ONE_MILLION. intros Hf Hr Hs Hp.
  pose proof (Z.mul_quot_le (fc * price) 1000000 ltac:(nia) ltac:(lia)).
  pose proof (Z.mul_quot_le (rc * price) 1000000 ltac:(nia) ltac:(lia)).
  nia.
Qed.

(** The price of a sale is split without loss: with rates that together
    stay within a million, the fees, the royalties and what is left for the
    seller are not negative and add up to the price; each rate is rounded down,
    so the fees charged are below the exact amount by less than two units; and
    royalties go to the beneficiary of the item, to its creator when it has
    none, and to the fees collector when it has neither. *)
Theorem saleCuts_split price fc rc item :
  0 ≤ price → 0 ≤ fc → 0 ≤ rc → fc + rc ≤ ONE_MILLION →
  let c := saleCuts price fc rc item in
  0 ≤ ct_feesCollectorCut c ∧ 0 ≤ ct_royaltiesCut c ∧ 0 ≤ price - ct_totalFees c ∧
  ct_feesCollectorCut c + ct_royaltiesCut c + (price - ct_totalFees c) = price ∧
  (fc + rc) * price - 2 * ONE_MILLION < ct_totalFees c * ONE_MILLION ≤ (fc + rc) * price ∧
  ct_royaltiesCollector c =
    (if decide (rc = 0) then None
     else if decide (it_beneficiary item ≠ ZERO_ADDRESS) then Some (it_beneficiary item)
     else if decide (it_creator item ≠ ZERO_ADDRESS) then Some (it_creator item)
     else None) ∧
  (ct_royaltiesCollector c = None → ct_royaltiesCut c = 0).
Proof.
  intros Hp Hf Hr Hsum c.
  pose proof (rate_bounds fc price Hf Hp) as B1. pose proof (rate_bounds rc price Hr Hp) as B2.
  pose proof (rates_bound fc rc price Hf Hr Hsum Hp) as B3.
  pose proof (rate_rounding fc price Hf Hp) as B4. pose proof (rate_rounding rc price Hr Hp) as B5.
  pose proof (saleCuts_sum price fc rc item) as Hs. cbv zeta in Hs. fold c in Hs.
  assert (ct_totalFees c = Z.quot (fc * price) ONE_MILLION + Z.quot (rc * price) ONE_MILLION)
    as Ht by (unfold c, saleCuts; by repeat case_decide).
  split_and!; try lia.
  - unfold c, saleCuts. repeat case_decide; simpl; lia.
  - unfold c, saleCuts. repeat case_decide; simpl; lia.
  - unfold c, saleCuts. repeat case_decide; simpl; try done; try lia; tauto.
  - by apply saleCuts_collector.
Qed.

(** ** What each part of [trackSale] leaves alone *)

Section trackSale.
Context `{Env, Rpc}.

Lemma buildCount_keeps {T} (π : World → T) network f :
  (∀ g w, π (set storedData (set counts g) w) = π w) →
  keeps π (buildCount network f).
Proof.
  intros Hπ. unfold buildCount. frames. apply steps_modify. intros w. apply Hπ.
Qed.

Lemma countSale_keeps {T} (π : World → T) price :
  (∀ g w, π (set storedData (set counts g) w) = π w) →
  keeps π (countSale price).
Proof.
  intros Hπ. unfold countSale. frame_step; [by apply buildCount_keeps|].
  frames. apply steps_modify. intros w. apply Hπ.
Qed.

Lemma buildCount_returns network f : returns (buildCount network f).
Proof.
  unfold buildCount. apply returns_bind; [apply returns_gets|]. intros [c|];
    auto with returns. apply returns_bind; auto with returns. apply returns_modify.
Qed.

Lemma primaryOrSecondary_returns a item cuts : returns (primaryOrSecondary a item cuts).
Proof.
  unfold primaryOrSecondary. case_decide; apply returns_bind; auto with returns;
    try apply buildCount_returns. intros _. apply updateAccount_returns.
Qed.

(** A quantity that the counters of primary sales do not enter. *)
Lemma primaryOrSecondary_keeps g a item cuts :
  g (createAccount (it_creator item) POLYGON) = 0 →
  (∀ acc n m, g (acc <| acc_primarySales := n |> <| acc_primarySalesEarned := m |>) = g acc) →
  keeps (accountTotal g) (primaryOrSecondary a item cuts).
Proof.
  intros Hg0 Hg. unfold primaryOrSecondary. case_decide; apply (shifts_keeps _).
  - apply (shifts_eq _ _ (0 + 0)); [done|]. apply shifts_bind.
    + apply buildCount_returns.
    + by apply keeps_shifts, buildCount_keeps.
    + intros _. apply updateAccount_shifts; [done|]. intros acc.
      rewrite <- (Hg acc (Z.succ (acc_primarySales acc))
        (sa_price a - ct_totalFees cuts + acc_primarySalesEarned acc)). by rewrite Z.add_0_r.
  - apply keeps_shifts. frame_step; [|frames]. by apply buildCount_keeps.
Qed.

Lemma saleDayData_keeps_accounts sale item earned :
  keeps (λ w, accounts (storedData w)) (saleDayData sale item earned).
Proof.
  unfold saleDayData, updateAnalyticsDayData, updateItemDayData,
    updateBuyerAccountsDayData, updateCreatorAccountsDayData, getOrCreateAnalyticsDayData,
    getOrCreateItemDayData, getOrCreateAccountsDayData. frames.
Qed.
Lemma keeps_accounts_total g {A} (m : M World A) :
  keeps (λ w, accounts (storedData w)) m → keeps (accountTotal g) m.
Proof. intros Hm w. unfold accountTotal. by rewrite (Hm w). Qed.

Lemma payRoyalties_returns cuts : returns (payRoyalties cuts).
Proof.
  unfold payRoyalties. destruct (ct_royaltiesCollector cuts); [|by eexists].
  apply updateAccount_returns.
Qed.

Lemma payRoyalties_earned cuts :
  (ct_royaltiesCollector cuts = None → ct_royaltiesCut cuts = 0) →
  shifts (accountTotal acc_earned) (ct_royaltiesCut cuts) (payRoyalties cuts).
Proof.
  intros Hn. unfold payRoyalties. destruct (ct_royaltiesCollector cuts) as [c|].
  - apply updateAccount_shifts; [done|]. intros acc. simpl. lia.
  - rewrite Hn by done. by apply keeps_shifts.
Qed.

Lemma payRoyalties_spent cuts : shifts (accountTotal acc_spent) 0 (payRoyalties cuts).
Proof.
  unfold payRoyalties. destruct (ct_royaltiesCollector cuts) as [c|].
  - apply updateAccount_shifts; [done|]. intros acc. simpl. lia.
  - by apply keeps_shifts.
Qed.

Lemma creditBuyer_ledger item seller price acc :
  acc_spent (creditBuyer item seller price acc) = acc_spent acc + price ∧
  acc_earned (creditBuyer item seller price acc) = acc_earned acc.
Proof.
  unfold creditBuyer. destruct (uniqueOrMythic item); simpl; split; lia.
Qed.

Lemma saleAccounts_returns a item cuts : returns (saleAccounts a item cuts).
Proof.
  unfold saleAccounts. apply returns_bind; [apply updateAccount_returns|intros _].
  apply returns_bind; [apply updateAccount_returns|intros _]. apply updateAccount_returns.
Qed.

Lemma saleAccounts_spent a item cuts :
  shifts (accountTotal acc_spent) (sa_price a) (saleAccounts a item cuts).
Proof.
  unfold saleAccounts. apply (shifts_eq _ _ (sa_price a + (0 + 0))); [lia|].
  apply shifts_bind; [apply updateAccount_returns| |intros _;
    apply shifts_bind; [apply updateAccount_returns| |intros _]];
    apply updateAccount_shifts; try done; intros acc; try (simpl; lia).
  apply creditBuyer_ledger.
Qed.

Lemma saleAccounts_earned a item cuts :
  shifts (accountTotal acc_earned)
    (sa_price a - ct_totalFees cuts + ct_feesCollectorCut cuts) (saleAccounts a item cuts).
Proof.
  unfold saleAccounts.
  apply (shifts_eq _ _ (0 + (sa_price a - ct_totalFees cuts + ct_feesCollectorCut cuts)));
    [lia|].
  apply shifts_bind; [apply updateAccount_returns| |intros _;
    apply shifts_bind; [apply updateAccount_returns| |intros _]];
    apply updateAccount_shifts; try done; intros acc; try (simpl; lia).
  destruct (creditBuyer_ledger item (sa_seller a) (sa_price a) acc). lia.
Qed.

Lemma saleItem_keeps {T} (π : World → T) itemId nftId : keeps π (saleItem itemId nftId).
Proof. unfold saleItem. frames. Qed.

Lemma saleBuyer_keeps {T} (π : World → T) block buyer nft : keeps π (saleBuyer block buyer nft).
Proof. unfold saleBuyer. frames. Qed.

Lemma mutate_item_keeps_accounts h f :
  keeps (λ w, accounts (storedData w)) (mutate_item h f).
Proof. unfold mutate_item. frames. Qed.

Lemma mutate_item_returns h f : returns (mutate_item h f).
Proof. intros w. destruct h; by eexists. Qed.

(** The tail of a sale, once its token, item and buyer are known. *)
Definition settle (a : SaleArgs) (h : ItemHandle) (item : Item) (countId saleId : string)
    (sale : Sale) (cuts : Cuts) : M World unit :=
  _ ← payRoyalties cuts;
  _ ← mutate counts countId (countEarnings (sa_type a) (sa_price a) cuts);
  _ ← mem_set sales saleId sale;
  _ ← saleAccounts a item cuts;
  _ ← mutate_item h (soldItem (sa_timestamp a) (sa_price a) (sa_buyer a));
  _ ← mutate nfts (sa_nftId a) (soldNFT (sa_timestamp a) (sa_price a));
  _ ← primaryOrSecondary a item cuts;
  saleDayData sale item (sa_price a - ct_totalFees cuts).

Lemma settle_spent a h item countId saleId sale cuts :
  shifts (accountTotal acc_spent) (sa_price a) (settle a h item countId saleId sale cuts).
Proof.
  unfold settle.
  apply (shifts_eq _ _ (0 + (0 + (0 + (sa_price a + (0 + (0 + (0 + 0)))))))); [lia|].
  apply shifts_bind; [apply payRoyalties_returns|apply payRoyalties_spent|intros _].
  do 2 (apply shifts_bind; [by eexists|by apply keeps_shifts|intros _]).
  apply shifts_bind; [apply saleAccounts_returns|apply saleAccounts_spent|intros _].
  apply shifts_bind; [apply mutate_item_returns| |intros _].
  { apply keeps_shifts, keeps_accounts_total, mutate_item_keeps_accounts. }
  apply shifts_bind; [by eexists|by apply keeps_shifts|intros _].
  apply shifts_bind; [apply primaryOrSecondary_returns| |intros _].
  { apply keeps_shifts, primaryOrSecondary_keeps; reflexivity. }
  apply keeps_shifts, keeps_accounts_total, saleDayData_keeps_accounts.
Qed.

Lemma settle_earned a h item countId saleId sale cuts :
  ct_feesCollectorCut cuts + ct_royaltiesCut cuts = ct_totalFees cuts →
  (ct_royaltiesCollector cuts = None → ct_royaltiesCut cuts = 0) →
  shifts (accountTotal acc_earned) (sa_price a) (settle a h item countId saleId sale cuts).
Proof.
  intros Hsum Hn. unfold settle.
  apply (shifts_eq _ _ (ct_royaltiesCut cuts + (0 + (0 + ((sa_price a - ct_totalFees cuts
    + ct_feesCollectorCut cuts) + (0 + (0 + (0 + 0)))))))); [lia|].
  apply shifts_bind; [apply payRoyalties_returns|by apply payRoyalties_earned|intros _].
  do 2 (apply shifts_bind; [by eexists|by apply keeps_shifts|intros _]).
  apply shifts_bind; [apply saleAccounts_returns|apply saleAccounts_earned|intros _].
  apply shifts_bind; [apply mutate_item_returns| |intros _].
  { apply keeps_shifts, keeps_accounts_total, mutate_item_keeps_accounts. }
  apply shifts_bind; [by eexists|by apply keeps_shifts|intros _].
  apply shifts_bind; [apply primaryOrSecondary_returns| |intros _].
  { apply keeps_shifts, primaryOrSecondary_keeps; reflexivity. }
  apply keeps_shifts, keeps_accounts_total, saleDayData_keeps_accounts.
Qed.

(** Every run of [trackSale], completed or not, leaves the balance alone. *)
Lemma trackSale_keeps_imbalance block a :
  0 ≤ sa_royaltiesCut a → keeps imbalance (trackSale block a).
Proof.
  intros Hrc. unfold trackSale. case_decide; [apply steps_ret; typeclasses eauto|].
  frame_step; [by apply countSale_keeps|].
  frame_step; [apply saleItem_keeps|]. destruct a1 as [[[h item] nft]|]; [|frames].
  frame_step; [apply saleBuyer_keeps|].
  set (cuts := saleCuts _ _ _ item). set (sale := saleOf _ _ _ _ _ _). set (saleId := _ +:+ _).
  intros w. rewrite !imbalance_total.
  pose proof (settle_spent a h item (cnt_id a0) saleId sale cuts w) as Hs.
  pose proof (settle_earned a h item (cnt_id a0) saleId sale cuts
    (saleCuts_sum _ _ _ item) (saleCuts_collector _ _ _ item Hrc) w) as He.
  unfold settle in Hs, He. lia.
Qed.

(** ** A completed sale *)

(** The network counter after one more sale. *)
Definition countedSale (price : Z) (c : Count) : Count :=
  c <| cnt_salesTotal ::= Z.succ |> <| cnt_salesManaTotal ::= Z.add price |>.

Lemma countSale_run price w :
  keyed cnt_id (counts (storedData w)) →
  countSale price w =
  (Ok (countedSale price (polygonCount w)),
   w <| storedData ::= set counts
          <[countKey POLYGON := countedSale price (polygonCount w)]> |>).
Proof.
  intros Hk. unfold countSale, buildCount, polygonCount, mbind, M_bind, map_get, gets.
  destruct (counts (storedData w) !! countKey POLYGON) as [c|] eqn:E; [|reflexivity].
  unfold map_set, modify. cbn [default fmap].
  change (c <| cnt_salesTotal ::= Z.succ |> <| cnt_salesManaTotal ::= Z.add price |>)
    with (countedSale price c).
  assert (cnt_id (countedSale price c) = countKey POLYGON) as Hid by apply (Hk _ _ E).
  cbn [from_option id]. revert Hid. generalize (countedSale price c) as c'. intros c' Hid.
  unfold mret, M_ret. cbv beta iota. rewrite Hid. apply (f_equal (pair _)). destruct w as [[] ? ? ? ?]. unfold set. cbn. do 2 f_equal.
  apply insert_insert_eq.
Qed.

(** The counter after its sale is settled. *)
Definition settledCount (a : SaleArgs) (cuts : Cuts) (c : Count) : Count :=
  let c := countEarnings (sa_type a) (sa_price a) cuts c in
  if decide (sa_type a = sale_mint)
  then c <| cnt_primarySalesTotal ::= Z.succ |>
         <| cnt_primarySalesManaTotal ::= Z.add (sa_price a) |>
  else c <| cnt_secondarySalesTotal ::= Z.succ |>
         <| cnt_secondarySalesManaTotal ::= Z.add (sa_price a) |>.

Lemma buildCount_acts network f :
  acts (λ w, counts (storedData w)) (alter f (countKey network)) (buildCount network f).
Proof.
  intros w. unfold buildCount, mbind, M_bind, map_get, gets.
  destruct (counts (storedData w) !! countKey network) as [c|] eqn:E.
  - cbn -[set]. change (counts (storedData (set storedData (set counts ?g) w)))
      with (g (counts (storedData w))).
    by rewrite <- (alter_insert_eq (counts (storedData w)) (countKey network) f c),
      insert_id.
  - cbn. rewrite alter_id; [done|]. intros x Hx. congruence.
Qed.

Lemma updateAccount_keeps {T} (π : World → T) address f :
  (∀ g w, π (set storedData (set accounts g) w) = π w) → keeps π (updateAccount address f).
Proof. intros Hπ w. rewrite updateAccount_run. apply Hπ. Qed.

Lemma saleAccounts_keeps {T} (π : World → T) a item cuts :
  (∀ g w, π (set storedData (set accounts g) w) = π w) → keeps π (saleAccounts a item cuts).
Proof.
  intros Hπ. unfold saleAccounts.
  repeat (frame_step; [by apply updateAccount_keeps|]). by apply updateAccount_keeps.
Qed.

Lemma payRoyalties_keeps {T} (π : World → T) cuts :
  (∀ g w, π (set storedData (set accounts g) w) = π w) → keeps π (payRoyalties cuts).
Proof.
  intros Hπ. unfold payRoyalties. destruct (ct_royaltiesCollector cuts) as [c|].
  - by apply (updateAccount_keeps _ c).
  - by frames.
Qed.

Lemma saleDayData_keeps {T} (π : World → T) sale item earned :
  (∀ g w, π (set storedData (set analytics g) w) = π w) →
  (∀ g w, π (set storedData (set itemDayDatas g) w) = π w) →
  (∀ g w, π (set storedData (set accountsDayDatas g) w) = π w) →
  keeps π (saleDayData sale item earned).
Proof.
  intros H1 H2 H3. unfold saleDayData, updateAnalyticsDayData, updateItemDayData,
    updateBuyerAccountsDayData, updateCreatorAccountsDayData, getOrCreateAnalyticsDayData,
    getOrCreateItemDayData, getOrCreateAccountsDayData.
  frames; apply steps_modify; intros w; auto.
Qed.

Lemma saleDayData_returns sale item earned cid :
  it_collection item = Some cid → returns (saleDayData sale item earned).
Proof.
  intros Hc. unfold saleDayData. rewrite Hc.
  repeat (apply returns_bind; [intros w; by eexists|intros ?]). intros w; by eexists.
Qed.

(** The day bucket of the network a sale falls in. *)
Definition analyticsDayAt (m : gmap string AnalyticsDayData) (timestamp : Z)
    : AnalyticsDayData :=
  default {|
    an_id := analyticsKey timestamp POLYGON;
    an_date := day_of timestamp * 86400;
    an_sales := 0; an_volume := 0; an_creatorsEarnings := 0; an_daoEarnings := 0;
    an_network := POLYGON
  |} (m !! analyticsKey timestamp POLYGON).

Definition countDay (sale : Sale) (m : gmap string AnalyticsDayData)
    : gmap string AnalyticsDayData :=
  let d := analyticsDay sale (analyticsDayAt m (sl_timestamp sale)) in
  <[an_id d := d]> m.

Lemma updateAnalyticsDayData_run sale w :
  updateAnalyticsDayData sale w =
  (Ok (analyticsDay sale (analyticsDayAt (analytics (storedData w)) (sl_timestamp sale))), w).
Proof.
  unfold updateAnalyticsDayData, getOrCreateAnalyticsDayData, analyticsDayAt.
  unfold mbind, M_bind, map_get, gets, mret, M_ret.
  by destruct (analytics _ !! _).
Qed.

Lemma saleDayData_acts_analytics sale item earned :
  acts (λ w, analytics (storedData w)) (countDay sale) (saleDayData sale item earned).
Proof.
  intros w. unfold saleDayData.
  rewrite (bind_ok _ _ _ _ _ (updateAnalyticsDayData_run sale w)).
  erewrite bind_ok by reflexivity.
  match goal with |- analytics (storedData (?m ?w').2) = _ =>
    enough (keeps (λ w, analytics (storedData w)) m) as Hm by exact (Hm w')
  end.
  unfold updateItemDayData, updateBuyerAccountsDayData, updateCreatorAccountsDayData,
    getOrCreateItemDayData, getOrCreateAccountsDayData. frames.
Qed.

Lemma settle_returns a h item countId saleId sale cuts cid :
  it_collection item = Some cid → returns (settle a h item countId saleId sale cuts).
Proof.
  intros Hc. unfold settle.
  apply returns_bind; [apply payRoyalties_returns|intros _].
  do 2 (apply returns_bind; [by eexists|intros _]).
  apply returns_bind; [apply saleAccounts_returns|intros _].
  apply returns_bind; [apply mutate_item_returns|intros _].
  apply returns_bind; [by eexists|intros _].
  apply returns_bind; [apply primaryOrSecondary_returns|intros _].
  by apply (saleDayData_returns _ _ _ cid).
Qed.

Lemma primaryOrSecondary_other {T} (π : World → T) a item cuts :
  (∀ g w, π (set storedData (set counts g) w) = π w) →
  (∀ g w, π (set storedData (set accounts g) w) = π w) →
  keeps π (primaryOrSecondary a item cuts).
Proof.
  intros H1 H2. unfold primaryOrSecondary. case_decide.
  - frame_step; [by apply buildCount_keeps|]. by apply updateAccount_keeps.
  - frame_step; [by apply buildCount_keeps|]. frames.
Qed.

Lemma mutate_item_keeps {T} (π : World → T) h f :
  (∀ g w, π (set storedData (set items g) w) = π w) →
  (∀ g w, π (set nftItemObjects g w) = π w) →
  keeps π (mutate_item h f).
Proof. intros H1 H2. destruct h; intros w; [apply H1|apply H2]. Qed.

End trackSale.

(** A part of a sale that ignores the observation. *)
Ltac settle_part :=
  lazymatch goal with
  | |- steps _ (buildCount _ _) => by apply buildCount_keeps
  | |- steps _ (saleItem _ _) => by apply saleItem_keeps
  | |- steps _ (saleBuyer _ _ _) => by apply saleBuyer_keeps
  | |- steps _ (payRoyalties _) => by apply payRoyalties_keeps
  | |- steps _ (saleAccounts _ _ _) => by apply saleAccounts_keeps
  | |- steps _ (mutate_item _ _) => by apply mutate_item_keeps
  | |- steps _ (primaryOrSecondary _ _ _) => by apply primaryOrSecondary_other
  | |- steps _ (saleDayData _ _ _) => by apply saleDayData_keeps
  | |- steps _ (modify _) => by intros ?
  | |- steps _ (mutate _ _ _) => by intros ?
  | |- steps _ (mem_set _ _ _) => by intros ?
  | |- steps _ (map_set _ _ _) => by intros ?
  end.

Section sale.
Context `{Env, Rpc}.

(** One step of the tail of a sale that ignores the observation. *)
Ltac settle_skip :=
  apply acts_bind_l;
  [ first [ apply payRoyalties_returns | apply saleAccounts_returns
          | apply mutate_item_returns | apply primaryOrSecondary_returns | by eexists ]
  | settle_part
  | intros _ ].

(** The rest of the tail, when all of it ignores the observation. *)
Ltac settle_rest :=
  intros _; repeat frame_step; settle_part.

Lemma settle_sales a h item countId saleId sale cuts :
  acts (λ w, sales (inMemoryData w)) <[saleId := sale]>
    (settle a h item countId saleId sale cuts).
Proof. unfold settle. do 2 settle_skip. apply acts_bind_r; [by intros ?|settle_rest]. Qed.

Lemma settle_nfts a h item countId saleId sale cuts :
  acts (λ w, nfts (storedData w))
    (alter (soldNFT (sa_timestamp a) (sa_price a)) (sa_nftId a))
    (settle a h item countId saleId sale cuts).
Proof. unfold settle. do 5 settle_skip. apply acts_bind_r; [by intros ?|settle_rest]. Qed.

Lemma settle_items a itemId item countId saleId sale cuts :
  acts (λ w, items (storedData w))
    (alter (soldItem (sa_timestamp a) (sa_price a) (sa_buyer a)) itemId)
    (settle a (InItems itemId) item countId saleId sale cuts).
Proof. unfold settle. do 4 settle_skip. apply acts_bind_r; [by intros ?|settle_rest]. Qed.

Lemma settle_analytics a h item countId saleId sale cuts :
  acts (λ w, analytics (storedData w)) (countDay sale)
    (settle a h item countId saleId sale cuts).
Proof. unfold settle. do 7 settle_skip. apply saleDayData_acts_analytics. Qed.

Lemma primaryOrSecondary_counts a item cuts :
  acts (λ w, counts (storedData w))
    (alter (λ c, if decide (sa_type a = sale_mint)
                 then c <| cnt_primarySalesTotal ::= Z.succ |>
                        <| cnt_primarySalesManaTotal ::= Z.add (sa_price a) |>
                 else c <| cnt_secondarySalesTotal ::= Z.succ |>
                        <| cnt_secondarySalesManaTotal ::= Z.add (sa_price a) |>)
       (countKey POLYGON))
    (primaryOrSecondary a item cuts).
Proof.
  unfold primaryOrSecondary. case_decide; (apply acts_bind_r; [apply buildCount_acts|]).
  - intros _. by apply updateAccount_keeps.
  - by intros _ ?.
Qed.

Lemma settle_counts a h item saleId sale cuts :
  acts (λ w, counts (storedData w)) (alter (settledCount a cuts) (countKey POLYGON))
    (settle a h item (countKey POLYGON) saleId sale cuts).
Proof.
  enough (acts (λ w, counts (storedData w)) (λ m, alter (λ c,
    if decide (sa_type a = sale_mint)
    then c <| cnt_primarySalesTotal ::= Z.succ |>
           <| cnt_primarySalesManaTotal ::= Z.add (sa_price a) |>
    else c <| cnt_secondarySalesTotal ::= Z.succ |>
           <| cnt_secondarySalesManaTotal ::= Z.add (sa_price a) |>) (countKey POLYGON)
    (alter (countEarnings (sa_type a) (sa_price a) cuts) (countKey POLYGON) m))
    (settle a h item (countKey POLYGON) saleId sale cuts)) as Hm.
  { intros w. rewrite (Hm w). apply alter_alter_eq. }
  unfold settle. settle_skip. eapply acts_bind; [by eexists|by intros ?|intros _].
  do 4 settle_skip. apply acts_bind_r; [apply primaryOrSecondary_counts|].
  intros _. by apply saleDayData_keeps.
Qed.

(** The identifier of the next sale. *)
Definition nextSaleId (w : World) : string :=
  pretty (Z.succ (cnt_salesTotal (polygonCount w))) +:+ "-" +:+ network_str POLYGON.

Lemma trackSale_unfold block a item nft buyer w :
  sa_price a ≠ 0 →
  keyed cnt_id (counts (storedData w)) →
  items (storedData w) !! sa_itemId a = Some item →
  nfts (storedData w) !! sa_nftId a = Some nft →
  (∀ w, saleBuyer block (sa_buyer a) nft w = (Ok buyer, w)) →
  let cuts := saleCuts (sa_price a) (sa_feesCollectorCut a) (sa_royaltiesCut a) item in
  trackSale block a w =
  settle a (InItems (sa_itemId a)) item (countKey POLYGON) (nextSaleId w)
    (saleOf a (nextSaleId w) buyer item nft cuts) cuts
    (w <| storedData ::= set counts
            <[countKey POLYGON := countedSale (sa_price a) (polygonCount w)]> |>).
Proof.
  intros Hp Hk Hi Hn Hb cuts. unfold trackSale. case_decide; [done|].
  rewrite (bind_ok _ _ _ _ _ (countSale_run (sa_price a) w Hk)).
  set (w1 := set storedData _ w).
  assert (saleItem (sa_itemId a) (sa_nftId a) w1 =
          (Ok (Some (InItems (sa_itemId a), item, nft)), w1)) as Hs.
  { unfold saleItem, mbind, M_bind, gets, mret, M_ret.
    change (nfts (storedData (id w1))) with (nfts (storedData w)).
    change (items (storedData (id w1))) with (items (storedData w)). by rewrite Hi, Hn. }
  rewrite (bind_ok _ _ _ _ _ Hs). cbv zeta. rewrite (bind_ok _ _ _ _ _ (Hb w1)).
  assert (cnt_id (countedSale (sa_price a) (polygonCount w)) = countKey POLYGON) as ->.
  { apply (keyed_default cnt_id (counts (storedData w)) (countKey POLYGON)
      (newCount POLYGON)); done. }
  reflexivity.
Qed.

Lemma lookup_counted (f : Count → Count) k c (m : gmap string Count) :
  alter f k (<[k := c]> m) !! k = Some (f c).
Proof. by rewrite lookup_alter_eq, lookup_insert_eq. Qed.

Lemma alter_as_insert {A} (f : A → A) k a (m : gmap string A) :
  m !! k = Some a → alter f k m = <[k := f a]> m.
Proof.
  intros Hm. apply map_eq. intros j. destruct (decide (k = j)) as [<-|Hne].
  - by rewrite lookup_alter_eq, lookup_insert_eq, Hm.
  - by rewrite lookup_alter_ne, lookup_insert_ne.
Qed.

(** C4.  A sale of a known item that completes is recorded exactly once, under
    the next sale number; the buyer's side and the payees' side of the ledger
    both grow by the price; the network counter, the item, the token and the
    day bucket of the network count it once. *)
Theorem trackSale_records block a item nft buyer collection w :
  sa_price a ≠ 0 → 0 ≤ sa_royaltiesCut a →
  keyed cnt_id (counts (storedData w)) →
  items (storedData w) !! sa_itemId a = Some item →
  nfts (storedData w) !! sa_nftId a = Some nft →
  it_collection item = Some collection →
  (∀ w, saleBuyer block (sa_buyer a) nft w = (Ok buyer, w)) →
  let cuts := saleCuts (sa_price a) (sa_feesCollectorCut a) (sa_royaltiesCut a) item in
  let sale := saleOf a (nextSaleId w) buyer item nft cuts in
  ∃ w', trackSale block a w = (Ok tt, w') ∧
    sales (inMemoryData w') = <[nextSaleId w := sale]> (sales (inMemoryData w)) ∧
    totalSpent w' = totalSpent w + sa_price a ∧
    totalEarned w' = totalEarned w + sa_price a ∧
    (cnt_salesTotal (polygonCount w') = cnt_salesTotal (polygonCount w) + 1 ∧
     cnt_salesManaTotal (polygonCount w') = cnt_salesManaTotal (polygonCount w) + sa_price a ∧
     cnt_primarySalesTotal (polygonCount w') + cnt_secondarySalesTotal (polygonCount w') =
       cnt_primarySalesTotal (polygonCount w) + cnt_secondarySalesTotal (polygonCount w) + 1) ∧
    (∃ item', items (storedData w') = <[sa_itemId a := item']> (items (storedData w)) ∧
       it_sales item' = it_sales item + 1 ∧ it_volume item' = it_volume item + sa_price a ∧
       it_soldAt item' = Some (sa_timestamp a) ∧ sa_buyer a ∈ it_uniqueCollectors item') ∧
    (∃ nft', nfts (storedData w') = <[sa_nftId a := nft']> (nfts (storedData w)) ∧
       nft_sales nft' = nft_sales nft + 1 ∧ nft_volume nft' = nft_volume nft + sa_price a ∧
       nft_soldAt nft' = Some (sa_timestamp a)) ∧
    (let day := analyticsDayAt (analytics (storedData w)) (sa_timestamp a) in
     ∃ day', analytics (storedData w') = <[an_id day := day']> (analytics (storedData w)) ∧
       an_sales day' = an_sales day + 1 ∧ an_volume day' = an_volume day + sa_price a).
Proof.
  intros Hp Hr Hk Hi Hn Hc Hb cuts sale.
  rewrite (trackSale_unfold block a item nft buyer w Hp Hk Hi Hn Hb).
  fold cuts. fold sale. set (m := settle _ _ _ _ _ _ _). set (w1 := set storedData _ w).
  destruct (returns_run m w1 (settle_returns _ _ _ _ _ _ _ _ Hc)) as [[] Hm].
  exists (m w1).2. split; [exact Hm|].
  split; [apply (settle_sales _ _ _ _ _ _ _ w1)|].
  assert (totalSpent (m w1).2 = sa_price a + totalSpent w1) as Hs
    by apply (settle_spent a (InItems (sa_itemId a)) item (countKey POLYGON)).
  assert (totalEarned (m w1).2 = sa_price a + totalEarned w1) as He.
  { apply (settle_earned a (InItems (sa_itemId a)) item (countKey POLYGON));
      [apply saleCuts_sum|by apply saleCuts_collector]. }
  change (totalSpent w1) with (totalSpent w) in Hs.
  change (totalEarned w1) with (totalEarned w) in He.
  do 2 (split; [lia|]). split.
  { assert (polygonCount (m w1).2 =
            settledCount a cuts (countedSale (sa_price a) (polygonCount w))) as ->.
    { unfold polygonCount at 1. unfold m. rewrite (settle_counts _ _ _ _ _ _ w1).
      etransitivity; [apply (f_equal (default _)), lookup_counted|done]. }
    unfold settledCount, countedSale, countEarnings. case_decide; cbn; lia. }
  split; [|split].
  - eexists. split;
      [exact (eq_trans (settle_items _ _ _ _ _ _ _ w1) (alter_as_insert _ _ _ _ Hi))|].
    split_and!; [cbn; lia..|done|]. apply set_values_spec. set_solver.
  - eexists. split;
      [exact (eq_trans (settle_nfts _ _ _ _ _ _ _ w1) (alter_as_insert _ _ _ _ Hn))|].
    split_and!; [cbn; lia..|done].
  - eexists. split; [exact (settle_analytics _ _ _ _ _ _ _ w1)|].
    split; cbn; lia.
Qed.
End sale.

(** ** The purchase of a minted token *)

#[local] Existing Instances Samples.env Samples.rpc.

Definition purchase : SaleArgs := {|
  sa_type := sale_order; sa_buyer := "0xb2"; sa_seller := "0xb1"; sa_beneficiary := "0xb1";
  sa_itemId := "0xc1-0"; sa_nftId := "0xc1-7"; sa_price := 5000;
  sa_feesCollectorCut := 25000; sa_feesCollector := "0xda0"; sa_royaltiesCut := 25000;
  sa_timestamp := 1700000005; sa_txHash := "0x7b"
|}.

Example trackSale_records_witness :
  ∃ w', trackSale (Samples.block 5) purchase Samples.sold = (Ok tt, w') ∧
    totalSpent w' = totalSpent Samples.sold + 5000 ∧
    totalEarned w' = totalEarned Samples.sold + 5000 ∧
    (sl_price <$> sales (inMemoryData w') !! "2-POLYGON") = Some 5000 ∧
    cnt_salesTotal (polygonCount w') = 2.
Proof.
  destruct (trackSale_records (Samples.block 5) purchase Samples.item Samples.nft "0xb2" "0xc1"
    Samples.sold) as (w' & E & Hs & Hsp & He & (Hc & _) & _);
    [done|done|decided|vm_compute; reflexivity..|intros w; reflexivity|].
  exists w'. split_and!; [done|done|done| |].
  - rewrite Hs. vm_compute. reflexivity.
  - rewrite Hc. vm_compute. reflexivity.
Defined.

Example saleCuts_split_witness :
  let c := saleCuts 1001 25000 25000 Samples.item in
  ct_feesCollectorCut c + ct_royaltiesCut c + (1001 - ct_totalFees c) = 1001 ∧
  ct_totalFees c = 50.
Proof.
  split; [|vm_compute; reflexivity].
  apply (saleCuts_split 1001 25000 25000 Samples.item); unfold ONE_MILLION; lia.
Defined.
