(* ===== verification/IssueLogProofs.v ===== *)
(** * Pairing [Traded] events with [Issue] logs: theorems of [IssueLog]

    The events of a transaction consume its matching logs in log order, and all
    of them when there are as many. *)

From S2P Require Import Prelude JsString Model Env State IssueLog.
From stdpp Require Import sorting.
Open Scope string_scope.
Open Scope list_scope.
Open Scope Z_scope.

(** ** The sort *)

Section sort.
Context {A : Type} (key : A → Z).

Lemma insert_by_perm x l : insert_by key x l ≡ₚ x :: l.
Proof.
  induction l as [|y l IH]; simpl; [done|]. case_decide; [done|].
  rewrite IH. apply Permutation_swap.
Qed.

Lemma sort_by_perm l : sort_by key l ≡ₚ l.
Proof.
  induction l as [|x l IH]; simpl; [done|].
  rewrite insert_by_perm. by constructor.
Qed.

Lemma insert_by_sorted x l :
  StronglySorted (λ a b, key a ≤ key b) l →
  StronglySorted (λ a b, key a ≤ key b) (insert_by key x l).
Proof.
  induction 1 as [|y l Hl IH Hy]; simpl; [repeat constructor|].
  case_decide as Hxy; constructor; [by constructor| |done|].
  - constructor; [done|]. eapply Forall_impl; [exact Hy|]. simpl. lia.
  - rewrite insert_by_perm. constructor; [lia|done].
Qed.

Lemma sort_by_sorted l : StronglySorted (λ a b, key a ≤ key b) (sort_by key l).
Proof. induction l; simpl; [constructor|by apply insert_by_sorted]. Qed.
End sort.

Lemma filter_true {A} (P : A → Prop) `{∀ x, Decision (P x)} (l : list A) :
  (∀ x, x ∈ l → P x) → filter P l = l.
Proof.
  induction l as [|x l IH]; intros HP; [done|].
  rewrite filter_cons_True by (apply HP; set_solver).
  f_equal. apply IH. set_solver.
Qed.

(** ** Selecting *)

Lemma issueLogKey_inj height i j :
  issueLogKey height i = issueLogKey height j → i = j.
Proof.
  unfold issueLogKey. intros Heq. by apply app_inj_r, app_inj_r, (inj pretty) in Heq.
Qed.

(** The logs a query may still be answered with, in log order. *)
Definition candidates (logs : list Log) (q : IssueQuery) (consumed : gset string) : list Log :=
  filter (λ l, issueLogKey (iq_blockHeight q) (log_logIndex l) ∉ consumed)
    (sort_by log_logIndex (filter (λ l, matchesIssue q l) logs)).

(** A block numbers its logs without repetition. *)
Definition numbered (logs : list Log) : Prop := NoDup (log_logIndex <$> logs).

Lemma candidates_NoDup logs q consumed :
  numbered logs → NoDup (log_logIndex <$> candidates logs q consumed).
Proof.
  intros Hn.
  assert (candidates logs q consumed ⊆+ logs) as Hs.
  { unfold candidates. etransitivity; [apply sublist_submseteq, sublist_filter|].
    rewrite sort_by_perm. apply sublist_submseteq, sublist_filter. }
  apply submseteq_Permutation in Hs as [k Hk]. unfold numbered in Hn.
  rewrite Hk, fmap_app in Hn. by apply NoDup_app in Hn as [Hn _].
Qed.

(** Consuming the first candidate leaves the others. *)
Lemma candidates_consume logs q consumed x l :
  numbered logs →
  candidates logs q consumed = x :: l →
  candidates logs q
    ({[issueLogKey (iq_blockHeight q) (log_logIndex x)]} ∪ consumed) = l.
Proof.
  intros Hn Hc. pose proof (candidates_NoDup logs q consumed Hn) as Hnd.
  rewrite Hc in Hnd. apply NoDup_cons in Hnd as [Hx _].
  set (P l := issueLogKey (iq_blockHeight q) (log_logIndex l) ≠
              issueLogKey (iq_blockHeight q) (log_logIndex x)).
  transitivity (filter P (candidates logs q consumed)).
  { unfold candidates. rewrite list_filter_filter. apply list_filter_iff. intros y.
    unfold P. rewrite not_elem_of_union, not_elem_of_singleton. tauto. }
  rewrite Hc, filter_cons_False by (unfold P; naive_solver).
  apply filter_true. intros y Hy Heq. apply Hx.
  apply issueLogKey_inj in Heq. rewrite <- Heq. by apply list_elem_of_fmap_2.
Qed.

Lemma chooseIssueLog_head logs q consumed :
  chooseIssueLog logs q consumed = head (candidates logs q consumed).
Proof. reflexivity. Qed.

Lemma chooseIssueLog_elem logs q consumed l :
  chooseIssueLog logs q consumed = Some l → l ∈ logs.
Proof.
  rewrite chooseIssueLog_head. intros Hl.
  assert (l ∈ candidates logs q consumed) as Hin.
  { destruct (candidates logs q consumed); [done|]. injection Hl as ->. by left. }
  unfold candidates in Hin. apply list_elem_of_filter in Hin as [_ Hin].
  rewrite sort_by_perm in Hin. by apply list_elem_of_filter in Hin as [_ Hin].
Qed.

(** C28.  The [Traded] events of a transaction that buys several units of an
    item are answered by its matching [Issue] logs one by one, in ascending log
    order, skipping those already consumed; events in excess get none. *)
Theorem selectIssueLogs_in_order n logs q consumed :
  numbered logs →
  (selectIssueLogs n logs q consumed).1 =
  take n ((Some <$> candidates logs q consumed) ++ replicate n None).
Proof.
  intros Hn. revert consumed. induction n as [|n IH]; intros consumed; [done|].
  simpl. unfold selectIssueLogForTrade. rewrite chooseIssueLog_head.
  destruct (candidates logs q consumed) as [|x l] eqn:Hc; simpl.
  - specialize (IH consumed). rewrite Hc in IH.
    destruct (selectIssueLogs n logs q consumed). simpl in *. by rewrite IH.
  - specialize (IH ({[issueLogKey (iq_blockHeight q) (log_logIndex x)]} ∪ consumed)).
    rewrite (candidates_consume _ _ _ _ _ Hn Hc) in IH.
    destruct (selectIssueLogs n logs q _). simpl in *. rewrite IH. f_equal.
    change (None :: replicate n None) with (replicate (S n) (@None Log)).
    rewrite !take_app, !length_fmap, !take_replicate.
    rewrite (Nat.min_l _ n), (Nat.min_l _ (S n)) by lia. reflexivity.
Qed.

(** When a transaction emitted as many [Traded] events as [Issue] logs,
    every matching log is consumed exactly once: no mint is dropped and none is
    counted twice. *)
Theorem selectIssueLogs_exhaustive logs q :
  numbered logs →
  let matching := filter (λ l, matchesIssue q l) logs in
  ∃ chosen,
    (selectIssueLogs (length matching) logs q ∅).1 = Some <$> chosen ∧
    chosen ≡ₚ matching ∧ StronglySorted (λ a b, log_logIndex a ≤ log_logIndex b) chosen.
Proof.
  intros Hn matching.
  assert (candidates logs q ∅ = sort_by log_logIndex matching) as Hc.
  { unfold candidates. apply filter_true. set_solver. }
  exists (sort_by log_logIndex matching). split_and!.
  - rewrite selectIssueLogs_in_order, Hc by done.
    apply take_app_length'. by rewrite length_fmap, sort_by_perm.
  - apply sort_by_perm.
  - apply sort_by_sorted.
Qed.

(** ** A transaction that buys two units *)

Definition issueLogAt (index issuedId : Z) : Log := {|
  log_address := "0xC0"; log_topics := [IssueTopic; 1; 2; 7];
  log_transactionIndex := 3; log_logIndex := index; log_transactionHash := "0xt";
  log_transaction := None;
  log_event := EvIssue (mkIssueEventArgs "0xb" issuedId 7 issuedId "0xm")
|}.

Definition twoUnits : list Log := [issueLogAt 9 2; issueLogAt 4 1].
Definition twoUnitsQuery : IssueQuery := mkIssueQuery 3 "0xc0" 7 100.

Example selectIssueLogs_in_order_witness :
  (selectIssueLogs 3 twoUnits twoUnitsQuery ∅).1 =
    [Some (issueLogAt 4 1); Some (issueLogAt 9 2); None].
Proof.
  etransitivity; [apply (selectIssueLogs_in_order 3 twoUnits twoUnitsQuery ∅)|].
  - unfold numbered. apply (bool_decide_unpack _). vm_compute. exact I.
  - vm_compute. reflexivity.
Defined.

Example selectIssueLogs_exhaustive_witness :
  ∃ chosen,
    (selectIssueLogs 2 twoUnits twoUnitsQuery ∅).1 = Some <$> chosen ∧
    chosen ≡ₚ [issueLogAt 9 2; issueLogAt 4 1] ∧
    StronglySorted (λ a b, log_logIndex a ≤ log_logIndex b) chosen.
Proof.
  refine (selectIssueLogs_exhaustive twoUnits twoUnitsQuery _).
  - unfold numbered. apply (bool_decide_unpack _). vm_compute. exact I.
Defined.
