(* ===== verification/WellFormed.v ===== *)
(** * Well-formedness: every map is filed under identifiers

    [toMapById] files every entity under its identifier, and every handler keeps
    it so: an entity is only ever stored under its own identifier and no
    assignment changes an identifier. *)

From S2P Require Import Prelude JsString Model Env State Common Metadata Analytics Nft.
From S2P Require Import Collection IssueLog Fees Bid RarityHandlers Marketplace Store Batch.
From S2P Require Import Processor Samples.
Open Scope string_scope.
Open Scope list_scope.
Open Scope Z_scope.

Record wf (s : PolygonStoredData) : Prop := {
  wf_accounts : keyed acc_id (accounts s);
  wf_counts : keyed cnt_id (counts s);
  wf_collections : keyed col_id (collections s);
  wf_orders : keyed ord_id (orders s);
  wf_bids : keyed bid_id (bids s);
  wf_nfts : keyed nft_id (nfts s);
  wf_analytics : keyed an_id (analytics s);
  wf_itemDayDatas : keyed idd_id (itemDayDatas s);
  wf_accountsDayDatas : keyed ad_id (accountsDayDatas s);
  wf_items : keyed it_id (items s);
  wf_wearables : keyed wr_id (wearables s);
  wf_emotes : keyed em_id (emotes s);
  wf_metadatas : keyed md_id (metadatas s)
}.

(** The entities a batch inserts are filed alike. *)
Record wfMemory (m : PolygonInMemoryState) : Prop := {
  wf_sales : keyed sl_id (sales m);
  wf_mints : keyed mt_id (mints m);
  wf_curations : keyed cu_id (curations m)
}.

Record wfWorld (w : World) : Prop := {
  wfw_stored : wf (storedData w);
  wfw_memory : wfMemory (inMemoryData w)
}.

(** ** The maps, as a class *)

(** A map of the stored data whose values carry their key. *)
Class Filed {A} (p : PolygonStoredData → gmap string A) `{!Setter p} := {
  file_id : A → string;
  filed s : wf s → keyed file_id (p s);
  filed_set s g : wf s → keyed file_id (g (p s)) → wf (set p g s)
}.

#[export] Program Instance filed_accounts : Filed accounts := {| file_id := acc_id |}.
Solve Obligations with (intros; by destruct H).
#[export] Program Instance filed_counts : Filed counts := {| file_id := cnt_id |}.
Solve Obligations with (intros; by destruct H).
#[export] Program Instance filed_collections : Filed collections := {| file_id := col_id |}.
Solve Obligations with (intros; by destruct H).
#[export] Program Instance filed_orders : Filed orders := {| file_id := ord_id |}.
Solve Obligations with (intros; by destruct H).
#[export] Program Instance filed_bids : Filed bids := {| file_id := bid_id |}.
Solve Obligations with (intros; by destruct H).
#[export] Program Instance filed_nfts : Filed nfts := {| file_id := nft_id |}.
Solve Obligations with (intros; by destruct H).
#[export] Program Instance filed_analytics : Filed analytics := {| file_id := an_id |}.
Solve Obligations with (intros; by destruct H).
#[export] Program Instance filed_itemDayDatas : Filed itemDayDatas :=
  {| file_id := idd_id |}.
Solve Obligations with (intros; by destruct H).
#[export] Program Instance filed_accountsDayDatas : Filed accountsDayDatas :=
  {| file_id := ad_id |}.
Solve Obligations with (intros; by destruct H).
#[export] Program Instance filed_items : Filed items := {| file_id := it_id |}.
Solve Obligations with (intros; by destruct H).
#[export] Program Instance filed_wearables : Filed wearables := {| file_id := wr_id |}.
Solve Obligations with (intros; by destruct H).
#[export] Program Instance filed_emotes : Filed emotes := {| file_id := em_id |}.
Solve Obligations with (intros; by destruct H).
#[export] Program Instance filed_metadatas : Filed metadatas := {| file_id := md_id |}.
Solve Obligations with (intros; by destruct H).

(** ** The primitives *)

Section primitives.
Context {A} (p : PolygonStoredData → gmap string A) `{!Setter p, !Filed p}.

Lemma wf_map_get k :
  maintains wfWorld (map_get p k) (λ o, ∀ a, o = Some a → file_id a = k).
Proof. apply maintains_gets. intros w [Hw _] a. by apply (filed _ Hw). Qed.

Lemma wf_map_set k v : file_id v = k → maintains wfWorld (map_set p k v) (λ _, True).
Proof.
  intros Hk. apply maintains_modify; [|done]. intros w [Hw Hm]. split; [|done].
  apply filed_set; [done|]. apply keyed_insert; [done|]. by apply filed.
Qed.

Lemma wf_mutate k f :
  (∀ a, file_id (f a) = file_id a) → maintains wfWorld (mutate p k f) (λ _, True).
Proof.
  intros Hf. apply maintains_modify; [|done]. intros w [Hw Hm]. split; [|done].
  apply filed_set; [done|]. apply keyed_alter; [done|]. by apply filed.
Qed.
End primitives.

(** An update outside the stored data and the inserted entities. *)
Lemma wf_elsewhere f :
  (∀ w, storedData (f w) = storedData w ∧ sales (inMemoryData (f w)) = sales (inMemoryData w) ∧
        mints (inMemoryData (f w)) = mints (inMemoryData w) ∧
        curations (inMemoryData (f w)) = curations (inMemoryData w)) →
  maintains wfWorld (modify f) (λ _, True).
Proof.
  intros Hf. apply maintains_modify; [|done]. intros w [Hs [H1 H2 H3]].
  destruct (Hf w) as (E1 & E2 & E3 & E4). split; [by rewrite E1|].
  split; [by rewrite E2|by rewrite E3|by rewrite E4].
Qed.

Lemma wf_sale k v : sl_id v = k → maintains wfWorld (mem_set sales k v) (λ _, True).
Proof.
  intros Hk. apply maintains_modify; [|done]. intros w [Hs [H1 H2 H3]].
  split; [done|]. split; [by apply keyed_insert|done..].
Qed.

Lemma wf_mint k v : mt_id v = k → maintains wfWorld (mem_set mints k v) (λ _, True).
Proof.
  intros Hk. apply maintains_modify; [|done]. intros w [Hs [H1 H2 H3]].
  split; [done|]. split; [done|by apply keyed_insert|done].
Qed.

Lemma wf_curation k v : cu_id v = k → maintains wfWorld (mem_set curations k v) (λ _, True).
Proof.
  intros Hk. apply maintains_modify; [|done]. intros w [Hs [H1 H2 H3]].
  split; [done|]. split; [done..|by apply keyed_insert].
Qed.

Lemma wf_gets {A} (f : World → A) : maintains wfWorld (gets f) (λ _, True).
Proof. by apply maintains_gets. Qed.
Lemma wf_lift {A} (r : Res A) : maintains wfWorld (lift r) (λ _, True).
Proof. by apply maintains_lift. Qed.
Lemma wf_throw {A} e (φ : A → Prop) : maintains wfWorld (throw e) φ.
Proof. apply maintains_throw. Qed.
Lemma wf_block_seconds block : maintains wfWorld (block_seconds block) (λ _, True).
Proof. unfold block_seconds. case_decide; [by apply maintains_ret|apply maintains_throw]. Qed.

#[export] Hint Resolve wf_sale wf_mint wf_curation wf_throw wf_block_seconds : inv.
#[export] Hint Extern 2 (maintains _ (gets _) _) => (apply wf_gets) : inv.
#[export] Hint Extern 2 (maintains _ (lift _) _) => (apply wf_lift) : inv.
#[export] Hint Extern 1 (maintains _ (map_get _ _) _) => (eapply wf_map_get) : inv.
#[export] Hint Extern 1 (maintains _ (map_set _ _ _) _) =>
  (eapply wf_map_set; first [reflexivity | eassumption | cbn in *; congruence]) : inv.
#[export] Hint Extern 1 (maintains _ (mutate _ _ _) _) =>
  (eapply wf_mutate; by intros ?) : inv.
#[export] Hint Extern 1 (maintains _ (mem_update _ _) _) =>
  (eapply wf_elsewhere; by intros ?) : inv.
#[export] Hint Extern 2 (maintains _ (modify _) _) =>
  (eapply wf_elsewhere; by intros ?) : inv.

(** ** Shared modules *)

Lemma wf_createOrLoadAccount a n :
  maintains wfWorld (createOrLoadAccount a n) (λ acc, acc_id acc = accountKey a n).
Proof.
  unfold createOrLoadAccount. eapply maintains_bind; [apply (wf_map_get accounts)|].
  intros o Ho. assert (acc_id (default (createAccount a n) o) = accountKey a n).
  { destruct o; [by apply Ho|done]. }
  eapply maintains_bind; [by apply (wf_map_set accounts)|]. intros _ _.
  by apply maintains_ret.
Qed.

Lemma wf_buildCount n f :
  (∀ c, cnt_id (f c) = cnt_id c) →
  maintains wfWorld (buildCount n f) (λ c, cnt_id c = countKey n).
Proof.
  intros Hf. unfold buildCount. eapply maintains_bind; [apply (wf_map_get counts)|].
  intros [c|] Hc.
  - specialize (Hc c eq_refl). eapply maintains_bind; [apply (wf_map_set counts)|].
    + simpl in *. by rewrite Hf.
    + intros _ _. apply maintains_ret. by rewrite Hf.
  - apply maintains_ret. by rewrite Hf.
Qed.

Lemma wf_getOrCreateAnalyticsDayData t n :
  maintains wfWorld (getOrCreateAnalyticsDayData t n) (λ d, an_id d = analyticsKey t n).
Proof.
  unfold getOrCreateAnalyticsDayData. eapply maintains_bind; [apply (wf_map_get analytics)|].
  intros [d|] Hd; apply maintains_ret; [by apply Hd|done].
Qed.
#[export] Hint Resolve wf_createOrLoadAccount wf_getOrCreateAnalyticsDayData : inv.
#[export] Hint Extern 1 (maintains _ (buildCount _ _) _) =>
  (apply wf_buildCount; intros ?; unfold countNFT, countOrder; by repeat case_match) : inv.
#[export] Hint Extern 1 (@eq string _ _) =>
  first [reflexivity | match goal with H : _ = _ |- _ => exact H end] : inv.

(** ** The parts of a sale *)

Section handlers.
Context `{Env, Rpc}.

Lemma wf_buyerDay sale item d : ad_id (buyerDay sale item d) = ad_id d.
Proof. unfold buyerDay. by destruct (uniqueOrMythic item). Qed.

Lemma wf_creatorDay sale z c d : ad_id (creatorDay sale z c d) = ad_id d.
Proof. unfold creatorDay. by case_decide. Qed.

Lemma wf_analyticsDay sale d : an_id (analyticsDay sale d) = an_id d.
Proof. unfold analyticsDay. by repeat case_match. Qed.

Lemma wf_creditBuyer item s p acc : acc_id (creditBuyer item s p acc) = acc_id acc.
Proof. unfold creditBuyer. by destruct (uniqueOrMythic item). Qed.

Lemma wf_updateAccount a f :
  (∀ acc, acc_id (f acc) = acc_id acc) →
  maintains wfWorld (updateAccount a f) (λ _, True).
Proof.
  intros Hf. unfold updateAccount. inv_step. by apply (wf_mutate accounts).
Qed.

Lemma wf_mutate_item h f :
  (∀ i, it_id (f i) = it_id i) → maintains wfWorld (mutate_item h f) (λ _, True).
Proof.
  intros Hf. unfold mutate_item. destruct h; [by apply (wf_mutate items)|].
  by apply wf_elsewhere.
Qed.

Lemma wf_saleItem itemId nftId : maintains wfWorld (saleItem itemId nftId) (λ _, True).
Proof. unfold saleItem. inv_go. Qed.

Lemma wf_getOrCreateItemDayData t i :
  maintains wfWorld (getOrCreateItemDayData t i) (λ d, idd_id d = itemDayKey t i).
Proof.
  unfold getOrCreateItemDayData. eapply maintains_bind; [apply (wf_map_get itemDayDatas)|].
  intros [d|] Hd; apply maintains_ret; [by apply Hd|done].
Qed.

Lemma wf_getOrCreateAccountsDayData t a :
  maintains wfWorld (getOrCreateAccountsDayData t a) (λ d, ad_id d = accountsDayKey t a).
Proof.
  unfold getOrCreateAccountsDayData.
  eapply maintains_bind; [apply (wf_map_get accountsDayDatas)|].
  intros [d|] Hd; apply maintains_ret; [by apply Hd|done].
Qed.
#[local] Hint Resolve wf_getOrCreateItemDayData wf_getOrCreateAccountsDayData : inv.

Lemma wf_saleDayData sale item earned :
  maintains wfWorld (saleDayData sale item earned) (λ _, True).
Proof.
  unfold saleDayData, updateAnalyticsDayData, updateItemDayData,
    updateBuyerAccountsDayData, updateCreatorAccountsDayData.
  inv_go.
Qed.

Lemma wf_trackSale block a : maintains wfWorld (trackSale block a) (λ _, True).
Proof.
  unfold trackSale, countSale, saleBuyer, payRoyalties, saleAccounts, primaryOrSecondary,
    buildCountFromPrimarySale, buildCountFromSecondarySale.
  #[local] Hint Extern 1 (maintains _ (updateAccount _ _) _) =>
    (apply wf_updateAccount; first [by intros ? | intros ?; apply wf_creditBuyer]) : inv.
  #[local] Hint Extern 1 (maintains _ (mutate_item _ _) _) =>
    (eapply wf_mutate_item; by intros ?) : inv.
  #[local] Hint Resolve wf_saleItem : inv.
  inv_go. all: apply wf_saleDayData.
Qed.
#[local] Hint Resolve wf_trackSale : inv.

(** ** Metadata *)

Lemma wf_buildWearableItem item :
  maintains wfWorld (buildWearableItem item)
    (λ o, ∀ r, o = Some r → wr_id r = it_id item).
Proof.
  unfold buildWearableItem, item_collection_id. case_decide; [|by apply maintains_ret].
  inv_step. apply (maintains_bind _ _ _ (λ _, True)); [inv_go|]. intros c _.
  apply maintains_ret. by intros r [= <-].
Qed.

Lemma wf_buildEmoteItem item :
  maintains wfWorld (buildEmoteItem item) (λ o, ∀ r, o = Some r → em_id r = it_id item).
Proof.
  unfold buildEmoteItem, item_collection_id. repeat case_match; try by apply maintains_ret.
  all: apply (maintains_bind _ _ _ (λ _, True)); [inv_go|intros c _].
  all: apply maintains_ret; by intros r [= <-].
Qed.
#[local] Hint Resolve wf_buildWearableItem wf_buildEmoteItem : inv.

Lemma wf_wearableMetadata item t m :
  md_id m = it_id item →
  maintains wfWorld (wearableMetadata item t m) (λ m, md_id m = it_id item).
Proof.
  intros Hm. unfold wearableMetadata. inv_step. destruct a as [w|]; inv_facts.
  - inv_step. by apply maintains_ret.
  - by apply maintains_ret.
Qed.

Lemma wf_emoteMetadata item m :
  md_id m = it_id item →
  maintains wfWorld (emoteMetadata item m) (λ m, md_id m = it_id item).
Proof.
  intros Hm. unfold emoteMetadata. inv_step. destruct a as [w|]; inv_facts.
  - inv_step. by apply maintains_ret.
  - by apply maintains_ret.
Qed.

Lemma wf_buildItemMetadata item :
  maintains wfWorld (buildItemMetadata item) (λ m, md_id m = it_id item).
Proof.
  unfold buildItemMetadata. eapply maintains_bind; [apply (wf_map_get metadatas)|].
  intros o Ho. set (m := default _ o).
  assert (md_id m = it_id item) as Hm by (subst m; destruct o; [by apply Ho|done]).
  clearbody m. inv_step. apply (maintains_bind _ _ _ (λ m, md_id m = it_id item)).
  { repeat case_decide; first [by apply wf_wearableMetadata | by apply wf_emoteMetadata
      | by apply maintains_ret]. }
  intros m' Hm'. inv_step. by apply maintains_ret.
Qed.

Lemma wf_refreshMetadata item :
  maintains wfWorld (refreshMetadata item) (λ i, it_id i = it_id item).
Proof.
  unfold refreshMetadata. eapply maintains_bind; [apply wf_buildItemMetadata|]. intros m _.
  unfold setItemSearchFields, setItemWearableSearchFields, setItemEmoteSearchFields.
  repeat lazymatch goal with
  | |- maintains _ (mbind _ _) _ => apply (maintains_bind _ _ _ (λ _, True)); [inv_go|intros ? _]
  | |- maintains _ (match ?x with _ => _ end) _ => destruct x
  | |- maintains _ (mret _) _ => apply maintains_ret; by repeat case_match
  end.
Qed.

Lemma wf_setNFTSearchFields nft :
  maintains wfWorld (setNFTSearchFields nft) (λ n, nft_id n = nft_id nft).
Proof.
  unfold setNFTSearchFields, setNFTWearableSearchFields, setNFTEmoteSearchFields.
  repeat lazymatch goal with
  | |- maintains _ (mbind _ _) _ => apply (maintains_bind _ _ _ (λ _, True)); [inv_go|intros ? _]
  | |- maintains _ (match ?x with _ => _ end) _ => destruct x
  | |- maintains _ (mret _) _ => by apply maintains_ret
  end.
Qed.
#[local] Hint Resolve wf_buildItemMetadata wf_refreshMetadata wf_setNFTSearchFields : inv.

(** ** Handlers *)

Lemma wf_handleMintNFT e block t a item d tr :
  maintains wfWorld (handleMintNFT e block t a item d tr) (λ _, True).
Proof. unfold handleMintNFT, buildCountFromNFT, received0, storeSale. inv_go. Qed.
#[local] Hint Resolve wf_handleMintNFT : inv.

Lemma wf_handleTransferNFT a e block t :
  maintains wfWorld (handleTransferNFT a e block t) (λ _, True).
Proof. unfold handleTransferNFT. inv_go. Qed.

Lemma wf_handleIssue a e block t d tr :
  maintains wfWorld (handleIssue a e block t d tr) (λ _, True).
Proof. unfold handleIssue, item_collection_id. inv_go. Qed.
#[local] Hint Resolve wf_handleTransferNFT wf_handleIssue : inv.

Lemma wf_flagItem k b i : it_id (flagItem k b i) = it_id i.
Proof. by destruct k. Qed.
Lemma wf_flagCollection k b c : col_id (flagCollection k b c) = col_id c.
Proof. by destruct k. Qed.
#[local] Hint Extern 1 (maintains _ (mutate items _ (flagItem _ _)) _) =>
  (eapply wf_mutate; intros ?; apply wf_flagItem) : inv.
#[local] Hint Extern 1 (maintains _ (mutate collections _ (flagCollection _ _)) _) =>
  (eapply wf_mutate; intros ?; apply wf_flagCollection) : inv.

Lemma wf_listItem block id i : maintains wfWorld (listItem block id i) (λ _, True).
Proof. unfold listItem. inv_go. Qed.
#[local] Hint Resolve wf_listItem : inv.

Lemma wf_handleSetGlobalMinter a e block :
  maintains wfWorld (handleSetGlobalMinter a e block) (λ _, True).
Proof. unfold handleSetGlobalMinter, addGlobalMinter, removeGlobalMinter. inv_go. Qed.

Lemma wf_handleSetItemMinter a e block :
  maintains wfWorld (handleSetItemMinter a e block) (λ _, True).
Proof. unfold handleSetItemMinter, item_collection_id. inv_go. Qed.

Lemma wf_handleAddItem block a e r :
  maintains wfWorld (handleAddItem block a e r) (λ _, True).
Proof. unfold handleAddItem, itemCreationFee, buildCountFromItem. inv_go. Qed.

Lemma wf_handleRescueItem e block log t :
  maintains wfWorld (handleRescueItem e block log t) (λ _, True).
Proof. unfold handleRescueItem, recordCuration. inv_go. Qed.

Lemma wf_handleUpdateItemData a e block :
  maintains wfWorld (handleUpdateItemData a e block) (λ _, True).
Proof. unfold handleUpdateItemData. inv_go. Qed.

Lemma wf_handleSetApproved a v block t :
  maintains wfWorld (handleSetApproved a v block t) (λ _, True).
Proof. unfold handleSetApproved. inv_go. Qed.

Lemma wf_updateNFTOrderProperties nft order :
  nft_id (updateNFTOrderProperties nft order) = nft_id nft.
Proof. unfold updateNFTOrderProperties. by destruct (ord_status order). Qed.
#[local] Hint Extern 1 (maintains _ (mutate nfts _ (λ _, updateNFTOrderProperties _ _)) _) =>
  (eapply wf_mutate; intros ?; apply wf_updateNFTOrderProperties) : inv.
#[local] Hint Extern 1 (maintains _ (mutate orders _ (λ _, cancelActiveOrder _ _)) _) =>
  (eapply wf_mutate; intros o; unfold cancelActiveOrder; by destruct (ord_status o)) : inv.

Lemma wf_orders_handlers :
  (∀ e block a t, maintains wfWorld (handleOrderCreated e block a t) (λ _, True)) ∧
  (∀ e block t d m2, maintains wfWorld (handleOrderSuccessful e block t d m2) (λ _, True)) ∧
  (∀ e block, maintains wfWorld (handleOrderCancelled e block) (λ _, True)).
Proof.
  unfold handleOrderCreated, handleOrderSuccessful, handleOrderCancelled, giveTo,
    buildCountFromOrder.
  split_and!; intros; inv_go.
Qed.

Lemma wf_bids_handlers :
  (∀ e block a, maintains wfWorld (handleBidCreated e block a) (λ _, True)) ∧
  (∀ e block t d, maintains wfWorld (handleBidAccepted e block t d) (λ _, True)) ∧
  (∀ e block, maintains wfWorld (handleBidCancelled e block) (λ _, True)).
Proof.
  unfold handleBidCreated, handleBidAccepted, handleBidCancelled, buildCountFromBid.
  split_and!; intros; inv_go.
Qed.

Lemma wf_handleTraded e block t : maintains wfWorld (handleTraded e block t) (λ _, True).
Proof.
  unfold handleTraded, getMarketplaceV3ContractData, tradedNFT, tradedItem, takeIssueLog,
    giveTo. inv_go.
Qed.

Lemma wf_dispatch q : maintains wfWorld (dispatch q) (λ _, True).
Proof.
  destruct wf_orders_handlers as (H1 & H2 & H3), wf_bids_handlers as (H4 & H5 & H6).
  unfold dispatch, dispatchMarket, dispatchIssue, with_transaction.
  destruct (qe_event q); repeat case_match;
  lazymatch goal with
  | |- maintains _ (mret _) _ => by apply maintains_ret
  | |- maintains _ (handleSetGlobalMinter _ _ _) _ => apply wf_handleSetGlobalMinter
  | |- maintains _ (handleSetItemMinter _ _ _) _ => apply wf_handleSetItemMinter
  | |- maintains _ (handleAddItem _ _ _ _) _ => apply wf_handleAddItem
  | |- maintains _ (handleRescueItem _ _ _ _) _ => apply wf_handleRescueItem
  | |- maintains _ (handleUpdateItemData _ _ _) _ => apply wf_handleUpdateItemData
  | |- maintains _ (handleSetApproved _ _ _ _) _ => apply wf_handleSetApproved
  | |- maintains _ (handleTraded _ _ _) _ => apply wf_handleTraded
  | |- maintains _ (handleOrderCreated _ _ _ _) _ => apply H1
  | |- maintains _ (handleOrderCancelled _ _) _ => apply H3
  | |- maintains _ (handleBidCreated _ _ _) _ => apply H4
  | |- maintains _ (handleBidCancelled _ _) _ => apply H6
  | |- maintains _ (mbind _ (gets caches)) _ =>
      inv_step; first [apply H2 | apply H5]
  | |- _ => idtac
  end.
  all: unfold handleSetGlobalManager, handleSetItemManager, handleTransferCreatorship,
    handleTransferOwnership, handleTransfer, handleSetEditable, handleCompleteCollection;
    inv_go.
Qed.

Lemma wf_dispatchAll : maintains wfWorld dispatchAll (λ _, True).
Proof.
  unfold dispatchAll, handleMemeberSet. pose proof wf_dispatch.
  repeat first [apply wf_dispatch | inv_step].
Qed.

Lemma wf_createCollections prefetched :
  maintains wfWorld (createCollections prefetched) (λ _, True).
Proof. unfold createCollections, handleCollectionCreation, buildCountFromCollection. inv_go. Qed.

(** ** Loading *)

(** The primary key of every table is the identifier. *)
Record dbKeyed (db : Database) : Prop := {
  dbk_accounts : keyed acc_id (db_accounts db);
  dbk_counts : keyed cnt_id (db_counts db);
  dbk_collections : keyed col_id (db_collections db);
  dbk_orders : keyed ord_id (db_orders db);
  dbk_bids : keyed bid_id (db_bids db);
  dbk_nfts : keyed nft_id (db_nfts db);
  dbk_analytics : keyed an_id (db_analytics db);
  dbk_itemDayDatas : keyed idd_id (db_itemDayDatas db);
  dbk_accountsDayDatas : keyed ad_id (db_accountsDayDatas db);
  dbk_items : keyed it_id (db_items db);
  dbk_wearables : keyed wr_id (db_wearables db);
  dbk_emotes : keyed em_id (db_emotes db);
  dbk_metadatas : keyed md_id (db_metadatas db)
}.

Lemma wf_getStoredData db ids : dbKeyed db → wf (getStoredData db ids).
Proof.
  intros []. unfold getStoredData, storedNFTs, storedOrders, storedItems, storedAccounts, find.
  split; simpl; first [by apply keyed_filter | apply keyed_fmap; [done|by apply keyed_filter]].
Qed.

Lemma wf_loadBatch db w :
  dbKeyed db → wfMemory (inMemoryData w) → wfWorld (loadBatch db w).2.
Proof.
  intros Hdb Hm. pose proof (wf_getStoredData db (inMemoryData w) Hdb) as Hs.
  unfold loadBatch. split; [|by destruct Hm].
  change (wf (set itemDayDatas
    (union (find (db_itemDayDatas db) (λ id _, bool_decide (id ∈
      resolvePlaceholders (nfts (getStoredData db (inMemoryData w)))
        (itemDayDataIds (inMemoryData w))))))
    (getStoredData db (inMemoryData w)))).
  apply filed_set; [done|]. apply keyed_union; [|by apply filed].
  apply keyed_filter, Hdb.
Qed.

(** C5.  The second pass of a batch keeps every map filed under the
    identifiers of its entities: what [toMapById] loaded so stays so through
    the collections created and all the events handled, completed or not. *)
Theorem secondPass_wellFormed db prefetched w :
  dbKeyed db → wfMemory (inMemoryData w) →
  wfWorld ((_ ← loadBatch db; _ ← createCollections prefetched; dispatchAll) w).2.
Proof.
  intros Hdb Hm. pose proof (wf_loadBatch db w Hdb Hm) as Hw.
  assert (loadBatch db w = (Ok tt, (loadBatch db w).2)) as E by reflexivity.
  rewrite (bind_ok _ _ _ _ _ E).
  enough (maintains wfWorld (_ ← createCollections prefetched; dispatchAll) (λ _, True))
    as Hd by (by apply Hd).
  eapply maintains_bind; [apply wf_createCollections|]. intros _ _. apply wf_dispatchAll.
Qed.
End handlers.

(** ** A batch on the sample database *)

#[local] Existing Instances Samples.env Samples.rpc.

(** The first pass has seen the purchase of the token. *)
Definition purchaseSeen : World :=
  Samples.emptyWorld <| inMemoryData ::= λ m,
    m <| tokenIds := {["0xc1" := [7]]} |> <| events := [Samples.purchased] |> |>.

Example secondPass_wellFormed_witness :
  let w := ((_ ← loadBatch Samples.database; _ ← createCollections ∅; dispatchAll)
             purchaseSeen).2 in
  wfWorld w ∧ (ord_status <$> orders (storedData w) !! "0x01") = Some status_sold.
Proof.
  split; [|vm_compute; reflexivity].
  apply secondPass_wellFormed; split; decided.
Defined.
