(* ===== verification/LedgerProofs.v ===== *)
(** * The ledger of a whole batch, and its sales

    What the accounts of a batch have spent exceeds what they have earned by an
    amount no event changes: the sales of a batch, whichever handler they come
    from, only move money.  A sale is filed under the number of sales the network has
    counted.  Over a batch the numbers only grow, so no sale of the batch overwrites
    another. *)

From S2P Require Import Prelude JsString Model Env State Common Metadata Analytics Nft.
From S2P Require Import Collection IssueLog Fees Bid RarityHandlers Marketplace Store.
From S2P Require Import Batch Processor Samples AnalyticsProofs.
Open Scope string_scope.
Open Scope list_scope.
Open Scope Z_scope.

(** The balance of the accounts, with the fee data sales are computed from. *)
Definition ledger (w : World) : Z * Caches := (imbalance w, caches w).

(** The cached royalties rates are unsigned. *)
Record ratesUnsigned (c : Caches) : Prop := {
  unsigned_V2 : ∀ r, m2_royaltiesCutPerMillion (c_marketplaceV2 c) = Some r → 0 ≤ r;
  unsigned_bidV2 : ∀ r, b2_royaltiesCutPerMillion (c_bidV2 c) = Some r → 0 ≤ r;
  unsigned_V3 : ∀ r, m3_royaltiesRate (c_marketplaceV3 c) = Some r → 0 ≤ r
}.

Lemma keeps_ledger {A} (m : M World A) :
  keeps imbalance m → keeps caches m → keeps ledger m.
Proof. intros H1 H2 w. unfold ledger. by rewrite (H1 w), (H2 w). Qed.

Lemma createOrLoadAccount_ledger address :
  keeps ledger (createOrLoadAccount address POLYGON).
Proof.
  apply keeps_ledger; [apply createOrLoadAccount_keeps_balance|]. by intros w.
Qed.

(** Assigning to an account what is neither earned nor spent. *)
Lemma mutate_account_ledger k f :
  (∀ acc, acc_spent (f acc) = acc_spent acc ∧ acc_earned (f acc) = acc_earned acc) →
  keeps ledger (mutate accounts k f).
Proof.
  intros Hf. apply keeps_ledger; [|by intros w]. intros w.
  unfold imbalance, totalSpent, totalEarned, mutate, modify. cbn [snd].
  change (accounts (storedData (set storedData (set accounts ?g) w)))
    with (g (accounts (storedData w))).
  rewrite !map_total_alter_same; [done| |]; intros acc _; apply Hf.
Qed.

Lemma buildCount_ledger network f : keeps ledger (buildCount network f).
Proof. by apply buildCount_keeps. Qed.

#[export] Hint Resolve createOrLoadAccount_ledger buildCount_ledger : frame.
#[export] Hint Extern 2 (steps _ (mutate accounts _ _)) =>
  (apply mutate_account_ledger; by intros ?) : frame.

Section ledger.
Context `{Env, Rpc}.

Lemma trackSale_ledger block a :
  0 ≤ sa_royaltiesCut a → keeps ledger (trackSale block a).
Proof.
  intros Hr. apply keeps_ledger; [by apply trackSale_keeps_imbalance|].
  unfold trackSale, countSale. repeat first [settle_part | frame_leaf | frame_step].
Qed.

(** *** Metadata *)

Lemma buildItemMetadata_ledger item : keeps ledger (buildItemMetadata item).
Proof.
  unfold buildItemMetadata, wearableMetadata, emoteMetadata, buildWearableItem,
    buildEmoteItem. frames.
Qed.

Lemma refreshMetadata_ledger item : keeps ledger (refreshMetadata item).
Proof.
  unfold refreshMetadata, setItemSearchFields, setItemWearableSearchFields,
    setItemEmoteSearchFields.
  frame_step; [apply buildItemMetadata_ledger|]. frames.
Qed.

Lemma setNFTSearchFields_ledger nft : keeps ledger (setNFTSearchFields nft).
Proof.
  unfold setNFTSearchFields, setNFTWearableSearchFields, setNFTEmoteSearchFields.
  frames.
Qed.

#[local] Hint Resolve buildItemMetadata_ledger refreshMetadata_ledger
  setNFTSearchFields_ledger : frame.

(** *** Handlers that sell nothing *)

Lemma handleTransfer_ledger a e block txHash :
  keeps ledger (handleTransfer a e block txHash).
Proof. unfold handleTransfer, handleTransferNFT. frames. Qed.

Lemma handleCollectionCreation_ledger block a u v t p :
  keeps ledger (handleCollectionCreation block a u v t p).
Proof. unfold handleCollectionCreation, buildCountFromCollection. frames. Qed.

Lemma handleSetGlobalMinter_ledger a e block :
  keeps ledger (handleSetGlobalMinter a e block).
Proof.
  unfold handleSetGlobalMinter, addGlobalMinter, removeGlobalMinter, listItem. frames.
Qed.

Lemma handleSetItemMinter_ledger a e block : keeps ledger (handleSetItemMinter a e block).
Proof. unfold handleSetItemMinter, listItem. frames. Qed.

Lemma handleAddItem_ledger block a e r : keeps ledger (handleAddItem block a e r).
Proof.
  unfold handleAddItem, itemCreationFee, buildCountFromItem, getOrCreateAnalyticsDayData. frames.
Qed.

Lemma handleRescueItem_ledger e block log t : keeps ledger (handleRescueItem e block log t).
Proof. unfold handleRescueItem, recordCuration. frames. Qed.

Lemma handleUpdateItemData_ledger a e block : keeps ledger (handleUpdateItemData a e block).
Proof. unfold handleUpdateItemData. frames. Qed.

Lemma handleSetApproved_ledger a v block t : keeps ledger (handleSetApproved a v block t).
Proof. unfold handleSetApproved. frames. Qed.

Lemma handleTransferCreatorship_ledger a c block :
  keeps ledger (handleTransferCreatorship a c block).
Proof. unfold handleTransferCreatorship. frames. Qed.

Lemma handleTransferOwnership_ledger a c block :
  keeps ledger (handleTransferOwnership a c block).
Proof. unfold handleTransferOwnership. frames. Qed.

Lemma handleOrderCreated_ledger e block a t : keeps ledger (handleOrderCreated e block a t).
Proof. unfold handleOrderCreated, buildCountFromOrder. frames. Qed.

Lemma handleOrderCancelled_ledger e block : keeps ledger (handleOrderCancelled e block).
Proof. unfold handleOrderCancelled. frames. Qed.

Lemma handleBidCreated_ledger e block a : keeps ledger (handleBidCreated e block a).
Proof. unfold handleBidCreated, buildCountFromBid. frames. Qed.

Lemma handleBidCancelled_ledger e block : keeps ledger (handleBidCancelled e block).
Proof. unfold handleBidCancelled. frames. Qed.

Lemma handleMemeberSet_ledger m v : keeps ledger (handleMemeberSet m v).
Proof. unfold handleMemeberSet. frames. Qed.

(** *** Handlers that sell *)

Lemma handleMintNFT_ledger e block t a item d tr :
  keeps ledger (handleMintNFT e block t a item d tr).
Proof.
  unfold handleMintNFT, buildCountFromNFT, received0, storeSale. frames.
  by apply trackSale_ledger.
Qed.

Lemma handleIssue_ledger a e block t d tr : keeps ledger (handleIssue a e block t d tr).
Proof.
  unfold handleIssue. frames. apply handleMintNFT_ledger.
Qed.

Lemma giveTo_ledger nftId buyer : keeps ledger (giveTo nftId buyer).
Proof. unfold giveTo. frames. Qed.

Lemma handleOrderSuccessful_ledger e block t d m2 :
  (∀ r, m2_royaltiesCutPerMillion m2 = Some r → 0 ≤ r) →
  keeps ledger (handleOrderSuccessful e block t d m2).
Proof.
  intros Hr. unfold handleOrderSuccessful.
  assert (∀ o d cut c r, orderFees o d m2 = Some (cut, c, r) → 0 ≤ r) as Hf.
  { intros o d' cut c r. unfold orderFees. case_decide; repeat case_match; naive_solver. }
  do 6 (first [frame_leaf | frame_step; try frame_leaf]).
  repeat lazymatch goal with
  | |- steps _ (giveTo _ _) => apply giveTo_ledger
  | |- steps _ (trackSale _ _) => fail
  | |- context [orderFees ?o ?d m2] =>
      pose proof (Hf o d) as Hf'; destruct (orderFees o d m2) as [[[? ?] ?]|]
  | |- _ => first [frame_leaf | frame_step]
  end.
  apply trackSale_ledger. by eapply Hf'.
Qed.

Lemma handleBidAccepted_ledger e block t d :
  (∀ r, b2_royaltiesCutPerMillion d = Some r → 0 ≤ r) →
  keeps ledger (handleBidAccepted e block t d).
Proof.
  intros Hr. unfold handleBidAccepted.
  repeat lazymatch goal with
  | |- steps _ (trackSale _ _) => fail
  | |- context [b2_royaltiesCutPerMillion d] =>
      destruct (b2_royaltiesCutPerMillion d) as [r|]; [specialize (Hr r eq_refl)|]
  | |- _ => first [frame_leaf | frame_step]
  end.
  by apply trackSale_ledger.
Qed.

(** *** Trades *)

Hypothesis rpc_royaltiesRate_unsigned :
  ∀ h a r, rpc_royaltiesRate h a = Ok r → 0 ≤ r.

(** The state a batch keeps: a fixed balance, and unsigned rates. *)
Definition balanced (z : Z) (w : World) : Prop :=
  imbalance w = z ∧ ratesUnsigned (caches w).

Lemma ledger_balanced z {A} (m : M World A) (φ : A → Prop) :
  keeps ledger m → (∀ a, φ a) → maintains (balanced z) m φ.
Proof.
  intros Hm Hφ w [Hz Hc]. specialize (Hm w). unfold ledger in Hm.
  injection Hm as H1 H2. split; [|done]. split; [congruence|]. by rewrite H2.
Qed.

Lemma getMarketplaceV3ContractData_balanced z block :
  maintains (balanced z) (getMarketplaceV3ContractData block) (λ d, 0 ≤ d.2).
Proof.
  unfold getMarketplaceV3ContractData.
  apply (maintains_bind _ _ _ (λ d, ∀ r, m3_royaltiesRate d = Some r → 0 ≤ r)).
  { apply maintains_gets. intros w [_ Hc]. apply Hc. }
  intros d Hd.
  destruct (m3_feeCollector d), (m3_feeRate d), (m3_royaltiesRate d) as [r|] eqn:E.
  1: by apply maintains_ret, Hd.
  all: eapply maintains_bind; [by apply (maintains_lift _ _ (λ _, True))|intros c _].
  all: eapply maintains_bind; [by apply (maintains_lift _ _ (λ _, True))|intros fr _].
  all: eapply maintains_bind;
    [apply (maintains_lift _ _ (λ r, 0 ≤ r)); eauto|intros rr Hrr].
  all: eapply maintains_bind; [|intros _ _; by apply maintains_ret].
  all: apply (maintains_modify _ _ (λ _, True)); [|done].
  all: intros w [Hz [H1 H2 H3]]; split; [exact Hz|]; split; try done.
  all: by intros ? [= <-].
Qed.

Lemma tradedNFT_ledger block t ty d fr c rr :
  0 ≤ rr → keeps ledger (tradedNFT block t ty d fr c rr).
Proof.
  intros Hr. unfold tradedNFT.
  repeat lazymatch goal with
  | |- steps _ (giveTo _ _) => apply giveTo_ledger
  | |- steps _ (trackSale _ _) => fail
  | |- _ => first [frame_leaf | frame_step]
  end.
  by apply trackSale_ledger.
Qed.

Lemma tradedItem_ledger block t e ty d fr c :
  keeps ledger (tradedItem block t e ty d fr c).
Proof.
  unfold tradedItem, takeIssueLog. frames. apply handleIssue_ledger.
Qed.

Lemma handleTraded_balanced z e block t :
  maintains (balanced z) (handleTraded e block t) (λ _, True).
Proof.
  unfold handleTraded. destruct (getTradeEventData e DCL_MATIC); [|by apply maintains_ret].
  eapply maintains_bind; [apply getMarketplaceV3ContractData_balanced|].
  intros [[c fr] rr] Hrr. apply ledger_balanced; [|done].
  repeat case_decide; [by apply tradedNFT_ledger|apply tradedItem_ledger|frames].
Qed.

(** *** The dispatch *)

Lemma dispatchMarket_balanced z q :
  maintains (balanced z) (dispatchMarket q) (λ _, True).
Proof.
  unfold dispatchMarket.
  assert (maintains (balanced z) (gets caches) ratesUnsigned) as Hc.
  { apply maintains_gets. by intros w []. }
  destruct (qe_event q) eqn:E; try (by apply maintains_ret);
    try (destruct (qe_hasMarketplaceData q); [|by apply maintains_ret];
         eapply maintains_bind; [exact Hc|intros c [H1 H2 H3]]);
    (apply ledger_balanced; [|done]).
  - apply handleOrderCreated_ledger.
  - by apply handleOrderSuccessful_ledger.
  - apply handleOrderCancelled_ledger.
  - apply handleBidCreated_ledger.
  - by apply handleBidAccepted_ledger.
  - apply handleBidCancelled_ledger.
Qed.

Lemma dispatchIssue_ledger q e : keeps ledger (dispatchIssue q e).
Proof. unfold dispatchIssue. frames. apply handleIssue_ledger. Qed.

Lemma dispatch_balanced z q : maintains (balanced z) (dispatch q) (λ _, True).
Proof.
  unfold dispatch, with_transaction.
  destruct (qe_event q) eqn:E; try apply dispatchMarket_balanced;
    repeat case_match; try (by apply maintains_ret); try apply handleTraded_balanced;
    (apply ledger_balanced; [|done]).
  - apply handleSetGlobalMinter_ledger.
  - unfold handleSetGlobalManager. frames.
  - apply handleSetItemMinter_ledger.
  - unfold handleSetItemManager. frames.
  - apply handleAddItem_ledger.
  - apply handleRescueItem_ledger.
  - apply handleUpdateItemData_ledger.
  - apply dispatchIssue_ledger.
  - apply handleSetApproved_ledger.
  - unfold handleSetEditable. frames.
  - unfold handleCompleteCollection. frames.
  - apply handleTransferCreatorship_ledger.
  - apply handleTransferOwnership_ledger.
  - apply steps_catch; [typeclasses eauto|apply handleTransfer_ledger|intros; frames].
Qed.

(** C1.  Over all the events of a batch, and whether or not they succeed, the
    accounts together spend exactly what they together earn: the difference
    of the two totals is what it was when the batch was loaded. *)
Theorem dispatchAll_balanced w :
  ratesUnsigned (caches w) → imbalance (dispatchAll w).2 = imbalance w.
Proof.
  intros Hc. assert (maintains (balanced (imbalance w)) dispatchAll (λ _, True)) as Hm.
  { unfold dispatchAll.
    eapply maintains_bind; [by apply (maintains_gets _ _ (λ _, True))|intros l _].
    eapply maintains_bind.
    { apply (maintains_for_each _ _ _ (λ _, True)); [done|].
      intros q _. apply dispatch_balanced. }
    intros _ _.
    eapply maintains_bind; [by apply (maintains_gets _ _ (λ _, True))|intros c _].
    apply maintains_for_each; [done|]. intros x _.
    apply ledger_balanced; [apply handleMemeberSet_ledger|done]. }
  by apply Hm.
Qed.
End ledger.

(** ** A batch with a primary sale and a purchase *)

#[local] Existing Instances Samples.env Samples.rpc.

(** The token of the sample history is listed and bought in one batch. *)
Definition purchaseBatch : World :=
  Samples.sold <| inMemoryData ::= set events (λ _, [Samples.listed; Samples.purchased]) |>.

Example dispatchAll_balanced_witness :
  imbalance (dispatchAll purchaseBatch).2 = imbalance purchaseBatch ∧
  totalSpent (dispatchAll purchaseBatch).2 = totalSpent purchaseBatch + 5000.
Proof.
  split; [|vm_compute; reflexivity].
  apply dispatchAll_balanced.
  - intros h a r [= <-]. lia.
  - split; vm_compute; intros r [= <-]; discriminate.
Defined.

Definition saleIdOf (n : Z) : string := pretty n +:+ "-" +:+ network_str POLYGON.

Lemma saleIdOf_inj n m : saleIdOf n = saleIdOf m → n = m.
Proof. unfold saleIdOf. intros Heq%app_inj_l. by apply (inj pretty) in Heq. Qed.

(** The sales of the batch so far are numbered, up to the count of sales, and
    include those in [S0]. *)
Record numberedSales (S0 : gmap string Sale) (w : World) : Prop := {
  ns_grow : S0 ⊆ sales (inMemoryData w);
  ns_ids : ∀ id s, sales (inMemoryData w) !! id = Some s →
    ∃ n, n ≤ cnt_salesTotal (polygonCount w) ∧ id = saleIdOf n;
  ns_keyed : keyed cnt_id (counts (storedData w))
}.

Lemma numberedSales_fresh S0 w :
  numberedSales S0 w → sales (inMemoryData w) !! nextSaleId w = None.
Proof.
  intros [_ Hids _]. destruct (_ !! nextSaleId w) as [s|] eqn:E; [|done].
  destruct (Hids _ _ E) as (n & Hn & Heq).
  apply (saleIdOf_inj (Z.succ _)) in Heq. lia.
Qed.

Section sales.
Context `{Env, Rpc} (S0 : gmap string Sale).

#[local] Abbreviation I := (numberedSales S0) (only parsing).

(** ** Counters *)

(** The state with the counter [c]. *)
Definition withCount (c : Count) (w : World) : World :=
  w <| storedData ::= set counts <[countKey POLYGON := c]> |>.

Lemma withCount_numbered c w :
  cnt_id c = countKey POLYGON → cnt_salesTotal (polygonCount w) ≤ cnt_salesTotal c →
  I w → I (withCount c w).
Proof.
  intros Hid Hle [H1 H2 H3]. split; [done| |by apply keyed_insert].
  intros id s Hs. destruct (H2 id s Hs) as (n & Hn & ->). exists n. split; [|done].
  unfold polygonCount, withCount. cbn. rewrite lookup_insert_eq. simpl. lia.
Qed.

Lemma buildCount_run f w :
  keyed cnt_id (counts (storedData w)) →
  ∃ w', buildCount POLYGON f w = (Ok (f (polygonCount w)), w') ∧
    (w' = w ∨ w' = withCount (f (polygonCount w)) w).
Proof.
  intros Hk. unfold buildCount, polygonCount, mbind, M_bind, map_get, gets.
  destruct (counts (storedData w) !! countKey POLYGON) as [c|] eqn:E; eexists;
    split; try reflexivity; [by right|by left].
Qed.

(** The assignments to a counter that is not a sale. *)
Definition noSale (f : Count → Count) : Prop :=
  ∀ c, cnt_id (f c) = cnt_id c ∧ cnt_salesTotal (f c) = cnt_salesTotal c.

Lemma polygonCount_id w :
  keyed cnt_id (counts (storedData w)) → cnt_id (polygonCount w) = countKey POLYGON.
Proof. intros Hk. by apply (keyed_default cnt_id). Qed.

Lemma buildCount_numbered f : noSale f → preserves I (buildCount POLYGON f).
Proof.
  intros Hf w Hw. destruct (buildCount_run f w (ns_keyed _ _ Hw)) as (w' & -> & [->| ->]);
    [done|]. destruct (Hf (polygonCount w)) as [Hid Ht].
  apply withCount_numbered; [|simpl; lia|done].
  rewrite Hid. apply polygonCount_id, Hw.
Qed.

(** A counter that is built and then put in the map. *)
Lemma storeCount_numbered {A} f (k : M World A) :
  noSale f → preserves I k →
  preserves I (c ← buildCount POLYGON f; _ ← map_set counts (cnt_id c) c; k).
Proof.
  intros Hf Hk w Hw.
  destruct (buildCount_run f w (ns_keyed _ _ Hw)) as (w' & E & Hw').
  rewrite (bind_ok _ _ _ _ _ E). erewrite bind_ok by reflexivity. apply Hk.
  destruct (Hf (polygonCount w)) as [Hid Ht].
  rewrite polygonCount_id in Hid by apply Hw. rewrite Hid.
  assert (I w' ∧ cnt_salesTotal (polygonCount w') = cnt_salesTotal (polygonCount w))
    as [HI HT].
  { destruct Hw' as [->| ->]; [done|]. split.
    - apply withCount_numbered; [done|simpl; lia|done].
    - unfold polygonCount at 1, withCount. cbn. by rewrite lookup_insert_eq. }
  apply (withCount_numbered (f (polygonCount w)) w'); [done|simpl; lia|done].
Qed.

(** The same when it ends the handler. *)
Lemma storeCount_last_numbered f :
  noSale f → preserves I (c ← buildCount POLYGON f; map_set counts (cnt_id c) c).
Proof.
  intros Hf w Hw. pose proof (storeCount_numbered f (mret tt) Hf) as Hs.
  specialize (Hs ltac:(by intros ?) w Hw).
  destruct (buildCount_run f w (ns_keyed _ _ Hw)) as (w' & E & _).
  rewrite (bind_ok _ _ _ _ _ E) in Hs. rewrite (bind_ok _ _ _ _ _ E). exact Hs.
Qed.

Lemma mutateCount_numbered f :
  noSale f → preserves I (mutate counts (countKey POLYGON) f).
Proof.
  intros Hf w [H1 H2 H3].
  assert (cnt_salesTotal (polygonCount (mutate counts (countKey POLYGON) f w).2) =
          cnt_salesTotal (polygonCount w)) as Ht.
  { unfold polygonCount, mutate, modify. cbn. rewrite lookup_alter_eq.
    destruct (counts (storedData w) !! countKey POLYGON); [apply Hf|done]. }
  split; [done| |].
  - intros id s Hs. destruct (H2 id s Hs) as (n & Hn & ->). exists n. by rewrite Ht.
  - apply keyed_alter; [intros c; apply Hf|done].
Qed.

(** ** Sales *)

Lemma settle_salesTotal a h item saleId sale cuts w :
  cnt_salesTotal (polygonCount (settle a h item (countKey POLYGON) saleId sale cuts w).2) =
  cnt_salesTotal (polygonCount w).
Proof.
  unfold polygonCount at 1. rewrite (settle_counts a h item saleId sale cuts w).
  rewrite lookup_alter_eq. unfold polygonCount.
  destruct (counts (storedData w) !! countKey POLYGON) as [c|]; [|done]. simpl.
  unfold settledCount. by case_decide.
Qed.

Lemma countedSale_numbered price w :
  I w → I (withCount (countedSale price (polygonCount w)) w).
Proof.
  intros Hw. apply withCount_numbered; [|simpl; lia|done].
  apply (polygonCount_id w), Hw.
Qed.

Lemma settle_keyed a h item saleId sale cuts w :
  keyed cnt_id (counts (storedData w)) →
  keyed cnt_id (counts (storedData
    (settle a h item (countKey POLYGON) saleId sale cuts w).2)).
Proof.
  intros Hk. rewrite (settle_counts a h item saleId sale cuts w).
  apply keyed_alter; [|done]. intros c. unfold settledCount. by case_decide.
Qed.

Lemma trackSale_numbered block a : preserves I (trackSale block a).
Proof.
  intros w Hw. unfold trackSale. case_decide; [done|].
  rewrite (bind_ok _ _ _ _ _ (countSale_run (sa_price a) w (ns_keyed _ _ Hw))).
  change (set storedData (set counts <[countKey POLYGON := ?c]>) w) with (withCount c w).
  pose proof (numberedSales_fresh _ _ Hw) as Hfresh.
  pose proof (countedSale_numbered (sa_price a) w Hw) as Hw1.
  assert (cnt_id (countedSale (sa_price a) (polygonCount w)) = countKey POLYGON) as ->
    by apply (polygonCount_id w), Hw.
  set (w1 := withCount _ w) in *.
  assert (cnt_salesTotal (polygonCount w1) = Z.succ (cnt_salesTotal (polygonCount w))) as Ht.
  { unfold polygonCount at 1, w1, withCount. cbn. by rewrite lookup_insert_eq. }
  unfold mbind at 1. unfold M_bind at 1. pose proof (saleItem_keeps id (sa_itemId a) (sa_nftId a) w1) as Hk.
  destruct (saleItem _ _ w1) as [[[[[h item] nft]|]|e] w2]; simpl in Hk; subst w2;
    try exact Hw1.
  cbv zeta. unfold mbind at 1. unfold M_bind at 1.
  pose proof (saleBuyer_keeps id block (sa_buyer a) nft w1) as Hk.
  destruct (saleBuyer _ _ _ w1) as [[buyer|e] w2]; simpl in Hk; subst w2; [|exact Hw1].
  set (cuts := saleCuts _ _ _ _).
  change (pretty (cnt_salesTotal (countedSale (sa_price a) (polygonCount w)))
    +:+ "-" +:+ network_str POLYGON) with (nextSaleId w).
  set (sale := saleOf _ _ _ _ _ _).
  change (I (settle a h item (countKey POLYGON) (nextSaleId w) sale cuts w1).2).
  pose proof (settle_sales a h item (countKey POLYGON) (nextSaleId w) sale cuts w1) as Hs.
  destruct Hw1 as [G1 G2 G3]. split; rewrite ?Hs.
  - etransitivity; [exact G1|]. by apply insert_subseteq.
  - rewrite settle_salesTotal, Ht. intros id s.
    destruct (decide (id = nextSaleId w)) as [->|Hne].
    + intros _. by exists (Z.succ (cnt_salesTotal (polygonCount w))).
    + rewrite lookup_insert_ne by done. intros Hid. destruct (G2 id s Hid) as (n & Hn & ->).
      exists n. split; [lia|done].
  - by apply settle_keyed.
Qed.

(** ** Handlers *)

Lemma noSale_countNFT c : noSale (countNFT c).
Proof. intros x. unfold countNFT. by destruct c. Qed.
Lemma noSale_countOrder c : noSale (countOrder c).
Proof. intros x. unfold countOrder. by destruct c. Qed.

#[local] Hint Resolve noSale_countNFT noSale_countOrder trackSale_numbered : frame.
#[local] Hint Extern 1 (noSale _) => (by intros ?) : frame.
#[local] Hint Extern 1 (steps _ (buildCount POLYGON _)) =>
  (apply buildCount_numbered) : frame.

Lemma numbered_elsewhere f :
  (∀ w, sales (inMemoryData (f w)) = sales (inMemoryData w) ∧
        counts (storedData (f w)) = counts (storedData w)) →
  preserves I (modify f).
Proof.
  intros Hf w [G1 G2 G3]. destruct (Hf w) as [E1 E2]. cbn [snd modify].
  split; unfold polygonCount in *; rewrite ?E1, ?E2; done.
Qed.

Ltac sales_go :=
  repeat lazymatch goal with
  | |- preserves _ _ => unfold preserves
  | |- steps _ (mbind (λ c, mbind _ (map_set counts (cnt_id c) c)) _) =>
      apply storeCount_numbered; [solve [auto with frame]|unfold preserves]
  | |- steps _ (mbind (λ c, map_set counts (cnt_id c) c) _) =>
      apply storeCount_last_numbered; solve [auto with frame]
  | |- steps _ (modify _) => apply numbered_elsewhere; by intros ?
  | |- steps _ (map_set _ _ _) => apply numbered_elsewhere; by intros ?
  | |- steps _ (mem_set _ _ _) => apply numbered_elsewhere; by intros ?
  | |- steps _ (mem_update _ _) => apply numbered_elsewhere; by intros ?
  | |- steps _ (mutate counts _ _) =>
      apply mutateCount_numbered; solve [auto with frame]
  | |- steps _ (mutate _ _ _) => apply numbered_elsewhere; by intros ?
  | |- _ => first [solve [eauto 3 with frame nocore] | frame_step]
  end.

Lemma createOrLoadAccount_numbered a : preserves I (createOrLoadAccount a POLYGON).
Proof. unfold createOrLoadAccount. sales_go. Qed.
#[local] Hint Extern 1 (steps _ (createOrLoadAccount _ POLYGON)) =>
  (apply createOrLoadAccount_numbered) : frame.

Lemma refreshMetadata_numbered item : preserves I (refreshMetadata item).
Proof.
  unfold refreshMetadata, setItemSearchFields, setItemWearableSearchFields,
    setItemEmoteSearchFields, buildItemMetadata, wearableMetadata, emoteMetadata,
    buildWearableItem, buildEmoteItem. sales_go.
Qed.
#[local] Hint Extern 1 (steps _ (refreshMetadata _)) =>
  (apply refreshMetadata_numbered) : frame.
#[local] Hint Extern 1 (steps _ (trackSale _ _)) => (apply trackSale_numbered) : frame.

Lemma handleIssue_numbered a e block t d tr : preserves I (handleIssue a e block t d tr).
Proof.
  unfold handleIssue, handleMintNFT, buildCountFromNFT, received0, storeSale,
    setNFTSearchFields, setNFTWearableSearchFields, setNFTEmoteSearchFields. sales_go.
Qed.
#[local] Hint Extern 1 (steps _ (handleIssue _ _ _ _ _ _)) =>
  (apply handleIssue_numbered) : frame.

Lemma giveTo_numbered n b : preserves I (giveTo n b).
Proof. unfold giveTo. sales_go. Qed.
#[local] Hint Extern 1 (steps _ (giveTo _ _)) => (apply giveTo_numbered) : frame.

Lemma dispatchMarket_numbered q : preserves I (dispatchMarket q).
Proof.
  unfold dispatchMarket. destruct (qe_event q); sales_go.
  - unfold handleOrderCreated, buildCountFromOrder. sales_go.
  - unfold handleOrderSuccessful. sales_go.
  - unfold handleOrderCancelled. sales_go.
  - unfold handleBidCreated, buildCountFromBid. sales_go.
  - unfold handleBidAccepted. sales_go.
  - unfold handleBidCancelled. sales_go.
Qed.

Lemma dispatchCollection_numbered :
  (∀ a e block, preserves I (handleSetGlobalMinter a e block)) ∧
  (∀ a e block, preserves I (handleSetItemMinter a e block)) ∧
  (∀ block a e r, preserves I (handleAddItem block a e r)) ∧
  (∀ e block log t, preserves I (handleRescueItem e block log t)) ∧
  (∀ a e block, preserves I (handleUpdateItemData a e block)) ∧
  (∀ e block t, preserves I (handleTraded e block t)).
Proof.
  split_and!; intros.
  - unfold handleSetGlobalMinter, addGlobalMinter, removeGlobalMinter, listItem. sales_go.
  - unfold handleSetItemMinter, listItem. sales_go.
  - unfold handleAddItem, itemCreationFee, buildCountFromItem,
      getOrCreateAnalyticsDayData. sales_go.
  - unfold handleRescueItem, recordCuration. sales_go.
  - unfold handleUpdateItemData. sales_go.
  - unfold handleTraded, getMarketplaceV3ContractData, tradedNFT, tradedItem,
      takeIssueLog. sales_go.
Qed.

Lemma dispatch_numbered q : preserves I (dispatch q).
Proof.
  destruct dispatchCollection_numbered as (G1 & G2 & G3 & G4 & G5 & G6).
  unfold dispatch, with_transaction.
  destruct (qe_event q); try apply dispatchMarket_numbered; repeat case_match;
    try (by intros ?); auto.
  - unfold handleSetGlobalManager. sales_go.
  - unfold handleSetItemManager. sales_go.
  - unfold dispatchIssue. sales_go.
  - unfold handleSetApproved. sales_go.
  - unfold handleSetEditable. sales_go.
  - unfold handleCompleteCollection. sales_go.
  - unfold handleTransferCreatorship. sales_go.
  - unfold handleTransferOwnership. sales_go.
  - unfold handleTransfer, handleTransferNFT. sales_go.
Qed.
End sales.

(** Handling events never overwrites a sale: every sale already recorded in
    the batch is still there, and every identifier in use is one the counter of
    sales has passed. *)
Theorem dispatch_keeps_sales `{Env, Rpc} l w :
  numberedSales ∅ w →
  sales (inMemoryData w) ⊆ sales (inMemoryData (for_each l dispatch w).2) ∧
  numberedSales ∅ (for_each l dispatch w).2.
Proof.
  intros [_ G2 G3].
  assert (numberedSales (sales (inMemoryData w)) (for_each l dispatch w).2) as [E1 E2 E3].
  { set (S0 := sales (inMemoryData w)) at 1.
    apply (steps_for_each (λ w w', numberedSales S0 w → numberedSales S0 w') l dispatch);
      [|done]. intros q _. apply dispatch_numbered. }
  split; [done|]. split; [|done..]. apply map_empty_subseteq.
Qed.

(** ** A second sale *)

#[local] Existing Instances Samples.env Samples.rpc.

Example dispatch_keeps_sales_witness :
  let w := (for_each [Samples.listed; Samples.purchased] dispatch Samples.sold).2 in
  sales (inMemoryData Samples.sold) ⊆ sales (inMemoryData w) ∧ numberedSales ∅ w ∧
  (sl_price <$> sales (inMemoryData w) !! "2-POLYGON") = Some 5000.
Proof.
  destruct (dispatch_keeps_sales [Samples.listed; Samples.purchased] Samples.sold) as [H1 H2].
  - split; [apply map_empty_subseteq| |decided].
    intros id s Hid. exists 1. split; [vm_compute; discriminate|].
    assert (map_Forall (λ id _, id = "1-POLYGON") (sales (inMemoryData Samples.sold))) as Hall
      by decided.
    by rewrite (Hall id s Hid).
  - split; [done|]. split; [done|]. vm_compute. reflexivity.
Defined.
