(* ===== verification/OrderBook.v ===== *)
(** * Order books

    What the handlers of both networks do to orders, over an interface of orders:
    an order is live while it is open, or suspended because its token was
    transferred; a token shows the order it is listed under.  The moves of a book
    (an order is created, ends, is suspended or resumed; a token appears) keep its
    live orders and its listings each other's inverse, on all tokens or on those where
    [P] holds, what the others show being live all the same ([consistent_on]).
    [OrderProofs] and [EthOrderProofs] show that the handlers are such moves. *)

From S2P Require Import Prelude Model.
Open Scope string_scope.
Open Scope list_scope.
Open Scope Z_scope.

(** ** Orders *)

(** What a book needs of an order: its status, the token it is about, its price;
    and a change of its status, which leaves the others. *)
Class BookOrder (Ord : Type) := {
  orderStatus : Ord → OrderStatus;
  orderToken : Ord → string;
  orderPrice : Ord → Z;
  withStatus : OrderStatus → Ord → Ord;
  orderStatus_withStatus s o : orderStatus (withStatus s o) = s;
  orderToken_withStatus s o : orderToken (withStatus s o) = orderToken o;
  orderPrice_withStatus s o : orderPrice (withStatus s o) = orderPrice o
}.

(** What the marketplaces themselves hold: each keeps one order per token. *)
Abbreviation Offers := (gmap (string * string) string).

Section book.
Context {Ord : Type} `{BookOrder Ord}.

Definition live (o : Ord) : Prop :=
  orderStatus o = status_open ∨ orderStatus o = status_transferred.

#[export] Instance live_dec o : Decision (live o).
Proof. unfold live. apply _. Defined.

(** What a token shows of its order. *)
Record Listing := mkListing {
  ls_order : option string;
  ls_status : option OrderStatus;
  ls_price : option Z
}.

Definition unlisted : Listing := mkListing None None None.

(** The book of a state: its orders, and the listing of every token. *)
Record Book := mkBook {
  bk_orders : gmap string Ord;
  bk_tokens : gmap string Listing
}.

(** An order that a token shows is live and as it is shown; and every live order
    of the tokens in [P] is shown, so that there the live orders and the listings
    are each other's inverse. *)
Record consistent_on (P : string → Prop) (b : Book) : Prop := {
  cs_live : ∀ id o, bk_orders b !! id = Some o → live o → P (orderToken o) →
    ∃ l, bk_tokens b !! orderToken o = Some l ∧ ls_order l = Some id;
  cs_listing : ∀ t l id o, bk_tokens b !! t = Some l → ls_order l = Some id →
    bk_orders b !! id = Some o →
    live o ∧ orderToken o = t ∧ ls_status l = Some (orderStatus o) ∧
    ls_price l = Some (orderPrice o)
}.

(** The same for every token. *)
Definition consistent : Book → Prop := consistent_on (λ _, True).

(** At most one live order per token. *)
Lemma consistent_unique P b id1 id2 o1 o2 :
  consistent_on P b → bk_orders b !! id1 = Some o1 → bk_orders b !! id2 = Some o2 →
  live o1 → live o2 → orderToken o1 = orderToken o2 → P (orderToken o1) → id1 = id2.
Proof.
  intros [Hl _] H1 H2 L1 L2 Ht HP.
  destruct (Hl _ _ H1 L1 HP) as (l1 & E1 & F1).
  destruct (Hl _ _ H2 L2) as (l2 & E2 & F2); [by rewrite <- Ht|]. congruence.
Qed.

Lemma consistent_weaken (P Q : string → Prop) b :
  (∀ t, Q t → P t) → consistent_on P b → consistent_on Q b.
Proof. intros HPQ [Hl Hs]. split; [|exact Hs]. intros id o Ho Lo HQ. by apply Hl, HPQ. Qed.

(** ** The moves of the book *)

(** Listing a token under a new order cancels the order it showed. *)
Definition book_create (id : string) (o : Ord) (cancel : Ord → Ord) (b : Book) : Book :=
  mkBook
    (<[id := o]> match bk_tokens b !! orderToken o ≫= ls_order with
                 | Some old => alter cancel old (bk_orders b)
                 | None => bk_orders b
                 end)
    (alter (λ _, mkListing (Some id) (Some (orderStatus o)) (Some (orderPrice o)))
       (orderToken o) (bk_tokens b)).

(** An order that ends leaves its token unlisted. *)
Definition book_close (id t : string) (f : Ord → Ord) (b : Book) : Book :=
  mkBook (alter f id (bk_orders b)) (alter (λ _, unlisted) t (bk_tokens b)).

(** A transfer of the token suspends its order, or resumes it. *)
Definition book_status (id t : string) (s : OrderStatus) (b : Book) : Book :=
  mkBook (alter (withStatus s) id (bk_orders b))
    (alter (λ l, mkListing (ls_order l) (Some s) (ls_price l)) t (bk_tokens b)).

(** A token is minted. *)
Definition book_mint (t : string) (b : Book) : Book :=
  mkBook (bk_orders b) (<[t := unlisted]> (bk_tokens b)).

Section moves.
Context (P : string → Prop) (b : Book) (Hb : consistent_on P b).

Lemma consistent_mint t :
  (∀ l, bk_tokens b !! t = Some l → ls_order l = None) → consistent_on P (book_mint t b).
Proof.
  intros Ht. destruct Hb as [Hl Hs]. split; simpl.
  - intros id o Ho Lo HP. destruct (Hl id o Ho Lo HP) as (l & El & Fl). exists l.
    rewrite lookup_insert_ne; [done|]. intros ->. specialize (Ht l El). congruence.
  - intros t' l id o. destruct (decide (t = t')) as [->|Hne].
    + rewrite lookup_insert_eq. by intros [= <-].
    + rewrite lookup_insert_ne by done. apply Hs.
Qed.

Lemma consistent_close id t f o :
  bk_orders b !! id = Some o → orderToken o = t → (P t → live o) → ¬ live (f o) →
  consistent_on P (book_close id t f b).
Proof.
  intros Ho <- Lo Hf. destruct Hb as [Hl Hs]. split; simpl.
  - intros id' o'. destruct (decide (id = id')) as [<-|Hne].
    + rewrite lookup_alter_eq, Ho. by intros [= <-].
    + rewrite lookup_alter_ne by done. intros Ho' Lo' HP.
      destruct (Hl id' o' Ho' Lo' HP) as (l & El & Fl). exists l.
      rewrite lookup_alter_ne; [done|]. intros Ht. apply Hne. rewrite <- Ht in HP.
      by apply (consistent_unique P b id id' o o'); auto.
  - intros t l id' o'. destruct (decide (orderToken o = t)) as [<-|Hne].
    + rewrite lookup_alter_eq. by destruct (bk_tokens b !! orderToken o); intros [= <-].
    + rewrite lookup_alter_ne by done. intros El Fl.
      rewrite lookup_alter_ne; [by apply Hs|].
      intros <-. by destruct (Hs t l id o El Fl Ho) as (_ & <- & _).
Qed.

Lemma consistent_status id t s l :
  bk_tokens b !! t = Some l → ls_order l = Some id → is_Some (bk_orders b !! id) →
  s = status_open ∨ s = status_transferred →
  consistent_on P (book_status id t s b).
Proof.
  intros El Fl [o Ho] Hstat. destruct Hb as [Hl Hs].
  destruct (Hs t l id o El Fl Ho) as (Lo & Ht & E1 & E2). split; simpl.
  - intros id' o'. destruct (decide (id = id')) as [<-|Hne].
    + rewrite lookup_alter_eq, Ho. intros [= <-] _ _. simpl.
      exists (mkListing (ls_order l) (Some s) (ls_price l)).
      by rewrite orderToken_withStatus, Ht, lookup_alter_eq, El.
    + rewrite lookup_alter_ne by done. intros Ho' Lo' HP.
      destruct (Hl id' o' Ho' Lo' HP) as (l' & El' & Fl').
      exists l'. rewrite lookup_alter_ne; [done|]. intros ->. congruence.
  - intros t' l' id' o'. destruct (decide (t = t')) as [<-|Hne].
    + rewrite lookup_alter_eq, El. intros [= <-] Fl'. simpl in Fl'.
      assert (id' = id) as -> by congruence.
      rewrite lookup_alter_eq, Ho. intros [= <-]. unfold live.
      rewrite orderStatus_withStatus, orderToken_withStatus, orderPrice_withStatus. by split_and!.
    + rewrite lookup_alter_ne by done. intros El' Fl'.
      destruct (decide (id = id')) as [<-|Hne'].
      * intros _. by destruct (Hs t' l' id o El' Fl' Ho) as (_ & <- & _).
      * rewrite lookup_alter_ne by done. by apply Hs.
Qed.

Lemma consistent_create id o cancel :
  (∀ t l, bk_tokens b !! t = Some l → ls_order l ≠ Some id) →
  is_Some (bk_tokens b !! orderToken o) →
  orderStatus o = status_open → (∀ x, live x → ¬ live (cancel x)) →
  consistent_on P (book_create id o cancel b).
Proof.
  intros Hid [l0 Hl0] Hopen Hcancel. destruct Hb as [Hl Hs]. unfold book_create.
  rewrite Hl0. simpl.
  set (os := match ls_order l0 with
             | Some old => alter cancel old (bk_orders b)
             | None => bk_orders b
             end).
  assert (∀ x ox, x ≠ id → os !! x = Some ox → live ox →
    bk_orders b !! x = Some ox ∧ ls_order l0 ≠ Some x) as Hos.
  { intros x ox Hx. unfold os. destruct (ls_order l0) as [old|] eqn:Hold; [|done].
    destruct (decide (old = x)) as [->|Hne].
    - rewrite lookup_alter_eq. destruct (bk_orders b !! x) as [oo|] eqn:E; [|done].
      intros [= <-] Lc. exfalso. apply (Hcancel oo); [|done].
      by apply (Hs _ _ _ _ Hl0 Hold E).
    - rewrite lookup_alter_ne by done. intros; split; congruence. }
  assert (∀ x, x ≠ id → ls_order l0 ≠ Some x → os !! x = bk_orders b !! x) as Hos'.
  { intros x Hx Hn. unfold os. destruct (ls_order l0) as [old|]; [|done].
    rewrite lookup_alter_ne; [done|]. congruence. }
  split; simpl.
  - intros id' o'. destruct (decide (id = id')) as [<-|Hne].
    + rewrite lookup_insert_eq. intros [= <-] _ _.
      exists (mkListing (Some id) (Some (orderStatus o)) (Some (orderPrice o))).
      by rewrite lookup_alter_eq, Hl0.
    + rewrite lookup_insert_ne by done. intros Ho' Lo' HP.
      destruct (Hos id' o' ltac:(done) Ho' Lo') as [Eo Hn].
      destruct (Hl id' o' Eo Lo' HP) as (l & El & Fl). exists l.
      rewrite lookup_alter_ne; [done|]. intros Heq. rewrite <- Heq in El. congruence.
  - intros t l id' o'. destruct (decide (orderToken o = t)) as [<-|Hne].
    + rewrite lookup_alter_eq, Hl0. intros [= <-]. simpl. intros [= <-].
      rewrite lookup_insert_eq. intros [= <-]. split_and!; try done. by left.
    + rewrite lookup_alter_ne by done. intros El Fl.
      destruct (decide (id = id')) as [<-|Hne'].
      * rewrite lookup_insert_eq. intros [= <-].
        by destruct (Hid t l El).
      * rewrite lookup_insert_ne by done.
        destruct (decide (ls_order l0 = Some id')) as [Heq|Hn].
        -- unfold os. rewrite Heq, lookup_alter_eq.
           destruct (bk_orders b !! id') as [oo|] eqn:E; [|done]. intros _.
           destruct (Hs _ _ _ _ El Fl E) as (_ & <- & _).
           by destruct (Hs _ _ _ _ Hl0 Heq E) as (_ & Ht & _).
        -- rewrite Hos' by done. by apply Hs.
Qed.
End moves.

(** ** Several marketplaces over one book *)

(** Another marketplace than [m] holds an order for the token. *)
Definition elsewhere (m t : string) (offers : Offers) : Offers :=
  filter (λ kv, kv.1.2 = t ∧ kv.1.1 ≠ m) offers.

(** The tokens that have been on offer at two marketplaces at once, once the
    marketplace [m] takes an order for [t]. *)
Definition overlapping (m t : string) (offers : Offers) (overlaps : gset string) : gset string :=
  if decide (elsewhere m t offers = ∅) then overlaps else {[t]} ∪ overlaps.

Lemma overlapping_mono m t offers overlaps t' :
  t' ∉ overlapping m t offers overlaps → t' ∉ overlaps.
Proof. unfold overlapping. case_decide; set_solver. Qed.

Lemma overlapping_elsewhere m t offers overlaps m' :
  t ∉ overlapping m t offers overlaps → is_Some (offers !! (m', t)) → m' = m.
Proof.
  unfold overlapping. case_decide as Hd; [|set_solver]. intros _ [id Hid].
  destruct (decide (m' = m)) as [|Hne]; [done|]. exfalso.
  by apply (map_empty_filter_1 _ _ Hd (m', t) id Hid).
Qed.

(** The book of an index agrees with what the marketplaces hold: an order they
    hold is about its token; and a token that was never on offer at two of them at
    once has, in the index, the order the one marketplace holds, live. *)
Record sound (offers : Offers) (overlaps : gset string) (b : Book) : Prop := {
  sd_book : consistent_on (λ t, t ∉ overlaps) b;
  sd_offer : ∀ m t id o, offers !! (m, t) = Some id → bk_orders b !! id = Some o →
    orderToken o = t ∧ (t ∉ overlaps → live o);
  sd_once : ∀ m1 m2 t, t ∉ overlaps →
    is_Some (offers !! (m1, t)) → is_Some (offers !! (m2, t)) → m1 = m2
}.

Section sound.
Context (offers : Offers) (overlaps : gset string) (b : Book) (Hb : sound offers overlaps b).

Lemma sound_forget k : sound (delete k offers) overlaps b.
Proof.
  destruct Hb as [Hc Ho H1]. split; [done| |].
  - intros m t id o [_ Hm]%lookup_delete_Some. by apply Ho with m.
  - intros m1 m2 t Ht [? [_ ?]%lookup_delete_Some] [? [_ ?]%lookup_delete_Some].
    by apply (H1 _ _ t).
Qed.

Lemma sound_mint t :
  (∀ l, bk_tokens b !! t = Some l → ls_order l = None) → sound offers overlaps (book_mint t b).
Proof. intros Ht. destruct Hb as [Hc Ho H1]. split; [by apply consistent_mint|done..]. Qed.

Lemma sound_status id t s l :
  bk_tokens b !! t = Some l → ls_order l = Some id → is_Some (bk_orders b !! id) →
  s = status_open ∨ s = status_transferred →
  sound offers overlaps (book_status id t s b).
Proof.
  intros El Fl Hid Hs. destruct Hb as [Hc Ho H1].
  split; [by apply (consistent_status _ _ Hc _ _ _ l)| |done].
  intros m t' id' o' Hm. simpl. rewrite lookup_alter. case_decide as Hd; [subst id'|by apply Ho with m].
  intros (o & E & ->)%fmap_Some_1. rewrite orderToken_withStatus. unfold live.
  rewrite orderStatus_withStatus. split; [by apply (Ho m t' id)|done].
Qed.

(** A marketplace ends the order it holds for a token. *)
Lemma sound_close m t id f o :
  offers !! (m, t) = Some id → bk_orders b !! id = Some o →
  orderToken (f o) = orderToken o → ¬ live (f o) →
  sound (delete (m, t) offers) overlaps (book_close id t f b).
Proof.
  intros Hm Hid Htok Hf. destruct (sd_offer _ _ _ Hb m t id o Hm Hid) as [Ht Hl].
  destruct (sound_forget (m, t)) as [Hc Ho H1]. split; [|simpl|done].
  { by apply (consistent_close _ _ Hc _ _ _ o). }
  intros m' t' id' o' Hm'. rewrite lookup_alter. case_decide as Hd; [subst id'|by apply Ho with m'].
  rewrite Hid. intros [= <-]. destruct (Ho m' t' id o Hm' Hid) as [Ht' _].
  rewrite Htok. split; [done|]. intros Hn. exfalso. apply lookup_delete_Some in Hm' as [Hne Hm'].
  apply Hne. f_equal; [|congruence]. apply (sd_once _ _ _ Hb m m' t'); [done|exists id; congruence|by exists id].
Qed.

(** A marketplace takes an order for a token. *)
Lemma sound_take m t id :
  bk_orders b !! id = None →
  sound (<[(m, t) := id]> offers) (overlapping m t offers overlaps) b.
Proof.
  intros Hid. destruct Hb as [Hc Ho H1]. split.
  - eapply consistent_weaken; [|exact Hc]. intros ?. apply overlapping_mono.
  - intros m' t' id' o [[_ <-]|[_ Hm']]%lookup_insert_Some Ho'; [congruence|].
    destruct (Ho m' t' id' o Hm' Ho') as [Ht Hl]. split; [done|].
    intros Hn. by apply Hl, (overlapping_mono m t offers).
  - assert (∀ m' t', t' ∉ overlapping m t offers overlaps →
      is_Some (<[(m, t) := id]> offers !! (m', t')) →
      t' = t ∧ m' = m ∨ t' ≠ t ∧ is_Some (offers !! (m', t'))) as Hcase.
    { intros m' t' Hn [i [[[= <- <-] _]|[Hne Hi]]%lookup_insert_Some]; [by left|].
      destruct (decide (t' = t)) as [->|Ht]; [left|right; split; [done|by exists i]].
      split; [done|]. by apply (overlapping_elsewhere m t offers overlaps); [|exists i]. }
    intros m1 m2 t' Hn E1 E2.
    destruct (Hcase m1 t' Hn E1) as [[? ->]|[? F1]], (Hcase m2 t' Hn E2) as [[? ->]|[? F2]];
      try done.
    apply (H1 _ _ t'); [by eapply overlapping_mono|done..].
Qed.

Lemma sound_create m id o cancel :
  bk_orders b !! id = None → (∀ k, offers !! k ≠ Some id) →
  (∀ t l, bk_tokens b !! t = Some l → ls_order l ≠ Some id) →
  is_Some (bk_tokens b !! orderToken o) →
  orderStatus o = status_open → (∀ x, live x → ¬ live (cancel x)) →
  (∀ x, orderToken (cancel x) = orderToken x) →
  sound (<[(m, orderToken o) := id]> offers) (overlapping m (orderToken o) offers overlaps)
    (book_create id o cancel b).
Proof.
  intros Hid Hoff Hshow Htok Hopen Hcancel Hkeep.
  destruct (sound_take m (orderToken o) id Hid) as [Hc Ho H1].
  split; [by apply consistent_create| |done].
  intros m' t' id' o' [[[= <- <-] <-]|[Hne Hm']]%lookup_insert_Some; simpl.
  { rewrite lookup_insert_eq. intros [= <-]. by split; [|left]. }
  assert (id ≠ id') as Hneq by (intros ->; by apply (Hoff (m', t'))).
  assert (∀ x, bk_orders b !! id' = Some x → orderToken x = t' ∧
    (t' ∉ overlapping m (orderToken o) offers overlaps → live x)) as Hother.
  { intros x Hx. apply (Ho m' t' id' x); [by rewrite lookup_insert_ne|done]. }
  rewrite lookup_insert_ne by done. intros Ho'.
  destruct (bk_tokens b !! orderToken o) as [l|] eqn:El; simpl in Ho'; [|by apply Hother].
  destruct (ls_order l) as [old|] eqn:Fl; [|by apply Hother].
  rewrite lookup_alter in Ho'. case_decide as Hd; [subst old|by apply Hother].
  destruct (bk_orders b !! id') as [x|] eqn:Ex; [|done]. injection Ho' as <-.
  destruct (sd_offer _ _ _ Hb m' t' id' x Hm' Ex) as [<- _].
  destruct (cs_listing _ _ (sd_book _ _ _ Hb) _ _ _ _ El Fl Ex) as (_ & Ht & _).
  rewrite Hkeep. split; [done|]. intros Hn. exfalso. apply Hne.
  rewrite Ht in Hm', Hn |- *. by rewrite (overlapping_elsewhere _ _ _ _ m' Hn) by by exists id'.
Qed.
End sound.

(** ** Books that show the same *)

(** The order a token shows; one that is not in the book shows none. *)
Definition shows (b : Book) (t : string) : Listing := default unlisted (bk_tokens b !! t).

(** Nothing happens but that tokens without an order appear. *)
Record grows (b b' : Book) : Prop := {
  gr_orders : bk_orders b' = bk_orders b;
  gr_shows : ∀ t, shows b' t = shows b t;
  gr_tokens : ∀ t, is_Some (bk_tokens b !! t) → is_Some (bk_tokens b' !! t)
}.

#[export] Instance grows_preorder : PreOrder grows.
Proof.
  split; [by split|]. intros b1 b2 b3 [O12 S12 T12] [O23 S23 T23]. split; [congruence| |auto].
  intros t. by rewrite S23.
Qed.

Lemma shows_order b t id :
  ls_order (shows b t) = Some id → ∃ l, bk_tokens b !! t = Some l ∧ ls_order l = Some id.
Proof. unfold shows. destruct (bk_tokens b !! t) as [l|]; [by exists l|done]. Qed.

Lemma consistent_grows P b b' : grows b b' → consistent_on P b → consistent_on P b'.
Proof.
  intros [HO HS HT] [Hl Hs]. split.
  - intros id o. rewrite HO. intros Ho Lo HP. destruct (Hl id o Ho Lo HP) as (l & El & Fl).
    apply shows_order. rewrite HS. unfold shows. by rewrite El.
  - intros t l id o El Fl. rewrite HO. intros Ho.
    assert (shows b t = l) as <- by (rewrite <- HS; unfold shows; by rewrite El).
    destruct (shows_order b t id Fl) as (l & El' & _). unfold shows in *. rewrite El' in *.
    by apply (Hs t l id o).
Qed.

(** ** Testing a book *)

(** What [cs_listing] says of one token, as a test. *)
Definition listingRight (b : Book) (t : string) (l : Listing) : Prop :=
  match ls_order l ≫= λ id, bk_orders b !! id with
  | Some o => live o ∧ orderToken o = t ∧ ls_status l = Some (orderStatus o) ∧
              ls_price l = Some (orderPrice o)
  | None => True
  end.

#[export] Instance listingRight_dec b t l : Decision (listingRight b t l).
Proof. unfold listingRight. destruct (_ ≫= _); apply _. Defined.

Lemma consistent_tests b :
  consistent b ↔
  map_Forall (λ id o, live o → (bk_tokens b !! orderToken o ≫= ls_order) = Some id)
    (bk_orders b) ∧
  map_Forall (listingRight b) (bk_tokens b).
Proof.
  split.
  - intros [H1 H2]. split.
    + intros id o Ho Lo. destruct (H1 id o Ho Lo I) as (l & -> & Hl). exact Hl.
    + intros t l Hl. unfold listingRight. destruct (ls_order l) as [id|] eqn:Hid; simpl; [|done].
      destruct (bk_orders b !! id) as [o|] eqn:Ho; [by apply (H2 t l id o)|done].
  - intros [H1 H2]. split.
    + intros id o Ho Lo _. specialize (H1 id o Ho Lo).
      destruct (bk_tokens b !! orderToken o) as [l|]; [by exists l|done].
    + intros t l id o Hl Hid Ho. specialize (H2 t l Hl). unfold listingRight in H2.
      rewrite Hid in H2. simpl in H2. by rewrite Ho in H2.
Qed.

#[export] Instance consistent_dec b : Decision (consistent b).
Proof.
  refine (cast_if (decide
    (map_Forall (λ id o, live o → (bk_tokens b !! orderToken o ≫= ls_order) = Some id)
       (bk_orders b) ∧ map_Forall (listingRight b) (bk_tokens b))));
    abstract by rewrite consistent_tests.
Defined.
End book.

#[global] Arguments Book : clear implicits.
