(* ===== verification/SupplyProofs.v ===== *)
(** * Supply of items and token identifiers

    What is issued and what is left of an item make up its maximum supply, and a
    token identifier carries its item and its issue number. *)

From S2P Require Import Prelude JsString Model Env State Common Metadata Analytics Nft.
From S2P Require Import Collection IssueLog Fees Bid RarityHandlers Marketplace Store Batch.
From S2P Require Import Processor Samples AnalyticsProofs.
Open Scope string_scope.
Open Scope list_scope.
Open Scope Z_scope.

(** ** Supply *)

(** What is issued and what is left make up the maximum supply. *)
Definition supplied (i : Item) : Prop := it_available i + it_totalSupply i = it_maxSupply i.

Definition allSupplied (w : World) : Prop :=
  ∀ k i, items (storedData w) !! k = Some i → supplied i.

Lemma supplied_get k :
  maintains allSupplied (map_get items k) (λ o, ∀ i, o = Some i → supplied i).
Proof. apply maintains_gets. intros w Hw i. apply Hw. Qed.

Lemma supplied_set k v : supplied v → maintains allSupplied (map_set items k v) (λ _, True).
Proof.
  intros Hv. apply maintains_modify; [|done]. intros w Hw j i. cbn.
  destruct (decide (k = j)) as [<-|Hne].
  - rewrite lookup_insert_eq. by intros [= <-].
  - rewrite lookup_insert_ne by done. apply Hw.
Qed.

Lemma supplied_mutate k f :
  (∀ i, supplied i → supplied (f i)) → maintains allSupplied (mutate items k f) (λ _, True).
Proof.
  intros Hf. apply maintains_modify; [|done]. intros w Hw j i. cbn.
  destruct (decide (k = j)) as [<-|Hne].
  - rewrite lookup_alter_eq. destruct (items _ !! k) as [i'|] eqn:E; [|done].
    intros [= <-]. by eapply Hf, Hw.
  - rewrite lookup_alter_ne by done. apply Hw.
Qed.

Lemma supplied_elsewhere f :
  (∀ w, items (storedData (f w)) = items (storedData w)) →
  maintains allSupplied (modify f) (λ _, True).
Proof.
  intros Hf. apply maintains_modify; [|done]. intros w Hw k i. rewrite Hf. apply Hw.
Qed.

Lemma supplied_keeps {A} (m : M World A) :
  keeps (λ w, items (storedData w)) m → maintains allSupplied m (λ _, True).
Proof. intros Hm w Hw. split; [|done]. intros k i. rewrite (Hm w). apply Hw. Qed.

#[local] Hint Extern 1 (maintains allSupplied (map_get items _) _) =>
  (apply supplied_get) : inv.
#[local] Hint Extern 1 (maintains allSupplied (mutate items _ _) _) =>
  (apply supplied_mutate; by intros ?) : inv.
#[local] Hint Extern 2 (maintains allSupplied _ _) =>
  (apply supplied_keeps; frames; fail) : inv.

Section supply.
Context `{Env, Rpc}.

Lemma buildItemMetadata_keeps_items item :
  keeps (λ w, items (storedData w)) (buildItemMetadata item).
Proof.
  unfold buildItemMetadata, wearableMetadata, emoteMetadata, buildWearableItem,
    buildEmoteItem. frames.
Qed.

Lemma refreshMetadata_supplied item :
  supplied item → maintains allSupplied (refreshMetadata item) supplied.
Proof.
  intros Hi. unfold refreshMetadata.
  eapply maintains_bind; [apply supplied_keeps, buildItemMetadata_keeps_items|intros m _].
  unfold setItemSearchFields, setItemWearableSearchFields, setItemEmoteSearchFields.
  repeat lazymatch goal with
  | |- maintains _ (mbind _ _) _ =>
      apply (maintains_bind _ _ _ (λ _, True)); [by apply maintains_gets|intros ? _]
  | |- maintains _ (match ?x with _ => _ end) _ => destruct x
  | |- maintains _ (mret _) _ => apply maintains_ret; unfold supplied in *; by repeat case_match
  end.
Qed.

Lemma trackSale_supplied block a : maintains allSupplied (trackSale block a) (λ _, True).
Proof.
  apply maintains_steps. unfold trackSale, countSale.
  assert (∀ A (m : M World A), keeps (λ w, items (storedData w)) m →
    steps (λ w w', allSupplied w → allSupplied w') m) as Hk.
  { intros A m Hm w Hw k i. rewrite (Hm w). apply Hw. }
  repeat lazymatch goal with
  | |- steps _ (mbind _ _) => frame_step
  | |- steps _ (match _ with _ => _ end) => frame_step
  | |- steps _ (mret _) => frame_step
  | |- steps _ (mutate_item ?h _) =>
      destruct h; [apply maintains_steps, supplied_mutate; by intros ?|by intros w]
  | |- _ => apply Hk; settle_part
  end.
Qed.
#[local] Hint Resolve trackSale_supplied : inv.
#[local] Hint Extern 1 (steps _ (buildCount _ _)) => (by apply buildCount_keeps) : frame.

Lemma createOrLoadAccount_keeps_items a n :
  keeps (λ w, items (storedData w)) (createOrLoadAccount a n).
Proof. by intros w. Qed.
#[local] Hint Resolve createOrLoadAccount_keeps_items : frame.

Lemma handleIssue_supplied a e block t d tr :
  maintains allSupplied (handleIssue a e block t d tr) (λ _, True).
Proof.
  unfold handleIssue. eapply maintains_bind; [apply supplied_get|].
  intros [i|] Hi; [|by apply maintains_ret]. specialize (Hi i eq_refl).
  eapply maintains_bind; [apply supplied_set|intros _ _].
  { unfold supplied in *. simpl. lia. }
  unfold handleMintNFT, buildCountFromNFT, received0, storeSale, setNFTSearchFields,
    setNFTWearableSearchFields, setNFTEmoteSearchFields, item_collection_id. inv_go.
Qed.
#[local] Hint Resolve handleIssue_supplied : inv.

(** *** The other handlers *)

Lemma flagItem_supplied k b i : supplied i → supplied (flagItem k b i).
Proof. by destruct k. Qed.
#[local] Hint Extern 1 (maintains allSupplied (mutate items _ (flagItem _ _)) _) =>
  (apply supplied_mutate; intros ?; apply flagItem_supplied) : inv.
#[local] Hint Extern 1 (maintains allSupplied (map_set items _ _) _) =>
  (apply supplied_set; assumption) : inv.

Lemma listItem_supplied block id i : maintains allSupplied (listItem block id i) (λ _, True).
Proof. unfold listItem. inv_go. Qed.
#[local] Hint Resolve listItem_supplied : inv.

Lemma handleSetGlobalMinter_supplied a e block :
  maintains allSupplied (handleSetGlobalMinter a e block) (λ _, True).
Proof. unfold handleSetGlobalMinter, addGlobalMinter, removeGlobalMinter. inv_go. Qed.

Lemma handleSetItemMinter_supplied a e block :
  maintains allSupplied (handleSetItemMinter a e block) (λ _, True).
Proof. unfold handleSetItemMinter, item_collection_id. inv_go. Qed.

(** An item is created with nothing issued. *)
Lemma handleAddItem_supplied block a e r :
  ai_totalSupply e = 0 → maintains allSupplied (handleAddItem block a e r) (λ _, True).
Proof.
  intros He. unfold handleAddItem, itemCreationFee, buildCountFromItem,
    getOrCreateAnalyticsDayData.
  inv_step; inv_step; [|by inv_go]. do 3 inv_step.
  eapply maintains_bind; [apply refreshMetadata_supplied|].
  { unfold supplied. simpl. lia. }
  intros item Hitem. inv_go.
Qed.

Lemma handleRescueItem_supplied e block log t :
  maintains allSupplied (handleRescueItem e block log t) (λ _, True).
Proof.
  unfold handleRescueItem, recordCuration. do 2 inv_step. inv_step; [|by inv_go].
  inv_step. eapply maintains_bind; [by apply refreshMetadata_supplied|intros item Hitem].
  inv_go.
Qed.

Lemma handleUpdateItemData_supplied a e block :
  maintains allSupplied (handleUpdateItemData a e block) (λ _, True).
Proof.
  unfold handleUpdateItemData. inv_step. inv_step; [|by inv_go].
  inv_step. eapply maintains_bind; [by apply refreshMetadata_supplied|intros item Hitem].
  inv_go.
Qed.

Lemma dispatchMarket_supplied q : maintains allSupplied (dispatchMarket q) (λ _, True).
Proof.
  unfold dispatchMarket. destruct (qe_event q); try by apply maintains_ret.
  - unfold handleOrderCreated, buildCountFromOrder. inv_go.
  - unfold handleOrderSuccessful, giveTo. inv_go.
  - unfold handleOrderCancelled. inv_go.
  - unfold handleBidCreated, buildCountFromBid. inv_go.
  - unfold handleBidAccepted. inv_go.
  - unfold handleBidCancelled. inv_go.
Qed.

Lemma dispatch_supplied q :
  (∀ e, qe_event q = EvAddItem e → ai_totalSupply e = 0) →
  maintains allSupplied (dispatch q) (λ _, True).
Proof.
  intros Hq. unfold dispatch, with_transaction.
  destruct (qe_event q) eqn:E; try apply dispatchMarket_supplied.
  - apply handleSetGlobalMinter_supplied.
  - unfold handleSetGlobalManager. inv_go.
  - apply handleSetItemMinter_supplied.
  - unfold handleSetItemManager. inv_go.
  - destruct (qe_rarities q); [|by apply maintains_ret]. by apply handleAddItem_supplied, Hq.
  - destruct (qe_transaction q); [|by apply maintains_ret].
    apply handleRescueItem_supplied.
  - apply handleUpdateItemData_supplied.
  - unfold dispatchIssue. inv_go.
  - unfold handleSetApproved. inv_go.
  - unfold handleSetEditable. inv_go.
  - unfold handleCompleteCollection. inv_go.
  - unfold handleTransferCreatorship. inv_go.
  - unfold handleTransferOwnership. inv_go.
  - unfold handleTransfer, handleTransferNFT. inv_go.
  - unfold handleTraded, getMarketplaceV3ContractData, tradedNFT, tradedItem, takeIssueLog,
      giveTo. inv_go.
Qed.

(** C6.  Whatever events are handled, every item keeps its supply: the copies
    issued and the copies left add up to the maximum supply, for the items
    loaded and for those added, whose contract starts with none issued. *)
Theorem dispatch_keeps_supply l w :
  (∀ q e, q ∈ l → qe_event q = EvAddItem e → ai_totalSupply e = 0) →
  allSupplied w → allSupplied (for_each l dispatch w).2.
Proof.
  intros Hl Hw.
  apply (maintains_for_each allSupplied l dispatch (λ _, True)); [done| |done].
  intros q Hq. apply dispatch_supplied. intros e. by apply Hl.
Qed.
End supply.

(** ** Token identifiers *)

Lemma lor_disjoint a b n : 0 ≤ n → 0 ≤ b < 2 ^ n → Z.lor (Z.shiftl a n) b = a * 2 ^ n + b.
Proof.
  intros Hn Hb. rewrite <- Z.shiftl_mul_pow2 by lia.
  rewrite <- Z.lxor_lor, Z.add_nocarry_lxor; [done| |];
    (apply Z.bits_inj'; intros i Hi; rewrite Z.land_spec, Z.shiftl_spec, Z.bits_0 by lia;
     destruct (decide (i < n)); [by rewrite Z.testbit_neg_r by lia|];
     replace b with (b mod 2 ^ n) by (by apply Z.mod_small);
     by rewrite Z.mod_pow2_bits_high, andb_false_r by lia).
Qed.

(** A token identifier encodes its item and its issue number: within the
    contract's bounds the encoding succeeds, fits 256 bits, and both numbers
    are recovered from it. *)
Theorem encodeTokenId_roundtrip itemId issuedId :
  0 ≤ itemId < 2 ^ 40 → 0 ≤ issuedId < 2 ^ 216 →
  ∃ tokenId, encodeTokenId itemId issuedId = Ok tokenId ∧
    0 ≤ tokenId < 2 ^ 256 ∧
    Z.shiftr tokenId 216 = itemId ∧ Z.land tokenId (Z.ones 216) = issuedId.
Proof.
  intros Hi Hs. exists (itemId * 2 ^ 216 + issuedId). unfold encodeTokenId.
  assert (MAX_ITEM_ID = 2 ^ 40 - 1) as HI by reflexivity.
  assert (MAX_ISSUED_ID = 2 ^ 240 - 1) as HS by reflexivity.
  assert (2 ^ 216 < 2 ^ 240) by (by apply Z.pow_lt_mono_r).
  rewrite !decide_False by lia. rewrite lor_disjoint by lia. split_and!; try done.
  - pose proof (Z.pow_pos_nonneg 2 216). nia.
  - assert (2 ^ 256 = 2 ^ 40 * 2 ^ 216) as -> by reflexivity. nia.
  - rewrite Z.shiftr_div_pow2 by lia. rewrite Z.div_add_l by lia.
    rewrite Z.div_small by lia. lia.
  - rewrite Z.land_ones by lia. rewrite Z.add_comm, Z_mod_plus_full. by apply Z.mod_small.
Qed.

(** The guards of the encoding reject an item number of more than 40 bits
    and an issue number of more than 240 bits, and nothing else: the second is
    24 bits wider than the 216 bits the encoding has for it, so two different
    issues are given the same token identifier. *)
Theorem encodeTokenId_guards :
  (∀ itemId issuedId, (∃ e, encodeTokenId itemId issuedId = Throw e) ↔
    2 ^ 40 ≤ itemId ∨ 2 ^ 240 ≤ issuedId) ∧
  (∃ tokenId, encodeTokenId 0 (2 ^ 216) = Ok tokenId ∧ encodeTokenId 1 0 = Ok tokenId).
Proof.
  split; [|eexists; split; vm_compute; reflexivity].
  intros itemId issuedId. unfold encodeTokenId.
  assert (MAX_ITEM_ID = 2 ^ 40 - 1) as HI by reflexivity.
  assert (MAX_ISSUED_ID = 2 ^ 240 - 1) as HS by reflexivity.
  repeat case_decide; split; try (intros [? [=]]); try (intros; lia); eauto.
Qed.

(** ** Two more copies of the sample item *)

#[local] Existing Instances Samples.env Samples.rpc.

Definition mintedAgain : QueuedEvent := Samples.queued 6 "0xc1" (EvIssue
  (mkIssueEventArgs "0xb3" 8 0 2 (CollectionStore getAddresses))).

Example dispatch_keeps_supply_witness :
  let w := (for_each [mintedAgain] dispatch Samples.sold).2 in
  allSupplied w ∧ (it_available <$> items (storedData w) !! "0xc1-0") = Some 0.
Proof.
  split; [|vm_compute; reflexivity]. apply dispatch_keeps_supply.
  - intros q e ->%list_elem_of_singleton [=].
  - assert (map_Forall (λ _ i, it_available i + it_totalSupply i = it_maxSupply i)
      (items (storedData Samples.sold))) as Hall by decided. exact Hall.
Defined.

Example encodeTokenId_roundtrip_witness :
  ∃ tokenId, encodeTokenId 5 9 = Ok tokenId ∧ 0 ≤ tokenId < 2 ^ 256 ∧
    Z.shiftr tokenId 216 = 5 ∧ Z.land tokenId (Z.ones 216) = 9.
Proof. apply encodeTokenId_roundtrip; split; (done || reflexivity). Defined.
