(* ===== verification/OrderProofs.v ===== *)
(** * The order book

    The marketplace handlers of Polygon are moves of the book of [OrderBook].  Two
    marketplaces feed it: what a token shows is live and its search columns agree; a
    token that was never on offer at both at once has one live order at most, the one
    it points at.  What each marketplace event and each transfer
    does to the book, event by event, and to the owner of the token. *)

From S2P Require Import Prelude JsString Model Env State Common Metadata Analytics Nft.
From S2P Require Import Collection IssueLog Fees Bid RarityHandlers Marketplace Store.
From S2P Require Import Batch Processor Samples AnalyticsProofs IssueLogProofs.
From S2P Require Import OrderBook.
Open Scope string_scope.
Open Scope list_scope.
Open Scope Z_scope.

(** ** The book of a state *)

#[export] Instance order_book : BookOrder Order.
Proof.
  refine {| orderStatus := ord_status;
            orderToken o := getNFTId (ord_nftAddress o) (pretty (ord_tokenId o)) None;
            orderPrice := ord_price;
            withStatus s o := o <| ord_status := s |> |}; done.
Defined.

Definition listing (nft : NFT) : Listing :=
  mkListing (nft_activeOrder nft) (nft_searchOrderStatus nft) (nft_searchOrderPrice nft).

(** Its orders, and the listing of every token. *)
Definition book (w : World) : Book Order :=
  mkBook (orders (storedData w)) (listing <$> nfts (storedData w)).

(** ** The handlers as moves *)

Lemma fmap_alter_listing (f : NFT → NFT) g k (m : gmap string NFT) :
  (∀ n, listing (f n) = g (listing n)) → listing <$> alter f k m = alter g k (listing <$> m).
Proof.
  intros Hf. apply map_eq. intros i. rewrite lookup_fmap.
  destruct (decide (k = i)) as [<-|Hne].
  - rewrite !lookup_alter_eq, lookup_fmap. destruct (m !! k); [|done]. simpl. by rewrite Hf.
  - by rewrite !lookup_alter_ne, lookup_fmap.
Qed.

Lemma book_mutate_nft k f g w :
  (∀ n, listing (f n) = g (listing n)) →
  book (mutate nfts k f w).2 = mkBook (bk_orders (book w)) (alter g k (bk_tokens (book w))).
Proof. intros Hf. unfold book. cbn. by rewrite (fmap_alter_listing f g). Qed.

Lemma mutate_nft_keeps_book k f :
  (∀ n, listing (f n) = listing n) → keeps book (mutate nfts k f).
Proof.
  intros Hf w. rewrite (book_mutate_nft k f id w Hf). unfold book. cbn. f_equal.
  by apply alter_id.
Qed.

Lemma mutate_account_keeps_book k f : keeps book (mutate accounts k f).
Proof. by intros w. Qed.

Section handlers.
Context `{Env, Rpc}.

Lemma createOrLoadAccount_keeps_book a : keeps book (createOrLoadAccount a POLYGON).
Proof. by intros w. Qed.

Lemma trackSale_keeps_book block a : keeps book (trackSale block a).
Proof.
  unfold trackSale, countSale.
  repeat lazymatch goal with
  | |- steps _ (mutate nfts _ _) => by apply mutate_nft_keeps_book
  | |- steps _ (mbind _ _) => frame_step
  | |- steps _ (match _ with _ => _ end) => frame_step
  | |- steps _ (mret _) => frame_step
  | |- _ => settle_part
  end.
Qed.
#[local] Hint Resolve createOrLoadAccount_keeps_book trackSale_keeps_book : frame.
#[local] Hint Extern 1 (steps _ (buildCount _ _)) => (by apply buildCount_keeps) : frame.
#[local] Hint Extern 1 (steps _ (mutate nfts _ _)) => (by apply mutate_nft_keeps_book) : frame.

Lemma giveTo_keeps_book n b : keeps book (giveTo n b).
Proof. unfold giveTo. frames. Qed.
#[local] Hint Resolve giveTo_keeps_book : frame.

Lemma book_token w token nft :
  nfts (storedData w) !! token = Some nft → bk_tokens (book w) !! token = Some (listing nft).
Proof. intros Hn. unfold book. cbn. by rewrite lookup_fmap, Hn. Qed.

Lemma token_listing w' token l :
  bk_tokens (book w') !! token = Some l →
  ∃ nft, nfts (storedData w') !! token = Some nft ∧ listing nft = l.
Proof.
  unfold book. cbn. rewrite lookup_fmap. destruct (nfts _ !! token); [|done].
  intros [= <-]. eauto.
Qed.

Lemma book_token_inv w token l :
  bk_tokens (book w) !! token = Some l → is_Some (nfts (storedData w) !! token).
Proof. unfold book. cbn. rewrite lookup_fmap. by destruct (nfts (storedData w) !! token). Qed.

Lemma handleOrderCreated_book e block a txHash w nft timestamp :
  let token := getNFTId (oc_nftAddress e) (pretty (oc_assetId e)) None in
  nfts (storedData w) !! token = Some nft →
  blk_timestamp block = timestamp * 1000 →
  book (handleOrderCreated e block a txHash w).2 =
  book_create (oc_id e) (newOrder e block a txHash nft timestamp)
    (λ o, cancelActiveOrder o timestamp) (book w).
Proof.
  intros token Hn Ht. unfold handleOrderCreated. fold token.
  erewrite bind_ok by reflexivity. rewrite Hn.
  rewrite (bind_ok _ _ _ _ _ (block_seconds_ok block w timestamp Ht)). cbv zeta.
  set (order := newOrder e block a txHash nft timestamp).
  set (g1 (b : Book Order) := mkBook match nft_activeOrder nft with
                      | Some old => alter (λ o, cancelActiveOrder o timestamp) old (bk_orders b)
                      | None => bk_orders b
                      end (bk_tokens b)).
  set (g2 (b : Book Order) := mkBook (bk_orders b) (alter (λ _, mkListing (Some (oc_id e))
    (Some (ord_status order)) (Some (ord_price order))) token (bk_tokens b))).
  set (g3 (b : Book Order) := mkBook (<[oc_id e := order]> (bk_orders b)) (bk_tokens b)).
  transitivity (g3 (g2 (g1 (book w)))).
  - match goal with |- book (?m w).2 = _ =>
      enough (acts book (λ b, g3 (g2 (g1 b))) m) as Hm by exact (Hm w)
    end.
    apply (acts_bind book _ _ g1 (λ b, g3 (g2 b))); [| |intros _].
    + by destruct (nft_activeOrder nft); eexists.
    + unfold g1. by destruct (nft_activeOrder nft).
    + apply (acts_bind book _ _ g2 g3); [by eexists| |intros _].
      { intros w'. by apply (book_mutate_nft token). }
      unfold buildCountFromOrder. apply acts_bind_l; [| |by intros _ ?].
      * apply returns_bind; [apply buildCount_returns|intros; apply returns_ret].
      * frames.
  - unfold book_create. change (orderToken order) with token.
    by rewrite (book_token _ _ _ Hn).
Qed.

Lemma listing_closed nft order :
  ord_status order = status_sold ∨ ord_status order = status_cancelled →
  listing (updateNFTOrderProperties nft order) = unlisted.
Proof. unfold updateNFTOrderProperties. by intros [-> | ->]. Qed.

(** A purchase: the order is sold and the token unlisted, whatever becomes of
    the sale. *)
Lemma handleOrderSuccessful_book e block txHash d m2 w order timestamp :
  let token := getNFTId (os_nftAddress e) (pretty (os_assetId e)) None in
  orders (storedData w) !! os_id e = Some order →
  blk_timestamp block = timestamp * 1000 →
  book (handleOrderSuccessful e block txHash d m2 w).2 =
  book_close (os_id e) token (λ o, sellOrder e block o <| ord_updatedAt := timestamp |>)
    (book w).
Proof.
  intros token Ho Ht. unfold handleOrderSuccessful. fold token.
  erewrite bind_ok by reflexivity. rewrite Ho.
  erewrite bind_ok by reflexivity. set (w1 := set storedData _ w).
  rewrite (bind_ok _ _ _ _ _ (block_seconds_ok block w1 timestamp Ht)). cbv zeta.
  erewrite bind_ok by reflexivity. set (w2 := set storedData _ w1).
  erewrite bind_ok by reflexivity.
  change (nfts (storedData w2)) with (nfts (storedData w)).
  assert (bk_orders (book w2) = alter (λ o, sellOrder e block o <| ord_updatedAt := timestamp |>)
    (os_id e) (bk_orders (book w))) as Hw2 by apply alter_alter_eq.
  destruct (nfts (storedData w) !! token) as [nft|] eqn:Hn.
  2: { transitivity (mkBook (bk_orders (book w2)) (bk_tokens (book w))); [done|].
       unfold book_close. rewrite Hw2. f_equal. symmetry. apply alter_id.
       unfold book. cbn [bk_tokens]. intros l. by rewrite lookup_fmap, Hn. }
  match goal with |- book (?m w2).2 = _ =>
    enough (acts book (λ b : Book Order, mkBook (bk_orders b) (alter (λ _, unlisted) token (bk_tokens b))) m)
      as Hm
  end.
  { rewrite (Hm w2). unfold book_close. by rewrite Hw2. }
  apply acts_bind_l; [|apply giveTo_keeps_book|intros _].
  { unfold giveTo. apply returns_bind; [apply returns_gets|].
    intros []; intros ?; by eexists. }
  apply acts_bind_r.
  { intros w'. apply (book_mutate_nft token). intros n. by apply listing_closed; left. }
  intros _. frames.
Qed.

Lemma handleOrderCancelled_book e block w order timestamp :
  let token := getNFTId (ox_nftAddress e) (pretty (ox_assetId e)) None in
  orders (storedData w) !! ox_id e = Some order →
  is_Some (nfts (storedData w) !! token) →
  blk_timestamp block = timestamp * 1000 →
  book (handleOrderCancelled e block w).2 =
  book_close (ox_id e) token (λ o, o <| ord_status := status_cancelled |>
    <| ord_blockNumber := blk_height block |> <| ord_updatedAt := timestamp |>) (book w).
Proof.
  intros token Ho [nft Hn] Ht. unfold handleOrderCancelled. fold token.
  do 2 erewrite bind_ok by reflexivity. rewrite Hn, Ho.
  erewrite bind_ok by reflexivity. set (w1 := set storedData _ w).
  rewrite (bind_ok _ _ _ _ _ (block_seconds_ok block w1 timestamp Ht)). cbv zeta.
  erewrite bind_ok by reflexivity. set (w2 := set storedData _ w1).
  rewrite (book_mutate_nft token _ (λ _, unlisted)).
  2: { intros n. by apply listing_closed; right. }
  unfold book_close. f_equal. unfold book, w2, w1. cbn.
  rewrite insert_insert_eq. apply map_eq. intros i.
  destruct (decide (ox_id e = i)) as [<-|Hne].
  - by rewrite lookup_insert_eq, lookup_alter_eq, Ho.
  - by rewrite lookup_insert_ne, lookup_alter_ne.
Qed.

(** A transfer: the order the token shows is resumed when the token is back
    with its seller, suspended otherwise. *)
Lemma handleTransferNFT_book a e block txHash w nft orderId order timestamp :
  let token := getNFTId a (pretty (te_tokenId e)) None in
  nfts (storedData w) !! token = Some nft →
  nft_activeOrder nft = Some orderId →
  orders (storedData w) !! orderId = Some order →
  blk_timestamp block = timestamp * 1000 →
  book (handleTransferNFT a e block txHash w).2 =
  book_status orderId token
    (orderStatusAfterTransfer order (acc_address (accountAt w (te_to e)))) (book w).
Proof.
  intros token Hn Ha Ho Ht. unfold handleTransferNFT.
  case_decide as Hd.
  { by destruct (pretty_Z_nonempty (te_tokenId e)). }
  fold token. erewrite bind_ok by reflexivity. rewrite Hn.
  rewrite (bind_ok _ _ _ _ _ (createOrLoadAccount_run (te_to e) w)).
  set (w1 := set storedData _ w). set (owner := accountAt w (te_to e)).
  rewrite (bind_ok _ _ _ _ _ (block_seconds_ok block w1 timestamp Ht)).
  do 2 erewrite bind_ok by reflexivity. rewrite Ha.
  erewrite bind_ok by reflexivity.
  match goal with |- context [orders (storedData ?w') !! orderId] =>
    change (orders (storedData w')) with (orders (storedData w)) end.
  rewrite Ho. cbv zeta.
  erewrite bind_ok by reflexivity. set (status := orderStatusAfterTransfer _ _).
  rewrite (book_mutate_nft token _ (λ l, mkListing (ls_order l) (Some status) (ls_price l)));
    [|done].
  unfold book_status, book. cbn. f_equal.
  rewrite (fmap_alter_listing _ (λ l, l)) by done. by rewrite (alter_id (λ l : Listing, l)).
Qed.

(** ** The marketplaces and what they emit *)

(** A token that no order lists. *)
Definition unlistedToken (t : string) (b : Book Order) : Prop :=
  ∀ l, bk_tokens b !! t = Some l → ls_order l = None.

(** The index, what the marketplaces that feed it hold, and the tokens that were
    once on offer at two of them at the same time. *)
Record Market := mkMarket {
  mkt_index : World;
  mkt_offers : Offers;
  mkt_overlaps : gset string
}.

(** The marketplace an event is from, and the token it is about. *)
Definition from (q : QueuedEvent) : string := log_address (qe_log q).

Definition createdToken (e : OrderCreatedEventArgs) : string :=
  getNFTId (oc_nftAddress e) (pretty (oc_assetId e)) None.

Definition soldToken (e : OrderSuccessfulEventArgs) : string :=
  getNFTId (os_nftAddress e) (pretty (os_assetId e)) None.

Definition cancelledToken (e : OrderCancelledEventArgs) : string :=
  getNFTId (ox_nftAddress e) (pretty (ox_assetId e)) None.

(** An order identifier that occurs nowhere yet. *)
Definition unused (id : string) (s : Market) : Prop :=
  bk_orders (book (mkt_index s)) !! id = None ∧ (∀ k, mkt_offers s !! k ≠ Some id) ∧
  ∀ t l, bk_tokens (book (mkt_index s)) !! t = Some l → ls_order l ≠ Some id.

(** What the contracts guarantee of the next event: a block is stamped in
    whole seconds, an order identifier is used once, a marketplace executes or
    cancels the order it holds for the token, and only new tokens are minted.
    Nothing is assumed of what one marketplace knows of another. *)
Definition admissible (s : Market) (q : QueuedEvent) : Prop :=
  (∃ t, blk_timestamp (bd_header (qe_block q)) = t * 1000) ∧
  match qe_event q with
  | EvOrderCreated e => unused (oc_id e) s
  | EvOrderSuccessful e => mkt_offers s !! (from q, soldToken e) = Some (os_id e)
  | EvOrderCancelled e => mkt_offers s !! (from q, cancelledToken e) = Some (ox_id e)
  | EvIssue e =>
      unlistedToken (getNFTId (log_address (qe_log q)) (pretty (is_tokenId e)) None)
        (book (mkt_index s))
  | EvTraded e =>
      ∀ d l i, getTradeEventData e DCL_MATIC = Some d → l ∈ bd_logs (qe_block q) →
        log_event l = EvIssue i →
        unlistedToken (getNFTId (tdd_collectionAddress d) (pretty (is_tokenId i)) None)
          (book (mkt_index s))
  | _ => True
  end.

(** What the marketplaces hold after an event. *)
Definition offersAfter (q : QueuedEvent) (offers : Offers) : Offers :=
  match qe_event q with
  | EvOrderCreated e => <[(from q, createdToken e) := oc_id e]> offers
  | EvOrderSuccessful e => delete (from q, soldToken e) offers
  | EvOrderCancelled e => delete (from q, cancelledToken e) offers
  | _ => offers
  end.

Definition overlapsAfter (q : QueuedEvent) (s : Market) : gset string :=
  match qe_event q with
  | EvOrderCreated e => overlapping (from q) (createdToken e) (mkt_offers s) (mkt_overlaps s)
  | _ => mkt_overlaps s
  end.

(** The event happens at the contracts and is indexed. *)
Definition happens (q : QueuedEvent) (s : Market) : Market :=
  mkMarket (dispatch q (mkt_index s)).2 (offersAfter q (mkt_offers s)) (overlapsAfter q s).

Definition market_sound (s : Market) : Prop :=
  sound (mkt_offers s) (mkt_overlaps s) (book (mkt_index s)).

(** ** Minting *)

Lemma refreshMetadata_keeps_book item : keeps book (refreshMetadata item).
Proof.
  unfold refreshMetadata, setItemSearchFields, setItemWearableSearchFields,
    setItemEmoteSearchFields, buildItemMetadata, wearableMetadata, emoteMetadata,
    buildWearableItem, buildEmoteItem. frames.
Qed.
#[local] Hint Resolve refreshMetadata_keeps_book : frame.

Lemma setNFTSearchFields_listing nft :
  maintains (λ _, True) (setNFTSearchFields nft) (λ n, listing n = listing nft).
Proof.
  unfold setNFTSearchFields, setNFTWearableSearchFields, setNFTEmoteSearchFields.
  repeat lazymatch goal with
  | |- maintains _ (mbind _ _) _ =>
      apply (maintains_bind _ _ _ (λ _, True)); [by apply maintains_gets|intros ? _]
  | |- maintains _ (match ?x with _ => _ end) _ => destruct x
  | |- maintains _ (mret _) _ => by apply maintains_ret
  end.
Qed.

Lemma setNFTSearchFields_keeps {T} (π : World → T) nft : keeps π (setNFTSearchFields nft).
Proof.
  unfold setNFTSearchFields, setNFTWearableSearchFields, setNFTEmoteSearchFields. frames.
Qed.

Section sound_handlers.
Context (offers : Offers) (overlaps : gset string).

(** A book that agrees with the marketplaces, with [t] unlisted. *)
Definition ready (t : string) (w : World) : Prop :=
  sound offers overlaps (book w) ∧ unlistedToken t (book w).

Lemma keeps_ready t {A} (m : M World A) :
  keeps book m → maintains (ready t) m (λ _, True).
Proof. intros Hm w Hw. split; [|done]. unfold ready. by rewrite (Hm w). Qed.

Lemma handleMintNFT_ready e block tx a item d tr :
  maintains (ready (getNFTId a (pretty (is_tokenId e)) None))
    (handleMintNFT e block tx a item d tr) (λ _, True).
Proof.
  unfold handleMintNFT. set (token := getNFTId _ _ _).
  eapply maintains_bind; [apply keeps_ready; frames|intros [c|] _; [|by apply maintains_ret]].
  eapply maintains_bind; [apply keeps_ready; frames|intros owner _].
  eapply maintains_bind; [apply keeps_ready; frames|intros timestamp _].
  eapply (maintains_bind _ _ _ (λ n, listing n = unlisted)).
  { intros w Hw. split.
    - unfold ready. rewrite (setNFTSearchFields_keeps book _ w). exact Hw.
    - by apply setNFTSearchFields_listing. }
  intros nft Hnft.
  eapply maintains_bind; [apply keeps_ready; frames|intros owner' _].
  eapply maintains_bind; [apply keeps_ready; unfold buildCountFromNFT; frames|intros m _].
  eapply maintains_bind; [apply keeps_ready; frames|intros _ _].
  apply (maintains_bind _ _ _ (λ _, True)).
  - apply maintains_modify; [|done]. intros w [Hc Hu].
    assert (book (set storedData (set nfts <[token := nft]>) w) = book_mint token (book w))
      as Hb.
    { unfold book_mint, book. cbn. by rewrite fmap_insert, Hnft. }
    unfold ready. rewrite Hb. split; [by apply sound_mint|].
    intros l. simpl. rewrite lookup_insert_eq. by intros [= <-].
  - intros _ _. apply keeps_ready. unfold received0, storeSale. frames.
Qed.

Lemma handleIssue_ready a e block tx d tr :
  maintains (ready (getNFTId a (pretty (is_tokenId e)) None))
    (handleIssue a e block tx d tr) (λ _, True).
Proof.
  unfold handleIssue.
  eapply maintains_bind; [apply keeps_ready; frames|intros [i|] _; [|by apply maintains_ret]].
  eapply maintains_bind; [apply keeps_ready; frames|intros _ _].
  eapply maintains_bind; [apply handleMintNFT_ready|intros _ _].
  apply keeps_ready. frames.
Qed.

(** ** Every handler keeps the book sound *)

Lemma keeps_sound {A} (m : M World A) w :
  keeps book m → sound offers overlaps (book w) → sound offers overlaps (book (m w).2).
Proof. intros Hm Hw. by rewrite (Hm w). Qed.

Lemma handleOrderCreated_sound e block a txHash t w m :
  blk_timestamp block = t * 1000 →
  unused (oc_id e) (mkMarket w offers overlaps) →
  sound offers overlaps (book w) →
  sound (<[(m, createdToken e) := oc_id e]> offers)
    (overlapping m (createdToken e) offers overlaps)
    (book (handleOrderCreated e block a txHash w).2).
Proof.
  intros Ht (Hid & Hoff & Hshow) Hw.
  destruct (nfts (storedData w) !! createdToken e) as [nft|] eqn:Hn.
  - rewrite (handleOrderCreated_book _ _ _ _ _ nft t Hn Ht).
    apply (sound_create offers overlaps (book w) Hw m (oc_id e)
      (newOrder e block a txHash nft t)); try done.
    + exists (listing nft). by apply book_token.
    + intros o [Lo|Lo]; simpl in Lo; unfold cancelActiveOrder; rewrite Lo; by intros [|].
    + intros o. unfold cancelActiveOrder. by case_match.
  - unfold handleOrderCreated. fold (createdToken e). erewrite bind_ok by reflexivity.
    rewrite Hn. by apply sound_take.
Qed.

Lemma handleOrderSuccessful_sound e block txHash d m2 t w m :
  blk_timestamp block = t * 1000 →
  offers !! (m, soldToken e) = Some (os_id e) →
  sound offers overlaps (book w) →
  sound (delete (m, soldToken e) offers) overlaps
    (book (handleOrderSuccessful e block txHash d m2 w).2).
Proof.
  intros Ht Hm Hw. destruct (orders (storedData w) !! os_id e) as [o|] eqn:Ho.
  - rewrite (handleOrderSuccessful_book _ _ _ _ _ _ o t Ho Ht).
    apply (sound_close _ _ _ Hw _ _ _ _ o); try done. by intros [|].
  - unfold handleOrderSuccessful. erewrite bind_ok by reflexivity. rewrite Ho.
    by apply sound_forget.
Qed.

Lemma handleOrderCancelled_sound e block t w m :
  blk_timestamp block = t * 1000 →
  offers !! (m, cancelledToken e) = Some (ox_id e) →
  sound offers overlaps (book w) →
  sound (delete (m, cancelledToken e) offers) overlaps
    (book (handleOrderCancelled e block w).2).
Proof.
  intros Ht Hm Hw. destruct (nfts (storedData w) !! cancelledToken e) as [nft|] eqn:Hn;
    [destruct (orders (storedData w) !! ox_id e) as [o|] eqn:Ho|].
  - rewrite (handleOrderCancelled_book _ _ _ o t Ho (mk_is_Some _ _ Hn) Ht).
    apply (sound_close _ _ _ Hw _ _ _ _ o); try done. by intros [|].
  - unfold handleOrderCancelled. do 2 erewrite bind_ok by reflexivity.
    fold (cancelledToken e). rewrite Hn, Ho. by apply sound_forget.
  - unfold handleOrderCancelled. do 2 erewrite bind_ok by reflexivity.
    fold (cancelledToken e). rewrite Hn. by apply sound_forget.
Qed.

Lemma handleTransferNFT_sound a e block txHash t w :
  blk_timestamp block = t * 1000 →
  sound offers overlaps (book w) → sound offers overlaps (book (handleTransferNFT a e block txHash w).2).
Proof.
  intros Ht Hw. set (token := getNFTId a (pretty (te_tokenId e)) None).
  destruct (nfts (storedData w) !! token) as [nft|] eqn:Hn.
  2: { unfold handleTransferNFT. case_decide; [done|]. fold token.
       erewrite bind_ok by reflexivity. by rewrite Hn. }
  destruct (nft_activeOrder nft) as [id|] eqn:Ha.
  2: { unfold handleTransferNFT. case_decide; [done|]. fold token.
       erewrite bind_ok by reflexivity. rewrite Hn, Ha.
       match goal with |- sound offers overlaps (book (?m w).2) =>
         enough (keeps book m) as Hm by (by rewrite (Hm w)) end. frames. }
  destruct (orders (storedData w) !! id) as [o|] eqn:Ho.
  - rewrite (handleTransferNFT_book _ _ _ _ _ nft id o t Hn Ha Ho Ht).
    apply (sound_status _ _ _ Hw _ _ _ (listing nft)); try done.
    + by apply book_token.
    + unfold orderStatusAfterTransfer. case_decide; [by left|by right].
  - unfold handleTransferNFT. case_decide; [done|]. fold token.
    erewrite bind_ok by reflexivity. rewrite Hn.
    rewrite (bind_ok _ _ _ _ _ (createOrLoadAccount_run (te_to e) w)).
    set (w1 := set storedData _ w).
    rewrite (bind_ok _ _ _ _ _ (block_seconds_ok block w1 t Ht)).
    erewrite bind_ok by reflexivity. set (w2 := set storedData _ w1).
    erewrite bind_ok by reflexivity. set (w3 := set inMemoryData _ w2).
    rewrite Ha. erewrite bind_ok by reflexivity.
    change (orders (storedData w3)) with (orders (storedData w)). rewrite Ho.
    assert (book w3 = book w) as Hb.
    { apply (mutate_nft_keeps_book token (λ nft, nft
        <| nft_owner := Some (account_ref (accountAt w (te_to e))) |>
        <| nft_ownerAddress := acc_address (accountAt w (te_to e)) |>
        <| nft_updatedAt := t |> <| nft_transferredAt := t |>) ltac:(done) w1). }
    simpl. by rewrite Hb.
Qed.

Lemma handleTraded_sound e block tx w :
  (∀ d l i, getTradeEventData e DCL_MATIC = Some d → l ∈ bd_logs block → log_event l = EvIssue i →
    unlistedToken (getNFTId (tdd_collectionAddress d) (pretty (is_tokenId i)) None) (book w)) →
  sound offers overlaps (book w) → sound offers overlaps (book (handleTraded e block tx w).2).
Proof.
  intros Hu Hw. unfold handleTraded. destruct (getTradeEventData e DCL_MATIC) as [d|]; [|done].
  specialize (λ l i, Hu d l i eq_refl).
  set (I w := sound offers overlaps (book w) ∧ ∀ l i, l ∈ bd_logs block → log_event l = EvIssue i →
    unlistedToken (getNFTId (tdd_collectionAddress d) (pretty (is_tokenId i)) None) (book w)).
  assert (∀ A (m : M World A), keeps book m → maintains I m (λ _, True)) as HI.
  { intros A m Hm w' Hw'. split; [|done]. unfold I. by rewrite (Hm w'). }
  apply (maintains_post I (λ w, sound offers overlaps (book w)) _ _ (λ _, True)); [|by intros ? []| |done].
  { apply HI. unfold getMarketplaceV3ContractData. frames. }
  intros [[c fr] rr] w1 _ Hw1. case_decide; [|case_decide; [|apply Hw1]].
  - apply (keeps_sound _ w1); [|apply Hw1]. unfold tradedNFT. frames.
  - unfold tradedItem. destruct (tdd_itemId d) as [itemId|]; [|apply Hw1].
    apply (maintains_post I (λ w, sound offers overlaps (book w)) _ _
      (λ o, ∀ l, o = Some l → l ∈ bd_logs block)); [|by intros ? []| |done].
    { intros w' Hw'. split.
      { apply (HI _ (takeIssueLog _ _)); [unfold takeIssueLog; frames|done]. }
      unfold takeIssueLog, selectIssueLogForTrade, mbind, M_bind, gets, id.
      destruct (chooseIssueLog _ _ _) as [l|] eqn:E; intros o [= <-] l' [= <-].
      by apply chooseIssueLog_elem in E. }
    intros [l|] w2 Hl Hw2; [|apply Hw2]. specialize (Hl l eq_refl).
    destruct (log_event l) as [| | | | | | | | | | | | | | | | | | |i| | | | | | | | | | | | | | |] eqn:E;
      try apply Hw2.
    apply (maintains_post I (λ w, sound offers overlaps (book w)) _ _ (λ _, True)); [|by intros ? []| |done].
    { apply HI. frames. }
    intros leg w3 _ [Hc3 Hu3].
    by apply (handleIssue_ready (tdd_collectionAddress d)
      (mkIssueEventArgs (ta_beneficiary leg) (is_tokenId i) itemId (is_issuedId i)
        (tradedAddress (bd_logs block) (tx_transactionIndex tx)))
      (bd_header block) tx (mkStoreContractData (Some fr) (Some c)) (Some e) w3);
      split; [|apply (Hu3 l i)].
Qed.

End sound_handlers.

Lemma dispatch_sound q s : market_sound s → admissible s q → market_sound (happens q s).
Proof.
  destruct s as [w offers overlaps]. unfold market_sound. simpl.
  intros Hw [[t Ht] Hq]. unfold offersAfter, overlapsAfter, dispatch, dispatchMarket, dispatchIssue, with_transaction.
  destruct (qe_event q) eqn:E; simpl in Hq; try exact Hw.
  - by apply (handleOrderCreated_sound _ _ _ _ _ _ t).
  - destruct (qe_hasMarketplaceData q); [|by apply sound_forget].
    erewrite bind_ok by reflexivity. by apply (handleOrderSuccessful_sound _ _ _ _ _ _ _ t).
  - by apply (handleOrderCancelled_sound _ _ _ _ t).
  - apply keeps_sound; [|done]. unfold handleBidCreated, buildCountFromBid. frames.
  - apply keeps_sound; [|done]. unfold handleBidAccepted. frames.
  - apply keeps_sound; [|done]. unfold handleBidCancelled. frames.
  - apply keeps_sound; [|done].
    unfold handleSetGlobalMinter, addGlobalMinter, removeGlobalMinter, listItem. frames.
  - apply keeps_sound; [|done]. unfold handleSetGlobalManager. frames.
  - apply keeps_sound; [|done]. unfold handleSetItemMinter, listItem. frames.
  - apply keeps_sound; [|done]. unfold handleSetItemManager. frames.
  - apply keeps_sound; [|done]. unfold handleAddItem, itemCreationFee,
      buildCountFromItem, getOrCreateAnalyticsDayData. frames.
  - apply keeps_sound; [|done]. unfold handleRescueItem, recordCuration. frames.
  - apply keeps_sound; [|done]. unfold handleUpdateItemData. frames.
  - destruct (qe_hasStoreContractData q); [|done]. case_match; [done|].
    erewrite bind_ok by reflexivity. destruct (qe_transaction q) as [tx|]; [|done].
    by apply (handleIssue_ready offers overlaps (log_address (qe_log q)) _ _ _ _ _ w).
  - apply keeps_sound; [|done]. unfold handleSetApproved. frames.
  - apply keeps_sound; [|done]. unfold handleTransferCreatorship. frames.
  - apply keeps_sound; [|done]. unfold handleTransferOwnership. frames.
  - assert (∀ (m : M World unit), sound offers overlaps (book (m w).2) →
      sound offers overlaps (book (catch m (λ _, mret tt) w).2)) as Hcatch.
    { intros m Hm. unfold catch. by destruct (m w) as [[|] ?]. }
    apply Hcatch. unfold handleTransfer. case_match; [done|].
    by apply (handleTransferNFT_sound _ _ _ _ _ _ t).
  - destruct (qe_hasStoreContractData q); [|done].
    destruct (qe_transaction q); [|done]. by apply handleTraded_sound.
Qed.

(** *** The market as a transition system *)

Inductive market_step : relation Market :=
  | market_event q s : admissible s q → market_step s (happens q s).

(** C2.  The marketplaces feed one order book, and each knows only its own orders.
    In every state reached by events they can emit, the order that a token shows is
    live, is the token's, and is shown with its status and its price; and a token
    that was never on offer at two marketplaces at the same time shows its live
    order, if it has one, and has no other. *)
Theorem reachable_consistent s0 s :
  market_sound s0 → rtc market_step s0 s →
  let w := mkt_index s in
  (∀ t nft id o, nfts (storedData w) !! t = Some nft → nft_activeOrder nft = Some id →
     orders (storedData w) !! id = Some o →
     live o ∧ orderToken o = t ∧ nft_searchOrderStatus nft = Some (ord_status o) ∧
     nft_searchOrderPrice nft = Some (ord_price o)) ∧
  (∀ id o, orders (storedData w) !! id = Some o → live o → orderToken o ∉ mkt_overlaps s →
     ∃ nft, nfts (storedData w) !! orderToken o = Some nft ∧ nft_activeOrder nft = Some id) ∧
  ∀ id1 id2 o1 o2,
    orders (storedData w) !! id1 = Some o1 → orders (storedData w) !! id2 = Some o2 →
    live o1 → live o2 → orderToken o1 = orderToken o2 → orderToken o1 ∉ mkt_overlaps s →
    id1 = id2.
Proof.
  intros Hstart Hr w. assert (market_sound s) as [Hs _ _].
  { induction Hr as [s|s s1 s2 [q s' Hq] _ IH]; [done|]. apply IH. by apply dispatch_sound. }
  split_and!.
  - intros t nft id o Hn. by apply (cs_listing _ _ Hs t (listing nft)), book_token.
  - intros id o Ho Lo Hn. destruct (cs_live _ _ Hs id o Ho Lo Hn) as (l & Hl & Fl).
    destruct (token_listing w _ l Hl) as (nft & Hnft & <-). by exists nft.
  - intros id1 id2 o1 o2 E1 E2 L1 L2 Ht Hn.
    by apply (consistent_unique _ (book w) id1 id2 o1 o2 Hs).
Qed.
End handlers.

(** ** Listing, buying and listing twice *)

#[local] Existing Instances Samples.env Samples.rpc.

(** The market before any order. *)
Definition opening : Market := mkMarket Samples.sold ∅ ∅.

Lemma no_offers_sound w : consistent (book w) → market_sound (mkMarket w ∅ ∅).
Proof.
  intros Hw. split; simpl.
  - by apply (consistent_weaken (λ _, True)).
  - intros m t id o Hm. by rewrite lookup_empty in Hm.
  - intros m1 m2 t _ [id Hm]. by rewrite lookup_empty in Hm.
Qed.

Lemma opening_sound : market_sound opening.
Proof. apply no_offers_sound. decided. Qed.

(** Tests that an identifier occurs nowhere. *)
Lemma unused_test id s :
  bool_decide (bk_orders (book (mkt_index s)) !! id = None ∧
    map_Forall (λ _ i, i ≠ id) (mkt_offers s) ∧
    map_Forall (λ _ l, ls_order l ≠ Some id) (bk_tokens (book (mkt_index s)))) = true →
  unused id s.
Proof.
  intros (H1 & H2 & H3)%bool_decide_eq_true. split_and!; [done| |exact H3].
  intros k Hk. by apply (H2 k id Hk).
Qed.

(** A second listing, at another price, while the first is open. *)
Definition relisted : OrderCreatedEventArgs := {|
  oc_id := "0x02"; oc_assetId := 7; oc_seller := "0xb1"; oc_nftAddress := "0xc1";
  oc_priceInWei := 6000; oc_expiresAt := 1800000000
|}.


Definition relistedAtV1 : QueuedEvent :=
  Samples.queued 5 (Marketplace getAddresses) (EvOrderCreated relisted).

Definition withdrawn : QueuedEvent :=
  Samples.queued 6 (MarketplaceV2 getAddresses) (EvOrderCancelled {|
    ox_id := "0x01"; ox_assetId := 7; ox_seller := "0xb1"; ox_nftAddress := "0xc1"
  |}).

Lemma listed_step : market_step opening (happens Samples.listed opening).
Proof. constructor. split; [by exists 1700000004|]. by apply unused_test; vm_compute. Qed.

(** The token is listed and bought at one marketplace. *)
Example reachable_consistent_witness :
  let s := happens Samples.purchased (happens Samples.listed opening) in
  mkt_overlaps s = ∅ ∧
  (ord_status <$> orders (storedData (mkt_index s)) !! "0x01") = Some status_sold ∧
  (∀ t nft id o, nfts (storedData (mkt_index s)) !! t = Some nft →
    nft_activeOrder nft = Some id → orders (storedData (mkt_index s)) !! id = Some o → live o).
Proof.
  intros s. split; [vm_compute; reflexivity|]. split; [vm_compute; reflexivity|].
  assert (rtc market_step opening s) as Hr.
  { apply (rtc_l _ _ (happens Samples.listed opening)); [apply listed_step|].
    apply rtc_once. constructor. split; [by exists 1700000005|vm_compute; reflexivity]. }
  destruct (reachable_consistent opening s opening_sound Hr) as (E & _ & _).
  intros t nft id o Hn Ha Ho. by destruct (E t nft id o Hn Ha Ho).
Defined.

(** What a second marketplace does: the token is listed at one, then at the
    other, and the first order is withdrawn where it was made.  The second order is
    still open, at its marketplace and in the index, but the token shows none; and
    the next listing does not cancel it, so the token has two open orders. *)
Example overlap_loses_order :
  let s := happens withdrawn (happens relistedAtV1 (happens Samples.listed opening)) in
  rtc market_step opening s ∧ mkt_overlaps s = {["0xc1-7"]} ∧
  (ord_status <$> orders (storedData (mkt_index s)) !! "0x02") = Some status_open ∧
  (nft_activeOrder <$> nfts (storedData (mkt_index s)) !! "0xc1-7") = Some None ∧
  let again := Samples.queued 7 (MarketplaceV2 getAddresses)
    (EvOrderCreated (Build_OrderCreatedEventArgs "0x03" 7 "0xb1" "0xc1" 7000 1800000000)) in
  market_step s (happens again s) ∧
  (ord_status <$> orders (storedData (mkt_index (happens again s))) !! "0x02") =
    Some status_open ∧
  (ord_status <$> orders (storedData (mkt_index (happens again s))) !! "0x03") =
    Some status_open.
Proof.
  intros s. split.
  { apply (rtc_l _ _ (happens Samples.listed opening)); [apply listed_step|].
    apply (rtc_l _ _ (happens relistedAtV1 (happens Samples.listed opening))).
    - constructor. split; [by exists 1700000005|]. by apply unused_test; vm_compute.
    - apply rtc_once. constructor. split; [by exists 1700000006|vm_compute; reflexivity]. }
  split; [vm_compute; reflexivity|]. split; [vm_compute; reflexivity|].
  split; [vm_compute; reflexivity|]. split; [|split; vm_compute; reflexivity].
  constructor. split; [by exists 1700000007|]. by apply unused_test; vm_compute.
Qed.

(** Reads a component of a move of the book. *)
Ltac book_simpl := unfold book_close, book_status; cbn [bk_orders bk_tokens].

Section listing.
Context `{Env, Rpc}.

(** Orders other than those in [ids] are as they were. *)
Definition othersUnchanged (ids : list string) (w w' : World) : Prop :=
  ∀ id, id ∉ ids → orders (storedData w') !! id = orders (storedData w) !! id.

Lemma orders_of_book w : orders (storedData w) = bk_orders (book w).
Proof. reflexivity. Qed.

(** An order event for an indexed token files the order as open, cancels
    the order the token showed, if any, leaves every other order alone, and
    makes the token show the new order and its price. *)
Theorem handleOrderCreated_lists e block a txHash w nft timestamp :
  let token := getNFTId (oc_nftAddress e) (pretty (oc_assetId e)) None in
  nfts (storedData w) !! token = Some nft →
  nft_activeOrder nft ≠ Some (oc_id e) →
  blk_timestamp block = timestamp * 1000 →
  let w' := (handleOrderCreated e block a txHash w).2 in
  let order := newOrder e block a txHash nft timestamp in
  orders (storedData w') !! oc_id e = Some order ∧ ord_status order = status_open ∧
  (∀ old o, nft_activeOrder nft = Some old → orders (storedData w) !! old = Some o →
     orders (storedData w') !! old = Some (cancelActiveOrder o timestamp)) ∧
  othersUnchanged (oc_id e :: option_list (nft_activeOrder nft)) w w' ∧
  ∃ nft', nfts (storedData w') !! token = Some nft' ∧
    listing nft' = mkListing (Some (oc_id e)) (Some status_open) (Some (oc_priceInWei e)).
Proof.
  intros token Hn Hne Ht w' order.
  assert (book w' = book_create (oc_id e) order (λ o, cancelActiveOrder o timestamp) (book w))
    as Hb by (by apply handleOrderCreated_book).
  assert (bk_tokens (book w) !! token = Some (listing nft)) as Hl by (by apply book_token).
  unfold book_create in Hb. change (orderToken order) with token in Hb. rewrite Hl in Hb.
  change (Some (listing nft) ≫= ls_order) with (nft_activeOrder nft) in Hb.
  split_and!; [|done| | |].
  - rewrite orders_of_book, Hb. apply lookup_insert_eq.
  - intros old o Hold Ho. rewrite orders_of_book, Hb, Hold. book_simpl.
    rewrite lookup_insert_ne by congruence.
    change (bk_orders (book w)) with (orders (storedData w)).
    by rewrite lookup_alter_eq, Ho.
  - intros id Hid. rewrite orders_of_book, Hb. book_simpl.
    rewrite lookup_insert_ne by set_solver.
    destruct (nft_activeOrder nft); [|done]. rewrite lookup_alter_ne by set_solver. done.
  - apply (token_listing _). rewrite Hb. book_simpl. by rewrite lookup_alter_eq, Hl.
Qed.

(** A purchase closes its order as sold, for the buyer and at the price of
    the event, leaves every other order alone and clears the listing of the
    token, whether or not the sale that follows completes. *)
Theorem handleOrderSuccessful_sells e block txHash d m2 w order timestamp :
  let token := getNFTId (os_nftAddress e) (pretty (os_assetId e)) None in
  orders (storedData w) !! os_id e = Some order →
  is_Some (nfts (storedData w) !! token) →
  blk_timestamp block = timestamp * 1000 →
  let w' := (handleOrderSuccessful e block txHash d m2 w).2 in
  (∃ o, orders (storedData w') !! os_id e = Some o ∧ ord_status o = status_sold ∧
     ord_buyer o = Some (os_buyer e) ∧ ord_price o = os_totalPrice e ∧
     ord_blockNumber o = blk_height block ∧ ord_updatedAt o = timestamp) ∧
  othersUnchanged [os_id e] w w' ∧
  ∃ nft', nfts (storedData w') !! token = Some nft' ∧ listing nft' = unlisted.
Proof.
  intros token Ho [nft Hn] Ht w'.
  assert (book w' = book_close (os_id e) token
    (λ o, sellOrder e block o <| ord_updatedAt := timestamp |>) (book w)) as Hb.
  { by apply (handleOrderSuccessful_book _ _ _ _ _ _ order). }
  split_and!.
  - rewrite orders_of_book, Hb. book_simpl. rewrite lookup_alter_eq.
    change (bk_orders (book w)) with (orders (storedData w)). rewrite Ho.
    by eexists.
  - intros id Hid. rewrite orders_of_book, Hb. book_simpl. by rewrite lookup_alter_ne by set_solver.
  - apply (token_listing _). rewrite Hb. book_simpl.
    by rewrite lookup_alter_eq, (book_token _ _ _ Hn).
Qed.

(** ** Transfers *)

(** Accounts are filed under their address. *)
Definition addressed (w : World) : Prop := ∀ a, acc_address (accountAt w a) = a.

Lemma addressed_filed w :
  map_Forall (λ k acc, accountKey (acc_address acc) POLYGON = k) (accounts (storedData w)) →
  addressed w.
Proof.
  intros Hw a. unfold accountAt.
  destruct (accounts (storedData w) !! accountKey a POLYGON) as [acc|] eqn:E; [|done].
  exact (accountKey_inj _ _ POLYGON (Hw _ _ E)).
Qed.

Lemma handleTransferNFT_owner_run a e block txHash w nft timestamp :
  let token := getNFTId a (pretty (te_tokenId e)) None in
  nfts (storedData w) !! token = Some nft →
  blk_timestamp block = timestamp * 1000 →
  ∃ nft', nfts (storedData (handleTransferNFT a e block txHash w).2) !! token = Some nft' ∧
    nft_owner nft' = Some (account_ref (accountAt w (te_to e))) ∧
    nft_ownerAddress nft' = acc_address (accountAt w (te_to e)) ∧
    nft_transferredAt nft' = timestamp.
Proof.
  intros token Hn Ht. unfold handleTransferNFT.
  case_decide as Hd; [by destruct (pretty_Z_nonempty (te_tokenId e))|].
  fold token. erewrite bind_ok by reflexivity. rewrite Hn.
  rewrite (bind_ok _ _ _ _ _ (createOrLoadAccount_run (te_to e) w)).
  set (w1 := set storedData _ w). set (owner := accountAt w (te_to e)).
  rewrite (bind_ok _ _ _ _ _ (block_seconds_ok block w1 timestamp Ht)).
  do 2 erewrite bind_ok by reflexivity. set (w3 := set inMemoryData _ _).
  set (arrive n := n <| nft_owner := Some (account_ref owner) |>
  <| nft_ownerAddress := acc_address owner |> <| nft_updatedAt := timestamp |>
  <| nft_transferredAt := timestamp |>).
assert (nfts (storedData w3) !! token = Some (arrive nft)) as E3.
{ change (nfts (storedData w3)) with (alter arrive token (nfts (storedData w))).
  by rewrite lookup_alter_eq, Hn. }
destruct (nft_activeOrder nft) as [id|]; [|by exists (arrive nft)].
erewrite bind_ok by reflexivity.
destruct (orders (storedData w3) !! id) as [o|]; [|by exists (arrive nft)].
cbv zeta. erewrite bind_ok by reflexivity. set (status := orderStatusAfterTransfer _ _).
exists (arrive nft <| nft_searchOrderStatus := Some status |>). split; [|by split_and!].
match goal with |- nfts (storedData (?m ?w4).2) !! _ = _ =>
  change (nfts (storedData (m w4).2)) with
    (alter (λ n, n <| nft_searchOrderStatus := Some status |>) token (nfts (storedData w3)))
end.
by rewrite lookup_alter_eq, E3.
Qed.

(** A transfer gives the token to its receiver, and suspends the listing
    the token has unless the receiver is the seller: the order is then no longer
    open, but it is still the token's, at the same price. *)
Theorem handleTransferNFT_moves a e block txHash w nft orderId order timestamp :
  let token := getNFTId a (pretty (te_tokenId e)) None in
  addressed w →
  nfts (storedData w) !! token = Some nft → nft_activeOrder nft = Some orderId →
  orders (storedData w) !! orderId = Some order →
  blk_timestamp block = timestamp * 1000 →
  let w' := (handleTransferNFT a e block txHash w).2 in
  let status := if decide (ord_owner order = te_to e) then status_open
                else status_transferred in
  (∃ nft', nfts (storedData w') !! token = Some nft' ∧ nft_ownerAddress nft' = te_to e ∧
     listing nft' = mkListing (Some orderId) (Some status) (nft_searchOrderPrice nft)) ∧
  orders (storedData w') !! orderId = Some (order <| ord_status := status |>) ∧
  othersUnchanged [orderId] w w'.
Proof.
  intros token Ha Hn Hact Ho Ht w' status.
  assert (book w' = book_status orderId token status (book w)) as Hb.
  { unfold w'. rewrite (handleTransferNFT_book _ _ _ _ _ nft orderId order timestamp) by done.
    unfold orderStatusAfterTransfer. by rewrite Ha. }
  destruct (handleTransferNFT_owner_run a e block txHash w nft timestamp Hn Ht)
    as (nft' & Hn' & _ & Howner & _). fold w' in Hn'. fold token in Hn'. rewrite Ha in Howner.
  split_and!.
  - exists nft'. split_and!; [done|done|].
    assert (bk_tokens (book w') !! token = Some (listing nft')) as El by (by apply book_token).
    rewrite Hb in El. unfold book_status in El. cbn [bk_tokens] in El. rewrite lookup_alter_eq, (book_token _ _ _ Hn) in El.
    apply (inj Some) in El. rewrite <- El. simpl. by rewrite Hact.
  - rewrite orders_of_book, Hb. book_simpl. rewrite lookup_alter_eq.
    change (bk_orders (book w)) with (orders (storedData w)). by rewrite Ho.
  - intros id Hid. rewrite orders_of_book, Hb. book_simpl. by rewrite lookup_alter_ne by set_solver.
Qed.

Lemma handleTransferNFT_addressed a e block txHash :
  preserves addressed (handleTransferNFT a e block txHash).
Proof.
  assert (∀ b, preserves addressed (createOrLoadAccount b POLYGON)) as Hc.
  { intros b w Hw c. rewrite createOrLoadAccount_accountAt. apply Hw. }
  assert (∀ A (m : M World A), keeps (λ w, accounts (storedData w)) m → preserves addressed m)
    as Hk.
  { intros A m Hm w Hw c. unfold accountAt. specialize (Hm w). simpl in Hm. rewrite Hm.
    apply Hw. }
  unfold handleTransferNFT. case_decide; [by intros w|].
  unfold preserves.
  repeat lazymatch goal with
  | |- steps _ (createOrLoadAccount _ _) => apply Hc
  | |- steps _ (mbind _ _) => frame_step
  | |- steps _ (match _ with _ => _ end) => frame_step
  | |- steps _ (let _ := _ in _) => cbv zeta
  | |- _ => apply Hk; frames
  end.
Qed.

(** A token that leaves its seller and comes back is listed as it was: two
    transfers, away and back, restore its order and its listing and leave every
    other order and listing alone. *)
Theorem transfer_roundtrip a e1 e2 block1 block2 tx1 tx2 w nft orderId order t1 t2 :
  let token := getNFTId a (pretty (te_tokenId e1)) None in
  addressed w →
  nfts (storedData w) !! token = Some nft → nft_activeOrder nft = Some orderId →
  orders (storedData w) !! orderId = Some order →
  ord_status order = status_open → nft_searchOrderStatus nft = Some status_open →
  te_tokenId e2 = te_tokenId e1 → te_to e2 = ord_owner order →
  blk_timestamp block1 = t1 * 1000 → blk_timestamp block2 = t2 * 1000 →
  book ((_ ← handleTransferNFT a e1 block1 tx1; handleTransferNFT a e2 block2 tx2) w).2 =
  book w.
Proof.
  intros token Ha Hn Hact Ho Hopen Hshow Htok Hback Ht1 Ht2.
  assert (handleTransferNFT a e1 block1 tx1 w =
          (Ok tt, (handleTransferNFT a e1 block1 tx1 w).2)) as Eok.
  { unfold handleTransferNFT. case_decide; [done|]. fold token.
    erewrite bind_ok by reflexivity. rewrite Hn.
    rewrite (bind_ok _ _ _ _ _ (createOrLoadAccount_run (te_to e1) w)).
    set (w1 := set storedData _ w).
    rewrite (bind_ok _ _ _ _ _ (block_seconds_ok block1 w1 t1 Ht1)).
    do 2 erewrite bind_ok by reflexivity. rewrite Hact. erewrite bind_ok by reflexivity.
    by case_match. }
  rewrite (bind_ok _ _ _ _ _ Eok). clear Eok.
  pose proof (handleTransferNFT_addressed a e1 block1 tx1 w Ha) as Ha1.
  pose proof (handleTransferNFT_book a e1 block1 tx1 w nft orderId order t1 Hn Hact Ho Ht1)
    as Hb1. fold token in Hb1. set (w1 := (handleTransferNFT a e1 block1 tx1 w).2) in *.
  set (s1 := orderStatusAfterTransfer _ _) in Hb1.
  assert (bk_tokens (book w1) !! token =
          Some (mkListing (Some orderId) (Some s1) (nft_searchOrderPrice nft))) as El1.
  { rewrite Hb1. book_simpl. rewrite lookup_alter_eq, (book_token _ _ _ Hn). simpl. by rewrite Hact. }
  destruct (token_listing w1 token _ El1) as (nft1 & Hn1 & Hlist1).
  assert (orders (storedData w1) !! orderId = Some (order <| ord_status := s1 |>)) as Ho1.
  { rewrite orders_of_book, Hb1. book_simpl. rewrite lookup_alter_eq.
    change (bk_orders (book w)) with (orders (storedData w)). by rewrite Ho. }
  rewrite (handleTransferNFT_book a e2 block2 tx2 w1 nft1 orderId
    (order <| ord_status := s1 |>) t2); [|by rewrite Htok|by injection Hlist1|done|done].
  rewrite Htok. fold token. rewrite Ha1.
  unfold orderStatusAfterTransfer. simpl. rewrite decide_True by done. rewrite Hb1.
  book_simpl. rewrite !alter_alter_eq.
transitivity (mkBook (bk_orders (book w)) (bk_tokens (book w))); [|done].
f_equal; apply alter_id.
  - change (bk_orders (book w)) with (orders (storedData w)). rewrite Ho. intros ? [= <-].
    destruct order. cbn in *. by subst.
  - rewrite (book_token _ _ _ Hn). intros ? [= <-]. unfold listing. simpl. by rewrite Hact, Hshow.
Qed.
End listing.

(** ** The sample token *)

Example handleOrderCreated_lists_witness :
  let w' := (handleOrderCreated relisted (Samples.block 5) "0x480a" "0x7c" Samples.onMarket).2 in
  (ord_status <$> orders (storedData w') !! "0x02") = Some status_open ∧
  (ord_status <$> orders (storedData w') !! "0x01") = Some status_cancelled ∧
  ∃ nft', nfts (storedData w') !! "0xc1-7" = Some nft' ∧
    listing nft' = mkListing (Some "0x02") (Some status_open) (Some 6000).
Proof.
  destruct (handleOrderCreated_lists relisted (Samples.block 5) "0x480a" "0x7c" Samples.onMarket
    Samples.listedNFT 1700000005) as (E1 & _ & E2 & _ & E3);
    [vm_compute; reflexivity|decided|reflexivity|].
  intros w'. split_and!; [exact (f_equal (fmap ord_status) E1)| |exact E3].
  refine (f_equal (fmap ord_status) (E2 "0x01" Samples.order _ _)); vm_compute; reflexivity.
Defined.

Example handleOrderSuccessful_sells_witness :
  let e := Build_OrderSuccessfulEventArgs "0x01" 7 "0xb1" "0xc1" 5000 "0xb2" in
  let w' := (handleOrderSuccessful e (Samples.block 5) "0x7b"
    (c_marketplace Samples.knownCaches) (c_marketplaceV2 Samples.knownCaches)
    Samples.onMarket).2 in
  ∃ nft', nfts (storedData w') !! "0xc1-7" = Some nft' ∧ listing nft' = unlisted.
Proof.
  intros e w'.
  destruct (handleOrderSuccessful_sells e (Samples.block 5) "0x7b"
    (c_marketplace Samples.knownCaches) (c_marketplaceV2 Samples.knownCaches)
    Samples.onMarket Samples.order 1700000005) as (_ & _ & E);
    [vm_compute; reflexivity|decided|reflexivity|exact E].
Defined.

Example handleTransferNFT_moves_witness :
  let w' := (handleTransferNFT "0xc1" Samples.transferred (Samples.block 5) "0x7b"
    Samples.onMarket).2 in
  ∃ nft', nfts (storedData w') !! "0xc1-7" = Some nft' ∧ nft_ownerAddress nft' = "0xb2" ∧
    listing nft' = mkListing (Some "0x01") (Some status_transferred) (Some 5000).
Proof.
  destruct (handleTransferNFT_moves "0xc1" Samples.transferred (Samples.block 5) "0x7b"
    Samples.onMarket Samples.listedNFT "0x01" Samples.order 1700000005) as (E & _ & _);
    [apply addressed_filed; decided|vm_compute; reflexivity..|exact E].
Defined.

Example transfer_roundtrip_witness :
  book ((_ ← handleTransferNFT "0xc1" Samples.transferred (Samples.block 5) "0x7b";
         handleTransferNFT "0xc1" Samples.returned (Samples.block 6) "0x7c")
        Samples.onMarket).2 = book Samples.onMarket.
Proof.
  apply (transfer_roundtrip "0xc1" Samples.transferred Samples.returned (Samples.block 5)
    (Samples.block 6) "0x7b" "0x7c" Samples.onMarket Samples.listedNFT "0x01" Samples.order
    1700000005 1700000006);
    [apply addressed_filed; decided|vm_compute; reflexivity..].
Defined.
