(* ===== verification/StoreProofs.v ===== *)
(** * What a batch reads and writes: theorems of [Store]

    The accounts a batch loads, and its upserts against one write of the tokens
    into the tables. *)

From S2P Require Import Prelude JsString Model Env State Common Analytics Store Samples.
Open Scope string_scope.
Open Scope list_scope.
Open Scope Z_scope.

(** ** Insertion-ordered maps *)

Section alist.
Context {A : Type}.
Implicit Types (l : list (string * A)).

Lemma alist_set_get k v l k' :
  alist_get k' (alist_set k v l) = if decide (k = k') then Some v else alist_get k' l.
Proof.
  induction l as [|[j x] l IH]; simpl; [by case_decide|].
  destruct (decide (j = k)) as [->|Hjk]; simpl.
  - by destruct (decide (k = k')).
  - rewrite IH. destruct (decide (j = k')) as [->|?]; [by rewrite decide_False|done].
Qed.

Lemma alist_set_keys k v l x : x ∈ (alist_set k v l).*1 ↔ x = k ∨ x ∈ l.*1.
Proof.
  induction l as [|[j y] l IH]; simpl; [set_solver|].
  destruct (decide (j = k)) as [->|?]; simpl; [set_solver|].
  rewrite !elem_of_cons, IH. tauto.
Qed.

Lemma alist_set_NoDup k v l : NoDup l.*1 → NoDup (alist_set k v l).*1.
Proof.
  induction l as [|[j y] l IH]; simpl; intros Hl.
  - apply NoDup_singleton.
  - apply NoDup_cons in Hl as [Hj Hl]. destruct (decide (j = k)) as [->|?]; simpl.
    + by apply NoDup_cons.
    + apply NoDup_cons. split; [|by apply IH]. rewrite alist_set_keys. naive_solver.
Qed.

Lemma alist_get_None k l : k ∉ l.*1 → alist_get k l = None.
Proof.
  induction l as [|[j y] l IH]; simpl; [done|]. intros Hk.
  rewrite decide_False by set_solver. apply IH. set_solver.
Qed.

Lemma alist_get_elem k v l : NoDup l.*1 → (k, v) ∈ l ↔ alist_get k l = Some v.
Proof.
  induction l as [|[j y] l IH]; simpl; intros Hl; [set_solver|].
  apply NoDup_cons in Hl as [Hj Hl]. rewrite elem_of_cons, IH by done.
  destruct (decide (j = k)) as [->|?]; [|naive_solver].
  rewrite (alist_get_None k l) by done. naive_solver.
Qed.
End alist.

(** ** The circular dependency between tokens and orders *)

Definition withoutOrder (nft : NFT) : NFT := nft <| nft_activeOrder := None |>.

Lemma orderByNFT_NoDup m : NoDup (orderByNFT m).*1.
Proof.
  unfold orderByNFT. cut (∀ l acc, NoDup acc.*1 → NoDup (foldl (λ l nft,
    match nft_activeOrder nft with
    | Some order => alist_set (nft_id nft) order l
    | None => l
    end) acc l).*1); [intros Hl; apply Hl; constructor|].
  induction l as [|n l IH]; intros acc Hacc; simpl; [done|].
  apply IH. destruct (nft_activeOrder n); [by apply alist_set_NoDup|done].
Qed.

(** The saved orders are those the tokens show. *)
Lemma orderByNFT_get m k :
  keyed nft_id m → alist_get k (orderByNFT m) = m !! k ≫= nft_activeOrder.
Proof.
  intros Hm. unfold orderByNFT, values.
  assert (∀ n, n ∈ (map_to_list m).*2 → m !! nft_id n = Some n) as Hin.
  { intros n ([j n'] & -> & Hn)%list_elem_of_fmap. apply elem_of_map_to_list in Hn.
    simpl. by rewrite (Hm _ _ Hn). }
  assert (∀ l acc, (∀ n, n ∈ l → m !! nft_id n = Some n) →
    alist_get k (foldl (λ l nft, match nft_activeOrder nft with
      | Some order => alist_set (nft_id nft) order l
      | None => l
      end) acc l) =
    match (if decide (k ∈ nft_id <$> l) then m !! k ≫= nft_activeOrder else None) with
    | Some o => Some o
    | None => alist_get k acc
    end) as Hfold.
  { induction l as [|n l IH]; intros acc Hl; simpl; [done|].
    rewrite IH by (intros; apply Hl; set_solver).
    pose proof (Hl n ltac:(set_solver)) as Hn.
    assert (alist_get k match nft_activeOrder n with
      | Some order => alist_set (nft_id n) order acc
      | None => acc
      end = if decide (nft_id n = k) then
              match nft_activeOrder n with Some o => Some o | None => alist_get k acc end
            else alist_get k acc) as ->.
    { destruct (nft_activeOrder n); [by rewrite alist_set_get|].
      by destruct (decide (nft_id n = k)). }
    destruct (decide (nft_id n = k)) as [<-|Hne].
    - rewrite Hn. simpl. rewrite (decide_True (P:=nft_id n ∈ nft_id n :: _)) by set_solver.
      destruct (decide (nft_id n ∈ nft_id <$> l)); by destruct (nft_activeOrder n).
    - destruct (decide (k ∈ nft_id <$> l)) as [Hk|Hk].
      + by rewrite decide_True by set_solver.
      + by rewrite decide_False by set_solver. }
  rewrite Hfold by done. destruct (m !! k) as [n|] eqn:Hk; simpl; [|by case_decide].
  rewrite decide_True; [by destruct (nft_activeOrder n)|].
  rewrite <- (Hm _ _ Hk). apply list_elem_of_fmap_2, list_elem_of_fmap.
  exists (k, n). split; [done|]. by apply elem_of_map_to_list.
Qed.

Lemma restoreOrders_lookup l m k :
  NoDup l.*1 →
  restoreOrders l m !! k =
  match alist_get k l with
  | Some o => (λ nft, nft <| nft_activeOrder := Some o |>) <$> m !! k
  | None => m !! k
  end.
Proof.
  unfold restoreOrders. revert m. induction l as [|[j o] l IH]; intros m Hl; simpl; [done|].
  apply NoDup_cons in Hl as [Hj Hl]. simpl in Hj. rewrite IH by done.
  destruct (decide (j = k)) as [->|Hne].
  - rewrite (alist_get_None k l) by done. by rewrite lookup_alter_eq.
  - by rewrite lookup_alter_ne.
Qed.

Lemma restore_saved m :
  keyed nft_id m → restoreOrders (orderByNFT m) (withoutOrder <$> m) = m.
Proof.
  intros Hm. apply map_eq. intros k.
  rewrite restoreOrders_lookup by apply orderByNFT_NoDup.
  rewrite (orderByNFT_get m k Hm), lookup_fmap.
  destruct (m !! k) as [n|]; [|done]. simpl.
  destruct n as [? ? ? ? ? ? ? []]; reflexivity.
Qed.

(** ** The rows of the database after the writes *)

(** Upserting rows by primary key. *)
Definition upsert {A} (key : A → string) (table : gmap string A) (rows : list A) : gmap string A :=
  foldl (λ m n, <[key n := n]> m) table rows.

(** The tables of tokens and of accounts after a sequence of writes. *)
Definition nftTable (table : gmap string NFT) (writes : list Write) : gmap string NFT :=
  foldl (λ m w, match w with UpsertNFTs rows => upsert nft_id m rows | _ => m end) table writes.

Definition accountTable (table : gmap string Account) (writes : list Write)
    : gmap string Account :=
  foldl (λ m w, match w with UpsertAccounts rows => upsert acc_id m rows | _ => m end)
    table writes.

Section upsert.
Context {A : Type} (key : A → string).

Lemma upsert_lookup table rows k :
  (∀ n n', n ∈ rows → n' ∈ rows → key n = key n' → n = n') →
  (∀ n, n ∈ rows → key n = k → upsert key table rows !! k = Some n) ∧
  ((∀ n, n ∈ rows → key n ≠ k) → upsert key table rows !! k = table !! k).
Proof.
  unfold upsert. revert table.
  induction rows as [|r rows IH]; intros table Huniq; simpl; [set_solver|].
  destruct (IH (<[key r := r]> table)) as [IH1 IH2]; [set_solver|]. split.
  - intros n [->|Hn]%elem_of_cons Hk; [|by apply IH1].
    destruct (decide (Exists (λ n', key n' = k) rows)) as [He|He].
    + apply Exists_exists in He as (n' & Hn' & Hk').
      rewrite (IH1 n' Hn' Hk'). f_equal. symmetry. apply Huniq; [set_solver..|congruence].
    + rewrite IH2; [by rewrite <- Hk, lookup_insert_eq|].
      intros n' Hn' Hk'. apply He, Exists_exists. eauto.
  - intros Hno. rewrite IH2 by set_solver. apply lookup_insert_ne. set_solver.
Qed.

Lemma upsert_values table m :
  keyed key m → upsert key table (values m) = m ∪ table.
Proof.
  intros Hm. apply map_eq. intros k.
  assert (∀ n, n ∈ values m ↔ m !! key n = Some n) as Hin.
  { intros n. unfold values. rewrite list_elem_of_fmap. split.
    - intros ([j n'] & -> & Hn). apply elem_of_map_to_list in Hn. simpl.
      by rewrite (Hm _ _ Hn).
    - intros Hn. exists (key n, n). split; [done|]. by apply elem_of_map_to_list. }
  destruct (upsert_lookup table (values m) k) as [H1 H2].
  { intros n n' Hn%Hin Hn'%Hin Heq. rewrite Heq in Hn. congruence. }
  destruct (m !! k) as [n|] eqn:Hk.
  - assert (key n = k) as Hid by (by apply Hm).
    rewrite (H1 n); [|apply Hin; by rewrite Hid|done].
    symmetry. by apply lookup_union_Some_l.
  - rewrite H2; [symmetry; by apply lookup_union_r|].
    intros n Hn%Hin <-. congruence.
Qed.
End upsert.

(** The tokens written again with their orders. *)
Definition rewritten (m : gmap string NFT) : list NFT :=
  omap (λ '(nftId, _), m !! nftId) (orderByNFT m).

Lemma rewritten_elem m n :
  keyed nft_id m → n ∈ rewritten m ↔ m !! nft_id n = Some n ∧ is_Some (nft_activeOrder n).
Proof.
  intros Hm. unfold rewritten. rewrite list_elem_of_omap. split.
  - intros ([k o] & Hin & Hn). simpl in Hn. rewrite (Hm _ _ Hn). split; [done|].
    apply alist_get_elem in Hin; [|apply orderByNFT_NoDup].
    rewrite (orderByNFT_get m k Hm), Hn in Hin. by exists o.
  - intros [Hn [o Ho]]. exists (nft_id n, o). split; [|done].
    apply alist_get_elem; [apply orderByNFT_NoDup|].
    by rewrite (orderByNFT_get m _ Hm), Hn.
Qed.

Lemma upsert_rewritten table m :
  keyed nft_id m →
  upsert nft_id (upsert nft_id table (values (withoutOrder <$> m))) (rewritten m) = m ∪ table.
Proof.
  intros Hm. rewrite upsert_values by (by apply keyed_fmap). apply map_eq. intros k.
  destruct (upsert_lookup nft_id ((withoutOrder <$> m) ∪ table) (rewritten m) k) as [H1 H2].
  { intros n n' [Hn _]%rewritten_elem [Hn' _]%rewritten_elem Heq; try done.
    rewrite Heq in Hn. congruence. }
  destruct (m !! k) as [n|] eqn:Hk.
  - rewrite (lookup_union_Some_l _ _ _ n Hk). assert (nft_id n = k) as Hid by (by apply Hm).
    destruct (nft_activeOrder n) as [o|] eqn:Ho.
    + apply H1; [|done]. apply rewritten_elem; [done|]. by rewrite Hid, Ho.
    + rewrite H2.
      * apply lookup_union_Some_l. rewrite lookup_fmap, Hk. simpl. f_equal.
        destruct n. cbn in Ho. by subst.
      * intros n' [Hn' [o' Ho']]%rewritten_elem Hid'; [|done]. congruence.
  - rewrite H2; [|intros n' [Hn' _]%rewritten_elem <-; [congruence|done]].
    rewrite !lookup_union_r; [done|done|]. by rewrite lookup_fmap, Hk.
Qed.

(** ** Foreign keys *)

Inductive Kind :=
  | KRarity | KCount | KAccount | KCollection | KAnalytics | KItemDay | KAccountDay
  | KWearable | KEmote | KMetadata | KItem | KNFT | KOrder | KBid | KSale | KMint
  | KTransfer | KCuration | KSquidRouterOrder.

#[export] Instance Kind_eq_dec : EqDecision Kind.
Proof. solve_decision. Defined.

Definition kindOf (w : Write) : Kind :=
  match w with
  | UpsertRarities _ => KRarity
  | UpsertCounts _ => KCount
  | UpsertAccounts _ => KAccount
  | UpsertCollections _ => KCollection
  | UpsertAnalytics _ => KAnalytics
  | UpsertItemDayDatas _ => KItemDay
  | UpsertAccountsDayDatas _ => KAccountDay
  | UpsertWearables _ => KWearable
  | UpsertEmotes _ => KEmote
  | UpsertMetadatas _ => KMetadata
  | UpsertItems _ => KItem
  | UpsertNFTs _ => KNFT
  | UpsertOrders _ => KOrder
  | UpsertBids _ => KBid
  | InsertSales _ => KSale
  | InsertMints _ => KMint
  | InsertTransfers _ => KTransfer
  | InsertCurations _ => KCuration
  | InsertSquidRouterOrders _ => KSquidRouterOrder
  end.

(** The many-to-one columns of the generated entities, but for the active order
    of a token. *)
Definition references (k : Kind) : list Kind :=
  match k with
  | KWearable => [KAccount]
  | KMetadata => [KWearable; KEmote]
  | KItem => [KCollection; KMetadata]
  | KNFT => [KAccount; KCollection; KItem; KMetadata]
  | KOrder => [KNFT; KItem]
  | KBid => [KNFT]
  | KSale => [KNFT; KItem]
  | KMint => [KItem; KNFT]
  | KCuration => [KAccount; KCollection; KItem]
  | _ => []
  end.

(** Every row is written after the rows it references; a token is written with
    an active order only after the orders. *)
Fixpoint respects (written : list Kind) (l : list Write) : Prop :=
  match l with
  | [] => True
  | w :: l =>
      references (kindOf w) ⊆ written ∧
      (∀ rows n, w = UpsertNFTs rows → n ∈ rows → is_Some (nft_activeOrder n) →
         KOrder ∈ written) ∧
      respects (kindOf w :: written) l
  end.

Lemma withoutOrder_values m n : n ∈ values (withoutOrder <$> m) → nft_activeOrder n = None.
Proof.
  intros ([k n'] & -> & Hn)%list_elem_of_fmap. apply elem_of_map_to_list in Hn.
  by apply lookup_fmap_Some in Hn as (n0 & <- & _).
Qed.

(** One write of a list that respects the foreign keys. *)
Ltac respects_step :=
  lazymatch goal with
  | |- True => exact I
  | |- _ ∧ _ ∧ _ =>
      split; [set_solver|split;
        [intros rows n Heq Hin [o Ho]; first
           [ discriminate Heq
           | injection Heq as <-; first
               [ set_solver | apply withoutOrder_values in Hin; congruence ] ]|]]
  end.

(** C27.  The writes of a batch save its tokens despite the circular reference
    between tokens and orders: every row is written after those it references,
    the tokens first without their active order and, after the orders, again
    with it; the table of tokens then holds every token of the batch as it was
    in memory, over the rows the batch did not touch; and the batch itself is
    left as it was. *)
Theorem performUpserts_saves table w :
  keyed nft_id (nfts (storedData w)) →
  ∃ writes, performUpserts w = (Ok writes, w) ∧
    respects [] writes ∧
    nftTable table writes = nfts (storedData w) ∪ table ∧
    UpsertOrders (values (orders (storedData w))) ∈ writes.
Proof.
  intros Hm. set (m := nfts (storedData w)) in *.
  assert (set storedData (set nfts (restoreOrders (orderByNFT m)))
    (set storedData (set nfts (fmap withoutOrder)) w) = w) as Hw.
  { destruct w as [[] ? ? ? ?]. unfold set. cbn in *. do 2 f_equal. by apply restore_saved. }
  eassert (performUpserts w = (Ok _, w)) as E.
  { unfold performUpserts. do 4 erewrite bind_ok by reflexivity. unfold id. fold m.
    change (λ nft, set nft_activeOrder (λ _, None) nft) with withoutOrder.
    rewrite Hw. reflexivity. }
  eexists. split; [exact E|]. clear E.
  repeat match goal with
  | |- context [omap ?f (orderByNFT m)] => change (omap f (orderByNFT m)) with (rewritten m)
  end.
  change (nfts (storedData (w <| storedData ::= set nfts (fmap withoutOrder) |>)))
    with (withoutOrder <$> m).
  split; [|split].
  - destruct (decide _) as [Hr|Hr]; cbn [app respects kindOf references]; repeat respects_step.
  - destruct (decide (0 < length (rewritten m))%nat) as [Hr|Hr]; cbn [app nftTable foldl].
    + by apply upsert_rewritten.
    + rewrite <- upsert_rewritten by done. by destruct (rewritten m); [|simpl in Hr; lia].
  - cbn [app]. repeat first [by left | right].
Qed.

(** The table of accounts holds every account of the batch, over the rows that the
    batch did not touch. *)
Lemma performUpserts_accounts table w :
  keyed acc_id (accounts (storedData w)) →
  ∃ writes w', performUpserts w = (Ok writes, w') ∧
    accountTable table writes = accounts (storedData w) ∪ table.
Proof.
  intros Hm. eexists _, _. split.
  { unfold performUpserts. do 5 erewrite bind_ok by reflexivity. reflexivity. }
  rewrite <- (upsert_values acc_id table _ Hm). by destruct (decide _).
Qed.

(** ** What is loaded *)

Lemma flatIds_spec ids id :
  id ∈ flatIds ids ↔
  ∃ a l t, ids !! a = Some l ∧ t ∈ l ∧ id = a +:+ "-" +:+ pretty t.
Proof.
  unfold flatIds. rewrite list_elem_of_In, in_flat_map. split.
  - intros ([a l] & Hal%list_elem_of_In & Hid%list_elem_of_In).
    apply list_elem_of_fmap in Hid as (t & -> & Ht).
    apply elem_of_map_to_list in Hal. by exists a, l, t.
  - intros (a & l & t & Hal & Ht & ->). exists (a, l). split.
    + by apply list_elem_of_In, elem_of_map_to_list.
    + apply list_elem_of_In, list_elem_of_fmap. by exists t.
Qed.

Lemma isIn_spec {A} `{EqDecision A} (x : A) l : Is_true (isIn x l) ↔ x ∈ l.
Proof. unfold isIn. apply bool_decide_spec. Qed.

Lemma isPolygon_spec n : Is_true (isPolygon n) ↔ n = POLYGON.
Proof. unfold isPolygon. apply bool_decide_spec. Qed.

Lemma find_lookup {A} (table : gmap string A) where_ k a :
  find table where_ !! k = Some a ↔ table !! k = Some a ∧ Is_true (where_ k a).
Proof. unfold find. by rewrite map_lookup_filter_Some. Qed.

(** The accounts a batch loads are, of the rows of the network, exactly
    those of the addresses its events name and of the creators and beneficiaries
    of the items it loads. *)
Theorem getStoredData_accounts db ids a acc :
  accounts (getStoredData db ids) !! accountKey a POLYGON = Some acc ↔
  db_accounts db !! accountKey a POLYGON = Some acc ∧ acc_network acc = POLYGON ∧
  (a ∈ accountIds ids ∨
   ∃ id item, items (getStoredData db ids) !! id = Some item ∧
     (it_creator item = a ∨ it_beneficiary item = a)).
Proof.
  set (its := storedItems db ids).
  assert (∀ x, x ∈ (map_to_list its).*2 ↔ ∃ id, its !! id = Some x) as Hits.
  { intros x. rewrite list_elem_of_fmap. split.
    - intros ([id y] & -> & Hy). exists id. by apply elem_of_map_to_list.
    - intros [id Hx]. exists (id, x). split; [done|]. by apply elem_of_map_to_list. }
  change (items (getStoredData db ids)) with its.
  change (accounts (getStoredData db ids)) with (storedAccounts db ids its).
  unfold storedAccounts. rewrite find_lookup, andb_True, isIn_spec, isPolygon_spec.
  rewrite list_elem_of_fmap.
  assert ((∃ y, accountKey a POLYGON = accountKey y POLYGON ∧
    y ∈ elements (accountIds ids) ++ (it_creator <$> (map_to_list its).*2)
        ++ (it_beneficiary <$> (map_to_list its).*2)) ↔
    (a ∈ accountIds ids ∨ ∃ id item, its !! id = Some item ∧
      (it_creator item = a ∨ it_beneficiary item = a))) as Hnames; [|naive_solver].
  split.
  - intros (y & Hy%app_inj_l & Hin). subst y.
    rewrite !elem_of_app, elem_of_elements, !list_elem_of_fmap in Hin.
    destruct Hin as [Hin|[(i & -> & Hi)|(i & -> & Hi)]]; [by left|right..].
    + apply Hits in Hi as [id Hi]. exists id, i. tauto.
    + apply Hits in Hi as [id Hi]. exists id, i. tauto.
  - intros Hn. exists a. split; [done|].
    rewrite !elem_of_app, elem_of_elements, !list_elem_of_fmap.
    destruct Hn as [Hn|(id & i & Hi & [<- | <-])]; [by left|right; left|right; right].
    + exists i. split; [done|]. apply Hits. by exists id.
    + exists i. split; [done|]. apply Hits. by exists id.
Qed.

Example performUpserts_saves_witness :
  ∃ writes, performUpserts Samples.onMarket = (Ok writes, Samples.onMarket) ∧
    respects [] writes ∧
    (nftTable ∅ writes !! "0xc1-7") = Some Samples.listedNFT.
Proof.
  destruct (performUpserts_saves ∅ Samples.onMarket) as (writes & E1 & E2 & E3 & _); [decided|].
  exists writes. split; [exact E1|]. split; [exact E2|]. rewrite E3. vm_compute. reflexivity.
Defined.
