(* ===== verification/BatchProofs.v ===== *)
(** * The first pass and the load: theorems of [Batch] and [Processor]

    What the first pass queues and records, what the load therefore holds of the
    token of a queued event, what becomes of an account that is not loaded, and the
    day buckets that replace placeholders. *)

From S2P Require Import Prelude JsString Model Env State Common Metadata Analytics Nft.
From S2P Require Import Collection IssueLog Fees Bid RarityHandlers Marketplace Store Batch.
From S2P Require Import Processor Samples AnalyticsProofs StoreProofs.
Open Scope string_scope.
Open Scope list_scope.
Open Scope Z_scope.

(** ** What a queued event needs *)

(** [t] is among the identifiers recorded for [a]. *)
Definition recorded (ids : gmap string (list Z)) (a : string) (t : Z) : Prop :=
  ∃ l, ids !! a = Some l ∧ t ∈ l.

Lemma recorded_push ids a t b u :
  recorded (pushToMapArray b u ids) a t ↔ (a = b ∧ t = u) ∨ recorded ids a t.
Proof.
  unfold recorded, pushToMapArray. destruct (decide (a = b)) as [->|Hne].
  - rewrite lookup_insert_eq. destruct (ids !! b) as [l|]; simpl; split.
    + intros (l' & [= <-] & Ht). apply elem_of_app in Ht as [Ht|Ht]; [right; eauto|].
      left. split; [done|]. set_solver.
    + intros [[_ ->]|(l' & [= <-] & Ht)]; eexists; split; [done|set_solver|done|set_solver].
    + intros (l' & [= <-] & Ht). left. split; [done|]. set_solver.
    + intros [[_ ->]|(l' & [=] & _)]. eexists; split; [done|set_solver].
  - rewrite lookup_insert_ne by done. naive_solver.
Qed.

Section batch.
Context `{Env, Rpc}.

(** The identifiers the dispatch of an event reads are among those to load. *)
Definition needs (m : PolygonInMemoryState) (q : QueuedEvent) : Prop :=
  match qe_event q with
  | EvOrderCreated e => recorded (tokenIds m) (oc_nftAddress e) (oc_assetId e)
  | EvOrderSuccessful e =>
      recorded (tokenIds m) (os_nftAddress e) (os_assetId e) ∧
      os_seller e ∈ accountIds m ∧ os_buyer e ∈ accountIds m
  | EvOrderCancelled e => recorded (tokenIds m) (ox_nftAddress e) (ox_assetId e)
  | EvBidCreated e => recorded (tokenIds m) (bc_tokenAddress e) (bc_tokenId e)
  | EvBidAccepted e =>
      recorded (tokenIds m) (ba_tokenAddress e) (ba_tokenId e) ∧
      getBidId (ba_tokenAddress e) (pretty (ba_tokenId e)) (ba_bidder e) ∈ bidIds m ∧
      ba_seller e ∈ accountIds m ∧ ba_bidder e ∈ accountIds m
  | EvBidCancelled e =>
      recorded (tokenIds m) (bx_tokenAddress e) (bx_tokenId e) ∧
      getBidId (bx_tokenAddress e) (pretty (bx_tokenId e)) (bx_bidder e) ∈ bidIds m
  | EvTransfer e =>
      recorded (tokenIds m) (log_address (qe_log q)) (te_tokenId e) ∧
      toLowerCase (log_address (qe_log q)) ∈ collectionIds m
  | EvIssue e =>
      recorded (itemIds m) (log_address (qe_log q)) (is_itemId e) ∧
      toLowerCase (log_address (qe_log q)) ∈ collectionIds m
  | EvUpdateItemData e =>
      recorded (itemIds m) (log_address (qe_log q)) (ui_itemId e) ∧
      toLowerCase (log_address (qe_log q)) ∈ collectionIds m
  | EvTraded e =>
      ∃ t, getTradeEventData e DCL_MATIC = Some t ∧ tdd_collectionAddress t ∈ collectionIds m ∧
        tdd_seller t ∈ accountIds m ∧ tdd_buyer t ∈ accountIds m ∧
        ∀ tokenId, tdd_tokenId t = Some tokenId →
          recorded (tokenIds m) (tdd_collectionAddress t) tokenId
  | _ => toLowerCase (log_address (qe_log q)) ∈ collectionIds m
  end.

(** The identifiers to load only accumulate. *)
Record ids_grow (m m' : PolygonInMemoryState) : Prop := {
  ig_tokens : ∀ a t, recorded (tokenIds m) a t → recorded (tokenIds m') a t;
  ig_items : ∀ a t, recorded (itemIds m) a t → recorded (itemIds m') a t;
  ig_accounts : accountIds m ⊆ accountIds m';
  ig_collections : collectionIds m ⊆ collectionIds m';
  ig_bids : bidIds m ⊆ bidIds m'
}.

#[export] Instance ids_grow_preorder : PreOrder ids_grow.
Proof.
  split; [intros m; by split|]. intros m1 m2 m3 [] []. split; [auto..| | |]; etransitivity; eauto.
Qed.

Lemma needs_mono m m' q : ids_grow m m' → needs m q → needs m' q.
Proof.
  intros [G1 G2 G3 G4 G5]. unfold needs.
  destruct (qe_event q); try (intros; naive_solver).
Qed.

(** Nothing is queued. *)
Definition quiet (w w' : World) : Prop :=
  ids_grow (inMemoryData w) (inMemoryData w') ∧
  events (inMemoryData w') = events (inMemoryData w).

#[export] Instance quiet_preorder : PreOrder quiet.
Proof.
  split; [intros w; by split|]. intros w1 w2 w3 [G1 E1] [G2 E2].
  split; [by etransitivity|congruence].
Qed.

(** At most the event of [log] is queued, and what it needs is recorded. *)
Definition admits (block : BlockData) (log : Log) (w w' : World) : Prop :=
  ids_grow (inMemoryData w) (inMemoryData w') ∧
  (events (inMemoryData w') = events (inMemoryData w) ∨
   ∃ q, events (inMemoryData w') = events (inMemoryData w) ++ [q] ∧
     qe_block q = block ∧ qe_log q = log ∧ qe_event q = log_event log ∧
     needs (inMemoryData w') q).

Lemma quiet_admits block log {A} (m : M World A) : steps quiet m → steps (admits block log) m.
Proof. intros Hm w. destruct (Hm w). split; [done|by left]. Qed.

Lemma admits_bind block log {A B} (m : M World A) (k : A → M World B) :
  steps quiet m → (∀ a, steps (admits block log) (k a)) → steps (admits block log) (m ≫= k).
Proof.
  intros Hm Hk w. unfold mbind, M_bind. destruct (Hm w) as [G E].
  destruct (m w) as [[a|e] w1]; simpl in *; [|by split; [|left]].
  destruct (Hk a w1) as [G' [E'|(q & E' & Hq)]]; (split; [by etransitivity|]).
  - left. congruence.
  - right. exists q. split; [congruence|done].
Qed.

(** Recording identifiers queues nothing. *)
Ltac ids_leaf :=
  split; cbn; intros; rewrite ?recorded_push; first [done | by auto | set_solver].

Lemma quiet_modify f :
  (∀ m, ids_grow m (f m) ∧ events (f m) = events m) → steps quiet (modify (set inMemoryData f)).
Proof. intros Hf w. apply Hf. Qed.

Lemma addAccount_quiet a : steps quiet (addAccount a).
Proof. apply quiet_modify. intros m. split; [ids_leaf|done]. Qed.
Lemma addAnalytics_quiet a : steps quiet (addAnalytics a).
Proof. apply quiet_modify. intros m. split; [ids_leaf|done]. Qed.
Lemma addItemDay_quiet a : steps quiet (addItemDay a).
Proof. apply quiet_modify. intros m. split; [ids_leaf|done]. Qed.
Lemma addBid_quiet a : steps quiet (addBid a).
Proof. apply quiet_modify. intros m. split; [ids_leaf|done]. Qed.
Lemma addToken_quiet a t : steps quiet (addToken a t).
Proof. apply quiet_modify. intros m. split; [ids_leaf|done]. Qed.
Lemma addItemId_quiet a t : steps quiet (addItemId a t).
Proof. apply quiet_modify. intros m. split; [ids_leaf|done]. Qed.
Lemma addCollection_quiet a : steps quiet (addCollection a).
Proof. apply quiet_modify. intros m. split; [ids_leaf|done]. Qed.
Lemma quiet_elsewhere f : (∀ w, inMemoryData (f w) = inMemoryData w) → steps quiet (modify f).
Proof. intros Hf w. unfold quiet. simpl. by rewrite Hf. Qed.

#[local] Hint Resolve addAccount_quiet addAnalytics_quiet addItemDay_quiet addBid_quiet
  addToken_quiet addItemId_quiet addCollection_quiet : frame.
#[local] Hint Extern 1 (steps quiet (modify _)) => (by apply quiet_elsewhere) : frame.

(** A queued event, once what it needs is recorded. *)
Lemma push_admits block log q w0 w :
  quiet w0 w → qe_block q = block → qe_log q = log → qe_event q = log_event log →
  needs (inMemoryData w) q → admits block log w0 (push q w).2.
Proof.
  intros [G E] H1 H2 H3 Hq. split; [by destruct G|]. right. exists q.
  split; [cbn; by rewrite E|]. by split_and!.
Qed.

(** Runs the recording of identifiers down to the queue. *)
Ltac run_to_push :=
  repeat lazymatch goal with
  | |- context [mbind ?k ?m ?w] =>
      lazymatch m with
      | push _ => fail
      | _ => rewrite (bind_ok m k w _ _ eq_refl)
      end
  end.

(** The queue grows by an event whose needs have just been recorded. *)
Ltac push_recorded Hev :=
  apply push_admits;
  [ split; [ids_leaf|done] | done | done | done
  | unfold needs; cbn [qe_event marketEvent collectionEvent qe_log]; rewrite Hev; cbn;
    rewrite ?recorded_push; first [by auto | set_solver] ].

Lemma accumulateOrder_admits day an block log :
  steps (admits block log) (accumulateOrder day an block log).
Proof.
  unfold accumulateOrder. destruct (isMarketplace _); [|by apply quiet_admits; frames].
  destruct (log_event log) eqn:Hev; try (by apply quiet_admits; frames); intros w;
    run_to_push; push_recorded Hev.
Qed.

Lemma accumulateBid_admits day an block log :
  steps (admits block log) (accumulateBid day an block log).
Proof.
  unfold accumulateBid.
  destruct (log_event log) eqn:Hev; try (by apply quiet_admits; frames); intros w;
    run_to_push; push_recorded Hev.
Qed.

Lemma push_then_return block log q w0 w {A} (a : A) :
  admits block log w0 (push q w).2 → admits block log w0 ((_ ← push q; mret a) w).2.
Proof. done. Qed.

Lemma accumulateCollection_admits day an t block log acc :
  match log_event log with
  | EvSetGlobalMinter _ | EvSetGlobalManager _ | EvSetItemMinter _ | EvSetItemManager _
  | EvAddItem _ | EvRescueItem _ | EvUpdateItemData _ | EvIssue _ | EvSetApproved _
  | EvSetEditable _ | EvComplete | EvCreatorshipTransferred _ | EvOwnershipTransferred _
  | EvTransfer _ => True
  | _ => False
  end →
  steps (admits block log) (accumulateCollection day an t block log acc).
Proof.
  intros Hc. unfold accumulateCollection.
  destruct (bool_decide _); [|by apply quiet_admits; frames].
  unfold refreshSnapshot.
  destruct (log_event log) eqn:Hev; try done; destruct (raritiesSnapshotDirty acc); intros w;
    run_to_push; apply push_then_return; push_recorded Hev.
Qed.

Lemma tradeDataOf_exclusive asset payment itemId tokenId :
  tdd_itemId (tradeDataOf asset payment) = Some itemId →
  tdd_tokenId (tradeDataOf asset payment) ≠ Some tokenId.
Proof.
  unfold tradeDataOf. simpl. repeat case_decide; try done. unfold ERC721, ITEM in *. congruence.
Qed.

Lemma getTradeEventData_exclusive e t itemId tokenId :
  getTradeEventData e DCL_MATIC = Some t → tdd_itemId t = Some itemId → tdd_tokenId t ≠ Some tokenId.
Proof.
  unfold getTradeEventData. repeat case_match; try done;
    intros [= <-]; apply tradeDataOf_exclusive.
Qed.

Lemma accumulateTraded_admits day an block log e acc :
  log_event log = EvTraded e → steps (admits block log) (accumulateTraded day an block log e acc).
Proof.
  intros Hev. unfold accumulateTraded.
  destruct (getTradeEventData e DCL_MATIC) as [t|] eqn:Ht; [|by apply quiet_admits; frames].
  assert (∀ tokenId, (∀ z, tdd_tokenId t = Some z → tokenId = Some z) →
    steps (admits block log) (
      _ ← addCollection (tdd_collectionAddress t);
      if truthy_bigint tokenId then
        _ ← addToken (tdd_collectionAddress t) (default 0 tokenId);
        _ ← addAccount (tdd_seller t);
        _ ← addAccount (tdd_buyer t);
        _ ← addAnalytics an;
        _ ← addItemDay match tdd_itemId t with
              | Some itemId =>
                  day +:+ "-" +:+ (tdd_collectionAddress t +:+ "-" +:+ pretty itemId)
              | None =>
                  placeholderId day (tdd_collectionAddress t) (pretty (default 0 tokenId))
              end;
        acc ← refreshSnapshot acc;
        _ ← push (collectionEvent block log (currentRaritiesSnapshot acc));
        mret acc
      else mret acc)) as Htail.
  { intros tokenId Htok. destruct (truthy_bigint tokenId); [|by apply quiet_admits; frames].
    unfold refreshSnapshot. destruct (raritiesSnapshotDirty acc); intros w; run_to_push;
      apply push_then_return, push_admits; try done.
    all: try (split; [ids_leaf|done]).
    all: unfold needs; cbn [qe_event collectionEvent]; rewrite Hev; exists t;
      (split_and!; [done|cbn; set_solver..|]); intros z Hz; cbn; rewrite (Htok z Hz);
      apply recorded_push; by left. }
  destruct (tdd_itemId t) as [itemId|] eqn:Hitem.
  - apply admits_bind; [frames|]. intros tokenId. apply Htail. intros z Hz.
    by destruct (getTradeEventData_exclusive e t itemId z Ht Hitem).
  - exact (Htail (tdd_tokenId t) (λ z Hz, Hz)).
Qed.

Lemma accumulateProxyCreated_quiet p pf block log a acc :
  steps quiet (accumulateProxyCreated p pf block log a acc).
Proof.
  unfold accumulateProxyCreated. frames.
  apply quiet_modify. intros m. split; [ids_leaf|done].
Qed.

Lemma accumulateFees_quiet log : steps quiet (accumulateFees log).
Proof.
  unfold accumulateFees, setMarketplaceV3FeeCollector, setMarketplaceV3FeeRate,
    setMarketplaceV3RoyaltiesRate, setMarketplaceOwnerCutPerMillion, setBidOwnerCutPerMillion,
    setStoreFee, setStoreFeeOwner. frames.
Qed.

Lemma accumulateMember_quiet log m v : steps quiet (accumulateMember log m v).
Proof.
  unfold accumulateMember. frames. apply quiet_modify. intros x. split; [ids_leaf|done].
Qed.

Lemma accumulateRarity_quiet block log acc : steps quiet (accumulateRarity block log acc).
Proof.
  unfold accumulateRarity, handleAddRarityEvent, handleUpdatePriceEvent, handleRaritiesSet,
    readRarities. frames.
Qed.

Lemma admits_return block log {A B} (m : M World A) (b : B) :
  steps (admits block log) m → steps (admits block log) (_ ← m; mret b).
Proof.
  intros Hm w. specialize (Hm w). unfold mbind, M_bind. by destruct (m w) as [[|] ?].
Qed.

Lemma accumulateLog_admits p pf t block log acc :
  steps (admits block log) (accumulateLog p pf t block log acc).
Proof.
  unfold accumulateLog. destruct (log_event log) eqn:Hev.
  all: lazymatch goal with
  | |- steps _ (mret _) => apply quiet_admits; frames
  | |- steps _ (accumulateProxyCreated _ _ _ _ _ _) =>
      apply quiet_admits, accumulateProxyCreated_quiet
  | |- steps _ (accumulateRarity _ _ _) => apply quiet_admits, accumulateRarity_quiet
  | |- steps _ (accumulateTraded _ _ _ _ _ _) => by apply accumulateTraded_admits
  | |- steps _ (accumulateCollection _ _ _ _ _ _) =>
      apply accumulateCollection_admits; by rewrite Hev
  | |- steps _ (mbind _ (accumulateFees _)) =>
      apply quiet_admits; frame_step; [apply accumulateFees_quiet|frames]
  | |- steps _ (mbind _ (accumulateMember _ _ _)) =>
      apply quiet_admits; frame_step; [apply accumulateMember_quiet|frames]
  | |- steps _ (mbind _ (accumulateOrder ?d ?a _ _)) =>
      apply admits_return, accumulateOrder_admits
  | |- steps _ (mbind _ (accumulateBid ?d ?a _ _)) =>
      apply admits_return, accumulateBid_admits
  end.
Qed.

(** ** The whole pass *)

(** The events queued come from [l], in order, with what they need recorded. *)
Definition queued (l : list (BlockData * Log)) (w w' : World) : Prop :=
  ids_grow (inMemoryData w) (inMemoryData w') ∧
  ∃ extra, events (inMemoryData w') = events (inMemoryData w) ++ extra ∧
    ((λ q, (qe_block q, qe_log q)) <$> extra) `sublist_of` l ∧
    Forall (λ q, qe_event q = log_event (qe_log q) ∧ needs (inMemoryData w') q) extra.

Lemma queued_nothing l w : queued l w w.
Proof.
  split; [done|]. exists []. rewrite app_nil_r. split_and!; [done|apply sublist_nil_l|done].
Qed.

Lemma queued_app l1 l2 w w1 w2 : queued l1 w w1 → queued l2 w1 w2 → queued (l1 ++ l2) w w2.
Proof.
  intros [G1 (x1 & E1 & S1 & F1)] [G2 (x2 & E2 & S2 & F2)].
  split; [by etransitivity|]. exists (x1 ++ x2). split_and!.
  - by rewrite E2, E1, app_assoc.
  - rewrite fmap_app. by apply sublist_app.
  - apply Forall_app. split; [|done]. eapply Forall_impl; [exact F1|].
    intros q [Hq Hn]. split; [done|]. by eapply needs_mono.
Qed.

Lemma queued_weaken l l' w w' : l `sublist_of` l' → queued l w w' → queued l' w w'.
Proof.
  intros Hl [G (x & E & S & F)]. split; [done|]. exists x. split_and!; [done| |done].
  by etransitivity.
Qed.

Lemma queued_bind l1 l2 {A B} (m : M World A) (k : A → M World B) :
  steps (queued l1) m → (∀ a, steps (queued l2) (k a)) → steps (queued (l1 ++ l2)) (m ≫= k).
Proof.
  intros Hm Hk w. unfold mbind, M_bind. specialize (Hm w).
  destruct (m w) as [[a|e] w1]; simpl in *.
  - eapply queued_app; [exact Hm|apply Hk].
  - eapply queued_weaken; [|exact Hm]. by apply sublist_inserts_r.
Qed.

Lemma admits_queued block log {A} (m : M World A) :
  steps (admits block log) m → steps (queued [(block, log)]) m.
Proof.
  intros Hm w. destruct (Hm w) as [G [E|(q & E & Hb & Hl & He & Hn)]]; (split; [done|]).
  - exists []. rewrite app_nil_r. split_and!; [done|apply sublist_nil_l|done].
  - exists [q]. split_and!; [done|simpl; by rewrite Hb, Hl|].
    apply Forall_singleton. by rewrite Hl.
Qed.

Lemma fold_each_queued {A B} (f : A → B → M World B) (g : A → list (BlockData * Log)) l b :
  (∀ x b, x ∈ l → steps (queued (g x)) (f x b)) →
  steps (queued (concat (g <$> l))) (fold_each l f b).
Proof.
  revert b. induction l as [|x l IH]; intros b Hf; simpl.
  - intros w. apply queued_nothing.
  - apply queued_bind; [apply Hf; set_solver|]. intros b'. apply IH.
    intros y b'' Hy. apply Hf. set_solver.
Qed.

Lemma singletons_concat {A B} (f : A → B) (l : list A) :
  f <$> l = concat ((λ x, [f x]) <$> l).
Proof. induction l as [|x l IH]; [done|]. exact (f_equal (cons (f x)) IH). Qed.

(** The logs of a batch, with their blocks, in chain order. *)
Definition logsOf (blocks : list BlockData) : list (BlockData * Log) :=
  concat ((λ block, (block,.) <$> bd_logs block) <$> blocks).

(** The first pass queues events in chain order, each at most once and as
    its log decodes, and for every queued event it has recorded the tokens,
    items, collections, bids and accounts its handler reads, whether or not the
    pass completes. *)
Theorem accumulate_queues p prefetched blocks acc w :
  let w' := (accumulate p prefetched blocks acc w).2 in
  ∃ extra, events (inMemoryData w') = events (inMemoryData w) ++ extra ∧
    ((λ q, (qe_block q, qe_log q)) <$> extra) `sublist_of` logsOf blocks ∧
    Forall (λ q, qe_event q = log_event (qe_log q) ∧ needs (inMemoryData w') q) extra.
Proof.
  enough (queued (logsOf blocks) w (accumulate p prefetched blocks acc w).2) as [_ Hq]
    by exact Hq.
  apply (fold_each_queued _ (λ block, (block,.) <$> bd_logs block)).
  intros block b _. apply (queued_bind []); [|intros t].
  - intros w'. unfold block_seconds. case_decide; apply queued_nothing.
  - refine (eq_ind_r (λ l, steps (queued l) _) _ (singletons_concat (block,.) (bd_logs block))).
    apply fold_each_queued. intros log acc' _. by apply admits_queued, accumulateLog_admits.
Qed.

(** ** Loading *)

(** The token an event is about. *)
Definition eventToken (q : QueuedEvent) : option (string * Z) :=
  match qe_event q with
  | EvOrderCreated e => Some (oc_nftAddress e, oc_assetId e)
  | EvOrderSuccessful e => Some (os_nftAddress e, os_assetId e)
  | EvOrderCancelled e => Some (ox_nftAddress e, ox_assetId e)
  | EvBidCreated e => Some (bc_tokenAddress e, bc_tokenId e)
  | EvBidAccepted e => Some (ba_tokenAddress e, ba_tokenId e)
  | EvBidCancelled e => Some (bx_tokenAddress e, bx_tokenId e)
  | EvTransfer e => Some (log_address (qe_log q), te_tokenId e)
  | EvTraded e =>
      t ← getTradeEventData e DCL_MATIC; tokenId ← tdd_tokenId t; Some (tdd_collectionAddress t, tokenId)
  | _ => None
  end.

Lemma needs_token m q a t : needs m q → eventToken q = Some (a, t) → recorded (tokenIds m) a t.
Proof.
  unfold needs, eventToken. destruct (qe_event q) eqn:E; intros Hn Ht;
    try discriminate Ht; try (injection Ht as <- <-; tauto).
  destruct Hn as (d & Hd & _ & _ & _ & Hrec). rewrite Hd in Ht. simpl in Ht.
  destruct (tdd_tokenId d) as [z|]; [|done]. injection Ht as <- <-. by apply Hrec.
Qed.

Lemma loadBatch_stored db w :
  let s := getStoredData db (inMemoryData w) in
  let s' := storedData (loadBatch db w).2 in
  accounts s' = accounts s ∧ nfts s' = nfts s ∧ orders s' = orders s ∧ items s' = items s.
Proof. done. Qed.

Lemma storedNFTs_lookup db ids a t nft :
  recorded (tokenIds ids) a t →
  db_nfts db !! (a +:+ "-" +:+ pretty t) = Some nft → nft_network nft = POLYGON →
  storedNFTs db ids !! (a +:+ "-" +:+ pretty t) = Some (loadedNFT nft).
Proof.
  intros (l & Hl & Ht) Hn Hnet. unfold storedNFTs. rewrite lookup_fmap.
  assert (find (db_nfts db) (λ id nft, isIn id (flatIds (tokenIds ids)) &&
    isPolygon (nft_network nft)) !! (a +:+ "-" +:+ pretty t) = Some nft) as ->; [|done].
  apply find_lookup. split; [done|]. rewrite andb_True, isIn_spec, isPolygon_spec.
  split; [|done]. apply flatIds_spec. by exists a, l, t.
Qed.

(** The handler of a queued event finds in memory what the database holds
    of its token: the token itself, every order about it, and its item. *)
Theorem loadBatch_token db w q a t nft :
  needs (inMemoryData w) q → eventToken q = Some (a, t) →
  let id := getNFTId a (pretty t) None in
  db_nfts db !! id = Some nft → nft_network nft = POLYGON →
  let s := storedData (loadBatch db w).2 in
  nfts s !! id = Some (loadedNFT nft) ∧
  (∀ orderId o, db_orders db !! orderId = Some o → ord_nft o = Some id →
     ord_network o = POLYGON → orders s !! orderId = Some (loadedOrder o)) ∧
  (∀ itemId item, nft_item nft = Some itemId → db_items db !! itemId = Some item →
     it_network item = POLYGON → items s !! itemId = Some item).
Proof.
  intros Hq Htok id Hn Hnet s. pose proof (needs_token _ _ _ _ Hq Htok) as Hrec.
  pose proof (storedNFTs_lookup db (inMemoryData w) a t nft Hrec Hn Hnet) as Hstored.
  assert (id ∈ flatIds (tokenIds (inMemoryData w))) as Hflat.
  { apply flatIds_spec. destruct Hrec as (l & Hl & Ht). by exists a, l, t. }
  destruct (loadBatch_stored db w) as (_ & E2 & E3 & E4). unfold s. rewrite E2, E3, E4.
  split_and!; [exact Hstored| |].
  - intros orderId o Ho Hid Hon. simpl. unfold storedOrders. rewrite lookup_fmap.
    match goal with |- _ <$> ?m !! _ = _ => assert (m !! orderId = Some o) as ->; [|done] end.
    apply find_lookup. split; [done|]. by rewrite Hid, andb_True, isIn_spec, isPolygon_spec.
  - intros itemId item Hi Hitem Hin. simpl. unfold storedItems. apply find_lookup.
    split; [done|]. rewrite andb_True, !orb_True, !isIn_spec, isPolygon_spec.
    split; [done|]. right. apply list_elem_of_omap. exists (loadedNFT nft). split; [|exact Hi].
    apply list_elem_of_fmap. exists (id, loadedNFT nft). split; [done|].
    by apply elem_of_map_to_list.
Qed.

(** An account that is not loaded. *)
Lemma storedAccounts_none db m a :
  a ∉ accountIds m →
  (∀ id item, items (getStoredData db m) !! id = Some item →
     it_creator item ≠ a ∧ it_beneficiary item ≠ a) →
  accounts (getStoredData db m) !! accountKey a POLYGON = None.
Proof.
  intros Ha Hitems. destruct (accounts (getStoredData db m) !! accountKey a POLYGON) as [acc|] eqn:E;
    [|done].
  apply getStoredData_accounts in E as (_ & _ & [Hin|(id & item & Hin & Heq)]); [done|].
  destruct (Hitems id item Hin). naive_solver.
Qed.

(** C40.  An account the batch does not load loses what the database holds of it: when
    an address that no event names and no loaded item pays is assigned to, as the
    fees collector of a sale is, the assignments apply to a new account, and the
    upserts of the batch write it over the row, whatever the row held, while the
    accounts the batch loaded keep what they had. *)
Theorem unloaded_account_reset db w a f :
  keyed acc_id (db_accounts db) → (∀ acc, acc_id (f acc) = acc_id acc) →
  a ∉ accountIds (inMemoryData w) →
  (∀ id item, items (getStoredData db (inMemoryData w)) !! id = Some item →
     it_creator item ≠ a ∧ it_beneficiary item ≠ a) →
  ∃ writes, ((_ ← loadBatch db; _ ← updateAccount a f; performUpserts) w).1 = Ok writes ∧
    accountTable (db_accounts db) writes =
    <[accountKey a POLYGON := f (createAccount a POLYGON)]> (db_accounts db).
Proof.
  intros Hkey Hf Ha Hitems.
  pose proof (storedAccounts_none db _ a Ha Hitems) as Hnone.
  rewrite (bind_ok _ _ _ _ _ (eq_refl : loadBatch db w = (Ok tt, (loadBatch db w).2))).
  assert (accounts (storedData (loadBatch db w).2) = accounts (getStoredData db (inMemoryData w)))
    as Hacc by reflexivity.
  rewrite (bind_ok _ _ _ _ _ (updateAccount_run _ _ _)).
  set (w1 := (loadBatch db w).2) in *.
  match goal with |- context [performUpserts ?x] => set (w2 := x) end.
  assert (accounts (storedData w2) =
    <[accountKey a POLYGON := f (createAccount a POLYGON)]> (accounts (storedData w1))) as Hw2.
  { unfold w2. change (accounts (storedData (set storedData (set accounts ?g) ?x)))
      with (g (accounts (storedData x))). unfold accountAt. by rewrite Hacc, Hnone. }
  assert (∀ k acc, accounts (storedData w1) !! k = Some acc → db_accounts db !! k = Some acc) as Hsub.
  { intros k acc. rewrite Hacc. intros Hk. by apply find_lookup in Hk as [? _]. }
  destruct (performUpserts_accounts (db_accounts db) w2) as (writes & w3 & -> & Htable).
  { rewrite Hw2. intros k acc [[<- <-]|[_ Hk]]%lookup_insert_Some; [by rewrite Hf|].
    by apply Hkey, Hsub. }
  exists writes. split; [done|]. rewrite Htable, Hw2, <- insert_union_l. f_equal.
  apply map_eq. intros k. destruct (accounts (storedData w1) !! k) as [acc|] eqn:E.
  - rewrite (lookup_union_Some_l _ _ _ acc E). symmetry. by apply Hsub.
  - by apply lookup_union_r.
Qed.

(** ** Placeholders *)

(** What [resolvePlaceholder] puts in place of an identifier. *)
Definition resolution (nfts : gmap string NFT) (id : string) : option string :=
  match split dash id with
  | day :: _ :: nftIdParts =>
      nft ← nfts !! join "-" nftIdParts;
      itemId ← nft_item nft;
      Some (day +:+ "-" +:+ itemId)
  | _ => None
  end.

Lemma resolvePlaceholder_resolution nfts id ids :
  resolvePlaceholder nfts id ids =
  match resolution nfts id with
  | Some x => {[x]} ∪ (ids ∖ {[id]})
  | None => ids
  end.
Proof.
  unfold resolvePlaceholder, resolution.
  destruct (split dash id) as [|day [|x l]]; [done|done|].
  destruct (nfts !! join "-" l) as [n|]; [|done]. simpl. by destruct (nft_item n).
Qed.

Lemma resolution_placeholder nfts day a t nft itemId :
  lacks dash day → nfts !! getNFTId a t None = Some nft → nft_item nft = Some itemId →
  resolution nfts (placeholderId day a t) = Some (day +:+ "-" +:+ itemId).
Proof.
  intros Hday Hn Hi. unfold resolution, placeholderId.
  change (day +:+ "-nft-" +:+ a +:+ "-" +:+ t)
    with (day +:+ String dash ("nft" +:+ String dash (a +:+ "-" +:+ t))).
  rewrite split_app by done. rewrite split_app by (vm_compute; intuition discriminate).
  change "-" with (String dash "") at 1. rewrite join_split.
  change (a +:+ "-" +:+ t) with (getNFTId a t None). rewrite Hn. simpl. by rewrite Hi.
Qed.

(** After the load, the day buckets to fetch are named by item: every
    placeholder of a loaded token is replaced by the bucket of the token's item
    on that day, and nothing else changes. *)
Theorem resolvePlaceholders_exact nfts ids x :
  (∀ id y, id ∈ ids → resolution nfts id = Some y → includes "-nft-" y = false) →
  x ∈ resolvePlaceholders nfts ids ↔
  (∃ id, id ∈ ids ∧ includes "-nft-" id = true ∧ resolution nfts id = Some x) ∨
  (x ∈ ids ∧ (includes "-nft-" x = false ∨ resolution nfts x = None)).
Proof.
  intros Hres. unfold resolvePlaceholders.
  assert (∀ l, (∀ id, id ∈ l → id ∈ ids ∧ includes "-nft-" id = true) →
    x ∈ foldr (resolvePlaceholder nfts) ids l ↔
    (∃ id, id ∈ l ∧ resolution nfts id = Some x) ∨
    (x ∈ ids ∧ (x ∉ l ∨ resolution nfts x = None))) as Hfold.
  { induction l as [|id l IH]; intros Hl; simpl; [set_solver|].
    specialize (IH (λ id' Hid', Hl id' (list_elem_of_further _ _ _ Hid'))).
    destruct (Hl id (list_elem_of_here _ _)) as [Hin Hinc].
    rewrite resolvePlaceholder_resolution.
    destruct (resolution nfts id) as [y|] eqn:Hy.
    - pose proof (Hres id y Hin Hy) as Hfalse.
      rewrite elem_of_union, elem_of_singleton, elem_of_difference, elem_of_singleton, IH.
      split.
      + intros [->|[[(i & Hi & Hx)|[Hx Hno]] Hne]]; [left; exists id; set_solver|..].
        * left. exists i. set_solver.
        * right. split; [done|]. set_solver.
      + intros [(i & [->|Hi]%elem_of_cons & Hx)|[Hx Hno]].
        * left. congruence.
        * destruct (decide (x = id)) as [->|Hne]; [|right; split; [left; eauto|done]].
          pose proof (Hres i id (proj1 (Hl i (list_elem_of_further _ _ _ Hi))) Hx). congruence.
        * destruct (decide (x = id)) as [->|Hne].
          { destruct Hno as [Hno|Hno]; [set_solver|congruence]. }
          right. split; [|done]. right. set_solver.
    - rewrite IH. split.
      + intros [(i & Hi & Hx)|[Hx Hno]]; [left; exists i; set_solver|].
        right. split; [done|]. destruct (decide (x = id)) as [->|]; [by right|set_solver].
      + intros [(i & [->|Hi]%elem_of_cons & Hx)|[Hx Hno]]; [congruence|left; eauto|].
        right. split; [done|]. set_solver. }
  rewrite Hfold.
  2: { intros id [Hid Hin]%list_elem_of_filter. rewrite elem_of_elements in Hin.
       by apply Is_true_true in Hid. }
  setoid_rewrite list_elem_of_filter. setoid_rewrite elem_of_elements.
  setoid_rewrite Is_true_true. split.
  - intros [(id & [Hinc Hin] & Hx)|[Hx [Hno|Hno]]]; [left; by exists id| |by right; auto].
    right. split; [done|]. left. destruct (includes "-nft-" x) eqn:E; [|done]. tauto.
  - intros [(id & Hin & Hinc & Hx)|[Hx [Hno|Hno]]]; [left; by exists id|..].
    + right. split; [done|]. left. intros [? _]. congruence.
    + right. auto.
Qed.
End batch.

(** ** Instances *)

#[local] Existing Instances Samples.env Samples.rpc Samples.publisher.

(** The purchase of the sample, as the first pass leaves it. *)
Definition purchaseQueued : World :=
  Samples.emptyWorld <| inMemoryData :=
    getBatchInMemoryState <| tokenIds := {["0xc1" := [7]]} |>
      <| accountIds := {["0xb1"; "0xb2"]} |> |>.

Example loadBatch_token_witness :
  let s := storedData (loadBatch Samples.database purchaseQueued).2 in
  nfts s !! "0xc1-7" = Some (loadedNFT Samples.listedNFT) ∧
  orders s !! "0x01" = Some (loadedOrder Samples.order) ∧
  items s !! "0xc1-0" = Some Samples.item.
Proof.
  destruct (loadBatch_token Samples.database purchaseQueued Samples.purchased "0xc1" 7
    Samples.listedNFT) as (H1 & H2 & H3).
  - split; [|split; decided]. exists [7]. split; [reflexivity|decided].
  - reflexivity.
  - vm_compute. reflexivity.
  - vm_compute. reflexivity.
  - split_and!; [exact H1|apply H2; vm_compute; reflexivity|apply H3; vm_compute; reflexivity].
Defined.

(** The fees collector of the sample has earned 25 in the database; after a
    purchase that pays it 125 more, its row says 125. *)
Example unloaded_account_reset_witness :
  (acc_earned <$> db_accounts Samples.database !! "0xda0-POLYGON") = Some 25 ∧
  ∃ writes,
    ((_ ← loadBatch Samples.database; _ ← updateAccount "0xda0" (creditFeesCollector 125);
      performUpserts) purchaseQueued).1 = Ok writes ∧
    (acc_earned <$> accountTable (db_accounts Samples.database) writes !! "0xda0-POLYGON") =
    Some 125.
Proof.
  split; [vm_compute; reflexivity|].
  destruct (unloaded_account_reset Samples.database purchaseQueued "0xda0"
    (creditFeesCollector 125)) as (writes & E1 & E2).
  - decided.
  - by intros [].
  - decided.
  - assert (map_Forall (λ _ item, it_creator item ≠ "0xda0" ∧ it_beneficiary item ≠ "0xda0")
      (items (getStoredData Samples.database (inMemoryData purchaseQueued)))) as Hf by decided.
    exact Hf.
  - exists writes. split; [exact E1|]. rewrite E2. vm_compute. reflexivity.
Defined.

(** The bucket of the sample's token on a day becomes that of its item. *)
Example resolvePlaceholders_exact_witness :
  let nfts := nfts (storedData Samples.onMarket) in
  "19675-0xc1-0" ∈ resolvePlaceholders nfts {[placeholderId "19675" "0xc1" "7"]}.
Proof.
  intros nfts. apply resolvePlaceholders_exact.
  - intros id y ->%elem_of_singleton. vm_compute. by intros [= <-].
  - left. exists (placeholderId "19675" "0xc1" "7"). split_and!; [set_solver|..];
      vm_compute; reflexivity.
Defined.
