(* ===== verification/ProcessorProofs.v ===== *)
(** * The end of a batch: gift notifications and cross-chain orders

    Which transfers of a batch are announced as gifts, and how the watermark keeps a
    gift from being announced twice.  The credits of a transaction are indexed under a
    key made of its block and position, and the orders of the batch are built by taking
    the key apart. *)

From Stdlib Require Import Ascii.
From S2P Require Import Prelude JsString Model Env State Common Store Batch Processor Samples.
From S2P Require Import BatchProofs.
Open Scope string_scope.
Open Scope list_scope.
Open Scope Z_scope.

Section notify.
Context `{Env, Publisher}.

(** A transfer later than [floor], not part of a sale, whose notification was
    delivered. *)
Definition delivered (floor : Z) (sold : gset string) (c : TransferGiftCandidate) : bool :=
  isGift floor sold c && publish_ok c.

(** The latest of a list of transfers, at least [z]. *)
Definition latest (z : Z) (l : list TransferGiftCandidate) : Z :=
  foldl (λ m c, Z.max m (tg_timestamp c)) z l.

Lemma latest_ge z l : z ≤ latest z l.
Proof.
  revert z. induction l as [|c l IH]; intros z; simpl; [lia|]. specialize (IH (Z.max z (tg_timestamp c))).
  unfold latest in *. lia.
Qed.

Lemma latest_bound z l c : c ∈ l → tg_timestamp c ≤ latest z l.
Proof.
  revert z. induction l as [|c' l IH]; intros z; [by rewrite elem_of_nil|].
  intros [->|Hin]%elem_of_cons; simpl; [|by apply IH].
  pose proof (latest_ge (Z.max z (tg_timestamp c')) l). unfold latest in *. lia.
Qed.

Lemma latest_attained z l : latest z l = z ∨ ∃ c, c ∈ l ∧ latest z l = tg_timestamp c.
Proof.
  revert z. induction l as [|c l IH]; intros z; simpl; [by left|].
  destruct (IH (Z.max z (tg_timestamp c))) as [E|(c' & Hin & E)].
  - unfold latest in *. rewrite E. destruct (Z.max_spec z (tg_timestamp c)) as [[_ ->]|[_ ->]].
    + right. exists c. split; [by left|done].
    + by left.
  - right. exists c'. split; [by right|done].
Qed.

Lemma publishGifts_filter floor sold l m :
  publishGifts floor sold l m =
  (filter (λ c, delivered floor sold c) l, latest m (filter (λ c, delivered floor sold c) l)).
Proof.
  revert m. induction l as [|c l IH]; intros m; simpl; [done|].
  rewrite filter_cons. fold (delivered floor sold c).
  destruct (delivered floor sold c) eqn:E.
  - rewrite IH. by rewrite decide_True by done.
  - rewrite IH. by rewrite decide_False by (intros []).
Qed.

(** [delivered], as a proposition. *)
Lemma delivered_spec floor sold c :
  delivered floor sold c ↔
  floor < tg_timestamp c ∧ (saleKey (tg_txHash c) (tg_nftId c) ∉ sold) ∧ publish_ok c = true.
Proof.
  unfold delivered, isGift. rewrite !andb_True, !bool_decide_spec. rewrite Is_true_true. tauto.
Qed.

Lemma soldKeys_spec sales k :
  k ∈ soldKeys sales ↔
  ∃ id s, sales !! id = Some s ∧ k = saleKey (sl_txHash s) (sl_nft s).
Proof.
  unfold soldKeys, Store.values. rewrite elem_of_list_to_set, list_elem_of_fmap. split.
  - intros (s & -> & Hs). apply list_elem_of_fmap in Hs as ([id s'] & -> & Hs).
    apply elem_of_map_to_list in Hs. by exists id, s'.
  - intros (id & s & Hs & ->). exists s. split; [done|].
    apply list_elem_of_fmap. exists (id, s). split; [done|]. by apply elem_of_map_to_list.
Qed.

Lemma giftFloor_ge last : minTransferNotificationTimestamp ≤ giftFloor last.
Proof. unfold giftFloor. destruct last; [case_decide; lia|lia]. Qed.

Lemma giftFloor_watermark t : 0 < t → t ≤ giftFloor (Some t).
Proof. intros Ht. unfold giftFloor. case_decide; lia. Qed.

(** The gifts announced are, in the order the transfers were seen, exactly
    those later than the floor that belong to no sale of the batch, the same
    transaction and token, and whose notification was delivered. *)
Theorem notifyGifts_exact last sales l :
  (notifyGifts last sales l).1 =
    filter (λ c, delivered (giftFloor last) (soldKeys sales) c) l ∧
  ∀ c, c ∈ (notifyGifts last sales l).1 ↔
    c ∈ l ∧ giftFloor last < tg_timestamp c ∧ publish_ok c = true ∧
    ∀ id s, sales !! id = Some s → saleKey (sl_txHash s) (sl_nft s) ≠
      saleKey (tg_txHash c) (tg_nftId c).
Proof.
  assert ((notifyGifts last sales l).1 =
    filter (λ c, delivered (giftFloor last) (soldKeys sales) c) l) as E.
  { unfold notifyGifts. by rewrite publishGifts_filter. }
  split; [done|]. intros c. rewrite E, list_elem_of_filter, delivered_spec, soldKeys_spec.
  split.
  - intros ((H1 & H2 & H3) & Hin). split_and!; [done..|].
    intros id s Hs Heq. apply H2. by exists id, s.
  - intros (Hin & H1 & H3 & H2). split_and!; [done| |done..].
    intros (id & s & Hs & Heq). by apply (H2 id s).
Qed.

(** The watermark the next batch reads, when it is the one this batch leaves. *)
Definition nextWatermark (last watermark : option Z) : option Z :=
  match watermark with Some m => Some m | None => last end.

(** C31.  No gift is announced twice: the watermark a batch leaves is above the
    one it read and at the last gift it announced, so a batch that reads it
    announces none of those gifts again, whatever its sales. *)
Theorem notifyGifts_once last sales sales' l l' :
  0 ≤ minTransferNotificationTimestamp →
  let '(emitted, watermark) := notifyGifts last sales l in
  (∀ m, watermark = Some m → default 0 last < m ∧
     (∀ c, c ∈ emitted → tg_timestamp c ≤ m) ∧ ∃ c, c ∈ emitted ∧ tg_timestamp c = m) ∧
  (watermark = None → emitted = []) ∧
  ∀ c, c ∈ emitted → c ∉ (notifyGifts (nextWatermark last watermark) sales' l').1.
Proof.
  intros Hmin. unfold notifyGifts at 1. rewrite publishGifts_filter.
  set (floor := giftFloor last).
  set (E := filter (λ c, delivered floor (soldKeys sales) c) l).
  assert (∀ c, c ∈ E → floor < tg_timestamp c) as Habove.
  { intros c [Hc _]%list_elem_of_filter. by apply delivered_spec in Hc as (? & _). }
  assert (E ≠ [] → default 0 last < latest floor E ∧ 0 < latest floor E) as Hlast.
  { intros HE. destruct E as [|c E']; [done|].
    pose proof (Habove c (list_elem_of_here _ _)).
    pose proof (latest_bound floor (c :: E') c (list_elem_of_here _ _)).
    pose proof (giftFloor_ge last). unfold floor in *.
    destruct last as [t|]; cbn [default from_option id]; [|lia]. destruct (decide (0 < t)); [|lia].
    pose proof (giftFloor_watermark t). lia. }
  assert ((0 < length E)%nat → E ≠ []) as HE by (intros HE ->; simpl in HE; lia).
  split_and!.
  - case_decide as Hd; [|done]. intros m [= <-]. split_and!; [apply Hlast, HE, Hd|..].
    + intros c. apply latest_bound.
    + destruct (latest_attained floor E) as [Hf|(c & Hin & ->)]; [|by exists c].
      destruct E as [|c E']; [simpl in Hd; lia|].
      pose proof (Habove c (list_elem_of_here _ _)).
      pose proof (latest_bound floor (c :: E') c (list_elem_of_here _ _)). lia.
  - case_decide as Hd; [done|]. intros _. destruct E as [|c E']; [done|].
    destruct Hd. split; [simpl; lia|]. by apply Hlast.
  - intros c Hc Hin. destruct (decide (E = [])) as [HE0|HE0]; [rewrite HE0 in Hc; set_solver|].
    destruct (Hlast HE0) as [Hl Hpos].
    rewrite decide_True in Hin.
    2: { split; [|done]. destruct E; [done|simpl; lia]. }
    unfold nextWatermark, notifyGifts in Hin. rewrite publishGifts_filter in Hin.
    cbn [fst] in Hin.
    apply list_elem_of_filter in Hin as [Hin _]. apply delivered_spec in Hin as (Hin & _).
    pose proof (latest_bound floor E c Hc). pose proof (giftFloor_watermark _ Hpos). lia.
Qed.

(** A batch of blocks that were already notified does announce gifts: its
    watermark is read as absent, which lifts the floor down to the one of the
    environment, so a gift between the two is announced again and the watermark
    in the database moves back to it. *)
Theorem historical_gifts_replayed db n t lastBlockTimestamp c :
  0 ≤ minTransferNotificationTimestamp →
  lastNotifiedLoaded n = true → cachedLastNotified n = Some t → lastBlockTimestamp ≤ t →
  minTransferNotificationTimestamp < tg_timestamp c → tg_timestamp c < t →
  publish_ok c = true →
  let '(last, n') := readLastNotified db n lastBlockTimestamp in
  last = None ∧ n' = mkNotifyState (Some t) true ∧
  ∃ m, notifyGifts last ∅ [c] = ([c], Some m) ∧ m < t.
Proof.
  intros Hmin Hloaded Hcached Hle Hc Ht Hok. unfold readLastNotified.
  rewrite Hloaded, Hcached. rewrite decide_False by lia.
  split_and!; [done|done|]. exists (tg_timestamp c). split; [|done].
  assert (delivered minTransferNotificationTimestamp (soldKeys ∅) c = true) as Hd.
  { apply Is_true_true, delivered_spec. split_and!; [done| |done].
    rewrite soldKeys_spec. intros (? & ? & Hs & _). by rewrite lookup_empty in Hs. }
  unfold notifyGifts. rewrite publishGifts_filter, filter_cons.
  change (giftFloor None) with minTransferNotificationTimestamp. rewrite Hd.
  rewrite decide_True by done. simpl. rewrite Z.max_r by lia.
  rewrite decide_True; [done|]. split; [lia|]. simpl. lia.
Qed.
End notify.

(** ** Two transfers, one of them a purchase *)

#[local] Existing Instances Samples.env Samples.publisher.

Definition gift (txHash nftId : string) (timestamp : Z) : TransferGiftCandidate :=
  mkTransferGiftCandidate nftId "0xb1" "0xb2" None timestamp txHash.

Definition seen : list TransferGiftCandidate :=
  [gift "0xAA" "0xc1-7" 1700000010; gift "0xBB" "0xc1-8" 1700000020].

Example notifyGifts_once_witness :
  gift "0xBB" "0xc1-8" 1700000020 ∉ (notifyGifts (Some 1700000020) ∅ seen).1.
Proof.
  assert (0 ≤ minTransferNotificationTimestamp) as Hmin by (vm_compute; discriminate).
  assert (∀ c, c ∈ [gift "0xAA" "0xc1-7" 1700000010; gift "0xBB" "0xc1-8" 1700000020] →
    c ∉ (notifyGifts (Some 1700000020) ∅ seen).1) as Honce
    by exact (proj2 (proj2 (notifyGifts_once (Some 1700000001) ∅ ∅ seen seen Hmin))).
  apply Honce. right; left.
Defined.

Example historical_gifts_replayed_witness :
  ∃ m, notifyGifts None ∅ [gift "0xAA" "0xc1-7" 1700000010] =
    ([gift "0xAA" "0xc1-7" 1700000010], Some m) ∧ m < 1700000500.
Proof.
  refine (proj2 (proj2 (historical_gifts_replayed Samples.database
    (mkNotifyState (Some 1700000500) true) 1700000500 1700000400
    (gift "0xAA" "0xc1-7" 1700000010) _ eq_refl eq_refl _ _ _ eq_refl)));
    vm_compute; congruence.
Defined.

(** ** Transaction keys *)

Lemma txKeyOf_split h i : 0 ≤ h → 0 ≤ i → split dash (txKeyOf h i) = [pretty h; pretty i].
Proof.
  intros Hh Hi. unfold txKeyOf.
  change (pretty h +:+ "-" +:+ pretty i) with (pretty h +:+ String dash (pretty i)).
  rewrite split_app by (by apply lacks_dash_pretty).
  by rewrite split_lacks by (by apply lacks_dash_pretty).
Qed.

Lemma txKeyOf_inj h i h' i' :
  0 ≤ h → 0 ≤ h' → txKeyOf h i = txKeyOf h' i' → h = h' ∧ i = i'.
Proof.
  intros Hh Hh' Heq. unfold txKeyOf in Heq.
  apply (sep_inj dash) in Heq as [H1 H2]; [|by apply lacks_dash_pretty..].
  by apply (inj pretty) in H1, H2.
Qed.

Section squid.
Context `{Env, Rpc}.

(** The credit a log spends, if it comes from a credits manager. *)
Definition creditOf (log : Log) : option (string * Z) :=
  match log_event log with
  | EvCreditUsed creditId value =>
      if isCreditsManager (log_address log) then Some (creditId, value) else None
  | _ => None
  end.

(** The credits spent under a key. *)
Definition creditsAt (key : string) (l : list (BlockData * Log)) : list (string * Z) :=
  omap (λ '(block, log),
    if decide (txKeyOf (blk_height (bd_header block)) (log_transactionIndex log) = key)
    then creditOf log else None) l.

Lemma preIndexLog_credits key block log p :
  default [] (creditEventsByTx
    (preIndexLog (blk_height (bd_header block)) log p) !! key) =
  default [] (creditEventsByTx p !! key) ++ creditsAt key [(block, log)].
Proof.
  unfold preIndexLog, creditsAt, creditOf. simpl.
  set (k := txKeyOf _ _).
  destruct (log_event log); simpl; try (case_decide; by rewrite app_nil_r);
    try (destruct (isCollectionFactory _); case_decide; by rewrite app_nil_r);
    try (destruct (isSpoke _); case_decide; by rewrite app_nil_r).
  destruct (isCreditsManager _); [|case_decide; by rewrite app_nil_r].
  cbn [creditEventsByTx set eta]. unfold pushToMapArray. case_decide as Hk.
  - subst key. cbn. by rewrite lookup_insert_eq.
  - cbn. rewrite lookup_insert_ne by done. by rewrite app_nil_r.
Qed.

Lemma preIndex_fold blocks p :
  foldl (λ p block, foldl (λ p log, preIndexLog (blk_height (bd_header block)) log p) p
    (bd_logs block)) p blocks =
  foldl (λ p '(block, log), preIndexLog (blk_height (bd_header block)) log p) p (logsOf blocks).
Proof.
  revert p. induction blocks as [|b l IH]; intros p; [done|].
  unfold logsOf. simpl. rewrite IH, foldl_app. unfold logsOf. f_equal.
  generalize (bd_logs b) as logs. intros logs. revert p.
  induction logs as [|x logs IHl]; intros p; simpl; [done|]. apply IHl.
Qed.

Lemma preIndex_creditsAt blocks key :
  default [] (creditEventsByTx (preIndex blocks) !! key) = creditsAt key (logsOf blocks).
Proof.
  unfold preIndex. rewrite preIndex_fold.
  cut (∀ l p, default [] (creditEventsByTx (foldl (λ p '(block, log),
    preIndexLog (blk_height (bd_header block)) log p) p l) !! key) =
    default [] (creditEventsByTx p !! key) ++ creditsAt key l).
  { intros Hl. rewrite Hl. cbn. by rewrite lookup_empty. }
  induction l as [|[b x] l IH]; intros p; simpl; [by rewrite app_nil_r|].
  rewrite IH, preIndexLog_credits, <- app_assoc. f_equal.
  unfold creditsAt. simpl. by case_match.
Qed.

(** The credits indexed for a transaction are those of its own logs, in
    log order: no two transactions of the batch share a key. *)
Theorem preIndex_credits blocks h i :
  0 ≤ h → Forall (λ block, 0 ≤ blk_height (bd_header block)) blocks →
  default [] (creditEventsByTx (preIndex blocks) !! txKeyOf h i) =
  omap (λ '(block, log),
    if decide (blk_height (bd_header block) = h ∧ log_transactionIndex log = i)
    then creditOf log else None) (logsOf blocks).
Proof.
  intros Hh Hblocks. rewrite preIndex_creditsAt. unfold creditsAt.
  assert (∀ b log, (b, log) ∈ logsOf blocks → 0 ≤ blk_height (bd_header b)) as Hpos.
  { intros b log Hin. unfold logsOf in Hin. apply list_elem_of_In, in_concat in Hin
      as (l & Hl%list_elem_of_In & Hin%list_elem_of_In).
    apply list_elem_of_fmap in Hl as (b' & -> & Hb').
    apply list_elem_of_fmap in Hin as (log' & [= -> ->] & _).
    by eapply (proj1 (Forall_forall _ _)) in Hblocks. }
  apply list_omap_ext, Forall_Forall2_diag, Forall_forall. intros [b x] Hin.
  assert (txKeyOf (blk_height (bd_header b)) (log_transactionIndex x) = txKeyOf h i ↔
    blk_height (bd_header b) = h ∧ log_transactionIndex x = i) as Hiff.
  { split; [|by intros [-> ->]]. by apply txKeyOf_inj; [apply (Hpos b x)|]. }
  destruct (decide _) as [Hd|Hd], (decide (_ ∧ _)) as [Hd'|Hd']; tauto.
Qed.

(** Searching for a value that may be missing, when it is there. *)
Lemma list_find_Some_eq {A} (f : A → Z) z (l : list A) :
  list_find (λ x, Some (f x) = Some z) l = list_find (λ x, f x = z) l.
Proof. apply list_find_ext. intros x. split; [by intros [= ->]|by intros ->]. Qed.

Lemma foldl_add (l : list Z) : foldl Z.add 0 l = foldr Z.add 0 l.
Proof.
  cut (∀ a, foldl Z.add a l = a + foldr Z.add 0 l); [intros ->; lia|].
  induction l as [|x l IH]; intros a; simpl; [|rewrite IH]; lia.
Qed.

(** The hash of the first log of a transaction. *)
Definition transactionHashAt (block : BlockData) (i : Z) : string :=
  match list_find (λ l, log_transactionIndex l = i) (bd_logs block) with
  | Some (_, l) => if decide (log_transactionHash l = "") then "unknown"
                   else log_transactionHash l
  | None => "unknown"
  end.

(** The key of a transaction leads back to it: the cross-chain order of a
    transaction that spent credits is dated and numbered by the block of the
    key, carries the hash of the transaction of the key, and its total is the
    sum of the credits listed. *)
Theorem squidRouterOrder_roundtrip blocks credits h i orderHash events n block timestamp w :
  0 ≤ h → 0 ≤ i → credits !! txKeyOf h i = Some events → events ≠ [] →
  list_find (λ b, blk_height (bd_header b) = h) blocks = Some (n, block) →
  blk_timestamp (bd_header block) = timestamp * 1000 →
  squidRouterOrder blocks credits (txKeyOf h i) orderHash w =
  (Ok (Some {|
     sro_id := orderHash; sro_orderHash := orderHash;
     sro_creditIds := events.*1;
     sro_totalCreditsUsed := foldr Z.add 0 events.*2;
     sro_txHash := transactionHashAt block i;
     sro_blockNumber := h; sro_timestamp := timestamp; sro_network := POLYGON
   |}), w).
Proof.
  intros Hh Hi Hc Hne Hb Ht. apply list_find_Some in Hb as Hbh. destruct Hbh as (_ & Hbh & _).
  unfold squidRouterOrder. rewrite Hc. destruct events as [|c events]; [done|].
  cbv zeta. change (default [] (Some (c :: events))) with (c :: events). cbv iota.
  rewrite txKeyOf_split by done.
  cbn [head mbind option_bind lookup list_lookup].
  rewrite !parseInt_pretty, (list_find_Some_eq _ h), Hb by done. cbv iota beta.
  rewrite (bind_ok _ _ _ _ _ (block_seconds_ok _ w timestamp Ht)).
  rewrite (list_find_Some_eq _ i), foldl_add, Hbh.
  reflexivity.
Qed.
End squid.

(** ** Instances *)

#[local] Existing Instances Samples.env Samples.rpc.

(** A transaction that spends two credits and pays for a cross-chain order. *)
Definition creditUsed (creditId : string) (value : Z) : Log :=
  Samples.log (default "" (head (CreditsManager getAddresses))) (EvCreditUsed creditId value).

Definition creditBlocks : list BlockData :=
  [Samples.blockData 1 [creditUsed "0xcc1" 100];
   Samples.blockData 2 [creditUsed "0xcc2" 40; creditUsed "0xcc3" 2]].

Example preIndex_credits_witness :
  default [] (creditEventsByTx (preIndex creditBlocks) !! txKeyOf 30000002 3) =
  [("0xcc2", 40); ("0xcc3", 2)].
Proof.
  rewrite preIndex_credits; [vm_compute; reflexivity|lia|].
  repeat constructor; vm_compute; discriminate.
Defined.

Example squidRouterOrder_roundtrip_witness :
  ∃ order, squidRouterOrder creditBlocks (creditEventsByTx (preIndex creditBlocks))
    (txKeyOf 30000002 3) "0x0dd" Samples.emptyWorld = (Ok (Some order), Samples.emptyWorld) ∧
    sro_totalCreditsUsed order = 42 ∧ sro_txHash order = "0x7a".
Proof.
  eexists. split.
  - apply (squidRouterOrder_roundtrip creditBlocks _ 30000002 3 "0x0dd"
      [("0xcc2", 40); ("0xcc3", 2)] 1%nat
      (Samples.blockData 2 [creditUsed "0xcc2" 40; creditUsed "0xcc3" 2]) 1700000002 Samples.emptyWorld);
      vm_compute; first [reflexivity | discriminate].
  - vm_compute. split; reflexivity.
Defined.
