(* ===== verification/ParsingProofs.v ===== *)
(** * Parsing: theorems of the readers of untrusted text and of trades

    Comma-separated values, raw item metadata, and the legs of a trade. *)

From Stdlib Require Import Ascii.
From S2P Require Import Prelude JsString Model Env State Common Metadata Marketplace Samples.
Open Scope string_scope.
Open Scope list_scope.
Open Scope Z_scope.

(** ** Comma-separated values *)

(** A value, between quotes or not. *)
Inductive Field :=
  | Quoted (s : string)
  | Plain (s : string).

Definition content (f : Field) : string := match f with Quoted s | Plain s => s end.

Definition printField (f : Field) : string :=
  match f with
  | Quoted s => String quote (s +:+ String quote "")
  | Plain s => s
  end.

(** A line of values. *)
Definition printCSV (l : list Field) : string := join (String comma "") (printField <$> l).

(** A quoted value has no quote; a plain one has no comma, does not begin with
    a quote and is not empty. *)
Definition printable (f : Field) : Prop :=
  match f with
  | Quoted s => lacks quote s
  | Plain (String c s) => c ≠ quote ∧ c ≠ comma ∧ lacks comma s
  | Plain EmptyString => False
  end.

#[export] Instance printable_dec f : Decision (printable f).
Proof. destruct f as [s|[|c s]]; simpl; apply _. Defined.

(** What is read back: every value, but for a last one without quotes. *)
Fixpoint readable (l : list Field) : list string :=
  match l with
  | [] => []
  | [Plain _] => []
  | f :: l => content f :: readable l
  end.

Lemma substr_middle a b c :
  substr (String.length a) (String.length b) (a +:+ b +:+ c) = b.
Proof.
  unfold substr. induction a as [|x a IH]; [|exact IH].
  change ("" +:+ b +:+ c) with (b +:+ c). simpl.
  induction b as [|y b IH]; [by destruct c|]. exact (f_equal (String y) IH).
Qed.

Lemma loop_app csv i a b st :
  parseCSV_loop csv i (a +:+ b) st =
  parseCSV_loop csv (i + String.length a) b (parseCSV_loop csv i a st).
Proof.
  revert i st. induction a as [|x a IH]; intros i st; [by rewrite Nat.add_0_r|].
  change (parseCSV_loop csv (S i) (a +:+ b) (parseCSV_step csv i x st) =
    parseCSV_loop csv (i + S (String.length a)) b
      (parseCSV_loop csv (S i) a (parseCSV_step csv i x st))).
  rewrite IH. f_equal. lia.
Qed.

(** Inside a value, nothing happens up to its end. *)
Lemma loop_inside csv i s vs start state :
  match state with
  | BETWEEN => False
  | UNQUOTED_VALUE => lacks comma s
  | QUOTED_VALUE => lacks quote s
  end →
  parseCSV_loop csv i s (vs, start, state) = (vs, start, state).
Proof.
  revert i. induction s as [|c s IH]; intros i Hs; [done|]. cbn [parseCSV_loop].
  destruct state; [done|..]; destruct Hs as [Hc Hs]; cbn [parseCSV_step];
    rewrite decide_False by done; by apply IH.
Qed.

Lemma loop_quoted pre s rest vs start :
  let csv := pre +:+ printField (Quoted s) +:+ rest in
  lacks quote s → ∃ start',
  parseCSV_loop csv (String.length pre) (printField (Quoted s)) (vs, start, BETWEEN) =
  (vs ++ [s], start', BETWEEN).
Proof.
  intros csv Hs. exists (S (String.length pre)). cbn [printField parseCSV_loop parseCSV_step].
  rewrite decide_False, decide_True by done. rewrite loop_app, loop_inside by done.
  cbn [parseCSV_loop parseCSV_step]. rewrite decide_True by done. do 4 f_equal.
  assert (csv = (pre +:+ String quote "") +:+ s +:+ (String quote "" +:+ rest)) as ->.
  { unfold csv. rewrite !string_app_assoc. f_equal. simpl.
    change (String quote ((s +:+ String quote "") +:+ rest) =
            String quote (s +:+ (String quote "" +:+ rest))).
    by rewrite string_app_assoc. }
  etransitivity; [|apply (substr_middle (pre +:+ String quote "") s (String quote "" +:+ rest))].
  rewrite string_length_app. simpl (String.length (String quote "")). f_equal; lia.
Qed.

Lemma loop_plain pre s rest vs start :
  let csv := pre +:+ s +:+ String comma rest in
  printable (Plain s) → ∃ start',
  parseCSV_loop csv (String.length pre) (s +:+ String comma "") (vs, start, BETWEEN) =
  (vs ++ [s], start', BETWEEN).
Proof.
  destruct s as [|c s]; [done|]. intros csv (Hq & Hc & Hs). exists (String.length pre).
  rewrite loop_app. cbn [parseCSV_loop parseCSV_step].
  rewrite !decide_False by done. rewrite loop_inside by done.
  cbn [parseCSV_loop parseCSV_step]. rewrite decide_True by done. do 4 f_equal.
  etransitivity; [|apply (substr_middle pre (String c s) (String comma rest))].
  fold csv. simpl (String.length (String c s)). f_equal; lia.
Qed.

Lemma printCSV_cons f g l :
  printCSV (f :: g :: l) = printField f +:+ String comma (printCSV (g :: l)).
Proof. done. Qed.

Lemma parseCSV_loop_print l pre vs start :
  Forall printable l →
  (parseCSV_loop (pre +:+ printCSV l) (String.length pre) (printCSV l)
    (vs, start, BETWEEN)).1.1 = vs ++ readable l.
Proof.
  revert pre vs start. induction l as [|f [|g l] IH]; intros pre vs start Hl.
  - by rewrite app_nil_r.
  - apply List.Forall_inv in Hl. change (printCSV [f]) with (printField f).
    destruct f as [s|s].
    + destruct (loop_quoted pre s "" vs start Hl) as [start' E].
      rewrite string_app_nil_r in E. by rewrite E.
    + destruct s as [|c s]; [done|]. destruct Hl as (Hq & Hc & Hs).
      cbn [printField parseCSV_loop parseCSV_step]. rewrite !decide_False by done.
      rewrite loop_inside by done. by rewrite app_nil_r.
  - pose proof (List.Forall_inv Hl) as Hf. apply List.Forall_inv_tail in Hl. rewrite printCSV_cons.
    set (rest := printCSV (g :: l)) in *.
    assert (String comma rest = String comma "" +:+ rest) as Hrest by done.
    assert (∃ start',
      parseCSV_loop (pre +:+ printField f +:+ String comma rest) (String.length pre)
        (printField f +:+ String comma "") (vs, start, BETWEEN) =
      (vs ++ [content f], start', BETWEEN)) as [start' E].
    { destruct f as [s|s].
      - destruct (loop_quoted pre s (String comma rest) vs start Hf) as [start' E].
        exists start'. by rewrite loop_app, E.
      - destruct (loop_plain pre s rest vs start Hf) as [start' E]. by exists start'. }
    rewrite Hrest in E |- *. rewrite <- (string_app_assoc (printField f)) in E |- *.
    rewrite loop_app, E. rewrite <- string_app_assoc, <- string_length_app.
    rewrite IH by done. rewrite <- app_assoc. by destruct f.
Qed.

(** A line of values is read back value by value, quoted ones with the
    commas they contain; a value without quotes that ends the line is lost,
    since only a comma ends it. *)
Theorem parseCSV_print l : Forall printable l → parseCSV (printCSV l) = readable l.
Proof. exact (parseCSV_loop_print l "" [] 0%nat). Qed.

(** ** Trades *)

Section trades.
Context `{Env, Rpc}.

(** A trade is read off its leg in MANA: the price and the seller are the
    value and the beneficiary of that leg, the asset and the buyer those of the
    other, what is received being preferred as the payment; the asset is a token
    or an item, never both.  A trade neither side of which pays in MANA is
    ignored: its handler changes nothing. *)
Theorem getTradeEventData_reads e sent received :
  head (td_sent e) = Some sent → head (td_received e) = Some received →
  (∀ t, getTradeEventData e DCL_MATIC = Some t →
     (∃ asset payment,
        (asset, payment) = (if isManaLeg DCL_MATIC received then (sent, received) else (received, sent)) ∧
        isManaLeg DCL_MATIC payment = true ∧
        tdd_price t = ta_value payment ∧ tdd_seller t = ta_beneficiary payment ∧
        tdd_buyer t = ta_beneficiary asset ∧
        tdd_collectionAddress t = ta_contractAddress asset) ∧
     (tdd_tokenId t = None ∨ tdd_itemId t = None)) ∧
  (isManaLeg DCL_MATIC sent = false → isManaLeg DCL_MATIC received = false →
     ∀ block transaction w, handleTraded e block transaction w = (Ok tt, w)).
Proof.
  intros Hs Hr. unfold handleTraded, getTradeEventData, getTradeEventType. rewrite Hs, Hr.
  split.
  - intros t. destruct (isManaLeg DCL_MATIC received) eqn:E; [|destruct (isManaLeg DCL_MATIC sent) eqn:E'; [|done]];
      intros [= <-]; (split; [by eexists _, _|]); unfold tradeDataOf; simpl;
      repeat case_decide; auto; unfold ERC721, ITEM in *; congruence.
  - intros -> -> block transaction w. done.
Qed.
End trades.

(** ** Item metadata *)

(** The loop that would check the body shapes ends before its first turn. *)
Lemma isValidBodyShape_always l : isValidBodyShape l = true.
Proof. done. Qed.

Section metadata.
Context `{Env}.

(** The description of a wearable is read back field by field: a raw
    metadata string of a known category makes an item of the announced type
    whose wearable, stored with it, has the name, description, category and
    body shapes of the string, whatever the body shapes are. *)
Theorem buildItemMetadata_reads_wearable version kind itemType name description category
    shapes item collection w :
  Forall (lacks colon) [version; kind; name; description; category; shapes] →
  (kind, itemType) ∈ [("w", item_wearable_v2); ("sw", item_smart_wearable_v1)] →
  isValidWearableCategory category = true →
  it_rawMetadata item = join ":" [version; kind; name; description; category; shapes] →
  it_collection item = Some collection →
  ∃ m wearable, (buildItemMetadata item w).1 = Ok m ∧ md_itemType m = itemType ∧
    md_wearable m = Some wearable ∧
    wr_name wearable = name ∧ wr_description wearable = description ∧
    wr_category wearable = category ∧ wr_bodyShapes wearable = Some (split comma shapes) ∧
    wr_rarity wearable = it_rarity item ∧ wr_collection wearable = collection ∧
    let s' := storedData (buildItemMetadata item w).2 in
    wearables s' !! it_id item = Some wearable ∧ metadatas s' !! it_id item = Some m.
Proof.
  intros Hall Hkind Hcat Hraw Hcol.
  assert (split colon (it_rawMetadata item) =
          [version; kind; name; description; category; shapes]) as Hsplit.
  { rewrite Hraw. change ":" with (String colon ""). by apply split_join. }
  assert (∀ w, ∃ wearable, buildWearableItem item w = (Ok (Some wearable), w) ∧
    wr_name wearable = name ∧ wr_description wearable = description ∧
    wr_category wearable = category ∧ wr_bodyShapes wearable = Some (split comma shapes) ∧
    wr_rarity wearable = it_rarity item ∧ wr_collection wearable = collection) as Hbuild.
  { intros w'. unfold buildWearableItem. rewrite Hsplit. cbv zeta.
    rewrite decide_True by (split_and!; [by left|done|done]).
    erewrite bind_ok by reflexivity. unfold item_collection_id. rewrite Hcol.
    eexists. split; [reflexivity|done]. }
  unfold buildItemMetadata. erewrite bind_ok by reflexivity. cbv zeta.
  set (metadata := default _ _). erewrite bind_ok by reflexivity.
  set (w1 := set storedData _ w). rewrite Hsplit. rewrite decide_True by (simpl; lia).
  change (part _ 1) with kind.
  assert ((if decide (kind = "w") then wearableMetadata item item_wearable_v2 metadata
           else if decide (kind = "sw")
           then wearableMetadata item item_smart_wearable_v1 metadata
           else if decide (kind = "e") then emoteMetadata item metadata
           else mret (metadata <| md_itemType := item_undefined |>)) =
          wearableMetadata item itemType metadata) as ->.
  { apply elem_of_cons in Hkind as [[= -> ->]|[= -> ->]%list_elem_of_singleton]; done. }
  destruct (Hbuild w1) as (wearable & E & Hf).
  assert (wearableMetadata item itemType metadata w1 =
    (Ok (metadata <| md_itemType := itemType |> <| md_wearable := Some wearable |>),
     set storedData (set wearables <[it_id item := wearable]>) w1)) as E2.
  { unfold wearableMetadata. by rewrite (bind_ok _ _ _ _ _ E). }
  rewrite (bind_ok _ _ _ _ _ E2). eexists _, wearable.
  split; [reflexivity|]. split; [done|]. split; [done|].
  destruct Hf as (-> & -> & -> & -> & -> & ->). split_and!; try done.
  - apply lookup_insert_eq.
  - apply lookup_insert_eq.
Qed.
End metadata.

(** ** Instances *)

#[local] Existing Instances Samples.env Samples.rpc.

Example parseCSV_print_witness :
  parseCSV (printCSV [Plain "0"; Quoted "A parcel, by the sea"; Plain "hill"]) =
  ["0"; "A parcel, by the sea"].
Proof. rewrite parseCSV_print; [reflexivity|]. decided. Defined.

(** A token sold for 90. *)
Definition soldForMana : TradedEventArgs := {|
  td_sent := [mkTradeAsset ERC721 "0xc1" 7 "0xb2"];
  td_received := [mkTradeAsset ERC20 (MANA_TOKEN getAddresses) 90 "0xb1"]
|}.

Example getTradeEventData_reads_witness :
  ∃ t, getTradeEventData soldForMana DCL_MATIC = Some t ∧ tdd_price t = 90 ∧ tdd_seller t = "0xb1" ∧
    tdd_buyer t = "0xb2".
Proof.
  eexists. split; [reflexivity|].
  destruct (getTradeEventData_reads soldForMana (mkTradeAsset ERC721 "0xc1" 7 "0xb2")
    (mkTradeAsset ERC20 (MANA_TOKEN getAddresses) 90 "0xb1")) as [Hread _]; [reflexivity..|].
  destruct (Hread _ eq_refl) as [(asset & payment & E & _ & -> & -> & -> & _) _].
  assert ((asset, payment) = (mkTradeAsset ERC721 "0xc1" 7 "0xb2",
    mkTradeAsset ERC20 (MANA_TOKEN getAddresses) 90 "0xb1")) as [= -> ->]
    by (rewrite E; vm_compute; reflexivity).
  tauto.
Defined.

(** The item of the sample, with body shapes that do not exist. *)
Example buildItemMetadata_reads_wearable_witness :
  let item := Samples.item <| it_rawMetadata := "1:w:Hat:A hat:hat:BaseDog,BaseCat" |> in
  ∃ m wearable, (buildItemMetadata item Samples.onSale).1 = Ok m ∧
    md_wearable m = Some wearable ∧ wr_name wearable = "Hat" ∧
    wr_bodyShapes wearable = Some ["BaseDog"; "BaseCat"].
Proof.
  intros item.
  destruct (buildItemMetadata_reads_wearable "1" "w" item_wearable_v2 "Hat" "A hat" "hat"
    "BaseDog,BaseCat" item "0xc1" Samples.onSale)
    as (m & wearable & E1 & _ & E2 & E3 & _ & _ & E4 & _);
    [decided|left|reflexivity|reflexivity|vm_compute; reflexivity|].
  exists m, wearable. split_and!; [exact E1|exact E2|exact E3|exact E4].
Defined.
