(* ===== verification/EthWearables.v ===== *)
(** * Ethereum wearables: tables

    The collections of [eth/data/wearables], one list per file.  A character of
    a description outside Latin-1 stands as its UTF-8 bytes: descriptions are
    copied, and [toLowerCase] leaves those bytes alone as it does the character. *)

From Stdlib Require Import Ascii.
From S2P Require Import Prelude.
Open Scope string_scope.
Open Scope list_scope.

(** One Latin-1 character. *)
Definition chr (n : N) : string := String (Ascii.ascii_of_N n) "".

(** [Representation], eth/data/wearables/Wearable.ts:1-24 *)
Record Representation := mkRepresentation {
  re_id : string;
  re_name : string;
  re_description : string;
  re_category : string;
  re_rarity : string;
  re_bodyShapes : list string
}.

(** [atari_launch], eth/data/wearables/atari_launch.ts:1-85 *)
Definition atari_launch : list Representation := [
  mkRepresentation "atari_blue_hat" "Blue Atari Cap"
    "Atari's signature logo on a blue cap."
    "hat" "epic" ["BaseMale"; "BaseFemale"];
  mkRepresentation "atari_green_hat" "Green Atari Cap"
    "Atari's signature logo on a green cap."
    "hat" "epic" ["BaseMale"; "BaseFemale"];
  mkRepresentation "atari_orange_hat" "Orange Atari Cap"
    "Atari's signature logo on an orange cap."
    "hat" "epic" ["BaseMale"; "BaseFemale"];
  mkRepresentation "atari_purple_hat" "Purple Atari Cap"
    "Atari's signature logo on a purple cap."
    "hat" "epic" ["BaseMale"; "BaseFemale"];
  mkRepresentation "atari_red_hat" "Red Atari Cap"
    "Atari's signature logo on a red cap."
    "hat" "epic" ["BaseMale"; "BaseFemale"];
  mkRepresentation "atari_blue_upper_body" "Blue Atari Tee"
    "Atari's signature logo on a blue tee."
    "upper_body" "epic" ["BaseMale"; "BaseFemale"];
  mkRepresentation "atari_green_upper_body" "Green Atari Tee"
    "Atari's signature logo on a green tee."
    "upper_body" "epic" ["BaseMale"; "BaseFemale"];
  mkRepresentation "atari_orange_upper_body" "Orange Atari Tee"
    "Atari's signature logo on an orange tee."
    "upper_body" "epic" ["BaseMale"; "BaseFemale"];
  mkRepresentation "atari_purple_upper_body" "Purple Atari Tee"
    "Atari's signature logo on a purple tee."
    "upper_body" "epic" ["BaseMale"; "BaseFemale"];
  mkRepresentation "atari_red_upper_body" "Red Atari Tee"
    "Atari's signature logo on a red tee."
    "upper_body" "epic" ["BaseMale"; "BaseFemale"]
].

(** [binance_us_collection], eth/data/wearables/binance_us_collection.ts:1-21 *)
Definition binance_us_collection : list Representation := [
  mkRepresentation "binance_us_hat" "Binance US Hat"
    "Binance US Hat"
    "hat" "uncommon" ["BaseMale"; "BaseFemale"];
  mkRepresentation "binance_us_upper_body" "Binance US Hoodie"
    "Binance US Hoodie"
    "upper_body" "uncommon" ["BaseMale"; "BaseFemale"]
].

(** [china_flying], eth/data/wearables/china_flying.ts:1-53 *)
Definition china_flying : list Representation := [
  mkRepresentation "china_flying_hair_female" "China flying hair"
    "Chinese Flying clothing is the expression of yearning for the sky and space, which is the most talented creation of Chinese artists."
    "hair" "legendary" ["BaseFemale"];
  mkRepresentation "china_flying_hair_male" "China flying boyHair"
    "Chinese Flying clothing is the expression of yearning for the sky and space, which is the most talented creation of Chinese artists."
    "hair" "legendary" ["BaseMale"];
  mkRepresentation "china_flying_pants" "China flying pants"
    "Chinese Flying clothing is the expression of yearning for the sky and space, which is the most talented creation of Chinese artists."
    "lower_body" "legendary" ["BaseMale"];
  mkRepresentation "china_flying_skirt" "China flying skirt"
    "Chinese Flying clothing is the expression of yearning for the sky and space, which is the most talented creation of Chinese artists."
    "lower_body" "legendary" ["BaseFemale"];
  mkRepresentation "china_flying_clothes_female" "China flying clothes"
    "Chinese Flying clothing is the expression of yearning for the sky and space, which is the most talented creation of Chinese artists."
    "upper_body" "legendary" ["BaseFemale"];
  mkRepresentation "china_flying_clothes_male" "China flying boyClothes"
    "Chinese Flying clothing is the expression of yearning for the sky and space, which is the most talented creation of Chinese artists."
    "upper_body" "legendary" ["BaseMale"]
].

(** [community_contest], eth/data/wearables/community_contest.ts:1-436 *)
Definition community_contest : list Representation := [
  mkRepresentation "cw_peacock_feather_earring" "Peacock Feather Earrings"
    ""
    "earring" "epic" ["BaseFemale"; "BaseMale"];
  mkRepresentation "cw_aviator_googles_eyewear" "Aviator Goggles"
    ""
    "eyewear" "mythic" ["BaseFemale"; "BaseMale"];
  mkRepresentation "cw_bitcoinglasses_eyewear" "Bitcoin Eyewear"
    ""
    "eyewear" "legendary" ["BaseFemale"; "BaseMale"];
  mkRepresentation "cw_cyborg_monocle_eyewearraver" "Cyborg Monocle (It's over 9000!!!)"
    "It's over 9000!!!"
    "eyewear" "mythic" ["BaseFemale"; "BaseMale"];
  mkRepresentation "cw_monocle_eyewear" "Monocle Eyewear"
    ""
    "eyewear" "epic" ["BaseFemale"; "BaseMale"];
  mkRepresentation "cw_pineapple_eyewear" "Pineapple Eyewear"
    ""
    "eyewear" "epic" ["BaseFemale"; "BaseMale"];
  mkRepresentation "cw_raver_eyewear" "Raver Goggles"
    ""
    "eyewear" "legendary" ["BaseFemale"; "BaseMale"];
  mkRepresentation "cw_city_sneakers_feet" "City Decentraland Sneakers"
    ""
    "feet" "epic" ["BaseMale"; "BaseFemale"];
  mkRepresentation "cw_hazmat_shoes_feet" "Hazmat Shoes"
    ""
    "feet" "mythic" ["BaseMale"; "BaseFemale"];
  mkRepresentation "cw_raver_feet" "Raver Boots"
    ""
    "feet" "legendary" ["BaseMale"; "BaseFemale"];
  mkRepresentation "cw_rollers_feet" "Rollers"
    ""
    "feet" "mythic" ["BaseMale"; "BaseFemale"];
  mkRepresentation "cw_shoes_of_wonder_feet" "Shoes of Wonder"
    ""
    "feet" "mythic" ["BaseMale"; "BaseFemale"];
  mkRepresentation "f_cw_astronaut_shoes_feet" "Astronaut Shoes"
    ""
    "feet" "mythic" ["BaseFemale"];
  mkRepresentation "f_cw_trendy_sport_shoes_feet" "Trendy Sport Shoes"
    ""
    "feet" "mythic" ["BaseMale"; "BaseFemale"];
  mkRepresentation "m_cw_trendy_sport_shoes_feet" "Trendy Sport Sandals"
    ""
    "feet" "mythic" ["BaseMale"; "BaseFemale"];
  mkRepresentation "cw_acornknitcap_hat" "Acorn Knit Cap"
    ""
    "hat" "legendary" ["BaseMale"; "BaseFemale"];
  mkRepresentation "cw_aviator_helmet_hat" "Aviator Helmet"
    ""
    "hat" "mythic" ["BaseMale"; "BaseFemale"];
  mkRepresentation "cw_bell_attendant_hat" "Bell Attendant Hat"
    ""
    "hat" "legendary" ["BaseMale"; "BaseFemale"];
  mkRepresentation "cw_bluegarment_hat" "Blue Garment of Gratitude Hat"
    ""
    "hat" "legendary" ["BaseMale"; "BaseFemale"];
  mkRepresentation "cw_casinovisor_hat" "Casino Visor"
    ""
    "hat" "epic" ["BaseMale"; "BaseFemale"];
  mkRepresentation "cw_foam_big_hat" "Mexican Foam Hat"
    ""
    "hat" "epic" ["BaseMale"; "BaseFemale"];
  mkRepresentation "cw_greengarment_hat" "Green Garment of Gratitude Hat"
    ""
    "hat" "legendary" ["BaseMale"; "BaseFemale"];
  mkRepresentation "cw_hat_of_wonder_hat" "Hat of Wonder"
    ""
    "hat" "mythic" ["BaseMale"];
  mkRepresentation "cw_orangegarment_hat" "Orange Garment of Gratitude Hat"
    ""
    "hat" "legendary" ["BaseMale"; "BaseFemale"];
  mkRepresentation "cw_smiley_alien_hat" "Smiley Alien Hat"
    ""
    "hat" "legendary" ["BaseMale"; "BaseFemale"];
  mkRepresentation "cw_trendy_sport_hat" "Trendy Sport  Hat"
    ""
    "hat" "mythic" ["BaseMale"; "BaseFemale"];
  mkRepresentation "cw_western_hat" "Western Hat"
    ""
    "hat" "epic" ["BaseMale"; "BaseFemale"];
  mkRepresentation "cw_yellowgarment_hat" "Yellow Garment of Gratitude Hat"
    ""
    "hat" "legendary" ["BaseMale"; "BaseFemale"];
  mkRepresentation "f_cw_astronaut_helmet_helmet" "Decentraland Astronaut Helmet"
    ""
    "helmet" "mythic" ["BaseFemale"];
  mkRepresentation "cw_aviator_trousers_lower_body" "Aviator Trousers"
    ""
    "lower_body" "mythic" ["BaseMale"; "BaseFemale"];
  mkRepresentation "cw_bell_attendant_lower_body" "Bell Attendant Trousers"
    ""
    "lower_body" "legendary" ["BaseMale"; "BaseFemale"];
  mkRepresentation "cw_bluegarment_lower_body" "Blue Garment of Gratitude Trousers"
    ""
    "lower_body" "legendary" ["BaseMale"; "BaseFemale"];
  mkRepresentation "cw_greengarment_lower_body" "Green Garment of Gratitude Trousers"
    ""
    "lower_body" "legendary" ["BaseMale"; "BaseFemale"];
  mkRepresentation "cw_orangegarment_lower_body" "Orange Garment of Gratitude Trousers"
    ""
    "lower_body" "legendary" ["BaseMale"; "BaseFemale"];
  mkRepresentation "cw_raver_lower_body" "Raver Shorts"
    ""
    "lower_body" "legendary" ["BaseMale"; "BaseFemale"];
  mkRepresentation "cw_yellowgarment_lower_body" "Yellow Garment of Gratitude Trousers"
    ""
    "lower_body" "legendary" ["BaseMale"; "BaseFemale"];
  mkRepresentation "f_cw_astronaut_pants_lower_body" "Decentraland Astronaut Pants"
    ""
    "lower_body" "mythic" ["BaseFemale"];
  mkRepresentation "f_cw_trendy_pants_lower_body" "Trendy Sport Pants"
    ""
    "lower_body" "mythic" ["BaseFemale"];
  mkRepresentation "m_cw_pants_of_wonder_lower_body" "Trousers of Wonder"
    ""
    "lower_body" "mythic" ["BaseMale"];
  mkRepresentation "m_cw_trendy_pants_lower_body" "Trendy Sport Pants"
    ""
    "lower_body" "mythic" ["BaseMale"];
  mkRepresentation "cw_native_american_tiara" "Native American Hat"
    ""
    "tiara" "mythic" ["BaseMale"; "BaseFemale"];
  mkRepresentation "cw_fox_top_head" "Fox Hat"
    ""
    "top_head" "mythic" ["BaseMale"; "BaseFemale"];
  mkRepresentation "cw_hot_dog_top_head" "Sombrero de Hot Dog"
    ""
    "top_head" "legendary" ["BaseMale"; "BaseFemale"];
  mkRepresentation "cw_icecream_top_head" "Icecream Hat"
    ""
    "top_head" "mythic" ["BaseMale"; "BaseFemale"];
  mkRepresentation "cw_aviator_coat_upper_body" "Aviator Coat"
    ""
    "upper_body" "mythic" ["BaseMale"; "BaseFemale"];
  mkRepresentation "cw_bell_attendant_upper_body" "Bell Attendant Suit"
    ""
    "upper_body" "legendary" ["BaseMale"; "BaseFemale"];
  mkRepresentation "cw_bluegarment_upper_body" "Blue Pullover of Garment of Gratitude"
    ""
    "upper_body" "legendary" ["BaseMale"; "BaseFemale"];
  mkRepresentation "cw_cyberpunk_coat_upper_body" "CyberPunk Coat"
    ""
    "upper_body" "mythic" ["BaseMale"; "BaseFemale"];
  mkRepresentation "cw_greengarment_upper_body" "Green Pullover of Garment of Gratitude"
    ""
    "upper_body" "legendary" ["BaseMale"; "BaseFemale"];
  mkRepresentation "cw_hazmat_suit_upper_body" "Hazmat Suit"
    ""
    "upper_body" "mythic" ["BaseMale"; "BaseFemale"];
  mkRepresentation "cw_neon_jacket_upper_body" "Neon Cool Jacket"
    ""
    "upper_body" "mythic" ["BaseMale"; "BaseFemale"];
  mkRepresentation "cw_orangegarment_upper_body" "Orange Pullover of Garment of Gratitude"
    ""
    "upper_body" "legendary" ["BaseMale"; "BaseFemale"];
  mkRepresentation "cw_raver_upper_body" "Raver Top"
    ""
    "upper_body" "legendary" ["BaseMale"; "BaseFemale"];
  mkRepresentation "cw_tuxedo_tshirt_upper_body" "Tuxedo T Shirt"
    ""
    "upper_body" "epic" ["BaseMale"; "BaseFemale"];
  mkRepresentation "cw_yellowgarment_upper_body" "Yellow Pullover of Garment of Gratitude"
    ""
    "upper_body" "legendary" ["BaseMale"; "BaseFemale"];
  mkRepresentation "f_cw_astronaut_suit_upper_body" "Decentraland Astronaut Suit"
    ""
    "upper_body" "mythic" ["BaseFemale"];
  mkRepresentation "f_cw_trendy_jacket_upper_body" "Trendy Sportwear Jacket"
    ""
    "upper_body" "mythic" ["BaseFemale"];
  mkRepresentation "m_cw_coat_of_wonder_upper_body" "Coat of Wonder"
    ""
    "upper_body" "mythic" ["BaseMale"];
  mkRepresentation "m_cw_trendy_jacket_upper_body" "Trendy Sportwear Jacket"
    ""
    "upper_body" "mythic" ["BaseMale"]
].

(** [cybermike_cybersoldier_set], eth/data/wearables/cybermike_cybersoldier_set.ts:1-53 *)
Definition cybermike_cybersoldier_set : list Representation := [
  mkRepresentation "cybersoldier_nightvision_eyewear" "CYBERSOLDIER NIGHT VISION GOGGLES - Winter Soldier Collection - FROM CYBERMIKE"
    "By Cybermike - Live Free or Die Hard"
    "eyewear" "mythic" ["BaseMale"; "BaseFemale"];
  mkRepresentation "cybersoldier_boots_feet" "CYBERSOLDIER HASTE BOOTS - Winter Soldier Collection - Mark III - FROM CYBERMIKE"
    "By Cybermike - Live Free or Die Hard"
    "feet" "mythic" ["BaseMale"; "BaseFemale"];
  mkRepresentation "cybersoldier_helmet" "CYBERSOLDIER HELMET - Winter Soldier Collection - Mark III - FROM CYBERMIKE"
    "By Cybermike - Live Free or Die Hard"
    "helmet" "mythic" ["BaseMale"; "BaseFemale"];
  mkRepresentation "cybersoldier_leggings_lower_body" "CYBERSOLDIER LEGGINGS - Winter Soldier Collection - Mark III - FROM CYBERMIKE"
    "By Cybermike - Live Free or Die Hard"
    "lower_body" "mythic" ["BaseMale"; "BaseFemale"];
  mkRepresentation "cybersoldier_gas_mask" "CYBERSOLDIER GAS MASK - Winter Soldier Collection - FROM CYBERMIKE"
    "By Cybermike - Live Free or Die Hard"
    "mask" "mythic" ["BaseMale"; "BaseFemale"];
  mkRepresentation "cybersoldier_torso_upper_body" "CYBERSOLDIER TORSO - Winter Soldier Collection - Mark III - FROM CYBERMIKE"
    "By Cybermike - Live Free or Die Hard"
    "upper_body" "mythic" ["BaseMale"; "BaseFemale"]
].

(** [cz_mercenary_mtz], eth/data/wearables/cz_mercenary_mtz.ts:1-53 *)
Definition cz_mercenary_mtz : list Representation := [
  mkRepresentation "holo_display_eyewear" "Holo Display"
    "Gives vision of infected"
    "eyewear" "legendary" ["BaseMale"; "BaseFemale"];
  mkRepresentation "open_source_helmet" "Open Source"
    "Big brain energy"
    "helmet" "legendary" ["BaseMale"; "BaseFemale"];
  mkRepresentation "aero_guard_mask" "Aero Guard"
    "Complete Virus Protection. No social distancing required"
    "mask" "legendary" ["BaseMale"; "BaseFemale"];
  mkRepresentation "exo_blades_top_head" "Exo-blades"
    "HOOOOOOOOOOOOOOHHHHHHHHOHHHHHHHHHHOOOOOOOOOOOOOOOOOOOOHHOOOOOOOOOOOOOOOHOOOOOHOHOOOOOOOOOOOOOOOOOHOOOOOOOOOOOOOOOOOOOOOOOOO OH"
    "top_head" "legendary" ["BaseMale"; "BaseFemale"];
  mkRepresentation "regen_aura_top_head" "Regen Aura"
    "Heal your allies in battle"
    "top_head" "legendary" ["BaseMale"; "BaseFemale"];
  mkRepresentation "exo_suit_upper_body" "Exo-Suit"
    "Avatar anatomy enhancement designed for a select class of warrior."
    "upper_body" "legendary" ["BaseMale"; "BaseFemale"]
].

(** [dappcraft_moonminer], eth/data/wearables/dappcraft_moonminer.ts:1-53 *)
Definition dappcraft_moonminer : list Representation := [
  mkRepresentation "moonminer_goggles_eyewear" "DappCraft Moon Miner Goggles"
    "You can see reality as it is. "
    "eyewear" "legendary" ["BaseMale"; "BaseFemale"];
  mkRepresentation "moonminer_boots_feet" "DappCraft Moon Miner Boots"
    "Moonlight will recharge these  trousers to keep neon effect going"
    "feet" "legendary" ["BaseMale"; "BaseFemale"];
  mkRepresentation "moonminer_neurahairs_hair" "DappCraft Moon Miner Neurahairs"
    "Neuralink prototype, (not yet) approved by Elon. Use with caution."
    "hair" "legendary" ["BaseMale"; "BaseFemale"];
  mkRepresentation "moonminer_helmet" "DappCraft Moon Miner Helmet"
    "New level of crypto mining. Your brain is now connected to the neuro mining pool. Instant payouts. "
    "hat" "legendary" ["BaseMale"; "BaseFemale"];
  mkRepresentation "moonminer_pants_lower_body" "DappCraft Moon Miner Trousers"
    "Keep them away from sunlight. Colors might change."
    "lower_body" "legendary" ["BaseMale"; "BaseFemale"];
  mkRepresentation "moonminer_jacket_upper_body" "DappCraft Moon Miner Jacket"
    "Moonlight will recharge these  trousers to keep neon effect going"
    "upper_body" "legendary" ["BaseMale"; "BaseFemale"]
].

(** [dc_meta], eth/data/wearables/dc_meta.ts:1-53 *)
Definition dc_meta : list Representation := [
  mkRepresentation "meta_feet" "DC META 01000001"
    "01000100 01000011 00100000 01001101 01000101 01010100 01000001 00100000 01100110 01100101 01100101 01110100"
    "feet" "mythic" ["BaseMale"; "BaseFemale"];
  mkRepresentation "meta_hair" "DC META 01000100"
    "01000100 01000011 00100000 01001101 01000101 01010100 01000001 00100000 01001000 01100001 01101001 01110010"
    "hair" "mythic" ["BaseMale"; "BaseFemale"];
  mkRepresentation "meta_helmet" "DC META 01000011"
    "01000100 01000011 00100000 01001101 01000101 01010100 01000001 00100000 01101101 01101001 01101110 01100100"
    "helmet" "mythic" ["BaseMale"; "BaseFemale"];
  mkRepresentation "meta_lower_body" "DC META 01010100"
    "01000100 01000011 00100000 01001101 01000101 01010100 01000001 00100000 01101100 01100101 01100111 01110011"
    "lower_body" "mythic" ["BaseMale"; "BaseFemale"];
  mkRepresentation "meta_tiara" "DC META 01001101"
    "01000100 01000011 00100000 01001101 01000101 01010100 01000001 00100000 01110011 01101111 01110101 01101100"
    "tiara" "mythic" ["BaseMale"; "BaseFemale"];
  mkRepresentation "meta_upper_body" "DC META 01000101"
    "01000100 01000011 00100000 01001101 01000101 01010100 01000001 00100000 01100010 01101111 01100100 01111001"
    "upper_body" "mythic" ["BaseMale"; "BaseFemale"]
].

(** [dc_niftyblocksmith], eth/data/wearables/dc_niftyblocksmith.ts:1-53 *)
Definition dc_niftyblocksmith : list Representation := [
  mkRepresentation "blocksmith_eyewear" "DC Nifty Blocksmith Diamantex"
    "Diamantex TM"
    "eyewear" "legendary" ["BaseMale"; "BaseFemale"];
  mkRepresentation "blocksmith_feet" "DC Nifty Blocksmith Boots"
    "These boots will leave digital footprints wherever you go"
    "feet" "legendary" ["BaseMale"; "BaseFemale"];
  mkRepresentation "blocksmith_helmet" "DC Nifty Blocksmith Helmet"
    "This unique helmet will keep your thoughts positively focused. Zero toxicity."
    "helmet" "legendary" ["BaseMale"; "BaseFemale"];
  mkRepresentation "blocksmith_lower_body" "DC Nifty Blocksmith Trousers"
    "Need some repair."
    "lower_body" "legendary" ["BaseMale"; "BaseFemale"];
  mkRepresentation "blocksmith_top_head" "DC Nifty Blocksmith Drone"
    "BlockSmith’s pet. "
    "top_head" "legendary" ["BaseMale"; "BaseFemale"];
  mkRepresentation "blocksmith_upper_body" "DC Nifty Blocksmith Jacket"
    "Tailor made one sleeve style."
    "upper_body" "legendary" ["BaseMale"; "BaseFemale"]
].

(** [dcg_collection], eth/data/wearables/dcg_collection.ts:1-37 *)
Definition dcg_collection : list Representation := [
  mkRepresentation "dcg_black_hoodie_upper_body" "DCG Black Hoodie"
    ""
    "upper_body" "legendary" ["BaseMale"; "BaseFemale"];
  mkRepresentation "dcg_black_tshirt_upper_body" "DCG Black T Shirt"
    ""
    "upper_body" "legendary" ["BaseMale"; "BaseFemale"];
  mkRepresentation "dcg_white_hoodie_upper_body" "DCG White Hoodie"
    ""
    "upper_body" "legendary" ["BaseMale"; "BaseFemale"];
  mkRepresentation "dcg_white_tshirt_upper_body" "DCG White T Shirt"
    ""
    "upper_body" "legendary" ["BaseMale"; "BaseFemale"]
].

(** [dcl_launch], eth/data/wearables/dcl_launch.ts:1-132 *)
Definition dcl_launch : list Representation := [
  mkRepresentation "dcl_earrings_earring" "Decentraland Logo Earrings"
    ""
    "earring" "rare" ["BaseFemale"; "BaseMale"];
  mkRepresentation "dcl_mana_earring" "MANA Earrings"
    ""
    "earring" "epic" ["BaseFemale"; "BaseMale"];
  mkRepresentation "mana_eyewear" "MANA Eyewear"
    ""
    "eyewear" "legendary" ["BaseFemale"; "BaseMale"];
  mkRepresentation "razor_blade_eyewear" "Razor Blade Eyewear"
    ""
    "eyewear" "mythic" ["BaseFemale"; "BaseMale"];
  mkRepresentation "m_barbarian_feet" "Barbarian Shoes"
    ""
    "feet" "mythic" ["BaseMale"];
  mkRepresentation "razor_blade_feet" "Razor Blade Shoes"
    ""
    "feet" "mythic" ["BaseMale"; "BaseFemale"];
  mkRepresentation "colorful_hat_hat" "Colorful Hat"
    ""
    "hat" "epic" ["BaseMale"; "BaseFemale"];
  mkRepresentation "dcl_hat_hat" "Decentraland Hat"
    ""
    "hat" "rare" ["BaseMale"; "BaseFemale"];
  mkRepresentation "m_barbarian_helmet_hat" "Barbarian Helmet"
    ""
    "hat" "mythic" ["BaseMale"];
  mkRepresentation "mana_hat" "MANA Hat"
    ""
    "hat" "rare" ["BaseMale"; "BaseFemale"];
  mkRepresentation "umbrella_hat" "Umbrella Hat"
    ""
    "hat" "epic" ["BaseMale"; "BaseFemale"];
  mkRepresentation "m_barbarian_lower_body" "Barbarian Trousers"
    ""
    "lower_body" "mythic" ["BaseMale"];
  mkRepresentation "razor_blade_lower_body" "Razor Blade Trousers"
    ""
    "lower_body" "mythic" ["BaseFemale"; "BaseMale"];
  mkRepresentation "dcl_hoodie_upper_body" "Decentraland Hoodie"
    ""
    "upper_body" "rare" ["BaseMale"; "BaseFemale"];
  mkRepresentation "dcl_tshirt_upper_body" "Decentraland T-Shirt"
    ""
    "upper_body" "uncommon" ["BaseMale"; "BaseFemale"];
  mkRepresentation "launch_tshirt_upper_body" "Decentraland Launch T-Shirt"
    ""
    "upper_body" "rare" ["BaseMale"; "BaseFemale"];
  mkRepresentation "m_barbarian_upper_body" "Barbarian Chest Piece"
    ""
    "upper_body" "mythic" ["BaseMale"];
  mkRepresentation "mana_hoodie_upper_body" "MANA Hoodie"
    ""
    "upper_body" "rare" ["BaseMale"; "BaseFemale"];
  mkRepresentation "mana_tshirt_upper_body" "MANA T-Shirt"
    ""
    "upper_body" "rare" ["BaseMale"; "BaseFemale"];
  mkRepresentation "razor_blade_upper_body" "Razor Blade Jacket"
    ""
    "upper_body" "mythic" ["BaseMale"; "BaseFemale"]
].

(** [dg_atari_dillon_francis], eth/data/wearables/dg_atari_dillon_francis.ts:1-21 *)
Definition dg_atari_dillon_francis : list Representation := [
  mkRepresentation "gerald_patchwork_knit_sweater" "Gerald Patchwork Knit Sweater"
    "A cozy Barney Cools Gerald Patchwork Knit Sweater."
    "upper_body" "epic" ["BaseMale"; "BaseFemale"];
  mkRepresentation "gerald_striped_knit_sweater" "Gerald Striped Knit Sweater"
    "A cozy Barney Cools Gerald Striped Knit Sweater."
    "upper_body" "epic" ["BaseMale"; "BaseFemale"]
].

(** [dg_fall_2020], eth/data/wearables/dg_fall_2020.ts:1-53 *)
Definition dg_fall_2020 : list Representation := [
  mkRepresentation "dg_money_shades_eyewear" "Money Shades glasses"
    "Shades worn while making money #moneyshades"
    "eyewear" "mythic" ["BaseMale"; "BaseFemale"];
  mkRepresentation "dg_dress_shoes_feet" "Dress Shoes"
    "Dress shoes essential with the DG suit #dgsuit"
    "feet" "mythic" ["BaseMale"; "BaseFemale"];
  mkRepresentation "dg_kicks_feet" "Shoes"
    "Comfortable mid top kicks with decadent DG cashmere socks #dgkicks"
    "feet" "mythic" ["BaseMale"; "BaseFemale"];
  mkRepresentation "dg_suit_bottom_lower_body" "Suit bottom"
    "A decadent & elegant pair of DG suit pants #dgsuit"
    "lower_body" "mythic" ["BaseMale"; "BaseFemale"];
  mkRepresentation "dg_robe_upper_body" "Robe"
    "A silky smooth robe that lets everyone know who's the real baus #cozybaus"
    "upper_body" "mythic" ["BaseMale"; "BaseFemale"];
  mkRepresentation "dg_suit_top_upper_body" "Suit Top"
    "A decadent & elegant DG suit jacket with golden accents #dgsuit"
    "upper_body" "mythic" ["BaseMale"; "BaseFemale"]
].

(** [dg_summer_2020], eth/data/wearables/dg_summer_2020.ts:1-53 *)
Definition dg_summer_2020 : list Representation := [
  mkRepresentation "dg_flip_up_spectacles_eyewear" "DG Flip Up Spectacles"
    "Swaggy flip up spectacles for any occasion, inside or outside, featuring a chain to keep them secure #ice"
    "eyewear" "legendary" ["BaseMale"; "BaseFemale"];
  mkRepresentation "dg_deezys_feet" "DG Deezys"
    "Comfy and elegant sneakers #deezys"
    "feet" "legendary" ["BaseMale"; "BaseFemale"];
  mkRepresentation "dg_slides_feet" "DG Slides"
    "Lazy day designer slides complete with socks to keep your toes warm #cozyslides"
    "feet" "legendary" ["BaseMale"; "BaseFemale"];
  mkRepresentation "dg_tracksuit_bottom_lower_body" "DG Tracksuit Bottom"
    "The pants of the decadent and elegant DG tracksuit #drip"
    "lower_body" "legendary" ["BaseMale"; "BaseFemale"];
  mkRepresentation "dg_mink_fur_coat_upper_body" "DG Fur Mink"
    "An opulent fur coat made from minks #extrasaus"
    "upper_body" "legendary" ["BaseMale"; "BaseFemale"];
  mkRepresentation "dg_tracksuit_top_upper_body" "DG Tracksuit Top"
    "The jacket of the decadent and elegant DG tracksuit #drip"
    "upper_body" "legendary" ["BaseMale"; "BaseFemale"]
].

(** [dgtble_headspace], eth/data/wearables/dgtble_headspace.ts:1-53 *)
Definition dgtble_headspace : list Representation := [
  mkRepresentation "dgtble_rainbow_grid_shoes_feet" "The Headspace Rainbow Grid Shoes"
    "Rainbow Grid is a licensed artwork collab between The Headspace and Daniel Prust whose aysyemetric patterns and abstract designs deliver an experimental style that transforms outlandish dreams into pleasing aesthetics."
    "feet" "legendary" ["BaseMale"; "BaseFemale"];
  mkRepresentation "dgtble_shorts_folife_lower_body" "The Headspace Flower of Life Shorts"
    "We are the divine, and together we make a web of divine life on this planet and beyond that is infinite and unbreakable."
    "lower_body" "legendary" ["BaseMale"];
  mkRepresentation "dgtble_protection_mask_dala_mask" "The Headspace Mandala Love Mask"
    "Mandala Love is a licensed artwork collab between The Headspace and Cameron Grey an Aria nominated Melbourne Artist  who believes you must teach people how to empower themselves from within their true self, at their core level of being, and the rest will always follow."
    "mask" "legendary" ["BaseMale"; "BaseFemale"];
  mkRepresentation "dgtble_dress_folife_upper_body" "The Headspace Flower of Life Dress"
    "In your mind�s eye witness The Flower of Life in this space, floating before you in golden light. Take a moment to absorb the divine wisdom contained in this sacred figure."
    "upper_body" "legendary" ["BaseFemale"];
  mkRepresentation "dgtble_hoodi_linetang_upper_body" "The Headspace Linetangles Hoodie"
    "Linetangles is a licensed artwork from Daniel Prust whose aysyemetric patterns and abstract designs  deliver an experimental style that transforms outlandish dreams into pleasing aesthetics. "
    "upper_body" "legendary" ["BaseMale"];
  mkRepresentation "dgtble_tshirt_message_upper_body" "The Headspace The Messanger T-Shirt"
    "The Messenger is a licensed artwork from Grokko whose hand-drawn works are laid with the intention of stirring memories within our subconscious, to return us to the origins of humanity and discover our purpose going forward. It is through the connection to our timeless selves that our dreams can materialize."
    "upper_body" "legendary" ["BaseMale"]
].

(** [digital_alchemy], eth/data/wearables/digital_alchemy.ts:1-53 *)
Definition digital_alchemy : list Representation := [
  mkRepresentation "da_atomic_earring" "Digital Alchemy Atomic Earring"
    "Digital Alchemy Collection - Caution! Atomic energy carried by these earrings."
    "earring" "legendary" ["BaseMale"; "BaseFemale"];
  mkRepresentation "da_dichroic_eyewear" "Digital Alchemy Dichroic Monocle"
    "Digital Alchemy Collection - The Dichroic Monocle allows you to see the whole spectrum without polarization."
    "eyewear" "legendary" ["BaseMale"; "BaseFemale"];
  mkRepresentation "da_rock_boots_feet" "Digital Alchemy Rock Boots"
    "Digital Alchemy Collection - Do you want to rock this world? Do it with caution, these boots might cause some metaquakes."
    "feet" "legendary" ["BaseMale"; "BaseFemale"];
  mkRepresentation "da_iridescent_hair" "Digital Alchemy Iridescent Hair"
    "Digital Alchemy Collection - Iridescent hair with crystals that shimmer when seen from different perspectives."
    "hair" "legendary" ["BaseMale"; "BaseFemale"];
  mkRepresentation "da_baggy_pants_lower_body" "Digital Alchemy Baggy Pants"
    "Digital Alchemy Collection - Baggy pants, ready to wear and explore."
    "lower_body" "legendary" ["BaseMale"; "BaseFemale"];
  mkRepresentation "da_coat_upper_body" "Digital Alchemy Disruptive Coat"
    "Digital Alchemy Collection - The disruptive coat pack partially protects your Elixir gem, which is connected through the heart to a transmuting backpack. *Includes matching gloves."
    "upper_body" "legendary" ["BaseMale"; "BaseFemale"]
].

(** [ethermon_wearables], eth/data/wearables/ethermon_wearables.ts:1-53 *)
Definition ethermon_wearables : list Representation := [
  mkRepresentation "ethermon_feet" "Ethermon Shoes"
    "Each piece of the Ethermon Legendary Set provides its own unique buff when battling & capturing Mons. Wearing 4 pieces at once will grant the owner special access."
    "feet" "legendary" ["BaseMale"; "BaseFemale"];
  mkRepresentation "ethermon_hat" "Ethermon Hat"
    "Each piece of the Ethermon Legendary Set provides its own unique buff when battling & capturing Mons. Wearing 4 pieces at once will grant the owner special access."
    "hat" "legendary" ["BaseMale"; "BaseFemale"];
  mkRepresentation "ethermon_lower_body" "Ethermon Pants"
    "Each piece of the Ethermon Legendary Set provides its own unique buff when battling & capturing Mons. Wearing 4 pieces at once will grant the owner special access."
    "lower_body" "legendary" ["BaseMale"; "BaseFemale"];
  mkRepresentation "barkindle_top_head" "Barkindle Wearable"
    "Each piece of the Ethermon Legendary Set provides its own unique buff when battling & capturing Mons. Wearing 4 pieces at once will grant the owner special access."
    "top_head" "legendary" ["BaseMale"; "BaseFemale"];
  mkRepresentation "ruffski_top_head" "Ruffski Wearable"
    "Each piece of the Ethermon Legendary Set provides its own unique buff when battling & capturing Mons. Wearing 4 pieces at once will grant the owner special access."
    "top_head" "legendary" ["BaseMale"; "BaseFemale"];
  mkRepresentation "ethermon_upper_body" "Ethermon Jacket"
    "Each piece of the Ethermon Legendary Set provides its own unique buff when battling & capturing Mons. Wearing 4 pieces at once will grant the owner special access."
    "upper_body" "legendary" ["BaseMale"; "BaseFemale"]
].

(** [exclusive_masks], eth/data/wearables/exclusive_masks.ts:1-41 *)
Definition exclusive_masks : list Representation := [
  mkRepresentation "bird_mask" "Bird Mask"
    ""
    "mask" "legendary" ["BaseMale"; "BaseFemale"];
  mkRepresentation "classic_mask" "Classic Mask"
    ""
    "mask" "legendary" ["BaseMale"; "BaseFemale"];
  mkRepresentation "clown_nose" "Clown Nose"
    ""
    "mask" "legendary" ["BaseMale"; "BaseFemale"];
  mkRepresentation "asian_fox" "Asian Fox Mask"
    ""
    "mask" "legendary" ["BaseMale"; "BaseFemale"];
  mkRepresentation "killer_mask" "Killer Mask"
    ""
    "mask" "legendary" ["BaseMale"; "BaseFemale"];
  mkRepresentation "serial_killer_mask" "Serial Killer Mask"
    ""
    "mask" "legendary" ["BaseMale"; "BaseFemale"];
  mkRepresentation "theater_mask" "Theater"
    ""
    "mask" "legendary" ["BaseMale"; "BaseFemale"];
  mkRepresentation "tropical_mask" "Tropical Mask"
    ""
    "mask" "legendary" ["BaseMale"; "BaseFemale"]
].

(** [halloween_2019], eth/data/wearables/halloween_2019.ts:1-556 *)
Definition halloween_2019 : list Representation := [
  mkRepresentation "bride_of_frankie_earring" "Spider Earrings"
    "It may be someone else's head but that doesn't mean you can't look good"
    "earring" "mythic" ["BaseFemale"];
  mkRepresentation "bee_suit_earring" "Bee Earrings"
    "Do bees even have ears? They do now!"
    "earring" "epic" ["BaseFemale"];
  mkRepresentation "jester_earring" "Jingle Bells Earrings"
    "Shiny lobe danglers to distract from that last terrible gag"
    "earring" "mythic" ["BaseFemale"];
  mkRepresentation "spy_suit_eyewear" "Spy Suit Eyewear"
    "So stylish it's a shame you're undercover"
    "eyewear" "legendary" ["BaseFemale"];
  mkRepresentation "bee_suit_feet" "Bee Suit Shoes"
    "Do bees have feet? They do now!"
    "feet" "epic" ["BaseFemale"];
  mkRepresentation "bride_of_frankie_feet" "Bride of Frankie Shoes"
    "Lurch around slowly in comfort"
    "feet" "mythic" ["BaseFemale"];
  mkRepresentation "creepy_nurse_feet" "Creepy Nurse Shoes"
    "Blood-splattered but also comfortable and hard-wearing for those long shifts on the ward"
    "feet" "legendary" ["BaseFemale"];
  mkRepresentation "jester_feet" "Jester Shoes"
    "Run from dissatisfied royalty in style"
    "feet" "mythic" ["BaseFemale"];
  mkRepresentation "spy_suit_feet" "Spy Suit Shoes"
    "Extra quiet, extra light and extra grip"
    "feet" "legendary" ["BaseFemale"];
  mkRepresentation "witch_feet" "Witch Shoes"
    "An excellent covering for your cloven demon' hooves"
    "feet" "epic" ["BaseFemale"];
  mkRepresentation "sad_clown_feet" "Sad Clown Shoes"
    "To go with your sad clown body"
    "feet" "epic" ["BaseMale"];
  mkRepresentation "frankie_feet" "Frankie Shoes"
    "Lurch around slowly in comfort"
    "feet" "legendary" ["BaseMale"];
  mkRepresentation "skeleton_suit_feet" "Skeleton Suit Feet"
    "Connected to the shin bones..."
    "feet" "mythic" ["BaseMale"];
  mkRepresentation "vampire_feet" "Vampire Shoes"
    "Not that you’ll need them with all that floating around"
    "feet" "legendary" ["BaseMale"];
  mkRepresentation "zombie_suit_feet" "Zombie Boots"
    "Used (and a little bit rancid) but good to go!"
    "feet" "epic" ["BaseMale"];
  mkRepresentation "bride_of_frankie_hair" "Bride of Frankie Hair"
    "Engineered for style"
    "hair" "mythic" ["BaseFemale"];
  mkRepresentation "jester_hair" "Jester Hair"
    "Made from the hair of actual jesters!"
    "hair" "mythic" ["BaseFemale"];
  mkRepresentation "spy_suit_hair" "Pony Tail Hair"
    "Tightly cropped for extra sleekness"
    "hair" "legendary" ["BaseFemale"];
  mkRepresentation "vampire_hair" "Vampire Hair"
    "Classic slick style befitting the Prince of Darkness"
    "hair" "legendary" ["BaseMale"];
  mkRepresentation "creepy_nurse_hat" "Creepy Nurse Hat"
    "Even if you're a murderous psycho nurse you need to stay smart"
    "hat" "legendary" ["BaseFemale"];
  mkRepresentation "witch_hat" "Witch Hat"
    "Witch hat? This one"
    "hat" "epic" ["BaseFemale"];
  mkRepresentation "frankie_hat" "Frankie Hat"
    "With that legendary high hair"
    "hat" "legendary" ["BaseMale"];
  mkRepresentation "mexican_hat" "Mexican Hat"
    (chr 211 +:+ "raleeee")
    "hat" "epic" ["BaseMale"; "BaseFemale"];
  mkRepresentation "mariachi_hat" "Mariachi Hat"
    "Guitar not included"
    "hat" "rare" ["BaseMale"; "BaseFemale"];
  mkRepresentation "classic_top_hat" "Classic Top Hat"
    "Rabbit not included"
    "hat" "epic" ["BaseMale"; "BaseFemale"];
  mkRepresentation "skeleton_suit_hat" "Skull Mexican Hat"
    "Now that's one hell of a stylish Day of the Dead hat!"
    "hat" "mythic" ["BaseMale"];
  mkRepresentation "creepy_pumpkin_helmet" "Creepy Pumpkin"
    "Just in case wearing a pumpkin as a helmet wasn't creepy enough for you"
    "helmet" "legendary" ["BaseMale"; "BaseFemale"];
  mkRepresentation "happy_pumpkin_helmet" "Happy Pumpkin"
    "Flesh and seeds removed free of charge!"
    "helmet" "rare" ["BaseMale"; "BaseFemale"];
  mkRepresentation "undead_pirate_helmet" "Undead Pirate Head"
    "Even undead pirates need to look their best"
    "helmet" "mythic" ["BaseMale"];
  mkRepresentation "bee_suit_lower_body" "Bee Suit Leggings"
    "You'll be the talk of the hive in these striking black and gold bee leggings"
    "lower_body" "epic" ["BaseFemale"];
  mkRepresentation "bride_of_frankie_lower_body" "Bride of Frankie Skirt"
    "Doubles as a handy waitress outfit"
    "lower_body" "mythic" ["BaseFemale"];
  mkRepresentation "creepy_nurse_lower_body" "Creepy Nurse Skirt"
    "With real virtual blood splatters!"
    "lower_body" "legendary" ["BaseFemale"];
  mkRepresentation "jester_lower_body" "Jester Leggings"
    "Fits neatly into jester_upper_body"
    "lower_body" "mythic" ["BaseFemale"];
  mkRepresentation "spy_suit_lower_body" "Spy Suit Pants"
    "Form fitting and friction-free material"
    "lower_body" "legendary" ["BaseFemale"];
  mkRepresentation "witch_lower_body" "Witch Skirt"
    "Designed to withstand burnings, drownings and ritual stonings"
    "lower_body" "epic" ["BaseFemale"];
  mkRepresentation "sad_clown_lower_body" "Sad Clown Pants"
    "Little known fact: blue, red and gold are the saddest colours"
    "lower_body" "epic" ["BaseMale"];
  mkRepresentation "frankie_lower_body" "Frankie Pants"
    "Engineered for maximum chills"
    "lower_body" "legendary" ["BaseMale"];
  mkRepresentation "skeleton_suit_lower_body" "Skeleton Suit Pants"
    "Anatomically correct in a light-wearing, form-fitting design"
    "lower_body" "mythic" ["BaseMale"];
  mkRepresentation "undead_pirate_lower_body" "Undead Pirate Pants"
    "Featuring low rise trousers for maximum comfort"
    "lower_body" "mythic" ["BaseMale"];
  mkRepresentation "vampire_lower_body" "Vampire Pants"
    "Tailored trousers with quick-morph bat fabric"
    "lower_body" "legendary" ["BaseMale"];
  mkRepresentation "zombie_suit_lower_body" "Zombie Suit Pants"
    "When we say suit, we mean suit. Look your zombie best!"
    "lower_body" "epic" ["BaseMale"];
  mkRepresentation "jester_mask" "Jester Mask"
    "Disguise your identity when the jokes fall flat"
    "mask" "mythic" ["BaseFemale"];
  mkRepresentation "cat_mask" "Cat Mask"
    "Do cats have eyebrows? They do now!"
    "mask" "legendary" ["BaseMale"; "BaseFemale"];
  mkRepresentation "sad_clown_mask" "Sad Clown Mask"
    "Sad, but let’s be honest—still kinda freaky"
    "mask" "epic" ["BaseMale"];
  mkRepresentation "muzzle_mask" "Muzzle Mask"
    "For that special serial killer in your life"
    "mask" "mythic" ["BaseMale"; "BaseFemale"];
  mkRepresentation "funny_skull_mask" "Funny Skull"
    "The funny bit is scaring people out of their wits"
    "mask" "epic" ["BaseMale"; "BaseFemale"];
  mkRepresentation "monkey_skull_mask" "Monkey Skull"
    "No virtual monkeys were harmed in the making of this mask"
    "mask" "epic" ["BaseMale"; "BaseFemale"];
  mkRepresentation "zombie_suit_mask" "Zombie Mask"
    "No hiding from the fact that this is one hideous outfit!"
    "mask" "epic" ["BaseMale"];
  mkRepresentation "floral_skull_mask" "Floral Skull"
    "Ornate Day of the Dead mask with floral pattern"
    "mask" "legendary" ["BaseMale"; "BaseFemale"];
  mkRepresentation "lirio_skull_mask" "Lirio Skull"
    "Classic Day of the Dead lily design"
    "mask" "legendary" ["BaseMale"; "BaseFemale"];
  mkRepresentation "trippy_skull_mask" "Trippy Skull"
    "Just in case the other Day of the Dead masks weren’t trippy enough for you"
    "mask" "mythic" ["BaseMale"; "BaseFemale"];
  mkRepresentation "diamond_skull_mask" "Diamond Skull"
    "Ornate Day of the Dead mask with diamond"
    "mask" "mythic" ["BaseMale"; "BaseFemale"];
  mkRepresentation "rose_skull_mask" "Rose Skull"
    "Ornate Day of the Dead mask with rose"
    "mask" "legendary" ["BaseMale"; "BaseFemale"];
  mkRepresentation "star_skull_mask" "Star Skull"
    "Ornate Day of the Dead mask with star"
    "mask" "legendary" ["BaseMale"; "BaseFemale"];
  mkRepresentation "cross_skull_mask" "Cross Skull"
    "Ornate Day of the Dead mask with cross"
    "mask" "mythic" ["BaseMale"; "BaseFemale"];
  mkRepresentation "bee_suit_top_head" "Bee Headband"
    "The cutest way to top off your bee suit. Sadly with no actual antennae functionality"
    "top_head" "epic" ["BaseFemale"];
  mkRepresentation "bloody_knife_headband_top_head" "Bloody Knife"
    ""
    "top_head" "epic" ["BaseMale"; "BaseFemale"];
  mkRepresentation "machete_headband_top_head" "Machete Headband"
    "If the knife headband wasn't enough to freak out your friends..."
    "top_head" "legendary" ["BaseMale"; "BaseFemale"];
  mkRepresentation "bee_suit_upper_body" "Bee Suit"
    "Bees beat their wings at around 230 beats per second. We'll be impressed if you can match this"
    "upper_body" "epic" ["BaseFemale"];
  mkRepresentation "bride_of_frankie_upper_body" "Bride of Frankie Suit"
    "Doubles as a handy waitress outfit"
    "upper_body" "mythic" ["BaseFemale"];
  mkRepresentation "creepy_nurse_upper_body" "Creepy Nurse Shirt"
    "With real virtual blood splatters!"
    "upper_body" "legendary" ["BaseFemale"];
  mkRepresentation "jester_upper_body" "Jester Suit"
    "Makes an excellent platform for jester heads"
    "upper_body" "mythic" ["BaseFemale"];
  mkRepresentation "spy_suit_upper_body" "Spy Suit"
    "Form fitting and friction-free material"
    "upper_body" "legendary" ["BaseFemale"];
  mkRepresentation "witch_upper_body" "Witch Suit"
    "Designed to withstand burnings, drownings and ritual stonings"
    "upper_body" "epic" ["BaseFemale"];
  mkRepresentation "sad_clown_upper_body" "Sad Clown Suit"
    "Little known fact: blue, red and gold are the saddest colours"
    "upper_body" "epic" ["BaseMale"];
  mkRepresentation "frankie_upper_body" "Frankie Suit"
    "When we say suit, we mean suit. Look your zombie best!"
    "upper_body" "epic" ["BaseMale"];
  mkRepresentation "skeleton_suit_upper_body" "Skeleton Suit"
    "Anatomically correct in a light-wearing, form-fitting design"
    "upper_body" "mythic" ["BaseMale"];
  mkRepresentation "undead_pirate_upper_body" "Undead Pirate Torso"
    "Almost a body, but you get the drift"
    "upper_body" "mythic" ["BaseMale"];
  mkRepresentation "vampire_upper_body" "Vampire Suit"
    "Check out that fancy cape!"
    "upper_body" "legendary" ["BaseMale"];
  mkRepresentation "zombie_suit_upper_body" "Zombie Suit"
    "When we say suit, we mean suit. Look your zombie best!"
    "upper_body" "epic" ["BaseMale"]
].

(** [halloween_2020], eth/data/wearables/halloween_2020.ts:1-157 *)
Definition halloween_2020 : list Representation := [
  mkRepresentation "hwn_2020_cat_eyes" "Cat Eyes - Halloween 2020"
    "Exclusive Halloween 2020 Collection. Awarded as Treasure Hunt prize."
    "eyes" "uncommon" ["BaseMale"; "BaseFemale"];
  mkRepresentation "hwn_2020_ddlm_01_eyes" "Dia de los Muertos Eyes - Halloween 2020"
    "Exclusive Halloween 2020 Collection. Awarded as Treasure Hunt prize."
    "eyes" "epic" ["BaseMale"; "BaseFemale"];
  mkRepresentation "hwn_2020_ddlm_02_eyes" "Dia de los Muertos Skull Eyes - Halloween 2020"
    "Exclusive Halloween 2020 Collection. Awarded as Treasure Hunt prize."
    "eyes" "legendary" ["BaseMale"; "BaseFemale"];
  mkRepresentation "hwn_2020_ddlm_03_eyes" "Dia de los Muertos Flower Eyes - Halloween 2020"
    "Exclusive Halloween 2020 Collection. Awarded as Treasure Hunt prize."
    "eyes" "legendary" ["BaseMale"; "BaseFemale"];
  mkRepresentation "hwn_2020_cult_servant_feet" "Evil Cult Servant Boots - Halloween 2020"
    "Exclusive Halloween 2020 Collection. Awarded as Treasure Hunt prize."
    "feet" "epic" ["BaseMale"; "BaseFemale"];
  mkRepresentation "hwn_2020_cult_supreme_feet" "Evil Cult Supreme Boots - Halloween 2020"
    "Exclusive Halloween 2020 Collection. Awarded as Treasure Hunt prize."
    "feet" "mythic" ["BaseMale"; "BaseFemale"];
  mkRepresentation "hwn_2020_cult_servant_helmet" "Helmet of Servant of Evil Cult"
    "Exclusive Halloween 2020 Collection. Awarded as Treasure Hunt prize."
    "helmet" "epic" ["BaseMale"; "BaseFemale"];
  mkRepresentation "hwn_2020_cult_supreme_helmet" "Helmet of Supreme of Evil Cult"
    "Exclusive Halloween 2020 Collection. Awarded as Treasure Hunt prize."
    "helmet" "mythic" ["BaseMale"; "BaseFemale"];
  mkRepresentation "hwn_2020_cult_servant_lower_body" "Pants of Servant of Evil Cult - Halloween 2020"
    "Exclusive Halloween 2020 Collection. Awarded as Treasure Hunt prize."
    "lower_body" "epic" ["BaseMale"; "BaseFemale"];
  mkRepresentation "hwn_2020_cult_supreme_lower_body" "Pants of Supreme of Evil Cult - Halloween 2020"
    "Exclusive Halloween 2020 Collection. Awarded as Treasure Hunt prize."
    "lower_body" "mythic" ["BaseMale"; "BaseFemale"];
  mkRepresentation "hwn_2020_ghostblaster_lower_body" "GhostBlaster Pants - Halloween 2020"
    "Exclusive Halloween 2020 Collection. Awarded as Treasure Hunt prize."
    "lower_body" "epic" ["BaseMale"; "BaseFemale"];
  mkRepresentation "hwn_2020_creepy_mouth" "Creepy Mouth - Halloween 2020"
    "Exclusive Halloween 2020 Collection. Awarded as Treasure Hunt prize."
    "mouth" "uncommon" ["BaseMale"; "BaseFemale"];
  mkRepresentation "hwn_2020_ddlm_mouth" "Dia de los Muertos Mouth - Halloween 2020"
    "Exclusive Halloween 2020 Collection. Awarded as Treasure Hunt prize."
    "mouth" "legendary" ["BaseMale"; "BaseFemale"];
  mkRepresentation "hwn_2020_dracula_mouth" "Dracula Mouth - Halloween 2020"
    "Exclusive Halloween 2020 Collection. Awarded as Treasure Hunt prize."
    "mouth" "legendary" ["BaseMale"; "BaseFemale"];
  mkRepresentation "hwn_2020_pumpkin_mouth" "Pumpkin Mouth - Halloween 2020"
    "Exclusive Halloween 2020 Collection. Awarded as Treasure Hunt prize."
    "mouth" "epic" ["BaseMale"; "BaseFemale"];
  mkRepresentation "hwn_2020_ghostblaster_tiara" "GhostBlaster NightVision Device"
    "Exclusive Halloween 2020 Collection. Awarded as Treasure Hunt prize."
    "tiara" "epic" ["BaseMale"; "BaseFemale"];
  mkRepresentation "hwn_2020_cult_servant_upper_body" "Servent of Evil Cult Suit- Halloween 2020"
    "Exclusive Halloween 2020 Collection. Awarded as Treasure Hunt prize."
    "upper_body" "epic" ["BaseMale"; "BaseFemale"];
  mkRepresentation "hwn_2020_cult_supreme_upper_body" "Supreme of Evil Cult Suit - Halloween 2020"
    "Exclusive Halloween 2020 Collection. Awarded as Treasure Hunt prize."
    "upper_body" "mythic" ["BaseMale"; "BaseFemale"];
  mkRepresentation "hwn_2020_ghostblaster_upper_body" "GhostBlaster Suit - Halloween 2020"
    "Exclusive Halloween 2020 Collection. Awarded as Treasure Hunt prize."
    "upper_body" "epic" ["BaseMale"; "BaseFemale"]
].

(** [mch_collection], eth/data/wearables/mch_collection.ts:1-125 *)
Definition mch_collection : list Representation := [
  mkRepresentation "mch_caocao_upper_body" "Caocao T-Shirt"
    ""
    "upper_body" "epic" ["BaseMale"; "BaseFemale"];
  mkRepresentation "mch_cleopatra_upper_body" "Cleopatra T-Shirt"
    ""
    "upper_body" "epic" ["BaseMale"; "BaseFemale"];
  mkRepresentation "mch_enemy_upper_body" "MCH Rare Enemy T-Shirt"
    ""
    "upper_body" "epic" ["BaseMale"; "BaseFemale"];
  mkRepresentation "mch_fukuzawa_upper_body" "Fukuzawa T-Shirt"
    ""
    "upper_body" "epic" ["BaseMale"; "BaseFemale"];
  mkRepresentation "mch_gennnaihiraga_upper_body" "Hiraga Gennai T-Shirt"
    ""
    "upper_body" "epic" ["BaseMale"; "BaseFemale"];
  mkRepresentation "mch_georgewashington_upper_body" "George Washington T-Shirt"
    ""
    "upper_body" "epic" ["BaseMale"; "BaseFemale"];
  mkRepresentation "mch_huangzhong_upper_body" "Huang Zhong T-Shirt"
    ""
    "upper_body" "epic" ["BaseMale"; "BaseFemale"];
  mkRepresentation "mch_kingarthur_upper_body" "King Arthur T-Shirt"
    ""
    "upper_body" "epic" ["BaseMale"; "BaseFemale"];
  mkRepresentation "mch_leodavinci_upper_body" "Leonardo Da Vinci T-Shirt"
    ""
    "upper_body" "epic" ["BaseMale"; "BaseFemale"];
  mkRepresentation "mch_napoleon_upper_body" "Napoleon T-Shirt"
    ""
    "upper_body" "epic" ["BaseMale"; "BaseFemale"];
  mkRepresentation "mch_nightingale_upper_body" "Nightingale T-Shirt"
    ""
    "upper_body" "epic" ["BaseMale"; "BaseFemale"];
  mkRepresentation "mch_nobunagaoda_upper_body" "Nobunaga Oda T-Shirt"
    ""
    "upper_body" "epic" ["BaseMale"; "BaseFemale"];
  mkRepresentation "mch_pascal_upper_body" "Pascal T-Shirt"
    ""
    "upper_body" "epic" ["BaseMale"; "BaseFemale"];
  mkRepresentation "mch_spartacs_upper_body" "Spartacs T-Shirt"
    ""
    "upper_body" "epic" ["BaseMale"; "BaseFemale"];
  mkRepresentation "mch_wrightbrother_upper_body" "Wright Brothers T-Shirt"
    ""
    "upper_body" "epic" ["BaseMale"; "BaseFemale"]
].

(** [meme_dontbuythis], eth/data/wearables/meme_dontbuythis.ts:1-37 *)
Definition meme_dontbuythis : list Representation := [
  mkRepresentation "meme_helmet_pineapple" "Tasty Pineapple Head"
    "Tasty Pineapple Head from the $Meme Collection - Don't wear this"
    "helmet" "epic" ["BaseMale"; "BaseFemale"];
  mkRepresentation "meme_pants_pineapple" "Fresh Pineapple Pants"
    "Fresh Pineapple Pants from the $Meme collection - Don't wear this"
    "lower_body" "epic" ["BaseMale"; "BaseFemale"];
  mkRepresentation "meme_suit_pineapple_onesie" "Sweet Pineapple Onesie"
    "Sweet Pineapple Onesie from the $Meme collection - Don't wear this"
    "upper_body" "epic" ["BaseMale"; "BaseFemale"];
  mkRepresentation "meme_suit_pineapple" "Cool Pineapple Suit"
    "Cool Pineapple Suit from the $Meme collection - Don't wear this"
    "upper_body" "epic" ["BaseMale"; "BaseFemale"]
].

(** [mf_sammichgamer], eth/data/wearables/mf_sammichgamer.ts:1-53 *)
Definition mf_sammichgamer : list Representation := [
  mkRepresentation "mf_frogfins" "Frog fins"
    ("Walk and swim like a frog. Frog fins of sammich gamer costume. By Mana-fever 2020 " +:+ chr 169)
    "feet" "legendary" ["BaseMale"; "BaseFemale"];
  mkRepresentation "mf_wingsneakers" "Wing sneakers"
    ("No run, no swim, just fly. These have a handwritten signature from creators Chestnutbruz and Pablo Estornut. By Mana-fever 2020 " +:+ chr 169)
    "feet" "legendary" ["BaseMale"; "BaseFemale"];
  mkRepresentation "mf_animehair" "Anime warrior hair"
    ("Hair inspired by anime for best fans. By Mana-fever 2020 " +:+ chr 169)
    "hair" "legendary" ["BaseMale"; "BaseFemale"];
  mkRepresentation "mf_unicornhelmet" "Unicorn skate helmet"
    ("A colorful unicorn skate helmet for sammich gamer costume. By Mana-fever 2020 " +:+ chr 169)
    "helmet" "legendary" ["BaseMale"; "BaseFemale"];
  mkRepresentation "mf_unicornpants" "Unicorn pants"
    "Unicorn pants of sammich gamer costume. By Mana-fever 2020."
    "lower_body" "legendary" ["BaseMale"; "BaseFemale"];
  mkRepresentation "mf_sammichtorso" "Sammich frog outfit"
    ("A sammich t-shirt, frog backback and gloves. Minted with grandma love. Inspired by Sammich game. By Mana-fever 2020 " +:+ chr 169)
    "upper_body" "legendary" ["BaseMale"; "BaseFemale"]
].

(** [ml_liondance], eth/data/wearables/ml_liondance.ts:1-37 *)
Definition ml_liondance : list Representation := [
  mkRepresentation "lion_dance_feet" "Lion Dance Shoes"
    "Dragon City 2021 Spring Festival Souvenirs"
    "feet" "epic" ["BaseMale"; "BaseFemale"];
  mkRepresentation "lion_dance_hat" "Lion Dance Hat"
    "Dragon City 2021 Spring Festival Souvenirs"
    "hat" "epic" ["BaseMale"; "BaseFemale"];
  mkRepresentation "lion_dance_lower_body" "Lion Dance Pants"
    "Dragon City 2021 Spring Festival Souvenirs"
    "lower_body" "epic" ["BaseMale"; "BaseFemale"];
  mkRepresentation "lion_dance_upper_body" "Lion Dance Coat"
    "Dragon City 2021 Spring Festival Souvenirs"
    "upper_body" "epic" ["BaseMale"; "BaseFemale"]
].

(** [ml_pekingopera], eth/data/wearables/ml_pekingopera.ts:1-53 *)
Definition ml_pekingopera : list Representation := [
  mkRepresentation "jing_feet" "Peking Opera Jing Shoes"
    "Peking Opera Character-Jing"
    "feet" "legendary" ["BaseMale"; "BaseFemale"];
  mkRepresentation "jing_hat" "Peking Opera Jing Hat"
    "Peking Opera Character-Jing"
    "hat" "legendary" ["BaseMale"; "BaseFemale"];
  mkRepresentation "jing_lower_body" "Peking Opera Jing Pants"
    "Peking Opera Character-Jing"
    "lower_body" "legendary" ["BaseMale"; "BaseFemale"];
  mkRepresentation "jing_xiangyu_mask" "Peking Opera Xiang Yu Mask"
    "Peking Opera Character-Xiang Yu"
    "mask" "legendary" ["BaseMale"; "BaseFemale"];
  mkRepresentation "jing_yingbu_mask" "Peking Opera Ying Bu Mask"
    "Peking Opera Character-Ying Bu"
    "mask" "legendary" ["BaseMale"; "BaseFemale"];
  mkRepresentation "jing_upper_body" "Peking Opera Jing Coat"
    "Peking Opera Character-Jing"
    "upper_body" "legendary" ["BaseMale"; "BaseFemale"]
].

(** [moonshot_2020], eth/data/wearables/moonshot_2020.ts:1-213 *)
Definition moonshot_2020 : list Representation := [
  mkRepresentation "ms_axiegg_upper_body" "AxieGG Soccer T-Shirt"
    "AxieGG Soccer T-Shirt - Moonshot Tournament 2020"
    "upper_body" "legendary" ["BaseMale"; "BaseFemale"];
  mkRepresentation "ms_battleracers_upper_body" "Battle Racers Soccer T-Shirt"
    "Battle Racers Soccer T-Shirt - Moonshot Tournament 2020"
    "upper_body" "legendary" ["BaseMale"; "BaseFemale"];
  mkRepresentation "ms_bullionix_upper_body" "Bullionix Soccer T-Shirt"
    "Bullionix Soccer T-Shirt - Moonshot Tournament 2020"
    "upper_body" "legendary" ["BaseMale"; "BaseFemale"];
  mkRepresentation "ms_cent_upper_body" "Cent Soccer T-Shirt"
    "Cent Soccer T-Shirt - Moonshot Tournament 2020"
    "upper_body" "legendary" ["BaseMale"; "BaseFemale"];
  mkRepresentation "ms_crucible_upper_body" "Crucible Soccer T-Shirt"
    "Crucible Soccer T-Shirt - Moonshot Tournament 2020"
    "upper_body" "legendary" ["BaseMale"; "BaseFemale"];
  mkRepresentation "ms_dcl_upper_body" "Decentraland Soccer T-Shirt"
    "Decentraland Soccer T-Shirt - Moonshot Tournament 2020"
    "upper_body" "legendary" ["BaseMale"; "BaseFemale"];
  mkRepresentation "ms_dclcore_upper_body" "DCL Core Soccer T-Shirt"
    "DCL Core Soccer T-Shirt - Moonshot Tournament 2020"
    "upper_body" "legendary" ["BaseMale"; "BaseFemale"];
  mkRepresentation "ms_dclplazas_upper_body" "DCL Plazas Soccer T-Shirt"
    "DCL Plazas Soccer T-Shirt - Moonshot Tournament 2020"
    "upper_body" "legendary" ["BaseMale"; "BaseFemale"];
  mkRepresentation "ms_decentralgames_upper_body" "Decentral Games Soccer T-Shirt"
    "Decentral Games Soccer T-Shirt - Moonshot Tournament 2020"
    "upper_body" "legendary" ["BaseMale"; "BaseFemale"];
  mkRepresentation "ms_ethermon_upper_body" "Ethermon Soccer T-Shirt"
    "Ethermon Soccer T-Shirt - Moonshot Tournament 2020"
    "upper_body" "legendary" ["BaseMale"; "BaseFemale"];
  mkRepresentation "ms_gamecredits_upper_body" "Game Credits Soccer T-Shirt"
    "Game Credits Soccer T-Shirt - Moonshot Tournament 2020"
    "upper_body" "legendary" ["BaseMale"; "BaseFemale"];
  mkRepresentation "ms_knownorigin_upper_body" "Known Origin Soccer T-Shirt"
    "Known Origin Soccer T-Shirt - Moonshot Tournament 2020"
    "upper_body" "legendary" ["BaseMale"; "BaseFemale"];
  mkRepresentation "ms_matic_upper_body" "Matic Soccer T-Shirt"
    "Matic Soccer T-Shirt - Moonshot Tournament 2020"
    "upper_body" "legendary" ["BaseMale"; "BaseFemale"];
  mkRepresentation "ms_metafactory_upper_body" "MetaFactory Soccer T-Shirt"
    "MetaFactory Soccer T-Shirt - Moonshot Tournament 2020"
    "upper_body" "legendary" ["BaseMale"; "BaseFemale"];
  mkRepresentation "ms_metazone_upper_body" "MetaZone Soccer T-Shirt"
    "MetaZone Soccer T-Shirt - Moonshot Tournament 2020"
    "upper_body" "legendary" ["BaseMale"; "BaseFemale"];
  mkRepresentation "ms_mintbase_upper_body" "Mintbase Soccer T-Shirt"
    "Mintbase Soccer T-Shirt - Moonshot Tournament 2020"
    "upper_body" "legendary" ["BaseMale"; "BaseFemale"];
  mkRepresentation "ms_neighbourhood_upper_body" "Neighbourhood Project Soccer T-Shirt"
    "Neighbourhood Project Soccer T-Shirt - Moonshot Tournament 2020"
    "upper_body" "legendary" ["BaseMale"; "BaseFemale"];
  mkRepresentation "ms_nonfungible_upper_body" "NonFungible Soccer T-Shirt"
    "NonFungible Soccer T-Shirt - Moonshot Tournament 2020"
    "upper_body" "legendary" ["BaseMale"; "BaseFemale"];
  mkRepresentation "ms_opensea_upper_body" "OpenSea Soccer T-Shirt"
    "OpenSea Soccer T-Shirt - Moonshot Tournament 2020"
    "upper_body" "legendary" ["BaseMale"; "BaseFemale"];
  mkRepresentation "ms_pixelchain_upper_body" "Pixelchain Soccer T-Shirt"
    "Pixelchain Soccer T-Shirt - Moonshot Tournament 2020"
    "upper_body" "legendary" ["BaseMale"; "BaseFemale"];
  mkRepresentation "ms_pm_upper_body" "Polygonal Mind Soccer T-Shirt"
    "Polygonal Mind Soccer T-Shirt - Moonshot Tournament 2020"
    "upper_body" "legendary" ["BaseMale"; "BaseFemale"];
  mkRepresentation "ms_sorare_upper_body" "Sorare Soccer T-Shirt"
    "Sorare Soccer T-Shirt - Moonshot Tournament 2020"
    "upper_body" "legendary" ["BaseMale"; "BaseFemale"];
  mkRepresentation "ms_superare_upper_body" "SuperRare Soccer T-Shirt"
    "SuperRare Soccer T-Shirt - Moonshot Tournament 2020"
    "upper_body" "legendary" ["BaseMale"; "BaseFemale"];
  mkRepresentation "ms_vegascity_upper_body" "Vegas City Soccer T-Shirt"
    "Vegas City Soccer T-Shirt - Moonshot Tournament 2020"
    "upper_body" "legendary" ["BaseMale"; "BaseFemale"];
  mkRepresentation "ms_whale_upper_body" "Whale Soccer T-Shirt"
    "Whale Soccer T-Shirt - Moonshot Tournament 2020"
    "upper_body" "legendary" ["BaseMale"; "BaseFemale"];
  mkRepresentation "moonshot_2020_golden_boots_feet" "Golden Boots of Moonshot 2020"
    "Golden Boots of Moonshot 2020 - This boots were given to the best scorer during the first Crypto World Cup Soccer Tournament in Decentraland"
    "feet" "unique" ["BaseMale"; "BaseFemale"]
].

(** [pm_dreamverse_eminence], eth/data/wearables/pm_dreamverse_eminence.ts:1-53 *)
Definition pm_dreamverse_eminence : list Representation := [
  mkRepresentation "pm_dreamverse_eminence_boots" "Ethereal Dreamer Boots"
    "Expanding the Polygonal Mind Collection adding now the Dreamverse Eminence set"
    "feet" "mythic" ["BaseMale"; "BaseFemale"];
  mkRepresentation "pm_dreamverse_eminence_cap" "Ethereal Sage Hat"
    "Expanding the Polygonal Mind Collection adding now the Dreamverse Eminence set"
    "hat" "mythic" ["BaseMale"; "BaseFemale"];
  mkRepresentation "pm_dreamverse_eminence_hat_visor" "Lucid Visionary Crown"
    "Expanding the Polygonal Mind Collection adding now the Dreamverse Eminence set"
    "hat" "mythic" ["BaseMale"; "BaseFemale"];
  mkRepresentation "pm_dreamverse_eminence_pants" "Dream Bourgeois Breeches"
    "Expanding the Polygonal Mind Collection adding now the Dreamverse Eminence set"
    "lower_body" "mythic" ["BaseMale"; "BaseFemale"];
  mkRepresentation "pm_dreamverse_eminence_jacket" "Dream Oracle Jacket"
    "Expanding the Polygonal Mind Collection adding now the Dreamverse Eminence set"
    "upper_body" "mythic" ["BaseMale"; "BaseFemale"];
  mkRepresentation "pm_dreamverse_eminence_sweater" "Lucid Meditation Tunic"
    "Expanding the Polygonal Mind Collection adding now the Dreamverse Eminence set"
    "upper_body" "mythic" ["BaseMale"; "BaseFemale"]
].

(** [pm_outtathisworld], eth/data/wearables/pm_outtathisworld.ts:1-53 *)
Definition pm_outtathisworld : list Representation := [
  mkRepresentation "pm_col1_alien_helmet" "Alien Helmet"
    "An out of this world hat for the believers"
    "helmet" "legendary" ["BaseMale"; "BaseFemale"];
  mkRepresentation "pm_col1_cat_helmet" "Cat Helmet"
    "A domesticated purring mammal helmet for Cat Lovers"
    "helmet" "legendary" ["BaseMale"; "BaseFemale"];
  mkRepresentation "pm_col1_dino_helmet" "Dino Helmet"
    "A cartoon pre-human predator helmet"
    "helmet" "legendary" ["BaseMale"; "BaseFemale"];
  mkRepresentation "pm_col1_panda_helmet" "Panda Helmet"
    "A bamboo-eater helmet for Panda Lovers"
    "helmet" "legendary" ["BaseMale"; "BaseFemale"];
  mkRepresentation "pm_col1_cargo_pants_lower_body" "Polygonal Mind - Cargo Pants"
    "Some trendy triangle-patterned pants for you to show off"
    "lower_body" "legendary" ["BaseMale"; "BaseFemale"];
  mkRepresentation "pm_col1_trendy_coat_upper_body" "Polygonal Mind - Trendy Coat"
    "A trendy triangle-patterned coat for you to show off and stay warm in winter"
    "upper_body" "legendary" ["BaseMale"; "BaseFemale"]
].

(** [rac_basics], eth/data/wearables/rac_basics.ts:1-29 *)
Definition rac_basics : list Representation := [
  mkRepresentation "rac_feet" "RAC footwear"
    "RAC's signature pink footwear."
    "feet" "unique" ["BaseMale"; "BaseFemale"];
  mkRepresentation "rac_hat" "RAC Cap"
    "RAC's signature pink baseball cap."
    "hat" "unique" ["BaseMale"; "BaseFemale"];
  mkRepresentation "rac_upper_body" "RAC Outfit"
    "RAC's signature pink outfit with matching trousers and long coat."
    "upper_body" "unique" ["BaseMale"; "BaseFemale"]
].

(** [release_the_kraken], eth/data/wearables/release_the_kraken.ts:1-53 *)
Definition release_the_kraken : list Representation := [
  mkRepresentation "kraken_epic_hat" "Kraken Ruby-Eye Crown"
    "The Kraken is released upon Decentraland"
    "hat" "epic" ["BaseMale"; "BaseFemale"];
  mkRepresentation "kraken_hat" "Kraken Hat"
    "The Kraken is released upon Decentraland"
    "hat" "uncommon" ["BaseMale"; "BaseFemale"];
  mkRepresentation "kraken_legendary_hat" "Kraken Gold-Eye Crown"
    "The Kraken is released upon Decentraland"
    "hat" "legendary" ["BaseMale"; "BaseFemale"];
  mkRepresentation "kraken_mythic_hat" "Kraken Cyborg Crown"
    "The Kraken is released upon Decentraland"
    "hat" "mythic" ["BaseMale"; "BaseFemale"];
  mkRepresentation "kraken_hoodie_upper_body" "Kraken Hoodie"
    "The Kraken is released upon Decentraland"
    "upper_body" "uncommon" ["BaseMale"; "BaseFemale"];
  mkRepresentation "kraken_tshirt_upper_body" "Kraken T-Shirt"
    "The Kraken is released upon Decentraland"
    "upper_body" "uncommon" ["BaseMale"; "BaseFemale"]
].

(** [rtfkt_x_atari], eth/data/wearables/rtfkt_x_atari.ts:1-21 *)
Definition rtfkt_x_atari : list Representation := [
  mkRepresentation "p_rtfkt_x_atari_feet" "Purple RTFKT X Atari Sneakers"
    "RTFKT x Atari sneakers with holographic print."
    "feet" "epic" ["BaseMale"; "BaseFemale"];
  mkRepresentation "r_rtfkt_x_atari_feet" "Red RTFKT X Atari Sneakers"
    "Unique RTFKT x Atari sneakers in red."
    "feet" "unique" ["BaseMale"; "BaseFemale"]
].

(** [stay_safe], eth/data/wearables/stay_safe.ts:1-69 *)
Definition stay_safe : list Representation := [
  mkRepresentation "protection_mask_abstract_mask" "Abstract Protection Mask"
    "Supporting the #CryptoAgainstCOVID initiative"
    "mask" "epic" ["BaseMale"; "BaseFemale"];
  mkRepresentation "protection_mask_african_mask" "African Protection Mask"
    "Supporting the #CryptoAgainstCOVID initiative"
    "mask" "epic" ["BaseMale"; "BaseFemale"];
  mkRepresentation "protection_mask_funny_mask" "Funny Protection Mask"
    "Supporting the #CryptoAgainstCOVID initiative"
    "mask" "epic" ["BaseMale"; "BaseFemale"];
  mkRepresentation "protection_mask_graffiti_mask" "Graffiti Protection Mask"
    "Supporting the #CryptoAgainstCOVID initiative"
    "mask" "epic" ["BaseMale"; "BaseFemale"];
  mkRepresentation "protection_mask_hot_mask" "Hot Protection Mask"
    "Supporting the #CryptoAgainstCOVID initiative"
    "mask" "epic" ["BaseMale"; "BaseFemale"];
  mkRepresentation "protection_mask_monster_mask" "Monster Protection Mask"
    "Supporting the #CryptoAgainstCOVID initiative"
    "mask" "epic" ["BaseMale"; "BaseFemale"];
  mkRepresentation "protection_mask_skull_mask" "Skull Protection Mask"
    "Supporting the #CryptoAgainstCOVID initiative"
    "mask" "epic" ["BaseMale"; "BaseFemale"];
  mkRepresentation "protection_mask_tiger_mask" "Tiger Protection Mask"
    "Supporting the #CryptoAgainstCOVID initiative"
    "mask" "epic" ["BaseMale"; "BaseFemale"]
].

(** [sugarclub_yumi], eth/data/wearables/sugarclub_yumi.ts:1-53 *)
Definition sugarclub_yumi : list Representation := [
  mkRepresentation "yumi_glitter_eyes" "Yumi Glitter Eyes"
    "Awesome anime eyes for Sugar parties"
    "eyes" "legendary" ["BaseMale"; "BaseFemale"];
  mkRepresentation "yumi_retro_shades_eyewear" "Yumi Retro Shades"
    "Retro shades Sugar party look"
    "eyewear" "legendary" ["BaseMale"; "BaseFemale"];
  mkRepresentation "yumi_neon_boots_feet" "Yumi Neon Boots"
    "Those sugarclub boots will make you dance all night"
    "feet" "legendary" ["BaseMale"; "BaseFemale"];
  mkRepresentation "yumi_neon_hair" "Yumi Neon Hair"
    "Impress the crowd with this sugar anime hair style"
    "hair" "legendary" ["BaseMale"; "BaseFemale"];
  mkRepresentation "yumi_glitter_leggings_lower_body" "Yumi Glitter Leggings"
    "Very Kawaii and Sugar sweet bottoms"
    "lower_body" "legendary" ["BaseMale"; "BaseFemale"];
  mkRepresentation "yumi_glitter_jacket_upper_body" "Yumi Glitter Jacket"
    "Synthwave glitter & Sugar Sweet jacket"
    "upper_body" "legendary" ["BaseMale"; "BaseFemale"]
].

(** [tech_tribal_marc0matic], eth/data/wearables/tech_tribal_marc0matic.ts:1-53 *)
Definition tech_tribal_marc0matic : list Representation := [
  mkRepresentation "techtribal_shoes" "Tech Tribal Shoes"
    "Tech Tribal Leather Band Shoes."
    "feet" "legendary" ["BaseMale"; "BaseFemale"];
  mkRepresentation "tech_tribal_trousers" "Tech Tribal Trousers"
    "Tech Tribal Trousers with armored Leg Braces."
    "lower_body" "legendary" ["BaseMale"; "BaseFemale"];
  mkRepresentation "techtribal_beast_mask" "Tech Tribal Beast Mask"
    "VR Infused Beast Mask created by Marc0Matic"
    "mask" "legendary" ["BaseMale"; "BaseFemale"];
  mkRepresentation "techtribal_bird_mask" "Tech Tribal Bird Mask"
    "VR Infused Bird Mask created by Marc0Matic"
    "mask" "legendary" ["BaseMale"; "BaseFemale"];
  mkRepresentation "techtribal_shaman_garb" "Tech Tribal Shaman Garb"
    "Tech Tribal Shaman Garb. Worn by those familiar with 'Machine Speak.'"
    "upper_body" "legendary" ["BaseMale"; "BaseFemale"];
  mkRepresentation "techtribal_solar_garb" "Tech Tribal Solar Garb"
    "Tech Tribal Solar Garb with Solar Shoulder Pads. Worn by Mystics fluent in 'Machine Speak."
    "upper_body" "legendary" ["BaseMale"; "BaseFemale"]
].

(** [threelau_basics], eth/data/wearables/threelau_basics.ts:1-53 *)
Definition threelau_basics : list Representation := [
  mkRepresentation "3lau_blue_hat" "3LAU Blue Triangle Cap"
    "3LAU's signature triangle on a black and blue cap."
    "hat" "legendary" ["BaseMale"; "BaseFemale"];
  mkRepresentation "3lau_white_hat" "3LAU White Triangle Cap"
    "3LAU's signature triangle on a black and white cap."
    "hat" "epic" ["BaseMale"; "BaseFemale"];
  mkRepresentation "3lau_hoodie_b_upper_body" "3LAU Blue Triangle Hoodie"
    "3LAU's signature triangle on a black and blue hoodie."
    "upper_body" "legendary" ["BaseMale"; "BaseFemale"];
  mkRepresentation "3lau_hoodie_w_upper_body" "3LAU White Triangle Hoodie"
    "3LAU's signature triangle on a black and white hoodie."
    "upper_body" "epic" ["BaseMale"; "BaseFemale"];
  mkRepresentation "3lau_tshirt_b_upper_body" "3LAU Blue Triangle Tee"
    "3LAU's signature triangle on a black and blue tee."
    "upper_body" "legendary" ["BaseMale"; "BaseFemale"];
  mkRepresentation "3lau_tshirt_w_upper_body" "3LAU White Triangle Tee"
    "3LAU's signature triangle on a black and white tee."
    "upper_body" "epic" ["BaseMale"; "BaseFemale"]
].

(** [wearable_test], eth/data/wearables/wearable_test.ts:1-61 *)
Definition wearable_test : list Representation := [
  mkRepresentation "wearable_test_1" "Wearable Test 1"
    ""
    "hair" "legendary" ["BaseFemale"];
  mkRepresentation "wearable_test_2" "Wearable Test 2"
    ""
    "hair" "legendary" ["BaseFemale"];
  mkRepresentation "wearable_test_3" "Wearable Test 3"
    ""
    "hair" "legendary" ["BaseFemale"];
  mkRepresentation "wearable_test_4" "Wearable Test 4"
    ""
    "hair" "legendary" ["BaseFemale"];
  mkRepresentation "wearable_test_5" "Wearable Test 5"
    ""
    "hair" "legendary" ["BaseFemale"];
  mkRepresentation "wearable_test_6" "Wearable Test 6"
    ""
    "hair" "legendary" ["BaseFemale"];
  mkRepresentation "wearable_test_7" "Wearable Test 7"
    ""
    "hair" "legendary" ["BaseFemale"]
].

(** [winklevoss_capital], eth/data/wearables/winklevoss_capital.ts:1-21 *)
Definition winklevoss_capital : list Representation := [
  mkRepresentation "winklevoss_hat" "Winklevoss Cap"
    "Winklevoss Capital branded cap in signature pink."
    "hat" "epic" ["BaseMale"; "BaseFemale"];
  mkRepresentation "winklevoss_upper_body" "Winklevoss T-Shirt"
    "Winklevoss Capital branded T-shirt in signature pink"
    "upper_body" "epic" ["BaseMale"; "BaseFemale"]
].

(** [wonderzone_meteorchaser], eth/data/wearables/wonderzone_meteorchaser.ts:1-53 *)
Definition wonderzone_meteorchaser : list Representation := [
  mkRepresentation "meteorchaser_transmitter_earring" "Meteorchaser transmitters"
    "Crafting reward from WonderZone. Gives the wearer a bonus while mining meteorites. Created by Chestnutbruze"
    "earring" "legendary" ["BaseMale"; "BaseFemale"];
  mkRepresentation "meteorchaser_shoes_feet" "Shoes of the meteorchaser"
    "Crafting reward from WonderZone. Gives the wearer a bonus while mining meteorites. Created by Chestnutbruze"
    "feet" "legendary" ["BaseMale"; "BaseFemale"];
  mkRepresentation "meteorite_protective_hardhat_hat" "Meteorite protective hardhat"
    "Crafting reward from WonderZone. Will save your life from meteorites falling on your head. Also gives the wearer a bonus while mining meteorites. Created by Chestnutbruze"
    "hat" "legendary" ["BaseMale"; "BaseFemale"];
  mkRepresentation "meteorchaser_trousers_lower_body" "Trousers of the meteorchaser"
    "Crafting reward from WonderZone. Gives the wearer a bonus while mining meteorites. Created by Chestnutbruze"
    "lower_body" "legendary" ["BaseMale"; "BaseFemale"];
  mkRepresentation "meteorite_dustmask_mask" "Meteorite dustmask"
    "Crafting reward from WonderZone. Gives the wearer a bonus while mining meteorites. Created by Chestnutbruze"
    "mask" "legendary" ["BaseMale"; "BaseFemale"];
  mkRepresentation "meteorchaser_vest_upper_body" "Vest of the Meteorchaser"
    "Crafting reward from WonderZone. Gives the wearer a bonus while mining meteorites. Created by Chestnutbruze"
    "upper_body" "legendary" ["BaseMale"; "BaseFemale"]
].

(** [wonderzone_steampunk], eth/data/wearables/wonderzone_steampunk.ts:1-53 *)
Definition wonderzone_steampunk : list Representation := [
  mkRepresentation "steampunk_goggles" "Steampunk Goggles"
    "Steampunk sight-enhancing goggles. Gives a bonus in the WonderMine game. Created by Maricela."
    "eyewear" "legendary" ["BaseFemale"; "BaseMale"];
  mkRepresentation "steampunk_boots" "Steampunk Boots"
    "Leather Steampunk Boots. Gives a bonus in the WonderMine game. Created by Maricela."
    "feet" "legendary" ["BaseMale"; "BaseFemale"];
  mkRepresentation "steampunk_hat" "Steampunk Top Hat"
    "Steampunk top hat. Gives a bonus in the WonderMine game. Created by Maricela."
    "hat" "legendary" ["BaseMale"; "BaseFemale"];
  mkRepresentation "steampunk_trousers" "Steampunks jodhpur trousers"
    "Steampunk jodhpur trousers or leggings. Gives a bonus in the WonderMine game. Created by Maricela."
    "lower_body" "legendary" ["BaseMale"; "BaseFemale"];
  mkRepresentation "steampunk_mask" "Steampunk mask"
    "Steampunk mask. Gives a bonus in the WonderMine game. Created by Maricela"
    "mask" "legendary" ["BaseMale"; "BaseFemale"];
  mkRepresentation "steampunk_jacket" "Steampunk Jacket"
    "Elegant Steampunk jacket. Gives a bonus in the WonderMine game. Created by Maricela"
    "upper_body" "legendary" ["BaseMale"; "BaseFemale"]
].

(** [wz_wonderbot], eth/data/wearables/wz_wonderbot.ts:1-53 *)
Definition wz_wonderbot : list Representation := [
  mkRepresentation "wz_wonderbot_goggles" "Wonderbot goggles"
    "Robotic goggles, letting the wearer spot bulls and bears from far away. Wonderzone Collection 2020. Created by Chestnutbruze"
    "eyewear" "mythic" ["BaseMale"; "BaseFemale"];
  mkRepresentation "wz_wonderbot_feet" "Wonderbot Feet"
    "Robotic feet, giving you an extra spring in your step. Wonderzone Collection 2020. Created by Chestnutbruze"
    "feet" "mythic" ["BaseMale"; "BaseFemale"];
  mkRepresentation "wz_wonderbot_head" "Wonderbot Head"
    "Robotic head, allowing you to split your mind in two. Wonderzone Collection 2020. Created by Chestnutbruze"
    "helmet" "mythic" ["BaseMale"; "BaseFemale"];
  mkRepresentation "wz_wonderbot_legs" "Wonderbot Legs"
    "Robotic legs, allowing you to outrun Usain Bolt. Wonderzone Collection 2020. Created by Chestnutbruze"
    "lower_body" "mythic" ["BaseMale"; "BaseFemale"];
  mkRepresentation "wz_wonderbot_hat" "Wonderbot Tricorn Hat"
    "Robotic tricorn hat. Wonderzone Collection 2020. Created by Chestnutbruze"
    "top_head" "mythic" ["BaseMale"; "BaseFemale"];
  mkRepresentation "wz_wonderbot_torso" "Wonderbot Chestpiece"
    "Robotic torso, giving you the strength of 10 Avatars. Wonderzone Collection 2020. Created by Chestnutbruze"
    "upper_body" "mythic" ["BaseMale"; "BaseFemale"]
].

(** [xmas_2019], eth/data/wearables/xmas_2019.ts:1-261 *)
Definition xmas_2019 : list Representation := [
  mkRepresentation "snowflake_earring" "Snowflake Earrings"
    "Get 'em before they melt!"
    "earring" "epic" ["BaseFemale"; "BaseMale"];
  mkRepresentation "xmas_light_ball_earring" "Christmas Light Ball Earring"
    "Batteries not included."
    "earring" "epic" ["BaseFemale"; "BaseMale"];
  mkRepresentation "xmas_ball_earring" "Christmas Ball Earring"
    "Ding dong merrily on ears!"
    "earring" "epic" ["BaseFemale"; "BaseMale"];
  mkRepresentation "xmas_light_tree_earring" "Christmas Light Tree Earring"
    "Batteries not included."
    "earring" "epic" ["BaseFemale"; "BaseMale"];
  mkRepresentation "xmas_cyberpunk_eyewear" "Christmas CyberPunk Eyewear"
    "Even cyberpunks celebrate Xmas."
    "eyewear" "mythic" ["BaseFemale"; "BaseMale"];
  mkRepresentation "xmas_ski_eyewear" "Christmas Ski Eyewear"
    "Is it snowing in Decentraland?"
    "eyewear" "mythic" ["BaseFemale"; "BaseMale"];
  mkRepresentation "cyber_xmas_eyewear" "Christmas Neon Eyewear"
    "Hack the herald angels sing!"
    "eyewear" "mythic" ["BaseFemale"; "BaseMale"];
  mkRepresentation "xmas_tree_eyewear" "Christmas Tree Eyewear"
    "See Xmas in a whole new light."
    "eyewear" "mythic" ["BaseFemale"; "BaseMale"];
  mkRepresentation "santa_facial_hair" "Santa Beard"
    "Santa's beard. Fake or real?"
    "facial_hair" "mythic" ["BaseMale"];
  mkRepresentation "xmas_elf_feet" "Christmas Elf Shoes"
    "Rest of elf not included."
    "feet" "mythic" ["BaseMale"; "BaseFemale"];
  mkRepresentation "sledge_sockets_feet" "Sledge Shoes"
    "We don't recommend them for ice skating."
    "feet" "mythic" ["BaseMale"; "BaseFemale"];
  mkRepresentation "xmas_sockets_feet" "Christmas Sockets"
    "Embrace the spirit of Xmas—from top to toe."
    "feet" "mythic" ["BaseMale"; "BaseFemale"];
  mkRepresentation "xmas_blue_hat" "Christmas Blue Hat"
    "Have a blue, blue, blue, blue Christmas"
    "hat" "epic" ["BaseMale"; "BaseFemale"];
  mkRepresentation "xmas_elf_hat" "Christmas Elf Hat"
    "Any size you like as long as it's XS."
    "hat" "epic" ["BaseMale"; "BaseFemale"];
  mkRepresentation "xmas_green_hat" "Christmas Green Hat"
    " Colour yourself Xmas."
    "hat" "epic" ["BaseMale"; "BaseFemale"];
  mkRepresentation "xmas_red_hat" "Christmas Red Hat"
    "Colour yourself Xmas."
    "hat" "epic" ["BaseMale"; "BaseFemale"];
  mkRepresentation "xmas_reindeer_hat" "Christmas Reindeer Hat"
    "The Xmas party classic comes to Decentraland."
    "hat" "mythic" ["BaseMale"; "BaseFemale"];
  mkRepresentation "xmas_yellow_hat" "Christmas Yellow Hat"
    "Colour yourself Xmas."
    "hat" "epic" ["BaseMale"; "BaseFemale"];
  mkRepresentation "f_cyber_xmas_helmet" "Cyber Xmas Helmet"
    "Hack the herald angels sing!"
    "helmet" "mythic" ["BaseFemale"];
  mkRepresentation "xmas_snowman_helmet" "Snowman Head"
    "Don't stand too close to the fire."
    "helmet" "mythic" ["BaseMale"; "BaseFemale"];
  mkRepresentation "m_cyber_xmas_helmet" "Cyber Xmas Helmet"
    "Hack the herald angels sing!"
    "helmet" "mythic" ["BaseMale"];
  mkRepresentation "f_cyber_suit_lower_body" "Cyber Pants"
    "Tron's a Xmas movie right?"
    "lower_body" "mythic" ["BaseFemale"];
  mkRepresentation "f_led_suit_lower_body" "Led Pants"
    "Why just put up Xmas lights when you can wear them?"
    "lower_body" "mythic" ["BaseFemale"];
  mkRepresentation "m_cyber_suit_lower_body" "Cyber Pants"
    "Tron's a Xmas movie right?"
    "lower_body" "mythic" ["BaseMale"];
  mkRepresentation "m_led_suit_lower_body" "Led Pants"
    "Why just put up Xmas lights when you can wear them?"
    "lower_body" "mythic" ["BaseMale"];
  mkRepresentation "f_led_suit_upper_body" "Led Suit"
    "Why just put up Xmas lights when you can wear them?"
    "upper_body" "mythic" ["BaseFemale"];
  mkRepresentation "f_cyber_suit_upper_body" "Cyber Suit"
    "Tron's a Xmas movie right?"
    "upper_body" "mythic" ["BaseFemale"];
  mkRepresentation "m_led_suit_upper_body" "Led Suit"
    "Why just put up Xmas lights when you can wear them?"
    "upper_body" "mythic" ["BaseMale"];
  mkRepresentation "xmas_cyberpunk_upper_body" "Cyberpunk Jacket"
    "Coolest. Xmas. Jumper. Ever!"
    "upper_body" "mythic" ["BaseMale"];
  mkRepresentation "m_cyber_suit_upper_body" "Cyber Suit"
    "Tron's a Xmas movie right?"
    "upper_body" "mythic" ["BaseMale"];
  mkRepresentation "pixel_sweater_upper_body" "Pixel Christmas Sweater"
    "Even in virtual worlds there's no escape from the Xmas jumper."
    "upper_body" "mythic" ["BaseMale"; "BaseFemale"];
  mkRepresentation "8bit_sweater_upper_body" "8 Bit Christmas Sweater"
    "Even in virtual worlds there's no escape from the Xmas jumper."
    "upper_body" "mythic" ["BaseMale"; "BaseFemale"]
].

(** [xmas_2020], eth/data/wearables/xmas_2020.ts:1-93 *)
Definition xmas_2020 : list Representation := [
  mkRepresentation "santa_xmas_2020_hat" "Christmas Santa Hat"
    "A festive gift from Save Xmas 2020"
    "hat" "epic" ["BaseMale"; "BaseFemale"];
  mkRepresentation "covinch_xmas_mask" "Covinch Christmas Mask"
    "A festive gift from Save Xmas 2020"
    "mask" "mythic" ["BaseMale"; "BaseFemale"];
  mkRepresentation "santa_xmas_mask" "santa Christmas Mask"
    "A festive gift from Save Xmas 2020"
    "mask" "mythic" ["BaseMale"; "BaseFemale"];
  mkRepresentation "blue_jacket_xmas_upper_body" "Blue Winter Jacket"
    "A festive gift from Save Xmas 2020"
    "upper_body" "epic" ["BaseMale"; "BaseFemale"];
  mkRepresentation "btc_xmas_sweater_upper_body" "Bitcoin Christmas Sweater"
    "A festive gift from Save Xmas 2020"
    "upper_body" "legendary" ["BaseMale"; "BaseFemale"];
  mkRepresentation "doge_xmas_tshirt_upper_body" "Dogecoin T Shirt"
    "A festive gift from Save Xmas 2020"
    "upper_body" "legendary" ["BaseMale"; "BaseFemale"];
  mkRepresentation "eth_xmas_sweater_upper_body" "Ethereum Christmas Sweater"
    "A festive gift from Save Xmas 2020"
    "upper_body" "legendary" ["BaseMale"; "BaseFemale"];
  mkRepresentation "mana_xmas_sweater_upper_body" "MANA Christmas Sweater"
    "A festive gift from Save Xmas 2020"
    "upper_body" "legendary" ["BaseMale"; "BaseFemale"];
  mkRepresentation "red_jacket_xmas_upper_body" "Red Winter Jacket"
    "A festive gift from Save Xmas 2020"
    "upper_body" "legendary" ["BaseMale"; "BaseFemale"];
  mkRepresentation "santa_xmas_2020_upper_body" "Santa Christmas Suit"
    "A festive gift from Save Xmas 2020"
    "upper_body" "epic" ["BaseMale"; "BaseFemale"];
  mkRepresentation "yellow_jacket_xmas_upper_body" "Yellow Winter Jacket"
    "A festive gift from Save Xmas 2020"
    "upper_body" "legendary" ["BaseMale"; "BaseFemale"]
].

(** [xmash_up_2020], eth/data/wearables/xmash_up_2020.ts:1-45 *)
Definition xmash_up_2020 : list Representation := [
  mkRepresentation "xmash_up_googles_eyewear" "Bryfocals - Guest Artists Collection"
    "Bryfocals | Art by Bryan Blinkman - 3D Design by vrglit.ch | Guest Artists Collection"
    "eyewear" "mythic" ["BaseMale"; "BaseFemale"];
  mkRepresentation "xmash_up_boots_feet" "FEWO CLOUD SHOES - Guest Artists Collection"
    "FEWO CLOUD SHOES. It’s like Walking on Air... | Art by fewocious - 3D Design by vrglit.ch | Guest Artists Collection"
    "feet" "mythic" ["BaseMale"; "BaseFemale"];
  mkRepresentation "xmash_up_cap_hat" "The Delbo Comic Cap - Guest Artists Collection"
    ("The Delbo Comic Cap. Because every great artist needs their hat... | Art by Jos" +:+ chr 233 +:+ " Delbo - 3D Design by vrglit.ch | Guest Artists Collection")
    "hat" "mythic" ["BaseMale"; "BaseFemale"];
  mkRepresentation "xmash_up_pants_lower_body" "Joelle Pants"
    "Wash separately, colours may bleed. | Art by KJ Walker - 3D Design by vrglit.ch | Guest Artists Collection"
    "lower_body" "mythic" ["BaseMale"; "BaseFemale"];
  mkRepresentation "xmash_up_coat_upper_body" "Infinity Cow Coat - Guest Artists Collection"
    "Infinity Cow Coat. | Art by Jonathan Wolfe - 3D Design by vrglit.ch | Guest Artists Collection"
    "upper_body" "mythic" ["BaseMale"; "BaseFemale"]
].
