(* ===== verification/EthModel.v ===== *)
(** * Entities and state of the Ethereum processor

    The entities only the Ethereum processor has, the shape it gives the shared
    ones, the events it decodes, and the state of one of its batches. *)

From S2P Require Import Prelude JsString Model Env State Common.
Open Scope string_scope.
Open Scope list_scope.
Open Scope Z_scope.

(** ** Entities *)

(** The item of a token or an order: its identifier and its blockchain
    identifier, fixed at creation. *)
Record ItemRef := mkItemRef { iref_id : string; iref_blockchainId : Z }.

#[export] Instance ItemRef_eq_dec : EqDecision ItemRef.
Proof. solve_decision. Defined.

(** [EthWearable], model/generated/wearable.model.ts:10-48.  A wearable built
    without a representation has no column assigned. *)
Record EthWearable := mkEthWearable {
  ew_id : string;
  ew_owner : option AccountRef;
  ew_representationId : option string;
  ew_collection : option string;
  ew_name : option string;
  ew_description : option string;
  ew_category : option string;
  ew_rarity : option string;
  ew_bodyShapes : option (list string);
  ew_network : option Network
}.

#[export] Instance eta_EthWearable : Eta EthWearable := λ r,
  mkEthWearable (ew_id r) (ew_owner r) (ew_representationId r)
    (ew_collection r) (ew_name r) (ew_description r) (ew_category r)
    (ew_rarity r) (ew_bodyShapes r) (ew_network r).

(** [new Wearable({ id })] *)
Definition newEthWearable (id : string) : EthWearable := {|
  ew_id := id;
  ew_owner := None;
  ew_representationId := None;
  ew_collection := None;
  ew_name := None;
  ew_description := None;
  ew_category := None;
  ew_rarity := None;
  ew_bodyShapes := None;
  ew_network := None
|}.

(** [EthMetadata], model/generated/metadata.model.ts:8-29. *)
Record EthMetadata := mkEthMetadata {
  emd_id : string;
  emd_itemType : ItemType;
  emd_wearable : option EthWearable
}.

#[export] Instance eta_EthMetadata : Eta EthMetadata := λ r,
  mkEthMetadata (emd_id r) (emd_itemType r) (emd_wearable r).

(** [Parcel], model/generated/parcel.model.ts:8-42.  [tokenId] and the
    coordinates of a parcel created without them are undefined. *)
Record Parcel := mkParcel {
  pc_id : string;
  pc_tokenId : option Z;
  pc_owner : option AccountRef;
  pc_x : option Z;
  pc_y : option Z;
  pc_estate : option string;
  pc_data : option string;
  pc_rawData : option string
}.

#[export] Instance eta_Parcel : Eta Parcel := λ r,
  mkParcel (pc_id r) (pc_tokenId r) (pc_owner r) (pc_x r) (pc_y r)
    (pc_estate r) (pc_data r) (pc_rawData r).

(** [new Parcel({ id })] *)
Definition newParcel (id : string) : Parcel := {|
  pc_id := id;
  pc_tokenId := None;
  pc_owner := None;
  pc_x := None;
  pc_y := None;
  pc_estate := None;
  pc_data := None;
  pc_rawData := None
|}.

(** [Estate], model/generated/estate.model.ts:8-45. *)
Record Estate := mkEstate {
  es_id : string;
  es_tokenId : option Z;
  es_owner : option AccountRef;
  es_parcelDistances : option (list Z);
  es_adjacentToRoadCount : option Z;
  es_size : option Z;
  es_data : option string;
  es_rawData : option string
}.

#[export] Instance eta_Estate : Eta Estate := λ r,
  mkEstate (es_id r) (es_tokenId r) (es_owner r) (es_parcelDistances r)
    (es_adjacentToRoadCount r) (es_size r) (es_data r) (es_rawData r).

(** [new Estate({ id })] *)
Definition newEstate (id : string) : Estate := {|
  es_id := id;
  es_tokenId := None;
  es_owner := None;
  es_parcelDistances := None;
  es_adjacentToRoadCount := None;
  es_size := None;
  es_data := None;
  es_rawData := None
|}.

(** [ENS], model/generated/ens.model.ts:6-42. *)
Record ENS := mkENS {
  ens_id : string;
  ens_tokenId : option Z;
  ens_owner : option AccountRef;
  ens_caller : option string;
  ens_beneficiary : option string;
  ens_labelHash : option string;
  ens_subdomain : option string;
  ens_createdAt : option Z;
  ens_orderHash : option string
}.

#[export] Instance eta_ENS : Eta ENS := λ r,
  mkENS (ens_id r) (ens_tokenId r) (ens_owner r) (ens_caller r)
    (ens_beneficiary r) (ens_labelHash r) (ens_subdomain r)
    (ens_createdAt r) (ens_orderHash r).

(** [new ENS({ id })] *)
Definition newENS (id : string) : ENS := {|
  ens_id := id;
  ens_tokenId := None;
  ens_owner := None;
  ens_caller := None;
  ens_beneficiary := None;
  ens_labelHash := None;
  ens_subdomain := None;
  ens_createdAt := None;
  ens_orderHash := None
|}.

(** [EthNFT], model/generated/nft.model.ts:25-211.  The token as the Ethereum
    processor holds it: a token can be created with no column assigned, so every
    column but the identifier may be undefined.  A count that is not a number is
    [None] too.  The category is the string of [getCategory], the address of the
    contract when it is not a known one.  The item is its identifier and its
    blockchain identifier. *)
Record EthNFT := mkEthNFT {
  en_id : string;
  en_tokenId : option Z;
  en_contractAddress : option string;
  en_category : option string;
  en_owner : option AccountRef;
  en_ownerAddress : option string;
  en_tokenURI : option string;
  en_activeOrder : option string;
  en_name : option string;
  en_image : option string;
  en_parcel : option string;
  en_estate : option string;
  en_wearable : option string;
  en_ens : option string;
  en_createdAt : option Z;
  en_updatedAt : option Z;
  en_soldAt : option Z;
  en_transferredAt : option Z;
  en_sales : option Z;
  en_volume : option Z;
  en_searchOrderStatus : option OrderStatus;
  en_searchOrderPrice : option Z;
  en_searchOrderExpiresAt : option Z;
  en_searchOrderExpiresAtNormalized : option Z;
  en_searchOrderCreatedAt : option Z;
  en_searchText : option string;
  en_searchIsLand : option bool;
  en_searchParcelIsInBounds : option bool;
  en_searchParcelX : option Z;
  en_searchParcelY : option Z;
  en_searchParcelEstateId : option string;
  en_searchDistanceToPlaza : option Z;
  en_searchAdjacentToRoad : option bool;
  en_searchEstateSize : option Z;
  en_searchIsWearableHead : option bool;
  en_searchIsWearableAccessory : option bool;
  en_searchWearableRarity : option string;
  en_searchWearableCategory : option string;
  en_searchWearableBodyShapes : option (list string);
  en_searchItemType : option ItemType;
  en_itemBlockchainId : option Z;
  en_issuedId : option Z;
  en_itemType : option ItemType;
  en_urn : option string;
  en_collection : option string;
  en_item : option ItemRef;
  en_metadata : option string;
  en_network : option Network
}.

#[export] Instance eta_EthNFT : Eta EthNFT := λ r,
  mkEthNFT (en_id r) (en_tokenId r) (en_contractAddress r) (en_category r)
    (en_owner r) (en_ownerAddress r) (en_tokenURI r) (en_activeOrder r)
    (en_name r) (en_image r) (en_parcel r) (en_estate r) (en_wearable r)
    (en_ens r) (en_createdAt r) (en_updatedAt r) (en_soldAt r)
    (en_transferredAt r) (en_sales r) (en_volume r) (en_searchOrderStatus r)
    (en_searchOrderPrice r) (en_searchOrderExpiresAt r)
    (en_searchOrderExpiresAtNormalized r) (en_searchOrderCreatedAt r)
    (en_searchText r) (en_searchIsLand r) (en_searchParcelIsInBounds r)
    (en_searchParcelX r) (en_searchParcelY r) (en_searchParcelEstateId r)
    (en_searchDistanceToPlaza r) (en_searchAdjacentToRoad r)
    (en_searchEstateSize r) (en_searchIsWearableHead r)
    (en_searchIsWearableAccessory r) (en_searchWearableRarity r)
    (en_searchWearableCategory r) (en_searchWearableBodyShapes r)
    (en_searchItemType r) (en_itemBlockchainId r) (en_issuedId r)
    (en_itemType r) (en_urn r) (en_collection r) (en_item r) (en_metadata r)
    (en_network r).

(** [new NFT({ id })] *)
Definition newEthNFT (id : string) : EthNFT := {|
  en_id := id;
  en_tokenId := None;
  en_contractAddress := None;
  en_category := None;
  en_owner := None;
  en_ownerAddress := None;
  en_tokenURI := None;
  en_activeOrder := None;
  en_name := None;
  en_image := None;
  en_parcel := None;
  en_estate := None;
  en_wearable := None;
  en_ens := None;
  en_createdAt := None;
  en_updatedAt := None;
  en_soldAt := None;
  en_transferredAt := None;
  en_sales := None;
  en_volume := None;
  en_searchOrderStatus := None;
  en_searchOrderPrice := None;
  en_searchOrderExpiresAt := None;
  en_searchOrderExpiresAtNormalized := None;
  en_searchOrderCreatedAt := None;
  en_searchText := None;
  en_searchIsLand := None;
  en_searchParcelIsInBounds := None;
  en_searchParcelX := None;
  en_searchParcelY := None;
  en_searchParcelEstateId := None;
  en_searchDistanceToPlaza := None;
  en_searchAdjacentToRoad := None;
  en_searchEstateSize := None;
  en_searchIsWearableHead := None;
  en_searchIsWearableAccessory := None;
  en_searchWearableRarity := None;
  en_searchWearableCategory := None;
  en_searchWearableBodyShapes := None;
  en_searchItemType := None;
  en_itemBlockchainId := None;
  en_issuedId := None;
  en_itemType := None;
  en_urn := None;
  en_collection := None;
  en_item := None;
  en_metadata := None;
  en_network := None
|}.

(** [EthOrder], model/generated/order.model.ts:9-70. *)
Record EthOrder := mkEthOrder {
  eo_id : string;
  eo_marketplaceAddress : string;
  eo_category : string;
  eo_nft : option string;
  eo_item : option ItemRef;
  eo_nftAddress : string;
  eo_tokenId : Z;
  eo_txHash : string;
  eo_owner : string;
  eo_buyer : option string;
  eo_price : Z;
  eo_status : OrderStatus;
  eo_blockNumber : Z;
  eo_expiresAt : Z;
  eo_expiresAtNormalized : Z;
  eo_createdAt : Z;
  eo_updatedAt : Z;
  eo_network : Network
}.

#[export] Instance eta_EthOrder : Eta EthOrder := λ r,
  mkEthOrder (eo_id r) (eo_marketplaceAddress r) (eo_category r) (eo_nft r)
    (eo_item r) (eo_nftAddress r) (eo_tokenId r) (eo_txHash r) (eo_owner r)
    (eo_buyer r) (eo_price r) (eo_status r) (eo_blockNumber r)
    (eo_expiresAt r) (eo_expiresAtNormalized r) (eo_createdAt r)
    (eo_updatedAt r) (eo_network r).

(** [EthBid], model/generated/bid.model.ts:8-64. *)
Record EthBid := mkEthBid {
  eb_id : string;
  eb_bidAddress : string;
  eb_category : string;
  eb_nft : option string;
  eb_nftAddress : string;
  eb_tokenId : Z;
  eb_bidder : list Z;
  eb_seller : list Z;
  eb_price : Z;
  eb_fingerprint : list Z;
  eb_status : OrderStatus;
  eb_blockchainId : string;
  eb_blockNumber : Z;
  eb_expiresAt : Z;
  eb_createdAt : Z;
  eb_updatedAt : Z;
  eb_network : Network
}.

#[export] Instance eta_EthBid : Eta EthBid := λ r,
  mkEthBid (eb_id r) (eb_bidAddress r) (eb_category r) (eb_nft r)
    (eb_nftAddress r) (eb_tokenId r) (eb_bidder r) (eb_seller r)
    (eb_price r) (eb_fingerprint r) (eb_status r) (eb_blockchainId r)
    (eb_blockNumber r) (eb_expiresAt r) (eb_createdAt r) (eb_updatedAt r)
    (eb_network r).

(** [EthSale], model/generated/sale.model.ts:10-80.  A sale of a token that is
    not indexed has no buyer and no token. *)
Record EthSale := mkEthSale {
  esl_id : string;
  esl_type : SaleType;
  esl_buyer : option string;
  esl_realBuyer : option string;
  esl_operation : option Operation;
  esl_seller : string;
  esl_price : Z;
  esl_nft : option string;
  esl_searchTokenId : option Z;
  esl_searchContractAddress : option string;
  esl_searchCategory : option string;
  esl_item : option ItemRef;
  esl_searchItemId : option Z;
  esl_timestamp : Z;
  esl_txHash : string;
  esl_network : Network
}.

#[export] Instance eta_EthSale : Eta EthSale := λ r,
  mkEthSale (esl_id r) (esl_type r) (esl_buyer r) (esl_realBuyer r)
    (esl_operation r) (esl_seller r) (esl_price r) (esl_nft r)
    (esl_searchTokenId r) (esl_searchContractAddress r)
    (esl_searchCategory r) (esl_item r) (esl_searchItemId r)
    (esl_timestamp r) (esl_txHash r) (esl_network r).

(** [Coordinate], types.ts:5-8 *)
Record Coordinate := mkCoordinate { co_0 : Z; co_1 : Z }.

#[export] Instance Coordinate_eq_dec : EqDecision Coordinate.
Proof. solve_decision. Defined.

(** ** Events *)

Record CreateEstateEventArgs := { ce_owner : string; ce_estateId : Z; ce_data : string }.
Record AddLandEventArgs := { al_estateId : Z; al_landId : Z }.
Record RemoveLandEventArgs := { rl_estateId : Z; rl_landId : Z; rl_destinatary : string }.
(** Both registries emit the same [Update]. *)
Record UpdateEventArgs := { up_assetId : Z; up_data : string }.
(** [nr_tokenId] is the number [_labelHash] denotes, [BigInt(_labelHash)]. *)
Record NameRegisteredEventArgs := {
  nr_caller : string; nr_beneficiary : string; nr_labelHash : string; nr_tokenId : Z;
  nr_subdomain : string; nr_createdDate : Z
}.
Record AddWearableEventArgs := { aw_wearableId : string; aw_maxIssuance : Z }.

(** The decoded event of a log, by topic. *)
Inductive EthLogEvent :=
  | EeTransfer (e : TransferEventArgs)
  | EeOwnershipTransferred
  | EeAddWearable (e : AddWearableEventArgs)
  | EeCreateEstate (e : CreateEstateEventArgs)
  | EeAddLand (e : AddLandEventArgs)
  | EeRemoveLand (e : RemoveLandEventArgs)
  | EeUpdate (e : UpdateEventArgs)
  | EeNameRegistered (e : NameRegisteredEventArgs)
  | EeNameBought (price : Z)
  | EeOrderCreated (e : OrderCreatedEventArgs)
  | EeOrderSuccessful (e : OrderSuccessfulEventArgs)
  | EeOrderCancelled (e : OrderCancelledEventArgs)
  | EeBidCreated (e : BidCreatedEventArgs)
  | EeBidAccepted (e : BidAcceptedEventArgs)
  | EeBidCancelled (e : BidCancelledEventArgs)
  | EeChangedOwnerCutPerMillion (ownerCutPerMillion : Z)
  | EeTraded (e : TradedEventArgs)
  | EeOrderFilled (orderHash : string)
  | EeOther.

Record EthLog := mkEthLog {
  el_address : string;
  el_transactionIndex : Z;
  el_transactionHash : string;
  el_event : EthLogEvent
}.

Record EthBlock := mkEthBlock {
  ebk_header : Block;
  ebk_hash : string;
  ebk_logs : list EthLog
}.

(** ** State *)

(** [getStoredData], the maps of eth/store.ts:211-227 *)
Record EthStoredData := mkEthStoredData {
  e_parcels : gmap string Parcel;
  e_estates : gmap string Estate;
  e_ens : gmap string ENS;
  e_datas : gmap string Data;
  e_accounts : gmap string Account;
  e_nfts : gmap string EthNFT;
  e_orders : gmap string EthOrder;
  e_wearables : gmap string EthWearable;
  e_analytics : gmap string AnalyticsDayData;
  e_counts : gmap string Count;
  e_bids : gmap string EthBid;
  e_items : gmap string Item;
  e_collections : gmap string Collection;
  e_metadatas : gmap string EthMetadata
}.
#[export] Instance eta_EthStoredData : Eta EthStoredData := λ r,
  mkEthStoredData (e_parcels r) (e_estates r) (e_ens r) (e_datas r) (e_accounts r)
    (e_nfts r) (e_orders r) (e_wearables r) (e_analytics r) (e_counts r) (e_bids r)
    (e_items r) (e_collections r) (e_metadatas r).

Definition emptyEthStoredData : EthStoredData :=
  mkEthStoredData ∅ ∅ ∅ ∅ ∅ ∅ ∅ ∅ ∅ ∅ ∅ ∅ ∅ ∅.

(** An entry of [markteplaceEvents] or [ensEvents]. *)
Record EthQueuedEvent := mkEthQueuedEvent {
  eq_event : EthLogEvent;
  eq_block : EthBlock;
  eq_log : EthLog;
  eq_marketplaceOwnerCutPerMillion : option Z;
  eq_bidOwnerCutPerMillion : option Z
}.

(** [EthereumInMemoryState], eth/types.ts:12-63.  [parcelEvents] holds land
    updates only. *)
Record EthereumInMemoryState := mkEthereumInMemoryState {
  em_mints : gmap string Mint;
  em_transfers : gmap string Transfer;
  em_collectionIds : gset string;
  em_itemIds : gmap string (list string);
  em_tokenIds : gmap string (list Z);
  em_landTokenIds : gset Z;
  em_estateTokenIds : gset Z;
  em_ensTokenIds : gset Z;
  em_accountIds : gset string;
  em_analyticsIds : gset string;
  em_bidIds : gset string;
  em_parcelEvents : list (UpdateEventArgs * EthBlock);
  em_ensEvents : list EthQueuedEvent;
  em_markteplaceEvents : list EthQueuedEvent
}.
#[export] Instance eta_EthereumInMemoryState : Eta EthereumInMemoryState := λ r,
  mkEthereumInMemoryState (em_mints r) (em_transfers r) (em_collectionIds r)
    (em_itemIds r) (em_tokenIds r) (em_landTokenIds r) (em_estateTokenIds r)
    (em_ensTokenIds r) (em_accountIds r) (em_analyticsIds r) (em_bidIds r)
    (em_parcelEvents r) (em_ensEvents r) (em_markteplaceEvents r).

(** [ethBatchInMemoryState], eth/state.ts:12-30 *)
Definition ethBatchInMemoryState : EthereumInMemoryState :=
  mkEthereumInMemoryState ∅ ∅ ∅ ∅ ∅ ∅ ∅ ∅ ∅ ∅ ∅ [] [] [].

(** What the module keeps from one batch to the next: the coordinates and token
    URIs it has seen, and the owner cuts.
    [EthModule], eth/main.ts:81-82 *)
Record EthModule := mkEthModule {
  ek_landCoordinates : gmap Z Coordinate;
  ek_tokenURIs : gmap string string;
  ek_marketplaceOwnerCutPerMillion : option Z;
  ek_bidOwnerCutPerMillion : option Z
}.
#[export] Instance eta_EthModule : Eta EthModule := λ r,
  mkEthModule (ek_landCoordinates r) (ek_tokenURIs r) (ek_marketplaceOwnerCutPerMillion r)
    (ek_bidOwnerCutPerMillion r).

(** Everything an Ethereum handler can reach. *)
Record EthWorld := mkEthWorld {
  e_storedData : EthStoredData;
  e_inMemoryData : EthereumInMemoryState;
  e_sales : gmap string EthSale;
  e_module : EthModule
}.
#[export] Instance eta_EthWorld : Eta EthWorld := λ r,
  mkEthWorld (e_storedData r) (e_inMemoryData r) (e_sales r) (e_module r).

(** ** Map primitives *)

(** [<map>.get(k)] *)
Definition eth_get {A} (p : EthStoredData → gmap string A) (k : string)
    : M EthWorld (option A) :=
  gets (λ w, p (e_storedData w) !! k).

Lemma steps_eth_get {A} (R : relation EthWorld) `{!PreOrder R}
    (p : EthStoredData → gmap string A) k : steps R (eth_get p k).
Proof. by apply steps_gets. Qed.
#[export] Hint Resolve steps_eth_get : frame.

(** [<map>.set(k, v)] *)
Definition eth_set {A} (p : EthStoredData → gmap string A) `{!Setter p}
    (k : string) (v : A) : M EthWorld unit :=
  modify (set e_storedData (set p <[k:=v]>)).

(** Assigning to properties of the object held under [k]. *)
Definition eth_mutate {A} (p : EthStoredData → gmap string A) `{!Setter p}
    (k : string) (f : A → A) : M EthWorld unit :=
  modify (set e_storedData (set p (alter f k))).

(** Assigning to the sets and lists of the batch. *)
Definition eth_mem {A} (p : EthereumInMemoryState → A) `{!Setter p} (f : A → A)
    : M EthWorld unit :=
  modify (set e_inMemoryData (set p f)).

(** A property read off [undefined]. *)
Definition require {S A} (o : option A) : M S A :=
  match o with
  | Some a => mret a
  | None => throw TypeError
  end.

Lemma steps_require {S A} (R : relation S) `{!PreOrder R} (o : option A) : steps R (require o).
Proof. unfold require. frames. Qed.
#[export] Hint Resolve steps_require : frame.
