(* ===== verification/EthCommon.v ===== *)
(** * Ethereum processor: shared operations and sales

    Categories, accounts, counters, the order attached to a token, and the
    accounting of a sale: [common/utils], [common/modules] at the Ethereum
    network, [eth/modules/count.ts] and [eth/modules/analytics.ts]. *)

From S2P Require Import Prelude JsString Model Env State Common Analytics EthModel.
Open Scope string_scope.
Open Scope list_scope.
Open Scope Z_scope.

(** The reads of contracts only this processor makes. *)
Class EthRpc := {
  (** the token URIs of a list of tokens in one multicall *)
  rpc_tokenURIs : Z → list (string * Z) → Res (list string);
  rpc_name : Z → string → Res string;
  rpc_symbol : Z → string → Res string;
  rpc_baseURI : Z → string → Res string
}.

(** ** Accounts *)

(** [createOrLoadEthAccount], common/modules/account.ts:32-46, with the default
    network *)
Definition createOrLoadEthAccount (id : string) : M EthWorld Account :=
  found ← eth_get e_accounts (accountKey id ETHEREUM);
  let account := default (createAccount id ETHEREUM) found in
  _ ← eth_set e_accounts (accountKey id ETHEREUM) account;
  mret account.

(** ** Counters *)

(** [ethBuildCount], eth/modules/count.ts:6-43, followed by the assignments [f]
    to the object it returns; as in [buildCount], a new counter is not in the
    map. *)
Definition ethBuildCount (f : Count → Count) : M EthWorld Count :=
  found ← eth_get e_counts (countKey ETHEREUM);
  match found with
  | Some count =>
      _ ← eth_set e_counts (countKey ETHEREUM) (f count);
      mret (f count)
  | None => mret (f (newCount ETHEREUM))
  end.

(** The counter of a category, the strings of [Category]. *)
Definition countCategory (parcel estate wearable ens : Count → Count) (category : string)
    (c : Count) : Count :=
  if decide (category = "parcel") then parcel c
  else if decide (category = "estate") then estate c
  else if decide (category = "wearable") then wearable c
  else if decide (category = "ens") then ens c
  else c.

(** [ethBuildCountFromNFT], eth/modules/count.ts:45-60 *)
Definition ethBuildCountFromNFT (category : string) : M EthWorld Count :=
  ethBuildCount (countCategory (set cnt_parcelTotal Z.succ) (set cnt_estateTotal Z.succ)
    (set cnt_wearableTotal Z.succ) (set cnt_ensTotal Z.succ) category).

(** [ethBuildCountFromOrder], eth/modules/count.ts:62-76 *)
Definition ethBuildCountFromOrder (category : string) : M EthWorld unit :=
  _ ← ethBuildCount (λ c, countCategory (set cnt_orderParcel Z.succ)
        (set cnt_orderEstate Z.succ) (set cnt_orderWearable Z.succ)
        (set cnt_orderENS Z.succ) category (c <| cnt_orderTotal ::= Z.succ |>));
  mret tt.

(** [(feesCollectorCut * price) / ONE_MILLION] *)
Definition daoCut (feesCollectorCut price : Z) : Z :=
  Z.quot (feesCollectorCut * price) ONE_MILLION.

(** [ethBuildCountFromSale], eth/modules/count.ts:78-89 *)
Definition ethBuildCountFromSale (price feesCollectorCut : Z) : M EthWorld Count :=
  ethBuildCount (λ c,
    c <| cnt_salesTotal ::= Z.succ |>
      <| cnt_salesManaTotal ::= Z.add price |>
      <| cnt_daoEarningsManaTotal ::= Z.add (daoCut feesCollectorCut price) |>).

(** [ethBuildCountFromItem], common/modules/count.ts:112-121, for
    [Network.ETHEREUM] *)
Definition ethBuildCountFromItem : M EthWorld Count :=
  ethBuildCount (λ c, c <| cnt_itemTotal ::= Z.succ |>).

Section common.
Context `{Env}.

(** [handleInitializeWearablesV1], eth/handlers/collection.ts:6-18 *)
Definition handleInitializeWearablesV1 : M EthWorld unit :=
  let collectionsV1 := ea_collections getEthAddresses in
  count ← ethBuildCount (λ c,
    (if decide (cnt_started c ≠ 0)
     then c <| cnt_collectionTotal ::= Z.add (Z.of_nat (length collectionsV1)) |>
     else c) <| cnt_started := 1 |>);
  eth_set e_counts (cnt_id count) count.

(** ** Categories *)

(** [getCategory], common/utils/category.ts:5-23 *)
Definition getCategory (contractAddress : string) : string :=
  let addresses := getEthAddresses in
  if decide (contractAddress = ea_LANDRegistry addresses) then "parcel"
  else if decide (contractAddress = ea_EstateRegistry addresses) then "estate"
  else if decide (contractAddress = ea_DCLRegistrar addresses) then "ens"
  else if decide (contractAddress ∈ ea_collections addresses) then "wearable"
  else contractAddress.

(** The identifier the market handlers look a token up by: wearables have no
    prefix.
    [marketNFTId], eth/handlers/marketplace.ts:53-58 *)
Definition marketNFTId (nftAddress : string) (assetId : Z) : string :=
  let category := getCategory nftAddress in
  getNFTId nftAddress (pretty assetId)
    (if decide (category = "wearable") then None else Some category).

(** ** Orders attached to a token *)

(** [ethAddNFTOrderProperties], common/utils/nft.ts:98-105 *)
Definition ethAddNFTOrderProperties (nft : EthNFT) (order : EthOrder) : EthNFT :=
  nft <| en_activeOrder := Some (eo_id order) |>
      <| en_searchOrderStatus := Some (eo_status order) |>
      <| en_searchOrderPrice := Some (eo_price order) |>
      <| en_searchOrderCreatedAt := Some (eo_createdAt order) |>
      <| en_searchOrderExpiresAt := Some (eo_expiresAt order) |>
      <| en_searchOrderExpiresAtNormalized := Some (normalizeTimestamp (eo_expiresAt order)) |>.

(** [ethClearNFTOrderProperties], common/utils/nft.ts:107-114 *)
Definition ethClearNFTOrderProperties (nft : EthNFT) : EthNFT :=
  nft <| en_activeOrder := None |>
      <| en_searchOrderStatus := None |>
      <| en_searchOrderPrice := None |>
      <| en_searchOrderCreatedAt := None |>
      <| en_searchOrderExpiresAt := None |>
      <| en_searchOrderExpiresAtNormalized := None |>.

(** [ethUpdateNFTOrderProperties], common/utils/nft.ts:87-96 *)
Definition ethUpdateNFTOrderProperties (nft : EthNFT) (order : EthOrder) : EthNFT :=
  match eo_status order with
  | status_open => ethAddNFTOrderProperties nft order
  | status_sold | status_cancelled => ethClearNFTOrderProperties nft
  | status_transferred => nft
  end.

(** [ethCancelActiveOrder], common/utils/nft.ts:116-129 *)
Definition ethCancelActiveOrder (order : EthOrder) (now : Z) : EthOrder :=
  match eo_status order with
  | status_open | status_transferred =>
      order <| eo_status := status_cancelled |> <| eo_updatedAt := now |>
  | _ => order
  end.

(** The order of a token follows it: it is suspended while its owner does not
    hold the token.
    [orderAfterTransfer], eth/handlers/nft.ts:162-179 *)
Definition orderAfterTransfer (nftId owner : string) (activeOrder : option string)
    : M EthWorld unit :=
  match activeOrder with
  | None => mret tt
  | Some orderId =>
      order ← eth_get e_orders orderId;
      match order with
      | None => mret tt
      | Some order =>
          let status := if decide (eo_owner order = owner)
                        then status_open else status_transferred in
          _ ← eth_mutate e_orders orderId (λ o, o <| eo_status := status |>);
          eth_mutate e_nfts nftId (λ nft, nft <| en_searchOrderStatus := Some status |>)
      end
  end.

(** ** Sales *)

(** [ethIsThirdPartySale], eth/modules/analytics.ts:23-31 *)
Definition ethIsThirdPartySale (buyer : string) : bool :=
  bool_decide (buyer ∈ ["0xea749fd6ba492dbc14c24fe8a3d08769229b896c";
                        "0xad6cea45f98444a922a2b4fe96b8c90f0862d2f4"]).

(** The parameters of [trackSale] that are not maps. *)
Record EthSaleArgs := mkEthSaleArgs {
  esa_type : SaleType;
  esa_buyer : string;
  esa_seller : string;
  esa_nftId : string;
  esa_price : Z;
  esa_feesCollectorCut : Z;
  esa_timestamp : Z;
  esa_txHash : string
}.

(** [ethSaleBuyer], eth/modules/analytics.ts:69-71 *)
Definition ethSaleBuyer `{Rpc} (block : Block) (buyer : string) (nft : EthNFT)
    : M EthWorld string :=
  if ethIsThirdPartySale buyer then
    match en_contractAddress nft, en_tokenId nft with
    | Some contractAddress, Some tokenId =>
        lift (rpc_ownerOf (blk_height block) contractAddress tokenId)
    | _, _ => throw (JsError "missing contract address")
    end
  else mret buyer.

(** [ethSaleItem], eth/modules/analytics.ts:77-86 *)
Definition ethSaleItem (nft : EthNFT) : M EthWorld (option ItemRef) :=
  match en_item nft, en_itemBlockchainId nft with
  | Some item, _ => mret (Some item)
  | None, Some itemBlockchainId =>
      item ← eth_get e_items
        (default "undefined" (en_contractAddress nft) +:+ "-" +:+ pretty itemBlockchainId);
      mret ((λ item, mkItemRef (it_id item) (it_blockchainId item)) <$> item)
  | None, None => mret None
  end.

(** The sale as it is before its token is looked up. *)
Definition bareSale (a : EthSaleArgs) (saleId : string) : EthSale := {|
  esl_id := saleId;
  esl_type := esa_type a;
  esl_buyer := None;
  esl_realBuyer := None;
  esl_operation := None;
  esl_seller := esa_seller a;
  esl_price := esa_price a;
  esl_nft := None;
  esl_searchTokenId := None;
  esl_searchContractAddress := None;
  esl_searchCategory := None;
  esl_item := None;
  esl_searchItemId := None;
  esl_timestamp := esa_timestamp a;
  esl_txHash := esa_txHash a;
  esl_network := ETHEREUM
|}.

(** [ethSaleOf], eth/modules/analytics.ts:62-97 *)
Definition ethSaleOf `{Rpc} (block : Block) (a : EthSaleArgs) (saleId : string)
    (found : option EthNFT) : M EthWorld EthSale :=
  match found with
  | None => mret (bareSale a saleId)
  | Some nft =>
      buyer ← ethSaleBuyer block (esa_buyer a) nft;
      item ← ethSaleItem nft;
      mret (bareSale a saleId
        <| esl_realBuyer := Some (esa_buyer a) |>
        <| esl_operation := Some (getOperation (esa_buyer a)) |>
        <| esl_buyer := Some buyer |>
        <| esl_nft := Some (en_id nft) |>
        <| esl_searchTokenId := en_tokenId nft |>
        <| esl_searchContractAddress := en_contractAddress nft |>
        <| esl_searchCategory := en_category nft |>
        <| esl_item := item |>
        <| esl_searchItemId := fmap (M := option) iref_blockchainId item |>)
  end.

(** [ethAnalyticsDay], eth/modules/analytics.ts:128-144, and
    [getOrCreateAnalyticsDayData] *)
Definition ethAnalyticsDay (timestamp : Z) (f : AnalyticsDayData → AnalyticsDayData)
    : M EthWorld unit :=
  found ← eth_get e_analytics (analyticsKey timestamp ETHEREUM);
  let day := f (default {|
    an_id := analyticsKey timestamp ETHEREUM;
    an_date := day_of timestamp * 86400;
    an_sales := 0;
    an_volume := 0;
    an_creatorsEarnings := 0;
    an_daoEarnings := 0;
    an_network := ETHEREUM
  |} found) in
  eth_set e_analytics (an_id day) day.

(** The assignments to an account that is created when it is not there. *)
Definition updateEthAccount (id : string) (f : Account → Account) : M EthWorld unit :=
  _ ← createOrLoadEthAccount id;
  eth_mutate e_accounts (accountKey id ETHEREUM) f.

(** [ethSettle], eth/modules/analytics.ts:99-126: the accounts, the token and the
    day of a sale. *)
Definition ethSettle (a : EthSaleArgs) (nft : option EthNFT) : M EthWorld unit :=
  _ ← updateEthAccount (esa_buyer a) (λ acc,
        acc <| acc_purchases ::= Z.succ |> <| acc_spent ::= Z.add (esa_price a) |>);
  _ ← updateEthAccount (esa_seller a) (λ acc,
        acc <| acc_sales ::= Z.succ |> <| acc_earned ::= Z.add (esa_price a) |>);
  _ ← match nft with
      | None => mret tt
      | Some nft =>
          _ ← eth_mutate e_nfts (esa_nftId a) (λ nft,
                nft <| en_soldAt := Some (esa_timestamp a) |>
                    <| en_sales ::= fmap Z.succ |>);
          volume ← require (en_volume nft);
          eth_mutate e_nfts (esa_nftId a) (λ nft,
            nft <| en_volume := Some (volume + esa_price a) |>
                <| en_updatedAt := Some (esa_timestamp a) |>)
      end;
  ethAnalyticsDay (esa_timestamp a) (λ day,
    day <| an_sales ::= Z.succ |>
        <| an_volume ::= Z.add (esa_price a) |>
        <| an_daoEarnings ::= Z.add (daoCut (esa_feesCollectorCut a) (esa_price a)) |>).

(** [ethTrackSale], eth/modules/analytics.ts:33-126 *)
Definition ethTrackSale `{Rpc} (block : Block) (a : EthSaleArgs) : M EthWorld unit :=
  if decide (esa_price a = 0) then mret tt else
  count ← ethBuildCountFromSale (esa_price a) (esa_feesCollectorCut a);
  _ ← eth_set e_counts (cnt_id count) count;
  nft ← eth_get e_nfts (esa_nftId a);
  let saleId := pretty (cnt_salesTotal count) +:+ "-" +:+ network_str ETHEREUM in
  sale ← ethSaleOf block a saleId nft;
  _ ← modify (set e_sales <[saleId := sale]>);
  ethSettle a nft.
End common.
