(* ===== verification/EthLand.v ===== *)
(** * Ethereum processor: LAND and estates

    Token identifiers of parcels and their coordinates, the distances of an
    estate to the plaza, and the handlers of the estate and LAND registries. *)

From S2P Require Import Prelude JsString Model Env State Common EthModel EthCommon.
Open Scope string_scope.
Open Scope list_scope.
Open Scope Z_scope.

(** ** Token identifiers of parcels *)

(** [clearLow], eth/modules/land.ts:3-5 *)
Definition clearLow : Z :=
  0xFFFFFFFFFFFFFFFFFFFFFFFFFFFFFFFF00000000000000000000000000000000.

(** [clearHigh], eth/modules/land.ts:6-8 *)
Definition clearHigh : Z :=
  0x00000000000000000000000000000000FFFFFFFFFFFFFFFFFFFFFFFFFFFFFFFF.

(** [expandNegative128BitCast], eth/modules/land.ts:16-23, as an exact integer:
    [Number] is exact on the values [decodeTokenId] lets through and keeps the
    others out of its bounds. *)
Definition expandNegative128BitCast (value : Z) : Z :=
  let bit128 := Z.shiftl 1 127 in
  let mask128 := bit128 - 1 in
  if decide (Z.land value bit128 ≠ 0) then Z.lor value (Z.lnot mask128) else value.

(** [unsafeDecodeTokenId], eth/modules/land.ts:10-14 *)
Definition unsafeDecodeTokenId (value : Z) : Z * Z :=
  (expandNegative128BitCast (Z.shiftr (Z.land value clearLow) 128),
   expandNegative128BitCast (Z.land value clearHigh)).

(** [decodeTokenId], eth/modules/land.ts:25-32 *)
Definition decodeTokenId (value : Z) : Res Coordinate :=
  let '(x, y) := unsafeDecodeTokenId value in
  if decide (-1000000 < x ∧ x < 1000000 ∧ -1000000 < y ∧ y < 1000000)
  then Ok (mkCoordinate x y)
  else Throw (JsError "The coordinates should be inside bounds").

(** [decodeTokenIdsToCoordinates], eth/modules/land.ts:34-43 *)
Fixpoint decodeTokenIdsToCoordinates (tokenIds : list Z) : Res (gmap Z Coordinate) :=
  match tokenIds with
  | [] => Ok ∅
  | tokenId :: tokenIds =>
      match decodeTokenId tokenId, decodeTokenIdsToCoordinates tokenIds with
      | Ok coords, Ok map => Ok (<[tokenId := coords]> map)
      | Throw e, _ | _, Throw e => Throw e
      end
  end.

(** ** Parcels and estates *)

(** [buildParcelFromNFT], eth/LANDs/utils.ts:19-27 *)
Definition buildParcelFromNFT (nft : EthNFT) (coordinates : Coordinate) : Parcel :=
  newParcel (en_id nft)
    <| pc_x := Some (co_0 coordinates) |>
    <| pc_y := Some (co_1 coordinates) |>
    <| pc_tokenId := en_tokenId nft |>
    <| pc_owner := en_owner nft |>.

(** [buildEstateFromNFT], eth/LANDs/utils.ts:29-39 *)
Definition buildEstateFromNFT (nft : EthNFT) : Estate :=
  newEstate (en_id nft)
    <| es_tokenId := en_tokenId nft |>
    <| es_owner := en_owner nft |>
    <| es_size := Some 0 |>
    <| es_parcelDistances := Some [] |>
    <| es_adjacentToRoadCount := Some 0 |>.

(** [getEstateImage], eth/LANDs/utils.ts:41-47; [None] where reading a property
    of [undefined] raises, here and below. *)
Definition getEstateImage (estate : Estate) : option string :=
  tokenId ← es_tokenId estate;
  Some ("https://api.decentraland.org/v1/estates/" +:+ pretty (tokenId : Z) +:+ "/map.png").

(** [getParcelText], eth/LANDs/utils.ts:49-55 *)
Definition getParcelText (parcel : Parcel) (name : string) : option string :=
  x ← pc_x parcel;
  y ← pc_y parcel;
  let text := pretty (x : Z) +:+ "," +:+ pretty (y : Z) in
  Some (if decide (name ≠ "") then text +:+ "," +:+ toLowerCase name else text).

(** [getParcelImage], eth/LANDs/utils.ts:57-65 *)
Definition getParcelImage (parcel : Parcel) : option string :=
  x ← pc_x parcel;
  y ← pc_y parcel;
  Some ("https://api.decentraland.org/v1/parcels/" +:+ pretty (x : Z) +:+ "/" +:+ pretty (y : Z)
        +:+ "/map.png").

(** The table of [eth/data/lands/proximities.ts]: by coordinates, whether the
    parcel is next to a road and its distance to the plaza. *)
Class Proximities := proximities : gmap string (bool * Z).

(** [isInBounds], eth/LANDs/utils.ts:85-91 *)
Definition isInBounds (x y : Z) : bool :=
  bool_decide (-150 ≤ x ∧ x ≤ 150 ∧ -150 ≤ y ∧ y ≤ 150).

(** A stable numeric sort in place, [sort((a, b) => a - b)]. *)
Fixpoint insert_sorted (x : Z) (l : list Z) : list Z :=
  match l with
  | [] => [x]
  | y :: l => if decide (x ≤ y) then x :: y :: l else y :: insert_sorted x l
  end.

Definition sort_numbers (l : list Z) : list Z := foldr insert_sorted [] l.

Section land.
Context `{Env, Proximities}.

(** [getDistanceToPlaza], eth/LANDs/utils.ts:67-74 *)
Definition getDistanceToPlaza (parcel : Parcel) : option Z :=
  coord ← getParcelText parcel "";
  Some (match proximities !! coord with Some (_, p) => p | None => -1 end).

(** [getAdjacentToRoad], eth/LANDs/utils.ts:76-83 *)
Definition getAdjacentToRoad (parcel : Parcel) : option bool :=
  coord ← getParcelText parcel "";
  Some (match proximities !! coord with Some (r, _) => r | None => false end).

(** [getParcelDistances], eth/handlers/estate.ts:296-314 *)
Definition getParcelDistances (parcel : Parcel) (parcelDistances : option (list Z))
    : option (list Z) :=
  let newDistances := default [] parcelDistances in
  distance ← getDistanceToPlaza parcel;
  Some (if decide (distance = -1) then newDistances
        else sort_numbers (newDistances ++ [distance])).

(** [shouldRecalculateMinDistance], eth/handlers/estate.ts:316-338, of a parcel
    and an estate that exist *)
Definition shouldRecalculateMinDistance (deletedParcel : Parcel) (estate : Estate)
    : option bool :=
  match es_parcelDistances estate with
  | None | Some [] => Some false
  | Some (min :: _) =>
      distance ← getDistanceToPlaza deletedParcel;
      Some (bool_decide (distance ≠ -1 ∧ min = distance))
  end.

(** ** Handlers of the estate registry *)

Definition estateIdOf (estateId : Z) : string :=
  getNFTId (ea_EstateRegistry getEthAddresses) (pretty estateId) (Some "estate").

Definition parcelIdOf (landId : Z) : string :=
  getNFTId (ea_LANDRegistry getEthAddresses) (pretty landId) (Some "parcel").

Definition networkNFT (id : string) : EthNFT := newEthNFT id <| en_network := Some ETHEREUM |>.

(** The name columns of a token whose data was parsed. *)
Definition nameNFT (data : Data) (nft : EthNFT) : EthNFT :=
  nft <| en_name := dat_name data |>
      <| en_searchText := toLowerCase <$> dat_name data |>.

(** [handleCreateEstate], eth/handlers/estate.ts:30-83 *)
Definition handleCreateEstate (block : Block) (e : CreateEstateEventArgs) : M EthWorld unit :=
  let id := estateIdOf (ce_estateId e) in
  owner ← eth_get e_accounts (accountKey (ce_owner e) ETHEREUM);
  let estate := newEstate id
    <| es_tokenId := Some (ce_estateId e) |>
    <| es_owner := account_ref <$> owner |>
    <| es_rawData := Some (ce_data e) |>
    <| es_parcelDistances := Some [] |>
    <| es_size := Some 0 |>
    <| es_adjacentToRoadCount := Some 0 |> in
  estate ← match buildData id (ce_data e) with
    | None => mret estate
    | Some data =>
        _ ← eth_set e_datas (dat_id data) data;
        found ← eth_get e_nfts id;
        _ ← eth_mutate e_nfts id (nameNFT data);
        timestamp ← block_seconds block;
        _ ← eth_set e_nfts id (nameNFT data (default (networkNFT id) found)
              <| en_createdAt := Some timestamp |>
              <| en_updatedAt := Some timestamp |>
              <| en_searchDistanceToPlaza := Some (-1) |>
              <| en_searchAdjacentToRoad := Some false |>
              <| en_soldAt := None |>
              <| en_sales := Some 0 |>
              <| en_volume := Some 0 |>);
        mret (estate <| es_data := Some (dat_id data) |>)
    end;
  _ ← eth_set e_estates id estate;
  _ ← createOrLoadEthAccount (ce_owner e);
  mret tt.

(** The parcel under [parcelId], or one made from its coordinates that is in no
    map. *)
Definition parcelOrNew (parcelId : string) (landId : Z) (found : option Parcel)
    (coords : option Coordinate) : Parcel :=
  match found with
  | Some parcel => parcel
  | None => newParcel parcelId
      <| pc_x := co_0 <$> coords |>
      <| pc_y := co_1 <$> coords |>
      <| pc_tokenId := Some landId |>
  end.

(** The size of an estate, changed by [f] and shown by its token.
    [resizeEstate], eth/handlers/estate.ts:101-117 *)
Definition resizeEstate (id : string) (f : option Z → option Z)
    : M EthWorld (option Estate * option EthNFT) :=
  _ ← eth_mutate e_estates id (λ es, es <| es_size ::= f |>);
  estate ← eth_get e_estates id;
  estateNFT ← eth_get e_nfts id;
  _ ← match estate with
      | Some estate =>
          eth_mutate e_nfts id (λ nft, nft <| en_searchEstateSize := es_size estate |>)
      | None => mret tt
      end;
  mret (estate, estateNFT).

(** [addDistance], eth/handlers/estate.ts:146-163 *)
Definition addDistance (id : string) (parcel : Parcel) (estate : Estate) : M EthWorld unit :=
  distances ← require (getParcelDistances parcel (es_parcelDistances estate));
  _ ← eth_mutate e_estates id (λ es, es <| es_parcelDistances := Some distances |>);
  adjacentToRoad ← require (getAdjacentToRoad parcel);
  _ ← when adjacentToRoad (eth_mutate e_estates id (λ es,
        es <| es_adjacentToRoadCount ::= fmap Z.succ |>));
  eth_mutate e_nfts id (λ nft,
    nft <| en_searchDistanceToPlaza := Some (default (-1) (head distances)) |>
        <| en_searchAdjacentToRoad ::= (λ r, Some (default false r || adjacentToRoad)) |>).

(** [handleAddLand], eth/handlers/estate.ts:85-164 *)
Definition handleAddLand (e : AddLandEventArgs) (coordinates : gmap Z Coordinate)
    : M EthWorld unit :=
  let id := estateIdOf (al_estateId e) in
  let parcelId := parcelIdOf (al_landId e) in
  '(estate, estateNFT) ← resizeEstate id (fmap Z.succ);
  found ← eth_get e_parcels parcelId;
  let parcel := parcelOrNew parcelId (al_landId e) found (coordinates !! al_landId e) in
  registry ← createOrLoadEthAccount (ea_EstateRegistry getEthAddresses);
  _ ← eth_mutate e_parcels parcelId (λ pc,
        pc <| pc_owner := Some (account_ref registry) |> <| pc_estate := es_id <$> estate |>);
  _ ← eth_mutate e_nfts parcelId (λ nft,
        nft <| en_searchParcelEstateId := Some id |>
            <| en_owner := Some (account_ref registry) |>
            <| en_ownerAddress := Some (acc_address registry) |>);
  match estateNFT, estate with
  | Some _, Some estate => addDistance id parcel estate
  | _, _ => mret tt
  end.

(** [distances[0] || -1] *)
Definition minDistance (distances : list Z) : Z :=
  match distances with
  | [] => -1
  | d :: _ => if decide (d = 0) then -1 else d
  end.

(** [removeDistance], eth/handlers/estate.ts:233-251 *)
Definition removeDistance (id : string) (parcel : Parcel) (estate : Estate) : M EthWorld unit :=
  recalculate ← require (shouldRecalculateMinDistance parcel estate);
  _ ← when recalculate
    (let distances := tail (default [] (es_parcelDistances estate)) in
     _ ← eth_mutate e_estates id (λ es, es <| es_parcelDistances := Some distances |>);
     eth_mutate e_nfts id (λ nft,
       nft <| en_searchDistanceToPlaza := Some (minDistance distances) |>));
  adjacentToRoad ← require (getAdjacentToRoad parcel);
  when (adjacentToRoad && truthy_bigint (es_adjacentToRoadCount estate))
    (let count := default 0 (es_adjacentToRoadCount estate) - 1 in
     _ ← eth_mutate e_estates id (λ es, es <| es_adjacentToRoadCount := Some count |>);
     eth_mutate e_nfts id (λ nft,
       nft <| en_searchAdjacentToRoad := Some (bool_decide (0 < count)) |>)).

(** [handleRemoveLand], eth/handlers/estate.ts:166-252 *)
Definition handleRemoveLand (e : RemoveLandEventArgs) (coordinates : gmap Z Coordinate)
    : M EthWorld unit :=
  let id := estateIdOf (rl_estateId e) in
  let parcelId := parcelIdOf (rl_landId e) in
  '(estate, estateNFT) ←
    resizeEstate id (λ size, if truthy_bigint size then Z.pred <$> size else size);
  found ← eth_get e_parcels parcelId;
  let parcel := parcelOrNew parcelId (rl_landId e) found (coordinates !! rl_landId e) in
  owner ← eth_get e_accounts (accountKey (rl_destinatary e) ETHEREUM);
  _ ← eth_mutate e_parcels parcelId (λ pc,
        (match owner with
         | Some owner => pc <| pc_owner := Some (account_ref owner) |>
         | None => pc
         end) <| pc_estate := None |>);
  parcelNFT ← eth_get e_nfts parcelId;
  _ ← match owner with
      | None => mret tt
      | Some owner =>
          eth_set e_nfts parcelId (default (networkNFT parcelId) parcelNFT
            <| en_network := Some ETHEREUM |>
            <| en_searchParcelEstateId := None |>
            <| en_owner := Some (account_ref owner) |>
            <| en_ownerAddress := Some (acc_address owner) |>)
      end;
  match estateNFT, estate with
  | Some _, Some estate => removeDistance id parcel estate
  | _, _ => mret tt
  end.

(** [handleEstateUpdate], eth/handlers/estate.ts:254-294 *)
Definition handleEstateUpdate (e : UpdateEventArgs) (block : Block) : M EthWorld unit :=
  let id := estateIdOf (up_assetId e) in
  found ← eth_get e_estates id;
  _ ← eth_mutate e_estates id (λ es, es <| es_rawData := Some (up_data e) |>);
  let estate := default (newEstate id) found <| es_rawData := Some (up_data e) |> in
  estate ← match buildData id (up_data e) with
    | None => mret estate
    | Some data =>
        _ ← eth_set e_datas (dat_id data) data;
        found ← eth_get e_nfts id;
        _ ← eth_mutate e_nfts id (nameNFT data);
        timestamp ← block_seconds block;
        _ ← eth_set e_nfts id (nameNFT data (default (networkNFT id) found)
              <| en_updatedAt := Some timestamp |>);
        mret (estate <| es_data := Some (dat_id data) |>)
    end;
  eth_set e_estates id estate.

(** ** Handler of the LAND registry *)

(** [handleLandUpdate], eth/handlers/parcel.ts:17-63 *)
Definition handleLandUpdate (e : UpdateEventArgs) (block : Block)
    (coordinates : gmap Z Coordinate) : M EthWorld unit :=
  let id := parcelIdOf (up_assetId e) in
  found ← eth_get e_parcels id;
  let parcel := default (newParcel id) found <| pc_rawData := Some (up_data e) |> in
  _ ← eth_set e_parcels id parcel;
  match buildData id (up_data e) with
  | None => mret tt
  | Some data =>
      _ ← eth_set e_datas (dat_id data) data;
      let parcel := parcel <| pc_data := Some (dat_id data) |> in
      let parcel := match coordinates !! up_assetId e with
                    | Some coords => parcel <| pc_x := Some (co_0 coords) |>
                                            <| pc_y := Some (co_1 coords) |>
                    | None => parcel
                    end in
      _ ← eth_set e_parcels id parcel;
      found ← eth_get e_nfts id;
      _ ← eth_set e_nfts id (default (networkNFT id) found <| en_name := dat_name data |>);
      _ ← match dat_name data with
          | None | Some EmptyString => mret tt
          | Some name =>
              text ← require (getParcelText parcel name);
              eth_mutate e_nfts id (λ nft, nft <| en_searchText := Some text |>)
          end;
      timestamp ← block_seconds block;
      eth_mutate e_nfts id (λ nft, nft <| en_updatedAt := Some timestamp |>)
  end.
End land.
