(* ===== verification/EthToken.v ===== *)
(** * Ethereum processor: tokens

    The first wearables, found by the name in their token URI
    ([eth/modules/wearable.ts]), the handlers of transfers of every kind of
    token and of new wearables ([eth/handlers/nft.ts]), and names
    ([eth/handlers/ens.ts]). *)

From S2P Require Import Prelude JsString Model Env State Common Metadata EthWearables.
From S2P Require Import EthModel EthCommon EthLand.
Open Scope string_scope.
Open Scope list_scope.
Open Scope Z_scope.

(** ** Wearables *)

(** The collections [buildWearableFromNFT] searches, with their names.
    [namedCollections], eth/modules/wearable.ts:78-164 *)
Definition namedCollections : list (string * list Representation) := [
  ("atari_launch", atari_launch);
  ("binance_us_collection", binance_us_collection);
  ("china_flying", china_flying);
  ("community_contest", community_contest);
  ("cybermike_cybersoldier_set", cybermike_cybersoldier_set);
  ("cz_mercenary_mtz", cz_mercenary_mtz);
  ("dappcraft_moonminer", dappcraft_moonminer);
  ("dc_meta", dc_meta);
  ("dc_niftyblocksmith", dc_niftyblocksmith);
  ("dcg_collection", dcg_collection);
  ("dcl_launch", dcl_launch);
  ("dg_atari_dillon_francis", dg_atari_dillon_francis);
  ("dg_fall_2020", dg_fall_2020);
  ("dg_summer_2020", dg_summer_2020);
  ("dgtble_headspace", dgtble_headspace);
  ("digital_alchemy", digital_alchemy);
  ("ethermon_wearables", ethermon_wearables);
  ("exclusive_masks", exclusive_masks);
  ("halloween_2019", halloween_2019);
  ("halloween_2020", halloween_2020);
  ("mch_collection", mch_collection);
  ("meme_dontbuythis", meme_dontbuythis);
  ("mf_sammichgamer", mf_sammichgamer);
  ("ml_liondance", ml_liondance);
  ("ml_pekingopera", ml_pekingopera);
  ("moonshot_2020", moonshot_2020);
  ("pm_dreamverse_eminence", pm_dreamverse_eminence);
  ("pm_outtathisworld", pm_outtathisworld);
  ("rac_basics", rac_basics);
  ("release_the_kraken", release_the_kraken);
  ("rtfkt_x_atari", rtfkt_x_atari);
  ("stay_safe", stay_safe);
  ("sugarclub_yumi", sugarclub_yumi);
  ("tech_tribal_marc0matic", tech_tribal_marc0matic);
  ("3lau_basics", threelau_basics);
  ("winklevoss_capital", winklevoss_capital);
  ("wonderzone_meteorchaser", wonderzone_meteorchaser);
  ("wonderzone_steampunk", wonderzone_steampunk);
  ("wz_wonderbot", wz_wonderbot);
  ("xmas_2019", xmas_2019);
  ("xmas_2020", xmas_2020);
  ("xmash_up_2020", xmash_up_2020)
].

(** The collections [getWearableV1Representation] searches.
    [representationCollections], eth/modules/wearable.ts:244-288 *)
Definition representationCollections : list (list Representation) := [
  binance_us_collection; china_flying; community_contest; cybermike_cybersoldier_set;
  cz_mercenary_mtz; dappcraft_moonminer; dc_meta; dc_niftyblocksmith; dcg_collection;
  dcl_launch; dg_fall_2020; dg_summer_2020; dgtble_headspace; digital_alchemy;
  ethermon_wearables; exclusive_masks; halloween_2019; mch_collection; mf_sammichgamer;
  ml_pekingopera; moonshot_2020; pm_dreamverse_eminence; pm_outtathisworld; stay_safe;
  sugarclub_yumi; tech_tribal_marc0matic; wonderzone_meteorchaser; wonderzone_steampunk;
  wz_wonderbot; xmas_2019; halloween_2020; xmas_2020; xmash_up_2020; release_the_kraken;
  threelau_basics; meme_dontbuythis; ml_liondance; atari_launch; rtfkt_x_atari; rac_basics;
  winklevoss_capital; dg_atari_dillon_francis; wearable_test
].

(** A wearable with the columns of a representation. *)
Definition wearableOf (r : Representation) : EthWearable :=
  newEthWearable (re_id r)
    <| ew_representationId := Some (re_id r) |>
    <| ew_name := Some (re_name r) |>
    <| ew_description := Some (re_description r) |>
    <| ew_category := Some (re_category r) |>
    <| ew_rarity := Some (re_rarity r) |>
    <| ew_bodyShapes := Some (re_bodyShapes r) |>
    <| ew_network := Some ETHEREUM |>.

(** [findWearable], eth/modules/wearable.ts:204-221 *)
Fixpoint findWearable (id : string) (collection : list Representation) : EthWearable :=
  match collection with
  | [] => newEthWearable ""
  | representation :: collection =>
      if decide (id = re_id representation) then wearableOf representation
      else findWearable id collection
  end.

(** [getWearableIdFromTokenURI], eth/modules/wearable.ts:223-235 *)
Definition getWearableIdFromTokenURI (tokenURI : string) : string :=
  let splitted := split slash tokenURI in
  if decide (length splitted = 11 ∨ length splitted = 5)%nat
  then default "" (splitted !! (length splitted - 2)%nat) else "".

(** [getIssuedIdFromTokenURI], eth/modules/wearable.ts:337-349; [None] is
    [NaN]. *)
Definition getIssuedIdFromTokenURI (tokenURI : string) : option Z :=
  let splitted := split slash tokenURI in
  if decide (length splitted = 11 ∨ length splitted = 5)%nat
  then (splitted !! (length splitted - 1)%nat) ≫= parseInt else Some 0.

(** The loop of [buildWearableFromNFT].
    [searchCollections], eth/modules/wearable.ts:166-175 *)
Fixpoint searchCollections (wearableId : string) (nft : EthNFT)
    (collections : list (string * list Representation)) : EthWearable :=
  match collections with
  | [] => newEthWearable ""
  | (name, collection) :: collections =>
      let wearable := findWearable wearableId collection in
      if decide (ew_id wearable = wearableId) then
        wearable <| ew_id := en_id nft |> <| ew_collection := Some name |>
                 <| ew_owner := en_owner nft |>
      else searchCollections wearableId nft collections
  end.

(** [buildWearableFromNFT], eth/modules/wearable.ts:63-181 *)
Definition buildWearableFromNFT (nft : EthNFT) : EthWearable :=
  match en_tokenURI nft with
  | None | Some EmptyString => searchCollections "" nft namedCollections
  | Some tokenURI =>
      let wearableId := getWearableIdFromTokenURI tokenURI in
      if decide (wearableId = "") then newEthWearable ""
      else searchCollections wearableId nft namedCollections
  end.

(** The loop of [getWearableV1Representation].
    [searchRepresentations], eth/modules/wearable.ts:290-295 *)
Fixpoint searchRepresentations (wearableId : string)
    (collections : list (list Representation)) : option EthWearable :=
  match collections with
  | [] => None
  | collection :: collections =>
      let wearable := findWearable wearableId collection in
      if decide (ew_id wearable = wearableId) then Some wearable
      else searchRepresentations wearableId collections
  end.

(** [getWearableV1Representation], eth/modules/wearable.ts:237-298 *)
Definition getWearableV1Representation (wearableId : string) : option EthWearable :=
  if decide (wearableId = "") then None
  else searchRepresentations wearableId representationCollections.

Section token.
Context `{Env}.

(** [getWearableURN], eth/modules/wearable.ts:193-202 *)
Definition getWearableURN (wearable : EthWearable) : string :=
  "urn:decentraland:" +:+ getNetwork DCL_ETHEREUM +:+ ":collections-v1:"
    +:+ default "undefined" (ew_collection wearable) +:+ ":"
    +:+ default "undefined" (ew_representationId wearable).

(** [getWearableImage], eth/modules/wearable.ts:183-191 *)
Definition getWearableImage (wearable : EthWearable) : string :=
  getCatalystBase (default ETHEREUM_MAINNET ETHEREUM_CHAIN_ID)
    +:+ "/lambdas/collections/contents/" +:+ getWearableURN wearable +:+ "/thumbnail".

(** [buildWearableV1], eth/modules/wearable.ts:300-315 *)
Definition buildWearableV1 (collection : string) (representation : EthWearable) : EthWearable :=
  newEthWearable (ew_id representation)
    <| ew_collection := Some collection |>
    <| ew_name := ew_name representation |>
    <| ew_description := ew_description representation |>
    <| ew_rarity := ew_rarity representation |>
    <| ew_category := ew_category representation |>
    <| ew_bodyShapes := ew_bodyShapes representation |>
    <| ew_network := Some ETHEREUM |>.

(** [buildWearableV1Metadata], eth/modules/wearable.ts:317-335 *)
Definition buildWearableV1Metadata (collection : string) (representation : EthWearable)
    : M EthWorld EthMetadata :=
  let wearable := buildWearableV1 collection representation in
  let metadata := {|
    emd_id := ew_id representation;
    emd_itemType := item_wearable_v1;
    emd_wearable := Some wearable
  |} in
  _ ← eth_set e_wearables (ew_id wearable) wearable;
  _ ← eth_set e_metadatas (emd_id metadata) metadata;
  mret metadata.

(** [ethSetItemSearchFields], polygon/modules/metadata/wearable/index.ts:152-182,
    for an item of type [wearable_v1] *)
Definition ethSetItemSearchFields (item : Item) : M EthWorld Item :=
  match it_metadata item with
  | None => mret item
  | Some metadataId =>
      metadata ← eth_get e_metadatas metadataId;
      match metadata ≫= emd_wearable with
      | None => mret item
      | Some w =>
          wearable ← eth_get e_wearables (ew_id w);
          let item := match wearable with
            | None => item
            | Some wearable =>
                let category := default "" (ew_category wearable) in
                item <| it_searchText := Some (toLowerCase
                          (default "undefined" (ew_name wearable) +:+ " "
                           +:+ default "undefined" (ew_description wearable))) |>
                     <| it_searchIsWearableHead := Some (isWearableHead category) |>
                     <| it_searchIsWearableAccessory := Some (isWearableAccessory category) |>
                     <| it_searchWearableCategory := ew_category wearable |>
                     <| it_searchWearableBodyShapes := ew_bodyShapes wearable |>
                     <| it_searchWearableRarity := ew_rarity wearable |>
            end in
          mret (item <| it_searchItemType := Some (it_itemType item) |>)
      end
  end.

(** [ethSetNFTSearchFields], polygon/modules/metadata/wearable/index.ts:184-207,
    behind the test of the type of the token; no metadata of this processor
    holds an emote *)
Definition ethSetNFTSearchFields (nft : EthNFT) : M EthWorld EthNFT :=
  match en_itemType nft, en_metadata nft with
  | Some (item_wearable_v2 | item_wearable_v1 | item_smart_wearable_v1), Some metadataId =>
      metadata ← eth_get e_metadatas metadataId;
      match metadata ≫= emd_wearable with
      | None => mret nft
      | Some wearable =>
          let category := default "" (ew_category wearable) in
          mret (nft
            <| en_searchText := Some (default "undefined" (ew_name wearable) +:+ " "
                                      +:+ default "undefined" (ew_description wearable)) |>
            <| en_searchItemType := en_itemType nft |>
            <| en_searchIsWearableHead := Some (isWearableHead category) |>
            <| en_searchIsWearableAccessory := Some (isWearableAccessory category) |>
            <| en_searchWearableCategory := ew_category wearable |>
            <| en_searchWearableBodyShapes := ew_bodyShapes wearable |>
            <| en_searchWearableRarity := ew_rarity wearable |>)
      end
  | _, _ => mret nft
  end.

(** ** Transfers *)

(** Assigning to properties of a token that may be in the map already: its
    object, and the entry that holds it. *)
Definition assignNFT (id : string) (f : EthNFT → EthNFT) (nft : EthNFT) : M EthWorld EthNFT :=
  _ ← eth_mutate e_nfts id f;
  mret (f nft).

(** [`${contractAddress}-${tokenId}`] *)
Definition tokenURIKey (contractAddress : string) (tokenId : Z) : string :=
  contractAddress +:+ "-" +:+ pretty tokenId.

(** [truthy_string], JavaScript's test of a string that may be undefined. *)
Definition truthy_string (s : option string) : bool :=
  match s with None | Some EmptyString => false | _ => true end.

(** [transferTokenURI], eth/handlers/nft.ts:128-143: the token URI after a
    transfer; the registries have no [tokenURI] method. *)
Definition transferTokenURI (contractAddress : string) (tokenId : Z)
    (tokenURIs : gmap string string) (tokenURI : option string) : option string :=
  let addresses := getEthAddresses in
  if decide (contractAddress = ea_LANDRegistry addresses) then None
  else if decide (contractAddress = ea_EstateRegistry addresses
                  ∨ contractAddress = ea_DCLRegistrar addresses) then Some ""
  else if truthy_string tokenURI then tokenURI
  else tokenURIs !! tokenURIKey contractAddress tokenId.

(** The columns every mint starts with.
    [mintDefaults], eth/handlers/nft.ts:146-154 *)
Definition mintDefaults (timestamp : Z) (nft : EthNFT) : EthNFT :=
  nft <| en_createdAt := Some timestamp |>
      <| en_searchEstateSize := Some 1 |>
      <| en_searchParcelIsInBounds := Some true |>
      <| en_searchText := Some "" |>
      <| en_searchIsLand := Some false |>.

(** [transferParcel], eth/handlers/nft.ts:183-202 *)
Definition transferParcel `{Proximities} (id : string) (mint : bool) (nft : EthNFT)
    (coords : option Coordinate) : M EthWorld unit :=
  parcel ← eth_get e_parcels id;
  if mint then
    match coords with
    | None => mret tt
    | Some coords =>
        let parcel := buildParcelFromNFT nft coords in
        image ← require (getParcelImage parcel);
        distance ← require (getDistanceToPlaza parcel);
        adjacent ← require (getAdjacentToRoad parcel);
        text ← require (getParcelText parcel "");
        _ ← eth_mutate e_nfts id (λ nft, nft
              <| en_parcel := Some (pc_id parcel) |>
              <| en_image := Some image |>
              <| en_searchIsLand := Some true |>
              <| en_searchParcelIsInBounds := Some (isInBounds (co_0 coords) (co_1 coords)) |>
              <| en_searchParcelX := pc_x parcel |>
              <| en_searchParcelY := pc_y parcel |>
              <| en_searchDistanceToPlaza := Some distance |>
              <| en_searchAdjacentToRoad := Some adjacent |>
              <| en_searchText := Some text |>);
        eth_set e_parcels id parcel
    end
  else eth_mutate e_parcels id (λ pc, pc <| pc_owner := en_owner nft |>).

(** [transferEstate], eth/handlers/nft.ts:203-224 *)
Definition transferEstate (id : string) (mint : bool) (nft : EthNFT) : M EthWorld unit :=
  if mint then
    let estate := buildEstateFromNFT nft in
    image ← require (getEstateImage estate);
    _ ← eth_mutate e_nfts id (λ nft, nft
          <| en_estate := Some (es_id estate) |>
          <| en_image := Some image |>
          <| en_searchIsLand := Some true |>
          <| en_searchDistanceToPlaza := Some (-1) |>
          <| en_searchAdjacentToRoad := Some false |>
          <| en_searchEstateSize := es_size estate |>);
    eth_set e_estates id estate
  else eth_mutate e_estates id (λ es, es <| es_owner := en_owner nft |>).

(** [transferWearable], eth/handlers/nft.ts:225-254 *)
Definition transferWearable (id : string) (mint : bool) (nft : EthNFT) : M EthWorld unit :=
  if mint then
    let wearable := buildWearableFromNFT nft <| ew_network := Some ETHEREUM |> in
    _ ← when (bool_decide (ew_id wearable ≠ "")) (
          let category := default "" (ew_category wearable) in
          _ ← eth_mutate e_nfts id (λ nft, nft
                <| en_wearable := Some (ew_id wearable) |>
                <| en_name := ew_name wearable |>
                <| en_image := Some (getWearableImage wearable) |>
                <| en_searchIsWearableHead := Some (isWearableHead category) |>
                <| en_searchIsWearableAccessory := Some (isWearableAccessory category) |>
                <| en_searchWearableCategory := ew_category wearable |>
                <| en_searchWearableBodyShapes := ew_bodyShapes wearable |>
                <| en_searchWearableRarity := ew_rarity wearable |>);
          name ← require (ew_name wearable);
          eth_mutate e_nfts id (λ nft, nft <| en_searchText := Some (toLowerCase name) |>));
    eth_set e_wearables id wearable
  else eth_mutate e_wearables id (λ w, w <| ew_owner := en_owner nft |>).

(** [buildENSFromNFT], eth/modules/ens.ts:3-10 *)
Definition buildENSFromNFT (nft : EthNFT) : ENS :=
  newENS (en_id nft)
    <| ens_tokenId := en_tokenId nft |>
    <| ens_owner := en_owner nft |>.

(** [transferENS], eth/handlers/nft.ts:255-271 *)
Definition transferENS (id : string) (mint : bool) (nft : EthNFT) : M EthWorld unit :=
  if mint then
    _ ← eth_mutate e_nfts id (λ nft, nft <| en_ens := Some (en_id nft) |>);
    eth_set e_ens id (buildENSFromNFT nft)
  else eth_mutate e_ens id (λ ens, ens <| ens_owner := en_owner nft |>).

(** The columns every transfer assigns.
    [transferColumns], eth/handlers/nft.ts:117-143 *)
Definition transferColumns (contractAddress : string) (e : TransferEventArgs)
    (toAccount : Account) (timestamp : Z) (tokenURIs : gmap string string)
    (nft : EthNFT) : EthNFT :=
  nft <| en_tokenId := Some (te_tokenId e) |>
      <| en_owner := Some (account_ref toAccount) |>
      <| en_ownerAddress := Some (te_to e) |>
      <| en_contractAddress := Some contractAddress |>
      <| en_category := Some (getCategory contractAddress) |>
      <| en_updatedAt := Some timestamp |>
      <| en_soldAt := None |>
      <| en_transferredAt := Some timestamp |>
      <| en_sales := Some 0 |>
      <| en_volume := Some 0 |>
      <| en_tokenURI ::= transferTokenURI contractAddress (te_tokenId e) tokenURIs |>.

(** [ethHandleTransfer], eth/handlers/nft.ts:76-276 *)
Definition ethHandleTransfer `{Proximities} (block : Block) (contractAddress : string)
    (e : TransferEventArgs) (tokenURIs : gmap string string)
    (coordinates : gmap Z Coordinate) : M EthWorld unit :=
  let category := getCategory contractAddress in
  let id := getNFTId contractAddress (pretty (te_tokenId e)) (Some category) in
  let mint := isMint (te_from e) in
  found ← eth_get e_nfts id;
  let nft := default (networkNFT id) found in
  _ ← eth_set e_nfts id nft;
  toAccount ← createOrLoadEthAccount (te_to e);
  timestamp ← block_seconds block;
  nft ← assignNFT id (transferColumns contractAddress e toAccount timestamp tokenURIs) nft;
  nft ← (if mint then
           nft ← assignNFT id (mintDefaults timestamp) nft;
           metric ← ethBuildCountFromNFT category;
           _ ← eth_set e_counts (cnt_id metric) metric;
           mret nft
         else
           _ ← orderAfterTransfer id (acc_address toAccount) (en_activeOrder nft);
           mret nft);
  _ ← (if decide (category = "parcel") then
         transferParcel id mint nft (coordinates !! te_tokenId e)
       else if decide (category = "estate") then transferEstate id mint nft
       else if decide (category = "wearable") then transferWearable id mint nft
       else if decide (category = "ens") then transferENS id mint nft
       else mret tt);
  _ ← createOrLoadEthAccount (te_to e);
  mret tt.

(** ** Items of the first wearables *)

(** [newCollectionV1], eth/handlers/nft.ts:301-334 *)
Definition newCollectionV1 (block : EthBlock) (collectionAddress owner name symbol baseURI : string)
    (timestamp : Z) : Collection :=
  let collection := {|
    col_id := collectionAddress;
    col_owner := owner;
    col_creator := owner;
    col_name := name;
    col_symbol := symbol;
    col_isCompleted := Some true;
    col_isApproved := Some true;
    col_isEditable := None;
    col_minters := [];
    col_managers := [];
    col_urn := "";
    col_itemsCount := 0;
    col_createdAt := timestamp;
    col_updatedAt := timestamp;
    col_reviewedAt := timestamp;
    col_firstListedAt := None;
    col_searchIsStoreMinter := false;
    col_searchIsMarketplaceV3Minter := false;
    col_searchText := toLowerCase name;
    col_baseURI := baseURI;
    col_chainId := default 1 ETHEREUM_CHAIN_ID;
    col_usedCredits := false;
    col_creditValue := Some 0;
    col_txHash := ebk_hash block;
    col_network := ETHEREUM
  |} in
  collection <| col_urn := getURNForCollectionV1 collection DCL_ETHEREUM |>.

(** [newItemV1], eth/handlers/nft.ts:347-379: the item before its metadata.  Its
    type is assigned with the metadata. *)
Definition newItemV1 (collection : Collection) (collectionAddress owner : string)
    (e : AddWearableEventArgs) (baseURI : string) (representation : EthWearable)
    (timestamp : Z) : Item :=
  let item := {|
    it_id := getItemId collectionAddress (aw_wearableId e);
    it_collection := Some (col_id collection);
    it_blockchainId := col_itemsCount collection;
    it_creator := owner;
    it_itemType := item_undefined;
    it_totalSupply := 0;
    it_maxSupply := aw_maxIssuance e;
    it_rarity := default "undefined" (ew_rarity representation);
    it_creationFee := 0;
    it_available := aw_maxIssuance e;
    it_price := 0;
    it_beneficiary := ZERO_ADDRESS;
    it_contentHash := None;
    it_uri := baseURI +:+ aw_wearableId e;
    it_image := None;
    it_minters := [];
    it_managers := [];
    it_metadata := None;
    it_rawMetadata := "";
    it_urn := getURNForWearableV1 collection (ew_id representation) DCL_ETHEREUM;
    it_createdAt := timestamp;
    it_updatedAt := timestamp;
    it_reviewedAt := timestamp;
    it_soldAt := None;
    it_firstListedAt := None;
    it_sales := 0;
    it_volume := 0;
    it_searchText := None;
    it_searchItemType := None;
    it_searchIsCollectionApproved := Some true;
    it_searchIsStoreMinter := false;
    it_searchIsMarketplaceV3Minter := false;
    it_searchIsWearableHead := None;
    it_searchIsWearableAccessory := None;
    it_searchWearableCategory := None;
    it_searchWearableRarity := None;
    it_searchWearableBodyShapes := None;
    it_searchEmoteCategory := None;
    it_searchEmoteLoop := None;
    it_searchEmoteRarity := None;
    it_searchEmoteBodyShapes := None;
    it_searchEmoteHasSound := None;
    it_searchEmoteHasGeometry := None;
    it_searchEmoteOutcomeType := None;
    it_uniqueCollectors := [];
    it_uniqueCollectorsTotal := 0;
    it_network := ETHEREUM
  |} in
  item <| it_image := Some (getItemImage item) |>.

(** [handleAddItemV1], eth/handlers/nft.ts:278-395 *)
Definition handleAddItemV1 `{Rpc, EthRpc} (collectionAddress : string)
    (e : AddWearableEventArgs) (block : EthBlock) : M EthWorld unit :=
  let header := ebk_header block in
  let height := blk_height header in
  found ← eth_get e_collections collectionAddress;
  owner ← lift (rpc_owner height collectionAddress);
  timestamp ← block_seconds header;
  collection ← match found with
    | Some collection => mret collection
    | None =>
        name ← lift (rpc_name height collectionAddress);
        symbol ← lift (rpc_symbol height collectionAddress);
        baseURI ← lift (rpc_baseURI height collectionAddress);
        let collection :=
          newCollectionV1 block collectionAddress owner name symbol baseURI timestamp in
        _ ← eth_set e_collections collectionAddress collection;
        mret collection
    end;
  let collection := collection <| col_itemsCount ::= Z.succ |> in
  _ ← eth_set e_collections collectionAddress collection;
  match getWearableV1Representation (aw_wearableId e) with
  | None => mret tt
  | Some representation =>
      baseURI ← lift (rpc_baseURI height collectionAddress);
      let item :=
        newItemV1 collection collectionAddress owner e baseURI representation timestamp in
      metadata ← buildWearableV1Metadata (col_id collection) representation;
      item ← ethSetItemSearchFields (item <| it_metadata := Some (emd_id metadata) |>
                                          <| it_itemType := emd_itemType metadata |>);
      _ ← eth_set e_items (it_id item) item;
      _ ← ethBuildCountFromItem;
      mret tt
  end.

(** [ethMintOf], eth/handlers/nft.ts:496-511 *)
Definition ethMintOf (nft : EthNFT) (item : Item) (owner : AccountRef) (contractAddress from : string)
    (tokenId timestamp : Z) : Mint := {|
  mt_id := en_id nft;
  mt_item := it_id item;
  mt_nft := en_id nft;
  mt_creator := ZERO_ADDRESS;
  mt_beneficiary := aref_id owner;
  mt_minter := from;
  mt_timestamp := timestamp;
  mt_searchPrimarySalePrice := None;
  mt_searchContractAddress := contractAddress;
  mt_searchItemId := it_blockchainId item;
  mt_searchTokenId := tokenId;
  mt_searchIssuedId := en_issuedId nft;
  mt_searchIsStoreMinter := false;
  mt_network := ETHEREUM
|}.

(** [mintWearableV1], eth/handlers/nft.ts:461-511 *)
Definition mintWearableV1 (id collectionAddress : string) (e : TransferEventArgs)
    (tokenURI : string) (item : Item) (owner : AccountRef) (timestamp : Z) (nft : EthNFT)
    : M EthWorld EthNFT :=
  nft ← assignNFT id (set en_itemBlockchainId (λ _, Some (it_blockchainId item))) nft;
  issuedId ← match getIssuedIdFromTokenURI tokenURI with
             | Some issuedId => mret issuedId
             | None => throw RangeError
             end;
  nft ← assignNFT id (set en_issuedId (λ _, Some issuedId)) nft;
  let wearable := buildWearableFromNFT nft in
  _ ← eth_set e_wearables id wearable;
  nft ← assignNFT id (λ nft, mintDefaults timestamp (nft
        <| en_wearable := Some (ew_id wearable) |>
        <| en_metadata := it_metadata item |>
        <| en_itemType := Some (it_itemType item) |>
        <| en_image := it_image item |>)) nft;
  nft ← ethSetNFTSearchFields nft;
  _ ← eth_mutate e_nfts id (λ _, nft);
  count ← ethBuildCount (λ c, c <| cnt_nftTotal ::= Z.succ |>);
  _ ← eth_set e_counts (cnt_id count) count;
  let item := item <| it_available ::= Z.pred |> <| it_totalSupply ::= Z.succ |> in
  _ ← eth_set e_items (it_id item) item;
  let mint := ethMintOf nft item owner collectionAddress (te_from e) (te_tokenId e) timestamp in
  _ ← eth_mem em_mints <[mt_id mint := mint]>;
  mret nft.

(** [wearableColumns], eth/handlers/nft.ts:432-459: what every transfer of a
    first wearable assigns. *)
Definition wearableColumns (collection : option Collection) (collectionAddress : string)
    (e : TransferEventArgs) (tokenURI : string) (item : Item) (owner : AccountRef)
    (timestamp : Z) (nft : EthNFT) : EthNFT :=
  nft <| en_collection := col_id <$> collection |>
      <| en_category := Some "wearable" |>
      <| en_tokenId := Some (te_tokenId e) |>
      <| en_owner := Some owner |>
      <| en_ownerAddress := Some (te_to e) |>
      <| en_contractAddress := Some collectionAddress |>
      <| en_updatedAt := Some timestamp |>
      <| en_soldAt := None |>
      <| en_transferredAt := Some timestamp |>
      <| en_itemType := Some item_wearable_v1 |>
      <| en_tokenURI ::= (λ uri, if truthy_string uri then uri else Some tokenURI) |>
      <| en_item := Some (mkItemRef (it_id item) (it_blockchainId item)) |>
      <| en_urn := Some (it_urn item) |>
      <| en_sales := Some 0 |>
      <| en_volume := Some 0 |>.

(** [handleTransferWearableV1], eth/handlers/nft.ts:397-537 *)
Definition handleTransferWearableV1 (block : Block) (collectionAddress : string)
    (e : TransferEventArgs) (tokenURIs : gmap string string) : M EthWorld unit :=
  collection ← eth_get e_collections collectionAddress;
  match tokenURIs !! tokenURIKey collectionAddress (te_tokenId e) with
  | None | Some EmptyString => mret tt
  | Some tokenURI =>
      item ← eth_get e_items (getItemId collectionAddress (getWearableIdFromTokenURI tokenURI));
      match item with
      | None => mret tt
      | Some item =>
          let id := getNFTId collectionAddress (pretty (te_tokenId e)) None in
          found ← eth_get e_nfts id;
          toAccount ← createOrLoadEthAccount (te_to e);
          timestamp ← block_seconds block;
          let owner := account_ref toAccount in
          nft ← assignNFT id
            (wearableColumns collection collectionAddress e tokenURI item owner timestamp)
            (default (networkNFT id) found);
          if isMint (te_from e) then
            nft ← mintWearableV1 id collectionAddress e tokenURI item owner timestamp nft;
            _ ← createOrLoadEthAccount (te_to e);
            eth_set e_nfts id nft
          else if decide (found = None) then mret tt
          else
            _ ← orderAfterTransfer id (aref_address owner) (en_activeOrder nft);
            _ ← createOrLoadEthAccount (te_to e);
            mret tt
      end
  end.

(** ** Names *)

(** [handleNameRegistered], eth/handlers/ens.ts:20-66 *)
Definition handleNameRegistered (e : NameRegisteredEventArgs) (orderHash : option string)
    : M EthWorld unit :=
  let id := getNFTId (ea_DCLRegistrar getEthAddresses) (pretty (nr_tokenId e)) (Some "ens") in
  owner ← createOrLoadEthAccount (nr_beneficiary e);
  _ ← eth_set e_ens id (newENS id
        <| ens_tokenId := Some (nr_tokenId e) |>
        <| ens_owner := Some (account_ref owner) |>
        <| ens_caller := Some (nr_caller e) |>
        <| ens_beneficiary := Some (nr_beneficiary e) |>
        <| ens_labelHash := Some (nr_labelHash e) |>
        <| ens_subdomain := Some (nr_subdomain e) |>
        <| ens_createdAt := Some (nr_createdDate e) |>
        <| ens_orderHash := if truthy_string orderHash then orderHash else None |>);
  nft ← eth_get e_nfts id;
  _ ← eth_set e_nfts id (default (newEthNFT id) nft
        <| en_name := Some (nr_subdomain e) |>
        <| en_network := Some ETHEREUM |>
        <| en_searchText := Some (toLowerCase (nr_subdomain e)) |>);
  _ ← createOrLoadEthAccount (nr_caller e);
  mret tt.

(** [handleNameBought], eth/handlers/ens.ts:68-79 *)
Definition handleNameBought (price timestamp : Z) : M EthWorld unit :=
  ethAnalyticsDay timestamp (λ day, day <| an_daoEarnings ::= Z.add price |>).
End token.
