(* ===== verification/EthMarketplace.v ===== *)
(** * Ethereum processor: orders, trades and bids

    [eth/handlers/marketplace.ts] and [eth/handlers/bid.ts]. *)

From S2P Require Import Prelude JsString Model Env State Common Bid EthModel EthCommon.
Open Scope string_scope.
Open Scope list_scope.
Open Scope Z_scope.

Section marketplace.
Context `{Env, Rpc}.

(** ** Orders *)

(** [newEthOrder], eth/handlers/marketplace.ts:63-82 *)
Definition newEthOrder (e : OrderCreatedEventArgs) (block : Block)
    (contractAddress txHash : string) (nft : EthNFT) (timestamp : Z) : EthOrder := {|
  eo_id := oc_id e;
  eo_marketplaceAddress := contractAddress;
  eo_category := getCategory (oc_nftAddress e);
  eo_nft := Some (en_id nft);
  eo_item := en_item nft;
  eo_nftAddress := oc_nftAddress e;
  eo_tokenId := oc_assetId e;
  eo_txHash := txHash;
  eo_owner := oc_seller e;
  eo_buyer := None;
  eo_price := oc_priceInWei e;
  eo_status := status_open;
  eo_blockNumber := blk_height block;
  eo_expiresAt := oc_expiresAt e;
  eo_expiresAtNormalized := normalizeTimestamp (oc_expiresAt e);
  eo_createdAt := timestamp;
  eo_updatedAt := timestamp;
  eo_network := ETHEREUM
|}.

(** [ethHandleOrderCreated], eth/handlers/marketplace.ts:45-103 *)
Definition ethHandleOrderCreated (e : OrderCreatedEventArgs) (block : Block)
    (contractAddress txHash : string) : M EthWorld unit :=
  let nftId := marketNFTId (oc_nftAddress e) (oc_assetId e) in
  found ← eth_get e_nfts nftId;
  match found with
  | None => mret tt
  | Some nft =>
      timestamp ← block_seconds block;
      let order := newEthOrder e block contractAddress txHash nft timestamp in
      _ ← match en_activeOrder nft with
          | Some old => eth_mutate e_orders old (λ o, ethCancelActiveOrder o timestamp)
          | None => mret tt
          end;
      _ ← eth_mutate e_nfts nftId (λ nft,
            ethUpdateNFTOrderProperties (nft <| en_updatedAt := Some timestamp |>) order);
      _ ← ethBuildCountFromOrder (eo_category order);
      eth_set e_orders (eo_id order) order
  end.

(** The buyer becomes the owner when its account is loaded.
    [ethGiveTo], eth/handlers/marketplace.ts:147-153 *)
Definition ethGiveTo (nftId buyer : string) : M EthWorld unit :=
  buyerAccount ← eth_get e_accounts (accountKey buyer ETHEREUM);
  match buyerAccount with
  | Some acc => eth_mutate e_nfts nftId (λ nft,
      nft <| en_owner := Some (account_ref acc) |>
          <| en_ownerAddress := Some (acc_address acc) |>)
  | None => mret tt
  end.

(** [ethHandleOrderSuccessful], eth/handlers/marketplace.ts:105-176 *)
Definition ethHandleOrderSuccessful (e : OrderSuccessfulEventArgs) (block : Block)
    (txHash : string) (ownerCutPerMillionValue : Z) : M EthWorld unit :=
  let nftId := marketNFTId (os_nftAddress e) (os_assetId e) in
  found ← eth_get e_orders (os_id e);
  match found with
  | None => mret tt
  | Some order =>
      let sell order := order
        <| eo_category := getCategory (os_nftAddress e) |>
        <| eo_status := status_sold |>
        <| eo_buyer := Some (os_buyer e) |>
        <| eo_price := os_totalPrice e |>
        <| eo_blockNumber := blk_height block |> in
      _ ← eth_mutate e_orders (os_id e) sell;
      timestamp ← block_seconds block;
      _ ← eth_mutate e_orders (os_id e) (λ o, o <| eo_updatedAt := timestamp |>);
      nft ← eth_get e_nfts nftId;
      match nft with
      | None => mret tt
      | Some nft =>
          _ ← ethGiveTo nftId (os_buyer e);
          _ ← eth_mutate e_nfts nftId (λ nft,
                ethUpdateNFTOrderProperties (nft <| en_updatedAt := Some timestamp |>)
                  (sell order));
          ethTrackSale block {|
            esa_type := sale_order;
            esa_buyer := os_buyer e;
            esa_seller := os_seller e;
            esa_nftId := en_id nft;
            esa_price := os_totalPrice e;
            esa_feesCollectorCut := ownerCutPerMillionValue;
            esa_timestamp := timestamp;
            esa_txHash := txHash
          |}
      end
  end.

(** [ethHandleOrderCancelled], eth/handlers/marketplace.ts:255-291 *)
Definition ethHandleOrderCancelled (e : OrderCancelledEventArgs) (block : Block)
    : M EthWorld unit :=
  let nftId := marketNFTId (ox_nftAddress e) (ox_assetId e) in
  nft ← eth_get e_nfts nftId;
  order ← eth_get e_orders (ox_id e);
  match nft, order with
  | Some nft, Some order =>
      let cancel order := order
        <| eo_category := getCategory (ox_nftAddress e) |>
        <| eo_status := status_cancelled |>
        <| eo_blockNumber := blk_height block |> in
      _ ← eth_mutate e_orders (ox_id e) cancel;
      timestamp ← block_seconds block;
      _ ← eth_mutate e_orders (ox_id e) (λ o, o <| eo_updatedAt := timestamp |>);
      eth_mutate e_nfts nftId (λ nft,
        ethUpdateNFTOrderProperties (nft <| en_updatedAt := Some timestamp |>) (cancel order))
  | _, _ => mret tt
  end.

(** ** Trades *)

(** [if (!tokenId)]: the token [0] is taken for no token. *)
Definition tradeTokenId (d : TradeData) : option Z :=
  match tdd_tokenId d with
  | Some tokenId => if decide (tokenId = 0) then None else Some tokenId
  | None => None
  end.

(** [ethHandleTraded], eth/handlers/marketplace.ts:178-253 *)
Definition ethHandleTraded (e : TradedEventArgs) (block : Block) (txHash : string)
    : M EthWorld unit :=
  match getTradeEventData e DCL_ETHEREUM with
  | None => mret tt
  | Some d =>
      match tradeTokenId d with
      | None => mret tt
      | Some tokenId =>
          let nftId := marketNFTId (tdd_collectionAddress d) tokenId in
          timestamp ← block_seconds block;
          found ← eth_get e_nfts nftId;
          match found with
          | None => mret tt
          | Some nft =>
              _ ← ethGiveTo nftId (tdd_buyer d);
              _ ← eth_mutate e_nfts nftId (λ nft, nft <| en_updatedAt := Some timestamp |>);
              feeRate ← lift (rpc_feeRate (blk_height block) (ea_MarketplaceV3 getEthAddresses));
              ethTrackSale block {|
                esa_type := if decide (getTradeEventType e DCL_ETHEREUM = Some TradeBid)
                            then sale_bid else sale_order;
                esa_buyer := tdd_buyer d;
                esa_seller := tdd_seller d;
                esa_nftId := en_id nft;
                esa_price := tdd_price d;
                esa_feesCollectorCut := feeRate;
                esa_timestamp := timestamp;
                esa_txHash := txHash
              |}
          end
      end
  end.

(** ** Bids *)

(** [newEthBid], eth/handlers/bid.ts:46-69 *)
Definition newEthBid (e : BidCreatedEventArgs) (block : Block) (contractAddress : string)
    (nft : EthNFT) (owner : AccountRef) (timestamp : Z) : EthBid :=
  let category := getCategory (bc_tokenAddress e) in {|
  eb_id := getBidId (bc_tokenAddress e) (pretty (bc_tokenId e)) (bc_bidder e);
  eb_bidAddress := contractAddress;
  eb_category := if decide (category = "") then "wearable" else category;
  eb_nft := Some (en_id nft);
  eb_nftAddress := bc_tokenAddress e;
  eb_tokenId := bc_tokenId e;
  eb_bidder := Buffer_from_hex (slice 2 (bc_bidder e));
  eb_seller := Buffer_from_hex (slice 2 (aref_address owner));
  eb_price := bc_price e;
  eb_fingerprint := fingerprintOf (bc_fingerprint e);
  eb_status := status_open;
  eb_blockchainId := bc_id e;
  eb_blockNumber := blk_height block;
  eb_expiresAt := bc_expiresAt e * 1000;
  eb_createdAt := timestamp;
  eb_updatedAt := timestamp;
  eb_network := ETHEREUM
|}.

(** [ethHandleBidCreated], eth/handlers/bid.ts:24-80 *)
Definition ethHandleBidCreated (e : BidCreatedEventArgs) (block : Block)
    (contractAddress : string) : M EthWorld unit :=
  let nftId := marketNFTId (bc_tokenAddress e) (bc_tokenId e) in
  found ← eth_get e_nfts nftId;
  match found with
  | None => mret tt
  | Some nft =>
      timestamp ← block_seconds block;
      owner ← require (en_owner nft);
      let bid := newEthBid e block contractAddress nft owner timestamp in
      _ ← eth_set e_bids (eb_id bid) bid;
      eth_mutate e_nfts nftId (λ nft, nft <| en_updatedAt := Some timestamp |>)
  end.

(** The token of a bid that is loaded, with the bid. *)
Definition bidWithNFT (id : string) : M EthWorld (option (EthBid * string * EthNFT)) :=
  found ← eth_get e_bids id;
  match found with
  | None => mret None
  | Some bid =>
      match eb_nft bid with
      | None => mret None
      | Some nftId =>
          nft ← eth_get e_nfts nftId;
          mret ((λ nft, (bid, nftId, nft)) <$> nft)
      end
  end.

(** [ethHandleBidAccepted], eth/handlers/bid.ts:82-143 *)
Definition ethHandleBidAccepted (e : BidAcceptedEventArgs) (block : Block) (txHash : string)
    (ownerCutPerMillionValue : Z) : M EthWorld unit :=
  let id := getBidId (ba_tokenAddress e) (pretty (ba_tokenId e)) (ba_bidder e) in
  found ← bidWithNFT id;
  match found with
  | None => mret tt
  | Some (bid, nftId, nft) =>
      _ ← eth_mutate e_bids id (λ b, b
            <| eb_status := status_sold |>
            <| eb_seller := Buffer_from_hex (slice 2 (ba_seller e)) |>);
      timestamp ← block_seconds block;
      _ ← eth_mutate e_bids id (λ b, b
            <| eb_blockNumber := blk_height block |> <| eb_updatedAt := timestamp |>);
      _ ← eth_mutate e_nfts nftId (λ nft, nft <| en_updatedAt := Some timestamp |>);
      ethTrackSale block {|
        esa_type := sale_bid;
        esa_buyer := ba_bidder e;
        esa_seller := ba_seller e;
        esa_nftId := en_id nft;
        esa_price := eb_price bid;
        esa_feesCollectorCut := ownerCutPerMillionValue;
        esa_timestamp := timestamp;
        esa_txHash := txHash
      |}
  end.

(** [ethHandleBidCancelled], eth/handlers/bid.ts:145-173 *)
Definition ethHandleBidCancelled (e : BidCancelledEventArgs) (block : Block)
    : M EthWorld unit :=
  let id := getBidId (bx_tokenAddress e) (pretty (bx_tokenId e)) (bx_bidder e) in
  found ← bidWithNFT id;
  match found with
  | None => mret tt
  | Some (_, nftId, _) =>
      _ ← eth_mutate e_bids id (λ b, b
            <| eb_status := status_cancelled |> <| eb_blockNumber := blk_height block |>);
      timestamp ← block_seconds block;
      _ ← eth_mutate e_bids id (λ b, b <| eb_updatedAt := timestamp |>);
      eth_mutate e_nfts nftId (λ nft, nft <| en_updatedAt := Some timestamp |>)
  end.
End marketplace.
