(* ===== verification/EthStore.v ===== *)
(** * Ethereum processor: loading and saving a batch

    [eth/store.ts], the batch's sets of identifiers and the owner cuts of
    [eth/state.ts], and the writes at the end of [eth/main.ts]. *)

From S2P Require Import Prelude JsString Model Env State Common Store EthModel EthCommon.
Open Scope string_scope.
Open Scope list_scope.
Open Scope Z_scope.

(** ** Loading *)

(** The tables when a batch starts, with every relation resolved.  A row of
    [Data] refers to an estate and a parcel.  The metadata are those of this
    network. *)
Record EthDatabase := mkEthDatabase {
  edb_accounts : gmap string Account;
  edb_parcels : gmap string Parcel;
  edb_estates : gmap string Estate;
  edb_nfts : gmap string EthNFT;
  edb_orders : gmap string EthOrder;
  edb_datas : gmap string Data;
  edb_dataEstate : gmap string string;
  edb_dataParcel : gmap string string;
  edb_wearables : gmap string EthWearable;
  edb_ens : gmap string ENS;
  edb_analytics : gmap string AnalyticsDayData;
  edb_counts : gmap string Count;
  edb_bids : gmap string EthBid;
  edb_collections : gmap string Collection;
  edb_metadatas : gmap string EthMetadata;
  edb_items : gmap string Item
}.

Definition isEthereum (n : Network) : bool := bool_decide (n = ETHEREUM).

Definition isEthereumRow (n : option Network) : bool := bool_decide (n = Some ETHEREUM).

(** Rows read without the relations that are not asked for. *)
Definition loadedParcel (pc : Parcel) : Parcel :=
  pc <| pc_owner := None |> <| pc_estate := None |> <| pc_data := None |>.

Definition loadedEstate (es : Estate) : Estate :=
  es <| es_owner := None |> <| es_data := None |>.

Definition loadedENS (ens : ENS) : ENS := ens <| ens_owner := None |>.

Definition loadedEthWearable (w : EthWearable) : EthWearable := w <| ew_owner := None |>.

Definition loadedEthOrder (o : EthOrder) : EthOrder :=
  o <| eo_nft := None |> <| eo_item := None |>.

(** [relations] of a token: owner, active order, metadata and item. *)
Definition loadedEthNFT (nft : EthNFT) : EthNFT :=
  nft <| en_parcel := None |> <| en_estate := None |> <| en_wearable := None |>
      <| en_ens := None |> <| en_collection := None |>.

Section store.
Context `{Env}.
Implicit Types (db : EthDatabase) (m : EthereumInMemoryState).

(** [storedParcels], eth/store.ts:59-61 *)
Definition storedParcels db m : gmap string Parcel :=
  loadedParcel <$> find (edb_parcels db) (λ _ pc,
    match pc_tokenId pc with Some t => bool_decide (t ∈ em_landTokenIds m) | None => false end).

(** [storedEstates], eth/store.ts:63-65 *)
Definition storedEstates db m : gmap string Estate :=
  loadedEstate <$> find (edb_estates db) (λ _ es,
    match es_tokenId es with Some t => bool_decide (t ∈ em_estateTokenIds m) | None => false end).

(** The identifiers of the tokens to load.
    [ethNftIds], eth/store.ts:69-84 *)
Definition ethNftIds db m : list string :=
  let addresses := getEthAddresses in
  let id (prefix : string) (tokenId : Z) := prefix +:+ "-" +:+ pretty tokenId in
  (id ("estate-" +:+ ea_EstateRegistry addresses)
     <$> omap es_tokenId (values (storedEstates db m)))
  ++ (id ("parcel-" +:+ ea_LANDRegistry addresses)
     <$> omap pc_tokenId (values (storedParcels db m)))
  ++ flatIds (em_tokenIds m)
  ++ (id ("ens-" +:+ ea_DCLRegistrar addresses) <$> elements (em_ensTokenIds m)).

(** [storedMetadataIds], eth/store.ts:178-182: the part of an item identifier
    between its first two dashes. *)
Definition storedMetadataIds m : list string :=
  omap (λ id, split dash id !! 1%nat) (concat (values (em_itemIds m))).

(** [ethGetStoredData], eth/store.ts:24-228 *)
Definition ethGetStoredData db m : EthStoredData :=
  let nftIds := ethNftIds db m in
  let accountIds := (λ id, accountKey id ETHEREUM) <$> elements (em_accountIds m) in
  let tokens (ids : gset Z) : list string := pretty <$> elements ids in {|
    e_accounts := find (edb_accounts db) (λ id acc,
      isIn id accountIds && isEthereum (acc_network acc));
    e_parcels := storedParcels db m;
    e_estates := storedEstates db m;
    e_nfts := loadedEthNFT <$> find (edb_nfts db) (λ id nft,
      isIn id nftIds && isEthereumRow (en_network nft));
    e_orders := loadedEthOrder <$> find (edb_orders db) (λ _ o,
      match eo_nft o with Some nft => isIn nft nftIds | None => false end
      && isEthereum (eo_network o));
    e_datas := find (edb_datas db) (λ id _,
      match edb_dataEstate db !! id with
      | Some estate => isIn estate (tokens (em_estateTokenIds m))
      | None => false
      end
      || match edb_dataParcel db !! id with
         | Some parcel => isIn parcel (tokens (em_landTokenIds m))
         | None => false
         end);
    e_wearables := loadedEthWearable <$> find (edb_wearables db) (λ id w,
      isIn id ((λ t, "wearable-" +:+ t) <$> flatIds (em_tokenIds m)) && isEthereumRow (ew_network w));
    e_ens := loadedENS <$> find (edb_ens db) (λ _ ens,
      match ens_tokenId ens with Some t => bool_decide (t ∈ em_ensTokenIds m) | None => false end);
    e_analytics := find (edb_analytics db) (λ id d,
      bool_decide (id ∈ em_analyticsIds m) && isEthereum (an_network d));
    e_counts := find (edb_counts db) (λ _ c, isEthereum (cnt_network c));
    e_bids := find (edb_bids db) (λ id b,
      bool_decide (id ∈ em_bidIds m) && isEthereum (eb_network b));
    e_collections := find (edb_collections db) (λ id c,
      isEthereum (col_network c) && bool_decide (id ∈ em_collectionIds m));
    e_metadatas := find (edb_metadatas db) (λ id _, isIn id (storedMetadataIds m));
    e_items := find (edb_items db) (λ id item,
      (match it_collection item with
       | Some c => bool_decide (c ∈ em_collectionIds m)
       | None => false
       end || isIn id (concat (values (em_itemIds m))))
      && isEthereum (it_network item))
  |}.

(** ** The identifiers of a batch *)

(** Adding to an array of a map of arrays. *)
Definition push_to {A} (k : string) (x : A) (m : gmap string (list A)) : gmap string (list A) :=
  <[k := default [] (m !! k) ++ [x]]> m.

(** [addEventToStateIdsBasedOnCategory], eth/state.ts:32-54 *)
Definition addEventToStateIdsBasedOnCategory (nftAddress : string) (assetId : Z)
    : M EthWorld unit :=
  let category := getCategory nftAddress in
  if decide (category = "parcel") then eth_mem em_landTokenIds (union {[assetId]})
  else if decide (category = "estate") then eth_mem em_estateTokenIds (union {[assetId]})
  else if decide (category = "ens") then eth_mem em_ensTokenIds (union {[assetId]})
  else eth_mem em_tokenIds (push_to nftAddress assetId).

(** ** Owner cuts *)

(** The creation blocks of the marketplace and of the bid contract on the
    configured chain.
    [startBlocks], eth/data/contracts/start-blocks.ts:13-34 *)
Definition startBlocks : option (Z * Z) :=
  let chainId := default ETHEREUM_MAINNET ETHEREUM_CHAIN_ID in
  if decide (chainId = ETHEREUM_MAINNET) then Some (6496012, 7270906)
  else if decide (chainId = ETHEREUM_SEPOLIA) then Some (3831225, 3831237)
  else None.

(** [getContractOwnerCutPerMillion], eth/state.ts:75-92: both contracts are read
    at the address of the marketplace. *)
Definition getContractOwnerCutPerMillion `{Rpc} (block : Block) : M EthWorld Z :=
  lift (rpc_ownerCutPerMillion (blk_height block) (ea_Marketplace getEthAddresses)).

(** [getOwnerCutsValues], eth/state.ts:94-113 *)
Definition getOwnerCutsValues `{Rpc} (block : Block) : M EthWorld unit :=
  marketplaceCut ← gets (λ w, ek_marketplaceOwnerCutPerMillion (e_module w));
  _ ← match marketplaceCut with
      | Some _ => mret tt
      | None =>
          created ← require startBlocks;
          when (bool_decide (created.1 ≤ blk_height block)) (
            value ← getContractOwnerCutPerMillion block;
            modify (set e_module (set ek_marketplaceOwnerCutPerMillion (λ _, Some value))))
      end;
  bidCut ← gets (λ w, ek_bidOwnerCutPerMillion (e_module w));
  match bidCut with
  | Some _ => mret tt
  | None =>
      created ← require startBlocks;
      when (bool_decide (created.2 ≤ blk_height block)) (
        value ← getContractOwnerCutPerMillion block;
        modify (set e_module (set ek_bidOwnerCutPerMillion (λ _, Some value))))
  end.
End store.

(** ** Saving *)

(** A call of the store, with the rows it is given. *)
Inductive EthWrite :=
  | EthUpsertAccounts (rows : list Account)
  | EthUpsertDatas (rows : list Data)
  | EthUpsertEstates (rows : list Estate)
  | EthUpsertParcels (rows : list Parcel)
  | EthUpsertWearables (rows : list EthWearable)
  | EthUpsertENS (rows : list ENS)
  | EthUpsertAnalytics (rows : list AnalyticsDayData)
  | EthUpsertCounts (rows : list Count)
  | EthUpsertCollections (rows : list Collection)
  | EthUpsertMetadatas (rows : list EthMetadata)
  | EthUpsertItems (rows : list Item)
  | EthUpsertNFTs (rows : list EthNFT)
  | EthUpsertSales (rows : list EthSale)
  | EthUpsertOrders (rows : list EthOrder)
  | EthUpsertBids (rows : list EthBid)
  | EthInsertTransfers (rows : list Transfer)
  | EthInsertMints (rows : list Mint).

(** [ethOrderByNFT], eth/main.ts:990-997 *)
Definition ethOrderByNFT (nfts : gmap string EthNFT) : list (string * string) :=
  foldl (λ l nft, match en_activeOrder nft with
                  | Some order => alist_set (en_id nft) order l
                  | None => l
                  end) [] (values nfts).

(** [ethRestoreOrders], eth/main.ts:1002-1007 *)
Definition ethRestoreOrders (l : list (string * string)) (nfts : gmap string EthNFT)
    : gmap string EthNFT :=
  foldl (λ m '(nftId, order), alter (λ nft, nft <| en_activeOrder := Some order |>) nftId m)
    nfts l.

(** [ethUpserts], eth/main.ts:969-1011: the calls of the store, in order. *)
Definition ethUpserts : M EthWorld (list EthWrite) :=
  w ← gets id;
  let s := e_storedData w in
  let maps := [
    EthUpsertAccounts (values (e_accounts s)); EthUpsertDatas (values (e_datas s));
    EthUpsertEstates (values (e_estates s)); EthUpsertParcels (values (e_parcels s));
    EthUpsertWearables (values (e_wearables s)); EthUpsertENS (values (e_ens s));
    EthUpsertAnalytics (values (e_analytics s)); EthUpsertCounts (values (e_counts s));
    EthUpsertCollections (values (e_collections s));
    EthUpsertMetadatas (values (e_metadatas s)); EthUpsertItems (values (e_items s))] in
  let saved := ethOrderByNFT (e_nfts s) in
  _ ← modify (set e_storedData (set e_nfts (fmap (set en_activeOrder (λ _, None)))));
  w ← gets id;
  let detached := [
    EthUpsertNFTs (values (e_nfts (e_storedData w))); EthUpsertSales (values (e_sales w));
    EthUpsertOrders (values (e_orders s))] in
  _ ← modify (set e_storedData (set e_nfts (ethRestoreOrders saved)));
  w ← gets id;
  let rest := [
    EthUpsertNFTs (values (e_nfts (e_storedData w))); EthUpsertBids (values (e_bids s));
    EthInsertTransfers (values (em_transfers (e_inMemoryData w)));
    EthInsertMints (values (em_mints (e_inMemoryData w)))] in
  mret (maps ++ detached ++ rest).
