(* ===== verification/EthProcessor.v ===== *)
(** * The Ethereum processor: a batch

    [eth/main.ts]: the pass that queues the events and collects the identifiers
    to load, the token URIs, the dispatch of the queued events, and the end of
    the batch. *)

From S2P Require Import Prelude JsString Model Env State Common Store EthModel EthCommon.
From S2P Require Import EthLand EthToken EthMarketplace EthStore.
Open Scope string_scope.
Open Scope list_scope.
Open Scope Z_scope.

(** Whether a call of the store succeeds. *)
Class EthStoreOk := eth_store_ok : EthWrite → bool.

Section processor.
Context `{Env, Rpc, EthRpc, Proximities, EthStoreOk}.

(** ** First pass *)

(** The queue entry of a log, with the owner cuts the switch attaches to it.
    [enqueue], eth/main.ts:306-316 *)
Definition enqueue (cuts : bool) (block : EthBlock) (log : EthLog) : M EthWorld unit :=
  k ← gets e_module;
  eth_mem em_markteplaceEvents (λ l, l ++ [{|
    eq_event := el_event log;
    eq_block := block;
    eq_log := log;
    eq_marketplaceOwnerCutPerMillion :=
      if cuts then ek_marketplaceOwnerCutPerMillion k else None;
    eq_bidOwnerCutPerMillion := if cuts then ek_bidOwnerCutPerMillion k else None
  |}]).

(** [enqueueENS], eth/main.ts:444-462 *)
Definition enqueueENS (block : EthBlock) (log : EthLog) : M EthWorld unit :=
  eth_mem em_ensEvents (λ l, l ++ [mkEthQueuedEvent (el_event log) block log None None]).

Definition addAccountId (id : string) : M EthWorld unit :=
  eth_mem em_accountIds (union {[id]}).

(** [collectTransferToken], eth/main.ts:319-348: the token of a transfer, and the
    item of a wearable whose URI is known, are to be loaded. *)
Definition collectTransferToken (contractAddress : string) (tokenId : Z) : M EthWorld unit :=
  let addresses := getEthAddresses in
  if decide (contractAddress = ea_LANDRegistry addresses)
  then eth_mem em_landTokenIds (union {[tokenId]})
  else if decide (contractAddress = ea_EstateRegistry addresses)
  then eth_mem em_estateTokenIds (union {[tokenId]})
  else if decide (contractAddress = ea_DCLRegistrar addresses)
  then eth_mem em_ensTokenIds (union {[tokenId]})
  else
    _ ← eth_mem em_tokenIds (push_to contractAddress tokenId);
    tokenURI ← gets (λ w, ek_tokenURIs (e_module w) !! tokenURIKey contractAddress tokenId);
    match tokenURI with
    | None | Some EmptyString => mret tt
    | Some tokenURI =>
        eth_mem em_itemIds (push_to contractAddress
          (getItemId contractAddress (getWearableIdFromTokenURI tokenURI)))
    end.

(** [accumulateTransfer], eth/main.ts:305-370 *)
Definition accumulateTransfer (block : EthBlock) (log : EthLog) (e : TransferEventArgs)
    (timestamp : Z) : M EthWorld unit :=
  let contractAddress := el_address log in
  _ ← enqueue true block log;
  _ ← addAccountId (te_to e);
  _ ← collectTransferToken contractAddress (te_tokenId e);
  let nftId := getNFTId contractAddress (pretty (te_tokenId e))
                 (Some (getCategory contractAddress)) in
  let id := nftId +:+ "-" +:+ pretty timestamp in
  eth_mem em_transfers <[id := {|
    tr_id := id;
    tr_nftId := nftId;
    tr_network := ETHEREUM;
    tr_block := blk_height (ebk_header block);
    tr_timestamp := timestamp;
    tr_from := te_from e;
    tr_to := te_to e;
    tr_txHash := el_transactionHash log
  |}]>.

(** [accumulateMarket], eth/main.ts:462-646: the cases of orders, bids, cuts and
    trades. *)
Definition accumulateMarket (block : EthBlock) (log : EthLog) (analyticsId : string)
    : M EthWorld unit :=
  let addAnalyticsId := eth_mem em_analyticsIds (union {[analyticsId]}) in
  match el_event log with
  | EeOrderCreated e =>
      _ ← addEventToStateIdsBasedOnCategory (oc_nftAddress e) (oc_assetId e);
      enqueue true block log
  | EeOrderSuccessful e =>
      _ ← addEventToStateIdsBasedOnCategory (os_nftAddress e) (os_assetId e);
      _ ← addAccountId (os_seller e);
      _ ← addAccountId (os_buyer e);
      _ ← addAnalyticsId;
      enqueue true block log
  | EeOrderCancelled e =>
      _ ← addEventToStateIdsBasedOnCategory (ox_nftAddress e) (ox_assetId e);
      enqueue true block log
  | EeChangedOwnerCutPerMillion cut =>
      if decide (el_address log = ea_Marketplace getEthAddresses)
      then modify (set e_module (set ek_marketplaceOwnerCutPerMillion (λ _, Some cut)))
      else modify (set e_module (set ek_bidOwnerCutPerMillion (λ _, Some cut)))
  | EeBidCreated e =>
      _ ← addEventToStateIdsBasedOnCategory (bc_tokenAddress e) (bc_tokenId e);
      enqueue true block log
  | EeBidAccepted e =>
      _ ← addAnalyticsId;
      _ ← addAccountId (ba_seller e);
      _ ← addAccountId (ba_bidder e);
      _ ← eth_mem em_bidIds (union
            {[getBidId (ba_tokenAddress e) (pretty (ba_tokenId e)) (ba_bidder e)]});
      _ ← addEventToStateIdsBasedOnCategory (ba_tokenAddress e) (ba_tokenId e);
      enqueue true block log
  | EeBidCancelled e =>
      _ ← eth_mem em_bidIds (union
            {[getBidId (bx_tokenAddress e) (pretty (bx_tokenId e)) (bx_bidder e)]});
      _ ← addEventToStateIdsBasedOnCategory (bx_tokenAddress e) (bx_tokenId e);
      enqueue true block log
  | EeTraded e =>
      match getTradeEventData e DCL_ETHEREUM with
      | None => mret tt
      | Some d =>
          match tradeTokenId d with
          | None => mret tt
          | Some tokenId =>
              _ ← addEventToStateIdsBasedOnCategory (tdd_collectionAddress d) tokenId;
              _ ← addAccountId (tdd_seller d);
              _ ← addAccountId (tdd_buyer d);
              _ ← addAnalyticsId;
              enqueue false block log
          end
      end
  | _ => mret tt
  end.

(** [ethAccumulateLog], eth/main.ts:238-648: the switch on the topic of a log. *)
Definition ethAccumulateLog (block : EthBlock) (log : EthLog) : M EthWorld unit :=
  let addresses := getEthAddresses in
  timestamp ← block_seconds (ebk_header block);
  let analyticsId := analyticsKey timestamp ETHEREUM in
  match el_event log with
  | EeTransfer e => accumulateTransfer block log e timestamp
  | EeOwnershipTransferred => enqueue false block log
  | EeAddWearable _ =>
      _ ← eth_mem em_collectionIds (union {[toLowerCase (el_address log)]});
      enqueue false block log
  | EeCreateEstate _ => enqueue false block log
  | EeUpdate e =>
      if decide (el_address log = ea_EstateRegistry addresses) then
        _ ← eth_mem em_estateTokenIds (union {[up_assetId e]});
        enqueue false block log
      else if decide (el_address log = ea_LANDRegistry addresses) then
        _ ← eth_mem em_landTokenIds (union {[up_assetId e]});
        eth_mem em_parcelEvents (λ l, l ++ [(e, block)])
      else mret tt
  | EeAddLand e =>
      _ ← eth_mem em_estateTokenIds (union {[al_estateId e]});
      enqueue false block log
  | EeRemoveLand e =>
      _ ← eth_mem em_estateTokenIds (union {[rl_estateId e]});
      enqueue false block log
  | EeNameRegistered _ => enqueueENS block log
  | EeNameBought _ =>
      _ ← eth_mem em_analyticsIds (union {[analyticsId]});
      enqueueENS block log
  | _ => accumulateMarket block log analyticsId
  end.

(** [ethAccumulate], eth/main.ts:236-649 *)
Definition ethAccumulate (blocks : list EthBlock) : M EthWorld unit :=
  for_each blocks (λ block,
    _ ← getOwnerCutsValues (ebk_header block);
    for_each (ebk_logs block) (ethAccumulateLog block)).

(** ** Token URIs *)

(** The tokens whose URI is not known, once each.
    [tokenIdsWithoutTokenURIs], eth/main.ts:655-667 *)
Definition tokenIdsWithoutTokenURIs (tokenURIs : gmap string string)
    (tokenIds : gmap string (list Z)) : list (string * Z) :=
  flat_map (λ '(contractAddress, ids), pair contractAddress <$>
    remove_dups (filter (λ id,
      truthy_string (tokenURIs !! tokenURIKey contractAddress id) = false) ids))
    (map_to_list tokenIds).

(** [multicallHeight], common/utils/multicall.ts:25-33: the block the multicall
    is made at. *)
Definition multicallHeight (height : Z) : Z :=
  if decide (default ETHEREUM_MAINNET ETHEREUM_CHAIN_ID = ETHEREUM_MAINNET
             ∧ height < 14353601)
  then 14353601 else height.

(** [tokenURIMutilcall], common/utils/multicall.ts:20-58 *)
Definition tokenURIMutilcall (height : Z) (tokens : list (string * Z))
    : M EthWorld (list (string * Z * string)) :=
  results ← lift (rpc_tokenURIs (multicallHeight height) tokens);
  mret (zip tokens results).

(** [cacheTokenURIs], eth/main.ts:669-694 *)
Definition cacheTokenURIs (lastHeight : Z) : M EthWorld unit :=
  w ← gets id;
  let tokens := tokenIdsWithoutTokenURIs (ek_tokenURIs (e_module w))
                  (em_tokenIds (e_inMemoryData w)) in
  newTokenURIs ← (if decide (tokens = []) then mret [] else tokenURIMutilcall lastHeight tokens);
  for_each newTokenURIs (λ '(contractAddress, tokenId, tokenURI),
    let key := tokenURIKey contractAddress tokenId in
    _ ← modify (set e_module (set ek_tokenURIs <[key := tokenURI]>));
    let contractAddress := default "" (head (split dash key)) in
    eth_mem em_itemIds (push_to contractAddress
      (getItemId contractAddress (getWearableIdFromTokenURI tokenURI)))).

(** ** Second pass *)

(** The coordinates of the parcels of the batch are added to those known.
    [decodeCoordinates], eth/main.ts:725-731 *)
Definition decodeCoordinates : M EthWorld unit :=
  landTokenIds ← gets (λ w, em_landTokenIds (e_inMemoryData w));
  newCoordinates ← lift (decodeTokenIdsToCoordinates (elements landTokenIds));
  modify (set e_module (set ek_landCoordinates (union newCoordinates))).

(** [dispatchMarketplaceEvent], eth/main.ts:741-923 *)
Definition dispatchMarketplaceEvent (q : EthQueuedEvent) : M EthWorld unit :=
  let log := eq_log q in
  let a := el_address log in
  let txHash := el_transactionHash log in
  let block := ebk_header (eq_block q) in
  k ← gets e_module;
  match eq_event q with
  | EeOrderCreated e => ethHandleOrderCreated e block a txHash
  | EeTraded e => ethHandleTraded e block txHash
  | EeOrderSuccessful e =>
      ethHandleOrderSuccessful e block txHash (default 0 (eq_marketplaceOwnerCutPerMillion q))
  | EeOrderCancelled e => ethHandleOrderCancelled e block
  | EeBidCreated e => ethHandleBidCreated e block a
  | EeBidAccepted e =>
      ethHandleBidAccepted e block txHash (default 0 (eq_bidOwnerCutPerMillion q))
  | EeBidCancelled e => ethHandleBidCancelled e block
  | EeTransfer e =>
      if decide (a ∈ ea_collections getEthAddresses)
      then handleTransferWearableV1 block a e (ek_tokenURIs k)
      else ethHandleTransfer block a e (ek_tokenURIs k) (ek_landCoordinates k)
  | EeOwnershipTransferred => handleInitializeWearablesV1
  | EeAddWearable e => handleAddItemV1 a e (eq_block q)
  | EeCreateEstate e => handleCreateEstate block e
  | EeUpdate e => handleEstateUpdate e block
  | EeAddLand e => handleAddLand e (ek_landCoordinates k)
  | EeRemoveLand e => handleRemoveLand e (ek_landCoordinates k)
  | _ => mret tt
  end.

(** [orderHashOf], eth/main.ts:934-951: the first order filled in the same
    transaction. *)
Definition orderHashOf (block : EthBlock) (log : EthLog) : option string :=
  head (omap (λ txLog,
    match el_event txLog with
    | EeOrderFilled orderHash =>
        if decide (el_transactionIndex txLog = el_transactionIndex log
                   ∧ toLowerCase (el_address txLog) = toLowerCase (ea_Spoke getEthAddresses))
        then Some orderHash else None
    | _ => None
    end) (ebk_logs block)).

(** [dispatchENSEvent], eth/main.ts:932-967 *)
Definition dispatchENSEvent (q : EthQueuedEvent) : M EthWorld unit :=
  match eq_event q with
  | EeNameRegistered e => handleNameRegistered e (orderHashOf (eq_block q) (eq_log q))
  | EeNameBought price =>
      timestamp ← block_seconds (ebk_header (eq_block q));
      handleNameBought price timestamp
  | _ => mret tt
  end.

(** [dispatchEvents], eth/main.ts:733-967: the queued events in order, then the
    updates of parcels, then the names. *)
Definition dispatchEvents : M EthWorld unit :=
  m ← gets e_inMemoryData;
  _ ← for_each (em_markteplaceEvents m) dispatchMarketplaceEvent;
  _ ← for_each (em_parcelEvents m) (λ '(e, block),
        k ← gets e_module;
        handleLandUpdate e (ebk_header block) (ek_landCoordinates k));
  for_each (em_ensEvents m) dispatchENSEvent.

(** ** The batch *)

(** The writes before the first call that fails, whose error is logged.
    [savedWrites], eth/main.ts:969-1024 *)
Fixpoint savedWrites (writes : list EthWrite) : list EthWrite :=
  match writes with
  | w :: writes => if eth_store_ok w then w :: savedWrites writes else []
  | [] => []
  end.

(** [ethInitialWorld], eth/main.ts:233-233: a batch starts with nothing but what the module
    kept. *)
Definition ethInitialWorld (k : EthModule) : EthWorld := {|
  e_storedData := emptyEthStoredData;
  e_inMemoryData := ethBatchInMemoryState;
  e_sales := ∅;
  e_module := k
|}.

(** [ethProcessBatch], eth/main.ts:217-1024 and the calls of its parts in
    order *)
Definition ethProcessBatch (db : EthDatabase) (blocks : list EthBlock) (lastBlock : Block)
    : M EthWorld (list EthWrite) :=
  _ ← ethAccumulate blocks;
  _ ← cacheTokenURIs (blk_height lastBlock);
  _ ← modify (λ w, w <| e_storedData := ethGetStoredData db (e_inMemoryData w) |>);
  _ ← decodeCoordinates;
  _ ← dispatchEvents;
  writes ← ethUpserts;
  mret (savedWrites writes).
End processor.

(** The handlers of this processor, opened down to the primitive updates. *)
Ltac unfold_eth_handlers :=
  unfold ethHandleOrderCreated, ethHandleOrderSuccessful, ethHandleOrderCancelled,
    ethHandleTraded, ethHandleBidCreated, ethHandleBidAccepted, ethHandleBidCancelled,
    ethGiveTo, bidWithNFT, handleInitializeWearablesV1, ethHandleTransfer,
    handleTransferWearableV1, mintWearableV1, handleAddItemV1, buildWearableV1Metadata,
    ethSetItemSearchFields, ethSetNFTSearchFields, assignNFT, orderAfterTransfer,
    transferParcel, transferEstate, transferWearable, transferENS, handleCreateEstate,
    handleAddLand, handleRemoveLand, resizeEstate, addDistance, removeDistance,
    handleEstateUpdate, handleLandUpdate, handleNameRegistered, handleNameBought,
    ethBuildCountFromNFT, ethBuildCountFromOrder, ethBuildCountFromItem, ethBuildCount,
    ethAnalyticsDay.
