(* ===== verification/IndexManager.v ===== *)
(** * Index management

    [common/utils/indexManager.ts] and the bulk index mode at the head of the two
    batch handlers, [polygon/main.ts] and [eth/main.ts]: the secondary indices of
    the tables are dropped while a new deployment catches up with the chain, and
    created again when it has.  Logs and Slack alerts are left out: they never
    raise. *)

From Stdlib Require Import Ascii.
From S2P Require Import Prelude JsString.
Open Scope string_scope.
Open Scope list_scope.
Open Scope Z_scope.

(** ** Statements *)

(** A name in double quotes. *)
Definition doubleQuote : Ascii.ascii := Ascii.ascii_of_N 34.

Definition quoted (s : string) : string := String doubleQuote (s +:+ String doubleQuote "").

(** [CREATE INDEX "name" ON "table" ("column", ...)] *)
Definition createIndex (name table : string) (columns : list string) : string :=
  "CREATE INDEX " +:+ quoted name +:+ " ON " +:+ quoted table +:+ " ("
  +:+ join ", " (quoted <$> columns) +:+ ")".

(** [str.replace(pattern, replacement)] with a string pattern: the first
    occurrence. *)
Fixpoint replaceFirst (pattern replacement s : string) : string :=
  if startsWith pattern s then replacement +:+ slice (String.length pattern) s
  else match s with
       | EmptyString => ""
       | String c s => String c (replaceFirst pattern replacement s)
       end.

(** [ManagedIndex], common/utils/indexManager.ts:50-54 *)
Record ManagedIndex := mkManagedIndex {
  mi_name : string;
  mi_create : string;
  mi_keepDuringBulkLoad : bool
}.

Definition IndexGroup : Type := list (string * list ManagedIndex).

Definition anIndex (name table : string) (columns : list string) : ManagedIndex :=
  mkManagedIndex name (createIndex name table columns) false.

Definition keptIndex (name table : string) (columns : list string) : ManagedIndex :=
  mkManagedIndex name (createIndex name table columns) true.

(** [POLYGON_INDICES], common/utils/indexManager.ts:60-132 *)
Definition POLYGON_INDICES : IndexGroup := [
  ("nft", [
     anIndex "IDX_5f8cc4778564d0bd3c4ac3436d" "nft" ["search_order_status"; "search_order_expires_at"; "category"];
     anIndex "IDX_d5b8837a62eb6d9c95eb3d2ef2" "nft" ["search_order_status"; "search_order_expires_at"; "network"];
     anIndex "IDX_26e756121a20d1cc3e4d738279" "nft" ["owner_address"];
     anIndex "IDX_0fca1a8c5d9399d9a9a52e26f7" "nft" ["contract_address"; "token_id"];
     anIndex "IDX_3baa214ec3db0ce29708750e3b" "nft" ["category"];
     anIndex "IDX_e0e405184c1c9253bbe95b6cc7" "nft" ["search_order_expires_at_normalized"];
     anIndex "IDX_b53fdf02d6f6047c1758ae885a" "nft" ["search_is_land"];
     anIndex "IDX_4c7d1118621f3ea97740a1d876" "nft" ["item_id"; "owner_id"];
     anIndex "IDX_2c8ca873555fc156848199919f" "nft" ["created_at"];
     anIndex "IDX_645ec1a1710c449fa4e9d241e9" "nft" ["search_order_expires_at"];
     anIndex "IDX_4d213d73326e54427a5c9bdddf" "nft" ["search_parcel_is_in_bounds"];
     anIndex "IDX_7e215df412b248db3731737290" "nft" ["token_id"];
     anIndex "IDX_ffe58aa05707db77c2f20ecdbc" "nft" ["collection_id"];
     anIndex "IDX_c36d2ea36d7de5e265c30b8be8" "nft" ["metadata_id"];
     anIndex "IDX_83cfd3a290ed70c660f8c9dfe2" "nft" ["owner_id"];
     anIndex "IDX_b92ac830e4b3a630162a898203" "nft" ["active_order_id"]]);
  ("order", [
     anIndex "IDX_2485593ed8c9972197aeaf7da6" "order" ["expires_at_normalized"];
     anIndex "IDX_d01158fe15b1ead5c26fd7f4e9" "order" ["item_id"];
     keptIndex "IDX_f5047ff046d513a3598c1a2931" "order" ["nft_id"]]);
  ("sale", [
     anIndex "IDX_8ac00a610840894296c6f32fd2" "sale" ["timestamp"];
     anIndex "IDX_a91d7a7aa55af7d57ef4d17912" "sale" ["search_category"; "network"];
     anIndex "IDX_439a57a4a0d130329d3d2e671b" "sale" ["item_id"];
     anIndex "IDX_8524438f82167bcb795bcb8663" "sale" ["nft_id"]]);
  ("item", [
     keptIndex "IDX_9ddbd0267ddb9c59621775f94e" "item" ["collection_id"; "blockchain_id"];
     anIndex "IDX_6d5bb320c601281cd3a213979e" "item" ["metadata_id"]]);
  ("bid", [
     anIndex "IDX_3caf2d6b31d2fe45a2b85b8191" "bid" ["nft_id"]]);
  ("transfer", [
     anIndex "IDX_024eb30e5fd99a5bea7befe60e" "transfer" ["network"];
     anIndex "IDX_c116ab40c3b32ca2d9c1d17d8b" "transfer" ["block"];
     anIndex "IDX_be54ea276e0f665ffc38630fc0" "transfer" ["from"];
     anIndex "IDX_4cbc37e8c3b47ded161f44c24f" "transfer" ["to"];
     anIndex "IDX_f605a03972b4f28db27a0ee70d" "transfer" ["tx_hash"]]);
  ("mint", [
     anIndex "IDX_cd587534d4140377bb52337ae4" "mint" ["item_id"];
     anIndex "IDX_c46ca4e5f135d6dbdf10111660" "mint" ["nft_id"]]);
  ("curation", [
     anIndex "IDX_dff9f3d4753a2a4caecf74d066" "curation" ["curator_id"];
     anIndex "IDX_2cb014ad08eee6a3c64afa42f3" "curation" ["collection_id"];
     anIndex "IDX_ddf35815bd940a989480f79fec" "curation" ["item_id"]]);
  ("metadata", [
     anIndex "IDX_45072545bb44e246e0496110f9" "metadata" ["wearable_id"];
     anIndex "IDX_cee9cecc2205cd07a21813203d" "metadata" ["emote_id"]]);
  ("wearable", [
     anIndex "IDX_f011ccea27833b0628a7532834" "wearable" ["owner_id"]]);
  ("account", [
     anIndex "IDX_83603c168bc00b20544539fbea" "account" ["address"]]);
  ("squid_router_order", [
     anIndex "IDX_squid_router_order_order_hash" "squid_router_order" ["order_hash"];
     anIndex "IDX_squid_router_order_tx_hash" "squid_router_order" ["tx_hash"]])
].

(** [ETH_INDICES], common/utils/indexManager.ts:135-154 *)
Definition ETH_INDICES : IndexGroup := [
  ("estate", [
     anIndex "IDX_1f3ec6150afbb8a3fd75fae814" "estate" ["size"];
     anIndex "IDX_0b680d37990796da3232ad9d98" "estate" ["owner_id"];
     anIndex "IDX_c40a1b5f5b764ad6ab5fa749cd" "estate" ["data_id"]]);
  ("parcel", [
     anIndex "IDX_a7c5c87cd4ffc1e1129f0c5f43" "parcel" ["owner_id"];
     anIndex "IDX_da4912d77606dcfabe5da7eebc" "parcel" ["estate_id"];
     anIndex "IDX_04ab2b996d659d2f86dbcee860" "parcel" ["data_id"]]);
  ("data", [
     anIndex "IDX_8694618f20c7b364d4cb23c111" "data" ["parcel_id"];
     anIndex "IDX_ae7e5532f8406258419ed617b4" "data" ["estate_id"]]);
  ("ens", [
     anIndex "IDX_2ebf256442a48f5acbdf2ea77d" "ens" ["owner_id"];
     anIndex "IDX_ens_order_hash" "ens" ["order_hash"]])
].

(** [flattenIndices], common/utils/indexManager.ts:156-158 *)
Definition flattenIndices (group : IndexGroup) : list ManagedIndex := concat group.*2.

(** [isFreshSync], common/utils/indexManager.ts:224-227: the product with the
    [number] 1.1 has the integer part of eleven tenths of the block. *)
Definition isFreshSync (currentBlock initialBlock : Z) : bool :=
  bool_decide (currentBlock < (11 * initialBlock) `div` 10).

(** The statement of an index that is not there yet. *)
Definition createIfNotExists (name table : string) (columns : list string) : string :=
  "CREATE INDEX IF NOT EXISTS " +:+ quoted name +:+ " ON " +:+ quoted table +:+ " ("
  +:+ join ", " (quoted <$> columns) +:+ ")".

(** [createStatement], common/utils/indexManager.ts:352-354 *)
Definition createStatement (idx : ManagedIndex) : string :=
  replaceFirst "CREATE INDEX" "CREATE INDEX IF NOT EXISTS"
    (replaceFirst "CREATE UNIQUE INDEX" "CREATE UNIQUE INDEX IF NOT EXISTS" (mi_create idx)).

(** [dropStatement], common/utils/indexManager.ts:303-303 *)
Definition dropStatement (name : string) : string := "DROP INDEX IF EXISTS " +:+ quoted name.

(** ** The database *)

(** The connection and the statements, which can fail at any moment (the number
    of statements sent before): the indices of the schema of the squid are what
    they are about. *)
Class Postgres := {
  pg_connect : nat → Res unit;
  pg_indexExists : nat → string → gset string → Res bool;
  pg_query : nat → string → gset string → Res unit * gset string
}.

(** What a statement that is carried out does to the indices; one that fails
    raises and does nothing.  A name holds no double quote. *)
Class PostgresLaws `{Postgres} := {
  indexExists_law n name indices :
    pg_indexExists n name indices = Ok (bool_decide (name ∈ indices)) ∨
    ∃ e, pg_indexExists n name indices = Throw e;
  drop_law n name indices :
    lacks doubleQuote name →
    pg_query n (dropStatement name) indices = (Ok tt, indices ∖ {[name]}) ∨
    ∃ e, pg_query n (dropStatement name) indices = (Throw e, indices);
  create_law n name table columns indices :
    lacks doubleQuote name →
    let statement := createIfNotExists name table columns in
    pg_query n statement indices = (Ok tt, {[name]} ∪ indices) ∨
    ∃ e, pg_query n statement indices = (Throw e, indices)
}.

(** [BulkMode], polygon/main.ts:183-189: what the module keeps between batches. *)
Record BulkMode := mkBulkMode {
  bulkModeInitialized : bool;
  indicesRecreated : bool;
  indicesNeedRecreation : bool;
  indexRecreateAttempts : Z
}.
#[export] Instance eta_BulkMode : Eta BulkMode := λ r,
  mkBulkMode (bulkModeInitialized r) (indicesRecreated r) (indicesNeedRecreation r)
    (indexRecreateAttempts r).

(** The module, the indices of the schema, and the statements sent. *)
Record IndexWorld := mkIndexWorld {
  ix_mode : BulkMode;
  ix_indices : gset string;
  ix_sent : nat
}.
#[export] Instance eta_IndexWorld : Eta IndexWorld := λ r,
  mkIndexWorld (ix_mode r) (ix_indices r) (ix_sent r).

Section indexManager.
Context `{Postgres}.

(** ** Operations *)

(** [withIndexConnection], common/utils/indexManager.ts:199-217 *)
Definition withIndexConnection {A} (fn : M IndexWorld A) : M IndexWorld A :=
  sent ← gets ix_sent;
  _ ← modify (set ix_sent S);
  _ ← lift (pg_connect sent);
  fn.

(** [indexExists], common/utils/indexManager.ts:233-239 *)
Definition indexExists (name : string) : M IndexWorld bool :=
  w ← gets id;
  _ ← modify (set ix_sent S);
  lift (pg_indexExists (ix_sent w) name (ix_indices w)).

(** A statement that returns no rows. *)
Definition query (statement : string) : M IndexWorld unit := λ w,
  let '(r, indices) := pg_query (ix_sent w) statement (ix_indices w) in
  (r, w <| ix_sent ::= S |> <| ix_indices := indices |>).

(** [getIndicesStatus], common/utils/indexManager.ts:241-269: the names that
    exist and those that are missing. *)
Fixpoint getIndicesStatus (indices : list ManagedIndex)
    : M IndexWorld (list string * list string) :=
  match indices with
  | [] => mret ([], [])
  | idx :: indices =>
      exists_ ← indexExists (mi_name idx);
      '(existing, missing) ← getIndicesStatus indices;
      mret (if exists_ : bool then (mi_name idx :: existing, missing)
            else (existing, mi_name idx :: missing))
  end.

(** [dropIndicesForBulkLoad], common/utils/indexManager.ts:275-316 *)
Definition dropIndicesForBulkLoad (group : IndexGroup) : M IndexWorld unit :=
  let indices := filter (λ idx, mi_keepDuringBulkLoad idx = false) (flattenIndices group) in
  withIndexConnection (
    '(existing, _) ← getIndicesStatus indices;
    if decide (length existing = 0%nat) then mret tt else
    for_each indices (λ idx, catch (
      exists_ ← indexExists (mi_name idx);
      when exists_ (query (dropStatement (mi_name idx))))
      (λ _, mret tt))).

(** [recreateIndices], common/utils/indexManager.ts:323-398 *)
Definition recreateIndices (group : IndexGroup) : M IndexWorld unit :=
  let indices := flattenIndices group in
  withIndexConnection (
    '(_, missing) ← getIndicesStatus indices;
    if decide (length missing = 0%nat) then mret tt else
    _ ← for_each indices (λ idx, catch (
      exists_ ← indexExists (mi_name idx);
      when (negb exists_) (query (createStatement idx)))
      (λ _, mret tt));
    '(_, missing) ← getIndicesStatus indices;
    if decide (0 < length missing)%nat
    then throw (JsError (pretty (length missing) +:+ " of " +:+ pretty (length indices)
                         +:+ " indices are still missing after the recreate pass"))
    else mret tt).

(** [checkIndicesNeedRecreation], common/utils/indexManager.ts:400-415 *)
Definition checkIndicesNeedRecreation (group : IndexGroup) : M IndexWorld bool :=
  withIndexConnection (
    '(_, missing) ← getIndicesStatus (flattenIndices group);
    mret (bool_decide (0 < length missing)%nat)).

(** ** The bulk index mode of a batch handler *)

(** [MAX_INDEX_RECREATE_ATTEMPTS], polygon/main.ts:190-190 *)
Definition MAX_INDEX_RECREATE_ATTEMPTS : Z := 5.

(** [initBulkMode], polygon/main.ts:394-435: on the first batch of the process. *)
Definition initBulkMode (group : IndexGroup) (initialBlock : Z)
    (currentBlock : Z) (isHead : bool) : M IndexWorld unit :=
  _ ← modify (set ix_mode (set bulkModeInitialized (λ _, true)));
  catch (
    let freshSync := isFreshSync currentBlock initialBlock in
    needed ← checkIndicesNeedRecreation group;
    _ ← modify (set ix_mode (set indicesNeedRecreation (λ _, needed)));
    if freshSync then
      _ ← dropIndicesForBulkLoad group;
      modify (set ix_mode (set indicesNeedRecreation (λ _, true)))
    else if negb needed then
      modify (set ix_mode (set indicesRecreated (λ _, true)))
    else if isHead then
      _ ← recreateIndices group;
      modify (set ix_mode (set indicesRecreated (λ _, true)))
    else mret tt)
    (λ _, mret tt).

(** [recreateAtHead], polygon/main.ts:445-466 *)
Definition recreateAtHead (group : IndexGroup) (isHead : bool) : M IndexWorld unit :=
  m ← gets ix_mode;
  when (negb (indicesRecreated m) && isHead
        && bool_decide (indexRecreateAttempts m < MAX_INDEX_RECREATE_ATTEMPTS))
    (_ ← modify (set ix_mode (set indexRecreateAttempts Z.succ));
     catch (
       _ ← recreateIndices group;
       modify (set ix_mode (set indicesRecreated (λ _, true))))
       (λ _, mret tt)).

(** [manageIndices], polygon/main.ts:394-466: of a batch with its first block,
    [0] when it has none, and whether it ends at the head of the chain. *)
Definition manageIndices (enabled : bool) (group : IndexGroup) (initialBlock : Z)
    (batch : Z * bool) : M IndexWorld unit :=
  let '(currentBlock, isHead) := batch in
  m ← gets ix_mode;
  _ ← when (enabled && negb (bulkModeInitialized m))
        (initBulkMode group initialBlock currentBlock isHead);
  when enabled (recreateAtHead group isHead).
End indexManager.

(** The module when the process starts. *)
Definition newBulkMode : BulkMode := mkBulkMode false false false 0.
