(* ===== verification/IndexProofs.v ===== *)
(** * Index management: what is dropped, what is there in the end

    The theorems of [IndexManager]: the bulk index mode takes the indices for
    recreated only when they all exist, never touches those it must keep, sends a bounded number of
    statements in a process, and a batch at the head of the chain brings them all back once the database carries
    its statements out. *)

From S2P Require Import Prelude JsString IndexManager.
Open Scope string_scope.
Open Scope list_scope.
Open Scope Z_scope.

(** ** The indices of a group *)

Definition indexNames (group : IndexGroup) : gset string :=
  list_to_set (mi_name <$> flattenIndices group).

(** Those the bulk load drops. *)
Definition droppedNames (group : IndexGroup) : gset string :=
  list_to_set (mi_name <$> filter (λ idx, mi_keepDuringBulkLoad idx = false)
                             (flattenIndices group)).

(** The statements of the group are those of the database's laws. *)
Definition creatable (idx : ManagedIndex) : Prop :=
  lacks doubleQuote (mi_name idx) ∧
  ∃ table columns, createStatement idx = createIfNotExists (mi_name idx) table columns.

Ltac creatable :=
  unfold flattenIndices, POLYGON_INDICES, ETH_INDICES, fmap;
  cbn [list_fmap map concat app snd];
  repeat lazymatch goal with
  | |- Forall _ [] => constructor
  | |- Forall _ (_ ?name ?table ?columns :: _) =>
      constructor; [split; [decided|exists table, columns; vm_compute; reflexivity]|]
  end.

Lemma polygon_creatable : Forall creatable (flattenIndices POLYGON_INDICES).
Proof. creatable. Qed.

Lemma eth_creatable : Forall creatable (flattenIndices ETH_INDICES).
Proof. creatable. Qed.

(** ** What the operations do *)

Section operations.
Context `{PostgresLaws}.
Implicit Types (w : IndexWorld) (group : IndexGroup) (idx : ManagedIndex).

Lemma indexExists_run name w :
  ∃ r, indexExists name w = (r, w <| ix_sent ::= S |>) ∧
    (r = Ok (bool_decide (name ∈ ix_indices w)) ∨ ∃ e, r = Throw e).
Proof. eexists. split; [reflexivity|apply indexExists_law]. Qed.

(** A look at the indices changes neither them nor the module. *)
Definition looks (w w' : IndexWorld) : Prop :=
  ix_mode w' = ix_mode w ∧ ix_indices w' = ix_indices w ∧ (ix_sent w ≤ ix_sent w')%nat.

#[export] Instance looks_preorder : PreOrder looks.
Proof.
  split; [done|]. intros w1 w2 w3 (?&?&?) (?&?&?). split_and!; [congruence..|lia].
Qed.

Lemma looks_indexExists name : steps looks (indexExists name).
Proof. intros w. destruct (indexExists_run name w) as (r & -> & _). split_and!; simpl; [done..|lia]. Qed.

Lemma looks_getIndicesStatus l : steps looks (getIndicesStatus l).
Proof.
  induction l as [|idx l IH]; simpl; [frames|].
  apply steps_bind; [apply _|apply looks_indexExists|intros ?].
  apply steps_bind; [apply _|apply IH|intros [??]]. frames.
Qed.

Lemma getIndicesStatus_spec l w existing missing w' :
  getIndicesStatus l w = (Ok (existing, missing), w') →
  existing = filter (.∈ ix_indices w) (mi_name <$> l) ∧
  missing = filter (.∉ ix_indices w) (mi_name <$> l).
Proof.
  revert w existing missing w'. induction l as [|idx l IH]; intros w existing missing w'; simpl.
  { by intros [= <- <- _]. }
  intros (b & w1 & Hb & (p & w2 & Hp & Hret)%bind_inv)%bind_inv.
  destruct (indexExists_run (mi_name idx) w) as (r & Hr & Hv). rewrite Hb in Hr.
  injection Hr as <- ->. destruct p as [ex mi].
  apply IH in Hp as [-> ->]. simpl in Hret. destruct Hv as [[= ->]|[? ?]]; [|done].
  rewrite !filter_cons. destruct (decide (mi_name idx ∈ ix_indices w)) as [Hin|Hin].
  - rewrite bool_decide_true in Hret by done. rewrite decide_False by auto.
    by injection Hret as <- <- _.
  - rewrite bool_decide_false in Hret by done. rewrite decide_True by done.
    by injection Hret as <- <- _.
Qed.

(** At most [down] is taken from the indices and at most [up] is added. *)
Definition evolves (down up : gset string) (w w' : IndexWorld) : Prop :=
  ix_mode w' = ix_mode w ∧ ix_indices w ∖ down ⊆ ix_indices w' ∧
  ix_indices w' ⊆ ix_indices w ∪ up ∧ (ix_sent w ≤ ix_sent w')%nat.

#[export] Instance evolves_preorder down up : PreOrder (evolves down up).
Proof.
  split; [intros w; split_and!; [done|set_solver..|lia]|].
  intros w1 w2 w3 (?&?&?&?) (?&?&?&?). split_and!; [congruence|set_solver..|lia].
Qed.

Lemma looks_evolves {A} down up (m : M IndexWorld A) :
  steps looks m → steps (evolves down up) m.
Proof.
  intros Hm w. destruct (Hm w) as (?&Hi&?). unfold evolves. rewrite Hi. split_and!; (done || set_solver).
Qed.

Lemma evolves_withIndexConnection {A} down up (m : M IndexWorld A) :
  steps (evolves down up) m → steps (evolves down up) (withIndexConnection m).
Proof.
  intros Hm. unfold withIndexConnection. frames.
  apply steps_modify. intros w. split_and!; simpl; [done|set_solver..|lia].
Qed.

Lemma evolves_drop down up idx :
  lacks doubleQuote (mi_name idx) → mi_name idx ∈ down →
  steps (evolves down up) (query (dropStatement (mi_name idx))).
Proof.
  intros Hq Hin w. unfold query.
  destruct (drop_law (ix_sent w) _ (ix_indices w) Hq) as [->|[e ->]];
    split_and!; simpl; (done || set_solver || lia).
Qed.

Lemma evolves_create down up idx :
  creatable idx → mi_name idx ∈ up →
  steps (evolves down up) (query (createStatement idx)).
Proof.
  intros (Hq & table & columns & ->) Hin w. unfold query.
  destruct (create_law (ix_sent w) _ table columns (ix_indices w) Hq) as [->|[e ->]];
    split_and!; simpl; (done || set_solver || lia).
Qed.

Hint Resolve looks_evolves looks_indexExists looks_getIndicesStatus : frame.

Lemma elem_of_names (f : ManagedIndex → Prop) `{∀ idx, Decision (f idx)} l idx :
  idx ∈ filter f l → mi_name idx ∈@{gset string} list_to_set (mi_name <$> filter f l).
Proof. intros Hin. apply elem_of_list_to_set, list_elem_of_fmap. by exists idx. Qed.

Lemma evolves_dropIndices group up :
  Forall creatable (flattenIndices group) →
  steps (evolves (droppedNames group) up) (dropIndicesForBulkLoad group).
Proof.
  intros Hg. unfold dropIndicesForBulkLoad. apply evolves_withIndexConnection.
  apply steps_bind; [apply _|auto with frame|intros [existing ?]].
  case_decide; [frames|]. apply steps_for_each; [apply _|]. intros idx Hin.
  frames. apply evolves_drop; [|by apply elem_of_names].
  apply list_elem_of_filter in Hin as [_ Hin].
  rewrite Forall_forall in Hg. by apply Hg.
Qed.

Lemma evolves_recreate group down :
  Forall creatable (flattenIndices group) →
  steps (evolves down (indexNames group)) (recreateIndices group).
Proof.
  intros Hg. unfold recreateIndices. apply evolves_withIndexConnection.
  apply steps_bind; [apply _|auto with frame|intros [? missing]].
  case_decide; [frames|].
  apply steps_bind; [apply _| |intros _].
  - apply steps_for_each; [apply _|]. intros idx Hin. frames.
    rewrite Forall_forall in Hg. apply evolves_create; [by apply Hg|].
    apply elem_of_list_to_set, list_elem_of_fmap. by exists idx.
  - apply steps_bind; [apply _|auto with frame|intros [??]]. case_decide; frames.
Qed.

Lemma evolves_check group down up : steps (evolves down up) (checkIndicesNeedRecreation group).
Proof.
  unfold checkIndicesNeedRecreation. apply evolves_withIndexConnection.
  apply steps_bind; [apply _|auto with frame|intros [??]]. frames.
Qed.

(** No index of the group is missing. *)
Definition complete group w : Prop := indexNames group ⊆ ix_indices w.

Lemma getIndicesStatus_complete group w existing missing w' :
  getIndicesStatus (flattenIndices group) w = (Ok (existing, missing), w') →
  length missing = 0%nat → complete group w'.
Proof.
  intros Hs Hm. pose proof (looks_getIndicesStatus (flattenIndices group) w) as (_&Hi&_).
  rewrite Hs in Hi. simpl in Hi. unfold complete. rewrite Hi.
  apply getIndicesStatus_spec in Hs as [_ ->]. apply nil_length_inv in Hm.
  intros name Hname%elem_of_list_to_set. destruct (decide (name ∈ ix_indices w)); [done|].
  assert (name ∈ []) as []%not_elem_of_nil. rewrite <- Hm. by apply list_elem_of_filter.
Qed.

Lemma check_complete group w w' :
  checkIndicesNeedRecreation group w = (Ok false, w') → complete group w'.
Proof.
  unfold checkIndicesNeedRecreation, withIndexConnection.
  intros (? & w1 & _ & (? & w2 & _ & (? & w3 & _ & (p & w4 & Hs & Hr)%bind_inv)%bind_inv)%bind_inv)%bind_inv.
  destruct p as [existing missing]. injection Hr as Hm <-.
  apply bool_decide_eq_false in Hm. eapply getIndicesStatus_complete; [done|lia].
Qed.

(** It returns only when the group is complete. *)
Lemma recreateIndices_complete group w w' :
  recreateIndices group w = (Ok tt, w') → complete group w'.
Proof.
  unfold recreateIndices, withIndexConnection.
  intros (? & w1 & _ & (? & w2 & _ & (? & w3 & _ & (p & w4 & Hs & Hr)%bind_inv)%bind_inv)%bind_inv)%bind_inv.
  destruct p as [existing missing]. case_decide as Hm.
  { injection Hr as <-. by eapply getIndicesStatus_complete. }
  apply bind_inv in Hr as (? & w5 & _ & (p & w6 & Hs' & Hr)%bind_inv).
  destruct p as [existing' missing']. case_decide; [done|]. injection Hr as <-.
  eapply getIndicesStatus_complete; [done|lia].
Qed.
End operations.

(** ** When the database carries its statements out *)

(** Every statement from the [k]-th on is carried out. *)
Definition reliable_from `{Postgres} (k : nat) : Prop := ∀ n, (k ≤ n)%nat →
  pg_connect n = Ok tt ∧
  (∀ name indices e, pg_indexExists n name indices ≠ Throw e) ∧
  (∀ statement indices e, (pg_query n statement indices).1 ≠ Throw e).

Section reliable.
Context `{PostgresLaws} (k : nat) (Hk : reliable_from k).
Implicit Types (w : IndexWorld) (group : IndexGroup) (idx : ManagedIndex).

Lemma reliable_indexExists name w :
  (k ≤ ix_sent w)%nat →
  indexExists name w = (Ok (bool_decide (name ∈ ix_indices w)), w <| ix_sent ::= S |>).
Proof.
  intros Hw. destruct (indexExists_run name w) as (r & Hr & [->|[e ->]]); [done|].
  destruct (Hk (ix_sent w)) as (_ & He & _); [done|].
  exfalso. apply (He name (ix_indices w) e). by injection Hr.
Qed.

Lemma reliable_getIndicesStatus l w :
  (k ≤ ix_sent w)%nat → ∃ w', getIndicesStatus l w =
    (Ok (filter (.∈ ix_indices w) (mi_name <$> l), filter (.∉ ix_indices w) (mi_name <$> l)), w').
Proof.
  intros Hw. enough (∃ p, (getIndicesStatus l w).1 = Ok p) as [[ex mi] Hp].
  { destruct (getIndicesStatus l w) as [r w'] eqn:E. simpl in Hp. subst r.
    destruct (getIndicesStatus_spec _ _ _ _ _ E) as [-> ->]. by exists w'. }
  revert w Hw. induction l as [|idx l IH]; intros w Hw; simpl; [by eexists|].
  rewrite (bind_ok _ _ _ _ _ (reliable_indexExists (mi_name idx) w Hw)).
  destruct (IH (w <| ix_sent ::= S |>)) as [[ex mi] Hp]; [simpl; lia|].
  unfold mbind, M_bind. destruct (getIndicesStatus l _) as [r w'] eqn:E. simpl in Hp. subst r.
  by eexists.
Qed.

(** One turn of the loop that creates the missing indices. *)
Lemma reliable_create idx w :
  creatable idx → (k ≤ ix_sent w)%nat →
  let m := catch (exists_ ← indexExists (mi_name idx);
                  when (negb exists_) (query (createStatement idx))) (λ _, mret tt) in
  ∃ w', m w = (Ok tt, w') ∧ (k ≤ ix_sent w')%nat ∧ {[mi_name idx]} ∪ ix_indices w ⊆ ix_indices w'.
Proof.
  intros (Hq & table & columns & Hc) Hw m. unfold m, catch.
  rewrite (bind_ok _ _ _ _ _ (reliable_indexExists (mi_name idx) w Hw)).
  case_bool_decide as Hin; simpl.
  { eexists. split_and!; [done|simpl; lia|simpl; set_solver]. }
  unfold query. rewrite Hc. simpl.
  destruct (create_law (S (ix_sent w)) _ table columns (ix_indices w) Hq) as [E|[e E]].
  - rewrite E. eexists. split_and!; [done|simpl; lia|done].
  - destruct (Hk (S (ix_sent w))) as (_ & _ & Hs); [lia|].
    exfalso. apply (Hs (createIfNotExists (mi_name idx) table columns) (ix_indices w) e).
    by rewrite E.
Qed.

Lemma reliable_create_all l w :
  Forall creatable l → (k ≤ ix_sent w)%nat →
  ∃ w', for_each l (λ idx, catch (exists_ ← indexExists (mi_name idx);
          when (negb exists_) (query (createStatement idx))) (λ _, mret tt)) w = (Ok tt, w') ∧
    (k ≤ ix_sent w')%nat ∧ list_to_set (mi_name <$> l) ∪ ix_indices w ⊆ ix_indices w'.
Proof.
  intros Hl. revert w. induction Hl as [|idx l Hidx Hl IH]; intros w Hw; simpl.
  { exists w. split_and!; [done|done|set_solver]. }
  destruct (reliable_create idx w Hidx Hw) as (w1 & E & Hw1 & Hi).
  rewrite (bind_ok _ _ _ _ _ E). destruct (IH w1 Hw1) as (w2 & -> & Hw2 & Hi2).
  exists w2. split_and!; [done|done|set_solver].
Qed.

Lemma reliable_connection {A} (fn : M IndexWorld A) w :
  (k ≤ ix_sent w)%nat → withIndexConnection fn w = fn (w <| ix_sent ::= S |>).
Proof.
  intros Hw. unfold withIndexConnection, mbind, M_bind, gets, modify, lift.
  by destruct (Hk _ Hw) as (-> & _).
Qed.

Lemma reliable_recreate group w :
  Forall creatable (flattenIndices group) → (k ≤ ix_sent w)%nat →
  ∃ w', recreateIndices group w = (Ok tt, w').
Proof.
  intros Hg Hw. unfold recreateIndices. rewrite (reliable_connection _ w Hw).
  set (w1 := w <| ix_sent ::= S |>). assert (k ≤ ix_sent w1)%nat as Hw1 by (simpl; lia).
  destruct (reliable_getIndicesStatus (flattenIndices group) w1 Hw1) as [w2 E].
  pose proof (looks_getIndicesStatus (flattenIndices group) w1) as (_&_&Hw2). rewrite E in Hw2.
  rewrite (bind_ok _ _ _ _ _ E). case_decide; [by eexists|].
  destruct (reliable_create_all (flattenIndices group) w2 Hg) as (w3 & E3 & Hw3 & Hi).
  { simpl in Hw2. lia. }
  rewrite (bind_ok _ _ _ _ _ E3).
  destruct (reliable_getIndicesStatus (flattenIndices group) w3 Hw3) as [w4 E4].
  rewrite (bind_ok _ _ _ _ _ E4). case_decide as Hm; [|by eexists].
  exfalso. destruct (filter (.∉ ix_indices w3) _) as [|name rest] eqn:F; [simpl in Hm; lia|].
  assert (name ∈ filter (.∉ ix_indices w3) (mi_name <$> flattenIndices group)) as Hin
    by (rewrite F; left).
  apply list_elem_of_filter in Hin as [Hout Hin]. apply Hout, Hi.
  apply elem_of_union_l, elem_of_list_to_set, Hin.
Qed.
End reliable.

(** ** The bulk index mode *)

Section bulk.
Context `{PostgresLaws} (group : IndexGroup) (base : gset string).
Context (Hgroup : Forall creatable (flattenIndices group)).
Implicit Types (w : IndexWorld).

(** The indices there were, less those that may be dropped; never others; and
    the attempts are bounded. *)
Definition kept w : Prop :=
  base ∖ droppedNames group ⊆ ix_indices w ∧ ix_indices w ⊆ base ∪ indexNames group ∧
  0 ≤ indexRecreateAttempts (ix_mode w) ≤ MAX_INDEX_RECREATE_ATTEMPTS.

(** From the first batch on: once the module takes the indices for recreated,
    none is missing. *)
Definition mode_right w : Prop :=
  kept w ∧ (indicesRecreated (ix_mode w) = true → complete group w) ∧
  bulkModeInitialized (ix_mode w) = true.

(** While it does not. *)
Definition pending w : Prop :=
  kept w ∧ bulkModeInitialized (ix_mode w) = true ∧ indicesRecreated (ix_mode w) = false.

Lemma pending_right w : pending w → mode_right w.
Proof. intros (Hk & Hi & Hr). split_and!; [done|congruence|done]. Qed.

Lemma pending_evolves {A} (m : M IndexWorld A) :
  steps (evolves (droppedNames group) (indexNames group)) m → maintains pending m (λ _, True).
Proof.
  intros Hm w [(Hd & Hu & Ha) Hr]. destruct (Hm w) as (Hmode & Hd' & Hu' & _).
  split; [|done]. unfold pending, kept. rewrite Hmode. split_and!; (apply Ha || apply Hr || set_solver).
Qed.

Lemma pending_drop : maintains pending (dropIndicesForBulkLoad group) (λ _, True).
Proof. by apply pending_evolves, evolves_dropIndices. Qed.

Lemma pending_recreate : maintains pending (recreateIndices group) (λ _, True).
Proof. by apply pending_evolves, evolves_recreate. Qed.

Lemma pending_check : maintains pending (checkIndicesNeedRecreation group) (λ _, True).
Proof. apply pending_evolves, evolves_check. Qed.

(** What leaves the group complete may be followed by the latch. *)
Lemma latch_right {A} (m : M IndexWorld A) w :
  maintains pending m (λ _, True) → (∀ a w', m w = (Ok a, w') → complete group w') →
  pending w →
  mode_right ((_ ← m; modify (set ix_mode (set indicesRecreated (λ _, true)))) w).2.
Proof.
  intros Hm Hc Hw. destruct (Hm w Hw) as [Hp _]. unfold mbind, M_bind.
  destruct (m w) as [[a|e] w'] eqn:E; simpl in *; [|by apply pending_right].
  destruct Hp as (Hk & Hi & _). split_and!; [exact Hk| |exact Hi].
  intros _. exact (Hc a w' eq_refl).
Qed.

Lemma catch_swallow (m : M IndexWorld unit) w :
  catch m (λ _, mret tt) w = (Ok tt, (m w).2).
Proof. unfold catch. by destruct (m w) as [[[]|e] w']. Qed.

Lemma recreate_latch w : pending w →
  mode_right ((_ ← recreateIndices group;
               modify (set ix_mode (set indicesRecreated (λ _, true)))) w).2.
Proof.
  intros Hw. apply latch_right; [apply pending_recreate| |done].
  intros [] w' Hr. by eapply recreateIndices_complete.
Qed.

Lemma initBulkMode_right initialBlock currentBlock isHead w :
  kept w → indicesRecreated (ix_mode w) = false →
  let r := initBulkMode group initialBlock currentBlock isHead w in
  r.1 = Ok tt ∧ mode_right r.2.
Proof.
  intros Hk Hr. unfold initBulkMode.
  rewrite (bind_ok (modify _) _ w tt (set ix_mode (set bulkModeInitialized (λ _, true)) w) eq_refl).
  set (w0 := set ix_mode _ w). assert (pending w0) as Hw0 by (split_and!; done).
  rewrite catch_swallow. cbv zeta. simpl fst. simpl snd. split; [done|].
  destruct (pending_check w0 Hw0) as [Hp _]. unfold mbind at 1, M_bind.
  destruct (checkIndicesNeedRecreation group w0) as [[needed|e] w1] eqn:E;
    simpl in Hp; [|by apply pending_right].
  rewrite (bind_ok (modify _) _ w1 tt (set ix_mode (set indicesNeedRecreation (λ _, needed)) w1) eq_refl).
  set (w2 := set ix_mode _ w1). assert (pending w2) as Hw2 by exact Hp.
  destruct (isFreshSync currentBlock initialBlock); [|destruct needed; simpl negb; cbv iota].
  - apply pending_right.
    apply (maintains_bind pending _ _ (λ _, True) (λ _, True) pending_drop); [|exact Hw2].
    intros _ _. by apply maintains_modify.
  - destruct isHead; [by apply recreate_latch|by apply pending_right].
  - destruct Hp as (Hk' & Hi & _). split_and!; [exact Hk'| |exact Hi].
    intros _. exact (check_complete _ _ _ E).
Qed.

Lemma recreateAtHead_right isHead w :
  mode_right w → let r := recreateAtHead group isHead w in r.1 = Ok tt ∧ mode_right r.2.
Proof.
  intros Hw. unfold recreateAtHead. rewrite (bind_ok (gets ix_mode) _ w (ix_mode w) w eq_refl).
  destruct (indicesRecreated (ix_mode w)) eqn:Hr; [done|].
  destruct isHead; [|done]. case_bool_decide as Ha; [|done]. simpl.
  rewrite (bind_ok (modify _) _ w tt (set ix_mode (set indexRecreateAttempts Z.succ) w) eq_refl).
  set (w1 := set ix_mode _ w). rewrite catch_swallow. split; [done|].
  apply recreate_latch. destruct Hw as ((Hd & Hu & Ha') & _ & Hi).
  split; [|by split]. split; [exact Hd|]. split; [exact Hu|]. simpl. lia.
Qed.

(** From any state of the module: before its first batch, or after. *)
Definition started w : Prop :=
  mode_right w ∨
  (kept w ∧ bulkModeInitialized (ix_mode w) = false ∧ indicesRecreated (ix_mode w) = false).

Lemma manageIndices_right initialBlock batch w :
  started w → let r := manageIndices true group initialBlock batch w in
  r.1 = Ok tt ∧ mode_right r.2.
Proof.
  intros Hw. unfold manageIndices. destruct batch as [currentBlock isHead].
  rewrite (bind_ok (gets ix_mode) _ w (ix_mode w) w eq_refl). simpl andb.
  destruct (bulkModeInitialized (ix_mode w)) eqn:Hi.
  - destruct Hw as [Hw|(_&?&_)]; [|congruence]. simpl. rewrite (bind_ok (mret tt) _ w tt w eq_refl).
    by apply recreateAtHead_right.
  - destruct Hw as [(_&_&?)|(Hk & _ & Hr)]; [congruence|]. simpl when.
    destruct (initBulkMode_right initialBlock currentBlock isHead w Hk Hr) as [H1 H2].
    destruct (initBulkMode _ _ _ _ w) as [r w1] eqn:E. simpl in H1, H2. subst r.
    rewrite (bind_ok _ _ _ _ _ E). by apply recreateAtHead_right.
Qed.

Lemma batches_right initialBlock batches w :
  started w → let r := for_each batches (manageIndices true group initialBlock) w in
  r.1 = Ok tt ∧ started r.2.
Proof.
  revert w. induction batches as [|batch batches IH]; intros w Hw; [by split|].
  simpl for_each. destruct (manageIndices_right initialBlock batch w Hw) as [H1 H2].
  destruct (manageIndices _ _ _ _ w) as [r w1] eqn:E. simpl in H1, H2. subst r.
  rewrite (bind_ok _ _ _ _ _ E). apply IH. by left.
Qed.
(** ** A batch at the head of the chain *)

(** The attempts at the head stay, and statements are only added. *)
Definition attempts_kept (w w' : IndexWorld) : Prop :=
  indexRecreateAttempts (ix_mode w') = indexRecreateAttempts (ix_mode w) ∧
  (ix_sent w ≤ ix_sent w')%nat.

#[export] Instance attempts_kept_preorder : PreOrder attempts_kept.
Proof. split; [done|]. intros w1 w2 w3 [??] [??]. split; [congruence|lia]. Qed.

Lemma evolves_attempts {A} down up (m : M IndexWorld A) :
  steps (evolves down up) m → steps attempts_kept m.
Proof. intros Hm w. destruct (Hm w) as (E & _ & _ & ?). split; [by rewrite E|done]. Qed.

Lemma initBulkMode_attempts initialBlock currentBlock isHead :
  steps attempts_kept (initBulkMode group initialBlock currentBlock isHead).
Proof.
  pose proof (evolves_attempts _ _ _ (evolves_recreate group ∅ Hgroup)).
  pose proof (evolves_attempts _ _ _ (evolves_dropIndices group ∅ Hgroup)).
  pose proof (evolves_attempts _ _ _ (evolves_check group ∅ ∅)).
  unfold initBulkMode. frames; by apply steps_modify.
Qed.

Lemma recreateAtHead_complete w :
  mode_right w → indexRecreateAttempts (ix_mode w) < MAX_INDEX_RECREATE_ATTEMPTS →
  reliable_from (ix_sent w) → complete group (recreateAtHead group true w).2.
Proof.
  intros (_ & Hc & _) Ha Hrel. unfold recreateAtHead.
  rewrite (bind_ok (gets ix_mode) _ w (ix_mode w) w eq_refl).
  destruct (indicesRecreated (ix_mode w)); [by apply Hc|].
  rewrite bool_decide_true by done. simpl.
  rewrite (bind_ok (modify _) _ w tt (set ix_mode (set indexRecreateAttempts Z.succ) w) eq_refl).
  set (w1 := set ix_mode _ w). rewrite catch_swallow. simpl snd.
  destruct (reliable_recreate _ Hrel group w1 Hgroup) as [w2 E]; [simpl; lia|].
  rewrite (bind_ok _ _ _ _ _ E). exact (recreateIndices_complete _ _ _ E).
Qed.

Lemma head_batch_complete initialBlock currentBlock w :
  started w → indexRecreateAttempts (ix_mode w) < MAX_INDEX_RECREATE_ATTEMPTS →
  reliable_from (ix_sent w) →
  complete group (manageIndices true group initialBlock (currentBlock, true) w).2.
Proof.
  intros Hw Ha Hrel. unfold manageIndices.
  rewrite (bind_ok (gets ix_mode) _ w (ix_mode w) w eq_refl). simpl andb.
  destruct (bulkModeInitialized (ix_mode w)) eqn:Hi.
  - destruct Hw as [Hw|(_&?&_)]; [|congruence]. simpl.
    rewrite (bind_ok (mret tt) _ w tt w eq_refl). by apply recreateAtHead_complete.
  - destruct Hw as [(_&_&?)|(Hk & _ & Hr)]; [congruence|]. simpl when.
    destruct (initBulkMode_right initialBlock currentBlock true w Hk Hr) as [H1 H2].
    destruct (initBulkMode_attempts initialBlock currentBlock true w) as [Ha' Hs].
    destruct (initBulkMode _ _ _ _ w) as [r w1] eqn:E. simpl in *. subst r.
    rewrite (bind_ok _ _ _ _ _ E). apply recreateAtHead_complete; [done|lia|].
    intros n Hn. apply Hrel. lia.
Qed.
End bulk.

(** ** How many statements are sent *)

Section costs.
Context `{Postgres} (group : IndexGroup).
Implicit Types (w : IndexWorld).

(** A part that sends so many statements at most, connections among them. *)
Definition costs (n : nat) {A} (m : M IndexWorld A) : Prop :=
  ∀ w, (ix_sent (m w).2 ≤ ix_sent w + n)%nat.

Lemma costs_le {A} n n' (m : M IndexWorld A) : (n ≤ n')%nat → costs n m → costs n' m.
Proof. intros Hn Hm w. specialize (Hm w). lia. Qed.

Lemma costs_ret {A} (a : A) : costs 0 (mret a).
Proof. intros w. simpl. lia. Qed.

Lemma costs_throw {A} e : costs 0 (throw e : M IndexWorld A).
Proof. intros w. simpl. lia. Qed.

Lemma costs_mode f : costs 0 (modify (set ix_mode f)).
Proof. intros w. simpl. lia. Qed.

Lemma costs_bind {A B} n1 n2 (m : M IndexWorld A) (k : A → M IndexWorld B) :
  costs n1 m → (∀ a, costs n2 (k a)) → costs (n1 + n2) (m ≫= k).
Proof.
  intros Hm Hk w. unfold mbind, M_bind. specialize (Hm w).
  destruct (m w) as [[a|e] w']; simpl in *; [|lia]. specialize (Hk a w'). lia.
Qed.

Lemma costs_catch n (m : M IndexWorld unit) : costs n m → costs n (catch m (λ _, mret tt)).
Proof. intros Hm w. rewrite catch_swallow. apply Hm. Qed.

Lemma costs_when n b (m : M IndexWorld unit) : costs n m → costs n (when b m).
Proof. intros Hm w. destruct b; [apply Hm|]. simpl. lia. Qed.

Lemma costs_for_each {A} n (l : list A) f :
  (∀ x, costs n (f x)) → costs (length l * n) (for_each l f).
Proof.
  intros Hf. induction l as [|x l IH]; [apply costs_ret|].
  exact (costs_bind n (length l * n) _ _ (Hf x) (λ _, IH)).
Qed.

Lemma costs_indexExists name : costs 1 (indexExists name).
Proof. intros w. simpl. lia. Qed.

Lemma costs_query statement : costs 1 (query statement).
Proof. intros w. unfold query. destruct (pg_query _ _ _). simpl. lia. Qed.

Lemma costs_status l : costs (length l) (getIndicesStatus l).
Proof.
  induction l as [|idx l IH]; [apply costs_ret|]. simpl.
  apply (costs_bind 1); [apply costs_indexExists|]. intros ?.
  rewrite <- (Nat.add_0_r (length l)). apply costs_bind; [done|]. intros [??]. apply costs_ret.
Qed.

Lemma costs_connection {A} n (m : M IndexWorld A) : costs n m → costs (1 + n) (withIndexConnection m).
Proof.
  intros Hm w. unfold withIndexConnection, mbind, M_bind, gets, modify, lift.
  destruct (pg_connect _); simpl; [|lia]. specialize (Hm (w <| ix_sent ::= S |>)). simpl in Hm. lia.
Qed.

(** A look at one index and what is done about it. *)
Lemma costs_one (f : bool → bool) name statement :
  costs 2 (catch (exists_ ← indexExists name; when (f exists_) (query statement)) (λ _, mret tt)).
Proof.
  apply costs_catch, (costs_bind 1 1); [apply costs_indexExists|].
  intros b. apply costs_when, costs_query.
Qed.

(** A pass over the indices: a connection, a look at all, two statements for each, and
    a last look. *)
Definition passCost : nat := 1 + 4 * length (flattenIndices group).
Definition lookCost : nat := 1 + length (flattenIndices group).

Lemma costs_check : costs lookCost (checkIndicesNeedRecreation group).
Proof.
  apply costs_connection. rewrite <- (Nat.add_0_r (length _)).
  apply costs_bind; [apply costs_status|]. intros [??]. apply costs_ret.
Qed.

Lemma costs_recreate : costs passCost (recreateIndices group).
Proof.
  set (n := length (flattenIndices group)). apply costs_connection.
  apply (costs_le (n + (n * 2 + (n + 0)))); [fold n; lia|].
  apply costs_bind; [apply costs_status|]. intros [_ missing].
  case_decide; [apply (costs_le 0); [lia|apply costs_ret]|].
  apply costs_bind; [apply costs_for_each; intros idx; apply (costs_one negb)|]. intros _.
  apply costs_bind; [apply costs_status|]. intros [_ missing'].
  case_decide; [apply costs_throw|apply costs_ret].
Qed.

Lemma costs_drop : costs passCost (dropIndicesForBulkLoad group).
Proof.
  unfold dropIndicesForBulkLoad. cbv zeta. set (l := filter _ _). apply costs_connection.
  assert (length l ≤ length (flattenIndices group))%nat by apply length_filter.
  apply (costs_le (length l + length l * 2)); [lia|].
  apply costs_bind; [apply costs_status|]. intros [existing _].
  case_decide; [apply (costs_le 0); [lia|apply costs_ret]|].
  apply costs_for_each. intros idx. apply (costs_one (λ b, b)).
Qed.

Lemma costs_latch n (m : M IndexWorld unit) (f : BulkMode → BulkMode) :
  costs n m → costs n (_ ← m; modify (set ix_mode f)).
Proof.
  intros Hm. rewrite <- (Nat.add_0_r n). apply costs_bind; [done|]. intros _. apply costs_mode.
Qed.

Lemma costs_init initialBlock currentBlock isHead :
  costs (lookCost + passCost) (initBulkMode group initialBlock currentBlock isHead).
Proof.
  unfold initBulkMode. apply (costs_bind 0); [apply costs_mode|]. intros _. apply costs_catch.
  cbv zeta. apply (costs_bind lookCost passCost); [apply costs_check|]. intros needed.
  apply (costs_bind 0); [apply costs_mode|]. intros _.
  destruct (isFreshSync _ _); [apply costs_latch, costs_drop|].
  destruct (negb needed); [apply (costs_le 0), costs_mode; lia|].
  destruct isHead; [apply costs_latch, costs_recreate|apply (costs_le 0), costs_ret; lia].
Qed.
End costs.

Section giving_up.
Context `{PostgresLaws} (group : IndexGroup) (Hgroup : Forall creatable (flattenIndices group)).

(** What was sent, and what the passes still to come may send. *)
Definition spent (w : IndexWorld) : nat :=
  ix_sent w +
  Z.to_nat (MAX_INDEX_RECREATE_ATTEMPTS - indexRecreateAttempts (ix_mode w)) * passCost group.

Lemma recreateAtHead_spent isHead w : (spent (recreateAtHead group isHead w).2 ≤ spent w)%nat.
Proof using All.
  unfold recreateAtHead. rewrite (bind_ok (gets ix_mode) _ w (ix_mode w) w eq_refl).
  destruct (negb _ && isHead); [|done]. case_bool_decide as Ha; [|done]. simpl when.
  rewrite (bind_ok (modify _) _ w tt (set ix_mode (set indexRecreateAttempts Z.succ) w) eq_refl).
  set (w1 := set ix_mode _ w). rewrite catch_swallow. simpl snd.
  set (m := _ ← recreateIndices group; _).
  assert (costs (passCost group) m) as Hc by apply costs_latch, costs_recreate.
  assert (steps attempts_kept m) as Hk.
  { pose proof (evolves_attempts _ _ _ (evolves_recreate group ∅ Hgroup)).
    unfold m. frames. by apply steps_modify. }
  specialize (Hc w1). destruct (Hk w1) as [Hk1 _]. unfold spent. rewrite Hk1.
  unfold w1 in *. simpl in *.
  replace (Z.to_nat (MAX_INDEX_RECREATE_ATTEMPTS - indexRecreateAttempts (ix_mode w)))
    with (S (Z.to_nat (MAX_INDEX_RECREATE_ATTEMPTS - Z.succ (indexRecreateAttempts (ix_mode w)))))
    by lia.
  rewrite Nat.mul_succ_l. set (rest := (_ * passCost group)%nat). lia.
Qed.

Lemma batches_spent base initialBlock batches w : started group base w →
  let r := for_each batches (manageIndices true group initialBlock) w in
  (spent r.2 ≤ spent w + (if bulkModeInitialized (ix_mode w) then 0
                          else lookCost group + passCost group))%nat.
Proof using All.
  revert w. induction batches as [|[currentBlock isHead] batches IH]; intros w Hw; [simpl; lia|].
  simpl for_each. destruct (manageIndices_right group base Hgroup initialBlock (currentBlock, isHead) w Hw)
    as [H1 H2].
  assert (spent (manageIndices true group initialBlock (currentBlock, isHead) w).2 ≤
    spent w + (if bulkModeInitialized (ix_mode w) then 0 else lookCost group + passCost group))%nat
    as Hone.
  { unfold manageIndices. rewrite (bind_ok (gets ix_mode) _ w (ix_mode w) w eq_refl). simpl andb.
    destruct (bulkModeInitialized (ix_mode w)) eqn:Hi.
    - simpl. rewrite (bind_ok (mret tt) _ w tt w eq_refl). rewrite Nat.add_0_r.
      apply recreateAtHead_spent.
    - simpl when. destruct Hw as [(_&_&?)|(Hk & _ & Hr)]; [congruence|].
      destruct (initBulkMode_right group base Hgroup initialBlock currentBlock isHead w Hk Hr) as [E _].
      destruct (initBulkMode_attempts group Hgroup initialBlock currentBlock isHead w) as [Ha _].
      pose proof (costs_init group initialBlock currentBlock isHead w) as Hc.
      destruct (initBulkMode _ _ _ _ w) as [r w1] eqn:E1. simpl in *. subst r.
      rewrite (bind_ok _ _ _ _ _ E1). etransitivity; [apply recreateAtHead_spent|].
      unfold spent. rewrite Ha. lia. }
  destruct (manageIndices _ _ _ _ w) as [r w1] eqn:E. simpl in H1, H2, Hone. subst r.
  rewrite (bind_ok _ _ _ _ _ E). pose proof (IH w1 (or_introl H2)) as Hrest.
  destruct H2 as (_ & _ & Hinit). rewrite Hinit, Nat.add_0_r in Hrest.
  etransitivity; [exact Hrest|exact Hone].
Qed.
End giving_up.

(** The schema of a squid that starts: the module is new. *)
Definition startIndexWorld (base : gset string) : IndexWorld := mkIndexWorld newBulkMode base 0.

Lemma startIndexWorld_started group base : started group base (startIndexWorld base).
Proof.
  right. split; [|by split]. split; [simpl; set_solver|]. split; [simpl; set_solver|].
  simpl. unfold MAX_INDEX_RECREATE_ATTEMPTS. lia.
Qed.

(** C36.  Whatever statements fail, the bulk index mode raises nothing; it drops
    only indices of its group that are not to be kept, creates only indices of
    its group, and takes the indices for recreated only when all of them exist.  And
    it gives up: over all the batches of a process, however many, it sends no more than
    one look at the indices and six passes over them send, the pass of the first batch
    and five at the head of the chain. *)
Theorem manageIndices_safe `{PostgresLaws} group base initialBlock batches :
  Forall creatable (flattenIndices group) →
  let r := for_each batches (manageIndices true group initialBlock) (startIndexWorld base) in
  let n := length (flattenIndices group) in
  r.1 = Ok tt ∧
  base ∖ droppedNames group ⊆ ix_indices r.2 ∧ ix_indices r.2 ⊆ base ∪ indexNames group ∧
  (indicesRecreated (ix_mode r.2) = true → indexNames group ⊆ ix_indices r.2) ∧
  (ix_sent r.2 ≤ (1 + n) + 6 * (1 + 4 * n))%nat.
Proof.
  intros Hg r n. pose proof (startIndexWorld_started group base) as Hstart.
  destruct (batches_right group base Hg initialBlock batches _ Hstart) as [Hr Hs].
  pose proof (batches_spent group Hg base initialBlock batches _ Hstart) as Hspent.
  fold r in Hr, Hs, Hspent. split; [done|].
  assert (ix_sent r.2 ≤ (1 + n) + 6 * (1 + 4 * n))%nat as Hsent.
  { assert (ix_sent r.2 ≤ spent group r.2)%nat as Hle by apply Nat.le_add_r.
    change (spent group (startIndexWorld base)) with (0 + 5 * passCost group)%nat in Hspent.
    change (bulkModeInitialized _) with false in Hspent.
    unfold passCost, lookCost in Hspent. fold n in Hspent. lia. }
  destruct Hs as [((?&?&?&?) & ? & _)|((?&?&?&?) & _ & ?)].
  - by split_and!.
  - split_and!; [done..|congruence|done].
Qed.

(** However the statements of the batches before failed, a batch at the
    head of the chain leaves no index of the group missing, if the database now
    carries the statements out and fewer than five attempts were made. *)
Theorem manageIndices_live `{PostgresLaws} group base initialBlock batches currentBlock :
  Forall creatable (flattenIndices group) →
  let w := (for_each batches (manageIndices true group initialBlock) (startIndexWorld base)).2 in
  indexRecreateAttempts (ix_mode w) < MAX_INDEX_RECREATE_ATTEMPTS →
  reliable_from (ix_sent w) →
  indexNames group ⊆
    ix_indices (manageIndices true group initialBlock (currentBlock, true) w).2.
Proof.
  intros Hg w Ha Hrel. apply (head_batch_complete group base Hg); [|done..].
  apply (batches_right group base Hg), startIndexWorld_started.
Qed.

(** ** A database *)

(** A database that fails the statements [fails] tells and reads the name of an
    index between the first two quotes. *)
Module IndexSamples.
Section postgres.
Context (fails : nat → bool).

Definition named (statement : string) : string :=
  default "" (JsString.split doubleQuote statement !! 1%nat).

#[export] Instance postgres : Postgres := {|
  pg_connect n := if fails n then Throw RpcError else Ok tt;
  pg_indexExists n name indices :=
    if fails n then Throw RpcError else Ok (bool_decide (name ∈ indices));
  pg_query n statement indices :=
    if fails n then (Throw RpcError, indices)
    else if startsWith "DROP" statement then (Ok tt, indices ∖ {[named statement]})
    else (Ok tt, {[named statement]} ∪ indices)
|}.

Lemma named_quoted pre name post :
  lacks doubleQuote pre → lacks doubleQuote name →
  named (pre +:+ String doubleQuote (name +:+ String doubleQuote post)) = name.
Proof. intros Hp Hn. unfold named. by rewrite !split_app. Qed.

Lemma quoted_app name post :
  quoted name +:+ post = String doubleQuote (name +:+ String doubleQuote post).
Proof. exact (f_equal (String doubleQuote) (string_app_assoc name (String doubleQuote "") post)). Qed.

#[export] Instance postgres_laws : PostgresLaws.
Proof.
  split; intros n name; simpl; destruct (fails n); intros; eauto; left.
  - unfold dropStatement, quoted. rewrite named_quoted by (done || decided). done.
  - unfold createIfNotExists. rewrite quoted_app, named_quoted by (done || decided). done.
Qed.

Lemma postgres_reliable k : (∀ n, (k ≤ n)%nat → fails n = false) → reliable_from k.
Proof.
  intros Hf n Hn. simpl. rewrite (Hf n Hn). split_and!; [done..|].
  intros statement indices e. by destruct (startsWith "DROP" statement).
Qed.
End postgres.

(** Some indices are not dropped, and the first attempt at the head leaves some
    missing. *)
Definition flaky (n : nat) : bool := bool_decide ((30 < n < 34)%nat ∨ (60 < n < 64)%nat).

Definition allNames : gset string := indexNames ETH_INDICES.

(** A new deployment: two batches far from the head, then one at the head. *)
Definition batches : list (Z * bool) :=
  [(4944642, false); (5000000, false); (21000000, true)].
End IndexSamples.

Section witnesses.
#[local] Instance db : Postgres := IndexSamples.postgres IndexSamples.flaky.
#[local] Instance db_laws : PostgresLaws := IndexSamples.postgres_laws IndexSamples.flaky.

Lemma manageIndices_safe_witness :
  let r := for_each IndexSamples.batches (manageIndices true ETH_INDICES 4944642)
             (startIndexWorld IndexSamples.allNames) in
  r.1 = Ok tt ∧ indicesRecreated (ix_mode r.2) = false ∧ size (ix_indices r.2) = 8%nat ∧
  IndexSamples.allNames ∖ droppedNames ETH_INDICES ⊆ ix_indices r.2.
Proof.
  destruct (manageIndices_safe ETH_INDICES IndexSamples.allNames 4944642 IndexSamples.batches
    eth_creatable) as (? & ? & _).
  split_and!; [done|vm_compute; reflexivity|vm_compute; reflexivity|done].
Defined.

Lemma manageIndices_live_witness :
  let w := (for_each IndexSamples.batches (manageIndices true ETH_INDICES 4944642)
              (startIndexWorld IndexSamples.allNames)).2 in
  indexRecreateAttempts (ix_mode w) = 1 ∧
  indexNames ETH_INDICES ⊆
    ix_indices (manageIndices true ETH_INDICES 4944642 (21000001, true) w).2.
Proof.
  split; [vm_compute; reflexivity|].
  apply (manageIndices_live ETH_INDICES IndexSamples.allNames 4944642 IndexSamples.batches).
  - exact eth_creatable.
  - vm_compute. reflexivity.
  - apply IndexSamples.postgres_reliable. intros n Hn.
    unfold IndexSamples.flaky. rewrite bool_decide_false; [done|].
    assert (64 < n)%nat; [|lia]. eapply Nat.lt_le_trans; [|exact Hn]. apply Nat.ltb_lt.
    vm_compute. reflexivity.
Defined.
End witnesses.
