(* ===== verification/HeadNotification.v ===== *)
(** * Reaching the head of the chain

    [common/utils/head-notification.ts]: the table of the indexer that says when
    it began to index a chain and when it reached the head, and the one alert
    about the latter.  Several processes of one indexer may run at once, statement by
    statement, and each may stop at any moment: the table outlives them.

    What TypeORM makes of the rows that an update returns is a parameter. *)

From stdpp Require Import relations.
From S2P Require Import Prelude JsString.
Import Awaits.
Open Scope string_scope.
Open Scope list_scope.
Open Scope Z_scope.

(** A row of the table [head_sync_status]; times in milliseconds. *)
Record StatusRow := mkStatusRow { started_at : Z; head_reached_at : option Z }.

(** [IndexerProcess], common/utils/head-notification.ts:49-63: what the module
    keeps, and whether Slack is configured in the environment. *)
Record IndexerProcess := mkIndexerProcess {
  tableEnsured : bool;
  startedThisProcess : gset string;
  headHandledThisProcess : gset string;
  slackConfigured : bool
}.
#[export] Instance eta_IndexerProcess : Eta IndexerProcess := λ r,
  mkIndexerProcess (tableEnsured r) (startedThisProcess r) (headHandledThisProcess r)
    (slackConfigured r).

(** [HeadMessage], common/utils/head-notification.ts:134-142: what the alert
    tells. *)
Record HeadMessage := mkHeadMessage {
  hm_chain : string;
  hm_headBlock : Z;
  hm_duration : string;
  hm_started : Z;
  hm_finished : Z
}.

(** [formatDuration], common/utils/head-notification.ts:84-94 *)
Definition formatDuration (ms : Z) : string :=
  let totalSeconds := Z.max 0 (ms `div` 1000) in
  let h := totalSeconds `div` 3600 in
  let m := (totalSeconds `mod` 3600) `div` 60 in
  let s := totalSeconds `mod` 60 in
  join " " ((if decide (h ≠ 0) then [pretty h +:+ "h"] else [])
            ++ (if decide (h ≠ 0 ∨ m ≠ 0) then [pretty m +:+ "m"] else [])
            ++ [pretty s +:+ "s"]).

(** ** What a process awaits *)

Inductive Command :=
  | Connect
  | Release
  | CreateTable
  | RecordStart (chain : string)
  | MarkHead (chain : string)
  | SendMessage (msg : HeadMessage).

(** An element of what a query returns, by the times in its two fields; [None] when it
    has no such fields. *)
Definition QueryRow : Type := option (Z * Z).

(** What a command gives, nothing but for the update, or its error. *)
Definition HeadReply : Type := list QueryRow + string.

Abbreviation HeadAct := (Act Command HeadReply IndexerProcess).

Definition await (c : Command) : HeadAct (list QueryRow) :=
  λ p, (p, Await c (λ r p, (p, match r with inl rows => Returned rows | inr e => Threw e end))).

Local Open Scope act_scope.

(** [withOwnConnection], common/utils/head-notification.ts:36-47 *)
Definition withOwnConnection {A} (fn : HeadAct A) : HeadAct A :=
  after_all (await Connect;; fn) (λ r,
    await Release;;
    match r with inl a => returns a | inr e => throws e end).

(** [ensureTable], common/utils/head-notification.ts:50-60 *)
Definition ensureTable : HeadAct unit :=
  reading (λ p,
    if tableEnsured p then returns tt
    else await CreateTable;; writing (set tableEnsured (λ _, true))).

(** [recordIndexingStart], common/utils/head-notification.ts:68-82 *)
Definition recordIndexingStart (chain : string) : HeadAct unit :=
  reading (λ p,
    if decide (chain ∈ startedThisProcess p) then returns tt
    else catching (
      withOwnConnection (ensureTable;; await (RecordStart chain));;
      writing (set startedThisProcess (union {[chain]})))
      (λ _, returns tt)).

(** [headMessage], common/utils/head-notification.ts:124-142: the alert, or the
    error of a date that is none. *)
Definition headMessage (chain : string) (headBlock : Z) (row : QueryRow) : HeadMessage + string :=
  match row with
  | Some (started, reached) => inl {|
      hm_chain := chain;
      hm_headBlock := headBlock;
      hm_duration := formatDuration (reached - started);
      hm_started := started;
      hm_finished := reached
    |}
  | None => inr "RangeError: Invalid time value"
  end.

(** [notifyHeadReachedOnce], common/utils/head-notification.ts:101-149 *)
Definition notifyHeadReachedOnce (chain : string) (headBlock : Z) : HeadAct unit :=
  reading (λ p,
    if decide (chain ∈ headHandledThisProcess p) then returns tt
    else catching (
      rows ← withOwnConnection (ensureTable;; await (MarkHead chain));
      writing (set headHandledThisProcess (union {[chain]}));;
      match rows with
      | [] => returns tt
      | row :: _ =>
          if slackConfigured p then
            match headMessage chain headBlock row with
            | inl msg => await (SendMessage msg);; returns tt
            | inr e => throws e
            end
          else returns tt
      end)
      (λ _, returns tt)).

(** [beginBatch], eth/main.ts:142-150 and polygon/main.ts:385-392 *)
Definition beginBatch (chain : string) (headBlock : option Z) : HeadAct unit :=
  recordIndexingStart chain;;
  match headBlock with
  | Some headBlock => notifyHeadReachedOnce chain headBlock
  | None => returns tt
  end.

(** ** The database and Slack *)

(** [runner.query] of an update: what it makes of the rows that the database returns. *)
Class UpdateResult := updateResult : list (Z * Z) → list QueryRow.

(** An element that has times is a row that was returned. *)
Class UpdateResultLaw `{UpdateResult} :=
  updateResult_row rows r l : updateResult rows = Some r :: l → ∃ rows', rows = r :: rows'.

(** As the source declares it: the rows. *)
Definition declaredResult : UpdateResult := λ rows, Some <$> rows.

(** A pair of the rows and their number: no element has times. *)
Definition countedResult : UpdateResult := λ _, [None; None].

#[export] Instance declaredResult_law : @UpdateResultLaw declaredResult.
Proof. intros [|r' rows] r l [= <- _]. by exists rows. Qed.

#[export] Instance countedResult_law : @UpdateResultLaw countedResult.
Proof. by intros rows r l. Qed.

Section services.
Context `{UpdateResult}.

(** The committed table, none before it is created, and the alerts posted. *)
Record Shared := mkShared { sh_table : option (gmap string StatusRow); sh_posted : list HeadMessage }.

(** [markHeadReached], common/utils/head-notification.ts:111-117: the update of
    the row that is not yet marked, and the rows it returns. *)
Definition markHeadReached (now : Z) (chain : string) (rows : gmap string StatusRow)
    : list (Z * Z) * gmap string StatusRow :=
  match rows !! chain with
  | Some (mkStatusRow started None) =>
      ([(started, now)], <[chain := mkStatusRow started (Some now)]> rows)
  | _ => ([], rows)
  end.

(** [recordStart], common/utils/head-notification.ts:73-76: the insertion of a row, if
    there is none. *)
Definition recordStart (now : Z) (chain : string) (rows : gmap string StatusRow)
    : gmap string StatusRow :=
  match rows !! chain with Some _ => rows | None => <[chain := mkStatusRow now None]> rows end.

(** A command carried out at a time. *)
Definition carryOut (now : Z) (c : Command) (s : Shared) : HeadReply * Shared :=
  match c with
  | Connect | Release => (inl [], s)
  | CreateTable => (inl [], mkShared (Some (default ∅ (sh_table s))) (sh_posted s))
  | RecordStart chain =>
      match sh_table s with
      | None => (inr "relation does not exist", s)
      | Some rows => (inl [], mkShared (Some (recordStart now chain rows)) (sh_posted s))
      end
  | MarkHead chain =>
      match sh_table s with
      | None => (inr "relation does not exist", s)
      | Some rows =>
          let '(returned, rows) := markHeadReached now chain rows in
          (inl (updateResult returned), mkShared (Some rows) (sh_posted s))
      end
  | SendMessage msg => (inl [], mkShared (sh_table s) (sh_posted s ++ [msg]))
  end.

(** A command is carried out; or it is, and its answer is lost; or it is not. *)
Inductive Fate := Done | AnswerLost | Refused.

Definition performed (fate : Fate) (now : Z) (c : Command) (s : Shared) : HeadReply * Shared :=
  match fate with
  | Done => carryOut now c s
  | AnswerLost => (inr "connection lost", (carryOut now c s).2)
  | Refused => (inr "refused", s)
  end.

(** ** The processes of an indexer *)

Definition newProcess (slack : bool) : IndexerProcess := mkIndexerProcess false ∅ ∅ slack.

(** A process: its module, and where its batch has got to. *)
Record Running := mkRunning {
  ru_process : IndexerProcess;
  ru_batch : Async Command HeadReply IndexerProcess unit
}.

Record Indexer := mkIndexer { ir_processes : gmap nat Running; ir_shared : Shared }.

Definition ended (t : Async Command HeadReply IndexerProcess unit) : bool :=
  match t with Await _ _ => false | _ => true end.

Definition starts (n : nat) (slack : bool) (i : Indexer) : Indexer :=
  mkIndexer (<[n := mkRunning (newProcess slack) (Returned tt)]> (ir_processes i)) (ir_shared i).

Definition begins (n : nat) (chain : string) (headBlock : option Z) (p : IndexerProcess)
    (i : Indexer) : Indexer :=
  let '(p, t) := beginBatch chain headBlock p in
  mkIndexer (<[n := mkRunning p t]> (ir_processes i)) (ir_shared i).

Definition proceeds (n : nat) (fate : Fate) (now : Z) (p : IndexerProcess) (c : Command)
    (next : HeadReply → IndexerProcess → IndexerProcess * Async Command HeadReply IndexerProcess unit)
    (i : Indexer) : Indexer :=
  let '(reply, s) := performed fate now c (ir_shared i) in
  let '(p, t) := next reply p in
  mkIndexer (<[n := mkRunning p t]> (ir_processes i)) s.

(** A process starts, for the first time or again, whatever it was doing; it begins a
    batch; or what it awaits happens, and it goes on to its next command. *)
Inductive indexer_step (i : Indexer) : Indexer → Prop :=
  | process_starts n slack : indexer_step i (starts n slack i)
  | batch_begins n p t chain headBlock :
      ir_processes i !! n = Some (mkRunning p t) → ended t = true →
      indexer_step i (begins n chain headBlock p i)
  | command_happens n p c next fate now :
      ir_processes i !! n = Some (mkRunning p (Await c next)) →
      indexer_step i (proceeds n fate now p c next i).

Definition newIndexer : Indexer := mkIndexer ∅ (mkShared None []).
End services.

(** ** What a batch may send *)

(** The right to tell of a chain: the times of the row that the process marked. *)
Record Grant := mkGrant { gr_chain : string; gr_started : Z; gr_finished : Z }.

(** The right that the answer to an update of a chain gives. *)
Definition grantOf (chain : string) (r : HeadReply) : option Grant :=
  match r with
  | inl (Some (started, reached) :: _) => Some (mkGrant chain started reached)
  | _ => None
  end.

(** An alert that uses a right. *)
Definition tells (msg : HeadMessage) (g : Grant) : Prop :=
  hm_chain msg = gr_chain g ∧ hm_started msg = gr_started g ∧ hm_finished msg = gr_finished g ∧
  hm_duration msg = formatDuration (gr_finished g - gr_started g).

(** Commands that have nothing to do with rights. *)
Definition plain (c : Command) : Prop :=
  match c with MarkHead _ | SendMessage _ => False | _ => True end.

(** Whatever a function is answered, it sends an alert only with the right that its
    last update gave, and once; and it ends as [Q] says, with the right that is left. *)
#[warnings="-register-all"]
Inductive leads {A} (Q : option Grant → A + string → Prop)
    : option Grant → Async Command HeadReply IndexerProcess A → Prop :=
  | leads_returned g a : Q g (inl a) → leads Q g (Returned a)
  | leads_threw g e : Q g (inr e) → leads Q g (Threw e)
  | leads_plain g c next :
      plain c → (∀ r p, leads Q g (next r p).2) → leads Q g (Await c next)
  | leads_mark g chain next :
      (∀ r p, leads Q (grantOf chain r) (next r p).2) → leads Q g (Await (MarkHead chain) next)
  | leads_send g msg next :
      tells msg g → (∀ r p, leads Q None (next r p).2) →
      leads Q (Some g) (Await (SendMessage msg) next).

Definition triple {A} (g : option Grant) (m : HeadAct A)
    (Q : option Grant → A + string → Prop) : Prop := ∀ p, leads Q g (m p).2.

Lemma triple_after_all {A B} g (m : HeadAct A) (f : A + string → HeadAct B) P Q :
  triple g m P → (∀ g' r, P g' r → triple g' (f r) Q) → triple g (after_all m f) Q.
Proof.
  intros Hm Hf p. specialize (Hm p). unfold after_all. destruct (m p) as [p' t]. simpl in Hm.
  revert p'. induction Hm as [g a HP|g e HP|g c next Hc _ IH|g chain next _ IH|g msg next Ht _ IH];
    intros p'; simpl; [by apply Hf..| | |]; [apply leads_plain; [done|]|apply leads_mark|
    apply leads_send; [done|]]; intros r p1; specialize (IH r p1); destruct (next r p1); apply IH.
Qed.

Lemma triple_bind {A B} g (m : HeadAct A) (k : A → HeadAct B) P Q :
  triple g m P → (∀ g' e, P g' (inr e) → Q g' (inr e)) →
  (∀ g' a, P g' (inl a) → triple g' (k a) Q) → triple g (bind m k) Q.
Proof.
  intros Hm He Hk. apply (triple_after_all _ _ _ P); [done|].
  intros g' [a|e] HP; [by apply Hk|]. intros p. by apply leads_threw, He.
Qed.

Lemma triple_catching {A} g (m : HeadAct A) f P Q :
  triple g m P → (∀ g' a, P g' (inl a) → Q g' (inl a)) →
  (∀ g' e, P g' (inr e) → triple g' (f e) Q) → triple g (catching m f) Q.
Proof.
  intros Hm Ha Hf. apply (triple_after_all _ _ _ P); [done|].
  intros g' [a|e] HP; [|by apply Hf]. intros p. by apply leads_returned, Ha.
Qed.

Lemma triple_returns {A} g (a : A) (Q : _ → _ → Prop) : Q g (inl a) → triple g (returns a) Q.
Proof. intros HQ p. by apply leads_returned. Qed.

Lemma triple_throws {A} g e (Q : _ → A + string → Prop) : Q g (inr e) → triple g (throws e) Q.
Proof. intros HQ p. by apply leads_threw. Qed.

Lemma triple_reading {A} g (f : IndexerProcess → HeadAct A) Q :
  (∀ p, triple g (f p) Q) → triple g (reading f) Q.
Proof. intros Hf p. apply Hf. Qed.

Lemma triple_writing g f (Q : _ → _ → Prop) : Q g (inl tt) → triple g (writing f) Q.
Proof. intros HQ p. by apply leads_returned. Qed.

Lemma triple_await g c (Q : _ → _ → Prop) :
  plain c → (∀ r, Q g r) → triple g (await c) Q.
Proof.
  intros Hc HQ p. apply leads_plain; [done|]. intros [rows|e] p'; [apply leads_returned|apply leads_threw];
    apply HQ.
Qed.

Lemma triple_mark g chain (Q : _ → _ → Prop) :
  (∀ r, Q (grantOf chain r) r) → triple g (await (MarkHead chain)) Q.
Proof.
  intros HQ p. apply leads_mark. intros [rows|e] p'; [apply leads_returned|apply leads_threw]; apply HQ.
Qed.

Lemma triple_send g msg (Q : _ → _ → Prop) :
  tells msg g → (∀ r, Q None r) → triple (Some g) (await (SendMessage msg)) Q.
Proof.
  intros Ht HQ p. apply leads_send; [done|].
  intros [rows|e] p'; [apply leads_returned|apply leads_threw]; apply HQ.
Qed.

(** What does nothing with rights. *)
Definition same_grant {A} (g : option Grant) : option Grant → A + string → Prop := λ g' _, g' = g.

Lemma ensureTable_grant g : triple g ensureTable (same_grant g).
Proof.
  apply triple_reading. intros p. destruct (tableEnsured p); [by apply triple_returns|].
  apply (triple_bind _ _ _ (same_grant g)); [by apply triple_await|done|].
  intros g' _ ->. by apply triple_writing.
Qed.

Lemma connection_grant {A} g (fn : HeadAct A) (Q : _ → _ → Prop) :
  (∀ g' e, Q g' (inr e)) → triple g fn Q → triple g (withOwnConnection fn) Q.
Proof.
  intros He Hfn. apply (triple_after_all _ _ _ Q).
  - apply (triple_bind _ _ _ (same_grant g)); [by apply triple_await|done|].
    by intros g' _ ->.
  - intros g' r Hr. apply (triple_bind _ _ _ (same_grant g')); [by apply triple_await|done|].
    intros g'' _ ->. destruct r; [by apply triple_returns|by apply triple_throws].
Qed.

Lemma recordIndexingStart_grant g chain : triple g (recordIndexingStart chain) (λ _ _, True).
Proof.
  apply triple_reading. intros p. case_decide; [by apply triple_returns|].
  apply (triple_catching _ _ _ (λ _ _, True)); [|done|intros; by apply triple_returns].
  apply (triple_bind _ _ _ (λ _ _, True)); [|done|intros; by apply triple_writing].
  apply connection_grant; [done|].
  apply (triple_bind _ _ _ (same_grant g)); [apply ensureTable_grant|done|].
  intros g' _ ->. by apply triple_await.
Qed.

Lemma notifyHeadReachedOnce_grant g chain headBlock :
  triple g (notifyHeadReachedOnce chain headBlock) (λ _ _, True).
Proof.
  apply triple_reading. intros p. case_decide; [by apply triple_returns|].
  apply (triple_catching _ _ _ (λ _ _, True)); [|done|intros; by apply triple_returns].
  apply (triple_bind _ _ _
    (λ g r, match r with inl rows => g = grantOf chain (inl rows) | inr _ => True end)); [|done|].
  - apply connection_grant; [done|].
    apply (triple_bind _ _ _ (same_grant g)); [apply ensureTable_grant|done|].
    intros g' _ ->. apply triple_mark. by intros [].
  - intros g' rows ->. apply (triple_bind _ _ _ (same_grant (grantOf chain (inl rows))));
      [by apply triple_writing|done|].
    intros g'' _ ->. destruct rows as [|row rows]; [by apply triple_returns|].
    destruct (slackConfigured p); [|by apply triple_returns].
    destruct row as [[started reached]|]; simpl; [|by apply triple_throws].
    apply (triple_bind _ _ _ (λ _ _, True)); [by apply triple_send|done|].
    intros. by apply triple_returns.
Qed.

Lemma beginBatch_grant g chain headBlock : triple g (beginBatch chain headBlock) (λ _ _, True).
Proof.
  apply (triple_bind _ _ _ (λ _ _, True)); [apply recordIndexingStart_grant|done|].
  intros g' _ _. destruct headBlock; [apply notifyHeadReachedOnce_grant|by apply triple_returns].
Qed.

(** ** At most one alert *)

Section once.
Context `{UpdateResultLaw}.

(** The table holds the row of a chain, marked. *)
Definition marked (s : Shared) (chain : string) (started reached : Z) : Prop :=
  ∃ rows, sh_table s = Some rows ∧ rows !! chain = Some (mkStatusRow started (Some reached)).

(** Every process keeps to its right; rights and alerts are about different chains, each
    marked in the table with the times they tell. *)
Record orderly (i : Indexer) (G : gmap nat Grant) : Prop := {
  or_leads : ∀ n ru, ir_processes i !! n = Some ru → leads (λ _ _, True) (G !! n) (ru_batch ru);
  or_unique : ∀ n m g g', G !! n = Some g → G !! m = Some g' → gr_chain g = gr_chain g' → n = m;
  or_untold : ∀ n g, G !! n = Some g → gr_chain g ∉ (hm_chain <$> sh_posted (ir_shared i));
  or_marked : ∀ n g, G !! n = Some g →
    marked (ir_shared i) (gr_chain g) (gr_started g) (gr_finished g);
  or_nodup : NoDup (hm_chain <$> sh_posted (ir_shared i));
  or_posted : Forall (λ msg,
    marked (ir_shared i) (hm_chain msg) (hm_started msg) (hm_finished msg) ∧
    hm_duration msg = formatDuration (hm_finished msg - hm_started msg)) (sh_posted (ir_shared i))
}.

(** Rows that are marked stay. *)
Definition marks_kept (s s' : Shared) : Prop :=
  ∀ chain started reached, marked s chain started reached → marked s' chain started reached.

Lemma carryOut_kept now c s : marks_kept s (carryOut now c s).2.
Proof.
  intros chain started reached (rows & Ht & Hrow). destruct c as [| | |c|c|msg]; simpl; try by exists rows.
  - exists rows. by rewrite Ht.
  - rewrite Ht. unfold recordStart. destruct (rows !! c) eqn:E; simpl; [by exists rows|].
    eexists. split; [done|]. rewrite lookup_insert_ne; [done|congruence].
  - rewrite Ht. unfold markHeadReached. destruct (rows !! c) as [[st [re|]]|] eqn:E; simpl;
      [by exists rows| |by exists rows].
    eexists. split; [done|]. rewrite lookup_insert_ne; [done|congruence].
Qed.

Lemma performed_kept fate now c s : marks_kept s (performed fate now c s).2.
Proof. destruct fate; [apply carryOut_kept..|by intros ?]. Qed.

Lemma performed_posted fate now c s :
  (∀ msg, c ≠ SendMessage msg) → sh_posted (performed fate now c s).2 = sh_posted s.
Proof.
  intros Hc. assert (sh_posted (carryOut now c s).2 = sh_posted s) as E.
  { destruct c; simpl; try done; [by destruct (sh_table s)| |by destruct (Hc msg)].
    destruct (sh_table s); [|done]. by destruct (markHeadReached _ _ _). }
  by destruct fate.
Qed.

(** A right is given for a row that was not marked, and marks it. *)
Lemma performed_grant fate now chain s g :
  grantOf chain (performed fate now (MarkHead chain) s).1 = Some g →
  gr_chain g = chain ∧
  (∀ started reached, ¬ marked s chain started reached) ∧
  marked (performed fate now (MarkHead chain) s).2 chain (gr_started g) (gr_finished g).
Proof.
  destruct fate; simpl; try done. destruct (sh_table s) as [rows|] eqn:Ht; [|done].
  unfold markHeadReached. intros E.
  destruct (rows !! chain) as [[st [re|]]|] eqn:Hrow; simpl in E |- *;
    (destruct (updateResult _) as [|[[s1 f1]|] l] eqn:Hu; try done);
    (apply updateResult_row in Hu as [rows' Hu]; try done).
  injection Hu as <- <- <-. injection E as <-. simpl. split_and!; [done| |].
  - intros started reached (rows' & Ht' & Hr). rewrite Ht in Ht'. injection Ht' as <-. congruence.
  - eexists. split; [done|]. apply lookup_insert_eq.
Qed.

(** What changes of one process and what is shared, and the right it has then. *)
Lemma orderly_update i G n ru s og :
  orderly i G → marks_kept (ir_shared i) s → sh_posted s = sh_posted (ir_shared i) →
  leads (λ _ _, True) og (ru_batch ru) →
  (∀ g, og = Some g →
     (G !! n = Some g ∨
      ∀ started reached, ¬ marked (ir_shared i) (gr_chain g) started reached) ∧
     marked s (gr_chain g) (gr_started g) (gr_finished g)) →
  orderly (mkIndexer (<[n := ru]> (ir_processes i)) s) (partial_alter (λ _, og) n G).
Proof.
  intros [Hl Hu Hun Hm Hnd Hp] Hk Hpost Hlead Hg.
  assert (∀ m g, partial_alter (λ _, og) n G !! m = Some g → G !! m = Some g ∨
    m = n ∧ ∀ started reached, ¬ marked (ir_shared i) (gr_chain g) started reached) as Hcase.
  { intros m g. destruct (decide (m = n)) as [->|Hne].
    - rewrite lookup_partial_alter_eq. intros E. destruct (Hg g E) as [[?|?] _]; auto.
    - rewrite lookup_partial_alter_ne by done. auto. }
  split; simpl; [| | | |by rewrite Hpost|].
  - intros m ru'. destruct (decide (m = n)) as [->|Hne].
    + rewrite lookup_insert_eq, lookup_partial_alter_eq. by intros [= <-].
    + rewrite lookup_insert_ne, lookup_partial_alter_ne by done. apply Hl.
  - intros m1 m2 g1 g2 E1 E2 Hc.
    destruct (Hcase _ _ E1) as [F1|[-> N1]], (Hcase _ _ E2) as [F2|[-> N2]]; [by eapply Hu| | |done].
    + exfalso. rewrite <- Hc in N2. by eapply N2, Hm.
    + exfalso. rewrite Hc in N1. by eapply N1, Hm.
  - intros m g E. rewrite Hpost. destruct (Hcase _ _ E) as [F|[-> N]]; [by eapply Hun|].
    intros (msg & Hc & Hin)%list_elem_of_fmap. rewrite Forall_forall in Hp.
    destruct (Hp msg Hin) as [Hmark _]. rewrite <- Hc in Hmark. by eapply N.
  - intros m g E. destruct (decide (m = n)) as [->|Hne].
    + rewrite lookup_partial_alter_eq in E. by apply Hg.
    + rewrite lookup_partial_alter_ne in E by done. by apply Hk, (Hm m).
  - rewrite Hpost. eapply Forall_impl; [exact Hp|]. intros msg [Hmark Hd]. split; [by apply Hk|done].
Qed.

(** An alert is posted about a marked chain, told by none and to be told by none. *)
Lemma orderly_told i G msg :
  orderly i G →
  marked (ir_shared i) (hm_chain msg) (hm_started msg) (hm_finished msg) →
  hm_duration msg = formatDuration (hm_finished msg - hm_started msg) →
  hm_chain msg ∉ (hm_chain <$> sh_posted (ir_shared i)) →
  (∀ n g, G !! n = Some g → gr_chain g ≠ hm_chain msg) →
  orderly (mkIndexer (ir_processes i)
    (mkShared (sh_table (ir_shared i)) (sh_posted (ir_shared i) ++ [msg]))) G.
Proof.
  intros [Hl Hu Hun Hm Hnd Hp] Hmark Hd Hnew HG. split; simpl; [done..| | | |].
  - intros n g E. rewrite fmap_app, elem_of_app; simpl; rewrite list_elem_of_singleton.
    intros [Hin|Hc]; [by eapply Hun|by eapply HG].
  - apply Hm.
  - rewrite fmap_app. apply NoDup_app. split_and!; [done| |apply NoDup_singleton].
    intros chain Hin ->%list_elem_of_singleton. done.
  - apply Forall_app_2; [done|]. by apply Forall_singleton.
Qed.

Lemma orderly_new : orderly newIndexer ∅.
Proof. split; simpl; [done..|apply NoDup_nil_2|constructor]. Qed.

(** A process at an update. *)
Lemma orderly_mark i G n chain fate now ru :
  orderly i G →
  leads (λ _ _, True) (grantOf chain (performed fate now (MarkHead chain) (ir_shared i)).1)
    (ru_batch ru) →
  ∃ G', orderly (mkIndexer (<[n := ru]> (ir_processes i))
    (performed fate now (MarkHead chain) (ir_shared i)).2) G'.
Proof.
  intros Hi Hlead. eexists. eapply orderly_update; [exact Hi|apply performed_kept| |exact Hlead|].
  - by apply performed_posted.
  - intros g (<- & Hn & Hm)%performed_grant. auto.
Qed.

(** A process that sends what it has the right to. *)
Lemma orderly_send i G n g msg fate now ru :
  orderly i G → G !! n = Some g → tells msg g → leads (λ _ _, True) None (ru_batch ru) →
  ∃ G', orderly (mkIndexer (<[n := ru]> (ir_processes i))
    (performed fate now (SendMessage msg) (ir_shared i)).2) G'.
Proof.
  intros Hi Hg (Hc & Hs & Hf & Hd) Hlead. exists (partial_alter (λ _, None) n G).
  pose proof (orderly_update i G n ru (ir_shared i) None Hi) as Hi'.
  destruct Hi as [_ Hu Hun Hm _ _].
  assert (orderly (mkIndexer (<[n := ru]> (ir_processes i)) (ir_shared i))
    (partial_alter (λ _, None) n G)) as Ho by (by apply Hi'; [intros ? ? ?|..]).
  assert (orderly (mkIndexer (<[n := ru]> (ir_processes i))
    (mkShared (sh_table (ir_shared i)) (sh_posted (ir_shared i) ++ [msg])))
    (partial_alter (λ _, None) n G)) as Hpost.
  { apply (orderly_told _ _ msg Ho); simpl; rewrite ?Hc, ?Hs, ?Hf; [by eapply Hm|done|by eapply Hun|].
    intros m g' [Hne E]%lookup_delete_Some Hcc. by destruct Hne; eapply Hu. }
  by destruct fate.
Qed.

Lemma indexer_step_orderly i i' G : orderly i G → indexer_step i i' → ∃ G', orderly i' G'.
Proof.
  intros Hi [n slack|n p t chain headBlock _ _|n p c next fate now Hn].
  - eexists. apply (orderly_update _ _ _ _ _ None Hi); [by intros ???|done| |done].
    by apply leads_returned.
  - unfold begins. pose proof (beginBatch_grant None chain headBlock p) as Hlead.
    destruct (beginBatch chain headBlock p) as [p' t']. eexists.
    apply (orderly_update _ _ _ _ _ None Hi); [by intros ???|done..].
  - pose proof (or_leads _ _ Hi _ _ Hn) as Hlead. simpl in Hlead. unfold proceeds.
    destruct (performed fate now c (ir_shared i)) as [r s] eqn:Hperf.
    destruct (next r p) as [p' t'] eqn:Hnext.
    inversion Hlead as [| |g c' next' Hc Hall|g chain next' Hall|g msg next' Ht Hall]; subst.
    + eexists. apply (orderly_update _ _ _ _ _ (G !! n) Hi).
      * replace s with (performed fate now c (ir_shared i)).2 by (by rewrite Hperf). apply performed_kept.
      * replace s with (performed fate now c (ir_shared i)).2 by (by rewrite Hperf).
        apply performed_posted. by intros msg ->.
      * specialize (Hall r p). by rewrite Hnext in Hall.
      * intros g Hg. split; [by left|].
        replace s with (performed fate now c (ir_shared i)).2 by (by rewrite Hperf).
        by apply performed_kept, (or_marked _ _ Hi n).
    + specialize (Hall r p). rewrite Hnext in Hall.
      pose proof (orderly_mark i G n chain fate now (mkRunning p' t') Hi) as Hn'.
      rewrite Hperf in Hn'. by apply Hn'.
    + specialize (Hall r p). rewrite Hnext in Hall.
      pose proof (orderly_send i G n g msg fate now (mkRunning p' t') Hi) as Hn'.
      rewrite Hperf in Hn'. by apply Hn'.
Qed.

(** *** An update without rows *)

(** No process has a right, and nothing was posted. *)
Definition silent (i : Indexer) : Prop :=
  sh_posted (ir_shared i) = [] ∧
  ∀ n ru, ir_processes i !! n = Some ru → leads (λ _ _, True) None (ru_batch ru).

Lemma silent_update i n ru s :
  silent i → sh_posted s = [] → leads (λ _ _, True) None (ru_batch ru) →
  silent (mkIndexer (<[n := ru]> (ir_processes i)) s).
Proof.
  intros [_ Hl] Hs Hlead. split; [done|]. simpl. intros m ru' [[_ <-]|[_ E]]%lookup_insert_Some; [done|].
  by eapply Hl.
Qed.

Lemma silent_step i i' :
  (∀ rows r l, updateResult rows ≠ Some r :: l) → silent i → indexer_step i i' → silent i'.
Proof.
  intros Hno Hi [n slack|n p t chain headBlock _ _|n p c next fate now Hn].
  - apply silent_update; [done|apply Hi|by apply leads_returned].
  - unfold begins. pose proof (beginBatch_grant None chain headBlock p) as Hlead.
    destruct (beginBatch chain headBlock p) as [p' t']. apply silent_update; [done|apply Hi|done].
  - pose proof (proj2 Hi _ _ Hn) as Hlead. simpl in Hlead. unfold proceeds.
    assert ((∀ msg, c ≠ SendMessage msg) ∧
      ∀ r, r = (performed fate now c (ir_shared i)).1 →
        leads (λ _ _, True) None (next r p).2) as [Hc Hall].
    { inversion Hlead as [| |g c' next' Hc Hall|g chain next' Hall|]; subst.
      - split; [by intros msg ->|by intros r _].
      - split; [done|]. intros r ->.
        specialize (Hall (performed fate now (MarkHead chain) (ir_shared i)).1 p).
        replace (grantOf chain _) with (@None Grant) in Hall; [done|].
        destruct fate; [|done..]. simpl. destruct (sh_table _); [|done].
        destruct (markHeadReached _ _ _) as [rows rows']. simpl.
        destruct (updateResult rows) as [|[r|] l] eqn:Hr; [done|by apply Hno in Hr|done]. }
    pose proof (performed_posted fate now c (ir_shared i) Hc) as Hpost.
    destruct (performed fate now c (ir_shared i)) as [r s]. specialize (Hall r eq_refl).
    destruct (next r p) as [p' t']. apply silent_update; [done| |done].
    simpl in Hpost. rewrite Hpost. apply Hi.
Qed.

Lemma no_rows_send_nothing i :
  (∀ rows r l, updateResult rows ≠ Some r :: l) →
  rtc indexer_step newIndexer i → sh_posted (ir_shared i) = [].
Proof.
  intros Hno Hr. assert (silent newIndexer → silent i) as Hs.
  { induction Hr as [|i i1 i2 Hstep _ IH]; [done|]. intros Hi. by eapply IH, silent_step. }
  by apply Hs.
Qed.

(** C39.  However the statements of the processes of an indexer interleave, wherever
    one stops or starts again, and whatever command fails, before or after it took
    effect: when an element with times of what TypeORM gives for an update is a row
    that the update returned, at most one alert about each chain is posted, with the
    times that the table holds; and when no element has times, as in a pair of the rows
    and their number, none is ever posted. *)
Theorem head_announced_once i :
  rtc indexer_step newIndexer i →
  NoDup (hm_chain <$> sh_posted (ir_shared i)) ∧
  Forall (λ msg, marked (ir_shared i) (hm_chain msg) (hm_started msg) (hm_finished msg) ∧
    hm_duration msg = formatDuration (hm_finished msg - hm_started msg)) (sh_posted (ir_shared i)) ∧
  ((∀ rows r l, updateResult rows ≠ Some r :: l) → sh_posted (ir_shared i) = []).
Proof.
  intros Hr. assert (∃ G, orderly i G) as (G & [_ _ _ _ Hnd Hp]);
    [|by split_and!; [..|intros Hno; apply no_rows_send_nothing]].
  pose proof orderly_new as Hnew. revert Hnew. generalize (∅ : gmap nat Grant).
  induction Hr as [|i i1 i2 Hstep _ IH]; intros G Hi; [by exists G|].
  destruct (indexer_step_orderly _ _ _ Hi Hstep) as [G' Hi']. by eapply IH.
Qed.

End once.

(** ** A history *)

Module HeadSamples.
Inductive Move :=
  | Starts (n : nat)
  | Begins (n : nat) (headBlock : option Z)
  | Goes (n : nat) (fate : Fate) (now : Z).

Section moves.
Context `{UpdateResult}.

(** A move that cannot be made changes nothing. *)
Definition move (i : Indexer) (m : Move) : Indexer :=
  match m with
  | Starts n => starts n true i
  | Begins n headBlock =>
      match ir_processes i !! n with
      | Some (mkRunning p t) => if ended t then begins n "polygon" headBlock p i else i
      | None => i
      end
  | Goes n fate now =>
      match ir_processes i !! n with
      | Some (mkRunning p (Await c next)) => proceeds n fate now p c next i
      | _ => i
      end
  end.

Lemma moves_reachable ms i : rtc indexer_step i (foldl move i ms).
Proof.
  revert i. induction ms as [|m ms IH]; intros i; [done|]. simpl.
  etrans; [|apply IH]. destruct m as [n|n headBlock|n fate now]; simpl; [apply rtc_once; constructor|..];
    destruct (ir_processes i !! n) as [[p t]|] eqn:Hn; try done; destruct t; simpl; try done;
    apply rtc_once; by econstructor.
Qed.
End moves.

(** One process begins to index; its first try to tell of the head fails; then another
    one starts, and both mark the head at once. *)
Definition moves : list Move :=
  [Starts 0; Begins 0 None] ++ replicate 4 (Goes 0 Done 1000) ++
  [Begins 0 (Some 99); Goes 0 Done 3700000; Goes 0 Refused 3700000; Goes 0 Done 3700000;
   Starts 1; Begins 1 (Some 101)] ++ replicate 5 (Goes 1 Done 3710000) ++
  [Begins 0 (Some 100); Goes 0 Done 3720000; Goes 1 Done 3725000; Goes 0 Done 3725001] ++
  replicate 3 (Goes 0 Done 3726000) ++ replicate 3 (Goes 1 Done 3727000).

Definition history `{UpdateResult} : Indexer := foldl move newIndexer moves.
End HeadSamples.

Lemma head_announced_once_witness :
  let i := @HeadSamples.history declaredResult in
  let i' := @HeadSamples.history countedResult in
  (hm_duration <$> sh_posted (ir_shared i)) = ["1h 2m 4s"] ∧
  NoDup (hm_chain <$> sh_posted (ir_shared i)) ∧ sh_posted (ir_shared i') = [].
Proof.
  split; [vm_compute; reflexivity|]. split.
  - apply (@head_announced_once declaredResult _ HeadSamples.history), HeadSamples.moves_reachable.
  - apply (@head_announced_once countedResult _ HeadSamples.history);
      [apply HeadSamples.moves_reachable|done].
Defined.

(** When an update gives the rows and their number, the head of the history is marked
    and nobody is told. *)
Example counted_rows_lose_alert :
  let i := @HeadSamples.history countedResult in
  sh_posted (ir_shared i) = [] ∧ marked (ir_shared i) "polygon" 1000 3725000.
Proof.
  split; [by apply (no_rows_send_nothing (H := countedResult)), HeadSamples.moves_reachable|].
  eexists. split; vm_compute; reflexivity.
Qed.
