(* ===== verification/SyncEngine.v ===== *)
(** * The sync engine of the creator hub

    [ui3/src/creatorhub/lib/sync-engine.ts]: scenes are saved locally first and
    pushed to a server in the background, one at a time, in the order they were
    saved; a push can succeed, find that the server has another version, or fail.
    The engine runs on one thread: between two [await]s a function is not
    interrupted, and what comes after an [await] is a task that runs later, after
    any other events.

    The local store ([Persist]) is what the engine is hydrated with; writing to it
    is left out.  A saved value is not mutated by its owner, and the listeners,
    which render the summary, do not call the engine. *)

From Stdlib Require Import Ascii.
From S2P Require Import Prelude JsString.
Open Scope string_scope.
Open Scope list_scope.
Open Scope Z_scope.

(** ** Values and their hash *)

(** A value without cycles.  A number stands as the text [JSON.stringify] gives
    it, and what it gives no text for is [JUndefined]; the keys of an object are
    in the order of its properties. *)
#[warnings="-register-all"]
Inductive Json :=
  | JUndefined
  | JNull
  | JBool (b : bool)
  | JNumber (text : string)
  | JString (s : string)
  | JArray (values : list Json)
  | JObject (properties : list (string * Json)).

Definition backslash : Ascii.ascii := Ascii.ascii_of_N 92.

(** A character in a JSON string. *)
Definition jsonChar (c : Ascii.ascii) : string :=
  let n := Ascii.N_of_ascii c in
  let escaped (s : string) := String backslash s in
  if decide (n = 34%N) then escaped (String c "")
  else if decide (n = 92%N) then escaped (String c "")
  else if decide (n = 8%N) then escaped "b"
  else if decide (n = 9%N) then escaped "t"
  else if decide (n = 10%N) then escaped "n"
  else if decide (n = 12%N) then escaped "f"
  else if decide (n = 13%N) then escaped "r"
  else if decide (n < 32)%N
  then escaped ("u00" +:+ Buffer_to_hex [Z.of_N n])
  else String c "".

(** [JSON.stringify] of a string. *)
Definition jsonString (s : string) : string :=
  let quote := Ascii.ascii_of_N 34 in
  let fix chars (s : string) : string :=
    match s with
    | EmptyString => String quote ""
    | String c s => jsonChar c +:+ chars s
    end in
  String quote (chars s).

(** The order of [sort] on keys: by code units. *)
Fixpoint string_le (s t : string) : Prop :=
  match s, t with
  | EmptyString, _ => True
  | String _ _, EmptyString => False
  | String c s, String d t =>
      (Ascii.N_of_ascii c < Ascii.N_of_ascii d)%N ∨ (c = d ∧ string_le s t)
  end.

#[export] Instance string_le_dec s t : Decision (string_le s t).
Proof. revert t. induction s; intros []; simpl; apply _. Defined.

Definition key_le {A} (p q : string * A) : Prop := string_le p.1 q.1.

#[export] Instance key_le_dec {A} (p q : string * A) : Decision (key_le p q).
Proof. apply string_le_dec. Defined.

Definition jsonProperty (p : string * string) : string := jsonString p.1 +:+ ":" +:+ p.2.

(** [stableStringify], ui3/src/creatorhub/lib/sync-engine.ts:58-78 *)
Fixpoint stableStringify (value : Json) : string :=
  match value with
  | JUndefined | JNull => "null"
  | JBool b => if b then "true" else "false"
  | JNumber text => text
  | JString s => jsonString s
  | JArray values => "[" +:+ join "," (stableStringify <$> values) +:+ "]"
  | JObject properties =>
      let texts := (λ '(k, v), (k, stableStringify v)) <$> properties in
      "{" +:+ join "," (jsonProperty <$> merge_sort key_le texts) +:+ "}"
  end.

(** The turns of the loop over the characters. *)
Fixpoint hashChars (h : Z) (s : string) : Z :=
  match s with
  | EmptyString => h
  | String c s =>
      hashChars (toInt32 (toInt32 (Z.shiftl h 5) + h + Z.of_N (Ascii.N_of_ascii c))) s
  end.

(** The digits of [toString(16)], the lowest first. *)
Fixpoint hexDigits (fuel : nat) (z : Z) : list Z :=
  match fuel with
  | O => []
  | S fuel => if decide (z < 16) then [z] else z mod 16 :: hexDigits fuel (z / 16)
  end.

(** [toString(16)] of an unsigned 32-bit integer: at most eight digits. *)
Definition toHex (z : Z) : string := String.string_of_list_ascii (hex_char <$> reverse (hexDigits 8 z)).

Fixpoint zeros (n : nat) : string :=
  match n with O => "" | S n => String "0"%char (zeros n) end.

(** [padStart(n, "0")] *)
Definition padStart (n : nat) (s : string) : string := zeros (n - String.length s) +:+ s.

(** [hashBlob], ui3/src/creatorhub/lib/sync-engine.ts:80-87 *)
Definition hashBlob (blob : Json) : string :=
  let s := stableStringify blob in
  let h := hashChars 5381 s in
  padStart 8 (toHex (h mod 2 ^ 32)) +:+ "-"
  +:+ toHex (Z.of_nat (String.length s) mod 2 ^ 32).

(** ** State *)

(** [SyncState], ui3/src/creatorhub/lib/sync-engine.ts:3-10 *)
Inductive SyncState :=
  | synced | editing | pending | syncing | offline | conflict | error.

#[export] Instance SyncState_eq_dec : EqDecision SyncState.
Proof. solve_decision. Defined.

(** [Rec], ui3/src/creatorhub/lib/sync-engine.ts:42-54 *)
Record Rec := mkRec {
  r_id : string;
  r_blob : Json;
  r_title : option string;
  r_version : Z;
  r_hash : string;
  r_syncedHash : option string;
  r_dirtyAt : option Z;
  r_lastSyncedAt : option Z;
  r_state : SyncState;
  r_serverVersion : option Z;
  r_serverBlob : option Json
}.
#[export] Instance eta_Rec : Eta Rec := λ r,
  mkRec (r_id r) (r_blob r) (r_title r) (r_version r) (r_hash r) (r_syncedHash r)
    (r_dirtyAt r) (r_lastSyncedAt r) (r_state r) (r_serverVersion r) (r_serverBlob r).

(** [EngineSummary], ui3/src/creatorhub/lib/sync-engine.ts:12-25: the statuses
    of the scenes are by identifier here. *)
Record EngineSummary := mkEngineSummary {
  s_overall : SyncState;
  s_pending : Z;
  s_scenes : gmap string (SyncState * Z * option Z * option Z);
  s_online : bool
}.

(** [Push], ui3/src/creatorhub/lib/sync-engine.ts:27-27: the push the server is
    asked for, with the scene it is about. *)
Record Push := mkPush {
  p_id : string;
  p_baseVersion : Z;
  p_hash : string;
  p_blob : Json;
  p_title : option string
}.

(** [PushResult], ui3/src/creatorhub/lib/sync-engine.ts:28-28, or the failure of
    the transport. *)
Inductive PushResult :=
  | PushOk (version : option Z)
  | PushConflict (version : option Z) (server : Json)
  | PushRefused
  | PushFailed.

(** What is to run later: a scheduled [flush], and the end of an operation that
    waits for the local store. *)
Inductive Task :=
  | FlushTask
  | StoredTask (thenFlush : bool).

(** [Engine], ui3/src/creatorhub/lib/sync-engine.ts:185-196: the variables of
    [createSyncEngine].  [flushing] is a push waited for. *)
Record Engine := mkEngine {
  recs : gmap string Rec;
  outbox : list string;
  transport : bool;
  online : bool;
  running : bool;
  flushing : option Push;
  flushQueued : bool;
  summary : EngineSummary;
  tasks : list Task
}.
#[export] Instance eta_Engine : Eta Engine := λ r,
  mkEngine (recs r) (outbox r) (transport r) (online r) (running r) (flushing r)
    (flushQueued r) (summary r) (tasks r).

(** ** Summary *)

(** [scenesList], ui3/src/creatorhub/lib/sync-engine.ts:200-207 *)
Definition scenesList (e : Engine) : gmap string (SyncState * Z * option Z * option Z) :=
  (λ r, (r_state r, r_version r, r_dirtyAt r, r_lastSyncedAt r)) <$> recs e.

(** A scene in a given state. *)
Definition someScene (s : SyncState) (e : Engine) : bool :=
  bool_decide (map_Exists (λ _ r, r_state r = s) (recs e)).

(** [computeOverall], ui3/src/creatorhub/lib/sync-engine.ts:209-227 *)
Definition computeOverall (e : Engine) : SyncState :=
  if someScene conflict e then conflict
  else if someScene syncing e then syncing
  else if decide (online e = false ∧ (0 < length (outbox e))%nat) then offline
  else if someScene error e then error
  else if decide (0 < length (outbox e))%nat then pending
  else if someScene editing e then editing
  else synced.

(** [recompute], ui3/src/creatorhub/lib/sync-engine.ts:229-231 *)
Definition recompute (e : Engine) : EngineSummary := {|
  s_overall := computeOverall e;
  s_pending := Z.of_nat (length (outbox e));
  s_scenes := scenesList e;
  s_online := online e
|}.

(** [notify], ui3/src/creatorhub/lib/sync-engine.ts:233-236 *)
Definition notify (e : Engine) : Engine := e <| summary := recompute e |>.

(** ** Operations *)

(** [addToOutbox], ui3/src/creatorhub/lib/sync-engine.ts:245-250 *)
Definition addToOutbox (id : string) (e : Engine) : Engine :=
  if decide (id ∈ outbox e) then e else e <| outbox ::= (λ l, l ++ [id]) |>.

Fixpoint removeFirst (id : string) (l : list string) : list string :=
  match l with
  | [] => []
  | x :: l => if decide (x = id) then l else x :: removeFirst id l
  end.

(** [removeFromOutbox], ui3/src/creatorhub/lib/sync-engine.ts:251-257 *)
Definition removeFromOutbox (id : string) (e : Engine) : Engine :=
  e <| outbox ::= removeFirst id |>.

Definition newRec (id : string) : Rec :=
  mkRec id JUndefined None 0 "" None None None synced None None.

(** [ensureRec], ui3/src/creatorhub/lib/sync-engine.ts:259-275 *)
Definition ensureRec (id : string) (e : Engine) : Engine :=
  match recs e !! id with
  | Some _ => e
  | None => e <| recs ::= <[id := newRec id]> |>
  end.

(** Assigning to properties of the record of a scene. *)
Definition assign (id : string) (f : Rec → Rec) (e : Engine) : Engine :=
  e <| recs ::= alter f id |>.

(** [scheduleFlush], ui3/src/creatorhub/lib/sync-engine.ts:277-280 *)
Definition scheduleFlush (e : Engine) : Engine := e <| tasks ::= (λ l, l ++ [FlushTask]) |>.

(** An operation waits for the local store. *)
Definition afterStored (thenFlush : bool) (e : Engine) : Engine :=
  e <| tasks ::= (λ l, l ++ [StoredTask thenFlush]) |>.

(** [finishFlush], ui3/src/creatorhub/lib/sync-engine.ts:351-357 *)
Definition finishFlush (e : Engine) : Engine :=
  let e := e <| flushing := None |> in
  if flushQueued e then scheduleFlush (e <| flushQueued := false |>) else e.

(** From the head of the loop of [flush] to the push it waits for, or to its
    end; [l] is the outbox.
    [pushNext], ui3/src/creatorhub/lib/sync-engine.ts:291-311 *)
Fixpoint pushNext (l : list string) (e : Engine) : Engine :=
  match l with
  | [] => finishFlush e
  | id :: l =>
      if online e then
        match recs e !! id with
        | None => pushNext l (removeFromOutbox id e)
        | Some rec =>
            let e := notify (assign id (set r_state (λ _, syncing)) e) in
            e <| flushing := Some {|
              p_id := id;
              p_baseVersion := r_version rec;
              p_hash := r_hash rec;
              p_blob := r_blob rec;
              p_title := r_title rec
            |} |>
        end
      else finishFlush e
  end.

(** [flush], ui3/src/creatorhub/lib/sync-engine.ts:282-289 *)
Definition flush (e : Engine) : Engine :=
  match flushing e with
  | Some _ => e <| flushQueued := true |>
  | None =>
      if decide (transport e = false ∨ online e = false ∨ outbox e = []) then e
      else pushNext (outbox e) e
  end.

(** The state of a scene that waits to be pushed. *)
Definition waiting (e : Engine) : SyncState := if online e then pending else offline.

(** [flushResult], ui3/src/creatorhub/lib/sync-engine.ts:312-358: what comes
    after the push in the turn of the loop, and the turns that follow. *)
Definition flushResult (result : PushResult) (now : Z) (e : Engine) : Engine :=
  match flushing e with
  | None => e
  | Some p =>
      let id := p_id p in
      let continue e := pushNext (outbox e) e in
      match result with
      | PushFailed =>
          finishFlush (notify (assign id (set r_state (λ _,
            if online e then error else offline)) e))
      | PushOk version =>
          match recs e !! id with
          | None => continue (removeFromOutbox id e)
          | Some cur =>
              let e := removeFromOutbox id (assign id (λ r,
                r <| r_version := default (p_baseVersion p + 1) version |>
                  <| r_lastSyncedAt := Some now |>
                  <| r_syncedHash := Some (p_hash p) |>) e) in
              let e := if decide (r_hash cur = p_hash p)
                       then assign id (λ r, r <| r_dirtyAt := None |>
                                               <| r_state := synced |>) e
                       else addToOutbox id (assign id (set r_state (λ _, waiting e)) e) in
              continue (notify e)
          end
      | PushConflict version server =>
          match recs e !! id with
          | None => continue (removeFromOutbox id e)
          | Some cur =>
              continue (notify (removeFromOutbox id (assign id (λ r,
                r <| r_state := conflict |>
                  <| r_serverVersion := Some (default (r_version cur) version) |>
                  <| r_serverBlob := Some server |>) e)))
          end
      | PushRefused =>
          match recs e !! id with
          | None => continue (removeFromOutbox id e)
          | Some _ => finishFlush (notify (assign id (set r_state (λ _, error)) e))
          end
      end
  end.

(** [saveLocal], ui3/src/creatorhub/lib/sync-engine.ts:360-384, up to the
    [await]. *)
Definition saveLocal (id : string) (blob : Json) (title : option string) (now : Z)
    (e : Engine) : Engine :=
  let hash := hashBlob blob in
  let rec := default (newRec id) (recs e !! id) in
  let e := ensureRec id e in
  let e := match title with
           | Some _ => assign id (set r_title (λ _, title)) e
           | None => e
           end in
  if decide (r_hash rec = hash ∧ r_syncedHash rec = Some hash ∧ r_state rec ≠ conflict
             ∧ id ∉ outbox e)
  then afterStored false (assign id (λ r, r <| r_blob := blob |> <| r_state := synced |>) e)
  else afterStored true (addToOutbox id (assign id (λ r,
         r <| r_blob := blob |>
           <| r_hash := hash |>
           <| r_dirtyAt := Some now |>
           <| r_state := waiting e |>) e)).

(** [markEditing], ui3/src/creatorhub/lib/sync-engine.ts:386-392 *)
Definition markEditing (id : string) (e : Engine) : Engine :=
  let rec := default (newRec id) (recs e !! id) in
  let e := ensureRec id e in
  if decide (r_state rec = conflict) then e
  else notify (assign id (set r_state (λ _, editing)) e).

(** [resolveConflict], ui3/src/creatorhub/lib/sync-engine.ts:394-421, up to the
    [await]: the server's side is taken, or the local one. *)
Definition resolveConflict (id : string) (cloud : bool) (now : Z) (e : Engine) : Engine :=
  match recs e !! id with
  | None => e
  | Some rec =>
      if decide (r_state rec ≠ conflict) then e
      else if cloud then
        let blob := default JUndefined (r_serverBlob rec) in
        afterStored false (removeFromOutbox id (assign id (λ r,
          r <| r_blob := blob |>
            <| r_version := default (r_version r) (r_serverVersion r) |>
            <| r_hash := hashBlob blob |>
            <| r_syncedHash := Some (hashBlob blob) |>
            <| r_dirtyAt := None |>
            <| r_lastSyncedAt := Some now |>
            <| r_serverBlob := None |>
            <| r_serverVersion := None |>
            <| r_state := synced |>) e))
      else
        afterStored true (addToOutbox id (assign id (λ r,
          r <| r_version := default (r_version r) (r_serverVersion r) |>
            <| r_serverBlob := None |>
            <| r_serverVersion := None |>
            <| r_dirtyAt := Some (default now (r_dirtyAt r)) |>
            <| r_state := waiting e |>) e))
  end.

(** [setTransport], ui3/src/creatorhub/lib/sync-engine.ts:423-426 *)
Definition setTransport (e : Engine) : Engine := scheduleFlush (e <| transport := true |>).

(** [normalizeRec], ui3/src/creatorhub/lib/sync-engine.ts:428-440 *)
Definition normalizeRec (r : Rec) : Rec :=
  if decide (r_state r = syncing) then r <| r_state := pending |> else r.

(** [hydrate], ui3/src/creatorhub/lib/sync-engine.ts:442-461, with what the local
    store held. *)
Definition hydrate (drafts : list Rec) (saved : list string) (e : Engine) : Engine :=
  let '(e, changed) := foldl (λ '(e, changed) r,
    match recs e !! r_id r with
    | Some _ => (e, changed)
    | None => (e <| recs ::= <[r_id r := normalizeRec r]> |>, true)
    end) (e, false) drafts in
  let '(e, changed) := foldl (λ '(e, changed) id,
    if decide (is_Some (recs e !! id) ∧ id ∉ outbox e)
    then (e <| outbox ::= (λ l, l ++ [id]) |>, true)
    else (e, changed)) (e, changed) saved in
  if changed : bool then scheduleFlush (notify e) else e.

(** The scenes of the outbox are put in a state, unless they are in one of [but]. *)
Definition markOutbox (s : SyncState) (but : list SyncState) (e : Engine) : Engine :=
  foldl (λ e id, assign id (λ r, if decide (r_state r ∈ but) then r else r <| r_state := s |>) e)
    e (outbox e).

(** [onOnline], ui3/src/creatorhub/lib/sync-engine.ts:463-471 *)
Definition onOnline (e : Engine) : Engine :=
  scheduleFlush (notify (markOutbox pending [conflict] (e <| online := true |>))).

(** [onOffline], ui3/src/creatorhub/lib/sync-engine.ts:472-479 *)
Definition onOffline (e : Engine) : Engine :=
  notify (markOutbox offline [conflict; syncing] (e <| online := false |>)).

(** [start], ui3/src/creatorhub/lib/sync-engine.ts:481-494 *)
Definition start (e : Engine) : Engine :=
  if running e then e else scheduleFlush (e <| running := true |>).

(** [tick], ui3/src/creatorhub/lib/sync-engine.ts:489-491: the timer. *)
Definition tick (e : Engine) : Engine :=
  if decide (online e = true ∧ transport e = true ∧ outbox e ≠ [] ∧ flushing e = None)
  then scheduleFlush e else e.

(** [stop], ui3/src/creatorhub/lib/sync-engine.ts:496-506 *)
Definition stop (e : Engine) : Engine := e <| running := false |>.

(** ** Events *)

Definition runTask (t : Task) (e : Engine) : Engine :=
  match t with
  | FlushTask => flush e
  | StoredTask thenFlush =>
      let e := notify e in if thenFlush then scheduleFlush e else e
  end.

(** What happens to the engine, one thing at a time: a call, an answer of the
    transport, an event of the window or of the timer that it listens to, or a
    task. *)
Inductive Event :=
  | SaveLocal (id : string) (blob : Json) (title : option string) (now : Z)
  | MarkEditing (id : string)
  | ResolveConflict (id : string) (cloud : bool) (now : Z)
  | SetTransport
  | Start
  | Stop
  | Hydrate (drafts : list Rec) (saved : list string)
  | Online
  | Offline
  | Tick
  | RunTask (n : nat)
  | Answer (result : PushResult) (now : Z).

Definition apply (ev : Event) (e : Engine) : Engine :=
  match ev with
  | SaveLocal id blob title now => saveLocal id blob title now e
  | MarkEditing id => markEditing id e
  | ResolveConflict id cloud now => resolveConflict id cloud now e
  | SetTransport => setTransport e
  | Start => start e
  | Stop => stop e
  | Hydrate drafts saved => hydrate drafts saved e
  | Online => if running e then onOnline e else e
  | Offline => if running e then onOffline e else e
  | Tick => if running e then tick e else e
  | RunTask n =>
      match tasks e !! n with
      | Some t => runTask t (e <| tasks ::= (λ l, take n l ++ drop (S n) l) |>)
      | None => e
      end
  | Answer result now => flushResult result now e
  end.

(** [createSyncEngine], ui3/src/creatorhub/lib/sync-engine.ts:180-238 *)
Definition createSyncEngine (online : bool) : Engine :=
  notify (mkEngine ∅ [] false online false None false (mkEngineSummary synced 0 ∅ online) []).
