(* ===== verification/SyncProofs.v ===== *)
(** * The sync engine: nothing saved is lost

    The hash of a value, which does not depend on the order of keys, and the
    invariant of the engine: a scene that is not saved on the server waits in the
    outbox or is in conflict, one that does not wait is what the server holds, and
    the push that is waited for is that of a scene of the outbox.  Every event
    keeps it, keeps the summary that of the engine, and keeps the saved values. *)

From Stdlib Require Import Ascii.
From S2P Require Import Prelude JsString SyncEngine.
Open Scope string_scope.
Open Scope list_scope.
Open Scope Z_scope.

(** ** The order of keys *)

Lemma N_of_ascii_inj c d : Ascii.N_of_ascii c = Ascii.N_of_ascii d → c = d.
Proof. intros E. by rewrite <- (Ascii.ascii_N_embedding c), E, Ascii.ascii_N_embedding. Qed.

Lemma string_le_total s t : string_le s t ∨ string_le t s.
Proof.
  revert t. induction s as [|c s IH]; intros [|d t]; simpl; auto.
  destruct (N.lt_trichotomy (Ascii.N_of_ascii c) (Ascii.N_of_ascii d)) as [?|[E|?]]; auto.
  apply N_of_ascii_inj in E as ->. destruct (IH t); auto.
Qed.

Lemma string_le_trans s t u : string_le s t → string_le t u → string_le s u.
Proof.
  revert t u. induction s as [|c s IH]; intros [|d t] [|x u]; simpl; try done.
  intros [?|[-> ?]] [?|[-> ?]]; auto; [left; lia|]. right. eauto.
Qed.

Lemma string_le_antisymm s t : string_le s t → string_le t s → s = t.
Proof.
  revert t. induction s as [|c s IH]; intros [|d t]; simpl; try done.
  intros [?|[-> ?]] [?|[E ?]]; [lia|subst; lia|lia|]. f_equal. auto.
Qed.

#[export] Instance key_le_total {A} : Total (key_le (A:=A)).
Proof. intros p q. apply string_le_total. Qed.

#[export] Instance key_le_trans {A} : Transitive (key_le (A:=A)).
Proof. intros p q r. apply string_le_trans. Qed.

(** Sorting two lists of the same pairs, whose keys are different, gives the same
    list. *)
Lemma sorted_keys_unique {A} (l l' : list (string * A)) :
  NoDup l.*1 → l ≡ₚ l' → merge_sort key_le l = merge_sort key_le l'.
Proof.
  intros Hnd Hp.
  set (k := merge_sort key_le l). set (k' := merge_sort key_le l').
  assert (k ≡ₚ k') as Hk by (unfold k, k'; rewrite !merge_sort_Permutation; done).
  assert (NoDup k.*1) as Hk1 by (unfold k; rewrite merge_sort_Permutation; done).
  assert (StronglySorted key_le k) as Hs by (apply StronglySorted_merge_sort; apply _).
  assert (StronglySorted key_le k') as Hs' by (apply StronglySorted_merge_sort; apply _).
  clearbody k k'. clear l l' Hnd Hp. revert k' Hk Hs'.
  induction k as [|[a x] k IH]; intros k' Hk Hs'; [by apply Permutation_nil in Hk|].
  destruct k' as [|[b y] k']; [by symmetry in Hk; apply Permutation_nil_cons in Hk|].
  apply StronglySorted_inv in Hs as [Hs Ha], Hs' as [Hs' Hb].
  simpl in Hk1. apply NoDup_cons in Hk1 as [Hna Hk1].
  assert (a = b) as <-.
  { apply string_le_antisymm.
    - assert ((b, y) ∈ (a, x) :: k) as [E|Hin]%elem_of_cons by (rewrite Hk; left).
      + injection E as -> ->. destruct (string_le_total a a); done.
      + rewrite Forall_forall in Ha. by apply (Ha (b, y)).
    - assert ((a, x) ∈ (b, y) :: k') as [E|Hin]%elem_of_cons by (rewrite <- Hk; left).
      + injection E as -> ->. destruct (string_le_total b b); done.
      + rewrite Forall_forall in Hb. by apply (Hb (a, x)). }
  assert ((a, y) ∈ (a, x) :: k) as [E|Hin]%elem_of_cons by (rewrite Hk; left).
  - injection E as ->. f_equal. apply IH; [done|done| |done]. by apply Permutation_cons_inv in Hk.
  - exfalso. apply Hna, list_elem_of_fmap. by exists (a, y).
Qed.

(** ** The hash of a value *)

(** The same value, up to the order of the keys of its objects. *)
#[warnings="-register-all"]
Inductive same_value : Json → Json → Prop :=
  | same_leaf j : same_value j j
  | same_array l l' : Forall2 same_value l l' → same_value (JArray l) (JArray l')
  | same_object l m l' :
      NoDup l.*1 → Forall2 (λ p q, p.1 = q.1 ∧ same_value p.2 q.2) l m → m ≡ₚ l' →
      same_value (JObject l) (JObject l').

Definition propertyText (p : string * Json) : string * string := (p.1, stableStringify p.2).

Lemma stableStringify_object l :
  stableStringify (JObject l) =
  "{" +:+ join "," (jsonProperty <$> merge_sort key_le (propertyText <$> l)) +:+ "}".
Proof.
  simpl. do 5 f_equal. apply list_fmap_ext. by intros i [k v] _.
Qed.

Lemma propertyText_keys l : (propertyText <$> l).*1 = l.*1.
Proof. rewrite <- list_fmap_compose. by apply list_fmap_ext. Qed.

Lemma stableStringify_same a b : same_value a b → stableStringify a = stableStringify b.
Proof.
  revert a b. fix IH 3. intros a b [j|l l' Hl|l m l' Hnd Hl Hp].
  - reflexivity.
  - change (stableStringify (JArray l)) with ("[" +:+ join "," (stableStringify <$> l) +:+ "]").
    change (stableStringify (JArray l')) with ("[" +:+ join "," (stableStringify <$> l') +:+ "]").
    do 3 f_equal. induction Hl as [|x y l l' Hxy _ IHl]; [done|].
    rewrite !fmap_cons. by rewrite (IH _ _ Hxy), IHl.
  - rewrite !stableStringify_object. do 4 f_equal.
    assert (propertyText <$> l = propertyText <$> m) as E.
    { clear Hnd Hp. induction Hl as [|p q l m [Hk Hv] _ IHl]; [done|].
      rewrite !fmap_cons. unfold propertyText at 1 3. by rewrite Hk, (IH _ _ Hv), IHl. }
    rewrite E. apply sorted_keys_unique; [|by rewrite Hp].
    by rewrite <- E, propertyText_keys.
Qed.

Lemma hexDigits_bounds n z : 0 ≤ z < 16 ^ Z.of_nat n → Forall (λ d, 0 ≤ d < 16) (hexDigits n z).
Proof.
  revert z. induction n as [|n IH]; intros z Hz; simpl; [constructor|].
  case_decide; [by repeat constructor; lia|]. constructor; [by apply Z.mod_pos_bound|].
  apply IH. split; [apply Z.div_pos; lia|]. apply Z.div_lt_upper_bound; [lia|].
  rewrite <- Z.pow_succ_r, <- Nat2Z.inj_succ by lia. lia.
Qed.

Lemma hexDigits_length n z : (length (hexDigits n z) ≤ n)%nat.
Proof. revert z. induction n as [|n IH]; intros z; simpl; [lia|]. case_decide; simpl; [lia|]. specialize (IH (z / 16)). lia. Qed.

(** The value of digits, the lowest first. *)
Definition digitsValue (l : list Z) : Z := foldr (λ d z, d + 16 * z) 0 l.

Lemma hexDigits_value n z : 0 ≤ z < 16 ^ Z.of_nat n → digitsValue (hexDigits n z) = z.
Proof.
  revert z. induction n as [|n IH]; intros z Hz; simpl; [simpl in Hz; lia|].
  case_decide; simpl; [lia|]. fold (digitsValue (hexDigits n (z / 16))). rewrite IH.
  - pose proof (Z.div_mod z 16). lia.
  - split; [apply Z.div_pos; lia|]. apply Z.div_lt_upper_bound; [lia|].
    rewrite <- Z.pow_succ_r, <- Nat2Z.inj_succ by lia. lia.
Qed.

(** The hash in exact arithmetic. *)
Definition djb2 (s : string) : Z :=
  foldl (λ h c, 33 * h + Z.of_N (Ascii.N_of_ascii c)) 5381 (String.list_ascii_of_string s).

Lemma hashChars_mod s h g :
  h mod 2 ^ 32 = g mod 2 ^ 32 →
  hashChars h s mod 2 ^ 32 =
  foldl (λ h c, 33 * h + Z.of_N (Ascii.N_of_ascii c)) g (String.list_ascii_of_string s) mod 2 ^ 32.
Proof.
  revert h g. induction s as [|c s IH]; intros h g Hg; [done|].
  cbn [hashChars String.list_ascii_of_string foldl]. apply IH. rewrite toInt32_mod.
  rewrite Zplus_mod, (Zplus_mod (toInt32 _)), toInt32_mod, <- (Zplus_mod _ h), Z.shiftl_mul_pow2 by lia.
  replace (h * 2 ^ 5 + h) with (33 * h) by lia.
  rewrite (Zmult_mod 33 h), Hg, <- Zmult_mod, <- Zplus_mod. done.
Qed.

(** The text of digits, the highest first. *)
Definition digitsText (l : list Z) : string := String.string_of_list_ascii (hex_char <$> l).

Lemma digitsText_app l m : digitsText (l ++ m) = digitsText l +:+ digitsText m.
Proof. induction l as [|d l IH]; [done|]. exact (f_equal (String (hex_char d)) IH). Qed.

Lemma digitsText_length l : String.length (digitsText l) = length l.
Proof. induction l as [|d l IH]; [done|]. exact (f_equal S IH). Qed.

Lemma zeros_text n : zeros n = digitsText (replicate n 0).
Proof. induction n as [|n IH]; [done|]. exact (f_equal (String "0"%char) IH). Qed.

Lemma digitsValue_zeros l n : digitsValue (l ++ replicate n 0) = digitsValue l.
Proof.
  induction l as [|d l IH]; simpl; [|by rewrite IH].
  induction n as [|n IH]; [done|]. simpl. by rewrite IH.
Qed.

(** Eight digits are enough for 32 bits. *)
Lemma toHex_digits z :
  0 ≤ z < 2 ^ 32 →
  ∃ digits, toHex z = digitsText digits ∧ (length digits ≤ 8)%nat ∧
    Forall (λ d, 0 ≤ d < 16) digits ∧ digitsValue (reverse digits) = z.
Proof.
  intros Hz. exists (reverse (hexDigits 8 z)). split_and!.
  - done.
  - rewrite length_reverse. apply hexDigits_length.
  - apply Forall_reverse, hexDigits_bounds. exact Hz.
  - rewrite reverse_involutive. by apply hexDigits_value.
Qed.

Lemma padStart_digits z :
  0 ≤ z < 2 ^ 32 →
  ∃ digits, padStart 8 (toHex z) = digitsText digits ∧ length digits = 8%nat ∧
    Forall (λ d, 0 ≤ d < 16) digits ∧ digitsValue (reverse digits) = z.
Proof.
  intros Hz. destruct (toHex_digits z Hz) as (digits & E & Hlen & Hd & Hv).
  exists (replicate (8 - length digits) 0 ++ digits). unfold padStart. split_and!.
  - by rewrite E, digitsText_app, digitsText_length, zeros_text.
  - rewrite length_app, length_replicate. lia.
  - apply Forall_app. split; [apply Forall_replicate; lia|done].
  - by rewrite reverse_app, reverse_replicate, digitsValue_zeros.
Qed.

(** Equal values up to the order of keys, at any depth, have the same hash:
    eight hexadecimal digits of the 32 low bits of the exact DJB2 hash of their
    text, and its length. *)
Theorem hashBlob_stable a b :
  same_value a b → Z.of_nat (String.length (stableStringify a)) < 2 ^ 32 →
  hashBlob a = hashBlob b ∧
  ∃ digits lengthDigits,
    hashBlob a = digitsText digits +:+ "-" +:+ digitsText lengthDigits ∧
    length digits = 8%nat ∧ Forall (λ d, 0 ≤ d < 16) (digits ++ lengthDigits) ∧
    digitsValue (reverse digits) = djb2 (stableStringify a) mod 2 ^ 32 ∧
    digitsValue (reverse lengthDigits) = Z.of_nat (String.length (stableStringify a)).
Proof.
  intros Hab Hlen. unfold hashBlob. rewrite <- (stableStringify_same _ _ Hab). split; [done|].
  set (s := stableStringify a) in *.
  destruct (padStart_digits (hashChars 5381 s mod 2 ^ 32)) as (digits & -> & Hd & Hb & Hv).
  { by apply Z.mod_pos_bound. }
  destruct (toHex_digits (Z.of_nat (String.length s) mod 2 ^ 32)) as (ld & -> & _ & Hb' & Hv').
  { by apply Z.mod_pos_bound. }
  exists digits, ld. split_and!; [done|done|by apply Forall_app| |].
  - rewrite Hv. by apply hashChars_mod.
  - rewrite Hv'. apply Z.mod_small. lia.
Qed.

Lemma hashBlob_stable_witness :
  let a := JObject [("hello", JString "world"); ("at", JArray [JObject [("x", JNumber "1"); ("y", JNull)]])] in
  let b := JObject [("at", JArray [JObject [("y", JNull); ("x", JNumber "1")]]); ("hello", JString "world")] in
  hashBlob a = hashBlob b ∧ String.length (hashBlob a) = 11%nat.
Proof.
  intros a b. split; [|vm_compute; reflexivity].
  apply (hashBlob_stable a b); [|vm_compute; reflexivity].
  eapply same_object; [decided| |apply Permutation_swap].
  repeat constructor. simpl.
  eapply same_object; [decided| |apply Permutation_swap]. repeat constructor.
Defined.

(** ** What is saved waits to be pushed *)

Section invariant.
(** What the server holds, with its version, and the scenes about which nothing
    is claimed: those somebody else wrote last. *)
Context (doc : string → option (Z * Json)) (others : string → Prop).

(** The hash of a record is that of its value; a record whose value is not the
    one the server acknowledged waits in the outbox or is in conflict; one that
    does not wait is what the server holds; and a conflict holds the server's
    side. *)
Record rec_ok (id : string) (waits : Prop) (r : Rec) : Prop := {
  ro_hash : r_hash r ≠ "" → r_hash r = hashBlob (r_blob r);
  ro_waits : r_hash r ≠ "" → r_syncedHash r ≠ Some (r_hash r) → waits ∨ r_state r = conflict;
  ro_server : ¬ others id → ¬ waits → r_state r ≠ conflict → r_hash r ≠ "" →
    ∃ blob, doc id = Some (r_version r, blob) ∧ hashBlob blob = r_hash r;
  ro_conflict : ¬ others id → r_state r = conflict →
    ∃ version blob, r_serverVersion r = Some version ∧ r_serverBlob r = Some blob ∧
      doc id = Some (version, blob)
}.

Lemma rec_ok_weaken id (P Q : Prop) r : (P → Q) → rec_ok id P r → rec_ok id Q r.
Proof. intros HPQ [? Hw Hs ?]. split; [done| |auto|done]. intros H1 H2. destruct (Hw H1 H2); auto. Qed.

(** A record that waits. *)
Lemma rec_ok_waiting id r :
  (r_hash r ≠ "" → r_hash r = hashBlob (r_blob r)) → r_state r ≠ conflict → rec_ok id True r.
Proof. intros Hh Hs. split; [done|by left|tauto|done]. Qed.

(** The records and the outbox between two events, or inside one. *)
Record core_ok (e : Engine) : Prop := {
  core_keyed : keyed r_id (recs e);
  core_nodup : NoDup (outbox e);
  core_outbox : ∀ id, id ∈ outbox e → is_Some (recs e !! id);
  core_recs : ∀ id r, recs e !! id = Some r → rec_ok id (id ∈ outbox e) r
}.

(** The push waited for is that of a scene of the outbox, not in conflict, at the
    version the push is based on. *)
Definition push_ok (e : Engine) : Prop :=
  ∀ p, flushing e = Some p →
    p_id p ∈ outbox e ∧
    (∃ r, recs e !! p_id p = Some r ∧ r_state r ≠ conflict ∧ r_version r = p_baseVersion p) ∧
    (p_hash p ≠ "" → p_hash p = hashBlob (p_blob p)).

Definition engine_ok (e : Engine) : Prop := core_ok e ∧ push_ok e.

(** What the engine keeps beside them does not matter. *)
Lemma core_ok_eq e e' :
  recs e' = recs e → outbox e' = outbox e → core_ok e → core_ok e'.
Proof. intros Er Eo [? ? ? ?]. by split; rewrite ?Er, ?Eo. Qed.

Lemma core_ok_afterStored b e : core_ok e → core_ok (afterStored b e).
Proof. by apply core_ok_eq. Qed.

Lemma engine_ok_eq e e' :
  recs e' = recs e → outbox e' = outbox e → flushing e' = flushing e →
  engine_ok e → engine_ok e'.
Proof.
  intros Er Eo Ef [Hc Hp]. split; [by eapply core_ok_eq|].
  unfold push_ok. by rewrite Er, Eo, Ef.
Qed.

(** The record of one scene changes, and whether it is in the outbox. *)
Lemma core_ok_step id f e e' :
  recs e' = alter f id (recs e) → (∀ r, r_id (f r) = r_id r) →
  NoDup (outbox e') → (∀ i, i ≠ id → i ∈ outbox e' ↔ i ∈ outbox e) →
  (id ∈ outbox e' → is_Some (recs e !! id)) →
  (∀ r, recs e !! id = Some r → rec_ok id (id ∈ outbox e') (f r)) →
  core_ok e → core_ok e'.
Proof.
  intros Er Hid Hnd Hother Hsome Hf [Hk Hn Ho Hr]. split.
  - rewrite Er. by apply keyed_alter.
  - done.
  - intros i Hi. rewrite Er. destruct (decide (id = i)) as [<-|Hne].
    + destruct (Hsome Hi) as [r E]. rewrite lookup_alter_eq, E. by eexists.
    + rewrite lookup_alter_ne by done. by apply Ho, Hother.
  - intros i r. rewrite Er. destruct (decide (id = i)) as [<-|Hne].
    + rewrite lookup_alter_eq. destruct (recs e !! id) as [r0|] eqn:E; [|done].
      intros [= <-]. by apply Hf.
    + rewrite lookup_alter_ne by done. intros E. eapply rec_ok_weaken; [|by apply Hr].
      by apply Hother.
Qed.

Lemma core_ok_assign id f e :
  (∀ r, r_id (f r) = r_id r) →
  (∀ r, recs e !! id = Some r → rec_ok id (id ∈ outbox e) (f r)) →
  core_ok e → core_ok (assign id f e).
Proof.
  intros Hid Hf Hc. apply (core_ok_step id f e); try done; [apply Hc|].
  intros Hi. by apply Hc.
Qed.

(** Adding a scene to the outbox, its record changed. *)
Lemma core_ok_enqueue id f e :
  is_Some (recs e !! id) → (∀ r, r_id (f r) = r_id r) →
  (∀ r, recs e !! id = Some r → rec_ok id True (f r)) →
  core_ok e → core_ok (addToOutbox id (assign id f e)).
Proof.
  intros Hsome Hid Hf Hc. unfold addToOutbox. simpl. case_decide as Hin.
  - apply core_ok_assign; [done| |done]. intros r Hr. eapply rec_ok_weaken; [|by apply Hf]. done.
  - apply (core_ok_step id f e); try done; simpl.
    + apply NoDup_app. split_and!; [apply Hc| |apply NoDup_singleton].
      intros i Hi E%list_elem_of_singleton. congruence.
    + intros i Hne. rewrite elem_of_app, list_elem_of_singleton. naive_solver.
    + intros r Hr. eapply rec_ok_weaken; [|by apply Hf]. intros _.
      apply elem_of_app. right. by left.
Qed.

Lemma elem_of_removeFirst id x l : NoDup l → x ∈ removeFirst id l ↔ x ∈ l ∧ x ≠ id.
Proof.
  induction 1 as [|y l Hy Hl IH]; simpl; [set_solver|]. case_decide as E.
  - subst y. rewrite elem_of_cons. split; [|naive_solver]. intros Hx. split; [by right|congruence].
  - rewrite !elem_of_cons, IH. naive_solver.
Qed.

Lemma NoDup_removeFirst id l : NoDup l → NoDup (removeFirst id l).
Proof.
  induction 1 as [|y l Hy Hl IH]; simpl; [constructor|]. case_decide; [done|].
  constructor; [|done]. rewrite elem_of_removeFirst by done. naive_solver.
Qed.

(** Taking a scene out of the outbox, its record changed. *)
Lemma core_ok_dequeue id f e e' :
  recs e' = alter f id (recs e) → outbox e' = removeFirst id (outbox e) →
  (∀ r, r_id (f r) = r_id r) → (∀ r, recs e !! id = Some r → rec_ok id False (f r)) →
  core_ok e → core_ok e'.
Proof.
  intros Er Eo Hid Hf Hc. pose proof (core_nodup e Hc) as Hn.
  apply (core_ok_step id f e); try done; rewrite Eo.
  - by apply NoDup_removeFirst.
  - intros i Hne. rewrite elem_of_removeFirst by done. naive_solver.
  - rewrite elem_of_removeFirst by done. naive_solver.
  - intros r Hr. eapply rec_ok_weaken; [|by apply Hf]. done.
Qed.

(** Taking it out and putting it back at the end. *)
Lemma core_ok_requeue id f e e' :
  is_Some (recs e !! id) → recs e' = alter f id (recs e) →
  outbox e' = removeFirst id (outbox e) ++ [id] → (∀ r, r_id (f r) = r_id r) →
  (∀ r, recs e !! id = Some r → rec_ok id True (f r)) →
  core_ok e → core_ok e'.
Proof.
  intros Hsome Er Eo Hid Hf Hc. pose proof (core_nodup e Hc) as Hn.
  apply (core_ok_step id f e); try done; rewrite Eo.
  - apply NoDup_app. split_and!; [by apply NoDup_removeFirst| |apply NoDup_singleton].
    intros i [_ Hi]%elem_of_removeFirst E%list_elem_of_singleton; done.
  - intros i Hne. rewrite elem_of_app, elem_of_removeFirst, list_elem_of_singleton by done.
    naive_solver.
  - intros r Hr. eapply rec_ok_weaken; [|by apply Hf]. intros _.
    apply elem_of_app. right. by left.
Qed.

(** Changing only the state of a record, not from a conflict nor to one. *)
Lemma rec_ok_state id waits s r :
  s ≠ conflict → waits ∨ r_state r ≠ conflict → rec_ok id waits r →
  rec_ok id waits (set r_state (λ _, s) r).
Proof.
  intros Hs Hw [Hh Hu Hd Hc]. split; simpl; [done| | |done].
  - intros H1 H2. destruct (Hu H1 H2) as [?|?]; [by left|]. destruct Hw; [by left|done].
  - intros Ho Hn _ Hne. destruct Hw; [done|]. by apply Hd.
Qed.

(** ** The loop of [flush] *)

Lemma finishFlush_ok e : core_ok e → engine_ok (finishFlush e).
Proof.
  intros Hc. unfold finishFlush. destruct (flushQueued _);
    (split; [by apply (core_ok_eq e)|by intros p]).
Qed.

Lemma pushNext_ok l e : outbox e = l → core_ok e → engine_ok (pushNext l e).
Proof.
  intros <- Hc. destruct (outbox e) as [|id l] eqn:Eo; [by apply finishFlush_ok|]. simpl.
  destruct (online e); [|by apply finishFlush_ok].
  assert (id ∈ outbox e) as Hin by (rewrite Eo; left).
  destruct (core_outbox e Hc id Hin) as [r E]. rewrite E. split.
  - apply (core_ok_eq (assign id (set r_state (λ _, syncing)) e)); [done..|].
    apply core_ok_assign; [done| |done]. intros r' E'.
    apply rec_ok_state; [done|by left|by apply (core_recs e Hc)].
  - intros p [= <-]. simpl. split; [done|]. rewrite lookup_alter_eq, E.
    split; [by eexists|]. apply (core_recs e Hc _ _ E).
Qed.

Lemma flush_ok e : engine_ok e → engine_ok (flush e).
Proof.
  intros [Hc Hp]. unfold flush. destruct (flushing e) eqn:Ef.
  - by apply (engine_ok_eq e).
  - case_decide; [done|by apply pushNext_ok].
Qed.

(** The push waited for is still that of a waiting scene. *)
Lemma push_ok_update e e' :
  flushing e' = flushing e →
  (∀ id r, id ∈ outbox e → recs e !! id = Some r → r_state r ≠ conflict →
     id ∈ outbox e' ∧
     ∃ r', recs e' !! id = Some r' ∧ r_state r' ≠ conflict ∧ r_version r' = r_version r) →
  push_ok e → push_ok e'.
Proof.
  intros Ef Hu Hp p Hf. rewrite Ef in Hf. destruct (Hp p Hf) as (Hin & (r & E & Hs & Hv) & Hh).
  destruct (Hu _ r Hin E Hs) as (Hin' & r' & E' & Hs' & Hv').
  split; [done|]. split; [|done]. exists r'. by rewrite Hv'.
Qed.

(** The record of one scene changes, its version does not. *)
Lemma push_ok_assign id f e e' :
  recs e' = alter f id (recs e) → flushing e' = flushing e →
  (∀ i, i ∈ outbox e → i ∈ outbox e') →
  (∀ r, recs e !! id = Some r → r_state r ≠ conflict →
     r_state (f r) ≠ conflict ∧ r_version (f r) = r_version r) →
  push_ok e → push_ok e'.
Proof.
  intros Er Ef Ho Hf. apply push_ok_update; [done|]. intros i r Hin E Hs. split; [by apply Ho|].
  rewrite Er. destruct (decide (id = i)) as [<-|Hne].
  - rewrite lookup_alter_eq, E. eexists. split; [done|]. by apply Hf.
  - rewrite lookup_alter_ne by done. by exists r.
Qed.

Lemma waiting_conflict e : waiting e ≠ conflict.
Proof. unfold waiting. by destruct (online e). Qed.

Lemma recs_addToOutbox id e : recs (addToOutbox id e) = recs e.
Proof. unfold addToOutbox. by case_decide. Qed.

Lemma flushing_addToOutbox id e : flushing (addToOutbox id e) = flushing e.
Proof. unfold addToOutbox. by case_decide. Qed.

Lemma elem_of_addToOutbox id i e : i ∈ outbox e → i ∈ outbox (addToOutbox id e).
Proof. intros Hi. unfold addToOutbox. case_decide; [done|]. apply elem_of_app. by left. Qed.

Lemma removeFirst_not_in id l : NoDup l → id ∉ removeFirst id l.
Proof. intros Hl. rewrite elem_of_removeFirst by done. naive_solver. Qed.

(** What an answer tells of a scene that nobody else wrote. *)
Definition answer_ok (p : Push) (result : PushResult) : Prop :=
  ¬ others (p_id p) →
  match result with
  | PushOk version => doc (p_id p) = Some (default (p_baseVersion p + 1) version, p_blob p)
  | PushConflict version server => ∃ v, version = Some v ∧ doc (p_id p) = Some (v, server)
  | _ => True
  end.

Lemma flushResult_ok result now e :
  (∀ p, flushing e = Some p → answer_ok p result) →
  engine_ok e → engine_ok (flushResult result now e).
Proof.
  intros Ha [Hc Hp]. unfold flushResult. destruct (flushing e) as [p|] eqn:Ef; [|by split].
  destruct (Hp p Ef) as (Hin & (r & E & Hs & Hv) & Hph). specialize (Ha p eq_refl).
  destruct result as [version|version server| |]; rewrite ?E; simpl in Ha.
  - apply pushNext_ok; [done|]. case_decide as Hh.
    + eapply (core_ok_dequeue (p_id p) _ e);
        [simpl; apply alter_alter_eq|done|done| |done].
      intros r' E'. assert (r' = r) as -> by congruence. split; simpl; [|congruence| |done].
      * apply (core_recs e Hc _ _ E).
      * intros Ho _ _ Hne. exists (p_blob p). rewrite (Ha Ho). split; [done|].
        rewrite Hh. symmetry. apply Hph. congruence.
    + unfold addToOutbox. simpl.
      rewrite decide_False by apply removeFirst_not_in, Hc.
      eapply (core_ok_requeue (p_id p) _ e);
        [by eexists|simpl; apply alter_alter_eq|done|done| |done].
      intros r' E'. apply rec_ok_waiting; [apply (core_recs e Hc _ _ E')|apply waiting_conflict].
  - apply pushNext_ok; [done|].
    eapply (core_ok_dequeue (p_id p) _ e); [done|done|done| |done].
    intros r' E'. split; simpl; [apply (core_recs e Hc _ _ E')|by right|done|].
    intros Ho _. destruct (Ha Ho) as (v & -> & Hd). by exists v, server.
  - apply finishFlush_ok. eapply (core_ok_eq (assign _ _ _)); [done..|].
    apply core_ok_assign; [done| |done]. intros r' E'.
    apply rec_ok_state; [done|by left|by apply (core_recs e Hc)].
  - apply finishFlush_ok. eapply (core_ok_eq (assign _ _ _)); [done..|].
    apply core_ok_assign; [done| |done]. intros r' E'.
    apply rec_ok_state; [by destruct (online e)|by left|by apply (core_recs e Hc)].
Qed.

(** ** The other events *)

Lemma newRec_ok waits id : rec_ok id waits (newRec id).
Proof. split; simpl; done. Qed.

Lemma ensureRec_lookup id e : recs (ensureRec id e) !! id = Some (default (newRec id) (recs e !! id)).
Proof. unfold ensureRec. destruct (recs e !! id) eqn:E; [done|]. simpl. apply lookup_insert_eq. Qed.

Lemma ensureRec_ok id e : engine_ok e → engine_ok (ensureRec id e).
Proof.
  intros [Hc Hp]. unfold ensureRec. destruct (recs e !! id) eqn:E; [done|].
  destruct Hc as [Hk Hn Ho Hr]. split; [split; simpl|].
  - by apply keyed_insert.
  - done.
  - intros i Hi. destruct (decide (id = i)) as [<-|Hne].
    + rewrite lookup_insert_eq. by eexists.
    + rewrite lookup_insert_ne by done. by apply Ho.
  - intros i r. destruct (decide (id = i)) as [<-|Hne].
    + rewrite lookup_insert_eq. intros [= <-]. apply newRec_ok.
    + rewrite lookup_insert_ne by done. apply Hr.
  - apply (push_ok_update e); [done| |done]. intros i r Hin Hi Hs. split; [done|].
    exists r. simpl. rewrite lookup_insert_ne by congruence. done.
Qed.

(** The record of one scene changes, the push waited for stays. *)
Lemma engine_ok_assign id f e e' :
  recs e' = alter f id (recs e) → outbox e' = outbox e → flushing e' = flushing e →
  (∀ r, r_id (f r) = r_id r) →
  (∀ r, recs e !! id = Some r → rec_ok id (id ∈ outbox e) r → rec_ok id (id ∈ outbox e) (f r)) →
  (∀ r, recs e !! id = Some r → r_state r ≠ conflict →
     r_state (f r) ≠ conflict ∧ r_version (f r) = r_version r) →
  engine_ok e → engine_ok e'.
Proof.
  intros Er Eo Ef Hid Hf Hs [Hc Hp]. split.
  - apply (core_ok_eq (assign id f e)); [done..|]. apply core_ok_assign; [done| |done].
    intros r E. apply Hf; [done|]. by apply Hc.
  - by apply (push_ok_assign id f e); [..|rewrite Eo| |].
Qed.

Lemma saveLocal_ok id blob title now e : engine_ok e → engine_ok (saveLocal id blob title now e).
Proof.
  intros He. unfold saveLocal.
  pose proof (ensureRec_lookup id e) as E. pose proof (ensureRec_ok id e He) as He1.
  set (rec := default (newRec id) (recs e !! id)) in *. clearbody rec.
  set (e1 := ensureRec id e) in *. clearbody e1. clear e He.
  set (e2 := match title with Some _ => assign id (set r_title (λ _, title)) e1 | None => e1 end).
  assert (engine_ok e2 ∧ ∃ r, recs e2 !! id = Some r ∧ r_hash r = r_hash rec ∧
    r_syncedHash r = r_syncedHash rec ∧ r_state r = r_state rec) as [He2 (r & Er & Hh & Hsh & Hst)].
  { unfold e2. destruct title as [t|]; [|split; [done|by exists rec]]. split.
    - apply (engine_ok_assign id (set r_title (λ _, Some t)) e1); try done.
      intros r _ [? ? ? ?]. by split.
    - eexists. split; [simpl; rewrite lookup_alter_eq, E; done|done]. }
  clearbody e2. clear E He1 e1.
  case_decide as Hd.
  - destruct Hd as (H1 & H2 & H3 & H4).
    apply (engine_ok_assign id (λ r, r <|r_blob := blob|> <|r_state := synced|>) e2); try done.
    intros r' Er'. rewrite Er in Er'. injection Er' as <-. intros [? ? Hd ?].
    split; simpl; [by rewrite Hh|congruence| |done].
    intros Ho Hn _. apply Hd; [done|done|congruence].
  - destruct He2 as [Hc Hp]. split.
    + apply core_ok_afterStored.
      apply (core_ok_enqueue id (λ r, r <|r_blob := blob|> <|r_hash := hashBlob blob|>
               <|r_dirtyAt := Some now|> <|r_state := waiting e2|>)); [by eexists|done| |done].
      intros r' _. apply rec_ok_waiting; [done|apply waiting_conflict].
    + eapply (push_ok_assign id _ e2);
        [simpl; rewrite recs_addToOutbox; done|simpl; by rewrite flushing_addToOutbox| | |done].
      * intros i Hi. simpl. by apply elem_of_addToOutbox.
      * intros r' _ _. split; [apply waiting_conflict|done].
Qed.

Lemma markEditing_ok id e : engine_ok e → engine_ok (markEditing id e).
Proof.
  intros He. unfold markEditing. pose proof (ensureRec_lookup id e) as E.
  apply (ensureRec_ok id) in He. case_decide as Hd; [done|].
  apply (engine_ok_assign id (set r_state (λ _, editing)) (ensureRec id e)); try done.
  intros r Er Hr. rewrite Er in E. injection E as ->. apply rec_ok_state; [done|by right|done].
Qed.

Lemma resolveConflict_ok id cloud now e : engine_ok e → engine_ok (resolveConflict id cloud now e).
Proof.
  intros [Hc Hp]. unfold resolveConflict. destruct (recs e !! id) as [rec|] eqn:E; [|done].
  case_decide as Hd; [done|].
  assert (∀ i r, i ∈ outbox e → recs e !! i = Some r → r_state r ≠ conflict → i ≠ id) as Hother
    by (intros i r _ Hi Hs ->; congruence).
  destruct cloud; (split; [|]).
  - eapply (core_ok_dequeue id _ e); [done..|reflexivity| |done].
    intros r Er. assert (r = rec) as -> by congruence. split; simpl; [done..| |done].
    intros Ho _ _ _. destruct (ro_conflict _ _ _ (core_recs e Hc _ _ E) Ho Hd) as (v & b & -> & -> & Hdoc).
    by exists b.
  - apply (push_ok_update e); [done| |done]. intros i r Hin Hi Hs.
    specialize (Hother i r Hin Hi Hs). split; [simpl; by apply elem_of_removeFirst; [apply Hc|]|].
    exists r. simpl. by rewrite lookup_alter_ne.
  - apply core_ok_afterStored.
    apply (core_ok_enqueue id); [by eexists|done| |done].
    intros r Er. apply rec_ok_waiting; [apply (core_recs e Hc _ _ Er)|apply waiting_conflict].
  - apply (push_ok_update e); [simpl; by rewrite flushing_addToOutbox| |done].
    intros i r Hin Hi Hs. specialize (Hother i r Hin Hi Hs).
    split; [simpl; by apply elem_of_addToOutbox|].
    exists r. simpl. rewrite recs_addToOutbox. simpl. by rewrite lookup_alter_ne.
Qed.

(** What the local store holds: a draft that the server did not acknowledge is in
    the stored outbox or in conflict. *)
Definition drafts_ok (drafts : list Rec) (saved : list string) : Prop :=
  Forall (λ r, rec_ok (r_id r) (r_id r ∈ saved) r) drafts.

(** While it is read: what is left of the stored outbox is still to be added. *)
Record hydrating (saved : list string) (e0 e : Engine) : Prop := {
  hyd_keyed : keyed r_id (recs e);
  hyd_nodup : NoDup (outbox e);
  hyd_outbox : ∀ id, id ∈ outbox e → is_Some (recs e !! id);
  hyd_recs : ∀ id r, recs e !! id = Some r → rec_ok id (id ∈ outbox e ∨ id ∈ saved) r;
  hyd_flushing : flushing e = flushing e0;
  hyd_kept : ∀ id r, recs e0 !! id = Some r → recs e !! id = Some r;
  hyd_outbox_kept : ∀ id, id ∈ outbox e0 → id ∈ outbox e
}.

Lemma hydrating_start saved e : core_ok e → hydrating saved e e.
Proof.
  intros [? ? ? Hr]. split; try done. intros id r E.
  eapply rec_ok_weaken; [|by apply Hr]. by left.
Qed.

Lemma normalizeRec_ok id waits r : rec_ok id waits r → rec_ok id waits (normalizeRec r).
Proof.
  intros Hr. unfold normalizeRec. case_decide; [|done].
  apply rec_ok_state; [done|right; congruence|done].
Qed.

Lemma hydrating_draft saved e0 e r :
  rec_ok (r_id r) (r_id r ∈ saved) r → recs e !! r_id r = None →
  hydrating saved e0 e → hydrating saved e0 (e <| recs ::= <[r_id r := normalizeRec r]> |>).
Proof.
  intros Hr Hnone [Hk Hn Ho Hrs Hf Hkept Hout]. split; simpl; try done.
  - apply keyed_insert; [|done]. unfold normalizeRec. by case_decide.
  - intros id Hid. destruct (decide (r_id r = id)) as [<-|Hne].
    + rewrite lookup_insert_eq. by eexists.
    + rewrite lookup_insert_ne by done. by apply Ho.
  - intros id r'. destruct (decide (r_id r = id)) as [<-|Hne].
    + rewrite lookup_insert_eq. intros [= <-]. apply normalizeRec_ok.
      eapply rec_ok_weaken; [|exact Hr]. by right.
    + rewrite lookup_insert_ne by done. apply Hrs.
  - intros id r' E. rewrite lookup_insert_ne; [by apply Hkept|]. intros <-.
    apply Hkept in E. congruence.
Qed.

Lemma hydrating_saved id saved e0 e :
  hydrating (id :: saved) e0 e →
  hydrating saved e0 (if decide (is_Some (recs e !! id) ∧ id ∉ outbox e)
                      then e <| outbox ::= (λ l, l ++ [id]) |> else e).
Proof.
  intros [Hk Hn Ho Hrs Hf Hkept Hout]. case_decide as Hd.
  - destruct Hd as [Hsome Hin]. split; simpl; try done.
    + apply NoDup_app. split_and!; [done| |apply NoDup_singleton].
      intros i Hi E%list_elem_of_singleton. congruence.
    + intros i [Hi|Hi%list_elem_of_singleton]%elem_of_app; [by apply Ho|by subst i].
    + intros i r E. eapply rec_ok_weaken; [|by apply Hrs].
      rewrite elem_of_app, list_elem_of_singleton, elem_of_cons. naive_solver.
    + intros i Hi. apply elem_of_app. left. by apply Hout.
  - split; try done. intros i r E. eapply rec_ok_weaken; [|by apply Hrs].
    intros [?|[->|?]%elem_of_cons]; auto.
    destruct (decide (id ∈ outbox e)); [auto|]. destruct Hd. split; [by eexists|done].
Qed.

Lemma hydrate_ok drafts saved e :
  drafts_ok drafts saved → engine_ok e → engine_ok (hydrate drafts saved e).
Proof.
  intros Hd [Hc Hp]. unfold hydrate.
  lazymatch goal with |- context [foldl ?h (e, false) drafts] => set (f := h) end.
  assert (∀ p, hydrating saved e p.1 → hydrating saved e (foldl f p drafts).1) as Hfold.
  { induction Hd as [|r drafts Hr _ IH]; intros p Hh; [done|]. apply IH. destruct p as [e1 changed].
    unfold f. destruct (recs e1 !! r_id r) eqn:E; [done|]. by apply hydrating_draft. }
  specialize (Hfold (e, false) (hydrating_start saved e Hc)).
  destruct (foldl f (e, false) drafts) as [e1 changed1]. simpl in Hfold.
  lazymatch goal with |- context [foldl ?h (e1, changed1) saved] => set (g := h) end.
  assert (∀ saved p, hydrating saved e p.1 → hydrating [] e (foldl g p saved).1) as Hfold'.
  { clear. intros saved. induction saved as [|id saved IH]; intros p Hh; [done|]. apply IH.
    destruct p as [e1 changed]. apply hydrating_saved in Hh. unfold g. by destruct (decide _). }
  specialize (Hfold' saved (e1, changed1) Hfold).
  destruct (foldl g (e1, changed1) saved) as [e2 changed2]. simpl in Hfold'.
  destruct Hfold' as [Hk Hn Ho Hr Hf Hkept Hout].
  enough (engine_ok e2) by (destruct changed2; [by apply (engine_ok_eq e2)|done]).
  split; [split; try done|].
  - intros id r E. eapply rec_ok_weaken; [|by apply Hr]. intros [?|[]%elem_of_nil]; done.
  - apply (push_ok_update e); [done| |done]. intros id r Hin E Hs.
    split; [by apply Hout|]. exists r. by rewrite (Hkept _ _ E).
Qed.

Lemma markOutbox_ok s but e :
  conflict ∈ but → s ≠ conflict → engine_ok e → engine_ok (markOutbox s but e).
Proof.
  intros Hb Hs. unfold markOutbox. generalize (outbox e). intros l. revert e.
  induction l as [|id l IH]; intros e He; [done|]. simpl. apply IH.
  set (f := λ r, if decide (r_state r ∈ but) then r else r <|r_state := s|>).
  assert (∀ r, r_id (f r) = r_id r ∧ r_version (f r) = r_version r) as Hf
    by (intros r; unfold f; by case_decide).
  apply (engine_ok_assign id f e); try done; [intros r; apply Hf| |].
  - intros r _ Hr. unfold f. case_decide as Hd; [done|]. apply rec_ok_state; [done| |done].
    right. by intros E; rewrite E in Hd.
  - intros r _ Hr. split; [|apply Hf]. unfold f. by case_decide.
Qed.

(** An event, with a local store that is consistent. *)
Definition event_ok (e : Engine) (ev : Event) : Prop :=
  match ev with
  | Hydrate drafts saved => drafts_ok drafts saved
  | Answer result _ => ∀ p, flushing e = Some p → answer_ok p result
  | _ => True
  end.

Lemma apply_ok ev e : event_ok e ev → engine_ok e → engine_ok (apply ev e).
Proof.
  intros Hev He. destruct ev as [id blob title now|id|id cloud now| | | |drafts saved| | | |n|result now];
    simpl in *.
  - by apply saveLocal_ok.
  - by apply markEditing_ok.
  - by apply resolveConflict_ok.
  - by apply (engine_ok_eq e).
  - unfold start. destruct (running e); [done|by apply (engine_ok_eq e)].
  - by apply (engine_ok_eq e).
  - by apply hydrate_ok.
  - destruct (running e); [|done]. unfold onOnline.
    apply (engine_ok_eq (markOutbox pending [conflict] (e <| online := true |>))); [done..|].
    apply markOutbox_ok; [by left|done|by apply (engine_ok_eq e)].
  - destruct (running e); [|done]. unfold onOffline.
    apply (engine_ok_eq (markOutbox offline [conflict; syncing] (e <| online := false |>))); [done..|].
    apply markOutbox_ok; [by left|done|by apply (engine_ok_eq e)].
  - destruct (running e); [|done]. unfold tick. case_decide; [by apply (engine_ok_eq e)|done].
  - destruct (tasks e !! n) as [[|thenFlush]|]; [| |done].
    + apply flush_ok. by apply (engine_ok_eq e).
    + unfold runTask. destruct thenFlush; by apply (engine_ok_eq e).
  - by apply flushResult_ok.
Qed.
End invariant.

(** ** The summary *)

(** No operation waits for the local store. *)
Definition stored (e : Engine) : Prop := Forall (λ t, t = FlushTask) (tasks e).

(** The summary is that of the engine, except while an operation waits. *)
Definition shown (e : Engine) : Prop := stored e → summary e = recompute e.

Lemma notify_shown e : shown (notify e).
Proof. by intros _. Qed.

Lemma shown_eq e e' :
  recs e' = recs e → outbox e' = outbox e → online e' = online e → summary e' = summary e →
  (stored e' → stored e) → shown e → shown e'.
Proof.
  intros Er Eo En Es Ht Hs Hst. rewrite Es, (Hs (Ht Hst)). unfold recompute, computeOverall, someScene, scenesList.
  by rewrite Er, Eo, En.
Qed.

Lemma afterStored_shown b e : shown (afterStored b e).
Proof.
  intros Hst. unfold stored in Hst. simpl in Hst. apply Forall_app in Hst as [_ Hst].
  by apply List.Forall_inv in Hst.
Qed.

Lemma stored_scheduleFlush e : stored (scheduleFlush e) → stored e.
Proof. unfold stored. simpl. intros [? _]%Forall_app. done. Qed.

Lemma scheduleFlush_shown e : shown e → shown (scheduleFlush e).
Proof. apply shown_eq; try done. apply stored_scheduleFlush. Qed.

Lemma finishFlush_shown e : shown e → shown (finishFlush e).
Proof.
  intros He. unfold finishFlush. destruct (flushQueued _); [apply scheduleFlush_shown|];
    by apply (shown_eq e).
Qed.

(** Every scene of the outbox has a record. *)
Definition backed (e : Engine) : Prop := ∀ id, id ∈ outbox e → is_Some (recs e !! id).

Lemma assign_lookup_is_Some id f e i : is_Some (recs e !! i) → is_Some (recs (assign id f e) !! i).
Proof.
  intros [r E]. simpl. destruct (decide (id = i)) as [<-|Hne].
  - rewrite lookup_alter_eq, E. by eexists.
  - rewrite lookup_alter_ne by done. by eexists.
Qed.

Lemma backed_assign id f e : backed e → backed (assign id f e).
Proof. intros He i Hi. by apply assign_lookup_is_Some, He. Qed.

Lemma backed_remove id e : backed e → backed (removeFromOutbox id e).
Proof.
  intros He i Hi. apply He. simpl in Hi. revert Hi. induction (outbox e) as [|x l IH]; [done|].
  simpl. case_decide; rewrite !elem_of_cons; [by right|]. intros [?|?]; [by left|right; auto].
Qed.

Lemma backed_add id e : is_Some (recs e !! id) → backed e → backed (addToOutbox id e).
Proof.
  intros Hs He. unfold addToOutbox. case_decide; [done|].
  intros i [Hi|Hi%list_elem_of_singleton]%elem_of_app; [by apply He|by subst].
Qed.

Lemma pushNext_shown l e : outbox e = l → backed e → shown e → shown (pushNext l e).
Proof.
  intros <- Ho He. destruct (outbox e) as [|id l] eqn:Eo; [by apply finishFlush_shown|]. simpl.
  destruct (online e); [|by apply finishFlush_shown].
  destruct (Ho id) as [r ->]; [rewrite Eo; left|].
  by apply (shown_eq (notify (assign id (set r_state (λ _, syncing)) e))).
Qed.

Lemma flush_shown e : backed e → shown e → shown (flush e).
Proof.
  intros Hb He. unfold flush. destruct (flushing e); [by apply (shown_eq e)|].
  case_decide; [done|by apply pushNext_shown].
Qed.

Lemma flushResult_shown result now e :
  backed e → (∀ p, flushing e = Some p → is_Some (recs e !! p_id p)) →
  shown e → shown (flushResult result now e).
Proof.
  intros Hb Hp He. unfold flushResult. destruct (flushing e) as [p|]; [|done].
  destruct (Hp p eq_refl) as [r E].
  destruct result as [version|version server| |]; rewrite ?E;
    try (apply finishFlush_shown, notify_shown);
    apply pushNext_shown; try apply notify_shown; try done.
  - case_decide; [by apply backed_assign, backed_remove, backed_assign|].
    apply backed_add; [|by apply backed_assign, backed_remove, backed_assign].
    apply assign_lookup_is_Some. simpl. apply (assign_lookup_is_Some _ _ e). by eexists.
  - by apply (backed_remove (p_id p)), backed_assign.
Qed.

Lemma saveLocal_shown id blob title now e : shown (saveLocal id blob title now e).
Proof. unfold saveLocal. destruct (decide _); apply afterStored_shown. Qed.

Lemma markEditing_shown id e : shown e → shown (markEditing id e).
Proof.
  intros He. unfold markEditing, ensureRec. destruct (recs e !! id) as [r|]; cbn [default].
  - case_decide; [done|apply notify_shown].
  - rewrite decide_False by done. apply notify_shown.
Qed.

Lemma resolveConflict_shown id cloud now e : shown e → shown (resolveConflict id cloud now e).
Proof.
  intros He. unfold resolveConflict. destruct (recs e !! id); [|done].
  case_decide; [done|]. destruct cloud; apply afterStored_shown.
Qed.

Lemma foldl_unchanged {A B} (f : A * bool → B → A * bool) l p :
  (∀ p x, f p x = p ∨ (f p x).2 = true) → (∀ p x, p.2 = true → (f p x).2 = true) →
  foldl f p l = p ∨ (foldl f p l).2 = true.
Proof.
  intros H1 H2. assert (∀ l p, p.2 = true → (foldl f p l).2 = true) as H3.
  { clear l p. induction l as [|x l IH]; intros p Hp; [done|]. apply IH. by apply H2. }
  revert p. induction l as [|x l IH]; intros p; [by left|]. simpl.
  destruct (H1 p x) as [->|E]; [apply IH|]. right. by apply H3.
Qed.

Lemma hydrate_shown drafts saved e : shown e → shown (hydrate drafts saved e).
Proof.
  intros He. unfold hydrate.
  lazymatch goal with |- context [foldl ?h (e, false) drafts] =>
    destruct (foldl_unchanged h drafts (e, false)) as [->|Hc] end.
  { intros [e1 c] r. simpl. destruct (recs e1 !! r_id r); auto. }
  { intros [e1 c] r. simpl. by destruct (recs e1 !! r_id r). }
  - cbv beta iota. lazymatch goal with |- context [foldl ?h (e, false) saved] =>
      destruct (foldl_unchanged h saved (e, false)) as [->|Hc'] end.
    { intros [e1 c] r. simpl. destruct (decide _); auto. }
    { intros [e1 c] r. simpl. by destruct (decide _). }
    + done.
    + destruct (foldl _ _ saved) as [e2 c2]. simpl in Hc'. subst c2.
      apply scheduleFlush_shown, notify_shown.
  - destruct (foldl _ (e, false) drafts) as [e1 c1]. simpl in Hc. subst c1.
    lazymatch goal with |- context [foldl ?h (e1, true) saved] =>
      destruct (foldl_unchanged h saved (e1, true)) as [->|Hc'] end.
    { intros [e2 c] r. simpl. destruct (decide _); auto. }
    { intros [e2 c] r. simpl. by destruct (decide _). }
    + apply scheduleFlush_shown, notify_shown.
    + destruct (foldl _ _ saved) as [e2 c2]. simpl in Hc'. subst c2.
      apply scheduleFlush_shown, notify_shown.
Qed.

Lemma stored_delete n l :
  l !! n = Some FlushTask → Forall (λ t, t = FlushTask) (take n l ++ drop (S n) l) →
  Forall (λ t, t = FlushTask) l.
Proof.
  intros E [H1 H2]%Forall_app. rewrite <- (take_drop_middle l n FlushTask E).
  apply Forall_app. split; [done|]. by constructor.
Qed.

Lemma apply_shown ev e :
  engine_ok (λ _, None) (λ _, True) e → shown e → shown (apply ev e).
Proof.
  intros [Hc Hp] He. assert (backed e) as Hb by exact (core_outbox _ _ _ Hc).
  destruct ev as [id blob title now|id|id cloud now| | | |drafts saved| | | |n|result now]; simpl.
  - apply saveLocal_shown.
  - by apply markEditing_shown.
  - by apply resolveConflict_shown.
  - by apply scheduleFlush_shown, (shown_eq e).
  - unfold start. destruct (running e); [done|]. by apply scheduleFlush_shown, (shown_eq e).
  - by apply (shown_eq e).
  - by apply hydrate_shown.
  - destruct (running e); [|done]. apply scheduleFlush_shown, notify_shown.
  - destruct (running e); [|done]. apply notify_shown.
  - destruct (running e); [|done]. unfold tick. case_decide; [by apply scheduleFlush_shown|done].
  - destruct (tasks e !! n) as [[|thenFlush]|] eqn:E; [| |done].
    + apply flush_shown; [done|]. apply (shown_eq e); try done. apply stored_delete, E.
    + destruct thenFlush; [apply scheduleFlush_shown|]; apply notify_shown.
  - apply flushResult_shown; [done| |done]. intros p Hf.
    destruct (Hp p Hf) as (_ & (r & -> & _) & _). by eexists.
Qed.

(** ** Saved values *)

(** The value saved for a scene stays. *)
Definition value_kept (id : string) (e e' : Engine) : Prop :=
  ∀ r, recs e !! id = Some r →
    ∃ r', recs e' !! id = Some r' ∧ r_blob r' = r_blob r ∧ r_hash r' = r_hash r.

#[export] Instance value_kept_preorder id : PreOrder (value_kept id).
Proof.
  split; [by intros e r E; exists r|]. intros e1 e2 e3 H12 H23 r E.
  destruct (H12 r E) as (r2 & E2 & Hb & Hh), (H23 r2 E2) as (r3 & E3 & Hb' & Hh').
  exists r3. split_and!; congruence.
Qed.

Lemma value_kept_eq id e e' : recs e' = recs e → value_kept id e e'.
Proof. intros Er r E. exists r. by rewrite Er. Qed.

Lemma value_kept_alter id i f e e' :
  recs e' = alter f i (recs e) →
  i ≠ id ∨ (∀ r, r_blob (f r) = r_blob r ∧ r_hash (f r) = r_hash r) → value_kept id e e'.
Proof.
  intros Er Hf r E. rewrite Er. destruct (decide (i = id)) as [->|Hne].
  - rewrite lookup_alter_eq, E. eexists. split; [done|]. destruct Hf; [done|auto].
  - rewrite lookup_alter_ne by done. by exists r.
Qed.

Lemma value_kept_ensureRec id i e : value_kept id e (ensureRec i e).
Proof.
  intros r E. exists r. split; [|done]. unfold ensureRec. destruct (recs e !! i) eqn:Ei; [done|].
  simpl. rewrite lookup_insert_ne; [done|]. congruence.
Qed.

Lemma value_kept_finishFlush id e : value_kept id e (finishFlush e).
Proof. unfold finishFlush. destruct (flushQueued _); by apply value_kept_eq. Qed.

Lemma value_kept_pushNext id l e : value_kept id e (pushNext l e).
Proof.
  revert e. induction l as [|i l IH]; intros e; simpl; [apply value_kept_finishFlush|].
  destruct (online e); [|apply value_kept_finishFlush]. destruct (recs e !! i).
  - eapply value_kept_alter; [done|]. by right.
  - transitivity (removeFromOutbox i e); [by apply value_kept_eq|apply IH].
Qed.

Lemma value_kept_flushResult id result now e : value_kept id e (flushResult result now e).
Proof.
  unfold flushResult. destruct (flushing e) as [p|]; [|done].
  assert (∀ f e e', recs e' = alter f (p_id p) (recs e) →
    (∀ r, r_blob (f r) = r_blob r ∧ r_hash (f r) = r_hash r) → value_kept id e e') as Ha
    by (intros; eapply value_kept_alter; [done|by right]).
  destruct result as [version|version server| |];
    [destruct (recs e !! p_id p) as [cur|]..|].
  - etransitivity; [|apply value_kept_pushNext]. case_decide.
    + eapply Ha; [simpl; apply alter_alter_eq|done].
    + eapply Ha; [simpl; rewrite recs_addToOutbox; simpl; apply alter_alter_eq|done].
  - etransitivity; [|apply value_kept_pushNext]. by apply value_kept_eq.
  - etransitivity; [|apply value_kept_pushNext]. by eapply Ha.
  - etransitivity; [|apply value_kept_pushNext]. by apply value_kept_eq.
  - etransitivity; [|apply value_kept_finishFlush]. by eapply Ha.
  - etransitivity; [|apply value_kept_pushNext]. by apply value_kept_eq.
  - etransitivity; [|apply value_kept_finishFlush]. by eapply Ha.
Qed.

Lemma value_kept_markOutbox id s but e : value_kept id e (markOutbox s but e).
Proof.
  unfold markOutbox. generalize (outbox e). intros l. revert e.
  induction l as [|i l IH]; intros e; simpl; [done|]. etransitivity; [|apply IH].
  eapply value_kept_alter; [done|]. right. intros r. by case_decide.
Qed.

Lemma value_kept_hydrate id drafts saved e : value_kept id e (hydrate drafts saved e).
Proof.
  intros r E. unfold hydrate.
  lazymatch goal with |- context [foldl ?h (e, false) drafts] => set (f := h) end.
  assert (∀ l p, recs p.1 !! id = Some r → recs (foldl f p l).1 !! id = Some r) as Hf.
  { clear. induction l as [|d l IH]; intros p Hp; [done|]. apply IH. destruct p as [e c].
    unfold f. simpl in *. destruct (recs e !! r_id d) eqn:Ed; [done|]. simpl.
    rewrite lookup_insert_ne; [done|]. congruence. }
  specialize (Hf drafts (e, false) E). destruct (foldl f (e, false) drafts) as [e1 c1].
  simpl in Hf.
  lazymatch goal with |- context [foldl ?h (e1, c1) saved] => set (g := h) end.
  assert (∀ l p, recs (foldl g p l).1 = recs p.1) as Hg.
  { clear. induction l as [|d l IH]; intros p; [done|]. simpl. rewrite IH. destruct p as [e c].
    simpl. by case_decide. }
  specialize (Hg saved (e1, c1)). destruct (foldl g (e1, c1) saved) as [e2 c2]. simpl in Hg.
  exists r. split; [|done]. destruct c2; simpl; by rewrite Hg.
Qed.

(** Only saving a scene, or settling its conflict for the server, changes its
    value. *)
Lemma apply_value id ev e :
  (∀ blob title now, ev ≠ SaveLocal id blob title now) →
  (∀ now, ev ≠ ResolveConflict id true now) → value_kept id e (apply ev e).
Proof.
  intros Hsave Hres.
  destruct ev as [i blob title now|i|i cloud now| | | |drafts saved| | | |n|result now]; simpl.
  - assert (i ≠ id) as Hne by (intros ->; by eapply Hsave).
    unfold saveLocal. transitivity (ensureRec i e); [apply value_kept_ensureRec|].
    etransitivity; [|destruct (decide _);
      [|eapply (value_kept_alter _ i); [simpl; rewrite recs_addToOutbox; done|by left]];
      eapply (value_kept_alter _ i); [done|by left]].
    destruct title; [|done]. eapply value_kept_alter; [done|by left].
  - unfold markEditing. transitivity (ensureRec i e); [apply value_kept_ensureRec|].
    case_decide; [done|]. eapply value_kept_alter; [done|by right].
  - unfold resolveConflict. destruct (recs e !! i); [|done]. case_decide; [done|].
    destruct cloud.
    + eapply value_kept_alter; [done|]. left. intros ->. by eapply Hres.
    + eapply value_kept_alter; [simpl; rewrite recs_addToOutbox; done|by right].
  - by apply value_kept_eq.
  - unfold start. destruct (running e); [done|by apply value_kept_eq].
  - by apply value_kept_eq.
  - apply value_kept_hydrate.
  - destruct (running e); [|done].
    transitivity (e <| online := true |>); [by apply value_kept_eq|].
    etransitivity; [apply (value_kept_markOutbox id pending [conflict])|by apply value_kept_eq].
  - destruct (running e); [|done].
    transitivity (e <| online := false |>); [by apply value_kept_eq|].
    etransitivity; [apply (value_kept_markOutbox id offline [conflict; syncing])|by apply value_kept_eq].
  - destruct (running e); [|done]. unfold tick. case_decide; [by apply value_kept_eq|done].
  - destruct (tasks e !! n) as [[|thenFlush]|]; [| |done].
    + unfold runTask, flush. destruct (flushing _); [by apply value_kept_eq|].
      case_decide; [by apply value_kept_eq|].
      etransitivity; [|apply value_kept_pushNext]. by apply value_kept_eq.
    + unfold runTask. destruct thenFlush; by apply value_kept_eq.
  - apply value_kept_flushResult.
Qed.
