(* ===== verification/SyncSystemProofs.v ===== *)
(** * The sync engine and its server

    What holds after any sequence of events, with whatever answers; what holds
    against a server that keeps a version of every scene; and how an engine that
    is online ends. *)

From S2P Require Import Prelude JsString SyncEngine SyncProofs.
Open Scope string_scope.
Open Scope list_scope.
Open Scope Z_scope.

(** ** Any sequence of events *)

(** The engine does an event; a draft that the local store holds and that the
    server did not acknowledge is in the stored outbox or in conflict. *)
Definition store_consistent (ev : Event) : Prop :=
  match ev with
  | Hydrate drafts saved => drafts_ok (λ _, None) (λ _, True) drafts saved
  | _ => True
  end.

Inductive engine_step (e : Engine) : Engine → Prop :=
  | event_happens ev : store_consistent ev → engine_step e (apply ev e).

(** The engine after events. *)
Definition afterEvents (evs : list Event) (e : Engine) : Engine := foldl (λ e ev, apply ev e) e evs.

Lemma afterEvents_reachable evs e :
  Forall store_consistent evs → rtc engine_step e (afterEvents evs e).
Proof.
  intros Hevs. revert e. induction Hevs as [|ev evs Hev _ IH]; intros e; [apply rtc_refl|].
  eapply rtc_l; [by apply event_happens|apply IH].
Qed.

Lemma engine_step_ok e e' :
  engine_step e e' →
  engine_ok (λ _, None) (λ _, True) e ∧ shown e → engine_ok (λ _, None) (λ _, True) e' ∧ shown e'.
Proof.
  intros [ev Hev] [He Hs]. split; [|by apply apply_shown].
  apply apply_ok; [|done]. destruct ev; try done. intros p _ Hn. by destruct Hn.
Qed.

Lemma createSyncEngine_ok doc others net :
  engine_ok doc others (createSyncEngine net) ∧ shown (createSyncEngine net).
Proof.
  split; [split; [split; simpl|by intros p]|by intros _].
  - apply keyed_empty.
  - constructor.
  - by intros id Hid%elem_of_nil.
  - intros id r. by rewrite lookup_empty.
Qed.

Lemma engine_reachable net e :
  rtc engine_step (createSyncEngine net) e → engine_ok (λ _, None) (λ _, True) e ∧ shown e.
Proof.
  intros Hr. assert (engine_ok (λ _, None) (λ _, True) (createSyncEngine net) ∧
    shown (createSyncEngine net)) as H0 by apply createSyncEngine_ok.
  revert H0. induction Hr as [|e e1 e2 Hstep _ IH]; [done|]. intros H0.
  by apply IH, (engine_step_ok e).
Qed.

(** C32.  Whatever happens, a scene that was saved and whose value the server has
    not acknowledged is in the outbox or in conflict, under the hash of its value;
    its value stays, except when the scene is saved again or its conflict settled
    for the server; and when no operation waits for the local store, the summary
    is that of the engine. *)
Theorem saved_value_waits net e id r :
  rtc engine_step (createSyncEngine net) e → recs e !! id = Some r → r_hash r ≠ "" →
  r_hash r = hashBlob (r_blob r) ∧
  (r_syncedHash r = Some (r_hash r) ∨ id ∈ outbox e ∨ r_state r = conflict) ∧
  (∀ ev, (∀ blob title now, ev ≠ SaveLocal id blob title now) →
     (∀ now, ev ≠ ResolveConflict id true now) →
     ∃ r', recs (apply ev e) !! id = Some r' ∧ r_blob r' = r_blob r ∧ r_hash r' = r_hash r) ∧
  (stored e → summary e = recompute e).
Proof.
  intros [[Hc _] Hs]%engine_reachable E Hne.
  destruct (core_recs _ _ _ Hc id r E) as [Hh Hw _ _]. split_and!.
  - by apply Hh.
  - destruct (decide (r_syncedHash r = Some (r_hash r))); [by left|right]. by apply Hw.
  - intros ev H1 H2. by apply (apply_value id ev e H1 H2).
  - done.
Qed.

(** ** A server *)

(** The server keeps a version of every scene: the value and its version are what
    it holds; a push is what the transport does.  [sv_ok] is what the server keeps true
    of its state, and [sv_carries] says which pushes the transport can carry. *)
Class VersionedServer (Srv : Type) := {
  sv_ok : Srv → Prop;
  sv_carries : Push → Prop;
  sv_doc : Srv → string → option (Z * Json);
  sv_push : Srv → Push → PushResult * Srv
}.

(** It takes a push that is based on the version it holds, if any, which gives the
    next one, or refuses it and tells what it holds. *)
Class ServerLaws (Srv : Type) `{VersionedServer Srv} := {
  push_law s p :
    sv_ok s → sv_carries p →
    sv_ok (sv_push s p).2 ∧
    match sv_push s p with
    | (PushOk version, s') =>
        (∀ v, fst <$> sv_doc s (p_id p) = Some v → p_baseVersion p = v) ∧
        sv_doc s' (p_id p) = Some (default (p_baseVersion p + 1) version, p_blob p) ∧
        ∀ id, id ≠ p_id p → sv_doc s' id = sv_doc s id
    | (PushConflict version server, s') =>
        (∃ v, version = Some v ∧ sv_doc s (p_id p) = Some (v, server)) ∧
        ∀ id, sv_doc s' id = sv_doc s id
    | (_, s') => ∀ id, sv_doc s' id = sv_doc s id
    end
}.

Section system.
Context {Srv : Type} `{HV : VersionedServer Srv} `{HL : !ServerLaws Srv}.

(** The engine, the server, the answer on its way back, and the scenes whose last
    version somebody else wrote. *)
Record System := mkSystem {
  sy_engine : Engine;
  sy_server : Srv;
  sy_answer : option PushResult;
  sy_others : gset string
}.

Definition written (p : Push) (result : PushResult) (others : gset string) : gset string :=
  match result with PushOk _ => others ∖ {[p_id p]} | _ => others end.

(** The engine does anything but wait; the server serves the push; the answer
    arrives, or the transport fails, before or after the server; somebody else
    writes a scene. *)
Inductive system_step (y : System) : System → Prop :=
  | engine_acts ev :
      (∀ result now, ev ≠ Answer result now) →
      match ev with
      | Hydrate drafts saved => drafts_ok (sv_doc (sy_server y)) (.∈ sy_others y) drafts saved
      | _ => True
      end →
      system_step y (mkSystem (apply ev (sy_engine y)) (sy_server y) (sy_answer y) (sy_others y))
  | server_serves p result s' :
      flushing (sy_engine y) = Some p → sv_carries p → sy_answer y = None →
      sv_push (sy_server y) p = (result, s') →
      system_step y (mkSystem (sy_engine y) s' (Some result) (written p result (sy_others y)))
  | answer_arrives result now :
      sy_answer y = Some result →
      system_step y (mkSystem (apply (Answer result now) (sy_engine y)) (sy_server y) None (sy_others y))
  | transport_fails p now :
      flushing (sy_engine y) = Some p →
      system_step y (mkSystem (apply (Answer PushFailed now) (sy_engine y)) (sy_server y) None (sy_others y))
  | other_writes id s' :
      sv_ok s' → (∀ i, i ≠ id → sv_doc s' i = sv_doc (sy_server y) i) →
      system_step y (mkSystem (sy_engine y) s' (sy_answer y) ({[id]} ∪ sy_others y)).

(** The invariant of the system. *)
Definition system_ok (y : System) : Prop :=
  sv_ok (sy_server y) ∧
  engine_ok (sv_doc (sy_server y)) (.∈ sy_others y) (sy_engine y) ∧ shown (sy_engine y) ∧
  ∀ result, sy_answer y = Some result → ∃ p, flushing (sy_engine y) = Some p ∧
    answer_ok (sv_doc (sy_server y)) (.∈ sy_others y) p result.

(** What the server holds of the other scenes does not matter. *)
Lemma engine_ok_server doc doc' (others others' : string → Prop) e :
  (∀ id, others' id ∨ (doc' id = doc id ∧ (others id → others' id)) ∨
     (id ∈ outbox e ∧ ∀ r, recs e !! id = Some r → r_state r ≠ conflict)) →
  engine_ok doc others e → engine_ok doc' others' e.
Proof.
  intros Hd [[Hk Hn Ho Hr] Hp]. split; [|done]. split; try done.
  intros id r E. destruct (Hr id r E) as [Hh Hw Hs Hc]. split; [done|done| |].
  - intros Hno Hnw. destruct (Hd id) as [?|[[-> ?]|[? ?]]]; [done|auto|done].
  - intros Hno Hst. destruct (Hd id) as [?|[[-> ?]|[_ Hne]]]; [done|auto|].
    by destruct (Hne r E).
Qed.

Lemma finishFlush_none e : flushing (finishFlush e) = None.
Proof. unfold finishFlush. by destruct (flushQueued _). Qed.

Lemma flushing_markOutbox s but e : flushing (markOutbox s but e) = flushing e.
Proof.
  unfold markOutbox. generalize (outbox e). intros l. revert e.
  induction l as [|i l IH]; intros e; [done|]. simpl. by rewrite IH.
Qed.

(** A push waited for is waited for until its answer. *)
Lemma apply_flushing ev e p :
  (∀ result now, ev ≠ Answer result now) → flushing e = Some p → flushing (apply ev e) = Some p.
Proof.
  intros Hev Hf.
  destruct ev as [id blob title now|id|id cloud now| | | |drafts saved| | | |n|result now]; simpl.
  - unfold saveLocal, ensureRec. destruct (decide _); simpl; rewrite ?flushing_addToOutbox; simpl;
      destruct title, (recs e !! id); done.
  - unfold markEditing, ensureRec. by destruct (recs e !! id), (decide _).
  - unfold resolveConflict. destruct (recs e !! id); [|done]. destruct (decide _); [done|].
    destruct cloud; simpl; by rewrite ?flushing_addToOutbox.
  - done.
  - unfold start. by destruct (running e).
  - done.
  - unfold hydrate.
    lazymatch goal with |- context [foldl ?h (e, false) drafts] => set (f := h) end.
    assert (∀ l q, flushing (foldl f q l).1 = flushing q.1) as Hf1.
    { clear. induction l as [|d l IH]; intros q; [done|]. simpl. rewrite IH. destruct q as [e c].
      unfold f. by destruct (recs e !! r_id d). }
    specialize (Hf1 drafts (e, false)). destruct (foldl f (e, false) drafts) as [e1 c1]. simpl in Hf1.
    lazymatch goal with |- context [foldl ?h (e1, c1) saved] => set (g := h) end.
    assert (∀ l q, flushing (foldl g q l).1 = flushing q.1) as Hg1.
    { clear. induction l as [|d l IH]; intros q; [done|]. simpl. rewrite IH. destruct q as [e c].
      unfold g. by destruct (decide _). }
    specialize (Hg1 saved (e1, c1)). destruct (foldl g (e1, c1) saved) as [e2 c2]. simpl in Hg1.
    destruct c2; simpl; congruence.
  - destruct (running e); [|done]. simpl. by rewrite flushing_markOutbox.
  - destruct (running e); [|done]. simpl. by rewrite flushing_markOutbox.
  - destruct (running e); [|done]. unfold tick. by case_decide.
  - destruct (tasks e !! n) as [[|thenFlush]|]; [| |done].
    + unfold runTask, flush. simpl. by rewrite Hf.
    + by destruct thenFlush.
  - by destruct (Hev result now).
Qed.

Lemma engine_ok_top doc others e : engine_ok doc others e → engine_ok (λ _, None) (λ _, True) e.
Proof. apply engine_ok_server. by left. Qed.

Lemma system_step_ok y y' : system_step y y' → system_ok y → system_ok y'.
Proof.
  intros Hstep (Hok & He & Hsh & Ha).
  destruct Hstep as [ev Hev Hdr|p result s' Hf Hca Hn Hp|result now Hr|p now Hf|id s' Hok' Hd];
    unfold system_ok; simpl.
  - split_and!; [done| | |].
    + apply apply_ok; [|done]. destruct ev; try done. by destruct (Hev result now).
    + apply apply_shown; [by eapply engine_ok_top|done].
    + intros result Hr. destruct (Ha result Hr) as (p & Hf & Hans). exists p.
      split; [by apply apply_flushing|done].
  - pose proof (push_law (sy_server y) p Hok Hca) as [Hok' Hlaw]. rewrite Hp in Hok', Hlaw.
    destruct (proj2 He p Hf) as (Hin & (r & E & Hst & _) & _).
    assert (∀ i, i ≠ p_id p → sv_doc s' i = sv_doc (sy_server y) i) as Hother
      by (destruct result; naive_solver).
    assert (∀ i, i ≠ p_id p → i ∈ written p result (sy_others y) ↔ i ∈ sy_others y) as Hw
      by (intros i Hi; destruct result; set_solver).
    split_and!; [done| |done|].
    + revert He. apply engine_ok_server. intros i. destruct (decide (i = p_id p)) as [->|Hne].
      * right. right. split; [done|]. intros r' E'. congruence.
      * right. left. split; [by apply Hother|]. by apply Hw.
    + intros result' [= <-]. exists p. split; [done|]. intros Hno.
      destruct result as [version|version server| |]; [apply Hlaw| |done|done].
      destruct Hlaw as [(v & -> & Hdoc) Hsame]. exists v. by rewrite Hsame.
  - destruct (Ha result Hr) as (p & Hf & Hans). split_and!; [done| | |done].
    + apply flushResult_ok; [|done]. intros p' Hf'. assert (p' = p) as -> by congruence. exact Hans.
    + apply (apply_shown (Answer result now)); [by eapply engine_ok_top|done].
  - split_and!; [done| | |done].
    + apply flushResult_ok; [|done]. by intros p' _ _.
    + apply (apply_shown (Answer PushFailed now)); [by eapply engine_ok_top|done].
  - split_and!; [done| |done|].
    + revert He. apply engine_ok_server. intros i. destruct (decide (i = id)) as [->|Hne].
      * left. set_solver.
      * right. left. split; [by apply Hd|set_solver].
    + intros result Hr. destruct (Ha result Hr) as (p & Hf & Hans). exists p. split; [done|].
      intros Hno. specialize (Hans ltac:(set_solver)).
      assert (p_id p ≠ id) by set_solver. by rewrite Hd.
Qed.

(** The engine starts beside a server, whatever others wrote there. *)
Definition system_start (net : bool) (s : Srv) (others : gset string) : System :=
  mkSystem (createSyncEngine net) s None others.

Lemma system_reachable net s others y :
  sv_ok s → rtc system_step (system_start net s others) y → system_ok y.
Proof.
  intros Hok Hr. assert (system_ok (system_start net s others)) as H0.
  { split; [done|]. split; [apply createSyncEngine_ok|]. split; [apply (createSyncEngine_ok (λ _, None) (λ _, True))|done]. }
  revert H0. induction Hr as [|y1 y2 y3 Hstep _ IH]; [done|]. intros H0.
  by apply IH, (system_step_ok y1).
Qed.

(** What a summary that says all is synced means. *)
Lemma computeOverall_synced e :
  computeOverall e = synced →
  outbox e = [] ∧ ∀ id r, recs e !! id = Some r → r_state r ≠ conflict.
Proof.
  unfold computeOverall, someScene. case_bool_decide as Hc; [done|].
  case_bool_decide; [done|]. case_decide; [done|]. case_bool_decide; [done|].
  case_decide as Ho; [done|]. intros _. split; [by destruct (outbox e); [|simpl in Ho; lia]|].
  intros id r E Hs. apply Hc. by exists id, r.
Qed.

(** Whatever the engine, its server, its transport and the others that write there do:
    when no operation waits for the local store and the summary says that all is
    synced, the server holds, for every scene that was saved and that nobody else
    wrote last, the local value, up to its hash, at the local version. *)
Lemma synced_saved net s others y id r :
  sv_ok s → rtc system_step (system_start net s others) y →
  stored (sy_engine y) → s_overall (summary (sy_engine y)) = synced →
  recs (sy_engine y) !! id = Some r → r_hash r ≠ "" → id ∉ sy_others y →
  sv_ok (sy_server y) ∧
  ∃ blob, sv_doc (sy_server y) id = Some (r_version r, blob) ∧ hashBlob blob = hashBlob (r_blob r).
Proof.
  intros Hok (Hok' & [Hc _] & Hs & _)%system_reachable Hst Hsum E Hne Hno; [|done].
  split; [done|]. rewrite (Hs Hst) in Hsum. destruct (computeOverall_synced _ Hsum) as [Ho Hconf].
  destruct (core_recs _ _ _ Hc id r E) as [Hh _ Hd _]. rewrite <- Hh by done.
  apply Hd; [done| |by eapply Hconf|done]. rewrite Ho. apply not_elem_of_nil.
Qed.
End system.

(** ** An engine that is online *)

(** The record of a scene after the answer to the push of its value. *)
Definition settled (result : PushResult) (now : Z) (r r' : Rec) : Prop :=
  r_blob r' = r_blob r ∧ r_hash r' = r_hash r ∧
  match result with
  | PushOk version =>
      r_state r' = synced ∧ r_syncedHash r' = Some (r_hash r) ∧ r_lastSyncedAt r' = Some now ∧
      r_version r' = default (r_version r + 1) version
  | PushConflict version server =>
      r_state r' = conflict ∧ r_serverBlob r' = Some server ∧
      r_serverVersion r' = Some (default (r_version r) version)
  | _ => False
  end.

(** An answer of a server that works. *)
Definition answered (a : PushResult * Z) : Prop :=
  match a.1 with PushOk _ | PushConflict _ _ => True | _ => False end.

Definition answerAll (answers : list (PushResult * Z)) (e : Engine) : Engine :=
  foldl (λ e a, apply (Answer a.1 a.2) e) e answers.

Lemma alter_insert {A} (f : A → A) id (m : gmap string A) x :
  m !! id = Some x → alter f id m = <[id := f x]> m.
Proof.
  intros E. apply map_eq. intros i. destruct (decide (id = i)) as [<-|Hne].
  - by rewrite lookup_insert_eq, lookup_alter_eq, E.
  - by rewrite lookup_insert_ne, lookup_alter_ne.
Qed.

Lemma removeFirst_head id l : removeFirst id (id :: l) = l.
Proof. simpl. by rewrite decide_True. Qed.

(** The answer to the push of the value of a scene. *)
Lemma flushResult_turn id l e p r result now :
  flushing e = Some p → p_id p = id → recs e !! id = Some r → p_hash p = r_hash r →
  p_baseVersion p = r_version r → outbox e = id :: l → answered (result, now) →
  ∃ r' e', flushResult result now e = pushNext l e' ∧ settled result now r r' ∧
    recs e' = <[id := r']> (recs e) ∧ outbox e' = l ∧ online e' = online e.
Proof.
  intros Ef <- E Eh Ev Eo Ha. unfold flushResult. rewrite Ef, E.
  destruct result as [version|version server| |]; [| |done|done].
  - rewrite decide_True by done. eexists _, _. split; [|split; [|split; [|split]]].
    + simpl. rewrite Eo, removeFirst_head. reflexivity.
    + instantiate (1 := r <| r_version := default (p_baseVersion p + 1) version |>
        <| r_lastSyncedAt := Some now |> <| r_syncedHash := Some (p_hash p) |>
        <| r_dirtyAt := None |> <| r_state := synced |>). split_and!; try done; simpl; congruence.
    + simpl. rewrite alter_alter_eq. by erewrite alter_insert.
    + simpl. by rewrite Eo, removeFirst_head.
    + done.
  - eexists _, _. split; [|split; [|split; [|split]]].
    + simpl. rewrite Eo, removeFirst_head. reflexivity.
    + instantiate (1 := r <| r_state := conflict |>
        <| r_serverVersion := Some (default (r_version r) version) |>
        <| r_serverBlob := Some server |>). by split_and!.
    + simpl. by erewrite alter_insert.
    + simpl. by rewrite Eo, removeFirst_head.
    + done.
Qed.

(** One turn of the loop. *)
Lemma turn id l e r a :
  outbox e = id :: l → online e = true → recs e !! id = Some r → answered a →
  ∃ r' e', apply (Answer a.1 a.2) (pushNext (id :: l) e) = pushNext l e' ∧ settled a.1 a.2 r r' ∧
    recs e' = <[id := r']> (recs e) ∧ outbox e' = l ∧ online e' = true.
Proof.
  intros Eo En E Ha. destruct a as [result now]. simpl. rewrite En, E.
  lazymatch goal with |- context [flushResult _ _ ?x] => set (e1 := x) end.
  assert (recs e1 = <[id := r <| r_state := syncing |>]> (recs e)) as Er1
    by by apply (alter_insert (set r_state (λ _, syncing))).
  destruct (flushResult_turn id l e1 (mkPush id (r_version r) (r_hash r) (r_blob r) (r_title r))
    (r <| r_state := syncing |>) result now) as (r' & e' & H1 & H2 & H3 & H4 & H5); try done.
  - by rewrite Er1, lookup_insert_eq.
  - exists r', e'. rewrite H3, Er1, insert_insert_eq, H5. by split_and!.
Qed.

(** All the turns. *)
Lemma turns l e answers :
  outbox e = l → online e = true → NoDup l → backed e →
  length answers = length l → Forall answered answers →
  let e' := answerAll answers (pushNext l e) in
  outbox e' = [] ∧ flushing e' = None ∧
  (∀ i id a, l !! i = Some id → answers !! i = Some a →
     ∃ r r', recs e !! id = Some r ∧ recs e' !! id = Some r' ∧ settled a.1 a.2 r r') ∧
  (∀ id, id ∉ l → recs e' !! id = recs e !! id).
Proof.
  revert e answers. induction l as [|id l IH]; intros e answers Eo En Hnd Hb Hlen Ha.
  - destruct answers; [|done]. simpl. split_and!.
    + unfold finishFlush. by destruct (flushQueued _).
    + apply finishFlush_none.
    + intros i id a Hi. by rewrite lookup_nil in Hi.
    + intros id _. unfold finishFlush. by destruct (flushQueued _).
  - destruct answers as [|a answers]; [done|]. apply Forall_cons in Ha as [Ha Has].
    apply NoDup_cons in Hnd as [Hid Hnd]. destruct (Hb id) as [r E]; [rewrite Eo; left|].
    destruct (turn id l e r a Eo En E Ha) as (r' & e1 & Et & Hs & Er & Eo1 & En1).
    change (answerAll (a :: answers) (pushNext (id :: l) e))
      with (answerAll answers (apply (Answer a.1 a.2) (pushNext (id :: l) e))).
    rewrite Et. destruct (IH e1 answers) as (H1 & H2 & H3 & H4); try done.
    { intros i Hi. rewrite Er. destruct (decide (id = i)) as [<-|Hne].
      - rewrite lookup_insert_eq. by eexists.
      - rewrite lookup_insert_ne by done. apply Hb. rewrite Eo. right. by rewrite <- Eo1. }
    { simpl in Hlen. lia. }
    split_and!; [done|done| |].
    + intros [|i] id' a' Hi Hi'; simpl in Hi, Hi'.
      * injection Hi as <-. injection Hi' as <-. exists r, r'. split; [done|]. split; [|done].
        rewrite H4, Er, lookup_insert_eq; done.
      * destruct (H3 i id' a' Hi Hi') as (r0 & r0' & E0 & E0' & Hs0). exists r0, r0'.
        split; [|done]. rewrite Er, lookup_insert_ne in E0; [done|].
        intros ->. apply Hid. by eapply list_elem_of_lookup_2.
    + intros i Hi. rewrite not_elem_of_cons in Hi. rewrite H4 by naive_solver.
      rewrite Er, lookup_insert_ne; naive_solver.
Qed.

(** C34.  An engine that runs, is online, has a transport and waits for no push
    empties its outbox: the timer makes it push its scenes, in the order they were
    saved, and the answers of the server, one for each, leave every one of them
    synced with the server or in conflict, as it was answered, with its value, and
    the other scenes as they were. *)
Theorem outbox_drains net e answers :
  rtc engine_step (createSyncEngine net) e →
  running e = true → online e = true → transport e = true → flushing e = None →
  length answers = length (outbox e) → Forall answered answers → outbox e ≠ [] →
  let e' := answerAll answers (apply (RunTask (length (tasks e))) (apply Tick e)) in
  outbox e' = [] ∧ flushing e' = None ∧
  (∀ i id a, outbox e !! i = Some id → answers !! i = Some a →
     ∃ r r', recs e !! id = Some r ∧ recs e' !! id = Some r' ∧ settled a.1 a.2 r r') ∧
  (∀ id, id ∉ outbox e → recs e' !! id = recs e !! id).
Proof.
  intros [[Hc _] _]%engine_reachable Hr Hon Ht Hf Hlen Ha Hne.
  assert (apply (RunTask (length (tasks e))) (apply Tick e) = pushNext (outbox e) e)
    as ->.
  { simpl. rewrite Hr. unfold tick. rewrite decide_True by done. simpl.
    rewrite list_lookup_middle by done. unfold runTask, flush. simpl. rewrite Hf.
    rewrite decide_False by (intros [?|[?|?]]; congruence).
    f_equal. clear. destruct e as [? ? ? ? ? ? ? ? ts]. unfold scheduleFlush. simpl. unfold set. simpl. f_equal.
    rewrite take_app_length, drop_ge by (rewrite length_app; simpl; lia). by rewrite app_nil_r. }
  apply turns; try done; [by apply (core_nodup _ _ _ Hc)|exact (core_outbox _ _ _ Hc)].
Qed.

(** ** An example *)

(** A server that keeps the last version of every scene. *)
#[export] Instance documents_server : VersionedServer (gmap string (Z * Json)) := {
  sv_ok _ := True;
  sv_carries _ := True;
  sv_doc s id := s !! id;
  sv_push s p :=
    let '(version, server) := default (0, JUndefined) (s !! p_id p) in
    if decide (p_baseVersion p = version)
    then (PushOk (Some (version + 1)), <[p_id p := (version + 1, p_blob p)]> s)
    else match s !! p_id p with
         | Some _ => (PushConflict (Some version) server, s)
         | None => (PushRefused, s)
         end
}.

#[export] Instance documents_laws : ServerLaws (gmap string (Z * Json)).
Proof.
  constructor. intros s p _ _. split; [done|]. simpl. destruct (s !! p_id p) as [[version server]|] eqn:E; simpl;
    case_decide as Hd; simpl; rewrite ?E; simpl.
  - split_and!; [congruence|by rewrite lookup_insert_eq|]. intros id Hne. by rewrite lookup_insert_ne.
  - split; [by eexists|done].
  - split_and!; [congruence|by rewrite lookup_insert_eq|]. intros id Hne. by rewrite lookup_insert_ne.
  - done.
Qed.

Definition sceneBlob (n : string) : Json := JObject [("name", JString n)].

(** A scene is saved, changed while it is pushed, and both values are stored. *)
Definition exampleEvents : list Event :=
  [SaveLocal "s1" (sceneBlob "a") None 10; SetTransport; RunTask 1; SaveLocal "s1" (sceneBlob "b") None 20;
   SaveLocal "s2" (sceneBlob "c") (Some "C") 30].

Definition exampleEngine : Engine := afterEvents exampleEvents (createSyncEngine true).

Lemma exampleEngine_reachable : rtc engine_step (createSyncEngine true) exampleEngine.
Proof. apply afterEvents_reachable. by repeat constructor. Qed.

Lemma saved_value_waits_witness :
  ∃ r, recs exampleEngine !! "s1" = Some r ∧ r_blob r = sceneBlob "b" ∧
    (r_syncedHash r = Some (r_hash r) ∨ "s1" ∈ outbox exampleEngine ∨ r_state r = conflict).
Proof.
  assert (∃ r, recs exampleEngine !! "s1" = Some r ∧ r_blob r = sceneBlob "b" ∧ r_hash r ≠ "") as (r & E & Hb & Hh).
  { eexists. split; [vm_compute; reflexivity|]. split; [reflexivity|discriminate]. }
  exists r. split; [exact E|]. split; [exact Hb|].
  exact (proj1 (proj2 (saved_value_waits true exampleEngine "s1" r exampleEngine_reachable E Hh))).
Defined.

(** The push it waits for is answered; then it is online, and both scenes wait. *)
Definition drainedEngine : Engine :=
  afterEvents [Start; Answer PushFailed 40] exampleEngine.

Lemma outbox_drains_witness :
  ∃ r r', recs drainedEngine !! "s2" = Some r ∧ r_blob r = sceneBlob "c" ∧
    settled (PushConflict (Some 4) JNull) 60 r r'.
Proof.
  assert (rtc engine_step (createSyncEngine true) drainedEngine) as Hr.
  { transitivity exampleEngine; [exact exampleEngine_reachable|].
    apply afterEvents_reachable. by repeat constructor. }
  assert (Forall answered [(PushOk None, 50); (PushConflict (Some 4) JNull, 60)]) as Ha
    by (by repeat constructor).
  assert (outbox drainedEngine ≠ []) as Hne by (vm_compute; discriminate).
  destruct (outbox_drains true drainedEngine [(PushOk None, 50); (PushConflict (Some 4) JNull, 60)]
    Hr ltac:(vm_compute; reflexivity) ltac:(vm_compute; reflexivity) ltac:(vm_compute; reflexivity)
    ltac:(vm_compute; reflexivity) ltac:(vm_compute; reflexivity) Ha Hne) as (_ & _ & H & _).
  destruct (H 1%nat "s2" (PushConflict (Some 4) JNull, 60)) as (r & r' & E & _ & Hs);
    [vm_compute; reflexivity..|].
  exists r, r'. split; [exact E|]. split; [|exact Hs].
  assert (recs drainedEngine !! "s2" = Some r) as E' by exact E.
  vm_compute in E'. by injection E' as <-.
Defined.

(** A scene that is saved before the store is read loses what the store knows of
    it: it is pushed as a new one, and in conflict with its own last version. *)
Example hydration_race :
  let stored := (newRec "s1") <| r_blob := sceneBlob "a" |> <| r_version := 3 |>
    <| r_hash := hashBlob (sceneBlob "a") |> <| r_syncedHash := Some (hashBlob (sceneBlob "a")) |> in
  let e := afterEvents [SaveLocal "s1" (sceneBlob "b") None 10; Hydrate [stored] []; SetTransport; RunTask 1]
    (createSyncEngine true) in
  p_baseVersion <$> flushing e = Some 0 ∧
  fst ∘ sv_push (<["s1" := (3, sceneBlob "a")]> ∅) <$> flushing e
    = Some (PushConflict (Some 3) (sceneBlob "a")).
Proof. split; vm_compute; reflexivity. Qed.
