(* ===== verification/EthSamples.v ===== *)
(** * A small Ethereum history

    One configuration and a few states of the Ethereum processor, computed by its
    handlers, on which its theorems are instantiated: two parcels and an estate
    are minted, a wearable collection gets an item and a token. *)

From S2P Require Import Prelude JsString Model Env State Common Samples EthModel EthCommon.
From S2P Require Import EthLand EthToken EthMarketplace EthStore EthProcessor.
Open Scope string_scope.
Open Scope list_scope.
Open Scope Z_scope.

Module EthSamples.
(** ** Configuration: Ethereum mainnet *)

#[local] Existing Instance Samples.env.

(** A chain that answers what the Ethereum processor asks: the cut of the
    marketplace is 2.5%, that of any other contract 9%. *)
Definition rpc : Rpc := {|
  rpc_ownerOf := λ _ _ _, Ok "0x0b";
  rpc_owner := λ _ _, Ok "0xd0";
  rpc_collection := λ _ _, Throw RpcError;
  rpc_collections := λ _ _, Throw RpcError;
  rpc_item_totalSupply := λ _ _ _, Throw RpcError;
  rpc_getRarityByName := λ _ _ _, Throw RpcError;
  rpc_raritiesCount := λ _ _, Throw RpcError;
  rpc_rarities := λ _ _ _, Throw RpcError;
  rpc_feeCollector := λ _ _, Ok "0xda0";
  rpc_feeRate := λ _ _, Ok 25000;
  rpc_royaltiesRate := λ _ _, Ok 25000;
  rpc_fee := λ _ _, Throw RpcError;
  rpc_feeOwner := λ _ _, Throw RpcError;
  rpc_ownerCutPerMillion := λ _ a,
    Ok (if decide (a = ea_Marketplace eth_mainnet) then 25000 else 90000);
  rpc_feesCollectorCutPerMillion := λ _ _, Throw RpcError;
  rpc_feesCollector := λ _ _, Throw RpcError;
  rpc_royaltiesCutPerMillion := λ _ _, Throw RpcError
|}.

Definition foxURI : string :=
  "https://wearable-api.decentraland.org/v2/standards/erc721-metadata/collections/"
  +:+ "halloween_2019/wearables/asian_fox/1".

Definition ethRpc : EthRpc := {|
  rpc_tokenURIs := λ _ tokens, Ok ((λ _, foxURI) <$> tokens);
  rpc_name := λ _ _, Ok "dcl://halloween_2019";
  rpc_symbol := λ _ _, Ok "DCL";
  rpc_baseURI := λ _ _, Ok "https://wearable-api.decentraland.org/"
|}.

(** Two parcels near the plaza. *)
Definition parcels : Proximities :=
  (<["10,20" := (true, 5)]> {["11,20" := (false, 2)]} : gmap string (bool * Z)).

Definition store : EthStoreOk := λ _, true.

#[local] Existing Instances rpc ethRpc parcels store.

(** ** A history *)

Definition block (n : Z) : Block := mkBlock (18000000 + n) ((1700000000 + n) * 1000).

Definition landId (x y : Z) : Z := (x mod 2 ^ 128) * 2 ^ 128 + y mod 2 ^ 128.

Definition coordinates : gmap Z Coordinate :=
  <[landId 10 20 := mkCoordinate 10 20]> {[landId 11 20 := mkCoordinate 11 20]}.

Definition module : EthModule := {|
  ek_landCoordinates := coordinates;
  ek_tokenURIs := ∅;
  ek_marketplaceOwnerCutPerMillion := None;
  ek_bidOwnerCutPerMillion := None
|}.

Definition empty : EthWorld := ethInitialWorld module.

Definition zero : string := ZERO_ADDRESS.
Definition alice : string := "0x0a".
Definition bob : string := "0x0b".
Definition registry : string := ea_EstateRegistry getEthAddresses.
Definition land : string := ea_LANDRegistry getEthAddresses.

Definition transfer (from to : string) (tokenId : Z) : TransferEventArgs :=
  {| te_from := from; te_to := to; te_tokenId := tokenId |}.

(** Both parcels are Alice's. *)
Definition parcelsMinted : EthWorld :=
  (for_each [landId 10 20; landId 11 20] (λ id,
     ethHandleTransfer (block 1) land (transfer zero alice id) ∅ coordinates) empty).2.

(** The mint of an estate, and its creation. *)
Definition mintsEstate : TransferEventArgs := transfer zero alice 1.

Definition estateMinted : EthWorld :=
  (ethHandleTransfer (block 2) registry mintsEstate ∅ coordinates parcelsMinted).2.

Definition createsEstate : CreateEstateEventArgs :=
  {| ce_owner := alice; ce_estateId := 1; ce_data := "0,Plaza,Near the plaza," |}.

Definition estateCreated : EthWorld :=
  (handleCreateEstate (block 2) createsEstate estateMinted).2.

Definition adds (x y : Z) : AddLandEventArgs := {| al_estateId := 1; al_landId := landId x y |}.

Definition removes (x y : Z) : RemoveLandEventArgs :=
  {| rl_estateId := 1; rl_landId := landId x y; rl_destinatary := alice |}.

(** One parcel joined the estate, then both. *)
Definition estateHalf : EthWorld :=
  (handleAddLand (adds 10 20) coordinates estateCreated).2.

Definition estateFull : EthWorld :=
  (handleAddLand (adds 11 20) coordinates estateHalf).2.

(** ** A sale *)

(** Bob buys a parcel from Alice. *)
Definition landSale : EthSaleArgs := {|
  esa_type := sale_order; esa_buyer := bob; esa_seller := alice;
  esa_nftId := parcelIdOf (landId 10 20); esa_price := 1000000;
  esa_feesCollectorCut := 25000; esa_timestamp := 1700000009; esa_txHash := "0xt9"
|}.

Definition landNFT : EthNFT :=
  default (newEthNFT "") (e_nfts (e_storedData parcelsMinted) !! parcelIdOf (landId 10 20)).

(** ** An order *)

Definition orderEvent (n : Z) (e : EthLogEvent) : EthQueuedEvent :=
  let log := mkEthLog land 0 "0xt6" e in
  mkEthQueuedEvent e (mkEthBlock (block n) "0xb6" [log]) log (Some 25000) None.

(** Alice lists a parcel; it goes to Bob, and the market tells of the purchase. *)
Definition listsLand : EthQueuedEvent := orderEvent 6 (EeOrderCreated {|
  oc_id := "0x01"; oc_assetId := landId 10 20; oc_seller := alice; oc_nftAddress := land;
  oc_priceInWei := 1000000; oc_expiresAt := 1800000000000 |}).

Definition movesLand : EthQueuedEvent := orderEvent 7 (EeTransfer (transfer alice bob (landId 10 20))).

Definition buysLand : EthQueuedEvent := orderEvent 7 (EeOrderSuccessful {|
  os_id := "0x01"; os_assetId := landId 10 20; os_seller := alice; os_nftAddress := land;
  os_totalPrice := 1000000; os_buyer := bob |}).

Definition landListed : EthWorld := (dispatchMarketplaceEvent listsLand parcelsMinted).2.
Definition landMoved : EthWorld := (dispatchMarketplaceEvent movesLand landListed).2.
Definition landBought : EthWorld := (dispatchMarketplaceEvent buysLand landMoved).2.

(** ** A wearable *)

Definition halloween : string := "0xc1f4b0eea2bd6690930e6c66efd3e197d620b9c2".

Definition tokenURIs : gmap string string := {[tokenURIKey halloween 7 := foxURI]}.

Definition addsFox : AddWearableEventArgs :=
  {| aw_wearableId := "asian_fox"; aw_maxIssuance := 100 |}.

Definition ethBlock (n : Z) (logs : list EthLog) : EthBlock := mkEthBlock (block n) "0xb1" logs.

Definition foxAdded : EthWorld :=
  (handleAddItemV1 halloween addsFox (ethBlock 3 []) estateFull).2.

Definition foxMinted : EthWorld :=
  (handleTransferWearableV1 (block 4) halloween (transfer zero alice 7) tokenURIs foxAdded).2.

(** A fox of Alice's is queued, with its URI known. *)
Definition foxBlock : EthBlock :=
  ethBlock 4 [mkEthLog halloween 0 "0xt4" (EeTransfer (transfer zero alice 7))].

Definition foxQueued : EthWorld :=
  (ethAccumulate [foxBlock] (foxAdded <| e_module ::= set ek_tokenURIs (λ _, tokenURIs) |>)).2.

(** ** A name *)

Definition registersName : NameRegisteredEventArgs := {|
  nr_caller := "0xc0"; nr_beneficiary := alice; nr_labelHash := "0x05"; nr_tokenId := 5;
  nr_subdomain := "alice"; nr_createdDate := 1700000005
|}.

Definition nameId : string :=
  getNFTId (ea_DCLRegistrar getEthAddresses) (pretty 5) (Some "ens").

(** The name is minted and registered, then given to Bob. *)
Definition nameBlock : EthBlock :=
  let log e := mkEthLog (ea_DCLRegistrar getEthAddresses) 0 "0xt5" e in
  ethBlock 5 [log (EeTransfer (transfer zero alice 5)); log (EeNameRegistered registersName);
              log (EeTransfer (transfer alice bob 5))].
End EthSamples.
