(* ===== verification/EthEstateProofs.v ===== *)
(** * The LAND and the estates of the index

    The identifiers [decodeTokenId] accepts are those of the LAND inside the bounds of
    the map, and it returns their coordinates.  The invariant of the estates of a
    batch: their size, the distances of their parcels to the plaza, and what the token
    of an estate shows of them. *)

From S2P Require Import Prelude JsString Model Env State Common Samples EthModel.
From S2P Require Import EthCommon EthLand EthToken EthSamples.
Open Scope string_scope.
Open Scope list_scope.
Open Scope Z_scope.

(** ** Identifiers and coordinates *)

(** The identifier of the LAND at two coordinates: each in 128 bits, negative
    ones in two's complement. *)
Definition encodeLand (c : Coordinate) : Z :=
  (co_0 c mod 2 ^ 128) * 2 ^ 128 + co_1 c mod 2 ^ 128.

(** [decodeTokenId] accepts these coordinates. *)
Definition landBounds (c : Coordinate) : Prop :=
  -1000000 < co_0 c < 1000000 ∧ -1000000 < co_1 c < 1000000.

(** The signed number 128 bits denote. *)
Definition signed128 (u : Z) : Z := if decide (u < 2 ^ 127) then u else u - 2 ^ 128.

Lemma lor_high_bits u n : 0 ≤ n → Z.lor u (- 2 ^ n) = u mod 2 ^ n - 2 ^ n.
Proof.
  intros Hn. rewrite <- (Z.land_ones u n) by done.
  replace (- 2 ^ n) with (Z.lnot (Z.ones n)) by (rewrite Z.ones_equiv; unfold Z.lnot; lia).
  assert (Z.land (Z.land u (Z.ones n)) (Z.lnot (Z.ones n)) = 0) as Hdisj.
  { apply Z.bits_inj'. intros i Hi.
    rewrite !Z.land_spec, Z.lnot_spec, Z.bits_0 by done.
    by destruct (Z.testbit u i), (Z.testbit (Z.ones n) i). }
  replace (Z.land u (Z.ones n) - 2 ^ n) with (Z.land u (Z.ones n) + Z.lnot (Z.ones n))
    by (rewrite Z.ones_equiv; unfold Z.lnot; lia).
  rewrite Z.add_nocarry_lxor, Z.lxor_lor by done.
  apply Z.bits_inj'. intros i Hi. rewrite !Z.lor_spec, Z.land_spec, Z.lnot_spec by done.
  by destruct (Z.testbit u i), (Z.testbit (Z.ones n) i).
Qed.

Lemma testbit_top u n : 0 ≤ n → 0 ≤ u < 2 ^ (n + 1) → Z.testbit u n = bool_decide (2 ^ n ≤ u).
Proof.
  intros Hn Hu. rewrite Z.pow_add_r in Hu by lia. change (2 ^ 1) with 2 in Hu.
  rewrite Z.testbit_eqb by done.
  destruct (decide (2 ^ n ≤ u)) as [Hle|Hlt].
  - replace (u / 2 ^ n) with 1 by (apply (Z.div_unique_pos u (2 ^ n) 1 (u - 2 ^ n)); lia).
    by rewrite bool_decide_eq_true_2.
  - rewrite Z.div_small by lia. by rewrite bool_decide_eq_false_2.
Qed.

Lemma expandNegative128BitCast_signed u :
  0 ≤ u < 2 ^ 128 → expandNegative128BitCast u = signed128 u.
Proof.
  intros Hu. unfold expandNegative128BitCast, signed128.
  change (Z.shiftl 1 127) with (2 ^ 127).
  replace (Z.lnot (2 ^ 127 - 1)) with (- 2 ^ 127) by (unfold Z.lnot; lia).
  rewrite lor_high_bits by done.
  assert (Z.land u (2 ^ 127) ≠ 0 ↔ 2 ^ 127 ≤ u) as Htop.
  { rewrite <- (bool_decide_eq_true (2 ^ 127 ≤ u)), <- (testbit_top u 127) by lia.
    destruct (Z.testbit u 127) eqn:E; split; try done.
    - intros _ H0. apply (f_equal (λ z, Z.testbit z 127)) in H0.
      by rewrite Z.land_spec, E in H0.
    - intros H0. exfalso. apply H0. apply Z.bits_inj'. intros i Hi.
      rewrite Z.land_spec, Z.pow2_bits_eqb, Z.bits_0 by done.
      destruct (Z.eqb_spec 127 i) as [<-|]; [by rewrite E|by rewrite andb_false_r]. }
  destruct (decide (Z.land u (2 ^ 127) ≠ 0)) as [H1|H1];
    destruct (decide (u < 2 ^ 127)) as [H2|H2]; rewrite ?Htop in H1; try lia.
  replace (u mod 2 ^ 127) with (u - 2 ^ 127); [lia|].
  apply (Z.mod_unique_pos u (2 ^ 127) 1); lia.
Qed.

Lemma unsafeDecodeTokenId_signed v :
  0 ≤ v < 2 ^ 256 →
  unsafeDecodeTokenId v = (signed128 (v / 2 ^ 128), signed128 (v mod 2 ^ 128)).
Proof.
  intros Hv. unfold unsafeDecodeTokenId.
  assert (Z.shiftr (Z.land v clearLow) 128 = v / 2 ^ 128) as ->.
  { rewrite Z.shiftr_land. change (Z.shiftr clearLow 128) with (Z.ones 128).
    rewrite Z.shiftr_div_pow2, Z.land_ones, Z.mod_small; try lia.
    split; [apply Z.div_pos; lia|]. apply Z.div_lt_upper_bound; lia. }
  change clearHigh with (Z.ones 128). rewrite Z.land_ones by lia.
  rewrite !expandNegative128BitCast_signed; [done| |].
  - apply Z.mod_pos_bound. lia.
  - split; [apply Z.div_pos; lia|]. apply Z.div_lt_upper_bound; lia.
Qed.

Lemma signed128_mod x : - 2 ^ 127 ≤ x < 2 ^ 127 → signed128 (x mod 2 ^ 128) = x.
Proof.
  intros Hx. unfold signed128. destruct (decide (0 ≤ x)).
  - rewrite Z.mod_small by lia. by rewrite decide_True by lia.
  - replace (x mod 2 ^ 128) with (x + 2 ^ 128).
    { rewrite decide_False; lia. }
    apply (Z.mod_unique_pos x (2 ^ 128) (-1)); lia.
Qed.

Lemma mod_signed128 u : 0 ≤ u < 2 ^ 128 → signed128 u mod 2 ^ 128 = u.
Proof.
  intros Hu. unfold signed128. case_decide; [by apply Z.mod_small|].
  symmetry. apply (Z.mod_unique_pos _ (2 ^ 128) (-1)); lia.
Qed.

(** C29.  On a 256-bit word, decoding and encoding are inverse: a LAND
    identifier decodes to two coordinates exactly when it is their encoding and
    they are inside the bounds of the map; anything else raises. *)
Theorem decodeTokenId_roundtrip v c :
  0 ≤ v < 2 ^ 256 →
  decodeTokenId v = Ok c ↔ v = encodeLand c ∧ landBounds c.
Proof.
  intros Hv. unfold decodeTokenId. rewrite unsafeDecodeTokenId_signed by done.
  unfold encodeLand, landBounds. destruct c as [x y]. simpl.
  assert (0 ≤ v / 2 ^ 128 < 2 ^ 128).
  { split; [apply Z.div_pos; lia|]. apply Z.div_lt_upper_bound; lia. }
  pose proof (Z.mod_pos_bound v (2 ^ 128) ltac:(lia)).
  split.
  - case_decide as Hb; [|done]. intros [= <- <-].
    rewrite !mod_signed128 by done. split; [|lia].
    rewrite (Z.div_mod v (2 ^ 128)) at 1 by lia. lia.
  - intros [-> Hb]. pose proof (Z.mod_pos_bound x (2 ^ 128) ltac:(lia)).
    pose proof (Z.mod_pos_bound y (2 ^ 128) ltac:(lia)).
    rewrite Z.div_add_l, (Z.div_small (y mod _)), Z.add_0_r by lia.
    rewrite Z.add_comm, Z.mod_add, (Z.mod_small (y mod _)) by lia.
    rewrite !signed128_mod by lia. rewrite decide_True by lia. done.
Qed.

Example decodeTokenId_roundtrip_witness :
  decodeTokenId (encodeLand (mkCoordinate (-150) 73)) = Ok (mkCoordinate (-150) 73).
Proof.
  apply (proj2 (decodeTokenId_roundtrip (encodeLand (mkCoordinate (-150) 73))
    (mkCoordinate (-150) 73) ltac:(decided))).
  split; [reflexivity|decided].
Defined.

(** ** Ordered distances *)

Lemma insert_sorted_perm x l : insert_sorted x l ≡ₚ x :: l.
Proof.
  induction l as [|y l IH]; simpl; [done|]. case_decide; [done|].
  rewrite IH. constructor.
Qed.

Lemma insert_sorted_sorted x l : Sorted Z.le l → Sorted Z.le (insert_sorted x l).
Proof.
  induction l as [|y l IH]; intros Hl; simpl; [by repeat constructor|].
  case_decide as Hxy; [by constructor; [|constructor]|].
  apply Sorted_inv in Hl as [Hl Hd]. constructor; [by apply IH|].
  destruct l as [|z l]; simpl; [constructor; lia|].
  inversion Hd. case_decide; constructor; lia.
Qed.

Lemma sort_numbers_perm l : sort_numbers l ≡ₚ l.
Proof.
  induction l as [|x l IH]; simpl; [done|]. by rewrite insert_sorted_perm, IH.
Qed.

Lemma sort_numbers_sorted l : Sorted Z.le (sort_numbers l).
Proof. induction l; simpl; [constructor|]. by apply insert_sorted_sorted. Qed.

(** ** The invariant *)

(** What an estate holds, and what its token shows of it. *)
Record estate_right (es : Estate) (nft : EthNFT) : Prop := {
  er_size : ∃ n, es_size es = Some n ∧ 0 ≤ n;
  er_shown : en_searchEstateSize nft = es_size es;
  er_distances : ∃ l, es_parcelDistances es = Some l ∧ Sorted Z.le l ∧
    Forall (λ d, 1 ≤ d) l ∧ en_searchDistanceToPlaza nft = Some (default (-1) (head l))
}.

Definition estateEntry `{Env} (nfts : gmap string EthNFT) (id : string) (es : Estate) : Prop :=
  (∃ n, id = estateIdOf n) ∧ ∃ nft, nfts !! id = Some nft ∧ estate_right es nft.

(** Every estate is filed under its token, which shows its size and the least
    of its distances. *)
Definition estates_right `{Env} (w : EthWorld) : Prop :=
  map_Forall (estateEntry (e_nfts (e_storedData w))) (e_estates (e_storedData w)).

(** The table of distances holds positive ones, and -1 for none. *)
Definition distances_positive (p : Proximities) : Prop :=
  map_Forall (λ _ rd, rd.2 = -1 ∨ 1 ≤ rd.2) (p : gmap string (bool * Z)).

#[export] Instance distances_positive_dec p : Decision (distances_positive p).
Proof. unfold distances_positive, Proximities in *. apply _. Defined.

Section estates.
Context `{Env, P : Proximities}.

Lemma estateId_not_parcelId n m : estateIdOf n ≠ parcelIdOf m.
Proof. unfold estateIdOf, parcelIdOf, getNFTId. by rewrite !decide_False by done. Qed.

(** *** Writes elsewhere *)

Lemma estates_right_same w w' :
  e_estates (e_storedData w') = e_estates (e_storedData w) →
  e_nfts (e_storedData w') = e_nfts (e_storedData w) →
  estates_right w → estates_right w'.
Proof. unfold estates_right. by intros -> ->. Qed.

Lemma estates_keeps {A} (m : M EthWorld A) :
  keeps (λ w, (e_estates (e_storedData w), e_nfts (e_storedData w))) m →
  maintains estates_right m (λ _, True).
Proof.
  intros Hm w Hw. split; [|done]. specialize (Hm w). simpl in Hm.
  by apply (estates_right_same w); [congruence..|].
Qed.

(** A write of the tokens that leaves the tokens of estates as they are. *)
Lemma estates_right_nfts (f : gmap string EthNFT → gmap string EthNFT) w :
  (∀ n nft, e_nfts (e_storedData w) !! estateIdOf n = Some nft →
     ∃ nft', f (e_nfts (e_storedData w)) !! estateIdOf n = Some nft' ∧
       en_searchEstateSize nft' = en_searchEstateSize nft ∧
       en_searchDistanceToPlaza nft' = en_searchDistanceToPlaza nft) →
  estates_right w → estates_right (set e_storedData (set e_nfts f) w).
Proof.
  intros Hf Hw id es Hes. destruct (Hw id es Hes) as ((n & ->) & nft & Hn & [H1 H2 H3]).
  split; [by exists n|]. destruct (Hf n nft Hn) as (nft' & Hn' & E1 & E2).
  exists nft'. split; [done|]. split; [done|congruence|].
  destruct H3 as (l & ? & ? & ? & ?). exists l. split_and!; congruence.
Qed.

Lemma mutate_nft_estates k f :
  (∀ nft, en_searchEstateSize (f nft) = en_searchEstateSize nft ∧
          en_searchDistanceToPlaza (f nft) = en_searchDistanceToPlaza nft) →
  maintains estates_right (eth_mutate e_nfts k f) (λ _, True).
Proof.
  intros Hf. apply maintains_modify; [|done]. intros w. apply estates_right_nfts.
  intros n nft Hn. destruct (decide (k = estateIdOf n)) as [->|Hne].
  - rewrite lookup_alter_eq, Hn. simpl. eauto.
  - rewrite lookup_alter_ne by done. eauto.
Qed.

Lemma mutate_parcel_nft_estates landId f :
  maintains estates_right (eth_mutate e_nfts (parcelIdOf landId) f) (λ _, True).
Proof.
  apply maintains_modify; [|done]. intros w. apply estates_right_nfts. intros n nft Hn.
  rewrite lookup_alter_ne by (intros E; by apply (estateId_not_parcelId n landId)). eauto.
Qed.

Lemma set_parcel_nft_estates landId nft :
  maintains estates_right (eth_set e_nfts (parcelIdOf landId) nft) (λ _, True).
Proof.
  apply maintains_modify; [|done]. intros w. apply estates_right_nfts. intros n nft' Hn.
  rewrite lookup_insert_ne by (intros E; by apply (estateId_not_parcelId n landId)). eauto.
Qed.

(** *** Writes to an estate and its token *)

(** Changing an estate and its token together. *)
Lemma estates_right_alter w w' id f g :
  e_estates (e_storedData w') = alter f id (e_estates (e_storedData w)) →
  e_nfts (e_storedData w') = alter g id (e_nfts (e_storedData w)) →
  (∀ es nft, e_estates (e_storedData w) !! id = Some es →
     estate_right es nft → estate_right (f es) (g nft)) →
  estates_right w → estates_right w'.
Proof.
  unfold estates_right. intros -> -> Hfg Hw i e. destruct (decide (id = i)) as [<-|Hne].
  - rewrite lookup_alter_eq. destruct (e_estates _ !! id) as [es|] eqn:Hes; [|done].
    intros [= <-]. destruct (Hw id es Hes) as (Hid & nft & Hn & Hr). split; [done|].
    exists (g nft). rewrite lookup_alter_eq, Hn. split; [done|]. by apply Hfg.
  - rewrite lookup_alter_ne by done. intros He.
    destruct (Hw i e He) as (Hid & nft & Hn & Hr). split; [done|].
    exists nft. by rewrite lookup_alter_ne.
Qed.

(** The distances an estate may hold. *)
Definition distances_right (es : Estate) : Prop :=
  ∃ l, es_parcelDistances es = Some l ∧ Sorted Z.le l ∧ Forall (λ d, 1 ≤ d) l.

Lemma resizeEstate_right id f :
  (∀ n, 0 ≤ n → ∃ n', f (Some n) = Some n' ∧ 0 ≤ n') →
  maintains estates_right (resizeEstate id f)
    (λ r, ∀ es, r.1 = Some es → distances_right es).
Proof.
  intros Hf w Hw. unfold resizeEstate. do 3 erewrite bind_ok by reflexivity. cbn.
  rewrite lookup_alter_eq. destruct (e_estates (e_storedData w) !! id) as [es|] eqn:Hes; cbn.
  - split.
    + set (g nft := nft <| en_searchEstateSize := f (es_size es) |>).
      apply (estates_right_alter w _ id (λ es, es <| es_size ::= f |>) g); [done..| |done].
      intros es' nft Hes' [(n & Hn & Hpos) Hshown Hd]. rewrite Hes in Hes'. injection Hes' as <-.
      destruct (Hf n Hpos) as (n' & Hn' & Hpos'). split; simpl; [|done|done].
      exists n'. by rewrite Hn.
    + intros r [= <-] es' [= <-].
      destruct (Hw id es Hes) as (_ & nft & _ & [_ _ (l & ? & ? & ? & _)]). by exists l.
  - split; [|by intros r [= <-]]. apply (estates_right_same w); [|done|done].
    cbn. apply alter_id. congruence.
Qed.

Lemma addDistance_right id parcel es :
  distances_positive P → distances_right es →
  maintains estates_right (addDistance id parcel es) (λ _, True).
Proof.
  intros HP (l & Hl & Hs & Hpos). unfold addDistance, getParcelDistances, getDistanceToPlaza,
    getAdjacentToRoad. rewrite Hl.
  destruct (getParcelText parcel "") as [coord|]; [|by intros w].
  set (distance := match proximities !! coord with Some (_, p) => p | None => -1 end).
  assert (distance = -1 ∨ 1 ≤ distance) as Hd.
  { unfold distance. destruct (proximities !! coord) as [[r d]|] eqn:E; [|by left].
    apply (HP _ _ E). }
  simpl. set (l' := if decide (distance = -1) then l else sort_numbers (l ++ [distance])).
  assert (Sorted Z.le l' ∧ Forall (λ d, 1 ≤ d) l') as [Hs' Hpos'].
  { unfold l'. case_decide; [done|]. split; [apply sort_numbers_sorted|].
    rewrite sort_numbers_perm. apply Forall_app. split; [done|]. constructor; [lia|done]. }
  set (adjacent := match proximities !! coord with Some (r, _) => r | None => false end).
  intros w Hw. split; [|done]. cbn.
  set (f es := (if adjacent then es <| es_parcelDistances := Some l' |>
                  <| es_adjacentToRoadCount ::= fmap Z.succ |>
                else es <| es_parcelDistances := Some l' |>) : Estate).
  apply (estates_right_alter w _ id f (λ nft,
    nft <| en_searchDistanceToPlaza := Some (default (-1) (head l')) |>
        <| en_searchAdjacentToRoad ::= (λ r, Some (default false r || adjacent)) |>)).
  - unfold f. destruct adjacent; [|done]. apply alter_alter_eq.
  - by destruct adjacent.
  - intros es' nft _ [H1 H2 H3]. unfold f. split; try by destruct adjacent.
    exists l'. by destruct adjacent.
  - done.
Qed.

Lemma minDistance_positive l :
  Forall (λ d, 1 ≤ d) l → minDistance l = default (-1) (head l).
Proof. destruct 1; simpl; [done|]. by rewrite decide_False by lia. Qed.

Lemma removeDistance_right id parcel es :
  distances_right es → maintains estates_right (removeDistance id parcel es) (λ _, True).
Proof.
  intros (l & Hl & Hs & Hpos). unfold removeDistance.
  eapply (maintains_bind _ _ _ (λ _, True)); [by apply estates_keeps; frames|intros r _].
  eapply (maintains_bind _ _ _ (λ _, True)).
  { apply maintains_when; [done|]. intros ->. rewrite Hl. simpl.
    assert (Sorted Z.le (tail l) ∧ Forall (λ d, 1 ≤ d) (tail l)) as [Hs' Hpos'].
    { split; [by destruct Hs|by destruct Hpos]. }
    intros w Hw. split; [|done]. cbn.
    apply (estates_right_alter w _ id (λ es, es <| es_parcelDistances := Some (tail l) |>)
      (λ nft, nft <| en_searchDistanceToPlaza := Some (minDistance (tail l)) |>)); try done.
    intros es' nft _ [H1 H2 H3]. split; [done|done|].
    exists (tail l). by rewrite minDistance_positive. }
  intros _ _.
  eapply (maintains_bind _ _ _ (λ _, True)); [by apply estates_keeps; frames|intros a _].
  apply maintains_when; [done|]. intros _.
  set (count := default 0 (es_adjacentToRoadCount es) - 1). intros w Hw. split; [|done]. cbn.
  apply (estates_right_alter w _ id (λ es, es <| es_adjacentToRoadCount := Some count |>)
    (λ nft, nft <| en_searchAdjacentToRoad := Some (bool_decide (0 < count)) |>)); try done.
  by intros es' nft _ [H1 H2 H3].
Qed.

(** ** The handlers *)

#[local] Hint Extern 1 (maintains estates_right (eth_mutate e_nfts (parcelIdOf _) _) _) =>
  (apply mutate_parcel_nft_estates) : inv.
#[local] Hint Extern 1 (maintains estates_right (eth_set e_nfts (parcelIdOf _) _) _) =>
  (apply set_parcel_nft_estates) : inv.
#[local] Hint Extern 2 (maintains estates_right (eth_mutate e_nfts _ _) _) =>
  (apply mutate_nft_estates; by intros ?) : inv.
#[local] Hint Extern 3 (maintains estates_right _ _) =>
  (apply estates_keeps; frames; fail) : inv.

Lemma createOrLoadEthAccount_estates a :
  keeps (λ w, (e_estates (e_storedData w), e_nfts (e_storedData w))) (createOrLoadEthAccount a).
Proof. by intros w. Qed.
#[local] Hint Resolve createOrLoadEthAccount_estates : frame.

Lemma handleAddLand_right e coords :
  distances_positive P → maintains estates_right (handleAddLand e coords) (λ _, True).
Proof.
  intros HP. unfold handleAddLand.
  eapply maintains_bind; [apply resizeEstate_right|].
  { intros n Hn. exists (Z.succ n). split; [done|lia]. }
  intros [es nft] Hes. simpl in Hes. inv_go; try by apply addDistance_right; auto.
Qed.

Lemma handleRemoveLand_right e coords :
  maintains estates_right (handleRemoveLand e coords) (λ _, True).
Proof.
  unfold handleRemoveLand. eapply maintains_bind; [apply resizeEstate_right|].
  { intros n Hn. simpl. destruct (Z.eqb_spec n 0); simpl; [by exists n|].
    exists (Z.pred n). split; [done|lia]. }
  intros [es nft] Hes. simpl in Hes. inv_go; try by apply removeDistance_right; auto.
Qed.

(** *** Handlers that rewrite one estate *)

Lemma mutate_estate_estates k f :
  (∀ es nft, estate_right es nft → estate_right (f es) nft) →
  maintains estates_right (eth_mutate e_estates k f) (λ _, True).
Proof.
  intros Hf. apply maintains_modify; [|done]. intros w.
  apply (estates_right_alter w _ k f id); [done| |by auto].
  symmetry. by apply alter_id.
Qed.

(** An estate and its token, as far as the invariant reads them. *)
Definition measures (es : Estate) : option Z * option (list Z) :=
  (es_size es, es_parcelDistances es).

Definition shown (nft : EthNFT) : option Z * option Z :=
  (en_searchEstateSize nft, en_searchDistanceToPlaza nft).

(** The estate under [id] and its token have these measures. *)
Definition settled (id : string) ms sh (w : EthWorld) : Prop :=
  estates_right w ∧ (measures <$> e_estates (e_storedData w) !! id) = Some ms ∧
  (shown <$> e_nfts (e_storedData w) !! id) = Some sh.

Lemma settled_intro id w es :
  estates_right w → e_estates (e_storedData w) !! id = Some es →
  ∃ sh, settled id (measures es) sh w.
Proof.
  intros Hw Hes. destruct (Hw id es Hes) as (_ & nft & Hn & _).
  exists (shown nft). unfold settled. by rewrite Hes, Hn.
Qed.

Section settled.
Context (id : string) (ms : option Z * option (list Z)) (sh : option Z * option Z).
#[local] Abbreviation J := (settled id ms sh).

Lemma settled_keeps {A} (m : M EthWorld A) :
  keeps (λ w, (e_estates (e_storedData w), e_nfts (e_storedData w))) m →
  maintains J m (λ _, True).
Proof.
  intros Hm w (Hw & Hes & Hn). split; [|done]. specialize (Hm w). simpl in Hm.
  injection Hm as E1 E2. unfold settled. rewrite E1, E2. split; [|done].
  by apply (estates_right_same w).
Qed.

Lemma settled_get_nft :
  maintains J (eth_get e_nfts id) (λ o, (shown <$> o) = Some sh).
Proof. apply maintains_gets. intros w Hw. apply Hw. Qed.

Lemma settled_get_estate :
  maintains J (eth_get e_estates id) (λ o, (measures <$> o) = Some ms).
Proof. apply maintains_gets. intros w Hw. apply Hw. Qed.

(** The estate that has these measures is as good as the one in the map. *)
Lemma estate_right_measures es es' nft nft' :
  measures es' = measures es → shown nft' = shown nft →
  estate_right es nft → estate_right es' nft'.
Proof.
  destruct es, es', nft, nft'. unfold measures, shown. simpl.
  intros [= -> ->] [= -> ->] [H1 H2 H3]. by split.
Qed.

Lemma settled_write w w' :
  (∀ i, i ≠ id → e_estates (e_storedData w') !! i = e_estates (e_storedData w) !! i) →
  (∀ i, i ≠ id → e_nfts (e_storedData w') !! i = e_nfts (e_storedData w) !! i) →
  (measures <$> e_estates (e_storedData w') !! id) = Some ms →
  (shown <$> e_nfts (e_storedData w') !! id) = Some sh →
  J w → J w'.
Proof.
  intros He Hn Hes' Hn' (Hw & Hes & Hnft). split; [|done]. intros i es Hi.
  destruct (decide (i = id)) as [->|Hne].
  - apply fmap_Some in Hes as (es0 & Hes0 & E0), Hnft as (nft0 & Hnft0 & F0).
    destruct (Hw id es0 Hes0) as (Hid & nft1 & Hnft1 & Hr).
    assert (nft1 = nft0) as -> by congruence.
    rewrite Hi in Hes'. injection Hes' as E1.
    apply fmap_Some in Hn' as (nft' & Hnft' & F1). split; [done|]. exists nft'.
    split; [done|]. apply (estate_right_measures es0 _ nft0); congruence.
  - rewrite He in Hi by done. destruct (Hw i es Hi) as (Hid & nft & Hni & Hr).
    split; [done|]. exists nft. by rewrite Hn.
Qed.

Lemma settled_set_nft nft :
  shown nft = sh → maintains J (eth_set e_nfts id nft) (λ _, True).
Proof.
  intros Hsh. apply maintains_modify; [|done]. intros w Hw.
  apply (settled_write w); try done; cbn.
  - intros i Hi. by rewrite lookup_insert_ne.
  - apply Hw.
  - rewrite lookup_insert_eq. simpl. by rewrite Hsh.
Qed.

Lemma settled_mutate_nft f :
  (∀ nft, shown (f nft) = shown nft) → maintains J (eth_mutate e_nfts id f) (λ _, True).
Proof.
  intros Hf. apply maintains_modify; [|done]. intros w Hw.
  apply (settled_write w); try done; cbn.
  - intros i Hi. by rewrite lookup_alter_ne.
  - apply Hw.
  - rewrite lookup_alter_eq. destruct Hw as (_ & _ & Hn).
    destruct (e_nfts _ !! id); [|done]. simpl in *. by rewrite Hf.
Qed.

Lemma settled_mutate_estate f :
  (∀ es, measures (f es) = measures es) → maintains J (eth_mutate e_estates id f) (λ _, True).
Proof.
  intros Hf. apply maintains_modify; [|done]. intros w Hw.
  apply (settled_write w); try done; cbn.
  - intros i Hi. by rewrite lookup_alter_ne.
  - rewrite lookup_alter_eq. destruct Hw as (_ & Hes & _).
    destruct (e_estates _ !! id); [|done]. simpl in *. by rewrite Hf.
  - apply Hw.
Qed.

Lemma settled_set_estate es :
  measures es = ms → maintains J (eth_set e_estates id es) (λ _, True).
Proof.
  intros Hms. apply maintains_modify; [|done]. intros w Hw.
  apply (settled_write w); try done; cbn.
  - intros i Hi. by rewrite lookup_insert_ne.
  - rewrite lookup_insert_eq. simpl. by rewrite Hms.
  - apply Hw.
Qed.
End settled.

#[local] Hint Resolve settled_get_nft settled_get_estate : inv.
#[local] Hint Extern 1 (maintains (settled _ _ _) (eth_mutate e_nfts _ _) _) =>
  (apply settled_mutate_nft; by intros ?) : inv.
#[local] Hint Extern 1 (maintains (settled _ _ _) (eth_mutate e_estates _ _) _) =>
  (apply settled_mutate_estate; by intros ?) : inv.
#[local] Hint Extern 3 (maintains (settled _ _ _) _ _) =>
  (apply settled_keeps; frames; fail) : inv.

Lemma handleEstateUpdate_right e block w :
  is_Some (e_estates (e_storedData w) !! estateIdOf (up_assetId e)) →
  estates_right w → estates_right (handleEstateUpdate e block w).2.
Proof.
  intros [es Hes] Hw. destruct (settled_intro _ w es Hw Hes) as [sh HJ].
  unfold handleEstateUpdate. set (id := estateIdOf (up_assetId e)) in *.
  enough (maintains (settled id (measures es) sh) (handleEstateUpdate e block) (λ _, True)) as Hm
    by apply (Hm w HJ).
  clear w Hes Hw HJ. unfold handleEstateUpdate. fold id.
  eapply maintains_bind; [apply settled_get_estate|intros found Hfound].
  apply fmap_Some in Hfound as (es' & -> & Hms).
  eapply (maintains_bind _ _ _ (λ _, True)); [eauto 3 with inv nocore|intros _ _].
  eapply (maintains_bind _ _ _ (λ es2, measures es2 = measures es)).
  - destruct (buildData _ _) as [data|]; [|by apply maintains_ret].
    eapply (maintains_bind _ _ _ (λ _, True)); [eauto 3 with inv nocore|intros _ _].
    eapply maintains_bind; [apply settled_get_nft|intros nft Hnft].
    apply fmap_Some in Hnft as (nft' & -> & Hsh).
    eapply (maintains_bind _ _ _ (λ _, True)); [eauto 3 with inv nocore|intros _ _].
    eapply (maintains_bind _ _ _ (λ _, True)); [eauto 3 with inv nocore|intros t _].
    eapply (maintains_bind _ _ _ (λ _, True)); [by apply settled_set_nft|intros _ _].
    by apply maintains_ret.
  - intros es2 Hes2. by apply settled_set_estate.
Qed.

(** An estate that was minted and has no parcel yet. *)
Definition freshEstate (id : string) (w : EthWorld) : Prop :=
  ∃ es, e_estates (e_storedData w) !! id = Some es ∧ measures es = (Some 0, Some []).

Lemma handleCreateEstate_right block e w :
  freshEstate (estateIdOf (ce_estateId e)) w →
  estates_right w → estates_right (handleCreateEstate block e w).2.
Proof.
  set (id := estateIdOf (ce_estateId e)). intros (es & Hes & Hms) Hw.
  assert (settled id (Some 0, Some []) (Some 0, Some (-1)) w) as HJ.
  { split; [done|]. destruct (Hw id es Hes) as (_ & nft & Hn & [_ H2 (l & H3 & _ & _ & H4)]).
    injection Hms as E1 E2. rewrite Hes, Hn. simpl. unfold measures, shown.
    rewrite E1, E2 in *. injection H3 as <-. by rewrite H2, H4. }
  enough (maintains (settled id (Some 0, Some []) (Some 0, Some (-1)))
    (handleCreateEstate block e) (λ _, True)) as Hm by apply (Hm w HJ).
  clear w es Hes Hms Hw HJ. unfold handleCreateEstate. fold id.
  eapply (maintains_bind _ _ _ (λ _, True)); [eauto 3 with inv nocore|intros owner _].
  eapply (maintains_bind _ _ _ (λ es, measures es = (Some 0, Some []))).
  - destruct (buildData _ _) as [data|]; [|by apply maintains_ret].
    eapply (maintains_bind _ _ _ (λ _, True)); [eauto 3 with inv nocore|intros _ _].
    eapply maintains_bind; [apply settled_get_nft|intros nft Hnft].
    apply fmap_Some in Hnft as (nft' & -> & [= Hsh _]).
    eapply (maintains_bind _ _ _ (λ _, True)); [eauto 3 with inv nocore|intros _ _].
    eapply (maintains_bind _ _ _ (λ _, True)); [eauto 3 with inv nocore|intros t _].
    eapply (maintains_bind _ _ _ (λ _, True)).
    { apply settled_set_nft. unfold shown. simpl. by rewrite <- Hsh. }
    intros _ _. by apply maintains_ret.
  - intros es Hes. eapply (maintains_bind _ _ _ (λ _, True)); [by apply settled_set_estate|].
    intros _ _. eapply (maintains_bind _ _ _ (λ _, True)); [eauto 3 with inv nocore|].
    intros _ _. by apply maintains_ret.
Qed.

(** *** Transfers of estates *)

Lemma getCategory_estate : getCategory (ea_EstateRegistry getEthAddresses) = "estate".
Proof.
  unfold getCategory, getEthAddresses.
  by destruct (decide (ETHEREUM_CHAIN_ID = Some ETHEREUM_MAINNET)).
Qed.

(** A token with no estate, and nothing else. *)
Definition unborn (id : string) (w : EthWorld) : Prop :=
  estates_right w ∧ e_estates (e_storedData w) !! id = None.

Lemma unborn_keeps id {A} (m : M EthWorld A) :
  keeps (λ w, (e_estates (e_storedData w), e_nfts (e_storedData w))) m →
  maintains (unborn id) m (λ _, True).
Proof.
  intros Hm w [Hw Hes]. split; [|done]. specialize (Hm w). simpl in Hm. injection Hm as E1 E2.
  split; [by apply (estates_right_same w)|]. by rewrite E1.
Qed.

Lemma unborn_mutate_nft id f : maintains (unborn id) (eth_mutate e_nfts id f) (λ _, True).
Proof.
  apply maintains_modify; [|done]. intros w [Hw Hes]. split; [|done].
  intros i es Hi. destruct (Hw i es Hi) as (Hid & nft & Hn & Hr). split; [done|].
  exists nft. split; [|done]. cbn. rewrite lookup_alter_ne; [done|].
  intros <-. cbn in Hi. congruence.
Qed.

Lemma transferEstate_mint id nft n w :
  id = estateIdOf n → is_Some (e_nfts (e_storedData w) !! id) →
  unborn id w → estates_right (transferEstate id true nft w).2.
Proof.
  intros Hid [nft0 Hn0] [Hw Hes]. unfold transferEstate.
  destruct (getEstateImage _) as [image|]; [|done].
  do 2 erewrite bind_ok by reflexivity. intros i es. cbn.
  destruct (decide (i = id)) as [->|Hne].
  - rewrite lookup_insert_eq. intros [= <-]. split; [by exists n|].
    eexists. rewrite lookup_alter_eq, Hn0. split; [done|]. split; [by exists 0|done|].
    exists []. split_and!; try done; constructor.
  - rewrite lookup_insert_ne by done. intros Hi. destruct (Hw i es Hi) as (? & nft' & ? & ?).
    split; [done|]. exists nft'. by rewrite lookup_alter_ne.
Qed.

Lemma orderAfterTransfer_estates id owner o :
  maintains estates_right (orderAfterTransfer id owner o) (λ _, True).
Proof. unfold orderAfterTransfer. inv_go. Qed.

(** A transfer of an estate from one owner to another. *)
Lemma ethHandleTransfer_moves_estate block e uris coords :
  isMint (te_from e) = false →
  ∀ w, estates_right w →
  estates_right (ethHandleTransfer block (ea_EstateRegistry getEthAddresses) e uris coords w).2.
Proof.
  intros Hmint w Hw. unfold ethHandleTransfer. rewrite getCategory_estate, Hmint.
  erewrite bind_ok by reflexivity. cbv zeta.
  set (id := getNFTId _ _ _). set (nft := default _ _).
  erewrite bind_ok by reflexivity. set (w1 := set e_storedData _ w).
  assert (estates_right w1) as Hw1.
  { apply estates_right_nfts; [|done]. intros n nft' Hn. unfold nft.
    destruct (decide (id = estateIdOf n)) as [->|Hne].
    - rewrite lookup_insert_eq, Hn. simpl. eauto.
    - rewrite lookup_insert_ne by done. eauto. }
  match goal with |- estates_right (?m w1).2 =>
    enough (maintains estates_right m (λ _, True)) as Hm by apply (Hm w1 Hw1)
  end.
  unfold assignNFT. simpl. unfold transferEstate.
  inv_go; try apply orderAfterTransfer_estates.
  apply mutate_estate_estates. by intros es n [S1 S2 S3].
Qed.

Definition born (id : string) (w : EthWorld) : Prop :=
  unborn id w ∧ is_Some (e_nfts (e_storedData w) !! id).

Lemma born_keeps id {A} (m : M EthWorld A) :
  keeps (λ w, (e_estates (e_storedData w), e_nfts (e_storedData w))) m →
  maintains (born id) m (λ _, True).
Proof.
  intros Hm w [Hw Hn]. split; [|done]. split; [by apply (unborn_keeps id m Hm)|].
  specialize (Hm w). simpl in Hm. injection Hm as _ E2. by rewrite E2.
Qed.

Lemma born_mutate_nft id f : maintains (born id) (eth_mutate e_nfts id f) (λ _, True).
Proof.
  intros w [Hw [nft Hn]]. split; [|done]. split; [by apply unborn_mutate_nft|].
  cbn. rewrite lookup_alter_eq, Hn. by eexists.
Qed.

#[local] Hint Resolve born_mutate_nft : inv.
#[local] Hint Extern 3 (maintains (born _) _ _) => (apply born_keeps; frames; fail) : inv.

(** A new estate has no parcel and its token shows none. *)
Lemma ethHandleTransfer_mints_estate block e uris coords w :
  isMint (te_from e) = true →
  e_estates (e_storedData w) !! estateIdOf (te_tokenId e) = None →
  estates_right w →
  estates_right (ethHandleTransfer block (ea_EstateRegistry getEthAddresses) e uris coords w).2.
Proof.
  intros Hmint Hes Hw. unfold ethHandleTransfer. rewrite getCategory_estate, Hmint.
  erewrite bind_ok by reflexivity. cbv zeta.
  change (getNFTId _ _ _) with (estateIdOf (te_tokenId e)).
  set (id := estateIdOf (te_tokenId e)) in *. set (nft := default _ _).
  erewrite bind_ok by reflexivity. set (w1 := set e_storedData _ w).
  assert (born id w1) as Hw1.
  { split; [split|]; [|done|].
    - intros i es Hi. destruct (Hw i es Hi) as (Hid & nft' & Hn & Hr). split; [done|].
      exists nft'. split; [|done]. cbn. rewrite lookup_insert_ne; [done|].
      intros <-.
      change (e_estates (e_storedData w) !! id = Some es) in Hi. congruence.
    - cbn. rewrite lookup_insert_eq. by eexists. }
  assert (∀ A (m : M EthWorld A) (k : A → M EthWorld unit),
    maintains (born id) m (λ _, True) →
    (∀ a w, born id w → estates_right (k a w).2) →
    ∀ w, born id w → estates_right ((m ≫= k) w).2) as Hbind.
  { intros A m k Hm Hk w' Hw'.
    apply (maintains_post (born id) estates_right m k (λ _, True)); try done.
    - by intros ? [[? _] _].
    - intros a s _. apply Hk. }
  revert w1 Hw1. apply Hbind; [eauto 3 with inv nocore|intros acc].
  apply Hbind; [eauto 3 with inv nocore|intros t].
  apply Hbind; [unfold assignNFT; inv_go|intros nft1].
  apply Hbind; [unfold assignNFT, ethBuildCountFromNFT, ethBuildCount; inv_go|intros nft2].
  rewrite decide_False, decide_True by done. intros w2 [Hw2 Hn2].
  assert (estates_right (transferEstate id true nft2 w2).2) as Hfinal
    by (by eapply transferEstate_mint).
  unfold mbind at 1, M_bind at 1.
  destruct (transferEstate id true nft2 w2) as [[a|ex] w3]; simpl in Hfinal |- *;
    [by apply (estates_right_same w3)|done].
Qed.

(** ** The registry as a transition system *)

(** What the estate registry can emit in a state: an estate is minted once,
    created before it has parcels, and its data updated while it exists. *)
Inductive estate_step (coords : gmap Z Coordinate) : relation EthWorld :=
  | step_mint block e uris w :
      isMint (te_from e) = true →
      e_estates (e_storedData w) !! estateIdOf (te_tokenId e) = None →
      estate_step coords w
        (ethHandleTransfer block (ea_EstateRegistry getEthAddresses) e uris coords w).2
  | step_move block e uris w :
      isMint (te_from e) = false →
      estate_step coords w
        (ethHandleTransfer block (ea_EstateRegistry getEthAddresses) e uris coords w).2
  | step_create block e w :
      freshEstate (estateIdOf (ce_estateId e)) w →
      estate_step coords w (handleCreateEstate block e w).2
  | step_add e w : estate_step coords w (handleAddLand e coords w).2
  | step_remove e w : estate_step coords w (handleRemoveLand e coords w).2
  | step_update e block w :
      is_Some (e_estates (e_storedData w) !! estateIdOf (up_assetId e)) →
      estate_step coords w (handleEstateUpdate e block w).2.

(** C7.  In every state the events of the estate registry lead to, each estate
    is filed with its token, its distances are in order, and its token shows its
    size and the least of its distances, or -1 when it has none. *)
Theorem reachable_estates_right coords w0 w :
  distances_positive P → estates_right w0 → rtc (estate_step coords) w0 w →
  estates_right w.
Proof.
  intros HP Hw0 Hr. induction Hr as [w|w w1 w2 Hstep _ IH]; [done|].
  apply IH. destruct Hstep.
  - by apply ethHandleTransfer_mints_estate.
  - by apply ethHandleTransfer_moves_estate.
  - by apply handleCreateEstate_right.
  - by apply handleAddLand_right.
  - by apply handleRemoveLand_right.
  - by apply handleEstateUpdate_right.
Qed.
End estates.

(** ** An estate near the plaza *)

#[local] Existing Instances Samples.env EthSamples.parcels.

(** The size of the sample estate and what its token shows, with its distances. *)
Definition estateOne (w : EthWorld) : option (option Z * option (list Z) * (option Z * option Z)) :=
  es ← e_estates (e_storedData w) !! estateIdOf 1;
  nft ← e_nfts (e_storedData w) !! estateIdOf 1;
  Some (measures es, shown nft).

Example reachable_estates_right_witness :
  let w := (handleRemoveLand (EthSamples.removes 11 20) EthSamples.coordinates
              EthSamples.estateFull).2 in
  estates_right w ∧ estateOne w = Some (Some 1, Some [5], (Some 1, Some 5)).
Proof.
  split; [|vm_compute; reflexivity].
  apply (reachable_estates_right EthSamples.coordinates EthSamples.parcelsMinted).
  - decided.
  - assert (e_estates (e_storedData EthSamples.parcelsMinted) = ∅) as E
      by (vm_compute; reflexivity).
    unfold estates_right. rewrite E. apply map_Forall_empty.
  - apply (rtc_l _ _ EthSamples.estateMinted).
    { unfold EthSamples.estateMinted, EthSamples.registry.
      apply step_mint; vm_compute; reflexivity. }
    apply (rtc_l _ _ EthSamples.estateCreated).
    { unfold EthSamples.estateCreated. apply step_create.
      eexists; split; vm_compute; reflexivity. }
    apply (rtc_l _ _ EthSamples.estateHalf); [apply step_add|].
    apply (rtc_l _ _ EthSamples.estateFull); [apply step_add|].
    apply rtc_once. apply step_remove.
Defined.

(** The parcel that leaves is only struck off the distances when it is the
    nearest: an estate that lost both parcels, the far one first, still shows the
    distance of the far one. *)
Example emptied_estate_keeps_distance :
  estateOne (for_each [EthSamples.removes 10 20; EthSamples.removes 11 20]
    (λ e, handleRemoveLand e EthSamples.coordinates) EthSamples.estateFull).2
  = Some (Some 0, Some [5], (Some 0, Some 5)).
Proof. vm_compute. reflexivity. Qed.
