(* ===== verification/EthSalesProofs.v ===== *)
(** * Ethereum processor: what the accounting conserves

    A sale is recorded once, and the events of a batch move money between
    accounts without creating or losing any. *)

From S2P Require Import Prelude JsString Model Env State Common Analytics AnalyticsProofs.
From S2P Require Import EthModel EthCommon EthLand EthToken EthMarketplace EthStore.
From S2P Require Import EthProcessor Samples EthSamples.
Open Scope string_scope.
Open Scope list_scope.
Open Scope Z_scope.

(** ** Observations *)

(** What the accounts have spent, less what they have earned. *)
Definition ethImbalance (w : EthWorld) : Z :=
  map_total acc_spent (e_accounts (e_storedData w))
  - map_total acc_earned (e_accounts (e_storedData w)).

(** The counter of the network, as [ethBuildCount] finds or creates it. *)
Definition ethereumCount (w : EthWorld) : Count :=
  default (newCount ETHEREUM) (e_counts (e_storedData w) !! countKey ETHEREUM).

(** An account as [createOrLoadEthAccount] finds or creates it. *)
Definition ethAccountAt (w : EthWorld) (address : string) : Account :=
  default (createAccount address ETHEREUM)
    (e_accounts (e_storedData w) !! accountKey address ETHEREUM).

(** The day bucket of a sale, as it is found or created. *)
Definition ethDayAt (w : EthWorld) (timestamp : Z) : AnalyticsDayData :=
  default {|
    an_id := analyticsKey timestamp ETHEREUM;
    an_date := day_of timestamp * 86400;
    an_sales := 0; an_volume := 0; an_creatorsEarnings := 0; an_daoEarnings := 0;
    an_network := ETHEREUM
  |} (e_analytics (e_storedData w) !! analyticsKey timestamp ETHEREUM).

(** ** Accounts *)

Lemma createOrLoadEthAccount_run address w :
  createOrLoadEthAccount address w =
  (Ok (ethAccountAt w address),
   w <| e_storedData ::= set e_accounts
          <[accountKey address ETHEREUM := ethAccountAt w address]> |>).
Proof. reflexivity. Qed.

Lemma updateEthAccount_run address f w :
  updateEthAccount address f w =
  (Ok tt, w <| e_storedData ::= set e_accounts
                 <[accountKey address ETHEREUM := f (ethAccountAt w address)]> |>).
Proof.
  transitivity (Ok tt, w <| e_storedData ::= set e_accounts (λ m,
    alter f (accountKey address ETHEREUM)
      (<[accountKey address ETHEREUM := ethAccountAt w address]> m)) |>); [reflexivity|].
  apply (f_equal (pair (Ok tt))). destruct w as [[] ? ? ?]. unfold ethAccountAt, set. cbn.
  do 2 f_equal. apply alter_insert_eq.
Qed.

Definition ethTotal (g : Account → Z) (w : EthWorld) : Z :=
  map_total g (e_accounts (e_storedData w)).

Lemma ethTotal_insert g address acc w :
  g (createAccount address ETHEREUM) = 0 →
  ethTotal g (w <| e_storedData ::= set e_accounts <[accountKey address ETHEREUM := acc]> |>) =
  ethTotal g w + (g acc - g (ethAccountAt w address)).
Proof. intros Hg. unfold ethTotal. cbn. by rewrite map_total_account. Qed.

Lemma updateEthAccount_shifts g address f d :
  g (createAccount address ETHEREUM) = 0 → (∀ acc, g (f acc) = g acc + d) →
  shifts (ethTotal g) d (updateEthAccount address f).
Proof.
  intros Hg Hf w. rewrite updateEthAccount_run. cbn [snd].
  rewrite ethTotal_insert, Hf by done. lia.
Qed.

Lemma ethImbalance_total w : ethImbalance w = ethTotal acc_spent w - ethTotal acc_earned w.
Proof. reflexivity. Qed.

Lemma ethImbalance_keeps {A} (m : M EthWorld A) :
  keeps (ethTotal acc_spent) m → keeps (ethTotal acc_earned) m → keeps ethImbalance m.
Proof. intros H1 H2 w. by rewrite !ethImbalance_total, (H1 w), (H2 w). Qed.

Lemma createOrLoadEthAccount_balanced address :
  keeps ethImbalance (createOrLoadEthAccount address).
Proof.
  apply ethImbalance_keeps; intros w; etransitivity;
    try (exact (ethTotal_insert _ address (ethAccountAt w address) w eq_refl)); lia.
Qed.
#[export] Hint Resolve createOrLoadEthAccount_balanced : frame.

(** ** The accounts of a sale *)

(** The buyer spends what the seller earns. *)
Lemma ethSettle_balanced a nft : keeps ethImbalance (ethSettle a nft).
Proof.
  unfold ethSettle. intros w.
  do 2 rewrite (bind_ok _ _ _ _ _ (updateEthAccount_run _ _ _)).
  set (w1 := set e_storedData _ w). set (w2 := set e_storedData _ w1).
  assert (ethImbalance w2 = ethImbalance w) as <-.
  { rewrite !ethImbalance_total. unfold w2, w1. rewrite !ethTotal_insert by done. simpl. lia. }
  match goal with |- ethImbalance (?m w2).2 = _ =>
    enough (keeps ethImbalance m) as Hm by exact (Hm w2)
  end.
  unfold ethAnalyticsDay. frames.
Qed.
#[export] Hint Resolve ethSettle_balanced : frame.

Section sales.
Context `{Env, Rpc, EthRpc, Proximities, EthStoreOk}.

Lemma ethTrackSale_balanced block a : keeps ethImbalance (ethTrackSale block a).
Proof. unfold ethTrackSale, ethBuildCountFromSale, ethBuildCount, ethSaleOf, ethSaleBuyer, ethSaleItem. frames. Qed.
#[local] Hint Resolve ethTrackSale_balanced : frame.

Lemma dispatchMarketplaceEvent_balanced q : keeps ethImbalance (dispatchMarketplaceEvent q).
Proof. unfold dispatchMarketplaceEvent. unfold_eth_handlers. frames. Qed.
#[local] Hint Resolve dispatchMarketplaceEvent_balanced : frame.

(** Over all the events of a batch, and whether or not they succeed, the
    accounts together spend exactly what they earn more. *)
Theorem dispatchEvents_balanced w :
  ethImbalance (dispatchEvents w).2 = ethImbalance w.
Proof.
  enough (keeps ethImbalance dispatchEvents) as Hm by exact (Hm w).
  unfold dispatchEvents, dispatchENSEvent. unfold_eth_handlers. frames.
Qed.

(** ** One sale *)

(** The counter after a sale. *)
Definition ethCountedSale (a : EthSaleArgs) (c : Count) : Count :=
  c <| cnt_salesTotal ::= Z.succ |>
    <| cnt_salesManaTotal ::= Z.add (esa_price a) |>
    <| cnt_daoEarningsManaTotal ::= Z.add (daoCut (esa_feesCollectorCut a) (esa_price a)) |>.

Lemma ethCountSale_run a w :
  cnt_id (ethereumCount w) = countKey ETHEREUM →
  (count ← ethBuildCountFromSale (esa_price a) (esa_feesCollectorCut a);
   _ ← eth_set e_counts (cnt_id count) count; mret count) w =
  (Ok (ethCountedSale a (ethereumCount w)),
   w <| e_storedData ::=
     set e_counts <[countKey ETHEREUM := ethCountedSale a (ethereumCount w)]> |>).
Proof.
  unfold ethBuildCountFromSale, ethBuildCount, ethereumCount. intros Hid.
  unfold mbind, M_bind, eth_get, eth_set, gets, modify, mret, M_ret.
  destruct (e_counts (e_storedData w) !! countKey ETHEREUM) as [c|] eqn:E; simpl in Hid |- *.
  - rewrite Hid. apply (f_equal (pair (Ok _))). destruct w as [[] ? ? ?]. unfold set. cbn.
    do 2 f_equal. apply insert_insert_eq.
  - reflexivity.
Qed.

(** The sale of a token that is indexed, bought by [buyer]. *)
Definition ethSaleRecord (a : EthSaleArgs) (saleId buyer : string) (nft : EthNFT)
    (item : option ItemRef) : EthSale :=
  bareSale a saleId
    <| esl_realBuyer := Some (esa_buyer a) |>
    <| esl_operation := Some (getOperation (esa_buyer a)) |>
    <| esl_buyer := Some buyer |>
    <| esl_nft := Some (en_id nft) |>
    <| esl_searchTokenId := en_tokenId nft |>
    <| esl_searchContractAddress := en_contractAddress nft |>
    <| esl_searchCategory := en_category nft |>
    <| esl_item := item |>
    <| esl_searchItemId := fmap (M := option) iref_blockchainId item |>.

Lemma ethSaleBuyer_keeps {T} (π : EthWorld → T) block buyer nft :
  keeps π (ethSaleBuyer block buyer nft).
Proof. unfold ethSaleBuyer. frames. Qed.

(** The token after its sale. *)
Definition soldEthNFT (a : EthSaleArgs) (v : Z) (nft : EthNFT) : EthNFT :=
  nft <| en_soldAt := Some (esa_timestamp a) |>
      <| en_sales ::= fmap Z.succ |>
      <| en_volume := Some (v + esa_price a) |>
      <| en_updatedAt := Some (esa_timestamp a) |>.

Definition boughtBy (a : EthSaleArgs) (acc : Account) : Account :=
  acc <| acc_purchases ::= Z.succ |> <| acc_spent ::= Z.add (esa_price a) |>.

Definition soldBy (a : EthSaleArgs) (acc : Account) : Account :=
  acc <| acc_sales ::= Z.succ |> <| acc_earned ::= Z.add (esa_price a) |>.

Definition dayOfSale (a : EthSaleArgs) (day : AnalyticsDayData) : AnalyticsDayData :=
  day <| an_sales ::= Z.succ |>
      <| an_volume ::= Z.add (esa_price a) |>
      <| an_daoEarnings ::= Z.add (daoCut (esa_feesCollectorCut a) (esa_price a)) |>.

(** What a sale leaves, map by map. *)
Record settled_sale (a : EthSaleArgs) (nft : EthNFT) (v : Z) (w w' : EthWorld) : Prop := {
  ss_nfts : e_nfts (e_storedData w') = <[esa_nftId a := soldEthNFT a v nft]> (e_nfts (e_storedData w));
  ss_accounts : e_accounts (e_storedData w') =
    <[accountKey (esa_seller a) ETHEREUM := soldBy a (ethAccountAt w (esa_seller a))]>
    (<[accountKey (esa_buyer a) ETHEREUM := boughtBy a (ethAccountAt w (esa_buyer a))]>
     (e_accounts (e_storedData w)));
  ss_analytics : e_analytics (e_storedData w') =
    <[an_id (ethDayAt w (esa_timestamp a)) := dayOfSale a (ethDayAt w (esa_timestamp a))]>
    (e_analytics (e_storedData w));
  ss_sales : e_sales w' = e_sales w;
  ss_counts : e_counts (e_storedData w') = e_counts (e_storedData w)
}.

Lemma ethSettle_run a nft v w :
  e_nfts (e_storedData w) !! esa_nftId a = Some nft → en_volume nft = Some v →
  esa_buyer a ≠ esa_seller a →
  ∃ w', ethSettle a (Some nft) w = (Ok tt, w') ∧ settled_sale a nft v w w'.
Proof.
  intros Hn Hv Hne. unfold ethSettle.
  rewrite (bind_ok _ _ _ _ _ (updateEthAccount_run _ _ _)). set (w1 := set e_storedData _ w).
  rewrite (bind_ok _ _ _ _ _ (updateEthAccount_run _ _ _)).
  assert (ethAccountAt w1 (esa_seller a) = ethAccountAt w (esa_seller a)) as ->.
  { unfold ethAccountAt, w1. cbn. rewrite lookup_insert_ne; [done|].
    by intros ?%accountKey_inj. }
  set (w2 := set e_storedData _ w1). rewrite Hv.
  assert (∀ (m : M EthWorld unit) w3,
    m w2 = (Ok tt, w3) →
    e_nfts (e_storedData w3) = <[esa_nftId a := soldEthNFT a v nft]> (e_nfts (e_storedData w)) →
    e_accounts (e_storedData w3) = e_accounts (e_storedData w2) →
    e_analytics (e_storedData w3) = e_analytics (e_storedData w) →
    e_sales w3 = e_sales w → e_counts (e_storedData w3) = e_counts (e_storedData w) →
    ∃ w', (_ ← m; ethAnalyticsDay (esa_timestamp a) (dayOfSale a)) w2 = (Ok tt, w') ∧
      settled_sale a nft v w w') as Hday.
  { intros m w3 Hm En Ea Ed Es Ec. rewrite (bind_ok _ _ _ _ _ Hm).
    unfold ethAnalyticsDay. erewrite bind_ok by reflexivity.
    eexists. split; [reflexivity|]. split; [exact En|exact Ea| |exact Es|exact Ec].
    unfold ethDayAt. by rewrite <- Ed. }
  eapply Hday; [do 2 erewrite bind_ok by reflexivity; reflexivity| |reflexivity..].
  cbn. rewrite alter_alter_eq. by rewrite (alter_as_insert _ _ nft).
Qed.

(** A sale of an indexed token that is not free is recorded under the next
    number of the network's counter, with its buyer and the columns of its token;
    the counter, the buyer, the seller, the token and the day each count one sale
    of that price, and the cut of the DAO. *)
Theorem ethTrackSale_records block a w nft buyer item v :
  esa_price a ≠ 0 → cnt_id (ethereumCount w) = countKey ETHEREUM →
  esa_buyer a ≠ esa_seller a →
  e_nfts (e_storedData w) !! esa_nftId a = Some nft → en_volume nft = Some v →
  (∀ w, (ethSaleBuyer block (esa_buyer a) nft w).1 = Ok buyer) →
  (∀ w', e_items (e_storedData w') = e_items (e_storedData w) →
     ethSaleItem nft w' = (Ok item, w')) →
  let count := ethCountedSale a (ethereumCount w) in
  let saleId := pretty (cnt_salesTotal (ethereumCount w) + 1) +:+ "-ETHEREUM" in
  ∃ w', ethTrackSale block a w = (Ok tt, w') ∧
    e_sales w' = <[saleId := ethSaleRecord a saleId buyer nft item]> (e_sales w) ∧
    e_counts (e_storedData w') = <[countKey ETHEREUM := count]> (e_counts (e_storedData w)) ∧
    e_nfts (e_storedData w') =
      <[esa_nftId a := soldEthNFT a v nft]> (e_nfts (e_storedData w)) ∧
    ethAccountAt w' (esa_buyer a) = boughtBy a (ethAccountAt w (esa_buyer a)) ∧
    ethAccountAt w' (esa_seller a) = soldBy a (ethAccountAt w (esa_seller a)) ∧
    e_analytics (e_storedData w') =
      <[an_id (ethDayAt w (esa_timestamp a)) := dayOfSale a (ethDayAt w (esa_timestamp a))]>
      (e_analytics (e_storedData w)).
Proof.
  intros Hp Hid Hne Hn Hv Hbuyer Hitem count saleId. unfold ethTrackSale.
  rewrite decide_False by done.
  pose proof (ethCountSale_run a w Hid) as Hcount. fold count in Hcount.
  set (w1 := set e_storedData _ w) in Hcount.
  assert (∀ (k : Count → M EthWorld unit),
    (c ← ethBuildCountFromSale (esa_price a) (esa_feesCollectorCut a);
     _ ← eth_set e_counts (cnt_id c) c; k c) w = k count w1) as ->.
  { intros k. revert Hcount. unfold mbind, M_bind.
    destruct (ethBuildCountFromSale _ _ w) as [[c|] w2]; [|done].
    cbn. intros E. apply pair_equal_spec in E as [[= Ec] Ew]. by rewrite Ew, Ec. }
  erewrite bind_ok by reflexivity.
  change (e_nfts (e_storedData w1)) with (e_nfts (e_storedData w)). rewrite Hn.
  change (pretty (cnt_salesTotal count) +:+ "-" +:+ network_str ETHEREUM) with saleId.
  assert (ethSaleOf block a saleId (Some nft) w1 =
    (Ok (ethSaleRecord a saleId buyer nft item), w1)) as Hsale.
  { unfold ethSaleOf.
    rewrite (bind_ok _ _ w1 buyer w1).
    - by rewrite (bind_ok _ _ _ _ _ (Hitem w1 eq_refl)).
    - pose proof (Hbuyer w1) as E1. pose proof (ethSaleBuyer_keeps id block (esa_buyer a) nft w1) as E2.
      destruct (ethSaleBuyer _ _ _ w1). simpl in *. by subst. }
  rewrite (bind_ok _ _ _ _ _ Hsale). erewrite bind_ok by reflexivity.
  set (w2 := set e_sales _ w1).
  destruct (ethSettle_run a nft v w2 Hn Hv Hne) as (w' & Hrun & [S1 S2 S3 S4 S5]).
  exists w'. split_and!; [exact Hrun|exact S4|exact S5|exact S1| | |exact S3].
  - unfold ethAccountAt at 1. rewrite S2, lookup_insert_ne; [|by intros ?%accountKey_inj].
    by rewrite lookup_insert_eq.
  - unfold ethAccountAt at 1. by rewrite S2, lookup_insert_eq.
Qed.
End sales.

(** ** The sale of a parcel *)

#[local] Existing Instances Samples.env EthSamples.rpc.

Example ethTrackSale_records_witness :
  ∃ w', ethTrackSale (EthSamples.block 9) EthSamples.landSale EthSamples.parcelsMinted
          = (Ok tt, w') ∧
    (esl_price <$> e_sales w' !! "1-ETHEREUM") = Some 1000000.
Proof.
  destruct (ethTrackSale_records (EthSamples.block 9) EthSamples.landSale
    EthSamples.parcelsMinted EthSamples.landNFT EthSamples.bob None 0)
    as (w' & Hrun & Hs & _).
  - done.
  - vm_compute. reflexivity.
  - done.
  - vm_compute. reflexivity.
  - vm_compute. reflexivity.
  - reflexivity.
  - intros w _.
    unfold ethSaleItem.
    replace (en_item EthSamples.landNFT) with (None : option ItemRef)
      by (vm_compute; reflexivity).
    by replace (en_itemBlockchainId EthSamples.landNFT) with (None : option Z)
      by (vm_compute; reflexivity).
  - exists w'. split; [exact Hrun|]. rewrite Hs. vm_compute. reflexivity.
Defined.
