(* ===== verification/EthTokenProofs.v ===== *)
(** * Ethereum tokens: transfers and names

    What a transfer does to a token of a registry and to the entity behind it,
    what is recorded of it, and who owns a name. *)

From S2P Require Import Prelude JsString Model Env State Common AnalyticsProofs EthModel EthCommon.
From S2P Require Import EthLand EthToken EthMarketplace EthStore EthProcessor.
From S2P Require Import Samples EthSamples EthSalesProofs.
Open Scope string_scope.
Open Scope list_scope.
Open Scope Z_scope.

(** ** Transfers of the registries *)

(** The owner of the entity behind a token: a parcel, an estate or a name. *)
Definition entityOwner (category id : string) (w : EthWorld) : option (option AccountRef) :=
  let d := e_storedData w in
  if decide (category = "parcel") then pc_owner <$> e_parcels d !! id
  else if decide (category = "estate") then es_owner <$> e_estates d !! id
  else if decide (category = "ens") then ens_owner <$> e_ens d !! id
  else None.

(** A token that was just transferred. *)
Record transferred (owner : AccountRef) (to : string) (timestamp : Z) (nft : EthNFT) : Prop := {
  tf_owner : en_owner nft = Some owner;
  tf_ownerAddress : en_ownerAddress nft = Some to;
  tf_transferredAt : en_transferredAt nft = Some timestamp;
  tf_sales : en_sales nft = Some 0;
  tf_volume : en_volume nft = Some 0;
  tf_soldAt : en_soldAt nft = None
}.

(** The token under [id] was transferred, and no other token changed. *)
Definition moved (id : string) (w0 : EthWorld) (owner : AccountRef) (to : string)
    (timestamp : Z) (w : EthWorld) : Prop :=
  (∃ nft, e_nfts (e_storedData w) !! id = Some nft ∧ transferred owner to timestamp nft) ∧
  ∀ i, i ≠ id → e_nfts (e_storedData w) !! i = e_nfts (e_storedData w0) !! i.

Section moved.
Context (id : string) (w0 : EthWorld) (owner : AccountRef) (to : string) (timestamp : Z).
#[local] Abbreviation moved := (moved id w0 owner to timestamp).

Lemma moved_keeps {A} (m : M EthWorld A) :
  keeps (λ w, e_nfts (e_storedData w)) m → maintains moved m (λ _, True).
Proof. intros Hm w Hw. split; [|done]. red. by rewrite (Hm w). Qed.

Lemma moved_alter f w :
  (∀ nft, transferred owner to timestamp nft → transferred owner to timestamp (f nft)) →
  moved w → moved (set e_storedData (set e_nfts (alter f id)) w).
Proof.
  intros Hf [(nft & Hn & Hm) Ho]. split.
  - exists (f nft). cbn. rewrite lookup_alter_eq, Hn. auto.
  - intros i Hi. cbn. rewrite lookup_alter_ne by done. auto.
Qed.

Lemma moved_mutate f :
  (∀ nft, transferred owner to timestamp nft → transferred owner to timestamp (f nft)) →
  maintains moved (eth_mutate e_nfts id f) (λ _, True).
Proof. intros Hf. apply maintains_modify; [|done]. intros w. by apply moved_alter. Qed.
End moved.

#[local] Hint Extern 1 (maintains (moved _ _ _ _ _) (eth_mutate e_nfts _ _) _) =>
  (apply moved_mutate; intros ? []; by split) : inv.
#[local] Hint Extern 3 (maintains (moved _ _ _ _ _) _ _) =>
  (apply moved_keeps; frames; fail) : inv.

Section transfer.
Context `{Env, Proximities}.

Lemma orderAfterTransfer_moved id w0 owner to t a o :
  maintains (moved id w0 owner to t) (orderAfterTransfer id a o) (λ _, True).
Proof. unfold orderAfterTransfer. inv_go. Qed.

Lemma orderAfterTransfer_returns id a o : returns (orderAfterTransfer id a o).
Proof.
  unfold orderAfterTransfer. destruct o as [o|]; [|apply returns_ret].
  apply returns_bind; [apply returns_gets|intros [order|]; [|apply returns_ret]].
  apply returns_bind; [apply returns_modify|intros _; apply returns_modify].
Qed.

(** The entity under [id] belongs to [owner] if it is there, and it is there
    after a mint. *)
Definition entityRight (category id : string) (mint : bool) (owner : AccountRef)
    (w : EthWorld) : Prop :=
  match entityOwner category id w with
  | Some o => o = Some owner
  | None => mint = false
  end.

Section entity.
Context (id : string) (w0 : EthWorld) (owner : AccountRef) (to : string) (timestamp : Z).
Context (mint : bool) (nft : EthNFT) (Howner : en_owner nft = Some owner).
#[local] Abbreviation moved := (moved id w0 owner to timestamp).
#[local] Abbreviation right c := (entityRight c id mint owner).

Lemma transferParcel_total coords :
  (mint = true → is_Some coords) →
  total moved (transferParcel id mint nft coords) (λ _ w, moved w ∧ right "parcel" w).
Proof.
  intros Hcoords w Hw. unfold transferParcel. erewrite bind_ok by reflexivity.
  destruct mint.
  - destruct (Hcoords eq_refl) as [c ->]. exists tt. eexists.
    split; [do 5 erewrite bind_ok by reflexivity; reflexivity|]. split.
    + apply (moved_alter _ _ _ _ _ _ w); [|done]. intros n []. by split.
    + unfold entityRight, entityOwner. cbn. by rewrite lookup_insert_eq.
  - exists tt. eexists. split; [reflexivity|]. split; [exact Hw|].
    unfold entityRight, entityOwner. cbn. rewrite lookup_alter_eq.
    by destruct (e_parcels _ !! id).
Qed.

Lemma transferEstate_total :
  is_Some (en_tokenId nft) →
  total moved (transferEstate id mint nft) (λ _ w, moved w ∧ right "estate" w).
Proof.
  intros [tokenId Htoken] w Hw. unfold transferEstate. destruct mint.
  - cbv zeta. assert (getEstateImage (buildEstateFromNFT nft) = Some
      ("https://api.decentraland.org/v1/estates/" +:+ pretty tokenId +:+ "/map.png")) as ->.
    { unfold getEstateImage. change (es_tokenId (buildEstateFromNFT nft)) with (en_tokenId nft).
      by rewrite Htoken. }
    exists tt. eexists. split; [do 2 erewrite bind_ok by reflexivity; reflexivity|]. split.
    + apply (moved_alter _ _ _ _ _ _ w); [|done]. intros n []. by split.
    + unfold entityRight, entityOwner. cbn. by rewrite lookup_insert_eq.
  - exists tt. eexists. split; [reflexivity|]. split; [exact Hw|].
    unfold entityRight, entityOwner. cbn. rewrite lookup_alter_eq.
    by destruct (e_estates _ !! id).
Qed.

Lemma transferENS_total :
  total moved (transferENS id mint nft) (λ _ w, moved w ∧ right "ens" w).
Proof.
  intros w Hw. unfold transferENS. destruct mint.
  - exists tt. eexists. split; [erewrite bind_ok by reflexivity; reflexivity|]. split.
    + apply (moved_alter _ _ _ _ _ _ w); [|done]. intros n []. by split.
    + unfold entityRight, entityOwner. cbn. by rewrite lookup_insert_eq.
  - exists tt. eexists. split; [reflexivity|]. split; [exact Hw|].
    unfold entityRight, entityOwner. cbn. rewrite lookup_alter_eq.
    by destruct (e_ens _ !! id).
Qed.
End entity.

(** The counting of a mint, or the order of a token that changes hands. *)
Lemma mintOrOrder_total id w0 owner to timestamp (mint : bool) category o nft :
  en_owner nft = Some owner →
  total (moved id w0 owner to timestamp)
    (if mint then
       nft ← assignNFT id (mintDefaults timestamp) nft;
       metric ← ethBuildCountFromNFT category;
       _ ← eth_set e_counts (cnt_id metric) metric;
       mret nft
     else
       _ ← orderAfterTransfer id o (en_activeOrder nft);
       mret nft)
    (λ n w, moved id w0 owner to timestamp w ∧
       (en_owner n = Some owner ∧ en_tokenId n = en_tokenId nft)).
Proof.
  intros Howner. unfold assignNFT, ethBuildCountFromNFT, ethBuildCount.
  apply total_maintains; destruct mint.
  - repeat (apply returns_bind; [|intros ?]); eauto with returns.
    case_match; eauto with returns.
  - apply returns_bind; [apply orderAfterTransfer_returns|intros _; apply returns_ret].
  - apply (maintains_bind _ _ _ (λ n, en_owner n = Some owner ∧ en_tokenId n = en_tokenId nft)).
    { apply (maintains_bind _ _ _ (λ _, True)); [eauto 3 with inv nocore|intros _ _].
      by apply maintains_ret. }
    intros n Hn. repeat (apply (maintains_bind _ _ _ (λ _, True));
      [eauto 3 with inv nocore|intros ? _]). by apply maintains_ret.
  - apply (maintains_bind _ _ _ (λ _, True)); [apply orderAfterTransfer_moved|intros _ _].
    by apply maintains_ret.
Qed.

(** A transfer of a token of one of the registries, minted or not, always
    succeeds (a minted parcel needs its coordinates decoded): the token goes to
    the account of the recipient and starts afresh, with no sale and no volume;
    no other token changes; and the parcel, the estate or the name behind it has
    the same owner. *)
Theorem ethHandleTransfer_moves block a e uris coords w timestamp :
  let category := getCategory a in
  let id := getNFTId a (pretty (te_tokenId e)) (Some category) in
  let owner := account_ref (ethAccountAt w (te_to e)) in
  category ∈ ["parcel"; "estate"; "ens"] →
  blk_timestamp block = timestamp * 1000 →
  (category = "parcel" → isMint (te_from e) = true → is_Some (coords !! te_tokenId e)) →
  ∃ w', ethHandleTransfer block a e uris coords w = (Ok tt, w') ∧
    (∃ nft, e_nfts (e_storedData w') !! id = Some nft ∧
       transferred owner (te_to e) timestamp nft) ∧
    (∀ i, i ≠ id → e_nfts (e_storedData w') !! i = e_nfts (e_storedData w) !! i) ∧
    entityRight category id (isMint (te_from e)) owner w'.
Proof.
  intros category id owner Hcat Ht Hcoords. unfold ethHandleTransfer. fold category id.
  set (mint := isMint (te_from e)).
  erewrite bind_ok by reflexivity. cbv zeta. set (nft := default _ _).
  erewrite bind_ok by reflexivity. set (w1 := set e_storedData _ w).
  rewrite (bind_ok _ _ _ _ _ (createOrLoadEthAccount_run (te_to e) w1)).
  change (ethAccountAt w1 (te_to e)) with (ethAccountAt w (te_to e)).
  set (acc := ethAccountAt w (te_to e)) in *. set (w2 := set e_storedData _ w1).
  rewrite (bind_ok _ _ _ _ _ (block_seconds_ok block w2 timestamp Ht)).
  set (nft1 := transferColumns a e acc timestamp uris nft).
  rewrite (bind_ok _ _ w2 nft1 (set e_storedData (set e_nfts (alter
    (transferColumns a e acc timestamp uris) id)) w2)) by reflexivity.
  set (w3 := set e_storedData _ w2).
  assert (moved id w owner (te_to e) timestamp w3) as Hw3.
  { split.
    - exists nft1. cbn. rewrite lookup_alter_eq, lookup_insert_eq. split; [done|]. by split.
    - intros i Hi. cbn. rewrite lookup_alter_ne, lookup_insert_ne by done. done. }
  match goal with |- ∃ w', ?m w3 = _ ∧ _ =>
    enough (total (moved id w owner (te_to e) timestamp) m (λ _ w',
      moved id w owner (te_to e) timestamp w' ∧ entityRight category id mint owner w')) as Hm
  end.
  { destruct (Hm w3 Hw3) as ([] & w' & Hrun & [Hn Ho] & He). by exists w'. }
  eapply total_bind; [by apply mintOrOrder_total|intros nft2]. simpl.
  apply (total_bind _ _ _ (λ _ w', moved id w owner (te_to e) timestamp w' ∧
    entityRight category id mint owner w')).
  - intros w4 (Hw4 & Howner & Htoken).
    assert (is_Some (en_tokenId nft2)) by (rewrite Htoken; by eexists).
    revert w4 Hw4. change (total (moved id w owner (te_to e) timestamp)
      (if decide (category = "parcel") then transferParcel id mint nft2 (coords !! te_tokenId e)
       else if decide (category = "estate") then transferEstate id mint nft2
       else if decide (category = "wearable") then transferWearable id mint nft2
       else if decide (category = "ens") then transferENS id mint nft2 else mret tt)
      (λ _ w', moved id w owner (te_to e) timestamp w' ∧
         entityRight category id mint owner w')).
    set_unfold in Hcat. destruct Hcat as [Hc|[Hc|[Hc|[]]]]; rewrite Hc.
    + apply transferParcel_total; auto.
    + by apply transferEstate_total.
    + by apply transferENS_total.
  - intros _. intros w4 [Hw4 He].
    rewrite (bind_ok _ _ _ _ _ (createOrLoadEthAccount_run (te_to e) w4)).
    exists tt. eexists. split; [reflexivity|]. done.
Qed.
End transfer.

(** ** The record of a transfer *)

(** What is recorded of a transfer. *)
Definition transferRecord `{Env} (block : EthBlock) (log : EthLog) (e : TransferEventArgs)
    (timestamp : Z) : Transfer :=
  let nftId := getNFTId (el_address log) (pretty (te_tokenId e))
                 (Some (getCategory (el_address log))) in {|
    tr_id := nftId +:+ "-" +:+ pretty timestamp;
    tr_nftId := nftId;
    tr_network := ETHEREUM;
    tr_block := blk_height (ebk_header block);
    tr_timestamp := timestamp;
    tr_from := te_from e;
    tr_to := te_to e;
    tr_txHash := el_transactionHash log
  |}.

(** The identifier under which the token of a transfer is looked for. *)
Definition tokenCollected `{Env} (a : string) (tokenId : Z) (m : EthereumInMemoryState) : Prop :=
  let addresses := getEthAddresses in
  if decide (a = ea_LANDRegistry addresses) then tokenId ∈ em_landTokenIds m
  else if decide (a = ea_EstateRegistry addresses) then tokenId ∈ em_estateTokenIds m
  else if decide (a = ea_DCLRegistrar addresses) then tokenId ∈ em_ensTokenIds m
  else tokenId ∈ default [] (em_tokenIds m !! a).

(** A category prefixes the identifier of a token. *)
Lemma getNFTId_category_ne a t c : c ≠ "" → getNFTId a t (Some c) ≠ getNFTId a t None.
Proof.
  intros Hc. unfold getNFTId. rewrite decide_False by done. intros E.
  apply (f_equal String.length) in E. rewrite !string_length_app in E.
  cbn [String.length] in E. lia.
Qed.

Section records.
Context `{Env}.

Lemma collectTransferToken_total a tokenId w :
  ∃ u w', collectTransferToken a tokenId w = (Ok u, w') ∧
    tokenCollected a tokenId (e_inMemoryData w') ∧
    em_transfers (e_inMemoryData w') = em_transfers (e_inMemoryData w) ∧
    em_markteplaceEvents (e_inMemoryData w') = em_markteplaceEvents (e_inMemoryData w) ∧
    em_accountIds (e_inMemoryData w') = em_accountIds (e_inMemoryData w).
Proof.
  unfold collectTransferToken, tokenCollected.
  do 3 (case_decide; [eexists _, _; split; [reflexivity|]; cbn; set_solver|]).
  do 2 erewrite bind_ok by reflexivity.
  destruct (_ !! _) as [[|c uri]|];
    (eexists _, _; split; [reflexivity|]; cbn; unfold push_to;
     rewrite lookup_insert_eq; cbn; set_solver).
Qed.

(** A transfer log is queued, its token and its recipient are marked to be
    loaded, and it is recorded under its token and its second, in place of any
    earlier transfer of that token in that second.  The record of a transfer of
    a first wearable does not carry the identifier its token is filed under. *)
Theorem accumulateTransfer_records block log e timestamp w :
  let record := transferRecord block log e timestamp in
  ∃ w', accumulateTransfer block log e timestamp w = (Ok tt, w') ∧
    em_transfers (e_inMemoryData w') =
      <[tr_id record := record]> (em_transfers (e_inMemoryData w)) ∧
    (∃ q, em_markteplaceEvents (e_inMemoryData w') =
       em_markteplaceEvents (e_inMemoryData w) ++ [q] ∧
       eq_event q = el_event log ∧ eq_block q = block ∧ eq_log q = log) ∧
    te_to e ∈ em_accountIds (e_inMemoryData w') ∧
    tokenCollected (el_address log) (te_tokenId e) (e_inMemoryData w') ∧
    (el_address log ∈ ea_collections getEthAddresses →
       tr_nftId record ≠ getNFTId (el_address log) (pretty (te_tokenId e)) None).
Proof.
  intros record. unfold accumulateTransfer. erewrite bind_ok by reflexivity.
  erewrite bind_ok by reflexivity. set (w1 := set e_inMemoryData _ _).
  destruct (collectTransferToken_total (el_address log) (te_tokenId e) w1)
    as ([] & w2 & Hrun & Htoken & Htransfers & Hevents & Haccounts).
  rewrite (bind_ok _ _ _ _ _ Hrun). eexists. split; [reflexivity|]. cbn.
  rewrite Htransfers, Hevents, Haccounts. split; [done|]. split; [by eexists|].
  split; [cbn; set_solver|]. split; [done|].
  intros Ha. apply getNFTId_category_ne. unfold getCategory. by repeat case_decide.
Qed.
End records.

(** ** Names *)

(** The name a registration leaves. *)
Definition registeredName (id : string) (e : NameRegisteredEventArgs) (owner : AccountRef)
    (orderHash : option string) : ENS := {|
  ens_id := id;
  ens_tokenId := Some (nr_tokenId e);
  ens_owner := Some owner;
  ens_caller := Some (nr_caller e);
  ens_beneficiary := Some (nr_beneficiary e);
  ens_labelHash := Some (nr_labelHash e);
  ens_subdomain := Some (nr_subdomain e);
  ens_createdAt := Some (nr_createdDate e);
  ens_orderHash := orderHash
|}.

Section names.
Context `{Env}.

(** A registration always succeeds and replaces the name by one that
    belongs to its beneficiary, whoever called the registrar; the token of the
    name, created if needed, gets its text and keeps its owner and its order; and
    no other name or token changes. *)
Theorem handleNameRegistered_owner e orderHash w :
  let id := getNFTId (ea_DCLRegistrar getEthAddresses) (pretty (nr_tokenId e)) (Some "ens") in
  let owner := account_ref (ethAccountAt w (nr_beneficiary e)) in
  let old := default (newEthNFT id) (e_nfts (e_storedData w) !! id) in
  orderHash ≠ Some "" →
  ∃ w' nft, handleNameRegistered e orderHash w = (Ok tt, w') ∧
    e_ens (e_storedData w') =
      <[id := registeredName id e owner orderHash]> (e_ens (e_storedData w)) ∧
    e_nfts (e_storedData w') = <[id := nft]> (e_nfts (e_storedData w)) ∧
    en_name nft = Some (nr_subdomain e) ∧
    en_searchText nft = Some (toLowerCase (nr_subdomain e)) ∧
    en_owner nft = en_owner old ∧ en_activeOrder nft = en_activeOrder old.
Proof.
  intros id owner old Hhash. unfold handleNameRegistered. fold id.
  rewrite (bind_ok _ _ _ _ _ (createOrLoadEthAccount_run _ _)).
  do 3 erewrite bind_ok by reflexivity.
  rewrite (bind_ok _ _ _ _ _ (createOrLoadEthAccount_run _ _)).
  eexists _, _. split; [reflexivity|]. cbn. split_and!; try reflexivity.
  f_equal. unfold registeredName. by destruct orderHash as [[]|].
Qed.
End names.

(** ** Concrete transfers *)

#[local] Existing Instances Samples.env EthSamples.rpc EthSamples.ethRpc EthSamples.parcels.

Example ethHandleTransfer_moves_witness :
  ∃ w', ethHandleTransfer (EthSamples.block 9) EthSamples.land
      (EthSamples.transfer EthSamples.alice EthSamples.bob (EthSamples.landId 10 20)) ∅
      EthSamples.coordinates EthSamples.parcelsMinted = (Ok tt, w') ∧
    entityRight "parcel" (parcelIdOf (EthSamples.landId 10 20)) false
      (mkAccountRef "0x0b-ETHEREUM" "0x0b") w'.
Proof.
  destruct (ethHandleTransfer_moves (EthSamples.block 9) EthSamples.land
    (EthSamples.transfer EthSamples.alice EthSamples.bob (EthSamples.landId 10 20)) ∅
    EthSamples.coordinates EthSamples.parcelsMinted 1700000009) as (w' & Hrun & _ & _ & He).
  - decided.
  - reflexivity.
  - discriminate.
  - exists w'. split; [exact Hrun|exact He].
Defined.

Example handleNameRegistered_owner_witness :
  ∃ w' nft, handleNameRegistered EthSamples.registersName None EthSamples.empty = (Ok tt, w') ∧
    e_nfts (e_storedData w') = <[EthSamples.nameId := nft]> ∅ ∧ en_name nft = Some "alice".
Proof.
  destruct (handleNameRegistered_owner EthSamples.registersName None EthSamples.empty
    ltac:(discriminate)) as (w' & nft & Hrun & _ & Hn & Hname & _).
  exists w', nft. split; [exact Hrun|]. split; [exact Hn|exact Hname].
Defined.

(** A name that is registered and then transferred in one batch belongs to its
    first owner, while its token belongs to the second: registrations are
    handled after all the transfers. *)
Example registered_then_transferred :
  let w := (dispatchEvents (ethAccumulate [EthSamples.nameBlock] EthSamples.empty).2).2 in
  (ens_owner <$> e_ens (e_storedData w) !! EthSamples.nameId)
    = Some (Some (mkAccountRef "0x0a-ETHEREUM" "0x0a")) ∧
  (en_owner <$> e_nfts (e_storedData w) !! EthSamples.nameId)
    = Some (Some (mkAccountRef "0x0b-ETHEREUM" "0x0b")).
Proof. vm_compute. split; reflexivity. Qed.
