(* ===== verification/EthWearableProofs.v ===== *)
(** * The first wearables: searches and identifiers

    The two searches of [eth/modules/wearable.ts] against one table of the
    wearables by identifier, and what is read out of a token URI.

    What is issued and what is left of an item make up its maximum supply, over all the
    events of a batch; and what the cache of owner cuts holds. *)

From S2P Require Import Prelude JsString Model Env State Common Samples SupplyProofs.
From S2P Require Import EthWearables EthModel EthCommon EthLand EthToken EthMarketplace.
From S2P Require Import EthStore EthProcessor EthSamples.
Open Scope string_scope.
Open Scope list_scope.
Open Scope Z_scope.

(** ** Tables *)

#[export] Instance Representation_eq_dec : EqDecision Representation.
Proof. solve_decision. Defined.

(** The representations [getWearableV1Representation] knows, by identifier. *)
Definition representations : gmap string Representation :=
  list_to_map ((λ r, (re_id r, r)) <$> concat representationCollections).

(** Those [buildWearableFromNFT] knows, with the name of their collection. *)
Definition namedRepresentations : gmap string (string * Representation) :=
  list_to_map (flat_map (λ '(name, collection), (λ r, (re_id r, (name, r))) <$> collection)
    namedCollections).

(** ** The searches are lookups *)

(** What [findWearable] makes of a representation that is there, or not. *)
Definition foundWearable (r : option Representation) : EthWearable :=
  match r with Some r => wearableOf r | None => newEthWearable "" end.

Lemma findWearable_lookup id collection :
  findWearable id collection =
  foundWearable (list_to_map (M := gmap string Representation)
    ((λ r, (re_id r, r)) <$> collection) !! id).
Proof.
  induction collection as [|r l IH]; [done|]. cbn.
  case_decide as Hid.
  - subst id. by rewrite lookup_insert_eq.
  - rewrite lookup_insert_ne by done. exact IH.
Qed.

Lemma list_to_map_rep_id id (l : list Representation) r :
  list_to_map (M := gmap string Representation) ((λ r, (re_id r, r)) <$> l) !! id = Some r →
  re_id r = id.
Proof.
  intros Hr%elem_of_list_to_map_2. apply list_elem_of_fmap in Hr as (r' & [= -> ->] & _). done.
Qed.

Lemma searchRepresentations_lookup id collections :
  id ≠ "" →
  searchRepresentations id collections =
  wearableOf <$> list_to_map (M := gmap string Representation)
    ((λ r, (re_id r, r)) <$> concat collections) !! id.
Proof.
  intros Hid. induction collections as [|c l IH]; [done|]. cbn.
  rewrite fmap_app, list_to_map_app, findWearable_lookup.
  destruct (list_to_map ((λ r, (re_id r, r)) <$> c) !! id) as [r|] eqn:E.
  - rewrite (lookup_union_Some_l _ _ _ _ E). simpl.
    by rewrite decide_True by (by apply (list_to_map_rep_id _ c)).
  - rewrite lookup_union_r by done. simpl. by rewrite decide_False.
Qed.

(** The wearable of a token, when its representation is known. *)
Definition namedWearable (nft : EthNFT) (r : option (string * Representation)) : EthWearable :=
  match r with
  | Some (name, r) =>
      wearableOf r <| ew_id := en_id nft |> <| ew_collection := Some name |>
                   <| ew_owner := en_owner nft |>
  | None => newEthWearable ""
  end.

Lemma named_lookup id name (c : list Representation) :
  list_to_map (M := gmap string (string * Representation))
    ((λ r, (re_id r, (name, r))) <$> c) !! id =
  pair name <$> list_to_map (M := gmap string Representation)
    ((λ r, (re_id r, r)) <$> c) !! id.
Proof.
  induction c as [|r l IH]; [done|]. cbn. destruct (decide (re_id r = id)) as [->|Hne].
  - by rewrite !lookup_insert_eq.
  - rewrite !lookup_insert_ne by done. exact IH.
Qed.

Lemma searchCollections_lookup id nft collections :
  id ≠ "" →
  searchCollections id nft collections =
  namedWearable nft (list_to_map (M := gmap string (string * Representation))
    (flat_map (λ '(name, c), (λ r, (re_id r, (name, r))) <$> c) collections) !! id).
Proof.
  intros Hid. induction collections as [|[name c] l IH]; [done|]. cbn.
  rewrite list_to_map_app, findWearable_lookup.
  destruct (list_to_map ((λ r, (re_id r, r)) <$> c) !! id) as [r|] eqn:E.
  - rewrite (lookup_union_Some_l _ _ _ (name, r)) by by rewrite named_lookup, E.
    simpl. by rewrite decide_True by (by apply (list_to_map_rep_id _ c)).
  - rewrite lookup_union_r by by rewrite named_lookup, E.
    simpl. by rewrite decide_False.
Qed.

(** Both searches through the collections of the first wearables are
    lookups by identifier; a wearable a token can be built from is the one its
    item was built from; and a token whose URI names no wearable gets none. *)
Theorem wearable_searches_agree nft uri :
  en_tokenURI nft = Some uri →
  let id := getWearableIdFromTokenURI uri in
  getWearableV1Representation id =
    (if decide (id = "") then None else wearableOf <$> representations !! id) ∧
  (uri ≠ "" → buildWearableFromNFT nft =
    namedWearable nft (if decide (id = "") then None else namedRepresentations !! id)) ∧
  (∀ name r, namedRepresentations !! id = Some (name, r) → representations !! id = Some r).
Proof.
  intros Huri id. split_and!.
  - unfold getWearableV1Representation. case_decide as Hid; [done|].
    by apply searchRepresentations_lookup.
  - intros Hne. unfold buildWearableFromNFT. rewrite Huri. destruct uri as [|c uri]; [done|].
    fold id. case_decide as Hid; [done|]. by apply searchCollections_lookup.
  - intros name r Hr.
    assert (map_Forall (λ id nr, representations !! id = Some nr.2) namedRepresentations) as Hall
      by decided.
    apply (Hall id (name, r) Hr).
Qed.

(** ** Token URIs *)

(** The number of parts a token URI has: the two addresses the metadata of the
    first wearables were served from. *)
Definition uriLength (n : nat) : Prop := n = 3%nat ∨ n = 9%nat.

(** From a token URI that ends with the identifier of a wearable and the
    number of the token, both are read back. *)
Theorem tokenURI_roundtrip parts id n :
  uriLength (length parts) → Forall (lacks slash) parts → lacks slash id → 0 ≤ n →
  let uri := join "/" (parts ++ [id; pretty n]) in
  getWearableIdFromTokenURI uri = id ∧ getIssuedIdFromTokenURI uri = Some n.
Proof.
  intros Hlen Hparts Hid Hn uri.
  assert (split slash uri = parts ++ [id; pretty n]) as Hsplit.
  { apply split_join; [by destruct parts|]. apply Forall_app. split; [done|].
    repeat constructor; [done|]. apply lacks_pretty_Z; [done|]. vm_compute. intuition congruence. }
  unfold getWearableIdFromTokenURI, getIssuedIdFromTokenURI. rewrite Hsplit.
  rewrite !length_app. cbn [length].
  assert (length parts + 2 = 11 ∨ length parts + 2 = 5)%nat as Hl by (destruct Hlen; lia).
  rewrite !decide_True by done.
  replace (length parts + 2 - 2)%nat with (length parts + 0)%nat by lia.
  replace (length parts + 2 - 1)%nat with (length parts + 1)%nat by lia.
  rewrite !lookup_app_r by lia.
  replace (length parts + 0 - length parts)%nat with 0%nat by lia.
  replace (length parts + 1 - length parts)%nat with 1%nat by lia.
  split; [done|]. simpl. by apply parseInt_pretty.
Qed.

(** ** The fox mask *)

Definition foxParts : list string := [
  "https:"; ""; "wearable-api.decentraland.org"; "v2"; "standards"; "erc721-metadata";
  "collections"; "halloween_2019"; "wearables"].

Example tokenURI_roundtrip_witness :
  getWearableIdFromTokenURI EthSamples.foxURI = "asian_fox" ∧
  getIssuedIdFromTokenURI EthSamples.foxURI = Some 1.
Proof.
  apply (tokenURI_roundtrip foxParts "asian_fox" 1).
  - by right.
  - repeat constructor; vm_compute; intuition congruence.
  - vm_compute. intuition congruence.
  - vm_compute. discriminate.
Defined.

#[local] Existing Instance Samples.env.

Example wearable_searches_agree_witness :
  let nft := newEthNFT "t" <| en_tokenURI := Some EthSamples.foxURI |> in
  ew_name (buildWearableFromNFT nft) = Some "Asian Fox Mask" ∧
  (ew_name <$> getWearableV1Representation "asian_fox") = Some (Some "Asian Fox Mask").
Proof.
  intros nft. destruct (wearable_searches_agree nft EthSamples.foxURI eq_refl) as (H1 & H2 & _).
  change (getWearableIdFromTokenURI EthSamples.foxURI) with "asian_fox" in *.
  rewrite H1, H2 by (vm_compute; discriminate). vm_compute. split; reflexivity.
Defined.

(** ** Supply *)

Definition ethSupplied (w : EthWorld) : Prop :=
  map_Forall (λ _ i, supplied i) (e_items (e_storedData w)).

Lemma ethSupplied_get k :
  maintains ethSupplied (eth_get e_items k) (λ o, ∀ i, o = Some i → supplied i).
Proof. apply maintains_gets. intros w Hw i. apply Hw. Qed.

Lemma ethSupplied_set k v : supplied v → maintains ethSupplied (eth_set e_items k v) (λ _, True).
Proof.
  intros Hv. apply maintains_modify; [|done]. intros w Hw. by apply map_Forall_insert_2.
Qed.

Lemma ethSupplied_keeps {A} (m : M EthWorld A) :
  keeps (λ w, e_items (e_storedData w)) m → maintains ethSupplied m (λ _, True).
Proof. intros Hm w Hw. split; [|done]. red. by rewrite (Hm w). Qed.

#[local] Hint Extern 1 (maintains ethSupplied (eth_get e_items _) _) =>
  (apply ethSupplied_get) : inv.
#[local] Hint Extern 1 (maintains ethSupplied (eth_set e_items _ _) _) =>
  (apply ethSupplied_set; assumption) : inv.
#[local] Hint Extern 2 (maintains ethSupplied _ _) =>
  (apply ethSupplied_keeps; frames; fail) : inv.

Section supply.
Context `{Env, Rpc, EthRpc, Proximities}.

Lemma ethSetItemSearchFields_supplied item :
  supplied item → maintains ethSupplied (ethSetItemSearchFields item) supplied.
Proof.
  intros Hi. unfold ethSetItemSearchFields. destruct (it_metadata item); [|by apply maintains_ret].
  eapply maintains_bind; [by apply ethSupplied_keeps; frames|intros o _].
  destruct (o ≫= emd_wearable); [|by apply maintains_ret].
  eapply maintains_bind; [by apply ethSupplied_keeps; frames|intros w _].
  apply maintains_ret. by destruct w.
Qed.

Lemma newItemV1_supplied c a owner e uri r t : supplied (newItemV1 c a owner e uri r t).
Proof. red. cbn. lia. Qed.

#[local] Hint Extern 1 (maintains ethSupplied (ethSetItemSearchFields _) _) =>
  (apply ethSetItemSearchFields_supplied, newItemV1_supplied) : inv.

Lemma handleAddItemV1_supplied a e block :
  maintains ethSupplied (handleAddItemV1 a e block) (λ _, True).
Proof.
  unfold handleAddItemV1, buildWearableV1Metadata, ethBuildCountFromItem, ethBuildCount. inv_go.
Qed.

Lemma mintWearableV1_supplied id a e uri item owner t nft :
  supplied item →
  maintains ethSupplied (mintWearableV1 id a e uri item owner t nft) (λ _, True).
Proof.
  intros Hi. unfold mintWearableV1, assignNFT, ethSetNFTSearchFields, ethBuildCount.
  assert (supplied (item <| it_available ::= Z.pred |> <| it_totalSupply ::= Z.succ |>))
    by (unfold supplied in *; cbn; lia).
  inv_go.
Qed.

Lemma handleTransferWearableV1_supplied block a e uris :
  maintains ethSupplied (handleTransferWearableV1 block a e uris) (λ _, True).
Proof.
  unfold handleTransferWearableV1. unfold assignNFT, orderAfterTransfer.
  inv_go; by apply mintWearableV1_supplied; auto.
Qed.

#[local] Hint Resolve handleAddItemV1_supplied handleTransferWearableV1_supplied : inv.

(** A handler that writes no item. *)
Ltac keeps_items := apply ethSupplied_keeps; unfold ethTrackSale, ethBuildCountFromSale,
  ethSaleOf, ethSaleBuyer, ethSaleItem, ethSettle, updateEthAccount, createOrLoadEthAccount;
  unfold_eth_handlers; unfold createOrLoadEthAccount, ethTrackSale, ethBuildCountFromSale,
  ethBuildCount, ethSaleOf, ethSaleBuyer, ethSaleItem, ethSettle, updateEthAccount,
  ethAnalyticsDay; frames.

Lemma dispatchMarketplaceEvent_supplied q :
  maintains ethSupplied (dispatchMarketplaceEvent q) (λ _, True).
Proof.
  unfold dispatchMarketplaceEvent. apply maintains_bind with (λ _, True); [inv_go|intros k _].
  destruct (eq_event q); try case_decide; solve [eauto 2 with inv nocore | keeps_items].
Qed.

(** Whatever the events of a batch, and whether or not they succeed, what
    is left of every item and what was issued make up its maximum supply, if they
    did before. *)
Theorem dispatchEvents_supplied w :
  ethSupplied w → ethSupplied (dispatchEvents w).2.
Proof.
  intros Hw. enough (maintains ethSupplied dispatchEvents (λ _, True)) as Hm by apply (Hm w Hw).
  unfold dispatchEvents, dispatchENSEvent.
  apply maintains_bind with (λ _, True); [inv_go|intros m _].
  apply maintains_bind with (λ _, True); [|intros _ _].
  { apply maintains_for_each; [done|intros q _]. apply dispatchMarketplaceEvent_supplied. }
  keeps_items.
Qed.

(** ** Owner cuts *)

(** The cached owner cuts. *)
Definition ownerCuts (w : EthWorld) : option Z * option Z :=
  (ek_marketplaceOwnerCutPerMillion (e_module w), ek_bidOwnerCutPerMillion (e_module w)).

(** On a known chain, the cuts are read once: a cut that is known stays,
    one whose contract does not exist yet stays unknown, and one that is read is
    that of the marketplace, for the bid contract as well. *)
Theorem getOwnerCutsValues_caches block cut created w :
  startBlocks = Some created →
  rpc_ownerCutPerMillion (blk_height block) (ea_Marketplace getEthAddresses) = Ok cut →
  let read (known : option Z) (start : Z) :=
    match known with
    | Some c => Some c
    | None => if decide (start ≤ blk_height block) then Some cut else None
    end in
  ∃ w', getOwnerCutsValues block w = (Ok tt, w') ∧
    ownerCuts w' = (read (ownerCuts w).1 created.1, read (ownerCuts w).2 created.2) ∧
    e_storedData w' = e_storedData w ∧ e_inMemoryData w' = e_inMemoryData w.
Proof.
  intros Hcreated Hcut read. unfold getOwnerCutsValues, getContractOwnerCutPerMillion, ownerCuts.
  rewrite Hcreated, Hcut. unfold mbind, M_bind, gets, require, lift, modify, when, mret, M_ret.
  destruct w as [d m sl [co ur mk bd]]. unfold read. cbn.
  destruct mk, bd; cbn; repeat (case_bool_decide; cbn); repeat case_decide; try done;
    eexists; split_and!; reflexivity.
Qed.
End supply.

(** ** A fox, and the cuts at a block *)

#[local] Existing Instances Samples.env EthSamples.rpc EthSamples.ethRpc EthSamples.parcels.

Example dispatchEvents_supplied_witness :
  let w := (dispatchEvents EthSamples.foxQueued).2 in
  ethSupplied w ∧
  ((λ i, (it_available i, it_totalSupply i))
     <$> e_items (e_storedData w) !! getItemId EthSamples.halloween "asian_fox") = Some (99, 1).
Proof.
  split; [|vm_compute; reflexivity]. apply dispatchEvents_supplied.
  assert (map_Forall (λ _ i, it_available i + it_totalSupply i = it_maxSupply i)
    (e_items (e_storedData EthSamples.foxQueued))) as Hs by decided. exact Hs.
Defined.

Example getOwnerCutsValues_caches_witness :
  ∃ w', getOwnerCutsValues (EthSamples.block 1) EthSamples.empty = (Ok tt, w') ∧
    ownerCuts w' = (Some 25000, Some 25000).
Proof.
  destruct (getOwnerCutsValues_caches (EthSamples.block 1) 25000 (6496012, 7270906)
    EthSamples.empty ltac:(decided) ltac:(reflexivity)) as (w' & Hrun & Hcuts & _).
  exists w'. split; [exact Hrun|exact Hcuts].
Defined.

(** The bid contract answers another cut, that is never read. *)
Example bid_cut_of_the_marketplace :
  rpc_ownerCutPerMillion 18000001 (ea_ERC721Bid eth_mainnet) = Ok 90000 ∧
  (ownerCuts (getOwnerCutsValues (EthSamples.block 1) EthSamples.empty).2).2 = Some 25000.
Proof. vm_compute. split; reflexivity. Qed.
