(* ===== verification/EthOrderProofs.v ===== *)
(** * The order book of the Ethereum processor

    The handlers of Ethereum are moves of the book of [OrderBook], as those of
    Polygon are: they keep at most one live order per token, the one the token
    points at, and the token's search columns show it. *)

From S2P Require Import Prelude JsString Model Env State Common OrderBook EthModel EthCommon.
From S2P Require Import EthLand EthToken EthMarketplace EthStore EthProcessor Samples EthSamples.
Open Scope string_scope.
Open Scope list_scope.
Open Scope Z_scope.

(** ** The book of a state *)

#[export] Instance eth_order_book `{Env} : BookOrder EthOrder.
Proof.
  refine {| orderStatus := eo_status;
            orderToken o := marketNFTId (eo_nftAddress o) (eo_tokenId o);
            orderPrice := eo_price;
            withStatus s o := o <| eo_status := s |> |}; done.
Defined.

Definition ethListing (nft : EthNFT) : Listing :=
  mkListing (en_activeOrder nft) (en_searchOrderStatus nft) (en_searchOrderPrice nft).

Definition ethBook (w : EthWorld) : Book EthOrder :=
  mkBook (e_orders (e_storedData w)) (ethListing <$> e_nfts (e_storedData w)).

(** Since [w0], only tokens without an order appeared. *)
Definition grown (w0 w : EthWorld) : Prop := grows (ethBook w0) (ethBook w).

Lemma ethBook_shows w id :
  shows (ethBook w) id = default unlisted (ethListing <$> e_nfts (e_storedData w) !! id).
Proof. unfold shows, ethBook. cbn. by rewrite lookup_fmap. Qed.

Lemma ethBook_token w token nft :
  e_nfts (e_storedData w) !! token = Some nft → bk_tokens (ethBook w) !! token = Some (ethListing nft).
Proof. intros Hn. unfold ethBook. cbn. by rewrite lookup_fmap, Hn. Qed.

Lemma ethBook_token_inv w token l :
  bk_tokens (ethBook w) !! token = Some l → is_Some (e_nfts (e_storedData w) !! token).
Proof. unfold ethBook. cbn. rewrite lookup_fmap. by destruct (e_nfts (e_storedData w) !! token). Qed.

Lemma ethBook_mutate k f g w :
  (∀ n, ethListing (f n) = g (ethListing n)) →
  ethBook (eth_mutate e_nfts k f w).2 = mkBook (bk_orders (ethBook w)) (alter g k (bk_tokens (ethBook w))).
Proof.
  intros Hf. unfold ethBook. cbn. f_equal. apply map_eq. intros i. rewrite lookup_fmap.
  destruct (decide (k = i)) as [<-|Hne].
  - rewrite !lookup_alter_eq, lookup_fmap. destruct (e_nfts _ !! k); [|done]. simpl. by rewrite Hf.
  - by rewrite !lookup_alter_ne, lookup_fmap.
Qed.

(** Assigning to columns a listing does not read. *)
Lemma ethBook_mutate_keeps k f :
  (∀ n, ethListing (f n) = ethListing n) → keeps ethBook (eth_mutate e_nfts k f).
Proof.
  intros Hf w. rewrite (ethBook_mutate k f id w Hf). unfold ethBook. cbn. f_equal. by apply alter_id.
Qed.
#[local] Hint Extern 1 (steps _ (eth_mutate e_nfts _ _)) =>
  (apply ethBook_mutate_keeps; intros ?; reflexivity) : frame.

(** ** What leaves the book alone *)

Lemma grown_keeps {A} w0 (m : M EthWorld A) : keeps ethBook m → maintains (grown w0) m (λ _, True).
Proof. intros Hm w Hw. split; [|done]. unfold grown. by rewrite (Hm w). Qed.

Lemma grown_get w0 id :
  maintains (grown w0) (eth_get e_nfts id)
    (λ o, default unlisted (ethListing <$> o) = shows (ethBook w0) id).
Proof.
  apply maintains_gets. intros w Hw. rewrite <- (gr_shows _ _ Hw). by rewrite ethBook_shows.
Qed.

Lemma grown_insert w0 w id nft :
  ethListing nft = shows (ethBook w0) id → grown w0 w →
  grown w0 (set e_storedData (set e_nfts <[id := nft]>) w).
Proof.
  intros Hn Hw. unfold grown. transitivity (ethBook w); [exact Hw|]. rewrite <- (gr_shows _ _ Hw) in Hn.
  split; [done| |].
  - intros t. rewrite !ethBook_shows. cbn. destruct (decide (id = t)) as [<-|Hne].
    + rewrite lookup_insert_eq. simpl. by rewrite Hn, ethBook_shows.
    + by rewrite lookup_insert_ne.
  - intros t. unfold ethBook. cbn. rewrite !lookup_fmap, !fmap_is_Some.
    destruct (decide (id = t)) as [<-|Hne].
    + rewrite lookup_insert_eq. by eexists.
    + by rewrite lookup_insert_ne.
Qed.

Lemma grown_set w0 id nft :
  ethListing nft = shows (ethBook w0) id → maintains (grown w0) (eth_set e_nfts id nft) (λ _, True).
Proof. intros Hn. apply maintains_modify; [|done]. intros w. by apply grown_insert. Qed.

Lemma grown_assign w0 id f nft :
  (∀ n, ethListing (f n) = ethListing n) → ethListing nft = shows (ethBook w0) id →
  maintains (grown w0) (assignNFT id f nft) (λ n, ethListing n = shows (ethBook w0) id).
Proof.
  intros Hf Hn. unfold assignNFT.
  apply (maintains_bind _ _ _ (λ _, True)); [by apply grown_keeps, ethBook_mutate_keeps|intros _ _].
  apply maintains_ret. by rewrite Hf.
Qed.

(** Writing back the object of a token under its identifier. *)
Lemma grown_overwrite w0 id nft :
  ethListing nft = shows (ethBook w0) id →
  maintains (grown w0) (eth_mutate e_nfts id (λ _, nft)) (λ _, True).
Proof.
  intros Hn. apply maintains_modify; [|done]. intros w Hw.
  destruct (e_nfts (e_storedData w) !! id) as [n|] eqn:E.
  - pose proof (grown_insert w0 w id nft Hn Hw) as Hg. unfold grown in *.
    replace (ethBook (set e_storedData (set e_nfts (alter (λ _, nft) id)) w))
      with (ethBook (set e_storedData (set e_nfts <[id := nft]>) w)); [done|].
    unfold ethBook. cbn. do 2 f_equal. apply map_eq. intros i.
    destruct (decide (id = i)) as [<-|Hne].
    + by rewrite lookup_insert_eq, lookup_alter_eq, E.
    + by rewrite lookup_insert_ne, lookup_alter_ne.
  - unfold grown in *. replace (ethBook (set e_storedData (set e_nfts (alter (λ _, nft) id)) w))
      with (ethBook w); [done|].
    unfold ethBook. cbn. do 2 f_equal. apply map_eq. intros i.
    destruct (decide (id = i)) as [<-|Hne].
    + by rewrite lookup_alter_eq, E.
    + by rewrite lookup_alter_ne.
Qed.

(** The listing of an object, from what is known of the one it was made of. *)
Ltac same_listing :=
  cbv beta in *;
  first [ assumption
        | match goal with
          | H : default unlisted (ethListing <$> ?o) = ?l |- _ = ?l => destruct o; exact H
          | H : ethListing _ = ?l |- _ = ?l => exact H
          end ].

#[local] Hint Extern 1 (maintains (grown _) (eth_get e_nfts _) _) => (apply grown_get) : inv.
#[local] Hint Extern 1 (maintains (grown _) (eth_set e_nfts _ _) _) =>
  (apply grown_set; same_listing) : inv.
#[local] Hint Extern 1 (maintains (grown _) (assignNFT _ _ _) _) =>
  (apply grown_assign; [intros ?; reflexivity|same_listing]) : inv.
#[local] Hint Extern 1 (maintains (grown _) (eth_mutate e_nfts _ (λ _, _)) _) =>
  (apply grown_overwrite; same_listing) : inv.
#[local] Hint Extern 3 (maintains (grown _) _ _) => (apply grown_keeps; frames; fail) : inv.

(** ** Transfers *)

Lemma snd_bind {A B} (Q : EthWorld → Prop) (m : M EthWorld A) (k : A → M EthWorld B) w :
  Q (m w).2 → (∀ a w', m w = (Ok a, w') → Q (k a w').2) → Q ((m ≫= k) w).2.
Proof.
  intros Hm Hk. unfold mbind, M_bind. destruct (m w) as [[a|e] w'] eqn:E; [|done]. by apply Hk.
Qed.

Section handlers.
Context `{Env, Rpc, EthRpc, Proximities}.

Definition bookRight (w : EthWorld) : Prop := consistent (ethBook w).

Lemma grown_right w w' : grown w w' → bookRight w → bookRight w'.
Proof. apply consistent_grows. Qed.

(** A computation that leaves the book alone, wherever it starts. *)
Lemma bookRight_grown {A} (m : M EthWorld A) :
  (∀ w0, maintains (grown w0) m (λ _, True)) → maintains bookRight m (λ _, True).
Proof.
  intros Hm w Hw. split; [|done]. apply (grown_right w); [|done].
  apply (Hm w w). unfold grown. reflexivity.
Qed.

(** The order a token shows is suspended, or resumed. *)
Lemma orderAfterTransfer_right id owner activeOrder w :
  activeOrder = ls_order (shows (ethBook w) id) → bookRight w →
  bookRight (orderAfterTransfer id owner activeOrder w).2.
Proof.
  intros Ha Hw. unfold orderAfterTransfer. destruct activeOrder as [orderId|]; [|done].
  destruct (shows_order _ _ _ (eq_sym Ha)) as (l & El & Fl).
  erewrite bind_ok by reflexivity.
  destruct (e_orders (e_storedData w) !! orderId) as [order|] eqn:Ho; [|done].
  set (status := if decide (eo_owner order = owner) then status_open else status_transferred).
  assert (bookRight (eth_mutate e_nfts id (λ nft, nft <| en_searchOrderStatus := Some status |>)
    (eth_mutate e_orders orderId (λ o, o <| eo_status := status |>) w).2).2) as Hr; [|exact Hr].
  unfold bookRight. rewrite (ethBook_mutate id _ (λ l, mkListing (ls_order l) (Some status) (ls_price l)))
    by done.
  apply (consistent_status _ (ethBook w) Hw orderId id status l El Fl); [by exists order|].
  unfold status. case_decide; auto.
Qed.

Lemma createOrLoadEthAccount_book a : keeps ethBook (createOrLoadEthAccount a).
Proof. by intros w. Qed.
#[local] Hint Resolve createOrLoadEthAccount_book : frame.

Lemma transferEntity_book id mint nft coords :
  keeps ethBook (transferParcel id mint nft coords) ∧ keeps ethBook (transferEstate id mint nft) ∧
  keeps ethBook (transferWearable id mint nft) ∧ keeps ethBook (transferENS id mint nft).
Proof.
  unfold transferParcel, transferEstate, transferWearable, transferENS. split_and!; frames.
Qed.

(** What follows the order of the token in a transfer. *)
Lemma afterOrder_book category id mint nft coords a :
  keeps ethBook (_ ← (if decide (category = "parcel") then transferParcel id mint nft coords
    else if decide (category = "estate") then transferEstate id mint nft
    else if decide (category = "wearable") then transferWearable id mint nft
    else if decide (category = "ens") then transferENS id mint nft
    else mret tt);
   _ ← createOrLoadEthAccount a; mret tt).
Proof.
  destruct (transferEntity_book id mint nft coords) as (? & ? & ? & ?). frames.
Qed.

(** From [w], one more part of a handler leaves the book alone; what it returns
    satisfies [φ]. *)
Ltac follow w φ :=
  apply (maintains_post (grown w) bookRight _ _ φ);
  [by eauto with inv|by intros ? ?; apply (grown_right w)|].

Lemma ethHandleTransfer_right block a e uris coords w :
  bookRight w → bookRight (ethHandleTransfer block a e uris coords w).2.
Proof.
  intros Hw. unfold ethHandleTransfer. set (id := getNFTId _ _ _).
  pose proof (reflexivity (R := grows) (ethBook w) : grown w w) as Hg. revert Hg.
  follow w (λ o : option EthNFT, default unlisted (ethListing <$> o) = shows (ethBook w) id).
  intros found w1 Hf. follow w (λ _ : unit, True).
  intros _ w2 _. follow w (λ _ : Account, True).
  intros acc w3 _. follow w (λ _ : Z, True).
  intros t w4 _. follow w (λ n, ethListing n = shows (ethBook w) id).
  intros nft w5 Hn Hw5. destruct (isMint (te_from e)).
  - assert (maintains (grown w) (nft ← assignNFT id (mintDefaults t) nft;
      metric ← ethBuildCountFromNFT (getCategory a); _ ← eth_set e_counts (cnt_id metric) metric;
      mret nft) (λ _, True)) as Hm.
    { unfold ethBuildCountFromNFT, ethBuildCount. inv_go. }
    revert Hw5. apply (maintains_post _ _ _ _ _ _ Hm); [by intros s Hs; apply (grown_right w)|].
    intros nft' w6 _ Hw6. apply (grown_right w); [|done].
    by apply (grown_keeps w _ (afterOrder_book _ _ _ _ _ _)).
  - assert (bookRight (orderAfterTransfer id (acc_address acc) (en_activeOrder nft) w5).2) as Hr.
    { apply orderAfterTransfer_right; [|by apply (grown_right w)].
      rewrite (gr_shows _ _ Hw5), <- Hn. done. }
    assert (bookRight ((_ ← orderAfterTransfer id (acc_address acc) (en_activeOrder nft); mret nft) w5).2)
      as Hr' by (apply snd_bind; [exact Hr|by intros u s E; rewrite E in Hr]).
    apply snd_bind; [exact Hr'|]. intros nft' w6 E. rewrite E in Hr'.
    by apply (bookRight_grown _ (λ w0, grown_keeps w0 _ (afterOrder_book _ _ _ _ _ _))).
Qed.

Lemma mintWearableV1_grown w0 id a e uri item owner t nft :
  ethListing nft = shows (ethBook w0) id →
  maintains (grown w0) (mintWearableV1 id a e uri item owner t nft)
    (λ n, ethListing n = shows (ethBook w0) id).
Proof.
  intros Hn. unfold mintWearableV1.
  eapply maintains_bind; [by eauto with inv|intros nft1 Hn1].
  eapply (maintains_bind _ _ _ (λ _, True)); [by eauto with inv|intros issuedId _].
  eapply maintains_bind; [by eauto with inv|intros nft2 Hn2].
  eapply (maintains_bind _ _ _ (λ _, True)); [by eauto with inv|intros _ _].
  eapply maintains_bind; [by eauto with inv|intros nft3 Hn3].
  eapply (maintains_bind _ _ _ (λ n, ethListing n = shows (ethBook w0) id)).
  { unfold ethSetNFTSearchFields. destruct (en_itemType nft3) as [[]|], (en_metadata nft3);
      try (by apply maintains_ret);
      (apply (maintains_bind _ _ _ (λ _, True)); [by eauto with inv|intros metadata _];
       destruct (metadata ≫= emd_wearable); by apply maintains_ret). }
  intros nft4 Hn4. unfold ethBuildCount.
  eapply (maintains_bind _ _ _ (λ _, True)); [by eauto with inv|intros _ _].
  eapply (maintains_bind _ _ _ (λ _, True)); [by inv_go|intros count _].
  do 3 (eapply (maintains_bind _ _ _ (λ _, True)); [by eauto with inv|intros _ _]).
  by apply maintains_ret.
Qed.

Lemma handleTransferWearableV1_right block a e uris w :
  bookRight w → bookRight (handleTransferWearableV1 block a e uris w).2.
Proof.
  intros Hw. unfold handleTransferWearableV1. set (id := getNFTId a (pretty (te_tokenId e)) None).
  pose proof (reflexivity (R := grows) (ethBook w) : grown w w) as Hg. revert Hg.
  follow w (λ _ : option Collection, True). intros collection w1 _ Hw1.
  destruct (uris !! _) as [[|c uri]|]; [by apply (grown_right w)| |by apply (grown_right w)].
  revert Hw1. follow w (λ _ : option Item, True). intros item w2 _ Hw2.
  destruct item as [item|]; [|by apply (grown_right w)].
  revert Hw2. follow w (λ o : option EthNFT, default unlisted (ethListing <$> o) = shows (ethBook w) id).
  intros found w3 Hf. follow w (λ _ : Account, True).
  intros acc w4 _. follow w (λ _ : Z, True).
  intros t w5 _. follow w (λ n, ethListing n = shows (ethBook w) id).
  intros nft w6 Hn Hw6. destruct (isMint (te_from e)); [|case_decide; [by apply (grown_right w)|]].
  - revert Hw6. apply maintains_post with (φ := λ n, ethListing n = shows (ethBook w) id);
      [by apply mintWearableV1_grown|by intros ? ?; apply (grown_right w)|].
    intros nft' w7 Hn'. follow w (λ _ : Account, True). intros _ w8 _ Hw8.
    apply (grown_right w); [|done]. by apply (grown_set w id nft' Hn').
  - assert (bookRight (orderAfterTransfer id (aref_address (account_ref acc)) (en_activeOrder nft) w6).2)
      as Hr.
    { apply orderAfterTransfer_right; [|by apply (grown_right w)].
      rewrite (gr_shows _ _ Hw6), <- Hn. done. }
    apply snd_bind; [exact Hr|]. by intros u w7 E; rewrite E in Hr.
Qed.

(** ** The marketplace *)

Lemma ethTrackSale_book block a : keeps ethBook (ethTrackSale block a).
Proof.
  unfold ethTrackSale, ethBuildCountFromSale, ethBuildCount, ethSaleOf, ethSaleBuyer, ethSaleItem,
    ethSettle, updateEthAccount, ethAnalyticsDay. frames.
Qed.
#[local] Hint Resolve ethTrackSale_book : frame.

Lemma ethGiveTo_book n b : keeps ethBook (ethGiveTo n b).
Proof. unfold ethGiveTo. frames. Qed.
#[local] Hint Resolve ethGiveTo_book : frame.

Lemma ethListing_closed nft order :
  eo_status order = status_sold ∨ eo_status order = status_cancelled →
  ethListing (ethUpdateNFTOrderProperties nft order) = unlisted.
Proof. unfold ethUpdateNFTOrderProperties. by intros [-> | ->]. Qed.

Lemma ethBuildCountFromOrder_book category :
  keeps ethBook (ethBuildCountFromOrder category) ∧ returns (ethBuildCountFromOrder category).
Proof.
  unfold ethBuildCountFromOrder, ethBuildCount. split; [frames|].
  apply returns_bind; [|intros; apply returns_ret].
  apply returns_bind; [apply returns_gets|intros [c|]; [|apply returns_ret]].
  apply returns_bind; [apply returns_modify|intros; apply returns_ret].
Qed.

(** The token is listed under a new order. *)
Lemma listUnder_book token order timestamp :
  eo_status order = status_open →
  acts ethBook (λ b, mkBook (<[eo_id order := order]> (bk_orders b))
      (alter (λ _, mkListing (Some (eo_id order)) (Some (eo_status order)) (Some (eo_price order)))
         token (bk_tokens b)))
    (_ ← eth_mutate e_nfts token (λ nft,
           ethUpdateNFTOrderProperties (nft <| en_updatedAt := Some timestamp |>) order);
     _ ← ethBuildCountFromOrder (eo_category order);
     eth_set e_orders (eo_id order) order).
Proof.
  intros Hopen. destruct (ethBuildCountFromOrder_book (eo_category order)) as [Hk Hr].
  set (g2 (b : Book EthOrder) := mkBook (bk_orders b) (alter (λ _, mkListing (Some (eo_id order))
    (Some (eo_status order)) (Some (eo_price order))) token (bk_tokens b))).
  set (g3 (b : Book EthOrder) := mkBook (<[eo_id order := order]> (bk_orders b)) (bk_tokens b)).
  apply (acts_bind ethBook _ _ g2 g3); [apply returns_modify| |intros _].
  - intros w. apply (ethBook_mutate token). intros n.
    unfold ethUpdateNFTOrderProperties. rewrite Hopen. by rewrite <- Hopen.
  - apply acts_bind_l; [done|done|by intros _ w].
Qed.

(** The order is created, and the one the token showed cancelled. *)
Lemma ethHandleOrderCreated_book e block a txHash w nft timestamp :
  let token := marketNFTId (oc_nftAddress e) (oc_assetId e) in
  e_nfts (e_storedData w) !! token = Some nft → blk_timestamp block = timestamp * 1000 →
  ethBook (ethHandleOrderCreated e block a txHash w).2 =
  book_create (oc_id e) (newEthOrder e block a txHash nft timestamp)
    (λ o, ethCancelActiveOrder o timestamp) (ethBook w).
Proof.
  intros token Hn Ht. unfold ethHandleOrderCreated. fold token.
  erewrite bind_ok by reflexivity. rewrite Hn.
  rewrite (bind_ok _ _ _ _ _ (block_seconds_ok block w timestamp Ht)). cbv zeta.
  set (order := newEthOrder e block a txHash nft timestamp).
  unfold book_create. change (orderToken order) with token. rewrite (ethBook_token _ _ _ Hn).
  pose proof (listUnder_book token order timestamp eq_refl) as Hlist.
  destruct (en_activeOrder nft) as [old|] eqn:Hold; erewrite bind_ok by reflexivity;
    rewrite Hlist; cbn; by rewrite Hold.
Qed.

(** A purchase: the order is sold and the token unlisted, whatever becomes of
    the sale. *)
Lemma ethHandleOrderSuccessful_book e block txHash cut w order timestamp :
  let token := marketNFTId (os_nftAddress e) (os_assetId e) in
  e_orders (e_storedData w) !! os_id e = Some order →
  is_Some (e_nfts (e_storedData w) !! token) → blk_timestamp block = timestamp * 1000 →
  ∃ f, (∀ o, eo_status (f o) = status_sold) ∧
    ethBook (ethHandleOrderSuccessful e block txHash cut w).2 =
    book_close (os_id e) token f (ethBook w).
Proof.
  intros token Ho [nft Hn] Ht. unfold ethHandleOrderSuccessful. fold token.
  erewrite bind_ok by reflexivity. rewrite Ho. cbv zeta.
  lazymatch goal with |- context [eth_mutate e_orders _ ?g] => set (sell := g) end.
  exists (λ o, sell o <| eo_updatedAt := timestamp |>). split; [done|].
  erewrite bind_ok by reflexivity. set (w1 := set e_storedData _ w).
  rewrite (bind_ok _ _ _ _ _ (block_seconds_ok block w1 timestamp Ht)).
  erewrite bind_ok by reflexivity. set (w2 := set e_storedData _ w1).
  erewrite bind_ok by reflexivity.
  change (e_nfts (e_storedData w2)) with (e_nfts (e_storedData w)). rewrite Hn.
  match goal with |- ethBook (?m w2).2 = _ =>
    enough (acts ethBook (λ b, mkBook (bk_orders b) (alter (λ _, unlisted) token (bk_tokens b))) m) as Hm
  end.
  { rewrite (Hm w2). unfold book_close. f_equal. unfold ethBook, w2, w1. cbn. apply alter_alter_eq. }
  apply acts_bind_l; [|apply ethGiveTo_book|intros _].
  { unfold ethGiveTo. apply returns_bind; [apply returns_gets|].
    intros []; intros ?; by eexists. }
  apply acts_bind_r; [|intros _; frames].
  intros w'. apply (ethBook_mutate token). intros n. by apply ethListing_closed; left.
Qed.

Lemma ethHandleOrderCancelled_book e block w order timestamp :
  let token := marketNFTId (ox_nftAddress e) (ox_assetId e) in
  e_orders (e_storedData w) !! ox_id e = Some order →
  is_Some (e_nfts (e_storedData w) !! token) → blk_timestamp block = timestamp * 1000 →
  ∃ f, (∀ o, eo_status (f o) = status_cancelled) ∧
    ethBook (ethHandleOrderCancelled e block w).2 = book_close (ox_id e) token f (ethBook w).
Proof.
  intros token Ho [nft Hn] Ht. unfold ethHandleOrderCancelled. fold token.
  do 2 erewrite bind_ok by reflexivity. rewrite Hn, Ho. cbv zeta.
  lazymatch goal with |- context [eth_mutate e_orders _ ?g] => set (cancel := g) end.
  exists (λ o, cancel o <| eo_updatedAt := timestamp |>). split; [done|].
  erewrite bind_ok by reflexivity. set (w1 := set e_storedData _ w).
  rewrite (bind_ok _ _ _ _ _ (block_seconds_ok block w1 timestamp Ht)).
  erewrite bind_ok by reflexivity. set (w2 := set e_storedData _ w1).
  rewrite (ethBook_mutate token _ (λ _, unlisted)).
  2: { intros n. by apply ethListing_closed; right. }
  unfold book_close. f_equal. unfold ethBook, w2, w1. cbn. apply alter_alter_eq.
Qed.

(** ** Every handler keeps the book consistent *)

Lemma ethHandleOrderCreated_right e block a txHash t w :
  blk_timestamp block = t * 1000 →
  (∀ t l, bk_tokens (ethBook w) !! t = Some l → ls_order l ≠ Some (oc_id e)) →
  bookRight w → bookRight (ethHandleOrderCreated e block a txHash w).2.
Proof.
  intros Ht Hid Hw. unfold bookRight.
  destruct (e_nfts (e_storedData w) !! marketNFTId (oc_nftAddress e) (oc_assetId e)) as [nft|] eqn:Hn.
  - rewrite (ethHandleOrderCreated_book _ _ _ _ _ nft t Hn Ht).
    apply consistent_create; try done.
    + exists (ethListing nft). by apply ethBook_token.
    + intros o [Lo|Lo]; simpl in Lo; unfold ethCancelActiveOrder; rewrite Lo; by intros [|].
  - unfold ethHandleOrderCreated. erewrite bind_ok by reflexivity. by rewrite Hn.
Qed.

(** An order that ends is live, and of the token of the event. *)
Lemma ending_token id t o w :
  bookRight w → e_orders (e_storedData w) !! id = Some o → live o → orderToken o = t →
  is_Some (e_nfts (e_storedData w) !! t).
Proof.
  intros Hw Ho Lo <-. destruct (cs_live _ _ Hw id o Ho Lo I) as (l & Hl & _). by eapply ethBook_token_inv.
Qed.

Lemma ethHandleOrderSuccessful_right e block txHash cut t w :
  blk_timestamp block = t * 1000 →
  (∀ o, bk_orders (ethBook w) !! os_id e = Some o →
    live o ∧ orderToken o = marketNFTId (os_nftAddress e) (os_assetId e)) →
  bookRight w → bookRight (ethHandleOrderSuccessful e block txHash cut w).2.
Proof.
  intros Ht Hid Hw. destruct (e_orders (e_storedData w) !! os_id e) as [o|] eqn:Ho.
  - destruct (Hid o Ho) as [Lo Htok]. unfold bookRight.
    destruct (ethHandleOrderSuccessful_book e block txHash cut w o t Ho
      (ending_token _ _ _ _ Hw Ho Lo Htok) Ht) as (f & Hf & ->).
    apply (consistent_close _ _ Hw _ _ _ o); try done. intros [L|L]; simpl in L; by rewrite Hf in L.
  - unfold ethHandleOrderSuccessful. erewrite bind_ok by reflexivity. by rewrite Ho.
Qed.

Lemma ethHandleOrderCancelled_right e block t w :
  blk_timestamp block = t * 1000 →
  (∀ o, bk_orders (ethBook w) !! ox_id e = Some o →
    live o ∧ orderToken o = marketNFTId (ox_nftAddress e) (ox_assetId e)) →
  bookRight w → bookRight (ethHandleOrderCancelled e block w).2.
Proof.
  intros Ht Hid Hw. destruct (e_orders (e_storedData w) !! ox_id e) as [o|] eqn:Ho.
  - destruct (Hid o Ho) as [Lo Htok]. unfold bookRight.
    destruct (ethHandleOrderCancelled_book e block w o t Ho
      (ending_token _ _ _ _ Hw Ho Lo Htok) Ht) as (f & Hf & ->).
    apply (consistent_close _ _ Hw _ _ _ o); try done. intros [L|L]; simpl in L; by rewrite Hf in L.
  - unfold ethHandleOrderCancelled. do 2 erewrite bind_ok by reflexivity.
    rewrite Ho. by destruct (e_nfts _ !! _).
Qed.

(** The handlers that change no order. *)
Lemma ethHandleTraded_book e block txHash : keeps ethBook (ethHandleTraded e block txHash).
Proof. unfold ethHandleTraded. frames. Qed.

Lemma ethHandleBidCreated_book e block a : keeps ethBook (ethHandleBidCreated e block a).
Proof. unfold ethHandleBidCreated. frames. Qed.

Lemma ethHandleBidAccepted_book e block txHash cut :
  keeps ethBook (ethHandleBidAccepted e block txHash cut).
Proof. unfold ethHandleBidAccepted, bidWithNFT. frames. Qed.

Lemma ethHandleBidCancelled_book e block : keeps ethBook (ethHandleBidCancelled e block).
Proof. unfold ethHandleBidCancelled, bidWithNFT. frames. Qed.

Lemma handleInitializeWearablesV1_book : keeps ethBook handleInitializeWearablesV1.
Proof. unfold handleInitializeWearablesV1, ethBuildCount. frames. Qed.

Lemma handleAddItemV1_book a e block : keeps ethBook (handleAddItemV1 a e block).
Proof.
  unfold handleAddItemV1, buildWearableV1Metadata, ethSetItemSearchFields, ethBuildCountFromItem,
    ethBuildCount. frames.
Qed.

(** The handlers of the registries. *)
Section registries.
Context (w0 : EthWorld).

Lemma resizeEstate_grown id f : maintains (grown w0) (resizeEstate id f) (λ _, True).
Proof. apply grown_keeps. unfold resizeEstate. frames. Qed.

Lemma handleCreateEstate_grown block e : maintains (grown w0) (handleCreateEstate block e) (λ _, True).
Proof. unfold handleCreateEstate. inv_go. Qed.

Lemma handleEstateUpdate_grown e block : maintains (grown w0) (handleEstateUpdate e block) (λ _, True).
Proof. unfold handleEstateUpdate. inv_go. Qed.

Lemma handleAddLand_grown e coords : maintains (grown w0) (handleAddLand e coords) (λ _, True).
Proof.
  unfold handleAddLand, addDistance.
  eapply (maintains_bind _ _ _ (λ _, True)); [apply resizeEstate_grown|intros [] _; inv_go].
Qed.

Lemma handleRemoveLand_grown e coords : maintains (grown w0) (handleRemoveLand e coords) (λ _, True).
Proof.
  unfold handleRemoveLand, removeDistance.
  eapply (maintains_bind _ _ _ (λ _, True)); [apply resizeEstate_grown|intros [] _; inv_go].
Qed.

Lemma handleLandUpdate_grown e block coords :
  maintains (grown w0) (handleLandUpdate e block coords) (λ _, True).
Proof. unfold handleLandUpdate. inv_go. Qed.

Lemma handleNameRegistered_grown e hash :
  maintains (grown w0) (handleNameRegistered e hash) (λ _, True).
Proof. unfold handleNameRegistered. inv_go. Qed.
End registries.

(** ** The market as a transition system *)

(** What the contracts guarantee of the next event: a block is stamped in whole
    seconds, an order identifier is used once, and only live orders are executed
    or cancelled, for their own token. *)
Definition ethAdmissible (b : Book EthOrder) (q : EthQueuedEvent) : Prop :=
  (∃ t, blk_timestamp (ebk_header (eq_block q)) = t * 1000) ∧
  match eq_event q with
  | EeOrderCreated e => ∀ t l, bk_tokens b !! t = Some l → ls_order l ≠ Some (oc_id e)
  | EeOrderSuccessful e => ∀ o, bk_orders b !! os_id e = Some o →
      live o ∧ orderToken o = marketNFTId (os_nftAddress e) (os_assetId e)
  | EeOrderCancelled e => ∀ o, bk_orders b !! ox_id e = Some o →
      live o ∧ orderToken o = marketNFTId (ox_nftAddress e) (ox_assetId e)
  | _ => True
  end.

Lemma bookRight_keeps {A} (m : M EthWorld A) w :
  keeps ethBook m → bookRight w → bookRight (m w).2.
Proof. intros Hm Hw. unfold bookRight. by rewrite (Hm w). Qed.

Lemma dispatchMarketplaceEvent_right q w :
  bookRight w → ethAdmissible (ethBook w) q → bookRight (dispatchMarketplaceEvent q w).2.
Proof.
  intros Hw [[t Ht] Hq]. unfold dispatchMarketplaceEvent. erewrite bind_ok by reflexivity.
  assert (∀ A (m : M EthWorld A), (∀ w0, maintains (grown w0) m (λ _, True)) → bookRight (m w).2) as Hg
    by (intros A m Hm; by apply (bookRight_grown m Hm)).
  assert (∀ A (m : M EthWorld A), keeps ethBook m → bookRight (m w).2) as Hk
    by (intros A m Hm; by apply bookRight_keeps).
  destruct (eq_event q) as [e| |e|e|e|e|e|e|p|e|e|e|e|e|e|p|e|o|].
  - case_decide; [by apply handleTransferWearableV1_right|by apply ethHandleTransfer_right].
  - apply Hk, handleInitializeWearablesV1_book.
  - apply Hk, handleAddItemV1_book.
  - apply Hg. intros w0. apply handleCreateEstate_grown.
  - apply Hg. intros w0. apply handleAddLand_grown.
  - apply Hg. intros w0. apply handleRemoveLand_grown.
  - apply Hg. intros w0. apply handleEstateUpdate_grown.
  - exact Hw.
  - exact Hw.
  - by eapply ethHandleOrderCreated_right.
  - by eapply ethHandleOrderSuccessful_right.
  - by eapply ethHandleOrderCancelled_right.
  - apply Hk, ethHandleBidCreated_book.
  - apply Hk, ethHandleBidAccepted_book.
  - apply Hk, ethHandleBidCancelled_book.
  - exact Hw.
  - apply Hk, ethHandleTraded_book.
  - exact Hw.
  - exact Hw.
Qed.

Lemma dispatchENSEvent_right q w : bookRight w → bookRight (dispatchENSEvent q w).2.
Proof.
  intros Hw. unfold dispatchENSEvent.
  destruct (eq_event q) as [e| |e|e|e|e|e|e|p|e|e|e|e|e|e|p|e|o|];
    lazymatch goal with
    | |- bookRight (mret tt w).2 => exact Hw
    | |- bookRight (handleNameRegistered _ _ w).2 =>
        apply bookRight_grown; [intros w0; apply handleNameRegistered_grown|done]
    | _ => apply bookRight_keeps; [unfold handleNameBought, ethAnalyticsDay; frames|exact Hw]
    end.
Qed.

(** A queued event, the update of a parcel or the event of a name. *)
Inductive eth_step : relation EthWorld :=
  | queued_event q w : ethAdmissible (ethBook w) q → eth_step w (dispatchMarketplaceEvent q w).2
  | parcel_event e block coords w : eth_step w (handleLandUpdate e block coords w).2
  | name_event q w : eth_step w (dispatchENSEvent q w).2.

(** C3.  The handlers of the Ethereum processor keep the order book consistent:
    in every state reached by events the contracts can emit, the live orders and
    the tokens' listings are each other's inverse, the search columns of a token
    show the status and the price of its order, and no token has two live
    orders. *)
Theorem reachable_book w0 w :
  consistent (ethBook w0) → rtc eth_step w0 w →
  consistent (ethBook w) ∧
  ∀ id1 id2 o1 o2,
    e_orders (e_storedData w) !! id1 = Some o1 → e_orders (e_storedData w) !! id2 = Some o2 →
    live o1 → live o2 → orderToken o1 = orderToken o2 → id1 = id2.
Proof.
  intros Hstart Hr. assert (bookRight w) as Hw.
  { induction Hr as [w|w w1 w2 [q w' Hq|e block coords w'|q w'] _ IH]; [done|apply IH..].
    - by apply dispatchMarketplaceEvent_right.
    - apply bookRight_grown; [|done]. intros w3. apply handleLandUpdate_grown.
    - by apply dispatchENSEvent_right. }
  split; [done|]. intros id1 id2 o1 o2 E1 E2 L1 L2 Ht.
  by apply (consistent_unique _ (ethBook w) id1 id2 o1 o2 Hw).
Qed.
End handlers.

(** ** A parcel listed and bought *)

#[local] Existing Instances Samples.env EthSamples.rpc EthSamples.ethRpc EthSamples.parcels.

Example reachable_book_witness :
  consistent (ethBook EthSamples.landBought) ∧
  eo_status <$> e_orders (e_storedData EthSamples.landMoved) !! "0x01" = Some status_transferred ∧
  eo_status <$> e_orders (e_storedData EthSamples.landBought) !! "0x01" = Some status_sold.
Proof.
  split; [|split; vm_compute; reflexivity].
  apply (reachable_book EthSamples.parcelsMinted); [decided|].
  apply (rtc_l _ _ EthSamples.landListed).
  { constructor. split; [by exists 1700000006|]. intros t l Hl.
    assert (map_Forall (λ _ l, ls_order l ≠ Some "0x01")
      (bk_tokens (ethBook EthSamples.parcelsMinted))) as Hall by decided. by apply (Hall t). }
  apply (rtc_l _ _ EthSamples.landMoved).
  { constructor. by split; [exists 1700000007|]. }
  apply rtc_once. constructor. split; [by exists 1700000007|]. intros o Ho.
  assert (map_Forall (λ _ o, live o ∧ orderToken o = parcelIdOf (EthSamples.landId 10 20))
    (bk_orders (ethBook EthSamples.landMoved))) as Hall by decided. by apply (Hall "0x01").
Defined.
