(* ===== verification/ContentHash.v ===== *)
(** * Content identifiers

    [sites/packages/data/src/lib/catalyst/hashing.ts]: the identifier under which
    a file is stored on the content servers.  A file of one chunk is one raw
    block; a longer one is the leaves of a tree of DAG-PB blocks, each of which
    holds the identifiers of its children.

    A [Uint8Array] is a list of integers below 256, which is what storing into one
    makes of any number.  The shifts of [base32Lower] are those of 32-bit
    integers.  What [crypto.subtle.digest] computes is a parameter, absent where
    the runtime has no [crypto.subtle].  Lengths stay below 2^53. *)

From Stdlib Require Import Ascii.
From S2P Require Import Prelude JsString.
Open Scope string_scope.
Open Scope list_scope.
Open Scope Z_scope.

(** [globalThis.crypto?.subtle], as its [digest("SHA-256", ..)]. *)
Class WebCrypto := { subtle_digest : option (list Z → list Z) }.

(** An asynchronous function returns or rejects. *)
#[export] Instance Res_ret : MRet Res := @Ok.
#[export] Instance Res_bind : MBind Res := λ A B k r,
  match r with
  | Ok a => k a
  | Throw e => Throw e
  end.

(** ** Constants *)

(** [CHUNK_SIZE_BYTES], sites/packages/data/src/lib/catalyst/hashing.ts:1-1 *)
Definition CHUNK_SIZE_BYTES : Z := 262144.

(** [MAX_CHILDREN_PER_NODE], sites/packages/data/src/lib/catalyst/hashing.ts:3-3 *)
Definition MAX_CHILDREN_PER_NODE : Z := 174.

(** [B32_ALPHABET], sites/packages/data/src/lib/catalyst/hashing.ts:5-5 *)
Definition B32_ALPHABET : string := "abcdefghijklmnopqrstuvwxyz234567".

(** [CODEC_RAW], sites/packages/data/src/lib/catalyst/hashing.ts:39-39 *)
Definition CODEC_RAW : Z := 85.

(** [CODEC_DAG_PB], sites/packages/data/src/lib/catalyst/hashing.ts:40-40 *)
Definition CODEC_DAG_PB : Z := 112.

(** ** Base 32 *)

(** [B32_ALPHABET[d]], sites/packages/data/src/lib/catalyst/hashing.ts:23-23 *)
Definition b32Char (d : Z) : string :=
  match String.get (Z.to_nat d) B32_ALPHABET with
  | Some c => String c ""
  | None => "undefined"
  end.

(** The inner loop of [base32Lower], sites/packages/data/src/lib/catalyst/hashing.ts:22-25 *)
Fixpoint drain (fuel : nat) (value bits : Z) (out : string) : Z * string :=
  match fuel with
  | O => (bits, out)
  | S fuel =>
      if 5 <=? bits then
        drain fuel value (bits - 5)
          (out +:+ b32Char (Z.land (Z.shiftr (value mod 2 ^ 32) (bits - 5)) 31))
      else (bits, out)
  end.

(** The body of the outer loop, sites/packages/data/src/lib/catalyst/hashing.ts:20-25 *)
Definition b32Step (st : Z * Z * string) (byte : Z) : Z * Z * string :=
  let '(value, bits, out) := st in
  let value := Z.lor (toInt32 (Z.shiftl value 8)) byte in
  let bits := bits + 8 in
  let '(bits, out) := drain (Z.to_nat bits) value bits out in
  (value, bits, out).

(** [base32Lower], sites/packages/data/src/lib/catalyst/hashing.ts:15-31 *)
Definition base32Lower (bytes : list Z) : string :=
  let '(value, bits, out) := foldl b32Step (0, 0, "") bytes in
  if 0 <? bits then out +:+ b32Char (Z.land (toInt32 (Z.shiftl value (5 - bits))) 31)
  else out.

(** ** Varints and blocks *)

(** The loop of [writeVarint], sites/packages/data/src/lib/catalyst/hashing.ts:63-66 *)
Fixpoint writeVarint_loop (fuel : nat) (v : Z) (out : list Z) : list Z :=
  match fuel with
  | O => out ++ [v]
  | S fuel =>
      if 128 <=? v then writeVarint_loop fuel (v / 128) (out ++ [v mod 128 + 128])
      else out ++ [v]
  end.

(** [writeVarint], sites/packages/data/src/lib/catalyst/hashing.ts:61-68 *)
Definition writeVarint (out : list Z) (value : Z) : list Z :=
  writeVarint_loop (Z.to_nat (Z.log2 value)) value out.

(** [unixfsFileData], sites/packages/data/src/lib/catalyst/hashing.ts:70-78 *)
Definition unixfsFileData (fileSize : Z) (blockSizes : list Z) : list Z :=
  foldl (λ out bs, writeVarint (out ++ [32]) bs)
    (writeVarint [8; 2; 24] fileSize) blockSizes.

(** [DagNode], sites/packages/data/src/lib/catalyst/hashing.ts:80-84 *)
Record DagNode := {
  node_cidBytes : list Z;
  node_tsize : Z;
  node_fileSize : Z
}.

(** One link of [encodePBNode], sites/packages/data/src/lib/catalyst/hashing.ts:89-93 *)
Definition pbLink (l : DagNode) : list Z :=
  let link := writeVarint [10] (Z.of_nat (length (node_cidBytes l))) in
  let link := link ++ node_cidBytes l in
  writeVarint (link ++ [18; 0; 24]) (node_tsize l).

(** [Uint8Array.from], sites/packages/data/src/lib/catalyst/hashing.ts:103-103 *)
Definition Uint8Array_from (out : list Z) : list Z := map (λ b, b mod 256) out.

(** [encodePBNode], sites/packages/data/src/lib/catalyst/hashing.ts:86-104 *)
Definition encodePBNode (links : list DagNode) (data : list Z) : list Z :=
  let out := foldl (λ out l,
    let link := pbLink l in
    writeVarint (out ++ [18]) (Z.of_nat (length link)) ++ link) [] links in
  let out :=
    if 0 <? Z.of_nat (length data) then
      writeVarint (out ++ [10]) (Z.of_nat (length data)) ++ data
    else out in
  Uint8Array_from out.

(** [cidBytes], sites/packages/data/src/lib/catalyst/hashing.ts:46-54 *)
Definition cidBytes (codec : Z) (digest : list Z) : list Z :=
  [1; codec; 18; 32] ++ digest.

(** [arr.slice(i, i + k)] for [i = 0, k, 2k, ..]: [l] is the array from [i] on.
    Both loops of [hashV1] cut an array this way,
    sites/packages/data/src/lib/catalyst/hashing.ts:120-121 *)
Fixpoint slices {A} (fuel k : nat) (l : list A) : list (list A) :=
  match fuel, l with
  | O, _ | _, [] => []
  | S fuel, _ => take k l :: slices fuel k (drop k l)
  end.

(** The chunks of a file, sites/packages/data/src/lib/catalyst/hashing.ts:120-121 *)
Definition chunks (bytes : list Z) : list (list Z) :=
  slices (length bytes) (Z.to_nat CHUNK_SIZE_BYTES) bytes.

(** The batches of a level, sites/packages/data/src/lib/catalyst/hashing.ts:131-132 *)
Definition levelBatches {A} (level : list A) : list (list A) :=
  slices (length level) (Z.to_nat MAX_CHILDREN_PER_NODE) level.

(** ** Identifiers *)

Section hashing.
Context `{WebCrypto}.

(** [getSubtle], sites/packages/data/src/lib/catalyst/hashing.ts:7-13 *)
Definition getSubtle : Res (list Z → list Z) :=
  match subtle_digest with
  | Some digest => Ok digest
  | None => Throw (JsError "hashing: WebCrypto crypto.subtle is unavailable in this runtime")
  end.

(** [sha256], sites/packages/data/src/lib/catalyst/hashing.ts:42-44; an array buffer
    is read as bytes. *)
Definition sha256 (bytes : list Z) : Res (list Z) :=
  digest ← getSubtle;
  mret (Uint8Array_from (digest bytes)).

(** [hashV1Raw], sites/packages/data/src/lib/catalyst/hashing.ts:56-58 *)
Definition hashV1Raw (bytes : list Z) : Res string :=
  digest ← sha256 bytes;
  mret ("b" +:+ base32Lower (cidBytes CODEC_RAW digest)).

(** [reduceBatch], sites/packages/data/src/lib/catalyst/hashing.ts:106-114 *)
Definition reduceBatch (batch : list DagNode) : Res DagNode :=
  let blockSizes := map node_fileSize batch in
  let fileSize := foldl Z.add 0 blockSizes in
  let block := encodePBNode batch (unixfsFileData fileSize blockSizes) in
  let tsize := foldl (λ tsize n, tsize + node_tsize n) (Z.of_nat (length block)) batch in
  digest ← sha256 block;
  mret {| node_cidBytes := cidBytes CODEC_DAG_PB digest;
          node_tsize := tsize; node_fileSize := fileSize |}.

(** A leaf, sites/packages/data/src/lib/catalyst/hashing.ts:122-126 *)
Definition leafNode (chunk : list Z) : Res DagNode :=
  digest ← sha256 chunk;
  mret {| node_cidBytes := cidBytes CODEC_RAW digest;
          node_tsize := Z.of_nat (length chunk);
          node_fileSize := Z.of_nat (length chunk) |}.

(** The loop [for (;;)] of [hashV1], sites/packages/data/src/lib/catalyst/hashing.ts:129-136;
    [None] when [fuel] rounds were not enough. *)
Fixpoint reduceLevels (fuel : nat) (level : list DagNode) : Res (option DagNode) :=
  match fuel with
  | O => mret None
  | S fuel =>
      next ← mapM reduceBatch (levelBatches level);
      match next with
      | [root] => mret (Some root)
      | _ => reduceLevels fuel next
      end
  end.

(** [hashV1], sites/packages/data/src/lib/catalyst/hashing.ts:116-138; [None] when
    the loop does not end within as many rounds as the file has chunks. *)
Definition hashV1 (bytes : list Z) : Res (option string) :=
  if Z.of_nat (length bytes) <=? CHUNK_SIZE_BYTES then
    cid ← hashV1Raw bytes; mret (Some cid)
  else
    level ← mapM leafNode (chunks bytes);
    root ← reduceLevels (length level) level;
    mret (root ← root; Some ("b" +:+ base32Lower (node_cidBytes root))).

(** [hashFile], sites/packages/data/src/lib/catalyst/hashing.ts:140-142 *)
Definition hashFile (bytes : list Z) : Res (option string) := hashV1 bytes.
End hashing.

(** [needsMultiBlockHash], sites/packages/data/src/lib/catalyst/hashing.ts:144-146 *)
Definition needsMultiBlockHash (bytes : list Z) : bool :=
  CHUNK_SIZE_BYTES <? Z.of_nat (length bytes).

(** The message of [MultiBlockHashUnsupportedError],
    sites/packages/data/src/lib/catalyst/hashing.ts:148-157; nothing in the file raises it. *)
Definition MultiBlockHashUnsupportedError (byteLength : Z) : Exn :=
  JsError ("hashFile: " +:+ pretty byteLength +:+ " bytes exceeds the "
    +:+ pretty CHUNK_SIZE_BYTES +:+ "-byte single-block limit.").
