(* ===== verification/ContentHashProofs.v ===== *)
(** * Base 32 and the blocks of a file's tree

    [base32Lower] is positional notation: its text is the bytes' number in base
    32, so two byte arrays with the same text are one.  A block is read back: the
    identifiers and sizes of the links, and the data. *)

From Stdlib Require Import Ascii.
From S2P Require Import Prelude JsString ContentHash.
Open Scope string_scope.
Open Scope list_scope.
Open Scope Z_scope.

(** ** Numbers in a base *)

(** A digit of the base [B]; a byte is a digit of the base 256. *)
Definition digit_of (B d : Z) : Prop := 0 ≤ d < B.

Abbreviation bytes_ok l := (Forall (digit_of 256) l).

(** The number that [ds], most significant digit first, is in the base [B]. *)
Definition number (B : Z) (ds : list Z) : Z := foldl (λ n d, B * n + d) 0 ds.

Lemma number_snoc B ds d : number B (ds ++ [d]) = B * number B ds + d.
Proof. unfold number. by rewrite foldl_app. Qed.

Lemma number_inj B ds ds' :
  Forall (digit_of B) ds → Forall (digit_of B) ds' →
  length ds = length ds' → number B ds = number B ds' → ds = ds'.
Proof.
  revert ds'. induction ds as [|d ds IH] using rev_ind; intros ds' Hd Hd'.
  { intros Hl _. symmetry. by apply nil_length_inv. }
  destruct ds' as [|d' ds' _] using rev_ind.
  { rewrite length_app. simpl. lia. }
  rewrite !length_app, !number_snoc. simpl. intros Hl Hn.
  apply Forall_app in Hd as [Hd H1], Hd' as [Hd' H1'].
  rewrite Forall_singleton in H1, H1'. unfold digit_of in *.
  assert (number B ds = number B ds' ∧ d = d') as [Hn' ->].
  { apply (Z.div_mod_unique B); lia. }
  f_equal. apply IH; [done..|lia|done].
Qed.

(** ** Base 32 *)

(** The text of a list of digits. *)
Definition b32Text (ds : list Z) : string := foldr (λ d s, b32Char d +:+ s) "" ds.

Lemma b32Text_snoc ds d : b32Text (ds ++ [d]) = b32Text ds +:+ b32Char d.
Proof.
  induction ds as [|e ds IH]; simpl.
  - apply string_app_nil_r.
  - by rewrite IH, string_app_assoc.
Qed.

Lemma b32Char_get d : digit_of 32 d → ∃ c, b32Char d = String c "" ∧
  String.get (Z.to_nat d) B32_ALPHABET = Some c.
Proof.
  intros Hd. unfold b32Char.
  destruct (String.get (Z.to_nat d) B32_ALPHABET) as [c|] eqn:E; [by exists c|].
  exfalso. revert E.
  assert (∀ n, (n < 32)%nat → String.get n B32_ALPHABET ≠ None) as Hall.
  { intros n Hn. do 32 (destruct n as [|n]; [vm_compute; discriminate|]). lia. }
  apply Hall. unfold digit_of in Hd. lia.
Qed.

Lemma alphabet_inj n m c :
  String.get n B32_ALPHABET = Some c → String.get m B32_ALPHABET = Some c → n = m.
Proof.
  assert (∀ n c, String.get n B32_ALPHABET = Some c →
    String.index 0 (String c "") B32_ALPHABET = Some n) as Hix.
  { clear. intros n c. do 32 (destruct n as [|n];
      [vm_compute; intros [= <-]; vm_compute; reflexivity|]).
    by destruct n. }
  intros Hn Hm. apply Hix in Hn, Hm. congruence.
Qed.

Lemma b32Text_inj ds ds' :
  Forall (digit_of 32) ds → Forall (digit_of 32) ds' → b32Text ds = b32Text ds' → ds = ds'.
Proof.
  intros Hd. revert ds'. induction Hd as [|d ds Hd _ IH]; intros ds' Hd';
    destruct Hd' as [|d' ds' Hd' Hds']; [done|..].
  - simpl. by destruct (b32Char_get d' Hd') as (c & -> & _).
  - simpl. by destruct (b32Char_get d Hd) as (c & -> & _).
  - simpl. destruct (b32Char_get d Hd) as (c & -> & Hc).
    destruct (b32Char_get d' Hd') as (c' & -> & Hc'). simpl.
    intros [= <- Heq]. unfold digit_of in *.
    pose proof (alphabet_inj _ _ _ Hc Hc').
    f_equal; [lia|]. by apply IH.
Qed.

(** *** Arithmetic of the shifts *)

(** The top five of the low [bits] bits of the accumulator. *)
Lemma shifted_digit value bits : 5 ≤ bits ≤ 32 →
  Z.land (Z.shiftr (value mod 2 ^ 32) (bits - 5)) 31 = (value mod 2 ^ bits) / 2 ^ (bits - 5).
Proof.
  intros Hb. change 31 with (Z.ones 5). rewrite Z.land_ones, Z.shiftr_div_pow2 by lia.
  replace (value mod 2 ^ bits) with ((value mod 2 ^ 32) mod 2 ^ bits).
  2:{ apply Z.mod_mod_divide. exists (2 ^ (32 - bits)). rewrite <- Z.pow_add_r by lia. f_equal. lia. }
  set (v := value mod 2 ^ 32).
  replace (2 ^ bits) with (2 ^ (bits - 5) * 2 ^ 5) by (rewrite <- Z.pow_add_r by lia; f_equal; lia).
  assert (0 < 2 ^ (bits - 5)) by (apply Z.pow_pos_nonneg; lia).
  rewrite Z.rem_mul_r by lia. rewrite (Z.mul_comm (2 ^ (bits - 5))), Z.div_add by lia.
  rewrite (Z.div_small (v mod 2 ^ (bits - 5))); [done|]. apply Z.mod_pos_bound. lia.
Qed.

(** The digit of the [bits] bits that are left, padded with zeros. *)
Lemma last_digit value bits : 0 ≤ bits ≤ 5 →
  Z.land (toInt32 (Z.shiftl value (5 - bits))) 31 = (value mod 2 ^ bits) * 2 ^ (5 - bits).
Proof.
  intros Hb. change 31 with (Z.ones 5). rewrite Z.land_ones by lia.
  rewrite <- (Z.mod_mod_divide (toInt32 _) (2 ^ 32)) by (by exists (2 ^ 27)).
  rewrite toInt32_mod, Z.mod_mod_divide by (by exists (2 ^ 27)).
  rewrite Z.shiftl_mul_pow2 by lia.
  replace (2 ^ 5) with (2 ^ bits * 2 ^ (5 - bits)) by (rewrite <- Z.pow_add_r by lia; f_equal; lia).
  assert (0 < 2 ^ (5 - bits)) by (apply Z.pow_pos_nonneg; lia).
  assert (0 < 2 ^ bits) by (apply Z.pow_pos_nonneg; lia).
  by rewrite Z.mul_mod_distr_r by lia.
Qed.

(** A byte pushed into the accumulator, as its low [bits] bits see it. *)
Lemma pushed_byte value byte bits : digit_of 256 byte → 0 ≤ bits ≤ 24 →
  Z.lor (toInt32 (Z.shiftl value 8)) byte mod 2 ^ (bits + 8)
  = (value mod 2 ^ bits) * 256 + byte.
Proof.
  intros Hbyte Hb. unfold digit_of in Hbyte.
  assert (toInt32 (Z.shiftl value 8) mod 2 ^ 8 = 0) as H0.
  { rewrite <- (Z.mod_mod_divide _ (2 ^ 32)) by (by exists (2 ^ 24)).
    rewrite toInt32_mod, Z.mod_mod_divide by (by exists (2 ^ 24)).
    rewrite Z.shiftl_mul_pow2 by lia. apply Z.mod_mul. lia. }
  replace (Z.lor (toInt32 (Z.shiftl value 8)) byte) with (toInt32 (Z.shiftl value 8) + byte).
  2:{ assert (Z.land (toInt32 (Z.shiftl value 8)) byte = 0) as Hl.
      { apply Z.bits_inj'. intros n Hn. rewrite Z.land_spec, Z.bits_0.
        destruct (decide (n < 8)).
        - rewrite <- (Z.mod_pow2_bits_low _ 8) by lia. by rewrite H0, Z.bits_0.
        - replace byte with (byte mod 2 ^ 8) by (apply Z.mod_small; lia).
          rewrite (Z.mod_pow2_bits_high byte) by lia. apply andb_false_r. }
      by rewrite Z.add_nocarry_lxor, Z.lxor_lor by done. }
  assert ((2 ^ (bits + 8) | 2 ^ 32)) as Hdiv.
  { exists (2 ^ (24 - bits)). rewrite <- Z.pow_add_r by lia. f_equal. lia. }
  rewrite Zplus_mod, <- (Z.mod_mod_divide (toInt32 _) (2 ^ 32)) by done.
  rewrite toInt32_mod, Z.mod_mod_divide, <- Zplus_mod by done.
  rewrite Z.shiftl_mul_pow2, Z.pow_add_r by lia. change (2 ^ 8) with 256.
  assert (0 < 2 ^ bits) by (apply Z.pow_pos_nonneg; lia).
  rewrite Zplus_mod, Z.mul_mod_distr_r by lia.
  pose proof (Z.mod_pos_bound value (2 ^ bits)).
  rewrite (Z.mod_small byte) by nia. apply Z.mod_small. nia.
Qed.

(** *** The loops *)

(** [ds] and the low [bits] bits of [value] are the number [n] of [m] bits. *)
Definition b32Inv (ds : list Z) (value bits n m : Z) : Prop :=
  Forall (digit_of 32) ds ∧ 5 * Z.of_nat (length ds) + bits = m ∧
  number 32 ds * 2 ^ bits + value mod 2 ^ bits = n.

Lemma drain_inv fuel ds value bits n m :
  0 ≤ bits ≤ 32 → bits < Z.of_nat fuel + 5 → b32Inv ds value bits n m →
  ∃ ds' bits', drain fuel value bits (b32Text ds) = (bits', b32Text ds') ∧
    0 ≤ bits' < 5 ∧ b32Inv ds' value bits' n m.
Proof.
  revert ds bits. induction fuel as [|fuel IH]; intros ds bits Hb Hf Hinv; simpl.
  { exists ds, bits. repeat split; [lia|lia|apply Hinv..]. }
  destruct (Z.leb_spec 5 bits); [|exists ds, bits; by repeat split; try lia; apply Hinv].
  rewrite shifted_digit by lia. set (d := value mod 2 ^ bits / 2 ^ (bits - 5)).
  rewrite <- b32Text_snoc. apply IH; [lia..|].
  destruct Hinv as (Hds & Hm & Hn).
  assert (2 ^ bits = 32 * 2 ^ (bits - 5)) as Hpow.
  { change 32 with (2 ^ 5). rewrite <- Z.pow_add_r by lia. f_equal. lia. }
  assert (0 < 2 ^ (bits - 5)) by (apply Z.pow_pos_nonneg; lia).
  assert (digit_of 32 d).
  { split; [apply Z.div_pos; [apply Z.mod_pos_bound|]; lia|].
    apply Z.div_lt_upper_bound; [lia|].
    pose proof (Z.mod_pos_bound value (2 ^ bits)). lia. }
  repeat split.
  - apply Forall_app. split; [done|]. by apply Forall_singleton.
  - rewrite length_app. simpl. lia.
  - rewrite number_snoc, <- Hn.
    replace (value mod 2 ^ (bits - 5)) with ((value mod 2 ^ bits) mod 2 ^ (bits - 5)).
    + pose proof (Z.div_mod (value mod 2 ^ bits) (2 ^ (bits - 5))) as Hdm.
      fold d in Hdm. lia.
    + apply Z.mod_mod_divide. rewrite Hpow. by exists 32.
Qed.

Lemma b32Step_inv bytes : bytes_ok bytes →
  ∃ ds value bits, foldl b32Step (0, 0, "") bytes = (value, bits, b32Text ds) ∧
    0 ≤ bits < 5 ∧
    b32Inv ds value bits (number 256 bytes) (8 * Z.of_nat (length bytes)).
Proof.
  induction bytes as [|byte bytes IH] using rev_ind; intros Hok.
  { exists [], 0, 0. repeat split; [lia..|by constructor]. }
  apply Forall_app in Hok as [Hok Hbyte]. rewrite Forall_singleton in Hbyte.
  destruct (IH Hok) as (ds & value & bits & Hrun & Hb & Hds & Hm & Hn).
  rewrite foldl_app, Hrun. simpl.
  set (v := Z.lor (toInt32 (Z.shiftl value 8)) byte).
  destruct (drain_inv (Z.to_nat (bits + 8)) ds v (bits + 8)
    (number 256 (bytes ++ [byte])) (8 * Z.of_nat (length (bytes ++ [byte]))))
    as (ds' & bits' & Hd & Hb' & Hinv); [lia..| |].
  { repeat split; [done|rewrite length_app; simpl; lia|].
    unfold v. rewrite pushed_byte by (done || lia). rewrite number_snoc, <- Hn.
    rewrite Z.pow_add_r by lia. change (2 ^ 8) with 256. lia. }
  exists ds', v, bits'. by rewrite Hd.
Qed.

(** The text is that of the number in base 32, the digits of which fill the
    bytes and fewer than five bits more. *)
Lemma base32Lower_text bytes : bytes_ok bytes → ∃ ds pad,
  base32Lower bytes = b32Text ds ∧ Forall (digit_of 32) ds ∧ 0 ≤ pad < 5 ∧
  5 * Z.of_nat (length ds) = 8 * Z.of_nat (length bytes) + pad ∧
  number 32 ds = number 256 bytes * 2 ^ pad.
Proof.
  intros Hok. unfold base32Lower.
  destruct (b32Step_inv bytes Hok) as (ds & value & bits & -> & Hb & Hds & Hm & Hn).
  destruct (Z.ltb_spec 0 bits).
  - rewrite last_digit, <- b32Text_snoc by lia.
    assert (0 < 2 ^ bits) by (apply Z.pow_pos_nonneg; lia).
    assert (2 ^ bits * 2 ^ (5 - bits) = 32) as Hpow.
    { rewrite <- Z.pow_add_r by lia. by replace (bits + (5 - bits)) with 5 by lia. }
    eexists _, (5 - bits). split; [done|]. repeat split; [|lia|lia|..].
    + apply Forall_app. split; [done|]. apply Forall_singleton.
      pose proof (Z.mod_pos_bound value (2 ^ bits)). split; nia.
    + rewrite length_app. simpl. lia.
    + rewrite number_snoc, <- Hn, Z.mul_add_distr_r, <- Z.mul_assoc, Hpow. lia.
  - exists ds, 0. assert (bits = 0) as -> by lia. repeat split; [done|lia..|].
    rewrite Z.mod_1_r in Hn. lia.
Qed.

Lemma base32Lower_inj a b : bytes_ok a → bytes_ok b →
  base32Lower a = base32Lower b → a = b.
Proof.
  intros Ha Hb Heq.
  destruct (base32Lower_text a Ha) as (ds & pad & E & Hds & Hp & Hl & Hn).
  destruct (base32Lower_text b Hb) as (ds' & pad' & E' & Hds' & Hp' & Hl' & Hn').
  assert (ds = ds') as <- by (apply b32Text_inj; congruence).
  assert (length a = length b) by lia. assert (pad' = pad) as -> by lia.
  apply (number_inj 256); [done..|].
  assert (0 < 2 ^ pad) by (apply Z.pow_pos_nonneg; lia). nia.
Qed.

(** ** Reading a block

    A reader takes what it reads off the front and returns the rest. *)

Fixpoint readVarint (l : list Z) : option (Z * list Z) :=
  match l with
  | [] => None
  | b :: l =>
      if b <? 128 then Some (b, l)
      else '(v, l) ← readVarint l; Some (v * 128 + (b - 128), l)
  end.

(** A field of the wire format: its length, then as many bytes. *)
Definition readBytes (l : list Z) : option (list Z * list Z) :=
  '(n, l) ← readVarint l;
  if Z.of_nat (length l) <? n then None
  else Some (take (Z.to_nat n) l, drop (Z.to_nat n) l).

(** A link: the identifier, an empty name, the size. *)
Definition readLink (l : list Z) : option (list Z * Z) :=
  match l with
  | 10 :: l =>
      '(cid, l) ← readBytes l;
      match l with
      | 18 :: 0 :: 24 :: l => '(tsize, _) ← readVarint l; Some (cid, tsize)
      | _ => None
      end
  | _ => None
  end.

(** The links and the data of a block. *)
Fixpoint readPB (fuel : nat) (l : list Z) : option (list (list Z * Z) * list Z) :=
  match fuel, l with
  | S fuel, 18 :: l =>
      '(link, l) ← readBytes l;
      lk ← readLink link;
      '(links, data) ← readPB fuel l;
      Some (lk :: links, data)
  | _, 10 :: l => '(data, _) ← readBytes l; Some ([], data)
  | _, _ => None
  end.

(** The sizes of a file node. *)
Fixpoint readSizes (fuel : nat) (l : list Z) : option (list Z) :=
  match fuel, l with
  | S fuel, 32 :: l => '(bs, l) ← readVarint l; rest ← readSizes fuel l; Some (bs :: rest)
  | _, [] => Some []
  | _, _ => None
  end.

Definition readFileData (l : list Z) : option (Z * list Z) :=
  match l with
  | 8 :: 2 :: 24 :: l =>
      '(fileSize, l) ← readVarint l; sizes ← readSizes (length l) l; Some (fileSize, sizes)
  | _ => None
  end.

Lemma writeVarint_loop_app fuel v out :
  writeVarint_loop fuel v out = out ++ writeVarint_loop fuel v [].
Proof.
  revert v out. induction fuel as [|fuel IH]; intros v out; simpl; [done|].
  case_match; [|done]. by rewrite IH, (IH _ [_]), (assoc_L (++)).
Qed.

Lemma writeVarint_app out v : writeVarint out v = out ++ writeVarint [] v.
Proof. apply writeVarint_loop_app. Qed.

(** A varint is bytes, at least one, and is read back. *)
Lemma varint_loop_read fuel v rest : 0 ≤ v < 2 ^ (Z.of_nat fuel + 1) →
  let l := writeVarint_loop fuel v [] in
  readVarint (l ++ rest) = Some (v, rest) ∧ bytes_ok l ∧ (1 ≤ length l)%nat.
Proof.
  revert v. induction fuel as [|fuel IH]; intros v Hv; cbn zeta; simpl.
  { change (2 ^ (Z.of_nat 0 + 1)) with 2 in Hv. destruct (Z.ltb_spec v 128); [|lia].
    repeat split; [|lia]. repeat constructor; lia. }
  destruct (Z.leb_spec 128 v); simpl.
  - rewrite writeVarint_loop_app. simpl. pose proof (Z.mod_pos_bound v 128).
    pose proof (Z.div_mod v 128). destruct (IH (v / 128)) as (Hr & Hok & Hl).
    { split; [apply Z.div_pos; lia|]. apply Z.div_lt_upper_bound; [lia|].
      replace (Z.of_nat (S fuel) + 1) with (1 + (Z.of_nat fuel + 1)) in Hv by lia.
      rewrite Z.pow_add_r in Hv by lia. lia. }
    destruct (Z.ltb_spec (v mod 128 + 128) 128); [lia|]. rewrite Hr. simpl.
    repeat split; [|constructor; [unfold digit_of; lia|done]|lia].
    f_equal. f_equal. lia.
  - destruct (Z.ltb_spec v 128); [|lia].
    repeat split; [|lia]. repeat constructor; lia.
Qed.

Lemma varint_read v rest : 0 ≤ v →
  readVarint (writeVarint [] v ++ rest) = Some (v, rest) ∧
  bytes_ok (writeVarint [] v) ∧ (1 ≤ length (writeVarint [] v))%nat.
Proof.
  intros Hv. apply varint_loop_read. split; [done|].
  pose proof (Z.log2_nonneg v). rewrite Z2Nat.id by done.
  destruct (decide (v = 0)) as [->|]; [done|].
  rewrite Z.add_1_r. apply Z.log2_spec. lia.
Qed.

Lemma varint_ok v : 0 ≤ v → bytes_ok (writeVarint [] v).
Proof. intros Hv. apply (varint_read v [] Hv). Qed.

Lemma varint_then v rest : 0 ≤ v → readVarint (writeVarint [] v ++ rest) = Some (v, rest).
Proof. apply varint_read. Qed.

Lemma readBytes_then bs rest :
  readBytes (writeVarint [] (Z.of_nat (length bs)) ++ bs ++ rest) = Some (bs, rest).
Proof.
  unfold readBytes. rewrite varint_then by lia. simpl.
  rewrite length_app, (proj2 (Z.ltb_ge _ _)) by lia.
  by rewrite Nat2Z.id, take_app_length, drop_app_length.
Qed.

(** *** The fields of a block *)

(** A node whose identifier is bytes and whose size is a number. *)
Definition node_ok (n : DagNode) : Prop := bytes_ok (node_cidBytes n) ∧ 0 ≤ node_tsize n.

Lemma pbLink_eq l : pbLink l = [10] ++ writeVarint [] (Z.of_nat (length (node_cidBytes l)))
  ++ node_cidBytes l ++ [18; 0; 24] ++ writeVarint [] (node_tsize l).
Proof.
  unfold pbLink. rewrite writeVarint_app, (writeVarint_app [10]), <- !(assoc_L (++)). done.
Qed.

Lemma readLink_pbLink l : 0 ≤ node_tsize l →
  readLink (pbLink l) = Some (node_cidBytes l, node_tsize l).
Proof.
  intros Hl. rewrite pbLink_eq. simpl. rewrite readBytes_then. simpl.
  rewrite <- (app_nil_r (writeVarint [] (node_tsize l))), varint_then by done. done.
Qed.

Lemma pbLink_ok l : node_ok l → bytes_ok (pbLink l).
Proof.
  intros [Hc Ht]. rewrite pbLink_eq. rewrite !Forall_app.
  repeat split; [|by apply varint_ok; lia|done| |by apply varint_ok];
    repeat constructor; unfold digit_of; lia.
Qed.

(** The bytes of a block before they are stored. *)
Definition pbBytes (links : list DagNode) (data : list Z) : list Z :=
  concat (map (λ l, [18] ++ writeVarint [] (Z.of_nat (length (pbLink l))) ++ pbLink l) links)
  ++ [10] ++ writeVarint [] (Z.of_nat (length data)) ++ data.

Lemma foldl_concat {A B} (f : A → list B) (l : list A) acc :
  foldl (λ out x, out ++ f x) acc l = acc ++ concat (map f l).
Proof.
  revert acc. induction l as [|x l IH]; intros acc; simpl; [by rewrite app_nil_r|].
  by rewrite IH, (assoc_L (++)).
Qed.

Lemma foldl_ext_eq {A B} (f g : B → A → B) (l : list A) acc :
  (∀ b a, f b a = g b a) → foldl f acc l = foldl g acc l.
Proof.
  intros Hfg. revert acc. induction l as [|x l IH]; intros acc; simpl; [done|].
  by rewrite Hfg.
Qed.

Lemma Uint8Array_from_id l : bytes_ok l → Uint8Array_from l = l.
Proof.
  unfold Uint8Array_from. induction 1 as [|b l Hb _ IH]; simpl; [done|].
  rewrite IH, Z.mod_small; [done|exact Hb].
Qed.

Lemma Uint8Array_from_ok l : bytes_ok (Uint8Array_from l).
Proof.
  unfold Uint8Array_from. apply Forall_map, Forall_true. intros b.
  apply Z.mod_pos_bound. lia.
Qed.

Lemma pbBytes_ok links data : Forall node_ok links → bytes_ok data →
  bytes_ok (pbBytes links data).
Proof.
  intros Hl Hd. unfold pbBytes. rewrite !Forall_app. repeat split.
  - induction Hl as [|l links Hl _ IH]; simpl; [constructor|].
    constructor; [unfold digit_of; lia|]. rewrite !Forall_app.
    repeat split; [apply varint_ok; lia|by apply pbLink_ok|done].
  - repeat constructor; unfold digit_of; lia.
  - apply varint_ok. lia.
  - done.
Qed.

Lemma encodePBNode_eq links data :
  Forall node_ok links → bytes_ok data → data ≠ [] →
  encodePBNode links data = pbBytes links data.
Proof.
  intros Hl Hok Hd. unfold encodePBNode.
  rewrite (foldl_ext_eq _ (λ out l, out ++ ([18]
    ++ writeVarint [] (Z.of_nat (length (pbLink l))) ++ pbLink l))).
  2:{ intros out l. by rewrite writeVarint_app, <- !(assoc_L (++)). }
  rewrite foldl_concat. rewrite (proj2 (Z.ltb_lt 0 _)).
  2:{ destruct data; [done|]. simpl. lia. }
  rewrite writeVarint_app, <- !(assoc_L (++)).
  apply Uint8Array_from_id. by apply pbBytes_ok.
Qed.

Lemma readPB_pbBytes fuel links data :
  Forall node_ok links → (length links ≤ fuel)%nat →
  readPB fuel (pbBytes links data)
  = Some (map (λ l, (node_cidBytes l, node_tsize l)) links, data).
Proof.
  intros Hl. revert fuel. induction Hl as [|l links Hl _ IH]; intros fuel Hf.
  - unfold pbBytes. simpl. rewrite <- (app_nil_r data) at 2.
    destruct fuel; simpl; by rewrite readBytes_then.
  - destruct fuel as [|fuel]; [simpl in Hf; lia|].
    unfold pbBytes. cbn [map concat]. rewrite <- !(assoc_L (++)).
    change (readPB (S fuel) ([18] ++ ?x)) with
      (readPB (S fuel) (18 :: x)). cbn [app readPB].
    rewrite readBytes_then. cbn [mbind option_bind].
    rewrite readLink_pbLink by apply Hl. cbn [mbind option_bind].
    specialize (IH fuel). unfold pbBytes in IH. cbn [app] in IH.
    rewrite IH by (simpl in Hf; lia). done.
Qed.

Lemma readPB_fuel fuel more l r : readPB fuel l = Some r → readPB (fuel + more) l = Some r.
Proof.
  revert l r. induction fuel as [|fuel IH]; intros l r Hr.
  - destruct l as [|b l]; [done|]. simpl in Hr.
    destruct (decide (b = 10)) as [->|]; [by destruct more|]. repeat (case_match; try done).
  - destruct l as [|b l]; [done|]. cbn [Nat.add].
    destruct (decide (b = 18)) as [->|].
    + cbn [readPB] in *. destruct (readBytes l) as [[link l']|]; [|done].
      cbn [mbind option_bind] in *. destruct (readLink link); [|done].
      cbn [mbind option_bind] in *. destruct (readPB fuel l') as [p'|] eqn:E; [|done].
      by rewrite (IH _ _ E).
    + cbn [readPB] in *. repeat (case_match; try done).
Qed.

(** *** The sizes in a file node *)

Lemma unixfsFileData_eq fileSize sizes :
  unixfsFileData fileSize sizes = [8; 2; 24] ++ writeVarint [] fileSize
    ++ concat (map (λ bs, [32] ++ writeVarint [] bs) sizes).
Proof.
  unfold unixfsFileData.
  rewrite (foldl_ext_eq _ (λ out bs, out ++ ([32] ++ writeVarint [] bs))).
  2:{ intros out bs. by rewrite writeVarint_app, <- (assoc_L (++)). }
  by rewrite foldl_concat, writeVarint_app, <- (assoc_L (++)).
Qed.

Lemma unixfsFileData_ok fileSize sizes :
  0 ≤ fileSize → Forall (Z.le 0) sizes → bytes_ok (unixfsFileData fileSize sizes).
Proof.
  intros Hf Hs. rewrite unixfsFileData_eq, !Forall_app. repeat split.
  - repeat constructor; unfold digit_of; lia.
  - by apply varint_ok.
  - induction Hs as [|bs sizes Hb _ IH]; simpl; [constructor|].
    constructor; [unfold digit_of; lia|]. apply Forall_app. by split; [apply varint_ok|].
Qed.

Lemma readSizes_then fuel sizes : Forall (Z.le 0) sizes → (length sizes ≤ fuel)%nat →
  readSizes fuel (concat (map (λ bs, [32] ++ writeVarint [] bs) sizes)) = Some sizes.
Proof.
  intros Hs. revert fuel. induction Hs as [|bs sizes Hb _ IH]; intros fuel Hf.
  - by destruct fuel.
  - destruct fuel as [|fuel]; [simpl in Hf; lia|]. cbn [map concat app readSizes].
    rewrite varint_then by done. simpl. by rewrite IH by (simpl in Hf; lia).
Qed.

Lemma readFileData_then fileSize sizes : 0 ≤ fileSize → Forall (Z.le 0) sizes →
  readFileData (unixfsFileData fileSize sizes) = Some (fileSize, sizes).
Proof.
  intros Hf Hs. rewrite unixfsFileData_eq. cbn [app readFileData].
  rewrite varint_then by done. simpl. rewrite readSizes_then; [done|done|].
  clear Hs. induction sizes as [|bs sizes IH]; simpl; [lia|].
  rewrite length_app. simpl in IH. lia.
Qed.

(** ** Theorems *)

(** C38.  [base32Lower] is positional: although its accumulator wraps at 32 bits, the
    text is that of the digits, in base 32, of the number the bytes are in base
    256, with fewer than five bits of padding; and no other bytes have that
    text. *)
Theorem base32Lower_digits bytes : bytes_ok bytes →
  (∃ ds pad, base32Lower bytes = b32Text ds ∧ Forall (digit_of 32) ds ∧ 0 ≤ pad < 5 ∧
    5 * Z.of_nat (length ds) = 8 * Z.of_nat (length bytes) + pad ∧
    number 32 ds = number 256 bytes * 2 ^ pad) ∧
  ∀ others, bytes_ok others → base32Lower others = base32Lower bytes → others = bytes.
Proof.
  intros Hok. split; [by apply base32Lower_text|].
  intros others Ho Heq. by apply base32Lower_inj.
Qed.

Lemma base32Lower_digits_witness :
  base32Lower [222; 173; 190; 239; 1] = "32w353yb" ∧
  ∀ others, bytes_ok others → base32Lower others = "32w353yb" → others = [222; 173; 190; 239; 1].
Proof.
  split; [vm_compute; reflexivity|]. intros others Ho Heq.
  apply (base32Lower_digits [222; 173; 190; 239; 1]); [|done|exact Heq].
  repeat constructor; discriminate.
Defined.

(** A block is bytes and is read back: the identifiers and sizes of its links,
    in order, then its data, in which the length of the file and of the parts is
    read back. *)
Theorem encodePBNode_roundtrip links fileSize sizes :
  Forall node_ok links → 0 ≤ fileSize → Forall (Z.le 0) sizes →
  let data := unixfsFileData fileSize sizes in
  let block := encodePBNode links data in
  bytes_ok block ∧
  readPB (length links) block = Some (map (λ l, (node_cidBytes l, node_tsize l)) links, data) ∧
  readFileData data = Some (fileSize, sizes).
Proof.
  intros Hl Hf Hs data block. split; [apply Uint8Array_from_ok|]. split.
  - unfold block. rewrite encodePBNode_eq; [by apply readPB_pbBytes|done|..].
    + by apply unixfsFileData_ok.
    + unfold data. by rewrite unixfsFileData_eq.
  - by apply readFileData_then.
Qed.

Lemma encodePBNode_roundtrip_witness :
  let links := [ {| node_cidBytes := [1; 85; 255]; node_tsize := 262144; node_fileSize := 262144 |};
                 {| node_cidBytes := [1; 85; 0]; node_tsize := 5; node_fileSize := 5 |} ] in
  let data := unixfsFileData 262149 [262144; 5] in
  readPB 2 (encodePBNode links data) = Some ([([1; 85; 255], 262144); ([1; 85; 0], 5)], data)
  ∧ readFileData data = Some (262149, [262144; 5]).
Proof.
  cbn zeta. apply (encodePBNode_roundtrip
    [ {| node_cidBytes := [1; 85; 255]; node_tsize := 262144; node_fileSize := 262144 |};
      {| node_cidBytes := [1; 85; 0]; node_tsize := 5; node_fileSize := 5 |} ] 262149 [262144; 5]).
  - repeat constructor; discriminate.
  - discriminate.
  - repeat constructor; discriminate.
Defined.
