(* ===== verification/ContentTreeProofs.v ===== *)
(** * The identifier of a file is the root of its tree

    The reference is a tree of the chunks of a file: what a node stands for, the
    blocks it is made of, its identifier.  [hashV1] returns the identifier of
    such a tree, and two files with one identifier show two blocks with one
    digest.

    At the end, the digest that [ContentHash] takes as a parameter, SHA-256 as FIPS
    180-4 defines it for a text of whole bytes: with it the identifiers of small files
    are those that [sites/packages/data/src/lib/catalyst/hashing.test.ts] expects. *)

From Stdlib Require Import Ascii.
From S2P Require Import Prelude JsString ContentHash ContentHashProofs.
Open Scope string_scope.
Open Scope list_scope.
Open Scope Z_scope.

(** ** Cutting an array *)

Section slices.
Context {A : Type}.
Implicit Types (l : list A).

Lemma slices_cons fuel k l : l ≠ [] →
  slices (S fuel) k l = take k l :: slices fuel k (drop k l).
Proof. by destruct l. Qed.

(** Induction over the slices of an array. *)
Lemma slices_ind k (P : list A → list (list A) → Prop) :
  (1 ≤ k)%nat → P [] [] →
  (∀ l ls, l ≠ [] → P (drop k l) ls → P l (take k l :: ls)) →
  ∀ fuel l, (length l ≤ fuel)%nat → P l (slices fuel k l).
Proof.
  intros Hk H0 HS fuel. induction fuel as [|fuel IH]; intros l Hl.
  - destruct l; [done|]. simpl in Hl. lia.
  - destruct (decide (l = [])) as [->|Hne]; [done|].
    rewrite slices_cons by done. apply HS; [done|]. apply IH.
    rewrite length_drop. lia.
Qed.

Lemma slices_concat fuel k l : (1 ≤ k)%nat → (length l ≤ fuel)%nat →
  concat (slices fuel k l) = l.
Proof.
  intros Hk. apply (slices_ind k (λ l ls, concat ls = l)); [done..|].
  intros l' ls _ IH. simpl. by rewrite IH, take_drop.
Qed.

Lemma slices_bounds fuel k l : (1 ≤ k)%nat → (length l ≤ fuel)%nat →
  Forall (λ s, (1 ≤ length s ≤ k)%nat) (slices fuel k l).
Proof.
  intros Hk. apply (slices_ind k (λ _ ls, Forall (λ s, (1 ≤ length s ≤ k)%nat) ls));
    [done|constructor|].
  intros l' ls Hne IH. constructor; [|done]. rewrite length_take.
  destruct l'; [done|]. simpl. lia.
Qed.

(** There are fewer slices than elements, unless there is one. *)
Lemma slices_fewer fuel k l : (2 ≤ k)%nat → (length l ≤ fuel)%nat →
  (2 * length (slices fuel k l) ≤ length l + 1)%nat ∧ (l ≠ [] → slices fuel k l ≠ []).
Proof.
  intros Hk. apply (slices_ind k (λ l ls,
    (2 * length ls ≤ length l + 1)%nat ∧ (l ≠ [] → ls ≠ []))); [lia|simpl; split; [lia|done]|].
  intros l' ls Hne [IH IH']. split; [|done]. simpl. rewrite length_drop in IH.
  destruct l' as [|x [|y l']]; [done| |simpl in *; lia].
  assert (drop k [x] = []) as Hd by (apply drop_ge; simpl; lia). rewrite Hd in IH'.
  simpl in *. lia.
Qed.
End slices.

Lemma slices_map {A B} (f : A → B) fuel k (l : list A) :
  slices fuel k (map f l) = map (map f) (slices fuel k l).
Proof.
  revert l. induction fuel as [|fuel IH]; intros [|x l]; [done..|].
  cbn [slices map]. change (f x :: map f l) with (map f (x :: l)).
  rewrite <- IH, <- skipn_map, <- firstn_map. done.
Qed.

Lemma chunk_size_pos : (1 ≤ Z.to_nat CHUNK_SIZE_BYTES)%nat.
Proof. unfold CHUNK_SIZE_BYTES. lia. Qed.

Lemma fanout_pos : (2 ≤ Z.to_nat MAX_CHILDREN_PER_NODE)%nat.
Proof. unfold MAX_CHILDREN_PER_NODE. lia. Qed.

(** ** Trees of chunks *)

#[warnings="-register-all"]
Inductive Dag :=
  | Leaf (chunk : list Z)
  | Node (children : list Dag).

Section Dag_ind.
Variable P : Dag → Prop.
Hypothesis HLeaf : ∀ c, P (Leaf c).
Hypothesis HNode : ∀ ds, Forall P ds → P (Node ds).

Fixpoint Dag_nested_ind (d : Dag) : P d :=
  match d with
  | Leaf c => HLeaf c
  | Node ds => HNode ds
      ((fix go ds := match ds return Forall P ds with
        | [] => Forall_nil_2 _
        | d :: ds => Forall_cons_2 _ _ _ (Dag_nested_ind d) (go ds)
        end) ds)
  end.
End Dag_ind.

(** The bytes a tree stands for. *)
Fixpoint content (d : Dag) : list Z :=
  match d with
  | Leaf c => c
  | Node ds => concat (map content ds)
  end.

(** All nodes of a tree. *)
Fixpoint subtrees (d : Dag) : list Dag :=
  d :: match d with
       | Leaf _ => []
       | Node ds => concat (map subtrees ds)
       end.

(** The tree of a level: nodes of the next level, until there is one. *)
Fixpoint grow (fuel : nat) (level : list Dag) : Dag :=
  match fuel with
  | O => Node level
  | S fuel =>
      match map Node (levelBatches level) with
      | [root] => root
      | next => grow fuel next
      end
  end.

(** The tree of a file. *)
Definition dagOf (bytes : list Z) : Dag :=
  if Z.of_nat (length bytes) <=? CHUNK_SIZE_BYTES then Leaf bytes
  else grow (length (chunks bytes)) (map Leaf (chunks bytes)).

(** Chunks have at most [CHUNK_SIZE_BYTES] bytes and nodes between one child and
    [MAX_CHILDREN_PER_NODE]. *)
Definition node_fits (d : Dag) : Prop :=
  match d with
  | Leaf c => Z.of_nat (length c) ≤ CHUNK_SIZE_BYTES
  | Node ds => 1 ≤ Z.of_nat (length ds) ≤ MAX_CHILDREN_PER_NODE
  end.

Lemma subtrees_self d : d ∈ subtrees d.
Proof. destruct d; simpl; set_solver. Qed.

Lemma subtrees_child d ds e : d ∈ ds → e ∈ subtrees d → e ∈ subtrees (Node ds).
Proof.
  intros Hd He. simpl. right. apply list_elem_of_In, in_concat.
  exists (subtrees d). split; [|by apply list_elem_of_In].
  apply in_map. by apply list_elem_of_In.
Qed.

(** A level that is reduced: the tree has the content and the nodes of the level,
    and nodes that fit. *)
Lemma grow_spec fuel level : (1 ≤ length level ≤ fuel)%nat →
  Forall (λ d, Forall node_fits (subtrees d)) level →
  let root := grow fuel level in
  content root = concat (map content level) ∧ Forall node_fits (subtrees root).
Proof.
  pose proof fanout_pos as Hk.
  revert level. induction fuel as [|fuel IH]; intros level Hl Hfit; [lia|]. cbn zeta.
  cbn [grow]. destruct (slices_fewer (length level) (Z.to_nat MAX_CHILDREN_PER_NODE) level Hk)
    as [Hfew Hsome]; [done|].
  assert (concat (levelBatches level) = level) as Hcat by (apply slices_concat; lia).
  assert (Forall (λ d, Forall node_fits (subtrees d)) (map Node (levelBatches level))) as Hfit'.
  { apply Forall_map. pose proof (slices_bounds (length level) (Z.to_nat MAX_CHILDREN_PER_NODE)
      level ltac:(lia) ltac:(done)) as Hb. fold (levelBatches level) in Hb.
    rewrite Forall_forall in Hb. apply Forall_forall. intros b Hin. simpl. constructor.
    { specialize (Hb b Hin). simpl. lia. }
    apply Forall_concat, Forall_map. rewrite <- Hcat in Hfit.
    apply Forall_forall. intros d Hd. rewrite Forall_forall in Hfit. apply Hfit.
    apply list_elem_of_In, in_concat. exists b. by split; apply list_elem_of_In. }
  assert (concat (map content (map Node (levelBatches level))) = concat (map content level)) as Hcont.
  { rewrite <- Hcat at 2. rewrite concat_map, map_map. simpl.
    generalize (levelBatches level). clear. induction l as [|b l IH]; simpl; [done|].
    by rewrite concat_app, IH. }
  fold (levelBatches level) in Hfew, Hsome.
  destruct (levelBatches level) as [|b [|b' bs]] eqn:E.
  { exfalso. destruct level; [simpl in Hl; lia|]. by apply Hsome. }
  { simpl in Hcont |- *. rewrite app_nil_r in Hcont. split; [done|].
    by inversion Hfit'. }
  cbn [map]. rewrite <- Hcont. apply IH; [|done]. simpl in *. rewrite length_map. lia.
Qed.

(** The tree of a file holds the file, in nodes that fit. *)
Lemma dagOf_spec bytes :
  content (dagOf bytes) = bytes ∧ Forall node_fits (subtrees (dagOf bytes)).
Proof.
  unfold dagOf. destruct (Z.leb_spec (Z.of_nat (length bytes)) CHUNK_SIZE_BYTES) as [|Hlen].
  { split; [done|]. by repeat constructor. }
  pose proof chunk_size_pos as Hk.
  assert (concat (chunks bytes) = bytes) as Hcat by (apply slices_concat; done).
  pose proof (slices_bounds (length bytes) (Z.to_nat CHUNK_SIZE_BYTES) bytes
    Hk ltac:(done)) as Hb. fold (chunks bytes) in Hb.
  destruct (grow_spec (length (chunks bytes)) (map Leaf (chunks bytes))) as [Hc Hf].
  - rewrite length_map. split; [|done]. destruct (chunks bytes); [|simpl; lia].
    simpl in Hcat. subst bytes. simpl in Hlen. unfold CHUNK_SIZE_BYTES in Hlen. lia.
  - apply Forall_map. eapply Forall_impl; [exact Hb|]. intros c Hlc. simpl.
    repeat constructor. simpl. unfold CHUNK_SIZE_BYTES in *. lia.
  - split; [|done]. rewrite Hc, map_map. simpl. by rewrite map_id.
Qed.

(** ** Identifiers of trees *)

Section identifiers.
Context (digest : list Z → list Z).

(** What [sha256] makes of a block. *)
Definition sha (block : list Z) : list Z := Uint8Array_from (digest block).

(** The entry for a tree in its parent, as [reduceBatch] makes it of those of
    the children. *)
Fixpoint node_of (d : Dag) : DagNode :=
  match d with
  | Leaf c =>
      {| node_cidBytes := cidBytes CODEC_RAW (sha c);
         node_tsize := Z.of_nat (length c); node_fileSize := Z.of_nat (length c) |}
  | Node ds =>
      let links := map node_of ds in
      let sizes := map node_fileSize links in
      let block := encodePBNode links (unixfsFileData (foldl Z.add 0 sizes) sizes) in
      {| node_cidBytes := cidBytes CODEC_DAG_PB (sha block);
         node_tsize := foldl (λ t n, t + node_tsize n) (Z.of_nat (length block)) links;
         node_fileSize := foldl Z.add 0 sizes |}
  end.

(** The block of a node: what is hashed. *)
Definition block (d : Dag) : list Z :=
  match d with
  | Leaf c => c
  | Node ds =>
      let links := map node_of ds in
      let sizes := map node_fileSize links in
      encodePBNode links (unixfsFileData (foldl Z.add 0 sizes) sizes)
  end.

Definition blocks (d : Dag) : list (list Z) := map block (subtrees d).

(** The identifier of a tree. *)
Definition cidOf (d : Dag) : string := "b" +:+ base32Lower (node_cidBytes (node_of d)).

(** *** What the entries say *)

Lemma foldl_shift {A} (f : A → Z) l a : foldl (λ t x, t + f x) a l = a + foldl (λ t x, t + f x) 0 l.
Proof.
  revert a. induction l as [|x l IH]; intros a; simpl; [lia|].
  rewrite IH, (IH (0 + f x)). lia.
Qed.

Lemma foldl_add_shift (l : list Z) a : foldl Z.add a l = a + foldl Z.add 0 l.
Proof. exact (foldl_shift id l a). Qed.

Lemma node_fileSize_content d : node_fileSize (node_of d) = Z.of_nat (length (content d)).
Proof.
  induction d as [c|ds IH] using Dag_nested_ind; [done|]. cbn [node_of node_fileSize content].
  induction IH as [|d ds Hd _ IH]; [done|]. cbn [map foldl concat].
  rewrite foldl_add_shift, IH, length_app, Hd. lia.
Qed.

Lemma blocks_cons d :
  blocks d = block d :: match d with
    | Leaf _ => []
    | Node ds => concat (map blocks ds)
    end.
Proof.
  unfold blocks. destruct d as [c|ds]; [done|]. cbn [subtrees map]. f_equal.
  by rewrite concat_map, map_map.
Qed.

Lemma node_tsize_blocks d :
  node_tsize (node_of d) = Z.of_nat (length (concat (blocks d))).
Proof.
  induction d as [c|ds IH] using Dag_nested_ind.
  { cbn [blocks subtrees map concat]. by rewrite app_nil_r. }
  rewrite blocks_cons. cbn [concat]. rewrite length_app, Nat2Z.inj_add.
  cbn [node_of node_tsize]. rewrite foldl_shift. f_equal.
  induction IH as [|d ds Hd _ IH]; [done|]. cbn [map foldl concat].
  rewrite foldl_shift, concat_app, length_app, Hd, IH. lia.
Qed.

Lemma node_of_ok d : node_ok (node_of d).
Proof.
  split; [|rewrite node_tsize_blocks; lia].
  assert (∀ codec bs, digit_of 256 codec → bytes_ok (cidBytes codec (sha bs))) as Hc.
  { intros codec bs Hcodec. unfold cidBytes. rewrite Forall_app. split.
    - repeat constructor; unfold digit_of in *; lia.
    - apply Uint8Array_from_ok. }
  destruct d; apply Hc; unfold digit_of, CODEC_RAW, CODEC_DAG_PB; lia.
Qed.

Lemma nodes_ok ds : Forall node_ok (map node_of ds).
Proof. apply Forall_map, Forall_true, node_of_ok. Qed.

Lemma sizes_nonneg ds : Forall (Z.le 0) (map node_fileSize (map node_of ds)).
Proof.
  rewrite map_map. apply Forall_map, Forall_true. intros d.
  rewrite node_fileSize_content. lia.
Qed.

Lemma foldl_nonneg l a : 0 ≤ a → Forall (Z.le 0) l → 0 ≤ foldl Z.add a l.
Proof. intros Ha Hl. revert a Ha. induction Hl; intros a Ha; simpl; [done|]. apply IHHl. lia. Qed.

(** The block of a node is read back: the identifiers and sizes of its children,
    and how much of the file each one holds. *)
Lemma block_read ds :
  ∃ data, readPB (length ds) (block (Node ds))
    = Some (map (λ d, (node_cidBytes (node_of d), node_tsize (node_of d))) ds, data) ∧
  readFileData data = Some (Z.of_nat (length (content (Node ds))),
                            map (λ d, Z.of_nat (length (content d))) ds).
Proof.
  eexists. cbn [block]. rewrite encodePBNode_eq.
  - rewrite readPB_pbBytes; [|apply nodes_ok|by rewrite length_map].
    rewrite map_map. split; [done|].
    rewrite readFileData_then; [|by apply foldl_nonneg, sizes_nonneg|apply sizes_nonneg].
    f_equal. f_equal.
    + exact (node_fileSize_content (Node ds)).
    + rewrite map_map. apply map_ext, node_fileSize_content.
  - apply nodes_ok.
  - apply unixfsFileData_ok; [|apply sizes_nonneg]. by apply foldl_nonneg, sizes_nonneg.
  - rewrite unixfsFileData_eq. done.
Qed.

(** *** Two trees with one identifier *)

(** Two blocks among [bs] with one digest. *)
Definition collision (bs : list (list Z)) : Prop :=
  ∃ x y, x ∈ bs ∧ y ∈ bs ∧ x ≠ y ∧ sha x = sha y.

Definition collision_free (bs : list (list Z)) : Prop :=
  ∀ x y, x ∈ bs → y ∈ bs → sha x = sha y → x = y.

Lemma collision_or_free bs : collision bs ∨ collision_free bs.
Proof.
  destruct (decide (Exists (λ x, Exists (λ y, x ≠ y ∧ sha x = sha y) bs) bs)) as [Hc|Hc].
  - left. apply Exists_exists in Hc as (x & Hx & Hc).
    apply Exists_exists in Hc as (y & Hy & Hne & Heq). by exists x, y.
  - right. intros x y Hx Hy Heq. destruct (decide (x = y)) as [|Hne]; [done|].
    exfalso. apply Hc. apply Exists_exists. exists x. split; [done|].
    apply Exists_exists. by exists y.
Qed.

Lemma block_in d : block d ∈ blocks d.
Proof. rewrite blocks_cons. set_solver. Qed.

Lemma blocks_child d ds : d ∈ ds → blocks d ⊆ blocks (Node ds).
Proof.
  intros Hd x Hx. rewrite blocks_cons. right. apply list_elem_of_In, in_concat.
  exists (blocks d). split; [|by apply list_elem_of_In]. apply in_map. by apply list_elem_of_In.
Qed.

(** The identifier of a tree is that of its block. *)
Lemma node_cid d : node_cidBytes (node_of d) =
  cidBytes (match d with Leaf _ => CODEC_RAW | Node _ => CODEC_DAG_PB end) (sha (block d)).
Proof. by destruct d. Qed.

Lemma cid_content bs d d' : collision_free bs → blocks d ⊆ bs → blocks d' ⊆ bs →
  node_cidBytes (node_of d) = node_cidBytes (node_of d') → content d = content d'.
Proof.
  intros Hcf. revert d'. induction d as [c|ds IH] using Dag_nested_ind;
    intros [c'|ds'] Hd Hd' Heq; rewrite !node_cid in Heq; [|discriminate Heq..|].
  - injection Heq as Heq. apply (Hcf c c'); [apply Hd, (block_in (Leaf c))| |done].
    apply Hd', (block_in (Leaf c')).
  - injection Heq as Heq.
    assert (block (Node ds) = block (Node ds')) as Hb.
    { apply Hcf; [by apply Hd, block_in|by apply Hd', block_in|done]. }
    destruct (block_read ds) as (data & Hr & _), (block_read ds') as (data' & Hr' & _).
    assert (map (λ d, node_cidBytes (node_of d)) ds = map (λ d, node_cidBytes (node_of d)) ds')
      as Hcids.
    { rewrite Hb in Hr. apply (readPB_fuel _ (length ds')) in Hr.
      apply (readPB_fuel _ (length ds)) in Hr'. rewrite Nat.add_comm, Hr in Hr'.
      injection Hr' as Hl _. apply (f_equal (map fst)) in Hl.
      rewrite !map_map in Hl. exact Hl. }
    assert (Forall (λ d, blocks d ⊆ bs) ds) as Hds.
    { apply Forall_forall. intros d Hin. etrans; [by apply blocks_child|done]. }
    assert (Forall (λ d, blocks d ⊆ bs) ds') as Hds'.
    { apply Forall_forall. intros d Hin. etrans; [by apply blocks_child|done]. }
    clear -IH Hcids Hds Hds'. simpl. f_equal. revert ds' Hcids Hds'.
    induction IH as [|d ds Hd _ IH]; intros [|d' ds'] Hcids Hds'; [done|discriminate..|].
    inversion Hds; inversion Hds'; subst. simpl in Hcids. injection Hcids as Hc1 Hc2.
    simpl. f_equal; [by apply Hd|by apply IH].
Qed.

Lemma cidOf_content d d' : cidOf d = cidOf d' →
  content d = content d' ∨ collision (blocks d ++ blocks d').
Proof.
  intros Heq. destruct (collision_or_free (blocks d ++ blocks d')) as [|Hcf]; [by right|left].
  apply (cid_content (blocks d ++ blocks d')); [done|set_solver..|].
  apply app_inj_r in Heq. by apply base32Lower_inj in Heq; [|apply node_of_ok..].
Qed.

(** ** [hashV1] computes the identifier of the tree *)

Section hashV1.
Context `{WebCrypto} (Hdigest : subtle_digest = Some digest).

Lemma sha256_ok bytes : sha256 bytes = Ok (sha bytes).
Proof. unfold sha256, getSubtle. by rewrite Hdigest. Qed.

Lemma mapM_ok {A B} (f : A → Res B) (g : A → B) l :
  (∀ x, f x = Ok (g x)) → mapM f l = Ok (map g l).
Proof.
  intros Hf. induction l as [|x l IH]; simpl; [done|]. rewrite Hf. simpl. by rewrite IH.
Qed.

Lemma leafNode_ok chunk : leafNode chunk = Ok (node_of (Leaf chunk)).
Proof. unfold leafNode. by rewrite sha256_ok. Qed.

Lemma reduceBatch_ok ds : reduceBatch (map node_of ds) = Ok (node_of (Node ds)).
Proof. unfold reduceBatch. by rewrite sha256_ok. Qed.

Lemma reduceLevels_grow fuel level : (1 ≤ length level ≤ fuel)%nat →
  reduceLevels fuel (map node_of level) = Ok (Some (node_of (grow fuel level))).
Proof.
  pose proof fanout_pos as Hk.
  revert level. induction fuel as [|fuel IH]; intros level Hl; [lia|].
  cbn [reduceLevels grow]. unfold levelBatches at 1.
  rewrite slices_map, length_map. fold (levelBatches level).
  assert (mapM reduceBatch (map (map node_of) (levelBatches level))
    = Ok (map node_of (map Node (levelBatches level)))) as Hnext.
  { generalize (levelBatches level). clear -Hdigest. induction l as [|b l IH]; [done|].
    cbn [map mapM]. rewrite reduceBatch_ok. cbn [mbind Res_bind]. by rewrite IH. }
  rewrite Hnext. cbn [mbind Res_bind].
  destruct (slices_fewer (length level) (Z.to_nat MAX_CHILDREN_PER_NODE) level Hk)
    as [Hfew Hsome]; [done|]. fold (levelBatches level) in Hfew, Hsome.
  destruct (levelBatches level) as [|b [|b' bs]] eqn:E; [|done|].
  - exfalso. destruct level; [simpl in Hl; lia|]. by apply Hsome.
  - apply (IH (map Node (b :: b' :: bs))). rewrite length_map. simpl in *. lia.
Qed.

Lemma hashV1_cidOf bytes : hashV1 bytes = Ok (Some (cidOf (dagOf bytes))).
Proof.
  unfold hashV1, dagOf.
  destruct (Z.leb_spec (Z.of_nat (length bytes)) CHUNK_SIZE_BYTES) as [|Hlen].
  { unfold hashV1Raw. by rewrite sha256_ok. }
  rewrite (mapM_ok leafNode (λ c, node_of (Leaf c))) by apply leafNode_ok.
  cbn [mbind Res_bind]. rewrite length_map, <- (map_map Leaf node_of).
  rewrite reduceLevels_grow; [done|]. rewrite length_map. split; [|done].
  pose proof (slices_concat (length bytes) (Z.to_nat CHUNK_SIZE_BYTES) bytes
    chunk_size_pos ltac:(done)) as Hcat. fold (chunks bytes) in Hcat.
  destruct (chunks bytes); [|simpl; lia].
  simpl in Hcat. subst bytes. simpl in Hlen. unfold CHUNK_SIZE_BYTES in Hlen. lia.
Qed.
End hashV1.
End identifiers.

(** ** Theorems *)

(** C11.  Where [crypto.subtle] is available, [hashV1] returns whatever the file,
    and what it returns is the identifier of a tree that holds exactly the file,
    in chunks of at most [CHUNK_SIZE_BYTES] bytes and nodes of one to
    [MAX_CHILDREN_PER_NODE] children; the root says the length of the file and the
    length of all the blocks of the tree.  Where it is not, [hashV1] of any file
    rejects with the error that says so. *)
Theorem hashV1_merkle `{WebCrypto} bytes :
  match subtle_digest with
  | Some digest =>
      let tree := dagOf bytes in
      hashFile bytes = Ok (Some (cidOf digest tree)) ∧
      content tree = bytes ∧ Forall node_fits (subtrees tree) ∧
      node_fileSize (node_of digest tree) = Z.of_nat (length bytes) ∧
      node_tsize (node_of digest tree) = Z.of_nat (length (concat (blocks digest tree)))
  | None =>
      hashFile bytes
      = Throw (JsError "hashing: WebCrypto crypto.subtle is unavailable in this runtime")
  end.
Proof.
  destruct subtle_digest as [digest|] eqn:Hdigest; cbn zeta.
  - destruct (dagOf_spec bytes) as [Hc Hf].
    repeat split; [by apply hashV1_cidOf|done|done| |apply node_tsize_blocks].
    by rewrite node_fileSize_content, Hc.
  - unfold hashFile, hashV1. case_match eqn:Hlen.
    + unfold hashV1Raw, sha256, getSubtle. by rewrite Hdigest.
    + destruct (chunks bytes) as [|c cs] eqn:E.
      * pose proof (slices_concat (length bytes) (Z.to_nat CHUNK_SIZE_BYTES) bytes
          chunk_size_pos ltac:(done)) as Hcat. fold (chunks bytes) in Hcat.
        rewrite E in Hcat. simpl in Hcat. subst bytes. discriminate Hlen.
      * assert (leafNode c = Throw (JsError
          "hashing: WebCrypto crypto.subtle is unavailable in this runtime")) as Hc.
        { unfold leafNode, sha256, getSubtle. by rewrite Hdigest. }
        cbn [mapM]. by rewrite Hc.
Qed.

(** C17.  Identifiers bind: two different files with the same identifier show a
    collision of the digest, two different blocks of their trees with one digest.
    So files hash apart as long as no collision of SHA-256 is met. *)
Theorem hashV1_binding `{WebCrypto} digest a b :
  subtle_digest = Some digest → a ≠ b → hashFile a = hashFile b →
  ∃ x y, x ∈ blocks digest (dagOf a) ++ blocks digest (dagOf b) ∧
    y ∈ blocks digest (dagOf a) ++ blocks digest (dagOf b) ∧
    x ≠ y ∧ sha digest x = sha digest y.
Proof.
  intros Hdigest Hne Heq. unfold hashFile in Heq.
  rewrite !(hashV1_cidOf digest Hdigest) in Heq. injection Heq as Heq.
  destruct (cidOf_content digest (dagOf a) (dagOf b)) as [Hc|Hc]; [exact (f_equal _ Heq)| |done].
  destruct Hne. rewrite <- (proj1 (dagOf_spec a)), <- (proj1 (dagOf_spec b)). done.
Qed.

(** A digest that forgets everything but the length: files of one length collide. *)
Lemma hashV1_binding_witness :
  let digest := λ l : list Z, [Z.of_nat (length l)] in
  let H := {| subtle_digest := Some digest |} in
  hashFile [1; 2] = hashFile [2; 1] ∧
  ∃ x y, x ∈ [[1; 2]; [2; 1]] ∧ y ∈ [[1; 2]; [2; 1]] ∧ x ≠ y ∧ sha digest x = sha digest y.
Proof.
  intros digest H. split; [vm_compute; reflexivity|].
  apply (hashV1_binding digest [1; 2] [2; 1]); [reflexivity|discriminate|vm_compute; reflexivity].
Defined.

Module Sha256.

Definition w32 (x : Z) : Z := Z.land x (Z.ones 32).
Definition rotr (n x : Z) : Z := Z.lor (Z.shiftr x n) (w32 (Z.shiftl x (32 - n))).
Definition xor3 (a b c : Z) : Z := Z.lxor a (Z.lxor b c).

(** The largest [r] whose cube is at most [n]: its [k] low bits, above [r]. *)
Fixpoint cube_root (k : nat) (r n : Z) : Z :=
  match k with
  | O => r
  | S k =>
      let r' := r + 2 ^ Z.of_nat k in
      cube_root k (if r' * r' * r' <=? n then r' else r) n
  end.

(** The primes of a list of candidates, in increasing order from 2. *)
Definition primes (candidates : list Z) : list Z :=
  foldl (λ ps n, if forallb (λ p, negb (n mod p =? 0)) ps then ps ++ [n] else ps) [] candidates.

Definition first_primes : list Z := primes (map (λ i, Z.of_nat i) (seq 2 310)).

(** 32 bits of the fractional parts of cube roots and square roots of primes. *)
Definition constants : list Z := map (λ p, w32 (cube_root 36 0 (p * 2 ^ 96))) first_primes.
Definition initial : list Z := map (λ p, w32 (Z.sqrt (p * 2 ^ 64))) (take 8 first_primes).

(** [n] bytes, most significant first. *)
Fixpoint bigEndian (n : nat) (x : Z) : list Z :=
  match n with
  | O => []
  | S n => bigEndian n (Z.shiftr x 8) ++ [Z.land x 255]
  end.

Fixpoint words (l : list Z) : list Z :=
  match l with
  | a :: b :: c :: d :: l => (((a * 256 + b) * 256 + c) * 256 + d) :: words l
  | _ => []
  end.

(** The message schedule: [window] is the last sixteen words. *)
Fixpoint schedule (n : nat) (window : list Z) : list Z :=
  match n with
  | O => []
  | S n =>
      let at_ i := nth i window 0 in
      let s0 := xor3 (rotr 7 (at_ 1%nat)) (rotr 18 (at_ 1%nat)) (Z.shiftr (at_ 1%nat) 3) in
      let s1 := xor3 (rotr 17 (at_ 14%nat)) (rotr 19 (at_ 14%nat)) (Z.shiftr (at_ 14%nat) 10) in
      let next := w32 (at_ 0%nat + s0 + at_ 9%nat + s1) in
      at_ 0%nat :: schedule n (drop 1 window ++ [next])
  end.

Definition round (st : list Z) (kw : Z * Z) : list Z :=
  match st with
  | [a; b; c; d; e; f; g; h] =>
      let s1 := xor3 (rotr 6 e) (rotr 11 e) (rotr 25 e) in
      let ch := Z.lxor (Z.land e f) (Z.land (Z.lxor e (Z.ones 32)) g) in
      let t1 := h + s1 + ch + kw.1 + kw.2 in
      let s0 := xor3 (rotr 2 a) (rotr 13 a) (rotr 22 a) in
      let maj := xor3 (Z.land a b) (Z.land a c) (Z.land b c) in
      [w32 (t1 + s0 + maj); a; b; c; w32 (d + t1); e; f; g]
  | _ => st
  end.

Definition compress (st block : list Z) : list Z :=
  zip_with (λ a b, w32 (a + b)) st
    (foldl round st (zip constants (schedule 64 (words block)))).

Definition padded (l : list Z) : list Z :=
  let n := Z.of_nat (length l) in
  l ++ [128] ++ replicate (Z.to_nat ((55 - n) mod 64)) 0 ++ bigEndian 8 (8 * n).

Definition digest (l : list Z) : list Z :=
  let p := padded l in
  concat (map (bigEndian 4) (foldl compress initial (slices (length p) 64 p))).

End Sha256.

(** A runtime with WebCrypto, and one without. *)
Definition withCrypto : WebCrypto := {| subtle_digest := Some Sha256.digest |}.
Definition withoutCrypto : WebCrypto := {| subtle_digest := None |}.

(** The bytes of an ASCII string. *)
Definition ascii_bytes (s : string) : list Z :=
  map (λ c, Z.of_N (Ascii.N_of_ascii c)) (String.list_ascii_of_string s).

(** The vectors of [hashing.test.ts]. *)
Example hash_empty : hashV1Raw (H := withCrypto) []
  = Ok "bafkreihdwdcefgh4dqkjv67uzcmw7ojee6xedzdetojuzjevtenxquvyku".
Proof. vm_compute. reflexivity. Qed.

Example hash_hello : hashV1 (H := withCrypto) (ascii_bytes "hello")
  = Ok (Some "bafkreibm6jg3ux5qumhcn2b3flc3tyu6dmlb4xa7u5bf44yegnrjhc4yeq").
Proof. vm_compute. reflexivity. Qed.

Example hash_braces : hashFile (H := withCrypto) (ascii_bytes "{}")
  = Ok (Some "bafkreicecnx2gvntm6fbcrvnc336qze6st5u7qq7457igegamd3bzkx7ri").
Proof. vm_compute. reflexivity. Qed.

Example hash_no_crypto : hashFile (H := withoutCrypto) (ascii_bytes "{}")
  = Throw (JsError "hashing: WebCrypto crypto.subtle is unavailable in this runtime").
Proof. vm_compute. reflexivity. Qed.
