(* ===== verification/EditorHistory.v ===== *)
(** * Undo and redo in the scene editor

    [ui3/src/editor/history.ts], the stacks of undo and redo, and the operations
    of the workspace that record in them: [ui3/src/editor/pages/DeWorkspace.tsx]
    (authoring and deleting components, deleting the selection, replaying) and
    [ui3/src/editor/pages/useEditorBusBridge.ts] (the end of a drag).

    A component's value is a value of JSON, of a type [V]; [undefined] is [None].
    The values of the cache are replaced and never written into, so a copy of one
    is equal to it.  The React state is updated at once.  A stack's top is the end
    of its list, as in the code's arrays. *)

From S2P Require Import Prelude JsString.
Open Scope string_scope.
Open Scope list_scope.
Open Scope Z_scope.

(** [JSON.parse], [None] when it throws, [JSON.stringify] on values that are JSON,
    and whether a value is an object or an array. *)
Class JsonText (V : Type) := {
  JSON_parse : string → option V;
  JSON_stringify : V → string;
  is_object : V → bool
}.

Class JsonTextLaws (V : Type) `{JsonText V} := {
  parse_stringify (v : V) : JSON_parse (JSON_stringify v) = Some v
}.

(** [stack.pop()]: the last entry and the rest, [undefined] when there is none. *)
Definition pop {A} (stack : list A) : option (A * list A) :=
  x ← last stack; Some (x, removelast stack).

(** ** The engine *)

Section history.
Context {V : Type}.

(** [HistoryEntry], ui3/src/editor/history.ts:1-6 *)
Record HistoryEntry := {
  he_entity : string;
  he_name : string;
  he_before : option V;
  he_after : option V
}.

(** [undoStack], [redoStack] and [suppress], ui3/src/editor/history.ts:27-29 *)
Record History := {
  undoStack : list (list HistoryEntry);
  redoStack : list (list HistoryEntry);
  suppress : bool
}.

#[export] Instance eta_History : Eta History := λ h, {|
  undoStack := undoStack h; redoStack := redoStack h; suppress := suppress h |}.

(** [createHistory] before its first call, ui3/src/editor/history.ts:27-29 *)
Definition newHistory : History := {| undoStack := []; redoStack := []; suppress := false |}.

(** [HISTORY_MAX_STEPS], ui3/src/editor/history.ts:20-20 *)
Definition HISTORY_MAX_STEPS : nat := 100.

(** [HistoryEngine.push], [undo], .. over what else the callbacks change. *)
Section engine.
Context {W : Type}.
Context (write : string → string → option V → M (History * W) unit).
Context (onChange : M (History * W) unit).
Context (maxSteps : nat).

Definition stacks (s : History * W) : History := s.1.
Definition modifyHistory (f : History → History) : M (History * W) unit :=
  modify (λ s, (f s.1, s.2)).

(** [notify], ui3/src/editor/history.ts:31-36 *)
Definition notifyChange : M (History * W) unit := catch onChange (λ _, mret tt).

(** [try { m } finally { f }], ui3/src/editor/history.ts:40-46 *)
Definition finally {A} (m : M (History * W) A) (f : History → History)
    : M (History * W) A := λ s,
  let '(r, s') := m s in (r, (f s'.1, s'.2)).

(** [applyBatch]; [undoing] for the direction [before],
    ui3/src/editor/history.ts:38-47 *)
Definition applyBatch (batch : list HistoryEntry) (undoing : bool) : M (History * W) unit :=
  _ ← modifyHistory (λ h, h <| suppress := true |>);
  finally
    (for_each batch (λ e,
      write (he_entity e) (he_name e) (if undoing then he_before e else he_after e)))
    (λ h, h <| suppress := false |>).

(** [push], ui3/src/editor/history.ts:50-56 *)
Definition pushBatch (batch : list HistoryEntry) : M (History * W) unit :=
  h ← gets stacks;
  if suppress h || (length batch =? 0)%nat then mret tt
  else
    let stack := undoStack h ++ [batch] in
    let stack := if (maxSteps <? length stack)%nat then drop 1 stack else stack in
    _ ← modifyHistory (λ h, h <| undoStack := stack |> <| redoStack := [] |>);
    notifyChange.

(** [undo], ui3/src/editor/history.ts:57-64 *)
Definition undo : M (History * W) bool :=
  h ← gets stacks;
  match pop (undoStack h) with
  | None => mret false
  | Some (batch, rest) =>
      _ ← modifyHistory (λ h, h <| undoStack := rest |>
                                 <| redoStack := redoStack h ++ [batch] |>);
      _ ← notifyChange;
      _ ← applyBatch batch true;
      mret true
  end.

(** [redo], ui3/src/editor/history.ts:65-72 *)
Definition redo : M (History * W) bool :=
  h ← gets stacks;
  match pop (redoStack h) with
  | None => mret false
  | Some (batch, rest) =>
      _ ← modifyHistory (λ h, h <| redoStack := rest |>
                                 <| undoStack := undoStack h ++ [batch] |>);
      _ ← notifyChange;
      _ ← applyBatch batch false;
      mret true
  end.

(** [canUndo], ui3/src/editor/history.ts:73-73 *)
Definition canUndo (s : History * W) : bool := (0 <? length (undoStack (stacks s)))%nat.

(** [canRedo], ui3/src/editor/history.ts:74-74 *)
Definition canRedo (s : History * W) : bool := (0 <? length (redoStack (stacks s)))%nat.

(** [isSuppressed], ui3/src/editor/history.ts:75-75 *)
Definition isSuppressed (s : History * W) : bool := suppress (stacks s).

(** [clear], ui3/src/editor/history.ts:76-80 *)
Definition clear : M (History * W) unit :=
  _ ← modifyHistory (λ h, h <| undoStack := [] |> <| redoStack := [] |>);
  notifyChange.
End engine.

(** [cloneValue] of a value or [undefined], ui3/src/editor/history.ts:84-91 *)
Definition cloneValue `{JsonText V} (v : option V) : option V :=
  match v with
  | None => None
  | Some v => Some (default v (JSON_parse (JSON_stringify v)))
  end.
End history.
Arguments HistoryEntry V : clear implicits.
Arguments History V : clear implicits.

(** ** The workspace *)

Section workspace.
Context {V : Type} `{JsonText V}.

(** What the workspace posts to the scene: the messages that change entities and
    those that follow a deletion, ui3/src/editor/editor-bus.ts:160-189 *)
Inductive SceneMessage :=
  | SetComponent (entity name json : string)
  | DeleteComponent (entity name : string)
  | EntityDeleted (entity : string) (recursive : bool)
  | SetSelection (selected : list string) (active : option string).

(** The bus, the refs and the React state that the operations touch,
    ui3/src/editor/pages/DeWorkspace.tsx:146-149, 210-210, 312-321 *)
Record Workspace := {
  busRef : bool;                                   (** there is a bus *)
  posted : list SceneMessage;                      (** what it was given, in order *)
  compValues : gmap string (gmap string V);
  liveComps : gmap string (list string);
  liveXform : gmap string V;
  liveSel : list string * option string;
  nudgeBase : option string;                       (** the entity being nudged *)
  historyVersion : Z;
  playing : bool;
  playEditNoted : bool;
  playEditWarn : bool
}.

#[export] Instance eta_Workspace : Eta Workspace := λ w, {|
  busRef := busRef w; posted := posted w; compValues := compValues w;
  liveComps := liveComps w; liveXform := liveXform w; liveSel := liveSel w;
  nudgeBase := nudgeBase w; historyVersion := historyVersion w; playing := playing w;
  playEditNoted := playEditNoted w; playEditWarn := playEditWarn w |}.

(** The history of the workspace and the rest. *)
Abbreviation Editor := (History V * Workspace)%type.

Definition modifyWorkspace (f : Workspace → Workspace) : M Editor unit :=
  modify (λ s, (s.1, f s.2)).

(** [setComponent] of the bus, and its guard,
    ui3/src/editor/editor-bus.ts:174-177 *)
Definition bus_setComponent (entity : option string) (name json : string) : M Editor unit :=
  modifyWorkspace (λ w,
    match entity with
    | Some entity =>
        if busRef w && negb (String.eqb name "") then
          w <| posted ::= λ p, p ++ [SetComponent entity name json] |>
        else w
    | None => w
    end).

(** [deleteComponent] of the bus, ui3/src/editor/editor-bus.ts:182-185 *)
Definition bus_deleteComponent (entity : option string) (name : string) : M Editor unit :=
  modifyWorkspace (λ w,
    match entity with
    | Some entity =>
        if busRef w && negb (String.eqb name "") then
          w <| posted ::= λ p, p ++ [DeleteComponent entity name] |>
        else w
    | None => w
    end).

(** [deleteEntity] of the bus, ui3/src/editor/editor-bus.ts:186-189 *)
Definition bus_deleteEntity (entity : string) (recursive : bool) : M Editor unit :=
  modifyWorkspace (λ w,
    if busRef w then w <| posted ::= λ p, p ++ [EntityDeleted entity recursive] |> else w).

(** [setSelection] of the bus, ui3/src/editor/editor-bus.ts:160-166 *)
Definition bus_setSelection (selected : list string) (active : option string) : M Editor unit :=
  modifyWorkspace (λ w,
    if busRef w then w <| posted ::= λ p, p ++ [SetSelection selected active] |> else w).

(** [notePlayEdit], ui3/src/editor/pages/DeWorkspace.tsx:150-158; [warned] is
    whether the local storage says the user asked not to be warned again. *)
Definition notePlayEdit (warned : bool) : M Editor unit :=
  modifyWorkspace (λ w,
    if negb (playing w) || playEditNoted w then w
    else
      let w := w <| playEditNoted := true |> in
      if warned then w else w <| playEditWarn := true |>).

(** [compValuesRef.current[key]?.[name]],
    ui3/src/editor/pages/DeWorkspace.tsx:471-471 *)
Definition compValue (w : Workspace) (key name : string) : option V :=
  vals ← compValues w !! key; vals !! name.

(** [(compValuesRef.current[key] ??= {})[name] = v],
    ui3/src/editor/pages/DeWorkspace.tsx:473-473 *)
Definition putComp (key name : string) (v : V) (w : Workspace) : Workspace :=
  w <| compValues ::= λ c, <[key := <[name := v]> (default ∅ (c !! key))]> c |>.

(** [const vals = compValuesRef.current[key]; if (vals) delete vals[name]],
    ui3/src/editor/pages/DeWorkspace.tsx:508-509 *)
Definition dropComp (key name : string) (w : Workspace) : Workspace :=
  match compValues w !! key with
  | Some vals => w <| compValues ::= <[key := delete name vals]> |>
  | None => w
  end.

(** The name added to [liveComps], ui3/src/editor/pages/DeWorkspace.tsx:478-481 *)
Definition showComp (key name : string) (w : Workspace) : Workspace :=
  let cur := default [] (liveComps w !! key) in
  if decide (name ∈ cur) then w else w <| liveComps ::= <[key := cur ++ [name]]> |>.

(** The name taken from [liveComps], ui3/src/editor/pages/DeWorkspace.tsx:512-514 *)
Definition hideComp (key name : string) (w : Workspace) : Workspace :=
  match liveComps w !! key with
  | Some cur => w <| liveComps ::= <[key := filter (λ c, c ≠ name) cur]> |>
  | None => w
  end.

(** [isTransformComp], ui3/src/editor/components/DeInspectorPanel.tsx:248-248 *)
Definition isTransformComp (name : string) : bool :=
  String.eqb name "Transform" || String.eqb name "core::Transform".

Context (warned : bool).

(** [applyHistoryWriteRef.current], the [write] of the history,
    ui3/src/editor/pages/DeWorkspace.tsx:364-386 *)
Definition applyHistoryWrite (entity name : string) (value : option V) : M Editor unit :=
  _ ← notePlayEdit warned;
  match value with
  | None =>
      _ ← bus_deleteComponent (Some entity) name;
      _ ← modifyWorkspace (dropComp entity name);
      modifyWorkspace (hideComp entity name)
  | Some value =>
      _ ← bus_setComponent (Some entity) name (JSON_stringify value);
      _ ← modifyWorkspace (λ w, putComp entity name
            (default value (cloneValue (Some value))) w);
      _ ← modifyWorkspace (showComp entity name);
      when (isTransformComp name)
        (modifyWorkspace (λ w, w <| liveXform ::= <[entity := value]> |>))
  end.

(** [() => setHistoryVersion((v) => v + 1)],
    ui3/src/editor/pages/DeWorkspace.tsx:329-329 *)
Definition bumpHistory : M Editor unit :=
  modifyWorkspace (λ w, w <| historyVersion ::= Z.succ |>).

(** The history of the workspace, ui3/src/editor/pages/DeWorkspace.tsx:326-331 *)
Definition pushEdit : list (HistoryEntry V) → M Editor unit := pushBatch bumpHistory HISTORY_MAX_STEPS.
Definition undoEdit : M Editor bool := undo applyHistoryWrite bumpHistory.
Definition redoEdit : M Editor bool := redo applyHistoryWrite bumpHistory.

(** [String(entity)], ui3/src/editor/pages/DeWorkspace.tsx:477-477 *)
Definition keyOf (entity : option string) : string := default "null" entity.

(** [authorComponent], ui3/src/editor/pages/DeWorkspace.tsx:464-482 *)
Definition authorComponent (entity : option string) (name json : string) : M Editor unit :=
  _ ← notePlayEdit warned;
  _ ← bus_setComponent entity name json;
  _ ← match entity, JSON_parse json with
      | Some key, Some after =>
          w ← gets snd;
          let before := cloneValue (compValue w key name) in
          _ ← pushEdit [{| he_entity := key; he_name := name; he_before := before;
                           he_after := cloneValue (Some after) |}];
          modifyWorkspace (putComp key name after)
      | _, _ => mret tt
      end;
  modifyWorkspace (showComp (keyOf entity) name).

(** [deleteComponent], ui3/src/editor/pages/DeWorkspace.tsx:501-516 *)
Definition deleteComponent (entity : option string) (name : string) : M Editor unit :=
  _ ← notePlayEdit warned;
  let key := keyOf entity in
  w ← gets snd;
  let before := cloneValue (compValue w key name) in
  _ ← match before with
      | Some _ =>
          _ ← pushEdit [{| he_entity := key; he_name := name; he_before := before;
                           he_after := None |}];
          modifyWorkspace (dropComp key name)
      | None => mret tt
      end;
  _ ← bus_deleteComponent entity name;
  modifyWorkspace (hideComp key name).

(** What deleting an entity records, ui3/src/editor/pages/DeWorkspace.tsx:552-557;
    the order of the names is that of the map. *)
Definition recordEntity (w : Workspace) (id : string) : list (HistoryEntry V) :=
  match compValues w !! id with
  | Some comps => map (λ '(cname, value),
      {| he_entity := id; he_name := cname; he_before := cloneValue (Some value);
         he_after := None |}) (map_to_list comps)
  | None => []
  end.

(** The loop over the selection, ui3/src/editor/pages/DeWorkspace.tsx:551-560 *)
Fixpoint deleteEntities (ids : list string) (batch : list (HistoryEntry V))
    : M Editor (list (HistoryEntry V)) :=
  match ids with
  | [] => mret batch
  | id :: ids =>
      w ← gets snd;
      _ ← bus_deleteEntity id true;
      _ ← modifyWorkspace (λ w, w <| compValues ::= delete id |>);
      deleteEntities ids (batch ++ recordEntity w id)
  end.

(** [selectedIds], ui3/src/editor/pages/DeWorkspace.tsx:536-540 *)
Definition selectedIds (w : Workspace) : list string :=
  match (liveSel w).1, (liveSel w).2 with
  | [], Some active => [active]
  | selected, _ => selected
  end.

(** [deleteSelected], which is there when something is selected,
    ui3/src/editor/pages/DeWorkspace.tsx:541-565 *)
Definition deleteSelected : M Editor unit :=
  w ← gets snd;
  when (0 <? length (selectedIds w))%nat
    (_ ← notePlayEdit warned;
     batch ← deleteEntities (selectedIds w) [];
     _ ← when (0 <? length batch)%nat (pushEdit batch);
     _ ← bus_setSelection [] None;
     modifyWorkspace (λ w, w <| liveSel := ([], None) |>)).

(** The case [selection] of a message: [comps] is the entries of its [components],
    each entity once, with the entries of what it holds.
    ui3/src/editor/pages/useEditorBusBridge.ts:107-142 *)
Definition selectionMessage (selected : list string) (active : option string)
    (comps : list (string * list (string * V))) : M Editor unit :=
  _ ← modifyWorkspace (λ w, w <| liveSel := (selected, active) |>);
  _ ← modifyWorkspace (λ w, w <| liveComps ::= λ m,
        foldl (λ m '(eid, byName), <[eid := map fst byName]> m) m comps |>);
  _ ← for_each comps (λ '(eid, byName),
        modifyWorkspace (λ w, w <| compValues ::= <[eid := list_to_map byName]> |>));
  for_each comps (λ '(eid, byName),
    match (list_to_map byName : gmap string V) !! "Transform" with
    | Some t =>
        when (is_object t) (modifyWorkspace (λ w,
          let w := w <| liveXform ::= <[eid := t]> |> in
          if decide (nudgeBase w = Some eid) then w <| nudgeBase := None |> else w))
    | None => mret tt
    end).

(** The loop of [drag-end]: [raw] is the entries of its [transforms], each entity
    once; [snap] is whether the grid is on.  [quantize] is [quantizeTransform]
    with the grid on, and [withParent] carries the parent of the former transform
    into the new one: both work on floating-point numbers, and are arguments.
    ui3/src/editor/pages/useEditorBusBridge.ts:159-177 *)
Context (quantize : V → option V → V) (withParent : V → option V → V) (snap : bool).

Fixpoint dragEntities (raw : list (string * V)) (batch : list (HistoryEntry V))
    (moved : list (string * V)) : M Editor (list (HistoryEntry V) * list (string * V)) :=
  match raw with
  | [] => mret (batch, moved)
  | (eid, t) :: raw =>
      w ← gets snd;
      let prev := compValue w eid "Transform" in
      let after := if snap then quantize t prev else t in
      let before := cloneValue prev in
      let echo := withParent after prev in
      let batch := match before with
        | Some _ => batch ++ [{| he_entity := eid; he_name := "Transform"; he_before := before;
                                 he_after := cloneValue (Some echo) |}]
        | None => batch
        end in
      _ ← modifyWorkspace (putComp eid "Transform" (default echo (cloneValue (Some echo))));
      _ ← when snap (bus_setComponent (Some eid) "Transform" (JSON_stringify echo));
      dragEntities raw batch (moved ++ [(eid, after)])
  end.

(** The case [drag-end], ui3/src/editor/pages/useEditorBusBridge.ts:152-185 *)
Definition dragEnd (raw : list (string * V)) : M Editor unit :=
  '(batch, moved) ← dragEntities raw [] [];
  _ ← when (0 <? length batch)%nat (pushEdit batch);
  _ ← modifyWorkspace (λ w,
        w <| liveXform ::= λ m, foldl (λ m '(eid, t), <[eid := t]> m) m moved |>);
  _ ← modifyWorkspace (λ w,
        match (liveSel w).2 with
        | Some active =>
            if decide (active ∈ map fst moved) then w <| nudgeBase := None |> else w
        | None => w
        end);
  notePlayEdit warned.
End workspace.
Arguments Workspace V : clear implicits.
