(* ===== verification/EditorProofs.v ===== *)
(** * The editor's history is a timeline

    The reference is a timeline: the scene's components as they were, are and will
    be again.  Every operation of the workspace is one of the timeline, an undo
    goes back on it and a redo forth; and what is posted to the scene makes the
    same components of it. *)

From S2P Require Import Prelude JsString EditorHistory.
Open Scope string_scope.
Open Scope list_scope.
Open Scope Z_scope.

Section editor.
Context {V : Type} `{!EqDecision V} `{JsonTextLaws V}.
Abbreviation World := (gmap (string * string) V).
Implicit Types (w : Workspace V) (h : History V) (b : list (HistoryEntry V)).

(** ** Components by entity and name *)

Definition cells w : World :=
  map_uncurry (M1 := gmap string) (M2 := gmap string) (M12 := gmap (string * string)) (compValues w).

Lemma lookup_cells w k : cells w !! k = compValue w k.1 k.2.
Proof. destruct k. unfold cells, compValue. by rewrite lookup_map_uncurry. Qed.

(** The cells of the entities that satisfy [P]. *)
Definition cellsOf (P : string → Prop) `{!∀ x, Decision (P x)} (c : World) : World :=
  filter (λ kv, P kv.1.1) c.

Lemma lookup_cellsOf P `{!∀ x, Decision (P x)} (c : World) k :
  cellsOf P c !! k = if decide (P k.1) then c !! k else None.
Proof.
  unfold cellsOf. destruct (c !! k) as [v|] eqn:E.
  - case_decide.
    + by apply map_lookup_filter_Some.
    + apply map_lookup_filter_None. right. intros v' _. done.
  - case_decide; apply map_lookup_filter_None; by left.
Qed.

Lemma cells_putComp key name v w :
  cells (putComp key name v w) = <[(key, name) := v]> (cells w).
Proof.
  apply map_eq. intros [k n]. rewrite lookup_cells. unfold compValue. simpl.
  destruct (decide (key = k)) as [<-|].
  - rewrite lookup_insert_eq. simpl. destruct (decide (name = n)) as [<-|].
    + by rewrite !lookup_insert_eq.
    + rewrite !lookup_insert_ne, lookup_cells by congruence. unfold compValue. simpl.
      by destruct (compValues w !! key).
  - rewrite !lookup_insert_ne, lookup_cells by congruence. done.
Qed.

Lemma cells_dropComp key name w : cells (dropComp key name w) = delete (key, name) (cells w).
Proof.
  apply map_eq. intros [k n]. rewrite lookup_cells. unfold dropComp.
  destruct (decide ((key, name) = (k, n))) as [[= <- <-]|Hne].
  - rewrite lookup_delete_eq. unfold compValue. destruct (compValues w !! key) as [vals|] eqn:E;
      simpl; [|by rewrite E]. rewrite lookup_insert_eq. simpl. apply lookup_delete_eq.
  - rewrite lookup_delete_ne, lookup_cells by done. unfold compValue.
    destruct (compValues w !! key) as [vals|] eqn:E; simpl; [|done].
    destruct (decide (key = k)) as [<-|].
    + rewrite lookup_insert_eq, E. simpl. rewrite lookup_delete_ne; [done|congruence].
    + by rewrite lookup_insert_ne.
Qed.

Lemma cells_delete id w :
  cells (w <| compValues ::= delete id |>) = cellsOf (λ e, e ≠ id) (cells w).
Proof.
  apply map_eq. intros [k n]. rewrite lookup_cellsOf, !lookup_cells. unfold compValue. simpl.
  case_decide as Hd.
  - by rewrite lookup_delete_ne.
  - destruct (decide (k = id)) as [->|]; [|done]. by rewrite lookup_delete_eq.
Qed.

(** ** Batches *)

Definition key (e : HistoryEntry V) : string * string := (he_entity e, he_name e).

(** The cells with one side of a batch written into them. *)
Definition write_all (side : HistoryEntry V → option V) b (c : World) : World :=
  foldl (λ c e, partial_alter (λ _, side e) (key e) c) c b.

(** [b] leads from [c] to [c'], and back. *)
Definition spans b (c c' : World) : Prop :=
  write_all he_before b c' = c ∧ write_all he_after b c = c'.

Lemma lookup_write_all_out side b c k :
  k ∉ map key b → write_all side b c !! k = c !! k.
Proof.
  revert c. induction b as [|e b IH]; intros c Hk; [done|]. simpl in *.
  apply not_elem_of_cons in Hk as [Hne Hk]. rewrite IH by done.
  by rewrite lookup_partial_alter_ne.
Qed.

Lemma lookup_write_all_in side b c e :
  NoDup (map key b) → e ∈ b → write_all side b c !! key e = side e.
Proof.
  revert c. induction b as [|e' b IH]; intros c Hnd He; [by apply elem_of_nil in He|].
  simpl in *. apply NoDup_cons in Hnd as [Hout Hnd].
  apply elem_of_cons in He as [->|He]; [|by apply IH].
  rewrite lookup_write_all_out by done. apply lookup_partial_alter_eq.
Qed.

Lemma key_in b e : e ∈ b → key e ∈ map key b.
Proof. intros He. apply list_elem_of_In, in_map. by apply list_elem_of_In. Qed.

Lemma in_keys b k : k ∈ map key b → ∃ e, e ∈ b ∧ key e = k.
Proof.
  intros Hk. apply list_elem_of_In, in_map_iff in Hk as (e & <- & He).
  exists e. split; [by apply list_elem_of_In|done].
Qed.

Lemma spans_intro b c c' :
  NoDup (map key b) →
  (∀ e, e ∈ b → c !! key e = he_before e ∧ c' !! key e = he_after e) →
  (∀ k, k ∉ map key b → c !! k = c' !! k) →
  spans b c c'.
Proof.
  intros Hnd Hin Hout. split; apply map_eq; intros k;
    (destruct (decide (k ∈ map key b)) as [Hk|Hk];
      [apply in_keys in Hk as (e & He & <-); destruct (Hin e He);
       rewrite lookup_write_all_in by done; done
      |rewrite lookup_write_all_out by done; by rewrite Hout]).
Qed.

(** ** The timeline *)

Record Timeline := {
  past : list World;       (** the nearest first *)
  present : World;
  future : list World;     (** the nearest first *)
  selection : list string * option string
}.

Definition edit (c : World) (tl : Timeline) : Timeline := {|
  past := take HISTORY_MAX_STEPS (present tl :: past tl); present := c; future := [];
  selection := selection tl |}.

Definition back (tl : Timeline) : bool * Timeline :=
  match past tl with
  | [] => (false, tl)
  | c :: cs => (true, {| past := cs; present := c; future := present tl :: future tl;
                         selection := selection tl |})
  end.

Definition forth (tl : Timeline) : bool * Timeline :=
  match future tl with
  | [] => (false, tl)
  | c :: cs => (true, {| past := present tl :: past tl; present := c; future := cs;
                         selection := selection tl |})
  end.

(** The worlds of a stack of undo, of a stack of redo; the top first. *)
Fixpoint pastOf (cs : list World) (bs : list (list (HistoryEntry V))) (c : World) : Prop :=
  match cs, bs with
  | [], [] => True
  | c' :: cs, b :: bs => spans b c' c ∧ pastOf cs bs c'
  | _, _ => False
  end.

Fixpoint futureOf (cs : list World) (bs : list (list (HistoryEntry V))) (c : World) : Prop :=
  match cs, bs with
  | [], [] => True
  | c' :: cs, b :: bs => spans b c c' ∧ futureOf cs bs c'
  | _, _ => False
  end.

Lemma pastOf_length cs bs c : pastOf cs bs c → length cs = length bs.
Proof.
  revert bs c. induction cs as [|c' cs IH]; intros [|b bs] c Hp; try done.
  destruct Hp as [_ Hp]. simpl. f_equal. by eapply IH.
Qed.

Lemma futureOf_length cs bs c : futureOf cs bs c → length cs = length bs.
Proof.
  revert bs c. induction cs as [|c' cs IH]; intros [|b bs] c Hp; try done.
  destruct Hp as [_ Hp]. simpl. f_equal. by eapply IH.
Qed.

Lemma pastOf_take n cs bs c : pastOf cs bs c → pastOf (take n cs) (take n bs) c.
Proof.
  revert n bs c. induction cs as [|c' cs IH]; intros n [|b bs] c Hp; try done.
  - by destruct n.
  - destruct n as [|n]; [done|]. destruct Hp as [Hb Hp]. split; [done|]. by apply IH.
Qed.

(** ** The editor is at a timeline *)

Definition at_timeline (s : History V * Workspace V) (tl : Timeline) : Prop :=
  cells s.2 = present tl ∧ liveSel s.2 = selection tl ∧ suppress s.1 = false ∧
  pastOf (past tl) (reverse (undoStack s.1)) (present tl) ∧
  futureOf (future tl) (reverse (redoStack s.1)) (present tl) ∧
  (length (undoStack s.1) + length (redoStack s.1) ≤ HISTORY_MAX_STEPS)%nat.

(** The history after [pushBatch]. *)
Definition pushed b h : History V := {|
  undoStack :=
    let stack := undoStack h ++ [b] in
    if (HISTORY_MAX_STEPS <? length stack)%nat then drop 1 stack else stack;
  redoStack := []; suppress := suppress h |}.

Lemma pushed_at b h w w' c' tl :
  at_timeline (h, w) tl → spans b (present tl) c' → cells w' = c' → liveSel w' = liveSel w →
  at_timeline (pushed b h, w') (edit c' tl).
Proof.
  intros (Hc & Hs & Hsup & Hp & Hf & Hlen) Hb Hc' Hs'. unfold at_timeline. simpl in *.
  split; [done|]. split; [congruence|]. split; [done|].
  assert (pastOf (past (edit c' tl)) (reverse (undoStack (pushed b h))) c') as Hpast.
  { replace (reverse (undoStack (pushed b h)))
      with (take HISTORY_MAX_STEPS (b :: reverse (undoStack h))).
    - apply (pastOf_take HISTORY_MAX_STEPS (present tl :: past tl)). by split.
    - unfold pushed. cbn [undoStack]. destruct (Nat.ltb_spec HISTORY_MAX_STEPS (length (undoStack h ++ [b]))) as [Hl|Hl];
        rewrite length_app in Hl; simpl in Hl.
      + rewrite reverse_drop, reverse_snoc, length_app. simpl length.
        by replace (length (undoStack h) + 1 - 1)%nat with HISTORY_MAX_STEPS by lia.
      + rewrite reverse_snoc. apply take_ge. simpl. rewrite length_reverse. lia. }
  split; [exact Hpast|]. split; [done|].
  apply pastOf_length in Hpast. rewrite length_reverse in Hpast.
  change (length (undoStack (pushed b h)) + 0 ≤ HISTORY_MAX_STEPS)%nat.
  rewrite <- Hpast. cbn [past edit]. rewrite length_take. lia.
Qed.

(** ** Running the operations *)

(** What the scene makes of a message it is posted. *)
Definition scene_apply (c : World) (m : SceneMessage) : World :=
  match m with
  | SetComponent entity name json =>
      match JSON_parse json with
      | Some v => <[(entity, name) := v]> c
      | None => c
      end
  | DeleteComponent entity name => delete (entity, name) c
  | EntityDeleted entity _ => cellsOf (λ e, e ≠ entity) c
  | SetSelection _ _ => c
  end.

(** What the theorems observe of the workspace. *)
Record View := {
  v_cells : World;
  v_sel : list string * option string;
  v_bus : bool;
  v_posted : list SceneMessage
}.

Definition view w : View := {|
  v_cells := cells w; v_sel := liveSel w; v_bus := busRef w; v_posted := posted w |}.

Definition v_post (ms : list SceneMessage) (v : View) : View :=
  {| v_cells := v_cells v; v_sel := v_sel v; v_bus := v_bus v;
     v_posted := if v_bus v then v_posted v ++ ms else v_posted v |}.

Definition v_write (f : World → World) (v : View) : View :=
  {| v_cells := f (v_cells v); v_sel := v_sel v; v_bus := v_bus v; v_posted := v_posted v |}.

Definition v_select (sel : list string * option string) (v : View) : View :=
  {| v_cells := v_cells v; v_sel := sel; v_bus := v_bus v; v_posted := v_posted v |}.

(** [m] returns [a] and leaves the history [h] and a workspace seen as [v]. *)
Definition ends {A} (m : M (History V * Workspace V) A) s (a : A) h (v : View) : Prop :=
  ∃ w, m s = (Ok a, (h, w)) ∧ view w = v.

Lemma ends_ret {A} (a : A) h w v : view w = v → ends (mret a) (h, w) a h v.
Proof. by exists w. Qed.

Lemma ends_bind {A B} (m : M _ A) (k : A → M _ B) s a h v (r : B) h' v' :
  ends m s a h v → (∀ w, view w = v → ends (k a) (h, w) r h' v') → ends (m ≫= k) s r h' v'.
Proof.
  intros (w & Hm & Hw) Hk. destruct (Hk w Hw) as (w' & Hk' & Hw').
  exists w'. split; [|done]. by rewrite (bind_ok _ _ _ _ _ Hm).
Qed.

Lemma ends_gets {B C} (f : History V * Workspace V → C) (k : C → M _ B) h w (r : B) h' v :
  ends (k (f (h, w))) (h, w) r h' v → ends (gets f ≫= k) (h, w) r h' v.
Proof. done. Qed.

Lemma ends_modify f h w v : view (f w) = v → ends (modifyWorkspace f) (h, w) tt h v.
Proof. intros Hv. by exists (f w). Qed.

Lemma ends_when (q : bool) m h w v v' :
  view w = v → (q = true → ends m (h, w) tt h v') → (q = false → v = v') →
  ends (when q m) (h, w) tt h v'.
Proof. intros Hv Hm He. destruct q; [by apply Hm|]. exists w. split; [done|]. by rewrite Hv, He. Qed.

(** *** The bus *)

Definition named (name : string) (ms : list SceneMessage) : list SceneMessage :=
  if String.eqb name "" then [] else ms.

Lemma view_posted w ms : view (w <| posted := posted w ++ ms |>)
  = {| v_cells := cells w; v_sel := liveSel w; v_bus := busRef w; v_posted := posted w ++ ms |}.
Proof. done. Qed.

Lemma ends_setComponent entity name json h w v : view w = v →
  ends (bus_setComponent entity name json) (h, w) tt h
    (v_post (match entity with
             | Some e => named name [SetComponent e name json]
             | None => []
             end) v).
Proof.
  intros <-. apply ends_modify. unfold named, v_post, view. destruct entity as [e|].
  - destruct (busRef w) eqn:E, (name =? "")%string; simpl; rewrite ?E, ?app_nil_r; done.
  - destruct (busRef w) eqn:E; simpl; rewrite ?E, ?app_nil_r; done.
Qed.

Lemma ends_deleteComponent entity name h w v : view w = v →
  ends (bus_deleteComponent entity name) (h, w) tt h
    (v_post (match entity with
             | Some e => named name [DeleteComponent e name]
             | None => []
             end) v).
Proof.
  intros <-. apply ends_modify. unfold named, v_post, view. destruct entity as [e|].
  - destruct (busRef w) eqn:E, (name =? "")%string; simpl; rewrite ?E, ?app_nil_r; done.
  - destruct (busRef w) eqn:E; simpl; rewrite ?E, ?app_nil_r; done.
Qed.

Lemma ends_deleteEntity id recursive h w v : view w = v →
  ends (bus_deleteEntity id recursive) (h, w) tt h (v_post [EntityDeleted id recursive] v).
Proof.
  intros <-. apply ends_modify. unfold v_post, view. by destruct (busRef w) eqn:E; simpl; rewrite ?E.
Qed.

Lemma ends_setSelection ids active h w v : view w = v →
  ends (bus_setSelection ids active) (h, w) tt h (v_post [SetSelection ids active] v).
Proof.
  intros <-. apply ends_modify. unfold v_post, view. by destruct (busRef w) eqn:E; simpl; rewrite ?E.
Qed.

Lemma ends_notePlayEdit warned h w v : view w = v → ends (notePlayEdit warned) (h, w) tt h v.
Proof. intros <-. apply ends_modify. by destruct (negb (playing w) || playEditNoted w), warned. Qed.

(** *** The cache and what is shown *)

Lemma ends_putComp key name x h w v : view w = v →
  ends (modifyWorkspace (putComp key name x)) (h, w) tt h (v_write <[(key, name) := x]> v).
Proof. intros <-. apply ends_modify. unfold view, v_write. simpl. by rewrite cells_putComp. Qed.

Lemma ends_dropComp key name h w v : view w = v →
  ends (modifyWorkspace (dropComp key name)) (h, w) tt h (v_write (delete (key, name)) v).
Proof.
  intros <-. apply ends_modify. unfold view, v_write. simpl. rewrite cells_dropComp.
  unfold dropComp. by destruct (compValues w !! key).
Qed.

Lemma ends_forget id h w v : view w = v →
  ends (modifyWorkspace (λ w, w <| compValues ::= delete id |>)) (h, w) tt h
    (v_write (cellsOf (λ e, e ≠ id)) v).
Proof. intros <-. apply ends_modify. unfold view, v_write. simpl. by rewrite cells_delete. Qed.

Lemma ends_showComp key name h w v : view w = v →
  ends (modifyWorkspace (showComp key name)) (h, w) tt h v.
Proof. intros <-. apply ends_modify. unfold showComp. by case_decide. Qed.

Lemma ends_hideComp key name h w v : view w = v →
  ends (modifyWorkspace (hideComp key name)) (h, w) tt h v.
Proof. intros <-. apply ends_modify. unfold hideComp. by case_match. Qed.

Lemma cloneValue_id (v : option V) : cloneValue v = v.
Proof. destruct v; [|done]. simpl. by rewrite parse_stringify. Qed.

(** A value written, and copied on the way. *)
Lemma ends_putClone key name x h w v : view w = v →
  ends (modifyWorkspace (λ w, putComp key name (default x (cloneValue (Some x))) w)) (h, w) tt h
    (v_write <[(key, name) := x]> v).
Proof. rewrite cloneValue_id. apply ends_putComp. Qed.

Lemma compValue_view w v key name : view w = v → compValue w key name = v_cells v !! (key, name).
Proof. intros <-. symmetry. apply lookup_cells. Qed.

Context (warned : bool).

(** *** The history *)

(** The message of a write. *)
Definition write_message (e : string) (name : string) (v : option V) : list SceneMessage :=
  named name [match v with
              | Some v => SetComponent e name (JSON_stringify v)
              | None => DeleteComponent e name
              end].

(** One more operation of a run. *)
Ltac step l := eapply ends_bind; [by apply l|]; intros ? ?.

Lemma ends_write e name x h w v : view w = v →
  ends (applyHistoryWrite warned e name x) (h, w) tt h
    (v_write (partial_alter (λ _, x) (e, name)) (v_post (write_message e name x) v)).
Proof.
  intros Hv. unfold applyHistoryWrite. step ends_notePlayEdit. destruct x as [x|].
  - step ends_setComponent. step ends_putClone. step ends_showComp.
    destruct (isTransformComp name); [|by apply ends_ret]. by apply ends_modify.
  - step ends_deleteComponent. step ends_dropComp. by apply ends_hideComp.
Qed.

(** The messages of a replay. *)
Definition replay_messages (side : HistoryEntry V → option V) b : list SceneMessage :=
  concat (map (λ e, write_message (he_entity e) (he_name e) (side e)) b).

Lemma v_post_nil v : v_post [] v = v.
Proof. destruct v as [? ? [] ?]; unfold v_post; simpl; by rewrite ?app_nil_r. Qed.

Lemma v_post_app ms ms' v : v_post (ms ++ ms') v = v_post ms' (v_post ms v).
Proof. destruct v as [? ? [] ?]; unfold v_post; simpl; by rewrite ?(assoc_L (++)). Qed.

Lemma ends_for_each_writes side b h w v : view w = v →
  ends (for_each b (λ e, applyHistoryWrite warned (he_entity e) (he_name e) (side e))) (h, w) tt h
    (v_write (write_all side b) (v_post (replay_messages side b) v)).
Proof.
  revert w v. induction b as [|e b IH]; intros w v Hv.
  - apply ends_ret. unfold replay_messages. simpl. rewrite v_post_nil. by destruct v.
  - simpl. step ends_write. unfold replay_messages. simpl. rewrite v_post_app.
    apply (IH _ (v_write _ (v_post _ v))). done.
Qed.

Lemma ends_notify h w v : view w = v → ends (notifyChange bumpHistory) (h, w) tt h v.
Proof. intros <-. eexists. by split. Qed.

Lemma ends_push b h w v : view w = v → suppress h = false → b ≠ [] →
  ends (pushEdit b) (h, w) tt (pushed b h) v.
Proof.
  intros <- Hs Hb. unfold pushEdit, pushBatch. apply ends_gets. unfold stacks. cbn [fst].
  rewrite Hs. destruct b; [done|]. eexists. by split.
Qed.

Lemma ends_applyBatch b (undoing : bool) h w v : view w = v →
  let side := if undoing then he_before else he_after in
  ends (applyBatch (applyHistoryWrite warned) b undoing) (h, w) tt (h <| suppress := false |>)
    (v_write (write_all side b) (v_post (replay_messages side b) v)).
Proof.
  intros Hv side. unfold applyBatch, finally, modifyHistory, modify, mbind, M_bind.
  destruct (ends_for_each_writes side b (h <| suppress := true |>) w v Hv) as (w' & Hrun & Hw).
  exists w'. split; [|exact Hw]. cbn [fst snd].
  assert (∀ s, for_each b (λ e, applyHistoryWrite warned (he_entity e) (he_name e)
      (if undoing then he_before e else he_after e)) s
    = for_each b (λ e, applyHistoryWrite warned (he_entity e) (he_name e) (side e)) s) as ->.
  { intros s. unfold side. by destruct undoing. }
  by rewrite Hrun.
Qed.

Lemma pop_snoc {A} (l : list A) x : pop (l ++ [x]) = Some (x, l).
Proof. unfold pop. by rewrite last_snoc, removelast_last. Qed.

Lemma ends_undo_none h w v : view w = v → undoStack h = [] →
  ends (undoEdit warned) (h, w) false h v.
Proof.
  intros Hv Hu. unfold undoEdit, undo. apply ends_gets. unfold stacks. cbn [fst]. rewrite Hu.
  by apply ends_ret.
Qed.

Lemma ends_redo_none h w v : view w = v → redoStack h = [] →
  ends (redoEdit warned) (h, w) false h v.
Proof.
  intros Hv Hu. unfold redoEdit, redo. apply ends_gets. unfold stacks. cbn [fst]. rewrite Hu.
  by apply ends_ret.
Qed.

Lemma ends_modifyHistory f h w v : view w = v → ends (modifyHistory f) (h, w) tt (f h) v.
Proof. intros <-. by exists w. Qed.

Lemma ends_undo bs b h w v : view w = v → undoStack h = bs ++ [b] →
  ends (undoEdit warned) (h, w) true
    {| undoStack := bs; redoStack := redoStack h ++ [b]; suppress := false |}
    (v_write (write_all he_before b) (v_post (replay_messages he_before b) v)).
Proof.
  intros Hv Hu. unfold undoEdit, undo. apply ends_gets. unfold stacks. cbn [fst].
  rewrite Hu, pop_snoc. step ends_modifyHistory. step ends_notify.
  eapply ends_bind; [by apply (ends_applyBatch b true)|]. intros w3 Hw3. by apply ends_ret.
Qed.

Lemma ends_redo bs b h w v : view w = v → redoStack h = bs ++ [b] →
  ends (redoEdit warned) (h, w) true
    {| undoStack := undoStack h ++ [b]; redoStack := bs; suppress := false |}
    (v_write (write_all he_after b) (v_post (replay_messages he_after b) v)).
Proof.
  intros Hv Hu. unfold redoEdit, redo. apply ends_gets. unfold stacks. cbn [fst].
  rewrite Hu, pop_snoc. step ends_modifyHistory. step ends_notify.
  eapply ends_bind; [by apply (ends_applyBatch b false)|]. intros w3 Hw3. by apply ends_ret.
Qed.

(** *** The edits *)

Lemma ends_author_none entity name json h w v : view w = v →
  entity = None ∨ JSON_parse json = None →
  ends (authorComponent warned entity name json) (h, w) tt h
    (v_post (match entity with
             | Some e => named name [SetComponent e name json]
             | None => []
             end) v).
Proof.
  intros Hv Hn. unfold authorComponent. step ends_notePlayEdit. step ends_setComponent.
  eapply ends_bind; [|intros ? ?; by apply ends_showComp].
  destruct Hn as [->| ->]; [|destruct entity]; by apply ends_ret.
Qed.

(** The batch of one write. *)
Definition one key name (before after : option V) : list (HistoryEntry V) :=
  [{| he_entity := key; he_name := name; he_before := before; he_after := after |}].

Lemma ends_author key name json x h w v : view w = v → suppress h = false →
  JSON_parse json = Some x →
  ends (authorComponent warned (Some key) name json) (h, w) tt
    (pushed (one key name (v_cells v !! (key, name)) (Some x)) h)
    (v_write <[(key, name) := x]> (v_post (named name [SetComponent key name json]) v)).
Proof.
  intros Hv Hs Hj. unfold authorComponent. rewrite Hj.
  step ends_notePlayEdit. step ends_setComponent.
  eapply ends_bind; [|intros ? ?; by apply ends_showComp].
  apply ends_gets. cbn [snd]. rewrite !cloneValue_id.
  erewrite compValue_view by done. step ends_push. by apply ends_putComp.
Qed.

Lemma ends_delete_none entity name h w v : view w = v →
  v_cells v !! (keyOf entity, name) = None →
  ends (deleteComponent warned entity name) (h, w) tt h
    (v_post (match entity with
             | Some e => named name [DeleteComponent e name]
             | None => []
             end) v).
Proof.
  intros Hv Hn. unfold deleteComponent. step ends_notePlayEdit.
  apply ends_gets. cbn [snd]. rewrite cloneValue_id. erewrite compValue_view by done. rewrite Hn.
  eapply ends_bind; [by apply ends_ret|]. intros ? ?.
  step ends_deleteComponent. by apply ends_hideComp.
Qed.

Lemma ends_delete entity name x h w v : view w = v → suppress h = false →
  v_cells v !! (keyOf entity, name) = Some x →
  ends (deleteComponent warned entity name) (h, w) tt
    (pushed (one (keyOf entity) name (Some x) None) h)
    (v_post (match entity with
             | Some e => named name [DeleteComponent e name]
             | None => []
             end) (v_write (delete (keyOf entity, name)) v)).
Proof.
  intros Hv Hs Hn. unfold deleteComponent. step ends_notePlayEdit.
  apply ends_gets. cbn [snd]. rewrite cloneValue_id. erewrite compValue_view by done. rewrite Hn.
  eapply ends_bind; [step ends_push; by apply ends_dropComp|]. intros ? ?.
  step ends_deleteComponent. by apply ends_hideComp.
Qed.

(** *** Deleting the selection *)

(** [b] records the cells of [ids] in [c], each once, as deleted. *)
Definition records (ids : list string) b (c : World) : Prop :=
  NoDup (map key b) ∧
  (∀ e, e ∈ b → c !! key e = he_before e ∧ is_Some (he_before e) ∧ he_after e = None ∧
    he_entity e ∈ ids) ∧
  (∀ k, k.1 ∈ ids → is_Some (c !! k) → k ∈ map key b).

Lemma cellsOf_cellsOf P Q R `{!∀ x, Decision (P x), !∀ x, Decision (Q x), !∀ x, Decision (R x)}
    (c : World) :
  (∀ x, R x ↔ P x ∧ Q x) → cellsOf P (cellsOf Q c) = cellsOf R c.
Proof.
  intros HR. apply map_eq. intros k. rewrite !lookup_cellsOf.
  repeat case_decide; naive_solver.
Qed.

Lemma recordEntity_eq w id : recordEntity w id = map (λ '(n, x),
    {| he_entity := id; he_name := n; he_before := Some x; he_after := None |})
  (map_to_list (default ∅ (compValues w !! id))).
Proof.
  unfold recordEntity. destruct (compValues w !! id) as [vals|]; simpl.
  - apply map_ext. intros [n x]. by rewrite parse_stringify.
  - by rewrite map_to_list_empty.
Qed.

Lemma recordEntity_records w id : records [id] (recordEntity w id) (cells w).
Proof.
  rewrite recordEntity_eq. set (vals := default ∅ (compValues w !! id)).
  assert (∀ n, cells w !! (id, n) = vals !! n) as Hc.
  { intros n. rewrite lookup_cells. unfold compValue, vals. simpl.
    by destruct (compValues w !! id). }
  split; [|split].
  - rewrite map_map. rewrite (map_ext _ (λ p, (id, p.1))) by (by intros []).
    rewrite <- (map_map fst (pair id)). apply (NoDup_fmap_2 (pair id)), NoDup_fst_map_to_list.
  - intros e He. apply list_elem_of_In, in_map_iff in He as ([n x] & <- & Hx).
    apply list_elem_of_In, elem_of_map_to_list in Hx. unfold key. simpl.
    rewrite Hc. repeat split; [done|by eexists|set_solver].
  - intros [k n] Hk [x Hx]. apply list_elem_of_singleton in Hk. simpl in Hk. subst k.
    rewrite Hc in Hx. rewrite map_map. apply list_elem_of_In, in_map_iff.
    exists (n, x). split; [done|]. by apply list_elem_of_In, elem_of_map_to_list.
Qed.

Lemma records_cons (id : string) (ids : list string) b b' (c : World) :
  records [id] b c → records ids b' (cellsOf (λ e, e ≠ id) c) → records (id :: ids) (b ++ b') c.
Proof.
  intros (Hnd & Hin & Hall) (Hnd' & Hin' & Hall').
  assert (∀ e, e ∈ b' → he_entity e ≠ id ∧ c !! key e = he_before e) as Hb'.
  { intros e He. destruct (Hin' e He) as (Hc & [x Hx] & _). rewrite lookup_cellsOf in Hc.
    case_decide as Hne; [done|]. congruence. }
  split; [|split].
  - rewrite map_app. apply NoDup_app. split; [done|]. split; [|done].
    intros k Hk Hk'. apply in_keys in Hk as (e & He & <-).
    apply in_keys in Hk' as (e' & He' & Hk).
    destruct (Hin e He) as (_ & _ & _ & Hid), (Hb' e' He') as [Hne _].
    apply list_elem_of_singleton in Hid. injection Hk. congruence.
  - intros e He. apply elem_of_app in He as [He|He].
    + destruct (Hin e He) as (? & ? & ? & ?). repeat split; [done..|set_solver].
    + destruct (Hin' e He) as (_ & ? & ? & ?), (Hb' e He). repeat split; [done..|set_solver].
  - intros k Hk Hc. rewrite map_app. apply elem_of_app.
    destruct (decide (k.1 = id)) as [Hid|Hid].
    + left. apply Hall; [set_solver|done].
    + right. apply Hall'; [set_solver|]. rewrite lookup_cellsOf. by rewrite decide_True.
Qed.

Definition deletions (ids : list string) : list SceneMessage :=
  map (λ id, EntityDeleted id true) ids.

Lemma cells_view w v : view w = v → cells w = v_cells v.
Proof. by intros <-. Qed.

Lemma ends_deleteEntities ids batch h w v : view w = v → ∃ b,
  ends (deleteEntities ids batch) (h, w) (batch ++ b) h
    (v_write (cellsOf (λ e, e ∉ ids)) (v_post (deletions ids) v)) ∧
  records ids b (v_cells v).
Proof.
  revert batch w v. induction ids as [|id ids IH]; intros batch w v Hv.
  - exists []. rewrite app_nil_r. split.
    + apply ends_ret. rewrite Hv. unfold deletions. simpl. rewrite v_post_nil.
      destruct v as [c ? ? ?]. unfold v_write. simpl. f_equal.
      apply map_eq. intros k. rewrite lookup_cellsOf, decide_True; [done|]. apply not_elem_of_nil.
    + split; [constructor|]. split; intros ? Hin; by apply elem_of_nil in Hin.
  - cbn [deleteEntities].
    set (v' := v_write (cellsOf (λ e, e ≠ id)) (v_post [EntityDeleted id true] v)).
    destruct (ends_deleteEntity id true h w v Hv) as (w1 & Hrun1 & Hv1).
    destruct (ends_forget id h w1 _ Hv1) as (w3 & Hrun3 & Hv3).
    destruct (IH (batch ++ recordEntity w id) w3 v' Hv3) as (b & Hends & Hrec).
    exists (recordEntity w id ++ b). split.
    + apply ends_gets. cbn [snd].
      destruct Hends as (w4 & Hrun4 & Hv4). exists w4. split.
      * rewrite (bind_ok _ _ _ _ _ Hrun1), (bind_ok _ _ _ _ _ Hrun3), Hrun4.
        by rewrite (assoc_L (++)).
      * rewrite Hv4. unfold v', v_write, v_post. cbn [v_cells v_sel v_bus v_posted].
        rewrite (cellsOf_cellsOf _ _ (λ e, e ∉ id :: ids)).
        -- destruct (v_bus v); [|done]. by rewrite <- (assoc_L (++)).
        -- intros x. rewrite not_elem_of_cons. tauto.
    + apply records_cons; [|exact Hrec]. rewrite <- (cells_view w v Hv).
      apply recordEntity_records.
Qed.

Lemma ends_deleteSelected_none h w v : view w = v → selectedIds w = [] →
  ends (deleteSelected warned) (h, w) tt h v.
Proof.
  intros Hv Hs. unfold deleteSelected. apply ends_gets. cbn [snd]. rewrite Hs. by apply ends_ret.
Qed.

Lemma ends_deleteSelected h w v : view w = v → selectedIds w ≠ [] → suppress h = false →
  let ids := selectedIds w in
  ∃ b, records ids b (v_cells v) ∧
  ends (deleteSelected warned) (h, w) tt (if decide (b = []) then h else pushed b h)
    (v_select ([], None) (v_post (deletions ids ++ [SetSelection [] None])
      (v_write (cellsOf (λ e, e ∉ ids)) v))).
Proof.
  intros Hv Hne Hs ids.
  assert ((0 <? length ids)%nat = true) as Hlen.
  { apply Nat.ltb_lt. unfold ids. destruct (selectedIds w); [done|simpl; lia]. }
  destruct (ends_notePlayEdit warned h w v Hv) as (w1 & Hrun1 & Hv1).
  destruct (ends_deleteEntities ids [] h w1 v Hv1) as (b & Hends & Hrec).
  exists b. split; [done|]. unfold deleteSelected. apply ends_gets. cbn [snd]. fold ids.
  rewrite Hlen. cbn [when].
  destruct Hends as (w2 & Hrun2 & Hv2).
  assert (ends (when (0 <? length b)%nat (pushEdit b)) (h, w2) tt
    (if decide (b = []) then h else pushed b h) (view w2)) as (w3 & Hrun3 & Hv3).
  { destruct b as [|e b]; [by apply ends_ret|]. rewrite decide_False by done.
    apply (ends_push (e :: b)); done. }
  destruct (ends_setSelection [] None (if decide (b = []) then h else pushed b h) w3 _ Hv3)
    as (w4 & Hrun4 & Hv4).
  eexists. split.
  - rewrite (bind_ok _ _ _ _ _ Hrun1), (bind_ok _ _ _ _ _ Hrun2). cbn [app].
    rewrite (bind_ok _ _ _ _ _ Hrun3), (bind_ok _ _ _ _ _ Hrun4). reflexivity.
  - assert (∀ w, view (w <| liveSel := ([], None) |>) = v_select ([], None) (view w)) as -> by done.
    cbn [snd]. rewrite Hv4, Hv2, v_post_app. done.
Qed.
End editor.
Arguments Timeline V : clear implicits.
Arguments View V : clear implicits.
