(* ===== verification/EditorTimeline.v ===== *)
(** * Commands of the editor, and what they do on the timeline

    The operations of the workspace as commands, each with its step of the
    timeline, and the simulation: a workspace that is at a timeline is, after a
    command, at the timeline's next step. *)

From S2P Require Import Prelude JsString EditorHistory EditorProofs.
Open Scope string_scope.
Open Scope list_scope.
Open Scope Z_scope.

(** One more operation of a run. *)
Ltac step l := eapply ends_bind; [by apply l|]; intros ? ?.

Section editor.
Context {V : Type} `{!EqDecision V} `{JsonTextLaws V}.
Context (warned : bool) (quantize : V → option V → V) (withParent : V → option V → V).
Abbreviation World := (gmap (string * string) V).
Implicit Types (w : Workspace V) (tl : Timeline V) (h : History V) (b : list (HistoryEntry V)) (c : World).

(** ** Drags *)

Definition transform (eid : string) : string * string := (eid, "Transform").

(** What a drag to [t] makes of the transform of [eid]. *)
Definition echo (snap : bool) c (eid : string) (t : V) : V :=
  let prev := c !! transform eid in
  withParent (if snap then quantize t prev else t) prev.

Fixpoint dragged (snap : bool) (raw : list (string * V)) c : World :=
  match raw with
  | [] => c
  | (eid, t) :: raw => dragged snap raw (<[transform eid := echo snap c eid t]> c)
  end.

Fixpoint drag_messages (snap : bool) (raw : list (string * V)) c : list SceneMessage :=
  match raw with
  | [] => []
  | (eid, t) :: raw =>
      let x := echo snap c eid t in
      (if snap then [SetComponent eid "Transform" (JSON_stringify x)] else [])
      ++ drag_messages snap raw (<[transform eid := x]> c)
  end.

(** What a drag records: the transforms it knew. *)
Fixpoint drag_batch (snap : bool) (raw : list (string * V)) c : list (HistoryEntry V) :=
  match raw with
  | [] => []
  | (eid, t) :: raw =>
      let x := echo snap c eid t in
      match c !! transform eid with
      | Some prev => one eid "Transform" (Some prev) (Some x)
      | None => []
      end ++ drag_batch snap raw (<[transform eid := x]> c)
  end.

Lemma ends_dragEntities snap raw batch moved h w v : view w = v → ∃ moved',
  ends (dragEntities quantize withParent snap raw batch moved) (h, w)
    (batch ++ drag_batch snap raw (v_cells v), moved') h
    (v_write (dragged snap raw) (v_post (drag_messages snap raw (v_cells v)) v)).
Proof.
  revert batch moved w v. induction raw as [|[eid t] raw IH]; intros batch moved w v Hv.
  - exists moved. rewrite app_nil_r. apply ends_ret. simpl. rewrite v_post_nil. by destruct v.
  - cbn [dragEntities].
    set (prev := compValue w eid "Transform").
    assert (prev = v_cells v !! transform eid) as Hprev by (by apply compValue_view).
    set (x := withParent (if snap then quantize t prev else t) prev).
    assert (x = echo snap (v_cells v) eid t) as Hx by (unfold x, echo; by rewrite Hprev).
    destruct (ends_putComp eid "Transform" x h w v Hv) as (w1 & Hrun1 & Hv1).
    assert (ends (when snap (bus_setComponent (Some eid) "Transform" (JSON_stringify x))) (h, w1) tt h
      (v_write <[transform eid := x]> (v_post
        (if snap then [SetComponent eid "Transform" (JSON_stringify x)] else []) v)))
      as (w2 & Hrun2 & Hv2).
    { destruct snap; cbn [when]; [by apply (ends_setComponent (Some eid) "Transform" _ h w1 _ Hv1)|].
      apply ends_ret. by rewrite v_post_nil. }
    destruct (IH (batch ++ match v_cells v !! transform eid with
        | Some prev => one eid "Transform" (Some prev) (Some x) | None => [] end)
      (moved ++ [(eid, if snap then quantize t prev else t)]) w2 _ Hv2) as (moved' & w3 & Hrun3 & Hv3).
    exists moved', w3. split.
    + unfold gets, mbind at 1, M_bind at 1. cbn [snd]. fold prev. rewrite !cloneValue_id.
      cbn [default]. fold x. rewrite (bind_ok _ _ _ _ _ Hrun1), (bind_ok _ _ _ _ _ Hrun2).
      cbn [drag_batch]. rewrite <- Hx, (assoc_L (++)). rewrite Hprev in Hrun3 |- *.
      destruct (v_cells v !! transform eid); cbn [app] in Hrun3; [exact Hrun3|].
      rewrite app_nil_r in Hrun3 |- *. exact Hrun3.
    + rewrite Hv3. cbn [drag_messages]. rewrite <- Hx, v_post_app.
      unfold v_write, v_post. cbn [v_cells v_sel v_bus v_posted dragged]. by rewrite Hx.
Qed.

Lemma ends_dragEnd snap raw h w v : view w = v → suppress h = false →
  let b := drag_batch snap raw (v_cells v) in
  ends (dragEnd warned quantize withParent snap raw) (h, w) tt
    (if decide (b = []) then h else pushed b h)
    (v_write (dragged snap raw) (v_post (drag_messages snap raw (v_cells v)) v)).
Proof.
  intros Hv Hs b. unfold dragEnd.
  destruct (ends_dragEntities snap raw [] [] h w v Hv) as (moved & Hends).
  eapply ends_bind; [exact Hends|]. intros w1 Hv1. cbn [app]. fold b.
  eapply ends_bind.
  { instantiate (2 := if decide (b = []) then h else pushed b h).
    destruct (decide (b = [])) as [->|Hb].
    - apply ends_ret, Hv1.
    - rewrite (proj2 (Nat.ltb_lt 0 _)); [apply ends_push; [exact Hv1|done..]|].
      destruct b; [done|]. simpl. lia. }
  intros w2 Hv2. eapply ends_bind; [apply ends_modify; exact Hv2|]. intros w3 Hv3.
  eapply ends_bind.
  { apply ends_modify. instantiate (1 := view w3). destruct (liveSel w3).2; [|done]. by case_decide. }
  intros w4 Hv4. apply ends_notePlayEdit. congruence.
Qed.

Lemma dragged_out snap raw c k :
  k ∉ map (transform ∘ fst) raw → dragged snap raw c !! k = c !! k.
Proof.
  revert c. induction raw as [|[eid t] raw IH]; intros c Hk; [done|].
  simpl in *. apply not_elem_of_cons in Hk as [Hne Hk]. rewrite IH by done.
  by apply lookup_insert_ne.
Qed.

Lemma transform_keys (raw : list (string * V)) :
  NoDup (map fst raw) → NoDup (map (transform ∘ fst) raw).
Proof.
  intros Hnd. assert (map (transform ∘ fst) raw = map transform (map fst raw)) as ->
    by (by rewrite map_map).
  by apply (NoDup_fmap_2 transform).
Qed.

(** A drag of entities whose transforms are known records all it does. *)
Lemma drag_spans snap raw c : NoDup (map fst raw) →
  (∀ p, p ∈ raw → is_Some (c !! transform p.1)) →
  spans (drag_batch snap raw c) c (dragged snap raw c).
Proof.
  intros Hnd Hall.
  assert (map key (drag_batch snap raw c) = map (transform ∘ fst) raw ∧
    ∀ e, e ∈ drag_batch snap raw c →
      c !! key e = he_before e ∧ dragged snap raw c !! key e = he_after e) as [Hkeys Hin].
  { apply transform_keys in Hnd. revert c Hnd Hall.
    induction raw as [|[eid t] raw IH]; intros c Hnd Hall.
    { split; [done|]. intros e He. by apply elem_of_nil in He. }
    cbn [drag_batch dragged map]. apply NoDup_cons in Hnd as [Hout Hnd].
    destruct (Hall (eid, t)) as [prev Hprev]; [set_solver|]. cbn [fst] in Hprev.
    set (x := echo snap c eid t).
    destruct (IH (<[transform eid := x]> c) Hnd) as [Hk Hin].
    { intros p Hp. destruct (decide (transform p.1 = transform eid)) as [->|].
      - rewrite lookup_insert_eq. by eexists.
      - rewrite lookup_insert_ne by done. apply Hall. set_solver. }
    rewrite Hprev. split.
    - cbn [app one map key]. by rewrite Hk.
    - intros e He. apply elem_of_app in He as [He|He].
      + apply list_elem_of_singleton in He. subst e. unfold key. cbn. split; [done|].
        rewrite (dragged_out snap raw _ (transform eid)) by done. apply lookup_insert_eq.
      + destruct (Hin e He) as [Hb Ha]. split; [|done]. rewrite <- Hb.
        symmetry. apply lookup_insert_ne. intros Heq. apply Hout. cbn [compose fst].
        change (transform eid ∈ map (transform ∘ fst) raw).
        rewrite Heq, <- Hk. by apply key_in. }
  apply spans_intro; [rewrite Hkeys; by apply transform_keys|done|].
  intros k Hk. rewrite dragged_out; [done|]. by rewrite <- Hkeys.
Qed.

(** ** What the scene reports *)

(** The cells with those of [eid] replaced by [vals]. *)
Definition load (eid : string) (vals : gmap string V) c : World :=
  kmap (pair eid) vals ∪ cellsOf (λ e, e ≠ eid) c.

Lemma lookup_load eid vals c k :
  load eid vals c !! k = if decide (k.1 = eid) then vals !! k.2 else c !! k.
Proof.
  destruct k as [e n]. unfold load. cbn [fst snd]. case_decide as He.
  - subst e. rewrite lookup_union_l, (lookup_kmap (pair eid)); [done|].
    rewrite lookup_cellsOf. rewrite decide_False; [done|]. intros Hne. by apply Hne.
  - rewrite lookup_union_r, lookup_cellsOf; [by rewrite decide_True|].
    apply (lookup_kmap_None (pair eid)). intros n' [=]. congruence.
Qed.

Definition load_all (comps : list (string * list (string * V))) c : World :=
  foldl (λ c '(eid, byName), load eid (list_to_map byName) c) c comps.

Lemma cells_load eid vals w :
  cells (w <| compValues ::= <[eid := vals]> |>) = load eid vals (cells w).
Proof.
  apply map_eq. intros [e n]. rewrite lookup_load, !lookup_cells. unfold compValue. cbn.
  case_decide as He.
  - subst e. by rewrite lookup_insert_eq.
  - by rewrite lookup_insert_ne.
Qed.

Lemma ends_load eid vals h w v : view w = v →
  ends (modifyWorkspace (λ w, w <| compValues ::= <[eid := vals]> |>)) (h, w) tt h
    (v_write (load eid vals) v).
Proof. intros <-. apply ends_modify. unfold view, v_write. simpl. by rewrite cells_load. Qed.

Lemma ends_selectionMessage selected active comps h w v : view w = v →
  ends (selectionMessage selected active comps) (h, w) tt h
    (v_write (load_all comps) (v_select (selected, active) v)).
Proof.
  intros Hv. unfold selectionMessage.
  eapply ends_bind; [apply ends_modify; reflexivity|]. intros w1 Hw1.
  eapply ends_bind; [apply ends_modify; reflexivity|]. intros w2 Hw2.
  assert (view w2 = v_select (selected, active) v) as Hv2.
  { rewrite Hw2, <- Hv. unfold view in Hw1 |- *. injection Hw1. intros. unfold v_select, view.
    simpl. f_equal; done. }
  clear Hw2. eapply ends_bind.
  { instantiate (1 := v_write (load_all comps) (v_select (selected, active) v)).
    instantiate (1 := h). revert w2 Hv2. generalize (v_select (selected, active) v).
    induction comps as [|[eid byName] comps IH]; intros v' w2 Hv2.
    - apply ends_ret. rewrite Hv2. by destruct v'.
    - cbn [for_each]. eapply ends_bind; [by apply ends_load|]. intros w3 Hv3.
      destruct (IH _ _ Hv3) as (w4 & Hrun & Hv4).
      exists w4. split; [done|]. rewrite Hv4. done. }
  intros w3 Hv3. clear Hv2. revert w3 Hv3.
  generalize (v_write (load_all comps) (v_select (selected, active) v)).
  induction comps as [|[eid byName] comps IH]; intros v' w3 Hv3; [by apply ends_ret|].
  cbn [for_each]. eapply ends_bind; [|intros w4 Hv4; by apply IH].
  destruct ((list_to_map byName : gmap string V) !! "Transform") as [t|]; [|by apply ends_ret].
  destruct (is_object t); [|by apply ends_ret]. apply ends_modify. rewrite <- Hv3. by case_decide.
Qed.

(** ** Commands *)

Inductive Command :=
  | CAuthor (entity : option string) (name json : string)
  | CDelete (entity : option string) (name : string)
  | CDeleteSelected
  | CDrag (snap : bool) (raw : list (string * V))
  | CSelection (selected : list string) (active : option string)
      (comps : list (string * list (string * V)))
  | CUndo
  | CRedo.

(** A command as the workspace runs it. *)
Definition run (c : Command) : M (History V * Workspace V) bool :=
  match c with
  | CAuthor entity name json => _ ← authorComponent warned entity name json; mret true
  | CDelete entity name => _ ← deleteComponent warned entity name; mret true
  | CDeleteSelected => _ ← deleteSelected warned; mret true
  | CDrag snap raw => _ ← dragEnd warned quantize withParent snap raw; mret true
  | CSelection selected active comps => _ ← selectionMessage selected active comps; mret true
  | CUndo => undoEdit warned
  | CRedo => redoEdit warned
  end.

(** *** On the timeline *)

Definition select (sel : list string * option string) tl : Timeline V :=
  {| past := past tl; present := present tl; future := future tl; selection := sel |}.

(** The components of an entity come to be known, now and at all times; nothing
    new if they are those of now. *)
Definition load_tl (eid : string) (vals : gmap string V) tl : Timeline V :=
  if decide (load eid vals (present tl) = present tl) then tl
  else {| past := map (load eid vals) (past tl); present := load eid vals (present tl);
          future := map (load eid vals) (future tl); selection := selection tl |}.

Definition selected_of (sel : list string * option string) : list string :=
  match sel.1, sel.2 with
  | [], Some active => [active]
  | selected, _ => selected
  end.

(** A command on the timeline, with what it returns. *)
Definition tl_step (c : Command) (tl : Timeline V) : bool * Timeline V :=
  match c with
  | CAuthor (Some key) name json =>
      (true, match JSON_parse json with
             | Some x => edit (<[(key, name) := x]> (present tl)) tl
             | None => tl
             end)
  | CAuthor None _ _ => (true, tl)
  | CDelete entity name =>
      let k := (keyOf entity, name) in
      (true, match present tl !! k with
             | Some _ => edit (delete k (present tl)) tl
             | None => tl
             end)
  | CDeleteSelected =>
      let ids := selected_of (selection tl) in
      (true,
       if decide (ids = []) then tl
       else select ([], None)
         (if decide (cellsOf (λ e, e ∈ ids) (present tl) = ∅) then tl
          else edit (cellsOf (λ e, e ∉ ids) (present tl)) tl))
  | CDrag snap raw =>
      (true, if decide (raw = []) then tl else edit (dragged snap raw (present tl)) tl)
  | CSelection selected active comps =>
      (true, select (selected, active)
        (foldl (λ tl '(eid, byName), load_tl eid (list_to_map byName) tl) tl comps))
  | CUndo => back tl
  | CRedo => forth tl
  end.

(** No recorded step is about [eid]. *)
Definition unmentioned (eid : string) h : Prop :=
  Forall (Forall (λ e, he_entity e ≠ eid)) (undoStack h ++ redoStack h).

(** The cache knows the transforms that are dragged; and what the scene reports
    about an entity is what the cache has, or no step is about that entity. *)
Definition expected (c : Command) (s : History V * Workspace V) : Prop :=
  match c with
  | CDrag _ raw =>
      NoDup (map fst raw) ∧ ∀ p, p ∈ raw → is_Some (cells s.2 !! transform p.1)
  | CSelection _ _ comps =>
      NoDup (map fst comps) ∧
      ∀ p, p ∈ comps → load p.1 (list_to_map p.2) (cells s.2) = cells s.2 ∨ unmentioned p.1 s.1
  | _ => True
  end.

(** ** The simulation *)

Lemma selected_of_eq w : selectedIds w = selected_of (liveSel w).
Proof. done. Qed.

Lemma one_spans key name c (after : option V) :
  spans (one key name (c !! (key, name)) after) c (partial_alter (λ _, after) (key, name) c).
Proof.
  apply spans_intro.
  - apply NoDup_singleton.
  - intros e He. apply list_elem_of_singleton in He. subst e. unfold EditorProofs.key. cbn.
    split; [done|]. apply lookup_partial_alter_eq.
  - intros k Hk. rewrite lookup_partial_alter_ne; [done|]. intros <-. apply Hk. left.
Qed.

Lemma records_spans ids b c : records ids b c → spans b c (cellsOf (λ e, e ∉ ids) c).
Proof.
  intros (Hnd & Hin & Hall). apply spans_intro; [done|..].
  - intros e He. destruct (Hin e He) as (? & _ & -> & Hid). split; [done|].
    rewrite lookup_cellsOf. rewrite decide_False; [done|]. intros Hn. by apply Hn.
  - intros k Hk. rewrite lookup_cellsOf. case_decide as Hd; [done|].
    destruct (c !! k) eqn:E; [|done]. destruct Hk. apply Hall; [done|by eexists].
Qed.

Lemma records_nil ids b c : records ids b c → b = [] ↔ cellsOf (λ e, e ∈ ids) c = ∅.
Proof.
  intros (Hnd & Hin & Hall). split.
  - intros ->. apply map_eq. intros k. rewrite lookup_cellsOf, lookup_empty.
    case_decide; [|done]. destruct (c !! k) eqn:E; [|done].
    assert (k ∈ map EditorProofs.key ([] : list (HistoryEntry V))) as Hk by (apply Hall; [done|by eexists]).
    by apply elem_of_nil in Hk.
  - intros He. destruct b as [|e b]; [done|]. exfalso.
    destruct (Hin e) as (Hc & [x Hx] & _ & Hid); [left|].
    assert (cellsOf (λ e, e ∈ ids) c !! EditorProofs.key e = Some x) as Hk.
    { rewrite lookup_cellsOf, decide_True by done. congruence. }
    by rewrite He, lookup_empty in Hk.
Qed.

Lemma write_all_load side b eid vals c : Forall (λ e, he_entity e ≠ eid) b →
  write_all side b (load eid vals c) = load eid vals (write_all side b c).
Proof.
  intros Hb. revert c. induction Hb as [|e b He _ IH]; intros c; [done|].
  change (write_all side b (partial_alter (λ _, side e) (EditorProofs.key e) (load eid vals c))
    = load eid vals (write_all side b (partial_alter (λ _, side e) (EditorProofs.key e) c))).
  rewrite <- IH. f_equal. apply map_eq. intros k. rewrite lookup_load.
  destruct (decide (EditorProofs.key e = k)) as [<-|Hk].
  - rewrite lookup_partial_alter_eq. unfold EditorProofs.key at 1. cbn [fst].
    rewrite decide_False by done.
    by rewrite lookup_partial_alter_eq.
  - rewrite !lookup_partial_alter_ne by done. by rewrite lookup_load.
Qed.

Lemma spans_load b eid vals c c' : Forall (λ e, he_entity e ≠ eid) b →
  spans b c c' → spans b (load eid vals c) (load eid vals c').
Proof. intros Hb [Hl Hr]. split; rewrite write_all_load; congruence. Qed.

Lemma pastOf_load eid vals cs bs c : Forall (Forall (λ e, he_entity e ≠ eid)) bs →
  pastOf cs bs c → pastOf (map (load eid vals) cs) bs (load eid vals c).
Proof.
  intros Hb. revert cs c. induction Hb as [|b bs Hb _ IH]; intros [|c' cs] c Hp; try done.
  destruct Hp as [Hs Hp]. split; [by apply spans_load|by apply IH].
Qed.

Lemma futureOf_load eid vals cs bs c : Forall (Forall (λ e, he_entity e ≠ eid)) bs →
  futureOf cs bs c → futureOf (map (load eid vals) cs) bs (load eid vals c).
Proof.
  intros Hb. revert cs c. induction Hb as [|b bs Hb _ IH]; intros [|c' cs] c Hp; try done.
  destruct Hp as [Hs Hp]. split; [by apply spans_load|by apply IH].
Qed.

Lemma view_cells w v : view w = v → cells w = v_cells v.
Proof. by intros <-. Qed.

Lemma view_sel w v : view w = v → liveSel w = v_sel v.
Proof. by intros <-. Qed.

(** A run that ends at a timeline. *)
Definition arrives {A} (m : M (History V * Workspace V) A) s (a : A) tl : Prop :=
  ∃ s', m s = (Ok a, s') ∧ at_timeline s' tl.

Lemma ends_arrives {A} (m : M (History V * Workspace V) A) s a h v tl :
  ends m s a h v → (∀ w, view w = v → at_timeline (h, w) tl) → arrives m s a tl.
Proof. intros (w & Hrun & Hw) Hat. exists (h, w). split; [done|]. by apply Hat. Qed.

Lemma arrives_ret {A B} (m : M (History V * Workspace V) A) (r : B) s a tl :
  arrives m s a tl → arrives (_ ← m; mret r) s r tl.
Proof. intros (s' & Hrun & Hat). exists s'. split; [|done]. by rewrite (bind_ok _ _ _ _ _ Hrun). Qed.

(** Nothing but what is posted has changed. *)
Lemma at_same h w w' v tl : at_timeline (h, w) tl → view w' = v → v_cells v = cells w →
  v_sel v = liveSel w → at_timeline (h, w') tl.
Proof.
  intros (Hc & Hs & Hrest) <- Hvc Hvs. unfold view in Hvc, Hvs. simpl in *.
  split; [|split; [|done]]; simpl; congruence.
Qed.

Lemma at_select h w w' tl sel : at_timeline (h, w) tl → cells w' = cells w → liveSel w' = sel →
  at_timeline (h, w') (select sel tl).
Proof.
  intros (Hc & Hs & Hrest) Hc' Hs'. split; [|split; [|done]]; simpl in *; congruence.
Qed.

Lemma sim_author entity name json h w tl : at_timeline (h, w) tl →
  arrives (run (CAuthor entity name json)) (h, w) true (tl_step (CAuthor entity name json) tl).2.
Proof.
  intros Hat. apply arrives_ret with tt.
  destruct entity as [key|]; [destruct (JSON_parse json) as [x|] eqn:Hj|].
  - eapply ends_arrives; [apply ends_author; [done|apply Hat|done]|].
    intros w' Hw'. cbn [tl_step snd]. rewrite Hj.
    pose proof (proj1 Hat) as Hc. simpl in Hc. rewrite <- Hc.
    apply (pushed_at _ h w w'); [done| |apply (view_cells _ _ Hw')|apply (view_sel _ _ Hw')].
    rewrite <- Hc. apply one_spans.
  - eapply ends_arrives; [apply ends_author_none; [done|by right]|].
    intros w' Hw'. cbn [tl_step snd]. rewrite Hj. by apply (at_same _ _ _ _ _ Hat Hw').
  - eapply ends_arrives; [apply ends_author_none; [done|by left]|].
    intros w' Hw'. by apply (at_same _ _ _ _ _ Hat Hw').
Qed.

Lemma sim_delete entity name h w tl : at_timeline (h, w) tl →
  arrives (run (CDelete entity name)) (h, w) true (tl_step (CDelete entity name) tl).2.
Proof.
  intros Hat. apply arrives_ret with tt. pose proof (proj1 Hat) as Hc. simpl in Hc.
  cbn [tl_step snd]. rewrite <- Hc.
  destruct (cells w !! (keyOf entity, name)) as [x|] eqn:E.
  - eapply ends_arrives; [by apply ends_delete; [|apply Hat|]|].
    intros w' Hw'. apply (pushed_at _ h w w');
      [done| |apply (view_cells _ _ Hw')|apply (view_sel _ _ Hw')].
    cbn [v_write v_post v_cells view]. rewrite <- Hc, <- E. apply one_spans.
  - eapply ends_arrives; [by apply ends_delete_none|].
    intros w' Hw'. by apply (at_same _ _ _ _ _ Hat Hw').
Qed.

Lemma sim_deleteSelected h w tl : at_timeline (h, w) tl →
  arrives (run CDeleteSelected) (h, w) true (tl_step CDeleteSelected tl).2.
Proof.
  intros Hat. apply arrives_ret with tt. pose proof Hat as (Hc & Hs & Hsup & _).
  simpl in Hc, Hs, Hsup. cbn [tl_step snd]. rewrite <- Hs, <- selected_of_eq, <- Hc.
  destruct (decide (selectedIds w = [])) as [Hn|Hn].
  - eapply ends_arrives; [by apply ends_deleteSelected_none|].
    intros w' Hw'. by apply (at_same _ _ _ _ _ Hat Hw').
  - destruct (ends_deleteSelected warned h w _ eq_refl Hn Hsup) as (b & Hrec & Hends).
    cbn [view v_cells] in Hrec. eapply ends_arrives; [exact Hends|]. intros w' Hw'.
    pose proof (records_nil _ _ _ Hrec) as Hnil.
    pose proof (view_cells _ _ Hw') as Hwc. pose proof (view_sel _ _ Hw') as Hws.
    cbn [v_select v_post v_write v_cells v_sel view] in Hwc, Hws.
    destruct (decide (b = [])) as [Hb|Hb], (decide (cellsOf _ _ = ∅)) as [Hz|Hz]; [|tauto..|].
    + apply (at_select h w); [done| |done]. rewrite Hwc.
      pose proof (records_spans _ _ _ Hrec) as [_ Hsp]. subst b. by rewrite <- Hsp.
    + set (w0 := w' <| liveSel := liveSel w |>).
      apply (at_select _ w0); [|done..].
      apply (pushed_at _ h w w0); [done| |exact Hwc|done].
      rewrite <- Hc. by apply records_spans.
Qed.

Lemma sim_drag snap raw h w tl : at_timeline (h, w) tl → expected (CDrag snap raw) (h, w) →
  arrives (run (CDrag snap raw)) (h, w) true (tl_step (CDrag snap raw) tl).2.
Proof.
  intros Hat [Hnd Hall]. apply arrives_ret with tt. pose proof Hat as (Hc & Hs & Hsup & _).
  simpl in Hc, Hs, Hsup, Hall. cbn [tl_step snd]. rewrite <- Hc.
  eapply ends_arrives; [by apply ends_dragEnd|]. intros w' Hw'. cbn [view v_cells].
  destruct raw as [|[eid t] raw].
  { cbn [drag_batch]. rewrite !decide_True by done. by apply (at_same _ _ _ _ _ Hat Hw'). }
  rewrite !decide_False.
  - apply (pushed_at _ h w w'); [done| |apply (view_cells _ _ Hw')|apply (view_sel _ _ Hw')].
    rewrite <- Hc. by apply drag_spans.
  - done.
  - cbn [drag_batch]. destruct (Hall (eid, t)) as [x Hx]; [left|]. cbn [fst] in Hx.
    by rewrite Hx.
Qed.

(** What the scene reports of one entity, on the timeline. *)
Lemma at_load eid vals h w w' tl : at_timeline (h, w) tl →
  load eid vals (cells w) = cells w ∨ unmentioned eid h →
  cells w' = load eid vals (cells w) → liveSel w' = liveSel w →
  at_timeline (h, w') (load_tl eid vals tl).
Proof.
  intros Hat Hex Hc' Hs'. pose proof Hat as (Hc & Hs & Hsup & Hp & Hf & Hlen). simpl in *.
  unfold load_tl. rewrite <- Hc. case_decide as Hd.
  - split; [simpl; congruence|]. split; [simpl; congruence|].
    exact (conj Hsup (conj Hp (conj Hf Hlen))).
  - destruct Hex as [Hex|Hex]; [done|]. apply Forall_app in Hex as [Hu Hr].
    split; [simpl; congruence|]. split; [simpl; congruence|]. split; [done|]. simpl.
    rewrite <- Hc in Hp, Hf.
    split; [by apply pastOf_load; [apply Forall_reverse|]|].
    split; [by apply futureOf_load; [apply Forall_reverse|]|]. done.
Qed.

Lemma load_other eid vals c k : k.1 ≠ eid → load eid vals c !! k = c !! k.
Proof. intros Hk. by rewrite lookup_load, decide_False. Qed.

(** Whether a report about an entity is news depends on its own cells. *)
Lemma load_same eid vals c : load eid vals c = c ↔ ∀ n, c !! (eid, n) = vals !! n.
Proof.
  split.
  - intros Heq n. rewrite <- Heq, lookup_load. cbn. by rewrite decide_True.
  - intros Hn. apply map_eq. intros [e n]. rewrite lookup_load. case_decide as He; [|done].
    cbn in He |- *. subst e. symmetry. apply Hn.
Qed.

Lemma sim_selection selected active comps h w tl : at_timeline (h, w) tl →
  expected (CSelection selected active comps) (h, w) →
  arrives (run (CSelection selected active comps)) (h, w) true
    (tl_step (CSelection selected active comps) tl).2.
Proof.
  intros Hat [Hnd Hall]. apply arrives_ret with tt.
  eapply ends_arrives; [by apply ends_selectionMessage|]. intros w' Hw'. cbn [tl_step snd].
  pose proof (view_cells _ _ Hw') as Hwc. pose proof (view_sel _ _ Hw') as Hws.
  cbn [v_write v_select v_cells v_sel view] in Hwc, Hws. cbn [snd fst] in Hall. clear Hw'.
  cut (∀ w0, cells w0 = load_all comps (cells w) → liveSel w0 = liveSel w →
    at_timeline (h, w0) (foldl (λ tl '(eid, byName), load_tl eid (list_to_map byName) tl) tl comps)).
  { intros Hcut. apply (at_select h (w' <| liveSel := liveSel w |>)); [|done..]. by apply Hcut. }
  clear w' Hwc Hws. revert w tl Hat Hall.
  induction comps as [|[eid byName] comps IH]; intros w tl Hat Hall w0 Hc0 Hs0.
  { destruct Hat as (Hc & Hs & Hrest). split; [|split; [|done]]; simpl in *; congruence. }
  cbn [foldl]. apply NoDup_cons in Hnd as [Hout Hnd].
  set (w1 := w <| compValues ::= <[eid := list_to_map byName]> |>).
  apply (IH Hnd w1); [|..].
  - apply (at_load eid (list_to_map byName) h w w1); [done| |apply cells_load|done].
    apply (Hall (eid, byName)). left.
  - intros p Hp. destruct (Hall p) as [Hl|Hu]; [by right| |by right]. left.
    apply load_same. intros n. unfold w1. rewrite cells_load, load_other.
    + by apply load_same.
    + cbn. intros Heq. apply Hout. cbn. rewrite <- Heq. apply list_elem_of_In, in_map.
      by apply list_elem_of_In.
  - rewrite Hc0. unfold w1. by rewrite cells_load.
  - done.
Qed.

Lemma snoc_inv {A} (l : list A) : l = [] ∨ ∃ l' x, l = l' ++ [x].
Proof. destruct l as [|x l _] using rev_ind; [by left|right; by eauto]. Qed.

Lemma sim_undo h w tl : at_timeline (h, w) tl → arrives (run CUndo) (h, w) (back tl).1 (back tl).2.
Proof.
  intros Hat. pose proof Hat as (Hc & Hs & Hsup & Hp & Hf & Hlen). simpl in *.
  destruct (snoc_inv (undoStack h)) as [Hu|(bs & b & Hu)]; rewrite Hu in Hp.
  - unfold back. destruct (past tl); [|done].
    eapply ends_arrives; [by apply ends_undo_none|].
    intros w' Hw'. by apply (at_same _ _ _ _ _ Hat Hw').
  - rewrite reverse_snoc in Hp. unfold back. destruct (past tl) as [|c cs]; [done|].
    destruct Hp as [[Hb Ha] Hp].
    eapply ends_arrives; [by apply ends_undo|]. intros w' Hw'.
    pose proof (view_cells _ _ Hw') as Hwc. pose proof (view_sel _ _ Hw') as Hws.
    cbn [v_write v_post v_cells v_sel view] in Hwc, Hws. rewrite Hc, Hb in Hwc.
    split; [done|]. split; [simpl; congruence|]. split; [done|]. split; [done|]. simpl.
    rewrite reverse_snoc. split; [by repeat split|].
    rewrite Hu, length_app in Hlen. rewrite length_app. simpl in *. lia.
Qed.

Lemma sim_redo h w tl : at_timeline (h, w) tl → arrives (run CRedo) (h, w) (forth tl).1 (forth tl).2.
Proof.
  intros Hat. pose proof Hat as (Hc & Hs & Hsup & Hp & Hf & Hlen). simpl in *.
  destruct (snoc_inv (redoStack h)) as [Hu|(bs & b & Hu)]; rewrite Hu in Hf.
  - unfold forth. destruct (future tl); [|done].
    eapply ends_arrives; [by apply ends_redo_none|].
    intros w' Hw'. by apply (at_same _ _ _ _ _ Hat Hw').
  - rewrite reverse_snoc in Hf. unfold forth. destruct (future tl) as [|c cs]; [done|].
    destruct Hf as [[Hb Ha] Hf].
    eapply ends_arrives; [by apply ends_redo|]. intros w' Hw'.
    pose proof (view_cells _ _ Hw') as Hwc. pose proof (view_sel _ _ Hw') as Hws.
    cbn [v_write v_post v_cells v_sel view] in Hwc, Hws. rewrite Hc, Ha in Hwc.
    split; [done|]. split; [simpl; congruence|]. split; [done|]. simpl.
    rewrite reverse_snoc. split; [by repeat split|]. split; [done|].
    rewrite Hu, length_app in Hlen. rewrite length_app. simpl in *. lia.
Qed.

(** Every command is a step of the timeline. *)
Lemma command_step cmd s tl : at_timeline s tl → expected cmd s →
  arrives (run cmd) s (tl_step cmd tl).1 (tl_step cmd tl).2.
Proof.
  destruct s as [h w]. intros Hat Hex. destruct cmd.
  - replace (tl_step (CAuthor entity name json) tl).1 with true by (by destruct entity).
    by apply sim_author.
  - by apply sim_delete.
  - by apply sim_deleteSelected.
  - by apply sim_drag.
  - by apply sim_selection.
  - by apply sim_undo.
  - by apply sim_redo.
Qed.
End editor.
Arguments Command V : clear implicits.
