(* ===== verification/EditorSessionProofs.v ===== *)
(** * Sessions of the editor

    Any sequence of commands: the workspace is a timeline, undoing all takes it
    back to where it began, and the scene, which is told of every change, holds
    what the workspace shows. *)

From S2P Require Import Prelude JsString EditorHistory EditorProofs EditorTimeline.
Open Scope string_scope.
Open Scope list_scope.
Open Scope Z_scope.

Section editor.
Context {V : Type} `{!EqDecision V} `{JsonTextLaws V}.
Context (warned : bool) (quantize : V → option V → V) (withParent : V → option V → V).
Abbreviation World := (gmap (string * string) V).
Abbreviation run := (run warned quantize withParent).
Abbreviation tl_step := (tl_step quantize withParent).
Implicit Types (w : Workspace V) (tl : Timeline V).
Implicit Types (h : History V) (b : list (HistoryEntry V)) (c : World).

(** ** Sequences of commands *)

(** What the commands return, and the state after them. *)
Fixpoint run_all (cmds : list (Command V)) (s : History V * Workspace V)
    : list (Res bool) * (History V * Workspace V) :=
  match cmds with
  | [] => ([], s)
  | cmd :: cmds =>
      let '(r, s) := run cmd s in
      let '(rs, s) := run_all cmds s in
      (r :: rs, s)
  end.

Fixpoint tl_steps (cmds : list (Command V)) tl : list bool * Timeline V :=
  match cmds with
  | [] => ([], tl)
  | cmd :: cmds =>
      let '(r, tl) := tl_step cmd tl in
      let '(rs, tl) := tl_steps cmds tl in
      (r :: rs, tl)
  end.

(** Every command is expected where it is run. *)
Fixpoint all_expected (cmds : list (Command V)) (s : History V * Workspace V) : Prop :=
  match cmds with
  | [] => True
  | cmd :: cmds => expected cmd s ∧ all_expected cmds (run cmd s).2
  end.

(** The timeline of a workspace that has just opened. *)
Definition opened w : Timeline V :=
  {| past := []; present := cells w; future := []; selection := liveSel w |}.

Lemma at_opened w : at_timeline (newHistory, w) (opened w).
Proof. by repeat split; simpl; try (unfold HISTORY_MAX_STEPS; lia). Qed.

Lemma run_all_steps cmds s tl : at_timeline s tl → all_expected cmds s →
  (run_all cmds s).1 = map Ok (tl_steps cmds tl).1 ∧
  at_timeline (run_all cmds s).2 (tl_steps cmds tl).2.
Proof.
  revert s tl. induction cmds as [|cmd cmds IH]; intros s tl Hat Hex; [done|].
  destruct Hex as [Hex Hall]. cbn [run_all tl_steps].
  destruct (command_step warned quantize withParent cmd s tl Hat Hex) as (s' & Hrun & Hat').
  rewrite Hrun in Hall |- *. destruct (tl_step cmd tl) as [r tl'] eqn:E. cbn [fst snd] in *.
  destruct (IH s' tl' Hat' Hall) as [Hr Hfinal].
  destruct (run_all cmds s') as [rs s''], (tl_steps cmds tl') as [rs' tl''].
  simpl in *. by rewrite Hr.
Qed.

Lemma run_all_app cmds cmds' s :
  run_all (cmds ++ cmds') s =
    let '(rs, s1) := run_all cmds s in
    let '(rs', s2) := run_all cmds' s1 in (rs ++ rs', s2).
Proof.
  revert s. induction cmds as [|cmd cmds IH]; intros s; simpl.
  - by destruct (run_all cmds' s).
  - destruct (run cmd s) as [r s1]. rewrite IH. destruct (run_all cmds s1) as [rs s2].
    by destruct (run_all cmds' s2).
Qed.

(** ** Back and forth *)

Definition backs (n : nat) tl : Timeline V := Nat.iter n (λ tl, (back tl).2) tl.
Definition forths (n : nat) tl : Timeline V := Nat.iter n (λ tl, (forth tl).2) tl.

(** The worlds of a timeline in order, and the place of now. *)
Definition worlds tl : list World := reverse (past tl) ++ [present tl] ++ future tl.

Lemma back_worlds tl : worlds (back tl).2 = worlds tl ∧
  length (past (back tl).2) = pred (length (past tl)).
Proof.
  unfold back, worlds. destruct (past tl) as [|c cs] eqn:E; simpl; [by rewrite E|].
  split; [|done]. rewrite reverse_cons. by rewrite <- (assoc_L (++)).
Qed.

Lemma forth_worlds tl : worlds (forth tl).2 = worlds tl ∧
  length (past (forth tl).2) = if decide (future tl = []) then length (past tl) else S (length (past tl)).
Proof.
  unfold forth, worlds. destruct (future tl) as [|c cs] eqn:E; simpl; [by rewrite E|].
  split; [|done]. rewrite reverse_cons. by rewrite <- (assoc_L (++)).
Qed.

Lemma present_worlds tl : worlds tl !! length (past tl) = Some (present tl).
Proof.
  unfold worlds. rewrite lookup_app_r; rewrite length_reverse; [|done].
  by rewrite Nat.sub_diag.
Qed.

Lemma backs_worlds n tl : worlds (backs n tl) = worlds tl ∧
  length (past (backs n tl)) = (length (past tl) - n)%nat.
Proof.
  induction n as [|n [IHw IHl]]; [split; [done|simpl; lia]|].
  change (backs (S n) tl) with (back (backs n tl)).2.
  destruct (back_worlds (backs n tl)) as [Hw Hl]. rewrite Hw, Hl, IHl. split; [done|lia].
Qed.

Lemma forths_worlds n tl : worlds (forths n tl) = worlds tl ∧
  length (past (forths n tl)) = (length (past tl) + n `min` length (future tl))%nat.
Proof.
  induction n as [|n [IHw IHl]]; [split; [done|simpl; lia]|].
  change (forths (S n) tl) with (forth (forths n tl)).2.
  destruct (forth_worlds (forths n tl)) as [Hw Hl]. rewrite Hw, Hl, IHl. split; [done|].
  pose proof (f_equal length IHw) as Hlen. unfold worlds in Hlen.
  rewrite !length_app, !length_reverse in Hlen. simpl in Hlen.
  case_decide as Hf; [rewrite Hf in Hlen; simpl in Hlen; lia|].
  destruct (future (forths n tl)); [done|]. simpl in Hlen. lia.
Qed.

(** An edit: a command that may record a step. *)
Definition edits (cmd : Command V) : Prop :=
  match cmd with
  | CAuthor _ _ _ | CDelete _ _ | CDeleteSelected | CDrag _ _ => True
  | CSelection _ _ _ | CUndo | CRedo => False
  end.

(** An edit leaves the timeline or extends it. *)
Lemma edit_extends (cmd : Command V) tl : edits cmd → (length (past tl) < HISTORY_MAX_STEPS)%nat →
  let tl' := (tl_step cmd tl).2 in
  (past tl' = past tl ∧ present tl' = present tl ∧ future tl' = future tl) ∨
  (past tl' = present tl :: past tl ∧ future tl' = []).
Proof.
  intros He Hl.
  assert (∀ c, past (edit c tl) = present tl :: past tl) as Hedit.
  { intros c. unfold edit. cbn [past]. apply take_ge. simpl. lia. }
  destruct cmd; try done; cbn [EditorTimeline.tl_step snd];
    repeat case_match; simplify_eq; cbn [snd select past present future];
    rewrite ?Hedit; tauto.
Qed.

Lemma edits_extend cmds tl : Forall edits cmds → future tl = [] →
  (length (past tl) + length cmds ≤ HISTORY_MAX_STEPS)%nat →
  let tl' := (tl_steps cmds tl).2 in
  ∃ between, past tl' = between ++ past tl ∧ future tl' = [] ∧ (length between ≤ length cmds)%nat ∧
    last (present tl' :: between) = Some (present tl).
Proof.
  intros He. revert tl. induction He as [|cmd cmds Hcmd _ IH]; intros tl Hf Hl; simpl.
  { by exists []. }
  simpl in Hl. pose proof (edit_extends cmd tl Hcmd ltac:(lia)) as Hx. cbn zeta in Hx.
  destruct (tl_step cmd tl) as [r tl1]. cbn [snd] in Hx.
  destruct (IH tl1) as (between & Hp & Hf1 & Hb & Hlast).
  { destruct Hx as [(_ & _ & ->)|[_ ->]]; done. }
  { destruct Hx as [[-> _]|[-> _]]; simpl; lia. }
  destruct (tl_steps cmds tl1) as [rs tl2]. cbn [snd] in *.
  destruct Hx as [(Hp1 & Hpr & _)|[Hp1 _]]; rewrite Hp1 in Hp.
  - exists between. rewrite <- Hpr. repeat split; [done..|lia|done].
  - exists (between ++ [present tl]). rewrite <- (assoc_L (++)). split; [done|]. split; [done|].
    rewrite length_app. simpl. split; [lia|].
    by rewrite (app_comm_cons between), last_snoc.
Qed.

Lemma tl_steps_undo n tl : (tl_steps (replicate n CUndo) tl).2 = backs n tl.
Proof.
  revert tl. induction n as [|n IH]; intros tl; [done|]. cbn [replicate tl_steps].
  change (tl_step CUndo tl) with (back tl). destruct (back tl) as [r tl1] eqn:E.
  specialize (IH tl1). destruct (tl_steps (replicate n CUndo) tl1). cbn [snd] in *.
  unfold backs. rewrite Nat.iter_succ_r, E. exact IH.
Qed.

Lemma tl_steps_redo n tl : (tl_steps (replicate n CRedo) tl).2 = forths n tl.
Proof.
  revert tl. induction n as [|n IH]; intros tl; [done|]. cbn [replicate tl_steps].
  change (tl_step CRedo tl) with (forth tl). destruct (forth tl) as [r tl1] eqn:E.
  specialize (IH tl1). destruct (tl_steps (replicate n CRedo) tl1). cbn [snd] in *.
  unfold forths. rewrite Nat.iter_succ_r, E. exact IH.
Qed.

Lemma all_expected_simple cmd n s : expected (V:=V) cmd = (λ _, True) →
  all_expected (replicate n cmd) s.
Proof.
  intros He. revert s. induction n as [|n IH]; intros s; simpl; [done|]. by rewrite He.
Qed.

(** Timelines with the same worlds and the same place are at the same present. *)
Lemma same_present tl tl' : worlds tl = worlds tl' → length (past tl) = length (past tl') →
  present tl = present tl'.
Proof.
  intros Hw Hl. pose proof (present_worlds tl) as Hp. rewrite Hw, Hl, present_worlds in Hp.
  congruence.
Qed.

Lemma backs_forths n tl : future tl = [] → (length (past tl) ≤ n)%nat →
  present (forths n (backs n tl)) = present tl.
Proof.
  intros Hf Hn. destruct (backs_worlds n tl) as [Hw Hl].
  destruct (forths_worlds n (backs n tl)) as [Hw' Hl'].
  apply same_present; [by rewrite Hw'|]. rewrite Hl', Hl.
  pose proof (f_equal length Hw) as Hlen. unfold worlds in Hlen.
  rewrite !length_app, !length_reverse, Hl, Hf in Hlen. simpl in Hlen. lia.
Qed.

Lemma backs_start n tl c : (length (past tl) ≤ n)%nat → last (present tl :: past tl) = Some c →
  present (backs n tl) = c.
Proof.
  intros Hn Hlast. destruct (backs_worlds n tl) as [Hw Hl].
  pose proof (present_worlds (backs n tl)) as Hp. rewrite Hw, Hl in Hp.
  replace (length (past tl) - n)%nat with 0%nat in Hp by lia.
  unfold worlds in Hp. rewrite (assoc_L (++)), <- reverse_cons in Hp.
  rewrite lookup_app_l in Hp.
  2:{ rewrite length_reverse. simpl. lia. }
  rewrite <- head_lookup, head_reverse in Hp. congruence.
Qed.

(** ** The scene is told *)

(** Where what is posted should make of the scene what the cache holds: names are
    not empty, what is deleted is a component of an entity, a drag goes by the
    grid, and the scene reports what the cache holds. *)
Definition told (cmd : Command V) (s : History V * Workspace V) : Prop :=
  match cmd with
  | CAuthor _ name _ => name ≠ ""
  | CDelete entity name => name ≠ "" ∧ is_Some entity
  | CDrag snap _ => snap = true
  | CSelection _ _ comps => load_all comps (cells s.2) = cells s.2
  | _ => True
  end.

Definition named_cells c : Prop := ∀ k, is_Some (c !! k) → k.2 ≠ "".

Abbreviation named_batches bs := (Forall (Forall (λ e, he_name e ≠ "")) bs).

(** Nothing recorded has an empty name. *)
Definition all_named (s : History V * Workspace V) : Prop :=
  named_cells (cells s.2) ∧ named_batches (undoStack s.1) ∧ named_batches (redoStack s.1).

Lemma named_eq name (ms : list SceneMessage) : name ≠ "" → named name ms = ms.
Proof. intros Hn. unfold named. by rewrite (proj2 (String.eqb_neq _ _)). Qed.

Lemma scene_replay side b c : Forall (λ e, he_name e ≠ "") b →
  foldl scene_apply c (replay_messages side b) = write_all side b c.
Proof.
  intros Hb. revert c. induction Hb as [|e b He _ IH]; intros c; [done|].
  unfold replay_messages. cbn [map concat]. rewrite foldl_app.
  unfold write_message at 1. rewrite named_eq by done.
  change (concat (map (λ e, write_message (he_entity e) (he_name e) (side e)) b))
    with (replay_messages side b). rewrite IH. cbn [foldl write_all]. f_equal.
  destruct (side e); simpl; [by rewrite parse_stringify|done].
Qed.

Lemma scene_deletions ids c :
  foldl scene_apply c (deletions ids) = cellsOf (λ e, e ∉ ids) c.
Proof.
  revert c. induction ids as [|id ids IH]; intros c; simpl.
  - apply map_eq. intros k. rewrite lookup_cellsOf, decide_True; [done|]. apply not_elem_of_nil.
  - unfold deletions in IH. rewrite IH.
    apply (cellsOf_cellsOf _ _ (λ e, e ∉ id :: ids)). intros x. rewrite not_elem_of_cons. tauto.
Qed.

Lemma scene_drag raw c :
  foldl scene_apply c (drag_messages quantize withParent true raw c)
  = dragged quantize withParent true raw c.
Proof.
  revert c. induction raw as [|[eid t] raw IH]; intros c; [done|].
  cbn [drag_messages dragged app foldl scene_apply]. rewrite parse_stringify. apply IH.
Qed.

Definition message_named (m : SceneMessage) : Prop :=
  match m with
  | SetComponent _ name _ | DeleteComponent _ name => name ≠ ""
  | _ => True
  end.

Lemma scene_named c ms : named_cells c → Forall message_named ms →
  named_cells (foldl scene_apply c ms).
Proof.
  intros Hc Hms. revert c Hc. induction Hms as [|m ms Hm _ IH]; intros c Hc; [done|].
  cbn [foldl]. apply IH. intros k [x Hx].
  destruct m as [entity name json|entity name|entity r|]; cbn [scene_apply] in Hx.
  - destruct (JSON_parse json); [|by apply Hc; eexists].
    destruct (decide ((entity, name) = k)) as [<-|Hk]; [done|].
    rewrite lookup_insert_ne in Hx by done. by apply Hc; eexists.
  - apply lookup_delete_Some in Hx as [_ Hx]. by apply Hc; eexists.
  - rewrite lookup_cellsOf in Hx. case_decide; [|done]. by apply Hc; eexists.
  - by apply Hc; eexists.
Qed.

Lemma replay_named side b : Forall (λ e, he_name e ≠ "") b →
  Forall message_named (replay_messages side b).
Proof.
  intros Hb. unfold replay_messages. apply Forall_concat, Forall_map.
  eapply Forall_impl; [exact Hb|]. intros e He. unfold write_message. rewrite named_eq by done.
  repeat constructor. by destruct (side e).
Qed.

Abbreviation named_history h := (named_batches (undoStack h) ∧ named_batches (redoStack h)).

Lemma pushed_named b h : named_history h → Forall (λ e, he_name e ≠ "") b →
  named_history (pushed b h).
Proof.
  intros [Hu _] Hb. split; [|constructor]. cbn [pushed undoStack].
  assert (named_batches (undoStack h ++ [b])) as Hub.
  { apply Forall_app. split; [done|]. by apply Forall_singleton. }
  case_match; [by apply Forall_drop|done].
Qed.

(** A run that ends, having posted messages with names that make of the cells what
    they are. *)
Definition tells {A} (m : M (History V * Workspace V) A) s : Prop :=
  ∃ r h' v' ms, ends m s r h' v' ∧ v_bus v' = true ∧ suppress h' = false ∧ named_history h' ∧
    Forall message_named ms ∧ v_posted v' = posted s.2 ++ ms ∧
    v_cells v' = foldl scene_apply (cells s.2) ms.

Lemma tells_ends {A} (m : M (History V * Workspace V) A) h w r h' v' ms :
  busRef w = true → ends m (h, w) r h' v' → suppress h' = false → named_history h' →
  Forall message_named ms →
  v_bus v' = true → v_posted v' = posted w ++ ms →
  v_cells v' = foldl scene_apply (cells w) ms → tells m (h, w).
Proof. intros. by exists r, h', v', ms. Qed.

Lemma tells_ret {A B} (m : M (History V * Workspace V) A) (r : B) s :
  tells m s → tells (_ ← m; mret r) s.
Proof.
  intros (a & h' & v' & ms & (w' & Hrun & Hw) & Hrest). exists r, h', v', ms.
  split; [|done]. exists w'. split; [|done]. by rewrite (bind_ok _ _ _ _ _ Hrun).
Qed.

Lemma posted_write f ms w : busRef w = true →
  v_posted (v_write f (v_post ms (view w))) = posted w ++ ms.
Proof. intros Hb. unfold v_write, v_post, view. cbn. by rewrite Hb. Qed.

Lemma told_author entity name json h w : busRef w = true → suppress h = false →
  named_history h → name ≠ "" → tells (run (CAuthor entity name json)) (h, w).
Proof.
  intros Hbus Hs Hnh Hn. apply tells_ret.
  destruct entity as [key|].
  - assert (Forall message_named [SetComponent key name json]) as Hms by (by repeat constructor).
    destruct (JSON_parse json) as [x|] eqn:Hj.
    + eapply tells_ends; [done|by apply ends_author|done|..]; [|exact Hms|done|..].
      * apply pushed_named; [done|]. by repeat constructor.
      * rewrite named_eq by done. by apply posted_write.
      * cbn. by rewrite Hj.
    + eapply tells_ends; [done|apply ends_author_none; [done|by right]|done|done|exact Hms|done|..].
      * cbn. rewrite named_eq by done. cbn. by rewrite Hbus.
      * cbn. by rewrite Hj.
  - eapply (tells_ends _ _ _ _ _ _ []);
      [done|apply ends_author_none; [done|by left]|done|done|constructor|done|..|done].
    cbn. by rewrite Hbus.
Qed.

Lemma told_delete key name h w : busRef w = true → suppress h = false →
  named_history h → name ≠ "" → tells (run (CDelete (Some key) name)) (h, w).
Proof.
  intros Hbus Hs Hnh Hn. apply tells_ret.
  assert (Forall message_named [DeleteComponent key name]) as Hms by (by repeat constructor).
  destruct (cells w !! (key, name)) as [x|] eqn:E.
  - eapply tells_ends; [done|by apply ends_delete|done|..]; [|exact Hms|done|..|done].
    + apply pushed_named; [done|]. by repeat constructor.
    + cbn. rewrite named_eq by done. cbn. by rewrite Hbus.
  - eapply tells_ends; [done|by apply ends_delete_none|done|done|exact Hms|done|..].
    + cbn. rewrite named_eq by done. cbn. by rewrite Hbus.
    + cbn. symmetry. by apply delete_id.
Qed.

Lemma told_deleteSelected h w : busRef w = true → suppress h = false →
  named_history h → named_cells (cells w) → tells (run CDeleteSelected) (h, w).
Proof.
  intros Hbus Hs Hnh Hnc. apply tells_ret.
  destruct (decide (selectedIds w = [])) as [Hn|Hn].
  { eapply (tells_ends _ _ _ _ _ _ []); [done|by apply ends_deleteSelected_none|done|done|
      constructor|done|..|done]. cbn. by rewrite app_nil_r. }
  destruct (ends_deleteSelected warned h w _ eq_refl Hn Hs) as (b & Hrec & Hends).
  cbn [view v_cells] in Hrec.
  eapply (tells_ends _ _ _ _ _ _ (deletions (selectedIds w) ++ [SetSelection [] None]));
    [done|exact Hends|by case_decide|..].
  - case_decide; [done|]. apply pushed_named; [done|]. apply Forall_forall. intros e He.
    destruct Hrec as (_ & Hin & _). destruct (Hin e He) as (Hc & Hsome & _).
    apply (Hnc (EditorProofs.key e)). by rewrite Hc.
  - apply Forall_app. split; [|by repeat constructor]. apply Forall_map, Forall_true. done.
  - done.
  - cbn. by rewrite Hbus.
  - cbn. rewrite foldl_app. cbn. by rewrite scene_deletions.
Qed.

Lemma told_drag raw h w : busRef w = true → suppress h = false →
  named_history h → tells (run (CDrag true raw)) (h, w).
Proof.
  intros Hbus Hs Hnh. apply tells_ret.
  eapply (tells_ends _ _ _ _ _ _ (drag_messages quantize withParent true raw (cells w)));
    [done|by apply ends_dragEnd|by case_decide|..].
  - case_decide; [done|]. apply pushed_named; [done|]. clear.
    generalize (v_cells (view w)). induction raw as [|[eid t] raw IH]; intros c; [constructor|].
    cbn [drag_batch]. apply Forall_app. split; [|apply IH]. case_match; by repeat constructor.
  - clear. generalize (cells w).
    induction raw as [|[eid t] raw IH]; intros c; [constructor|].
    cbn [drag_messages app]. constructor; [done|]. apply IH.
  - done.
  - by apply posted_write.
  - cbn. by rewrite scene_drag.
Qed.

Lemma told_replay (undoing : bool) h w : busRef w = true → suppress h = false →
  named_history h → tells (run (if undoing then CUndo else CRedo)) (h, w).
Proof.
  intros Hbus Hs [Hu Hr].
  assert (posted w = posted w ++ []) as Hnil by (by rewrite app_nil_r).
  destruct undoing; cbn [EditorTimeline.run].
  - destruct (snoc_inv (undoStack h)) as [E|(bs & b & E)].
    + by eapply (tells_ends _ _ _ _ _ _ []); [done|by apply ends_undo_none|..].
    + rewrite E, Forall_app, Forall_singleton in Hu. destruct Hu as [Hbs Hb].
      eapply (tells_ends _ _ _ _ _ _ (replay_messages he_before b));
        [done|by apply ends_undo|done|..|done|by apply posted_write|].
      * cbn. rewrite Forall_app, Forall_singleton. done.
      * by apply replay_named.
      * cbn. by rewrite scene_replay.
  - destruct (snoc_inv (redoStack h)) as [E|(bs & b & E)].
    + by eapply (tells_ends _ _ _ _ _ _ []); [done|by apply ends_redo_none|..].
    + rewrite E, Forall_app, Forall_singleton in Hr. destruct Hr as [Hbs Hb].
      eapply (tells_ends _ _ _ _ _ _ (replay_messages he_after b));
        [done|by apply ends_redo|done|..|done|by apply posted_write|].
      * cbn. rewrite Forall_app, Forall_singleton. done.
      * by apply replay_named.
      * cbn. by rewrite scene_replay.
Qed.

Lemma told_step cmd h w : busRef w = true → suppress h = false → all_named (h, w) →
  told cmd (h, w) → tells (run cmd) (h, w).
Proof.
  intros Hbus Hs [Hnc Hnh] Ht. cbn [fst snd] in *. destruct cmd.
  - by apply told_author.
  - destruct Ht as [Hn [key ->]]. by apply told_delete.
  - by apply told_deleteSelected.
  - cbn in Ht. subst snap. by apply told_drag.
  - apply tells_ret. eapply (tells_ends _ _ _ _ _ _ []);
      [done|by apply ends_selectionMessage|done|done|constructor|done|..|exact Ht].
    cbn. by rewrite app_nil_r.
  - by apply (told_replay true).
  - by apply (told_replay false).
Qed.

(** Every command is one the scene is told of. *)
Fixpoint all_told (cmds : list (Command V)) (s : History V * Workspace V) : Prop :=
  match cmds with
  | [] => True
  | cmd :: cmds => told cmd s ∧ all_told cmds (run cmd s).2
  end.

Lemma run_all_told cmds s : busRef s.2 = true → suppress s.1 = false → all_named s →
  all_told cmds s →
  ∃ ms, posted (run_all cmds s).2.2 = posted s.2 ++ ms ∧
    cells (run_all cmds s).2.2 = foldl scene_apply (cells s.2) ms.
Proof.
  revert s. induction cmds as [|cmd cmds IH]; intros [h w] Hbus Hs Hn Ht.
  { exists []. by rewrite app_nil_r. }
  destruct Ht as [Ht Hall]. cbn [run_all].
  destruct (told_step cmd h w Hbus Hs Hn Ht)
    as (r & h' & v' & ms & (w' & Hrun & Hw) & Hb' & Hs' & Hn' & Hms & Hp & Hc).
  rewrite Hrun in Hall |- *. cbn [fst snd] in *. subst v'. cbn [view v_bus v_posted v_cells] in *.
  destruct (IH (h', w')) as (ms' & Hp' & Hc'); [done|done| |done|].
  { split; [|done]. cbn. rewrite Hc. apply scene_named; [apply Hn|done]. }
  destruct (run_all cmds (h', w')) as [rs s']. cbn [fst snd] in *.
  exists (ms ++ ms'). rewrite Hp', Hc', Hp, Hc, foldl_app, (assoc_L (++)). done.
Qed.

(** ** Theorems *)

(** C12.  The workspace refines a timeline.  From a workspace that has just opened,
    whatever is authored, deleted, dragged, reported by the scene, undone and
    redone, every call returns what the timeline says and the components are those
    of its present; its past is what can be undone, its future what can be
    redone, at most [HISTORY_MAX_STEPS] together.  The scene's reports are about
    entities without a recorded step or repeat what is known, and dragged
    entities have a known transform. *)
Theorem editor_is_timeline cmds w : all_expected cmds (newHistory, w) →
  let s := (run_all cmds (newHistory, w)).2 in
  let tl := (tl_steps cmds (opened w)).2 in
  (run_all cmds (newHistory, w)).1 = map Ok (tl_steps cmds (opened w)).1 ∧
  cells s.2 = present tl ∧
  length (undoStack s.1) = length (past tl) ∧ length (redoStack s.1) = length (future tl) ∧
  canUndo s = bool_decide (past tl ≠ []) ∧ canRedo s = bool_decide (future tl ≠ []) ∧
  isSuppressed s = false ∧
  (length (past tl) + length (future tl) ≤ HISTORY_MAX_STEPS)%nat.
Proof.
  intros Hex s tl. destruct (run_all_steps cmds _ _ (at_opened w) Hex) as [Hr Hat].
  destruct Hat as (Hc & _ & Hsup & Hp & Hf & Hlen). fold s tl in Hr, Hc, Hsup, Hp, Hf, Hlen.
  apply pastOf_length in Hp. apply futureOf_length in Hf. rewrite length_reverse in Hp, Hf.
  unfold canUndo, canRedo, isSuppressed, stacks. rewrite <- Hp, <- Hf in Hlen |- *.
  repeat split; try done.
  - by destruct (past tl).
  - by destruct (future tl).
Qed.

(** C37.  Undo takes back everything: after up to [HISTORY_MAX_STEPS] edits of a
    workspace that has just opened, as many undos leave the components it opened
    with, and as many redos those that the edits made. *)
Theorem undo_redo_restores cmds w : Forall edits cmds →
  (length cmds ≤ HISTORY_MAX_STEPS)%nat → all_expected cmds (newHistory, w) →
  let edited := (run_all cmds (newHistory, w)).2 in
  let undone := (run_all (replicate (length cmds) CUndo) edited).2 in
  let redone := (run_all (replicate (length cmds) CRedo) undone).2 in
  cells undone.2 = cells w ∧ cells redone.2 = cells edited.2.
Proof.
  intros He Hlen Hex edited undone redone.
  destruct (run_all_steps cmds _ _ (at_opened w) Hex) as [_ Hat1]. fold edited in Hat1.
  destruct (edits_extend cmds (opened w) He eq_refl) as (between & Hp & Hf & Hb & Hlast);
    [simpl; lia|].
  set (tl := (tl_steps cmds (opened w)).2) in *. rewrite app_nil_r in Hp. subst between.
  destruct (run_all_steps (replicate (length cmds) CUndo) _ _ Hat1) as [_ Hat2];
    [by apply all_expected_simple|]. fold undone in Hat2. rewrite tl_steps_undo in Hat2.
  destruct (run_all_steps (replicate (length cmds) CRedo) _ _ Hat2) as [_ Hat3];
    [by apply all_expected_simple|]. fold redone in Hat3. rewrite tl_steps_redo in Hat3.
  rewrite (proj1 Hat1), (proj1 Hat2), (proj1 Hat3). split.
  - by apply backs_start.
  - by apply backs_forths.
Qed.

(** The scene is told of every change: from a workspace that has just opened
    on a bus, the messages posted by authoring, deleting, dragging on the grid,
    undoing and redoing make of the components it opened with those it holds. *)
Theorem scene_follows cmds w : busRef w = true → named_cells (cells w) →
  all_told cmds (newHistory, w) →
  let s := (run_all cmds (newHistory, w)).2 in
  ∃ ms, posted s.2 = posted w ++ ms ∧ cells s.2 = foldl scene_apply (cells w) ms.
Proof. intros Hb Hn Ht s. by apply run_all_told; [..|split; [|split; constructor]|]. Qed.
End editor.

(** ** A session *)

(** Values that are texts. *)
#[local] Instance text_json : JsonText string :=
  {| JSON_parse := Some; JSON_stringify := id; is_object := λ _, false |}.

#[local] Instance text_json_laws : JsonTextLaws string.
Proof. by split. Qed.

(** A lamp and a chair, the lamp selected. *)
Definition room : Workspace string := {|
  busRef := true; posted := [];
  compValues := <["lamp" := <["Transform" := "here"]> (<["Light" := "on"]> ∅)]>
                (<["chair" := <["Transform" := "there"]> ∅]> ∅);
  liveComps := ∅; liveXform := ∅; liveSel := (["lamp"], Some "lamp"); nudgeBase := None;
  historyVersion := 0; playing := false; playEditNoted := false; playEditWarn := false |}.

Definition tidyUp : list (Command string) := [
  CAuthor (Some "lamp") "Light" "off";
  CDrag true [("lamp", "corner"); ("chair", "corner")];
  CDelete (Some "lamp") "Light";
  CDeleteSelected ].

Definition snapped (t : string) (_ : option string) : string := t +:+ "*".
Definition sameParent (t : string) (_ : option string) : string := t.

Lemma room_named : named_cells (cells room).
Proof.
  intros [e n] [x Hx]. rewrite lookup_cells in Hx. unfold compValue in Hx. cbn in Hx |- *.
  intros ->. destruct (decide (e = "lamp")) as [->|]; [|destruct (decide (e = "chair")) as [->|]].
  - rewrite lookup_insert_eq in Hx. cbn in Hx. rewrite !lookup_insert_ne in Hx by done. done.
  - rewrite lookup_insert_ne, lookup_insert_eq in Hx by done. cbn in Hx.
    by rewrite lookup_insert_ne in Hx by done.
  - by rewrite !lookup_insert_ne, lookup_empty in Hx by congruence.
Qed.

(** The lamp and the chair are known to the cache when they are dragged. *)
Lemma tidyUp_expected :
  all_expected false snapped sameParent tidyUp (newHistory, room).
Proof.
  split; [done|]. split; [|by repeat split]. split.
  - repeat constructor; set_solver.
  - intros p Hp. repeat (apply elem_of_cons in Hp as [->|Hp]); [| |by apply elem_of_nil in Hp];
      vm_compute; by eexists.
Qed.

Lemma editor_is_timeline_witness :
  let s := (run_all false snapped sameParent (tidyUp ++ [CUndo; CUndo; CRedo; CUndo])
              (newHistory, room)).2 in
  (run_all false snapped sameParent (tidyUp ++ [CUndo; CUndo; CRedo; CUndo])
     (newHistory, room)).1 = replicate 8 (Ok true) ∧
  compValue s.2 "chair" "Transform" = Some "corner*" ∧
  compValue s.2 "lamp" "Light" = Some "off" ∧
  canUndo s = true ∧ canRedo s = true ∧ length (undoStack s.1) = 2%nat.
Proof.
  assert (all_expected false snapped sameParent (tidyUp ++ [CUndo; CUndo; CRedo; CUndo])
    (newHistory, room)) as Hex.
  { split; [done|]. split; [apply tidyUp_expected|]. by repeat split. }
  destruct (editor_is_timeline false snapped sameParent _ room Hex)
    as (Hr & Hc & Hu & _ & Hcu & Hcr & _).
  cbv zeta. rewrite Hr, Hcu, Hcr, Hu.
  assert (∀ (w : Workspace string) k n, compValue w k n = cells w !! (k, n)) as Hcv
    by (intros; by rewrite lookup_cells).
  rewrite !Hcv, Hc. vm_compute. repeat split.
Defined.

Lemma undo_redo_restores_witness :
  let edited := (run_all false snapped sameParent tidyUp (newHistory, room)).2 in
  let undone := (run_all false snapped sameParent (replicate 4 CUndo) edited).2 in
  cells edited.2 = <[("chair", "Transform") := "corner*"]> ∅ ∧ cells undone.2 = cells room.
Proof.
  cbv zeta. split; [apply map_eq; intros k; vm_compute; reflexivity|].
  assert (Forall edits tidyUp) as He by repeat constructor.
  assert (length tidyUp ≤ HISTORY_MAX_STEPS)%nat as Hl by (vm_compute; lia).
  pose proof (undo_redo_restores false snapped sameParent tidyUp room He Hl tidyUp_expected)
    as [Hu _].
  change (length tidyUp) with 4%nat in Hu. exact Hu.
Defined.

Lemma scene_follows_witness :
  let s := (run_all false snapped sameParent (tidyUp ++ [CUndo; CUndo; CRedo; CUndo])
              (newHistory, room)).2 in
  ∃ ms, posted s.2 = ms ∧ length ms = 10%nat ∧ cells s.2 = foldl scene_apply (cells room) ms.
Proof.
  cbv zeta.
  destruct (scene_follows false snapped sameParent (tidyUp ++ [CUndo; CUndo; CRedo; CUndo]) room)
    as (ms & Hp & Hc).
  - reflexivity.
  - apply room_named.
  - repeat split; try discriminate. by eexists.
  - exists ms. split; [exact Hp|]. split; [|exact Hc].
    change (posted room ++ ms) with ms in Hp. rewrite <- Hp. vm_compute. reflexivity.
Defined.
