(* ===== verification/BootMachine.v ===== *)
(** * Starting the engine of the scene editor

    [ui3/src/editor/boot-machine.ts]: the reducer that says what the editor shows
    while the engine starts, and the overlay.  A percentage reported by the engine
    is a number, possibly not finite: [PNumber] holds the rational [n / d]. *)

From S2P Require Import Prelude JsString.
Open Scope string_scope.
Open Scope list_scope.
Open Scope Z_scope.

(** [BootPhase], ui3/src/editor/boot-machine.ts:1-6 *)
Inductive BootPhase := Pidle | Pbooting | Phandshaking | Pready | Perror.

(** [BootStage], ui3/src/editor/boot-machine.ts:8-8 *)
Inductive BootStage := Download | Compile | Init | Workers | Gpu.

#[export] Instance BootPhase_eq_dec : EqDecision BootPhase.
Proof. solve_decision. Defined.

#[export] Instance BootStage_eq_dec : EqDecision BootStage.
Proof. solve_decision. Defined.

(** [BootState], ui3/src/editor/boot-machine.ts:10-17 *)
Record BootState := {
  phase : BootPhase;
  progress : option Z;
  stage : option BootStage;
  engineReady : bool;
  sceneReady : bool;
  reason : option string
}.

#[export] Instance eta_BootState : Eta BootState := λ s, {|
  phase := phase s; progress := progress s; stage := stage s;
  engineReady := engineReady s; sceneReady := sceneReady s; reason := reason s |}.

(** [INITIAL_BOOT], ui3/src/editor/boot-machine.ts:19-26 *)
Definition INITIAL_BOOT : BootState := {|
  phase := Pidle; progress := None; stage := None;
  engineReady := false; sceneReady := false; reason := None |}.

(** A JavaScript number. *)
Inductive Pct :=
  | PNumber (n : Z) (d : positive)
  | PInfinity (positive : bool)
  | PNaN.

(** [BootEvent], ui3/src/editor/boot-machine.ts:28-37; the source of the viewport is
    a text, empty or not, or [null]. *)
Inductive BootEvent :=
  | EViewport (src : option string)
  | EIframeLoad
  | EProgress (pct : Pct) (stage : option BootStage)
  | EEngineReady
  | ESceneReady
  | EBusReset
  | EEngineError (reason : option string)
  | ETimeout
  | ERetry.

(** [Math.round]: the nearest integer, halves up. *)
Definition Math_round (n : Z) (d : positive) : Z := (2 * n + Zpos d) / (2 * Zpos d).

(** [clampPct], ui3/src/editor/boot-machine.ts:39-40 *)
Definition clampPct (n : Pct) : Z :=
  match n with
  | PNumber n d => Z.max 0 (Z.min 100 (Math_round n d))
  | PInfinity _ | PNaN => 0
  end.

(** [readyPhase], ui3/src/editor/boot-machine.ts:42-44 *)
Definition readyPhase (next : BootState) : BootState :=
  next <| phase := Pready |> <| reason := None |>.

(** [stageFromProgress], ui3/src/editor/boot-machine.ts:108-114 *)
Definition stageFromProgress (pct : Z) : BootStage :=
  if pct <? 80 then Download
  else if pct <? 85 then Compile
  else if pct <? 90 then Init
  else if pct <? 95 then Workers
  else Gpu.

(** [bootReducer], ui3/src/editor/boot-machine.ts:46-106 *)
Definition bootReducer (state : BootState) (event : BootEvent) : BootState :=
  match event with
  | EViewport src =>
      if decide (src = None ∨ src = Some "") then INITIAL_BOOT
      else if decide (phase state = Pidle) then INITIAL_BOOT <| phase := Pbooting |>
      else state
  | ESceneReady =>
      if decide (phase state = Pidle) then state
      else readyPhase (state <| sceneReady := true |> <| engineReady := true |>)
  | EEngineReady =>
      if decide (phase state = Pidle) then state <| engineReady := true |>
      else readyPhase (state <| engineReady := true |>)
  | EProgress pct st =>
      let pct := clampPct pct in
      let st := default (stageFromProgress pct) st in
      let next := state <| progress := Some pct |> <| stage := Some st |> in
      if decide (phase state = Pidle) then next
      else if 100 <=? pct then
        if decide (phase state = Pbooting) then next <| phase := Phandshaking |> else next
      else next
  | EIframeLoad => state
  | EBusReset =>
      if decide (phase state = Pidle) then state
      else if engineReady state then state <| sceneReady := false |>
      else state <| sceneReady := false |> <| phase := Phandshaking |>
  | EEngineError why =>
      if decide (phase state = Pidle) then state
      else if decide (phase state = Pready) then state
      else state <| phase := Perror |> <| reason := Some (default "engine error" why) |>
  | ETimeout =>
      if decide (phase state = Pready ∨ phase state = Pidle) then state
      else if engineReady state then readyPhase state
      else state <| phase := Perror |> <| reason := Some "taking longer than usual" |>
  | ERetry =>
      if decide (phase state = Pidle) then state
      else state <| phase := if engineReady state then Phandshaking else Pbooting |>
                 <| reason := None |>
  end.

(** [STAGE_TEXT], ui3/src/editor/boot-machine.ts:116-122 *)
Definition STAGE_TEXT (s : BootStage) : string :=
  match s with
  | Download => "Downloading engine"
  | Compile => "Compiling engine"
  | Init => "Starting engine"
  | Workers => "Starting workers"
  | Gpu => "Preparing GPU pipelines"
  end.

(** [BootOverlay], ui3/src/editor/boot-machine.ts:124-128; [kind] is ["loading"] or
    ["error"]. *)
Record BootOverlay := { show : bool; overlay_kind : option string; overlay_text : string }.

Definition loading (text : string) : BootOverlay :=
  {| show := true; overlay_kind := Some "loading"; overlay_text := text |}.

(** [bootOverlay], ui3/src/editor/boot-machine.ts:130-157 *)
Definition bootOverlay (state : BootState) : BootOverlay :=
  match phase state with
  | Pready | Pidle => {| show := false; overlay_kind := None; overlay_text := "" |}
  | Perror => {| show := true; overlay_kind := Some "error";
                 overlay_text := "The 3D engine is taking longer than usual to start." |}
  | Phandshaking => loading "Starting scene…"
  | Pbooting =>
      match progress state with
      | None => loading "Loading scene editor…"
      | Some p =>
          if 100 <=? p then loading "Starting scene…"
          else
            let st := default (stageFromProgress p) (stage state) in
            loading (STAGE_TEXT st +:+ "… " +:+ pretty p +:+ "%")
      end
  end.

(** [isEditorReady], ui3/src/editor/boot-machine.ts:159-159 *)
Definition isEditorReady (s : BootState) : bool := bool_decide (phase s = Pready).

(** [isLiveEditing], ui3/src/editor/boot-machine.ts:160-160 *)
Definition isLiveEditing (s : BootState) : bool := sceneReady s.

(** ** Runs *)

(** The state after some events. *)
Definition booted (events : list BootEvent) : BootState := foldl bootReducer INITIAL_BOOT events.

(** The editor has a viewport: the last event about it gave a source. *)
Definition mounts (mounted : bool) (event : BootEvent) : bool :=
  match event with
  | EViewport src => bool_decide (src ≠ None ∧ src ≠ Some "")
  | _ => mounted
  end.

Definition mounted (events : list BootEvent) : bool := foldl mounts false events.

(** What holds after any events; [m] is whether there is a viewport. *)
Record boot_ok (m : bool) (s : BootState) : Prop := {
  ok_idle : phase s = Pidle ↔ m = false;
  ok_ready : phase s = Pready → engineReady s = true ∧ reason s = None;
  ok_error : phase s = Perror → is_Some (reason s);
  ok_scene : sceneReady s = true → engineReady s = true ∧ phase s ≠ Pidle;
  ok_progress : match progress s with
                | Some p => 0 ≤ p ≤ 100 ∧ is_Some (stage s)
                | None => stage s = None
                end
}.

Lemma clampPct_bounds p : 0 ≤ clampPct p ≤ 100.
Proof. destruct p; simpl; lia. Qed.

Lemma boot_ok_initial : boot_ok false INITIAL_BOOT.
Proof. by split. Qed.

(** The clauses of [boot_ok] for a state that changed. *)
Ltac finish :=
  try done; cbn;
  first [ match goal with Hm : ∀ ph, _ |- _ => apply Hm; [tauto|done] end
        | intros; split; first [done | tauto | congruence]
        | intuition congruence ].

Lemma boot_ok_step m s e : boot_ok m s → boot_ok (mounts m e) (bootReducer s e).
Proof.
  intros [Hi Hr He Hs Hp].
  assert (∀ ph, phase s ≠ Pidle → ph ≠ Pidle → ph = Pidle ↔ m = false) as Hmount.
  { intros ph Hne Hph. split; [done|]. by intros ?%Hi. }
  assert (sceneReady s = true → phase s ≠ Pidle) as Hlive by (intros Hsc; apply (Hs Hsc)).
  destruct e as [src| |pct st| | | |why| |]; cbn [bootReducer mounts].
  - case_decide as Hsrc.
    + rewrite bool_decide_false by tauto. apply boot_ok_initial.
    + rewrite bool_decide_true by tauto. case_decide as Hph; [by split|]. by split.
  - by split.
  - pose proof (conj (clampPct_bounds pct) (mk_is_Some _ _ (eq_refl (Some
      (default (stageFromProgress (clampPct pct)) st))))) as Hb.
    case_decide as Hd; [by split|]. destruct (100 <=? clampPct pct); [|by split].
    case_decide as Hd'; [|by split]. split; try done; cbn.
    + by apply Hmount.
    + intros Hsc. by destruct (Hs Hsc).
  - case_decide as Hd; split; finish.
  - case_decide as Hd; split; finish.
  - case_decide as Hd; [by split|]. destruct (engineReady s) eqn:E; split; finish.
  - case_decide as Hd; [by split|]. case_decide as Hd'; [by split|]. split; finish.
  - case_decide as Hd; [by split|]. destruct (engineReady s) eqn:E; split; finish.
  - case_decide as Hd; [by split|]. destruct (engineReady s) eqn:E; split; finish.
Qed.

Lemma booted_ok events : boot_ok (mounted events) (booted events).
Proof.
  unfold mounted, booted. generalize boot_ok_initial.
  generalize false, INITIAL_BOOT. induction events as [|e events IH]; intros m s Hok; [done|].
  apply IH. by apply boot_ok_step.
Qed.

(** ** Theorems *)

(** Whatever events reach the editor, in whatever order: it is idle exactly
    while there is no viewport; it shows the editor only with a running engine, and
    says why when it shows an error; the scene is live only over a running engine;
    and progress is a percentage with a stage. *)
Theorem booted_invariant events :
  let s := booted events in
  (phase s = Pidle ↔ mounted events = false) ∧
  (isEditorReady s = true → engineReady s = true ∧ reason s = None) ∧
  (phase s = Perror → is_Some (reason s) ∧ overlay_kind (bootOverlay s) = Some "error") ∧
  (isLiveEditing s = true → engineReady s = true ∧ mounted events = true) ∧
  (∀ p, progress s = Some p → 0 ≤ p ≤ 100 ∧ is_Some (stage s)) ∧
  (show (bootOverlay s) = false ↔ isEditorReady s = true ∨ mounted events = false).
Proof.
  intros s. destruct (booted_ok events) as [Hi Hr He Hs Hp]. fold s in Hi, Hr, He, Hs, Hp.
  unfold isEditorReady, isLiveEditing. split; [done|]. split; [|split; [|split; [|split]]].
  - intros Hph%bool_decide_eq_true_1. by apply Hr.
  - intros Hph. split; [by apply He|]. unfold bootOverlay. by rewrite Hph.
  - intros Hsc. destruct (Hs Hsc) as [? Hne]. split; [done|].
    destruct (mounted events); [done|]. by destruct Hne; apply Hi.
  - intros p Hpr. by rewrite Hpr in Hp.
  - rewrite bool_decide_eq_true, <- Hi. unfold bootOverlay.
    destruct (phase s); cbn.
    + split; [by right|done].
    + destruct (progress s) as [p|]; [case_match|]; (split; [done|by intros [|]]).
    + split; [done|by intros [|]].
    + split; [by left|done].
    + split; [done|by intros [|]].
Qed.

(** Starting ends: with a viewport, in whatever state events have left it, the
    editor is ready as soon as the engine or the scene says so, and a timeout
    leaves it ready if the engine ever said so, with the error otherwise, never
    still loading; once ready it stays so until the viewport goes or the user
    retries. *)
Theorem boot_settles events : mounted events = true →
  let s := booted events in
  isEditorReady (bootReducer s EEngineReady) = true ∧
  isEditorReady (bootReducer s ESceneReady) = true ∧
  overlay_kind (bootOverlay (bootReducer s ETimeout)) ≠ Some "loading" ∧
  (isEditorReady (bootReducer s ETimeout) = true ↔ engineReady s = true) ∧
  (isEditorReady s = true → ∀ e, e ≠ ERetry → mounts true e = true →
    isEditorReady (bootReducer s e) = true).
Proof.
  intros Hm s. destruct (booted_ok events) as [Hi Hr _ _ _]. fold s in Hi, Hr. rewrite Hm in Hi.
  assert (phase s ≠ Pidle) as Hne by (by intros Hph%Hi).
  unfold isEditorReady. rewrite !bool_decide_eq_true. cbn [bootReducer].
  rewrite !(decide_False (P := phase s = Pidle)) by done.
  split; [done|]. split; [done|]. split; [|split].
  - case_decide as Hd; [unfold bootOverlay; destruct Hd as [-> |]; done|].
    by destruct (engineReady s).
  - case_decide as Hd.
    + destruct Hd as [Hd|]; [|done]. naive_solver.
    + destruct (engineReady s); simpl; naive_solver.
  - intros Hph e He Hmt. rewrite bool_decide_eq_true.
    destruct (Hr Hph) as [Heng _].
    destruct e as [src| |pct st| | | |why| |]; cbn [bootReducer mounts] in *; try done.
    + apply bool_decide_eq_true in Hmt. rewrite decide_False by tauto. by rewrite decide_False.
    + rewrite decide_False by done. case_match; [|done]. by rewrite decide_False by congruence.
    + by rewrite decide_False.
    + by rewrite decide_False.
    + rewrite decide_False by done. by rewrite Heng.
    + rewrite decide_False by done. by rewrite decide_True.
    + rewrite decide_True by tauto. done.
Qed.

(** A start whose engine is late: retried, then ready when the engine says so. *)
Lemma boot_settles_witness :
  let events := [EViewport (Some "/_play"); EProgress (PNumber 199 2) None; ETimeout; ERetry;
                 EProgress (PNumber 401 10) (Some Compile)] in
  overlay_text (bootOverlay (booted events)) = "Compiling engine… 40%" ∧
  isEditorReady (bootReducer (booted events) EEngineReady) = true ∧
  overlay_kind (bootOverlay (bootReducer (booted events) ETimeout)) ≠ Some "loading".
Proof.
  split; [vm_compute; reflexivity|].
  destruct (boot_settles [EViewport (Some "/_play"); EProgress (PNumber 199 2) None; ETimeout;
    ERetry; EProgress (PNumber 401 10) (Some Compile)]) as (He & _ & Ht & _).
  - vm_compute. reflexivity.
  - exact (conj He Ht).
Defined.
