(* ===== verification/EditorBus.v ===== *)
(** * The editor's channel to the scene

    [ui3/src/editor/editor-bus.ts]: messages posted to the scene, listeners of the
    scene's messages, and remote calls, each of which ends with the scene's reply, a
    timeout or the closing of the bus.

    The page runs one function at a time; a timer that is armed may fire between
    any two.  A promise is named by the number of its call, and [settled] is every
    call of its [resolve] or [reject], so that settling it twice would show.  A
    timer is named by the number of the call that armed it.  A value in a message is
    of a type [V], and what is not modelled of a message (its fields, for the
    messages the bus only carries) of a type [Msg]. *)

From S2P Require Import Prelude JsString.
Open Scope string_scope.
Open Scope list_scope.
Open Scope Z_scope.

Section bus.
Context {V Msg : Type}.

(** How a promise is settled. *)
Inductive Outcome :=
  | Resolved (result : option V)
  | Rejected (error : string).

(** [PendingRpc], ui3/src/editor/editor-bus.ts:34-38 *)
Record PendingRpc := { promise : Z; timer : Z }.

(** The identifier of a reply, a number or a string. *)
Inductive RpcId := IdNumber (n : Z) | IdString (s : string).

(** A message of the scene: a reply, or another. *)
Inductive SceneToPage :=
  | RpcReply (id : RpcId) (ok : bool) (result : option V) (error : option string)
  | OtherMessage (m : Msg).

(** What arrives on the channel. *)
Inductive Envelope :=
  | NotAnEnvelope
  | ToScene
  | ToPage (msg : option SceneToPage).

(** A call posted to the scene, or another message. *)
Inductive PageToScene :=
  | PostRpc (id method : string) (args : list V)
  | PostOther (m : Msg).

(** The variables of [createEditorBus], its channel, timers and promises,
    ui3/src/editor/editor-bus.ts:104-114 *)
Record Bus := {
  rpcSeq : Z;
  pending : gmap string PendingRpc;
  timers : gmap Z (string * string);        (** armed: the call's id and method *)
  settled : list (Z * Outcome);
  listeners : list nat;
  heard : list (nat * SceneToPage);         (** what listeners were called with *)
  sent : list PageToScene;
  isOpen : bool;                            (** the channel, and its [onmessage] *)
}.

#[export] Instance eta_Bus : Eta Bus := λ b, {|
  rpcSeq := rpcSeq b; pending := pending b; timers := timers b; settled := settled b;
  listeners := listeners b; heard := heard b; sent := sent b; isOpen := isOpen b |}.

(** [createEditorBus], where there are broadcast channels,
    ui3/src/editor/editor-bus.ts:101-114 *)
Definition createEditorBus : Bus := {|
  rpcSeq := 0; pending := ∅; timers := ∅; settled := []; listeners := []; heard := [];
  sent := []; isOpen := true |}.

(** [token], random; whether a message fits the schema, and whether the build is
    one that throws when it does not. *)
Context (token : string) (schema_holds : SceneToPage → bool) (dev : bool).

(** [check(SceneToPageMessageSchema, ..)]: in development a message that does not fit
    throws, in production it is handed back.
    ui3/src/editor/editor-bus.ts:122-126 *)
Definition checkMessage (msg : SceneToPage) : M Bus SceneToPage :=
  if schema_holds msg || negb dev then mret msg
  else throw (JsError "validation failed at editor-bus/scene-to-page").

(** [clearTimeout] *)
Definition clearTimer (t : Z) : M Bus unit := modify (λ b, b <| timers ::= delete t |>).

(** [resolve] or [reject] of a call. *)
Definition settle (call : Z) (o : Outcome) : M Bus unit :=
  modify (λ b, b <| settled ::= λ l, l ++ [(call, o)] |>).

(** [pending.has(id)] and [pending.get(id)]: the keys are strings. *)
Definition pendingOf (b : Bus) (id : RpcId) : option (string * PendingRpc) :=
  match id with
  | IdString s => entry ← pending b !! s; Some (s, entry)
  | IdNumber _ => None
  end.

(** [channel.onmessage], ui3/src/editor/editor-bus.ts:116-143; a listener that
    throws is ignored. *)
Definition onmessage (env : Envelope) : M Bus unit :=
  b ← gets id;
  match env with
  | ToPage (Some msg) =>
      when (isOpen b)
        (msg ← checkMessage msg;
         match msg with
         | RpcReply rid ok result error =>
             match pendingOf b rid with
             | Some (id, entry) =>
                 _ ← modify (λ b, b <| pending ::= delete id |>);
                 _ ← clearTimer (timer entry);
                 settle (promise entry)
                   (if ok then Resolved result
                    else Rejected (match error with
                                   | None | Some "" => "rpc failed"
                                   | Some e => e
                                   end))
             | None => modify (λ b, b <| heard ::= λ l, l ++ map (λ c, (c, msg)) (listeners b) |>)
             end
         | OtherMessage _ =>
             modify (λ b, b <| heard ::= λ l, l ++ map (λ c, (c, msg)) (listeners b) |>)
         end)
  | _ => mret tt
  end.

(** [post], ui3/src/editor/editor-bus.ts:145-150; a closed channel throws, and what
    it throws is dropped. *)
Definition post (m : PageToScene) : M Bus unit :=
  modify (λ b, if isOpen b then b <| sent ::= λ l, l ++ [m] |> else b).

(** [rpc]: the number of its promise, ui3/src/editor/editor-bus.ts:248-260 *)
Definition busRpc (method : string) (args : list V) : M Bus Z :=
  b ← gets id;
  let call := rpcSeq b + 1 in
  let rid := token +:+ "-" +:+ pretty call in
  _ ← modify (λ b, b <| rpcSeq := call |>);
  _ ← modify (λ b, b <| timers ::= <[call := (rid, method)]> |>);
  _ ← modify (λ b, b <| pending ::= <[rid := {| promise := call; timer := call |}]> |>);
  _ ← post (PostRpc rid method args);
  mret call.

(** The callback of a timer that is armed, ui3/src/editor/editor-bus.ts:251-256; the
    promise it rejects is that of the call that armed it. *)
Definition timerFires (t : Z) : M Bus unit :=
  b ← gets id;
  match timers b !! t with
  | Some (rid, method) =>
      _ ← modify (λ b, b <| timers ::= delete t |>);
      when (bool_decide (is_Some (pending b !! rid)))
        (_ ← modify (λ b, b <| pending ::= delete rid |>);
         settle t (Rejected ("rpc timeout: " +:+ method)))
  | None => mret tt
  end.

(** [exportComposite], ui3/src/editor/editor-bus.ts:261-263 *)
Definition exportComposite : M Bus Z := busRpc "exportComposite" [].

(** [onMessage], ui3/src/editor/editor-bus.ts:264-268; [listeners] is a set in the
    order of insertion. *)
Definition onMessage (cb : nat) : M Bus unit :=
  modify (λ b, if decide (cb ∈ listeners b) then b else b <| listeners ::= λ l, l ++ [cb] |>).

(** What [onMessage] returns, ui3/src/editor/editor-bus.ts:267-267 *)
Definition offMessage (cb : nat) : M Bus unit :=
  modify (λ b, b <| listeners ::= filter (λ c, c ≠ cb) |>).

(** [close], ui3/src/editor/editor-bus.ts:269-284; the calls are rejected in the
    order of the map. *)
Definition close : M Bus unit :=
  _ ← modify (λ b, b <| listeners := [] |>);
  b ← gets id;
  _ ← for_each (map_to_list (pending b)) (λ '(_, entry),
        _ ← clearTimer (timer entry);
        settle (promise entry) (Rejected "editor bus closed"));
  _ ← modify (λ b, b <| pending := ∅ |>);
  modify (λ b, b <| isOpen := false |>).

(** What can happen to the bus. *)
Inductive BusEvent :=
  | BRpc (method : string) (args : list V)
  | BPost (m : Msg)
  | BMessage (env : Envelope)
  | BTimer (t : Z)
  | BListen (cb : nat)
  | BUnlisten (cb : nat)
  | BClose.

(** What an event does; what a handler throws goes to the console. *)
Definition bus_event (e : BusEvent) (b : Bus) : Bus :=
  match e with
  | BRpc method args => (busRpc method args b).2
  | BPost m => (post (PostOther m) b).2
  | BMessage env => (onmessage env b).2
  | BTimer t => (timerFires t b).2
  | BListen cb => (onMessage cb b).2
  | BUnlisten cb => (offMessage cb b).2
  | BClose => (close b).2
  end.
End bus.
