(* ===== verification/EditorBusProofs.v ===== *)
(** * Remote calls of the editor end once

    Over any sequence of calls, messages, timers and closings, every call is either
    waiting, under an armed timer, or settled, once. *)

From S2P Require Import Prelude JsString EditorBus.
Open Scope string_scope.
Open Scope list_scope.
Open Scope Z_scope.

Section bus.
Context {V Msg : Type}.
Context (token : string) (schema_holds : SceneToPage (V := V) (Msg := Msg) → bool) (dev : bool).
Abbreviation Bus := (@Bus V Msg).
Abbreviation bus_event := (bus_event token schema_holds dev).
Implicit Types (b : Bus).

(** The identifier of a call. *)
Definition rid (n : Z) : string := token +:+ "-" +:+ pretty n.

Lemma rid_inj n m : rid n = rid m → n = m.
Proof. intros Heq. apply app_inj_r, app_inj_r in Heq. by apply (inj pretty). Qed.

(** The calls that were settled. *)
Definition done_calls b : list Z := map fst (settled b).

Record bus_ok b : Prop := {
  ok_seq : 0 ≤ rpcSeq b;
  ok_timers : ∀ n p, timers b !! n = Some p → 1 ≤ n ≤ rpcSeq b ∧ p.1 = rid n ∧
    pending b !! rid n = Some {| promise := n; timer := n |};
  ok_pending : ∀ id e, pending b !! id = Some e →
    promise e = timer e ∧ ∃ method, timers b !! timer e = Some (id, method);
  ok_once : NoDup (done_calls b);
  ok_done : ∀ n, n ∈ done_calls b → 1 ≤ n ≤ rpcSeq b ∧ timers b !! n = None;
  ok_all : ∀ n, 1 ≤ n ≤ rpcSeq b → n ∈ done_calls b ∨ is_Some (timers b !! n);
  ok_listeners : NoDup (listeners b)
}.

Lemma createEditorBus_ok : bus_ok createEditorBus.
Proof.
  split; simpl; try done; try (by constructor).
  - intros n Hn. by apply elem_of_nil in Hn.
  - intros n Hn. lia.
Qed.

(** A call that ends: its timer and its entry go, its promise is settled. *)
Definition ended (n : Z) (o : Outcome) b : Bus :=
  b <| pending ::= delete (rid n) |> <| timers ::= delete n |>
    <| settled ::= λ l, l ++ [(n, o)] |>.

Lemma ended_ok n o b : bus_ok b → is_Some (timers b !! n) → bus_ok (ended n o b).
Proof.
  intros [Hseq Ht Hp Hnd Hd Ha Hl] [[id method] Hn]. unfold ended. split; simpl; try done.
  - intros n' p Hn'. apply lookup_delete_Some in Hn' as [Hne Hn'].
    destruct (Ht n' p Hn') as (? & ? & ?). repeat split; try done; try lia.
    rewrite lookup_delete_ne; [done|]. intros Heq. by apply Hne, rid_inj.
  - intros id' e He. apply lookup_delete_Some in He as [Hne He].
    destruct (Hp id' e He) as (? & m & Hm). split; [done|]. exists m.
    rewrite lookup_delete_ne; [done|]. intros Heq. apply Hne.
    destruct (Ht _ _ Hm) as (_ & Hid & _). simpl in Hid. by rewrite Hid, Heq.
  - unfold done_calls in *. simpl. rewrite map_app. apply NoDup_app.
    split; [done|]. split; [|apply NoDup_singleton].
    intros n' Hn' Heq. apply list_elem_of_singleton in Heq. subst n'.
    destruct (Hd n Hn') as [_ Hnone]. congruence.
  - intros n' Hn'. unfold done_calls in Hn'. simpl in Hn'. rewrite map_app in Hn'.
    apply elem_of_app in Hn' as [Hn'|Hn'].
    + destruct (Hd n' Hn') as [? Hnone]. split; [done|]. by apply lookup_delete_None; right.
    + apply list_elem_of_singleton in Hn'. simpl in Hn'. subst n'.
      split; [by destruct (Ht _ _ Hn)|]. apply lookup_delete_eq.
  - intros n' Hn'. unfold done_calls. simpl. rewrite map_app.
    destruct (decide (n' = n)) as [->|Hne]; [left; set_solver|].
    destruct (Ha n' Hn') as [Hin|Hs]; [left; set_solver|right]. by rewrite lookup_delete_ne.
Qed.

Lemma started_ok n b method args : bus_ok b → n = rpcSeq b + 1 →
  bus_ok (b <| rpcSeq := n |> <| timers ::= <[n := (rid n, method)]> |>
            <| pending ::= <[rid n := {| promise := n; timer := n |}]> |>
            <| sent := args |>).
Proof.
  intros [Hseq Ht Hp Hnd Hd Ha Hl] ->. split; simpl; try done.
  - lia.
  - intros n' p Hn'. apply lookup_insert_Some in Hn' as [[<- <-]|[Hne Hn']].
    + split; [lia|]. split; [done|]. apply lookup_insert_eq.
    + destruct (Ht n' p Hn') as (? & ? & ?). split; [lia|]. split; [done|].
      rewrite lookup_insert_ne; [done|]. intros Heq. by apply Hne, rid_inj.
  - intros id e He. apply lookup_insert_Some in He as [[<- <-]|[Hne He]].
    + split; [done|]. exists method. apply lookup_insert_eq.
    + destruct (Hp id e He) as (? & m & Hm). split; [done|]. exists m.
      rewrite lookup_insert_ne; [done|]. intros Heq.
      destruct (Ht _ _ Hm) as (Hle & _). lia.
  - intros n' Hn'. destruct (Hd n' Hn') as [? Hnone]. split; [lia|].
    rewrite lookup_insert_ne; [done|]. lia.
  - intros n' Hn'. destruct (decide (n' = rpcSeq b + 1)) as [->|Hne].
    + right. rewrite lookup_insert_eq. by eexists.
    + destruct (Ha n') as [Hin|Hs]; [lia|by left|right]. rewrite lookup_insert_ne; [done|lia].
Qed.

(** What the invariant does not look at. *)
Lemma other_ok b b' : bus_ok b → rpcSeq b' = rpcSeq b → pending b' = pending b →
  timers b' = timers b → settled b' = settled b → NoDup (listeners b') → bus_ok b'.
Proof.
  intros [] Hs Hp Ht Hd Hl. split; unfold done_calls in *; rewrite ?Hs, ?Hp, ?Ht, ?Hd; done.
Qed.

(** *** Events *)

(** A reply to a call that waits. *)
Lemma reply_ends b n p ok result error : bus_ok b → isOpen b = true →
  timers b !! n = Some p →
  (schema_holds (RpcReply (IdString (rid n)) ok result error) || negb dev) = true →
  bus_event (BMessage (ToPage (Some (RpcReply (IdString (rid n)) ok result error)))) b
  = ended n (if ok then Resolved result
             else Rejected (match error with
                            | None | Some "" => "rpc failed"
                            | Some e => e
                            end)) b.
Proof.
  intros [_ Ht _ _ _ _ _] Ho Hn Hs. destruct (Ht n p Hn) as (_ & _ & Hp).
  cbn [EditorBus.bus_event]. unfold onmessage, gets, checkMessage, mbind, M_bind at 1. cbn [id].
  rewrite Ho, Hs. cbn [when]. unfold M_bind. cbn [mret M_ret]. unfold pendingOf. rewrite Hp.
  cbn. unfold ended. destruct b; done.
Qed.

(** A message that is no reply to a call that waits goes to the listeners. *)
Lemma message_heard b msg : isOpen b = true → (schema_holds msg || negb dev) = true →
  match msg with RpcReply id _ _ _ => pendingOf b id = None | OtherMessage _ => True end →
  bus_event (BMessage (ToPage (Some msg))) b
  = b <| heard ::= λ l, l ++ map (λ c, (c, msg)) (listeners b) |>.
Proof.
  intros Ho Hs Hm. cbn [EditorBus.bus_event]. unfold onmessage, gets, checkMessage, mbind, M_bind at 1.
  cbn [id]. rewrite Ho, Hs. cbn [when]. unfold M_bind. cbn [mret M_ret].
  destruct msg; [by rewrite Hm|done].
Qed.

(** A timer that is armed. *)
Lemma timer_ends b n id method : bus_ok b → timers b !! n = Some (id, method) →
  bus_event (BTimer n) b = ended n (Rejected ("rpc timeout: " +:+ method)) b.
Proof.
  intros [_ Ht _ _ _ _ _] Hn. destruct (Ht n _ Hn) as (_ & Hid & Hp). simpl in Hid. subst id.
  cbn [EditorBus.bus_event]. unfold timerFires, gets, mbind, M_bind at 1. cbn [id]. rewrite Hn.
  unfold M_bind, modify. cbn. rewrite bool_decide_true by (rewrite Hp; by eexists).
  cbn. unfold ended. destruct b; done.
Qed.

(** *** Closing *)

Definition closing (l : list (string * PendingRpc)) b : Bus :=
  foldl (λ b '(_, e), b <| timers ::= delete (timer e) |>
    <| settled ::= λ l, l ++ [(promise e, Rejected "editor bus closed")] |>) b l.

Lemma close_eq b :
  let b' := closing (map_to_list (pending b)) (b <| listeners := [] |>) in
  bus_event BClose b = b' <| pending := ∅ |> <| isOpen := false |>.
Proof.
  cbn [EditorBus.bus_event]. unfold close, gets, mbind, M_bind at 1, modify. cbn.
  set (b0 := b <| listeners := [] |>). change (pending b0) with (pending b).
  assert (∀ l b1, for_each l (λ '(_, entry), clearTimer (timer entry) ≫= (λ _,
    settle (promise entry) (Rejected "editor bus closed"))) b1 = (Ok tt, closing l b1)) as Hl.
  { induction l as [|[id e] l IH]; intros b1; [done|]. cbn [for_each closing foldl].
    rewrite (bind_ok _ _ b1 tt (b1 <| timers ::= delete (timer e) |>
      <| settled ::= λ l, l ++ [(promise e, Rejected "editor bus closed")] |>)) by done.
    apply IH. }
  unfold M_bind. by rewrite Hl.
Qed.

Lemma closing_eq l b :
  timers (closing l b) = foldr delete (timers b) (reverse (map (timer ∘ snd) l)) ∧
  settled (closing l b) = settled b ++ map (λ p, (promise p.2, Rejected "editor bus closed")) l ∧
  rpcSeq (closing l b) = rpcSeq b ∧ listeners (closing l b) = listeners b ∧
  heard (closing l b) = heard b.
Proof.
  revert b. induction l as [|[id e] l IH]; intros b; [by rewrite app_nil_r|].
  cbn [closing foldl]. destruct (IH (b <| timers ::= delete (timer e) |>
      <| settled ::= λ l, l ++ [(promise e, Rejected "editor bus closed")] |>))
    as (Ht & Hs & Hq & Hl & Hh).
  split; [|split].
  - unfold closing in Ht. rewrite Ht. cbn [map]. rewrite reverse_cons, foldr_app. done.
  - unfold closing in Hs. rewrite Hs. simpl. by rewrite <- (assoc_L (++)).
  - exact (conj Hq (conj Hl Hh)).
Qed.

Lemma lookup_foldr_delete {A} (ks : list Z) (m : gmap Z A) k x :
  foldr delete m ks !! k = Some x → (k ∉ ks) ∧ m !! k = Some x.
Proof.
  induction ks as [|k' ks IH]; simpl; [intros; split; [apply not_elem_of_nil|done]|].
  intros Hx. apply lookup_delete_Some in Hx as [Hne Hx]. destruct (IH Hx). split; [|done].
  apply not_elem_of_cons. split; congruence.
Qed.

(** Every timer that is armed is that of an entry that waits. *)
Lemma armed_waits b n p : bus_ok b → timers b !! n = Some p →
  n ∈ map (timer ∘ snd) (map_to_list (pending b)) ∧
  n ∈ map (λ q, promise q.2) (map_to_list (pending b)).
Proof.
  intros Hok Hn. destruct (ok_timers _ Hok n p Hn) as (_ & _ & Hp).
  apply elem_of_map_to_list, list_elem_of_In in Hp.
  split; apply list_elem_of_In, in_map_iff; eexists; (split; [|exact Hp]); done.
Qed.

Lemma closed_timers b : bus_ok b → timers (bus_event BClose b) = ∅.
Proof.
  intros Hok. rewrite close_eq. cbn.
  destruct (closing_eq (map_to_list (pending b)) (b <| listeners := [] |>)) as (Ht & _).
  rewrite Ht. apply map_eq. intros n. rewrite lookup_empty.
  destruct (foldr _ _ _ !! n) as [p|] eqn:E; [|done].
  apply lookup_foldr_delete in E as [Hout Hn]. exfalso. apply Hout.
  apply elem_of_reverse. by apply (armed_waits b n p).
Qed.

Lemma closed_done b : done_calls (bus_event BClose b)
  = done_calls b ++ map (λ q, promise q.2) (map_to_list (pending b)).
Proof.
  rewrite close_eq. unfold done_calls. cbn.
  destruct (closing_eq (map_to_list (pending b)) (b <| listeners := [] |>)) as (_ & Hs & _).
  rewrite Hs. by rewrite map_app, map_map.
Qed.

Lemma pending_promises b : bus_ok b →
  NoDup (map (λ q, promise q.2) (map_to_list (pending b))) ∧
  ∀ n, n ∈ map (λ q, promise q.2) (map_to_list (pending b)) → is_Some (timers b !! n).
Proof.
  intros Hok.
  assert (∀ q, q ∈ map_to_list (pending b) →
    q.1 = rid (promise q.2) ∧ timer q.2 = promise q.2 ∧ is_Some (timers b !! promise q.2)) as Hq.
  { intros [id e] Hin. apply elem_of_map_to_list in Hin. cbn.
    destruct (ok_pending _ Hok id e Hin) as (Heq & m & Hm).
    destruct (ok_timers _ Hok _ _ Hm) as (_ & Hid & _). rewrite Heq. by split_and!. }
  split.
  - apply (NoDup_fmap_2_strong (λ q, promise q.2)); [|apply NoDup_map_to_list].
    intros [id e] [id' e'] Hin Hin' Heq. cbn in Heq.
    destruct (Hq _ Hin) as (Hid & Ht & _), (Hq _ Hin') as (Hid' & Ht' & _). cbn in *.
    destruct e, e'. cbn in *. congruence.
  - intros n Hn. apply list_elem_of_In, in_map_iff in Hn as (q & <- & Hin).
    apply list_elem_of_In in Hin. by apply Hq.
Qed.

Lemma close_ok b : bus_ok b → bus_ok (bus_event BClose b).
Proof.
  intros Hok. pose proof (closed_timers b Hok) as Ht. pose proof (closed_done b) as Hd.
  destruct (pending_promises b Hok) as [Hnd Hall].
  assert (pending (bus_event BClose b) = ∅ ∧ rpcSeq (bus_event BClose b) = rpcSeq b ∧
    listeners (bus_event BClose b) = []) as (Hp & Hs & Hl).
  { rewrite close_eq. cbn.
    by destruct (closing_eq (map_to_list (pending b)) (b <| listeners := [] |>))
      as (_ & _ & -> & -> & _). }
  pose proof Hok as [Hseq Htm _ Honce Hdone Hcalls _]. split; rewrite ?Hs, ?Hp, ?Ht, ?Hd, ?Hl.
  - done.
  - intros n p. by rewrite lookup_empty.
  - intros id e. by rewrite lookup_empty.
  - apply NoDup_app. split; [done|]. split; [|done]. intros n Hn Hin.
    destruct (Hdone n Hn) as [_ Hnone], (Hall n Hin) as [p Hp']. congruence.
  - intros n Hn. split; [|apply lookup_empty]. apply elem_of_app in Hn as [Hn|Hn].
    + by apply Hdone.
    + destruct (Hall n Hn) as [p Hp']. by apply (Htm n p).
  - intros n Hn. left. apply elem_of_app. destruct (Hcalls n Hn) as [|[p Hp']]; [by left|right].
    by apply (armed_waits b n p).
  - constructor.
Qed.

Lemma message_ok env b : bus_ok b → bus_ok (bus_event (BMessage env) b).
Proof.
  intros Hok. destruct env as [| |[msg|]]; try exact Hok.
  destruct (isOpen b) eqn:Ho.
  2:{ cbn [EditorBus.bus_event]. unfold onmessage, gets, mbind, M_bind at 1. cbn [id].
      by rewrite Ho. }
  destruct (schema_holds msg || negb dev) eqn:Hs.
  2:{ cbn [EditorBus.bus_event]. unfold onmessage, gets, checkMessage, mbind, M_bind at 1.
      cbn [id]. by rewrite Ho, Hs. }
  assert (bus_ok (b <| heard ::= λ l, l ++ map (λ c, (c, msg)) (listeners b) |>)) as Hheard.
  { apply (other_ok b); try done. apply Hok. }
  destruct msg as [id ok result error|m]; [|by rewrite message_heard].
  destruct (pendingOf b id) as [[sid e]|] eqn:Hp; [|by rewrite message_heard].
  destruct id as [n|sid']; [done|]. unfold pendingOf in Hp.
  destruct (pending b !! sid') as [e'|] eqn:Hpe; [|done]. simpl in Hp. injection Hp as -> ->.
  destruct (ok_pending _ Hok _ _ Hpe) as (Heq & m & Hm).
  destruct (ok_timers _ Hok _ _ Hm) as (_ & Hid & _). simpl in Hid. subst sid.
  rewrite (reply_ends b (timer e) (rid (timer e), m)); [|done..].
  apply ended_ok; [done|]. by eexists.
Qed.

Lemma bus_event_ok e b : bus_ok b → bus_ok (bus_event e b).
Proof.
  intros Hok. destruct e as [method args|m|env|t|cb|cb|].
  - cbn [EditorBus.bus_event]. unfold busRpc, gets, mbind, M_bind at 1. cbn [id].
    apply (other_ok (b <| rpcSeq := rpcSeq b + 1 |>
      <| timers ::= <[rpcSeq b + 1 := (rid (rpcSeq b + 1), method)]> |>
      <| pending ::= <[rid (rpcSeq b + 1) := {| promise := rpcSeq b + 1; timer := rpcSeq b + 1 |}]> |>
      <| sent := sent b |>)); [by apply started_ok|..];
      unfold M_bind, modify, post, mret, M_ret; cbn; destruct (isOpen b); try done; apply Hok.
  - apply (other_ok b); [done|..]; cbn; destruct (isOpen b); try done; apply Hok.
  - by apply message_ok.
  - destruct (timers b !! t) as [[id method]|] eqn:Ht.
    + rewrite (timer_ends b t id method) by done. apply ended_ok; [done|]. by eexists.
    + cbn [EditorBus.bus_event]. unfold timerFires, gets, mbind, M_bind. cbn [id]. by rewrite Ht.
  - cbn. case_decide; [done|]. apply (other_ok b); try done. cbn. apply NoDup_app.
    split; [apply Hok|]. split; [|apply NoDup_singleton].
    intros c Hc Hin. apply list_elem_of_singleton in Hin. congruence.
  - apply (other_ok b); try done. cbn. apply NoDup_filter, Hok.
  - by apply close_ok.
Qed.

(** The bus after some events. *)
Definition bus_after (events : list BusEvent) : Bus :=
  foldl (λ b e, bus_event e b) createEditorBus events.

Lemma bus_after_ok events : bus_ok (bus_after events).
Proof.
  unfold bus_after. generalize createEditorBus_ok. generalize (createEditorBus (V := V) (Msg := Msg)).
  induction events as [|e events IH]; intros b Hok; [done|]. apply IH. by apply bus_event_ok.
Qed.

(** ** Theorems *)

(** C13.  Every remote call ends once.  Whatever is called, answered, answered again,
    timed out, listened to or closed, in any order: no promise is settled twice,
    and a call that was made is settled or waits under a timer that is armed, not
    both; firing that timer settles it with the timeout, and closing the bus
    settles every call that waits. *)
Theorem rpc_settled_once events :
  let b := bus_after events in
  NoDup (done_calls b) ∧
  (∀ call, call ∈ done_calls b ∨ is_Some (timers b !! call) ↔ 1 ≤ call ≤ rpcSeq b) ∧
  (∀ call, call ∈ done_calls b → timers b !! call = None) ∧
  (∀ call id method, timers b !! call = Some (id, method) →
    settled (bus_event (BTimer call) b)
    = settled b ++ [(call, Rejected ("rpc timeout: " +:+ method))]) ∧
  (∀ call, 1 ≤ call ≤ rpcSeq b → call ∈ done_calls (bus_event BClose b)) ∧
  NoDup (done_calls (bus_event BClose b)).
Proof.
  intros b. pose proof (bus_after_ok events) as Hok. fold b in Hok.
  split; [apply Hok|]. split; [|split; [|split; [|split]]].
  - intros call. split; [|apply Hok]. intros [Hd|[p Hp]]; [by apply Hok|].
    by apply (ok_timers _ Hok call p).
  - intros call Hd. by apply Hok.
  - intros call id method Ht. by rewrite (timer_ends b call id method).
  - intros call Hc. pose proof (close_ok b Hok) as Hok'.
    destruct (ok_all _ Hok' call) as [|[p Hp]]; [|done|].
    + assert (rpcSeq (bus_event BClose b) = rpcSeq b) as ->; [|done]. rewrite close_eq. cbn.
      by destruct (closing_eq (map_to_list (pending b)) (b <| listeners := [] |>))
        as (_ & _ & -> & _).
    + by rewrite closed_timers, lookup_empty in Hp.
  - by apply close_ok.
Qed.

(** A reply reaches the call it answers and no other: it settles that promise
    with what the scene said, disarms its timer, leaves every other call as it was
    and is not shown to listeners; a second reply to the same call settles
    nothing. *)
Theorem reply_settles_its_call events call id method ok result error :
  let b := bus_after events in
  let msg := RpcReply (IdString id) ok result error in
  isOpen b = true → timers b !! call = Some (id, method) →
  (schema_holds msg || negb dev) = true →
  let b' := bus_event (BMessage (ToPage (Some msg))) b in
  settled b' = settled b ++ [(call,
    if ok then Resolved result
    else Rejected (match error with None | Some "" => "rpc failed" | Some e => e end))] ∧
  timers b' = delete call (timers b) ∧ heard b' = heard b ∧
  (∀ other, other ≠ id → pending b' !! other = pending b !! other) ∧
  settled (bus_event (BMessage (ToPage (Some msg))) b') = settled b'.
Proof.
  intros b msg Ho Ht Hs b'. pose proof (bus_after_ok events) as Hok. fold b in Hok.
  destruct (ok_timers _ Hok _ _ Ht) as (_ & Hid & _). simpl in Hid. subst id.
  assert (b' = ended call (if ok then Resolved result
    else Rejected (match error with None | Some "" => "rpc failed" | Some e => e end)) b) as Hb'
    by (by apply (reply_ends b call (rid call, method))).
  rewrite Hb'. split; [done|]. split; [done|]. split; [done|]. split.
  - intros other Hne. cbn. by apply lookup_delete_ne.
  - rewrite message_heard; [done|done|done|]. cbn. by rewrite lookup_delete_eq.
Qed.
End bus.

(** Two calls, the second answered first, the first closed on. *)
Lemma reply_settles_its_call_witness :
  let b := bus_after (V := Z) (Msg := unit) "t" (λ _, true) true
             [BRpc "sceneStats" []; BListen 7; BRpc "initAsset" [5]] in
  let b' := bus_event "t" (λ _, true) true
              (BMessage (ToPage (Some (RpcReply (IdString "t-2") true (Some 9) None)))) b in
  settled b' = [(2, Resolved (Some 9))] ∧ heard b' = [] ∧ is_Some (timers b' !! 1) ∧
  settled (bus_event "t" (λ _, true) true BClose b')
  = [(2, Resolved (Some 9)); (1, Rejected "editor bus closed")].
Proof.
  cbv zeta.
  destruct (reply_settles_its_call (V := Z) (Msg := unit) "t" (λ _, true) true
    [BRpc "sceneStats" []; BListen 7; BRpc "initAsset" [5]] 2 "t-2" "initAsset" true (Some 9) None)
    as (Hs & Ht & Hh & _).
  - vm_compute. reflexivity.
  - vm_compute. reflexivity.
  - reflexivity.
  - split; [rewrite Hs; vm_compute; reflexivity|].
    split; [rewrite Hh; vm_compute; reflexivity|].
    split; [rewrite Ht; vm_compute; by eexists|]. vm_compute. reflexivity.
Defined.
