(* ===== verification/JsonProofs.v ===== *)
(** * The text of a value is read back

    [stableStringify] prints JSON: reading its text gives the same value, so two
    values have one text only if they are the same.  The fuel of the parser is
    enough for every text. *)

From Stdlib Require Import Ascii.
From S2P Require Import Prelude JsString SyncEngine SyncProofs JsonParse.
Open Scope string_scope.
Open Scope list_scope.
Open Scope nat_scope.

(** ** Values *)

Definition is_node (v : Json) : bool :=
  match v with JArray _ | JObject _ => true | _ => false end.

(** What [JSON.parse] returns: no [undefined], and each key of an object once. *)
#[warnings="-register-all"]
Inductive parsed : Json → Prop :=
  | parsed_leaf v : is_node v = false → v ≠ JUndefined → parsed v
  | parsed_array l : Forall parsed l → parsed (JArray l)
  | parsed_object l : NoDup l.*1 → Forall (λ p, parsed p.2) l → parsed (JObject l).

(** Induction on a value with the hypothesis for its children. *)
Lemma Json_children_ind (P : Json → Prop) :
  (∀ v, is_node v = false → P v) →
  (∀ l, Forall P l → P (JArray l)) →
  (∀ l, Forall (λ p, P p.2) l → P (JObject l)) →
  ∀ v, P v.
Proof.
  intros Hleaf Harr Hobj. fix IH 1.
  intros [ | |b|t|s|l|l]; try (by apply Hleaf).
  - apply Harr. induction l; constructor; auto.
  - apply Hobj. induction l as [|[k v] l IHl]; constructor; [exact (IH v)|exact IHl].
Qed.

Lemma parsed_array_inv l : parsed (JArray l) → Forall parsed l.
Proof. by inversion 1. Qed.

Lemma parsed_object_inv l : parsed (JObject l) → NoDup l.*1 ∧ Forall (λ p, parsed p.2) l.
Proof. by inversion 1. Qed.

#[export] Instance same_value_refl : Reflexive same_value.
Proof. intros v. constructor. Qed.

(** *** The same value *)

Lemma Forall2_Permutation_r {A B} (R : A → B → Prop) l k k' :
  Forall2 R l k → k ≡ₚ k' → ∃ l', l ≡ₚ l' ∧ Forall2 R l' k'.
Proof.
  intros Hl Hk. revert l Hl.
  induction Hk as [|y k k' _ IH|x y k|k1 k2 k3 _ IH1 _ IH2]; intros l Hl.
  - by exists l.
  - apply Forall2_cons_inv_r in Hl as (x & l0 & Hx & Hl & ->).
    destruct (IH _ Hl) as (l' & Hp & Hl'). exists (x :: l'). split; [by f_equiv|by constructor].
  - apply Forall2_cons_inv_r in Hl as (a & l0 & Ha & Hl & ->).
    apply Forall2_cons_inv_r in Hl as (b & l1 & Hb & Hl & ->).
    exists (b :: a :: l1). split; [constructor|by repeat constructor].
  - destruct (IH1 _ Hl) as (l2 & H2 & Hl2). destruct (IH2 _ Hl2) as (l3 & H3 & Hl3).
    exists l3. split; [by etrans|done].
Qed.

Definition same_entry (p q : string * Json) : Prop := p.1 = q.1 ∧ same_value p.2 q.2.

Lemma same_entry_keys l m : Forall2 same_entry l m → l.*1 = m.*1.
Proof. induction 1 as [|p q l m [Hk _] _ IH]; [done|]. rewrite !fmap_cons. by f_equal. Qed.

Lemma same_value_array l b :
  same_value (JArray l) b ↔ ∃ l', b = JArray l' ∧ Forall2 same_value l l'.
Proof.
  split; [|intros (l' & -> & H); by constructor].
  inversion 1; subst; eexists; (split; [done|]); [|done].
  apply Forall_Forall2_diag, Forall_true. done.
Qed.

Lemma same_value_object l b :
  same_value (JObject l) b ↔
  b = JObject l ∨ ∃ m l', b = JObject l' ∧ NoDup l.*1 ∧ Forall2 same_entry l m ∧ m ≡ₚ l'.
Proof.
  split; [inversion 1; subst; eauto 8|].
  intros [->|(m & l' & -> & Hnd & Hm & Hp)]; [done|by econstructor].
Qed.

Lemma same_value_leaf a b : is_node a = false → same_value a b ↔ a = b.
Proof. intros Ha. split; [by destruct 1|intros ->; constructor]. Qed.

#[export] Instance same_value_sym : Symmetric same_value.
Proof.
  intros a. induction a as [a Ha|l IH|l IH] using Json_children_ind; intros b.
  - rewrite same_value_leaf by done. by intros ->.
  - rewrite same_value_array. intros (l' & -> & Hl). constructor. apply Forall2_flip.
    clear -IH Hl. induction Hl; decompose_Forall_hyps; constructor; auto.
  - rewrite same_value_object. intros [->|(m & l' & -> & Hnd & Hm & Hp)]; [done|].
    assert (Forall2 same_entry m l) as Hm'.
    { apply Forall2_flip. clear -IH Hm. induction Hm as [|p q ? ? [? ?] ? ?];
        decompose_Forall_hyps; constructor; [split; auto|auto]. }
    apply Forall2_flip in Hm'.
    destruct (Forall2_Permutation_r _ _ _ _ Hm' Hp) as (l0 & Hl0 & Hl').
    apply Forall2_flip in Hl'. eapply same_object; [|exact Hl'|by symmetry].
    rewrite <- Hp. by rewrite <- (same_entry_keys _ _ Hm).
Qed.

#[export] Instance same_value_trans : Transitive same_value.
Proof.
  intros a. induction a as [a Ha|l IH|l IH] using Json_children_ind; intros b c.
  - rewrite same_value_leaf by done. by intros ->.
  - rewrite same_value_array. intros (l' & -> & Hl). rewrite same_value_array.
    intros (l'' & -> & Hl'). constructor. revert l'' Hl'. clear -IH Hl.
    induction Hl; intros l'' Hl'; decompose_Forall_hyps; constructor; eauto.
  - intros [->|(m & l' & -> & Hnd & Hm & Hp)]%same_value_object; [done|].
    intros [->|(n & l'' & -> & _ & Hn & Hp')]%same_value_object; [by eapply same_object|].
    apply Forall2_flip in Hn. symmetry in Hp.
    destruct (Forall2_Permutation_r (flip same_entry) n l' m Hn Hp) as (n' & Hn' & Hmn).
    apply Forall2_flip in Hmn. apply (same_object _ n'); [done| |by rewrite <- Hn'].
    change (Forall2 same_entry l n'). clear -IH Hm Hmn. revert n' Hmn.
    induction Hm as [|p q ? ? [? ?] ? ?]; intros n' Hmn; decompose_Forall_hyps; constructor.
    + unfold same_entry in *. naive_solver congruence.
    + eauto.
Qed.

#[export] Instance same_value_equiv : Equivalence same_value.
Proof. split; apply _. Qed.

(** ** Tokens *)

Definition jsonChars : string → string :=
  fix chars (s : string) : string :=
    match s with
    | EmptyString => String quoteChar ""
    | String c s => jsonChar c +:+ chars s
    end.

Lemma jsonString_chars s : jsonString s = String quoteChar (jsonChars s).
Proof. done. Qed.

Lemma parseChars_char c t :
  parseChars (jsonChar c +:+ t) = '(text, t) ← parseChars t; Some (String c text, t).
Proof. destruct c as [[] [] [] [] [] [] [] []]; reflexivity. Qed.

Lemma parseChars_print s rest : parseChars (jsonChars s +:+ rest) = Some (s, rest).
Proof.
  induction s as [|c s IH]; [done|]. simpl jsonChars.
  by rewrite string_app_assoc, parseChars_char, IH.
Qed.


Definition head_is (p : Ascii.ascii → bool) (s : string) : bool :=
  match s with String c _ => p c | EmptyString => false end.

Lemma span_spec p s : let '(u, t) := span p s in s = u +:+ t ∧ all_chars p u = true.
Proof.
  induction s as [|c s IH]; simpl; [done|]. destruct (p c) eqn:Hc; [|done].
  destruct (span p s) as [u t]. destruct IH as [-> Hu]. simpl. by rewrite Hc.
Qed.

Lemma span_app p n rest :
  all_chars p n = true → head_is p rest = false → span p (n +:+ rest) = (n, rest).
Proof.
  induction n as [|c n IH]; simpl.
  - destruct rest as [|c rest]; simpl; [done|]. by intros _ ->.
  - rewrite andb_true_iff. intros [-> Hn] Hr. by rewrite IH.
Qed.

Lemma all_chars_app p s t : all_chars p (s +:+ t) = all_chars p s && all_chars p t.
Proof. induction s as [|c s IH]; simpl; [done|]. by rewrite IH, andb_assoc. Qed.

Lemma all_chars_impl (p q : Ascii.ascii → bool) s :
  (∀ c, p c = true → q c = true) → all_chars p s = true → all_chars q s = true.
Proof.
  intros Hpq. induction s as [|c s IH]; simpl; [done|]. rewrite !andb_true_iff. naive_solver.
Qed.

Lemma digit_numeric c : is_digit c = true → is_numeric c = true.
Proof. unfold is_numeric. by intros ->. Qed.

Lemma digitsThen_chars k s :
  (∀ t, k t = true → all_chars is_numeric t = true) →
  digitsThen k s = true → all_chars is_numeric s = true.
Proof.
  intros Hk. unfold digitsThen. pose proof (span_spec is_digit s) as H.
  destruct (span is_digit s) as [d t]. destruct H as [-> Hd].
  rewrite andb_true_iff, all_chars_app. intros [_ Ht].
  rewrite (Hk _ Ht), andb_true_r. by apply (all_chars_impl is_digit); [apply digit_numeric|].
Qed.

Lemma exponent_chars s : exponent s = true → all_chars is_numeric s = true.
Proof.
  assert (∀ t, digitsThen (String.eqb "") t = true → all_chars is_numeric t = true) as Hd.
  { intros t. apply digitsThen_chars. by intros []. }
  destruct s as [|e s]; [done|]. simpl. rewrite andb_true_iff, bool_decide_eq_true.
  intros [He Hs]. apply andb_true_iff. split.
  - unfold is_numeric. apply orb_true_iff. right. apply bool_decide_eq_true. set_solver.
  - destruct s as [|c t]; [done|]. case_bool_decide as Hc; [|by apply Hd].
    simpl. rewrite (Hd _ Hs), andb_true_r. unfold is_numeric. apply orb_true_iff. right.
    apply bool_decide_eq_true. set_solver.
Qed.

Lemma fraction_chars s : fraction s = true → all_chars is_numeric s = true.
Proof.
  unfold fraction. destruct s as [|c t]; [done|].
  destruct (decide (c = "."%char)) as [->|Hc].
  - intros H. simpl. apply (digitsThen_chars _ _ exponent_chars H).
  - intros H. apply exponent_chars. destruct c as [[] [] [] [] [] [] [] []]; done.
Qed.

Lemma unsigned_chars s : unsigned s = true → all_chars is_numeric s = true.
Proof.
  unfold unsigned. destruct s as [|c t]; [done|]. destruct (decide (c = "0"%char)) as [->|Hc].
  - exact (fraction_chars t).
  - intros H. apply (digitsThen_chars fraction); [apply fraction_chars|].
    destruct c as [[] [] [] [] [] [] [] []]; done.
Qed.

Lemma numeral_chars s : numeral s = true → all_chars is_numeric s = true.
Proof.
  unfold numeral. destruct s as [|c t]; [done|]. destruct (decide (c = "-"%char)) as [->|Hc].
  - exact (unsigned_chars t).
  - intros H. apply unsigned_chars. destruct c as [[] [] [] [] [] [] [] []]; done.
Qed.

(** The first character of a numeral: a digit or a minus sign. *)
Lemma numeral_head s : numeral s = true → ∃ c t, s = String c t ∧ is_digit c || Ascii.eqb c "-" = true.
Proof.
  destruct s as [|c t]; [done|]. intros H. exists c, t. split; [done|].
  destruct (Ascii.eqb_spec c "-") as [|Hm]; [by rewrite orb_true_r|].
  rewrite orb_false_r. destruct (is_digit c) eqn:Hd; [done|exfalso].
  enough (numeral (String c t) = false) by congruence. clear H.
  destruct (decide (c = "0"%char)) as [->|Hz]; [by vm_compute in Hd|].
  transitivity (digitsThen fraction (String c t)).
  - destruct c as [[] [] [] [] [] [] [] []]; done.
  - unfold digitsThen. simpl. by rewrite Hd.
Qed.

(** The numeral of a natural number. *)
Lemma pretty_digits t : (0 ≤ t)%Z → all_chars is_digit (pretty t) = true.
Proof.
  intros Ht. assert (∀ c, is_digit c = false → lacks c (pretty t)) as H.
  { intros c Hc. apply lacks_pretty_Z; [done|]. intros Hn.
    apply bool_decide_eq_false in Hc. apply Hc. unfold digit. rewrite decide_True by lia. eauto. }
  clear Ht. revert H. generalize (pretty t). clear. induction s as [|c s IH]; [done|].
  intros H. simpl. destruct (is_digit c) eqn:Hc; [|by destruct (H c Hc)].
  apply IH. intros d Hd. by apply H.
Qed.


Lemma pretty_N_go_head x s :
  (0 < x)%N → ∃ d t, (0 < d < 10)%N ∧ pretty_N_go x s = String (pretty_N_char d) t.
Proof.
  revert s. induction (N.lt_wf_0 x) as [x _ IH]; intros s Hx.
  rewrite pretty_N_go_step by done. destruct (decide (x < 10)%N) as [Hs|Hs].
  - rewrite N.div_small, pretty_N_go_0 by done. exists (x mod 10)%N, s.
    by rewrite N.mod_small.
  - apply IH; [apply N.div_lt; lia|]. apply N.div_str_pos. lia.
Qed.

Lemma span_all p s : all_chars p s = true → span p s = (s, "").
Proof.
  induction s as [|c s IH]; [done|]. simpl. intros [Hc Hs]%andb_true_iff. by rewrite Hc, IH.
Qed.

Lemma numeral_pretty z : (0 ≤ z)%Z → numeral (pretty z) = true.
Proof.
  intros Hz. destruct z as [|p|p]; [done| |lia].
  pose proof (span_all _ _ (pretty_digits (Z.pos p) Hz)) as Hs.
  destruct (pretty_N_go_head (N.pos p) "" eq_refl) as (d & t & Hd & E).
  change (pretty (Z.pos p)) with (pretty (N.pos p)) in *.
  unfold pretty, pretty_N in *. rewrite decide_False in * by done. rewrite E in *.
  transitivity (digitsThen fraction (String (pretty_N_char d) t)).
  - destruct d as [|d]; [lia|]. clear -Hd.
    do 4 (try (destruct d as [d|d|]; try lia)); done.
  - unfold digitsThen. by rewrite Hs.
Qed.

(** ** Objects *)

Lemma setKey_new {A} k (v : A) l : k ∉ l.*1 → setKey k v l = l ++ [(k, v)].
Proof.
  induction l as [|[k' w] l IH]; simpl; [done|]. rewrite not_elem_of_cons. intros [Hk Hl].
  rewrite decide_False by congruence. by rewrite IH.
Qed.

Lemma setKeys_NoDup {A} (l acc : list (string * A)) :
  NoDup (acc ++ l).*1 → foldl (λ obj '(k, v), setKey k v obj) acc l = acc ++ l.
Proof.
  revert acc. induction l as [|[k v] l IH]; intros acc Hnd; simpl; [by rewrite app_nil_r|].
  rewrite setKey_new.
  - rewrite IH; [by rewrite <- app_assoc|]. by rewrite <- app_assoc.
  - rewrite fmap_app, fmap_cons in Hnd. apply NoDup_app in Hnd as (_ & Hdis & _).
    intros Hk. apply (Hdis k Hk). simpl. by left.
Qed.

Lemma ownOrder_Permutation {A} (l : list (string * A)) : ownOrder l ≡ₚ l.
Proof.
  unfold ownOrder. rewrite merge_sort_Permutation.
  induction l as [|p l IH]; [done|]. rewrite !filter_cons.
  destruct (decide (is_Some (arrayIndex p.1))) as [H|H].
  - rewrite decide_False by tauto. simpl. by rewrite IH.
  - rewrite decide_True by done. rewrite <- Permutation_middle. by rewrite IH.
Qed.

Lemma objectOf_NoDup l : NoDup l.*1 → ∃ l', objectOf l = JObject l' ∧ l' ≡ₚ l.
Proof.
  intros Hnd. eexists. split; [done|]. rewrite ownOrder_Permutation.
  by rewrite (setKeys_NoDup l []).
Qed.

(** ** Values *)

Section print.
Context (numberText : string → string).
Local Abbreviation parseValue := (parseValue numberText).

(** Values whose text is JSON; numbers are as they are printed. *)
Definition leaf_ok (v : Json) : Prop :=
  match v with
  | JNull | JBool _ | JString _ => True
  | JNumber t => numeral t = true ∧ numberText t = t
  | _ => False
  end.

#[warnings="-register-all"]
Inductive printable : Json → Prop :=
  | printable_leaf v : leaf_ok v → printable v
  | printable_array l : Forall printable l → printable (JArray l)
  | printable_object l : NoDup l.*1 → Forall (λ p, printable p.2) l → printable (JObject l).

Lemma printable_array_inv l : printable (JArray l) → Forall printable l.
Proof. by inversion 1. Qed.

Lemma printable_object_inv l :
  printable (JObject l) → NoDup l.*1 ∧ Forall (λ p, printable p.2) l.
Proof. by inversion 1. Qed.

Definition starts (s : string) : Prop :=
  ∃ c t, s = String c t ∧ is_space c = false ∧ c ≠ "]"%char.

Lemma stableStringify_starts v : printable v → starts (stableStringify v).
Proof.
  intros [v' Hv|l _|l _ _]; [|by eexists _, _..].
  destruct v' as [ | |[]|t|s|l|l]; try done; try (by eexists _, _).
  destruct (numeral_head t (proj1 Hv)) as (c & u & -> & Hc). exists c, u. split; [done|].
  by destruct c as [[] [] [] [] [] [] [] []].
Qed.

Lemma starts_app s t : starts s → starts (s +:+ t).
Proof. intros (c & u & -> & H). by exists c, (u +:+ t). Qed.

Lemma skipSpace_starts s : starts s → skipSpace s = s.
Proof. intros (c & t & -> & Hc & _). simpl. by rewrite Hc. Qed.

Lemma prefix_app w rest : String.prefix w (w +:+ rest) = true.
Proof.
  induction w as [|c w IH]; [by destruct rest|].
  change ((if Ascii.ascii_dec c c then String.prefix w (w +:+ rest) else false) = true).
  by destruct (Ascii.ascii_dec c c).
Qed.

Lemma word_app w rest v : word w (w +:+ rest) v = Some (v, rest).
Proof.
  unfold word. rewrite prefix_app. do 2 f_equal.
  induction w as [|c w IH]; [by destruct rest|]. exact IH.
Qed.

Lemma parseValue_array fuel s :
  starts s →
  parseValue (S fuel) ("[" +:+ s) = '(l, t) ← parseItems numberText fuel s; Some (JArray l, t).
Proof.
  intros Hs. change (parseValue (S fuel) ("[" +:+ s)) with
    (match eat "]" s with
     | Some t => Some (JArray [], t)
     | None => '(l, t) ← parseItems numberText fuel s; Some (JArray l, t)
     end).
  unfold eat. rewrite skipSpace_starts by done. destruct Hs as (c & t & -> & _ & Hc).
  by rewrite decide_False.
Qed.

Lemma parseValue_object fuel s :
  head_is (Ascii.eqb quoteChar) s = true →
  parseValue (S fuel) ("{" +:+ s) =
  '(l, t) ← parseMembers numberText fuel s; Some (objectOf l, t).
Proof. destruct s as [|c t]; [done|]. intros H. by destruct c as [[] [] [] [] [] [] [] []]. Qed.

Lemma parseValue_word fuel c s :
  is_space c = false → c ∉ ["["; "{"; quoteChar]%char →
  parseValue (S fuel) (String c s) = parseWord numberText (String c s).
Proof.
  rewrite !not_elem_of_cons. intros Hc (H1 & H2 & H3 & _).
  assert (∀ d, c ≠ d → eat d (String c s) = None) as Heat.
  { intros d Hd. unfold eat. simpl. by rewrite Hc, decide_False. }
  simpl. by rewrite !Heat, Hc by done.
Qed.

Lemma word_other d w c s v : d ≠ c → word (String d w) (String c s) v = None.
Proof.
  intros Hd. unfold word.
  replace (String.prefix (String d w) (String c s)) with false; [done|].
  change (false = if Ascii.ascii_dec d c then String.prefix w s else false).
  by destruct (Ascii.ascii_dec d c).
Qed.

Lemma parseValue_other fuel w rest v :
  (w, v) ∈ [("true", JBool true); ("false", JBool false); ("null", JNull)] →
  parseValue (S fuel) (w +:+ rest) = Some (v, rest).
Proof.
  intros Hw. transitivity (parseWord numberText (w +:+ rest)).
  - rewrite !elem_of_cons, elem_of_nil in Hw. destruct Hw as [?|[?|[?|[]]]]; by simplify_eq.
  - unfold parseWord. rewrite !elem_of_cons, elem_of_nil in Hw.
    destruct Hw as [?|[?|[?|[]]]]; simplify_eq; [by rewrite word_app| |].
    + replace (word "true" ("false" +:+ rest) (JBool true)) with (@None (Json * string))
        by (symmetry; by apply (word_other "t" "rue" "f")).
      by rewrite word_app.
    + replace (word "true" ("null" +:+ rest) (JBool true)) with (@None (Json * string))
        by (symmetry; by apply (word_other "t" "rue" "n")).
      replace (word "false" ("null" +:+ rest) (JBool false)) with (@None (Json * string))
        by (symmetry; by apply (word_other "f" "alse" "n")).
      by rewrite word_app.
Qed.

Lemma parseValue_number fuel t rest :
  numeral t = true → numberText t = t → head_is is_numeric rest = false →
  parseValue (S fuel) (t +:+ rest) = Some (JNumber t, rest).
Proof.
  intros Ht Htext Hrest.
  assert (parseNumber numberText (t +:+ rest) = Some (JNumber t, rest)) as Hn.
  { unfold parseNumber. rewrite span_app by (done || by apply numeral_chars).
    by rewrite Ht, Htext. }
  rewrite <- Hn. destruct (numeral_head t Ht) as (c & u & -> & Hc).
  change (String c u +:+ rest) with (String c (u +:+ rest)) in *.
  assert (∀ d, is_digit d || Ascii.eqb d "-" = false → c ≠ d) as Hne by congruence.
  rewrite parseValue_word.
  - unfold parseWord. rewrite !word_other by (apply not_eq_sym, Hne; by vm_compute).
    by destruct (parseNumber _ _).
  - destruct (is_space c) eqn:E; [|done]. unfold is_space in E. apply bool_decide_eq_true in E.
    rewrite !elem_of_cons, elem_of_nil in E. destruct E as [E|[E|[E|[E|[]]]]];
      apply (f_equal Ascii.ascii_of_N) in E; rewrite Ascii.ascii_N_embedding in E;
      rewrite E in Hc; by vm_compute in Hc.
  - rewrite !not_elem_of_cons. split_and!; [by apply Hne..|apply not_elem_of_nil].
Qed.

Lemma join_cons sep x y l : join sep (x :: y :: l) = x +:+ sep +:+ join sep (y :: l).
Proof. done. Qed.

Lemma parseItems_S fuel s :
  parseItems numberText (S fuel) s =
  '(v, t) ← parseValue fuel s;
  match eat "," t with
  | Some t => '(l, t) ← parseItems numberText fuel t; Some (v :: l, t)
  | None => t ← eat "]" t; Some ([v], t)
  end.
Proof. done. Qed.

Lemma parseMembers_S fuel k u :
  parseMembers numberText (S fuel) (jsonString k +:+ ":" +:+ u) =
  '(v, t) ← parseValue fuel u;
  match eat "," t with
  | Some t => '(l, t) ← parseMembers numberText fuel t; Some ((k, v) :: l, t)
  | None => t ← eat "}" t; Some ([(k, v)], t)
  end.
Proof. rewrite jsonString_chars. simpl. rewrite parseChars_print. done. Qed.

(** *** What is printed with one text per value *)

Section printer.
Context (text : Json → string) (R : Json → Json → Prop).

(** A value is read back from its text before anything but a numeral. *)
Definition reads (v : Json) : Prop :=
  ∀ rest fuel, head_is is_numeric rest = false → enough (text v) ≤ fuel →
  ∃ w, parseValue fuel (text v +:+ rest) = Some (w, rest) ∧ R v w.

Lemma items_read v l rest fuel :
  Forall reads (v :: l) →
  2 * String.length (join "," (text <$> v :: l)) + 3 ≤ fuel →
  ∃ ws, parseItems numberText fuel
      (join "," (text <$> v :: l) +:+ String "]" rest) = Some (ws, rest) ∧
    Forall2 R (v :: l) ws.
Proof.
  revert v fuel. induction l as [|x l IH]; intros v fuel Hl Hfuel;
    apply Forall_cons in Hl as [Hv Hl]; (destruct fuel as [|fuel]; [lia|]);
    rewrite parseItems_S.
  - cbn [fmap list_fmap join] in *.
    destruct (Hv (String "]" rest) fuel) as (w & -> & Hw); [done|unfold enough; lia|].
    exists [w]. split; [done|by repeat constructor].
  - rewrite !fmap_cons, join_cons, !string_length_app in *.
    change (String.length ",") with 1 in Hfuel.
    rewrite !string_app_assoc.
    destruct (Hv ("," +:+ join "," (text x :: (text <$> l)) +:+
      String "]" rest) fuel) as (w & -> & Hw); [done|unfold enough; lia|].
    destruct (IH x fuel Hl) as (ws & Hws & Hall); [rewrite fmap_cons; lia|].
    exists (w :: ws). rewrite fmap_cons in Hws. split; [|by constructor].
    transitivity ('(l', t) ← parseItems numberText fuel (join ","
        (text x :: (text <$> l)) +:+ String "]" rest);
      Some (w :: l', t)); [done|]. by rewrite Hws.
Qed.

Definition memberText (p : string * Json) : string := jsonString p.1 +:+ ":" +:+ text p.2.

Lemma memberText_head p l rest :
  head_is (Ascii.eqb quoteChar) (join "," (memberText <$> p :: l) +:+ rest) = true.
Proof. by destruct l. Qed.

Lemma members_read p l rest fuel :
  Forall (λ p, reads p.2) (p :: l) →
  2 * String.length (join "," (memberText <$> p :: l)) + 3 ≤ fuel →
  ∃ ws, parseMembers numberText fuel
      (join "," (memberText <$> p :: l) +:+ String "}" rest) = Some (ws, rest) ∧
    Forall2 (λ p q, p.1 = q.1 ∧ R p.2 q.2) (p :: l) ws.
Proof.
  revert p fuel. induction l as [|x l IH]; intros [k v] fuel Hl Hfuel;
    apply Forall_cons in Hl as [Hv Hl]; (destruct fuel as [|fuel]; [lia|]).
  - cbn [fmap list_fmap join] in *. unfold memberText in *. cbn [fst snd] in *.
    rewrite !string_length_app in Hfuel. rewrite !string_app_assoc, parseMembers_S.
    destruct (Hv (String "}" rest) fuel) as (w & Hw & Hs); [done|unfold enough; simpl; lia|].
    simpl in Hw. rewrite Hw. exists [(k, w)]. split; [done|by repeat constructor].
  - rewrite !fmap_cons, join_cons, !string_length_app in *.
    change (String.length ",") with 1 in Hfuel.
    unfold memberText at 1 in Hfuel. unfold memberText at 1. cbn [fst snd] in *.
    rewrite !string_length_app in Hfuel. rewrite !string_app_assoc, parseMembers_S.
    destruct (Hv ("," +:+ join "," (memberText x :: (memberText <$> l)) +:+
      String "}" rest) fuel) as (w & Hw & Hs); [done|unfold enough; simpl; lia|].
    simpl snd in Hw. rewrite Hw.
    destruct (IH x fuel Hl) as (ws & Hws & Hall); [rewrite fmap_cons; lia|].
    exists ((k, w) :: ws). rewrite fmap_cons in Hws. split; [|by repeat constructor].
    transitivity ('(l', t) ← parseMembers numberText fuel (join ","
        (memberText x :: (memberText <$> l)) +:+ String "}" rest);
      Some ((k, w) :: l', t)); [done|]. by rewrite Hws.
Qed.

Lemma array_read l rest fuel :
  Forall reads l → Forall (λ v, starts (text v)) l →
  enough ("[" +:+ join "," (text <$> l) +:+ "]") ≤ fuel →
  ∃ ws, parseValue fuel ("[" +:+ join "," (text <$> l) +:+ "]" +:+ rest) =
      Some (JArray ws, rest) ∧ Forall2 R l ws.
Proof.
  intros Hl Hstarts Hfuel. unfold enough in Hfuel. rewrite !string_length_app in Hfuel.
  change (String.length "[") with 1 in Hfuel. change (String.length "]") with 1 in Hfuel.
  destruct fuel as [|fuel]; [lia|]. destruct l as [|v l]; [by exists []|].
  destruct (items_read v l rest fuel Hl) as (ws & Hws & Hs); [lia|].
  exists ws. split; [|done]. rewrite parseValue_array.
  - change ("]" +:+ rest) with (String "]" rest). by rewrite Hws.
  - apply starts_app. apply Forall_cons in Hstarts as [Hv _]. destruct l; [done|].
    rewrite !fmap_cons, join_cons. by apply starts_app.
Qed.

Lemma object_read l rest fuel :
  Forall (λ p, reads p.2) l →
  enough ("{" +:+ join "," (memberText <$> l) +:+ "}") ≤ fuel →
  ∃ ws, parseValue fuel ("{" +:+ join "," (memberText <$> l) +:+ "}" +:+ rest) =
      Some (objectOf ws, rest) ∧ Forall2 (λ p q, p.1 = q.1 ∧ R p.2 q.2) l ws.
Proof.
  intros Hl Hfuel. unfold enough in Hfuel. rewrite !string_length_app in Hfuel.
  change (String.length "{") with 1 in Hfuel. change (String.length "}") with 1 in Hfuel.
  destruct fuel as [|fuel]; [lia|]. destruct l as [|p l]; [by exists []|].
  destruct (members_read p l rest fuel Hl) as (ws & Hws & Hs); [lia|].
  exists ws. split; [|done]. rewrite parseValue_object by apply memberText_head.
  change ("}" +:+ rest) with (String "}" rest). by rewrite Hws.
Qed.

Lemma leaf_read v rest fuel :
  leaf_ok v → head_is is_numeric rest = false →
  parseValue (S fuel) (stableStringify v +:+ rest) = Some (v, rest).
Proof.
  intros Hok Hrest. destruct v as [ | |b|t|s|l|l]; try done.
  - apply (parseValue_other fuel "null" rest). set_solver.
  - destruct b; [apply (parseValue_other fuel "true" rest); set_solver|].
    apply (parseValue_other fuel "false" rest). set_solver.
  - by apply parseValue_number; [apply Hok..|].
  - simpl stableStringify. rewrite jsonString_chars. simpl. by rewrite parseChars_print.
Qed.
End printer.

Lemma printable_reads v : printable v → reads stableStringify same_value v.
Proof.
  induction v as [v Hv|l IH|l IH] using Json_children_ind; intros Hp rest fuel Hrest Hfuel.
  - destruct fuel as [|fuel]; [unfold enough in Hfuel; lia|].
    exists v. split; [|done]. apply leaf_read; [|done]. by destruct Hp.
  - apply printable_array_inv in Hp.
    change (stableStringify (JArray l)) with ("[" +:+ join "," (stableStringify <$> l) +:+ "]") in *.
    rewrite !string_app_assoc.
    destruct (array_read stableStringify same_value l rest fuel) as (ws & -> & Hws).
    + rewrite Forall_forall in IH, Hp |- *. auto.
    + rewrite Forall_forall in Hp |- *. auto using stableStringify_starts.
    + done.
    + exists (JArray ws). split; [done|by constructor].
  - apply printable_object_inv in Hp as [Hnd Hp]. rewrite stableStringify_object in *.
    destruct (Permutation_map_inv propertyText l
      (merge_sort_Permutation key_le (propertyText <$> l))) as (l0 & E & Hl0).
    change (merge_sort key_le (propertyText <$> l) = propertyText <$> l0) in E.
    rewrite E, <- list_fmap_compose in *. clear E.
    change (jsonProperty ∘ propertyText) with (memberText stableStringify) in *.
    rewrite !string_app_assoc.
    destruct (object_read stableStringify same_value l0 rest fuel) as (ws & Hws & Hs);
      [|exact Hfuel|].
    { rewrite <- Hl0. rewrite Forall_forall in IH, Hp |- *. auto. }
    rewrite Hl0, (same_entry_keys _ _ Hs) in Hnd.
    destruct (objectOf_NoDup ws Hnd) as (ws' & Hobj & Hws').
    apply Forall2_flip in Hs. symmetry in Hl0.
    destruct (Forall2_Permutation_r _ _ _ _ Hs Hl0) as (m & Hm & Hs').
    apply Forall2_flip in Hs'. exists (JObject ws'). rewrite Hws, Hobj. split; [done|].
    apply (same_object _ m); [|exact Hs'|by rewrite Hws', Hm].
    by rewrite (same_entry_keys _ _ Hs'), <- Hm.
Qed.

(** *** Printing in the order of the keys *)

(** Values that are read back as they are: the keys of their objects are in order. *)
#[warnings="-register-all"]
Inductive kept : Json → Prop :=
  | kept_leaf v : leaf_ok v → kept v
  | kept_array l : Forall kept l → kept (JArray l)
  | kept_object l :
      NoDup l.*1 → ownOrder l = l → Forall (λ p, kept p.2) l → kept (JObject l).

Lemma kept_array_inv l : kept (JArray l) → Forall kept l.
Proof. by inversion 1. Qed.

Lemma kept_object_inv l :
  kept (JObject l) → NoDup l.*1 ∧ ownOrder l = l ∧ Forall (λ p, kept p.2) l.
Proof. by inversion 1. Qed.

Lemma kept_defined v : kept v → v ≠ JUndefined.
Proof. by intros Hv ->; inversion Hv. Qed.

Lemma JSON_stringify_object l :
  Forall (λ p, p.2 ≠ JUndefined) l →
  JSON_stringify (JObject l) = "{" +:+ join "," (memberText JSON_stringify <$> l) +:+ "}".
Proof.
  intros Hl. simpl. do 3 f_equal. induction Hl as [|[k v] l Hv _ IH]; [done|].
  simpl in *. by destruct v; try done; simpl; f_equal.
Qed.

Lemma JSON_stringify_starts v : kept v → starts (JSON_stringify v).
Proof.
  destruct 1 as [v Hv|l _|l _ _ _]; [|by eexists _, _..].
  assert (JSON_stringify v = stableStringify v) as -> by by destruct v.
  by apply stableStringify_starts, printable_leaf.
Qed.

Lemma kept_reads v : kept v → reads JSON_stringify eq v.
Proof.
  induction v as [v Hv|l IH|l IH] using Json_children_ind; intros Hp rest fuel Hrest Hfuel.
  - destruct fuel as [|fuel]; [unfold enough in Hfuel; lia|].
    exists v. split; [|done]. assert (JSON_stringify v = stableStringify v) as ->
      by by destruct v. apply leaf_read; [|done]. by destruct Hp.
  - apply kept_array_inv in Hp.
    change (JSON_stringify (JArray l)) with ("[" +:+ join "," (JSON_stringify <$> l) +:+ "]") in *.
    rewrite !string_app_assoc.
    destruct (array_read JSON_stringify eq l rest fuel) as (ws & -> & Hws).
    + rewrite Forall_forall in IH, Hp |- *. auto.
    + rewrite Forall_forall in Hp |- *. auto using JSON_stringify_starts.
    + done.
    + apply list_eq_Forall2 in Hws as ->. by exists (JArray ws).
  - apply kept_object_inv in Hp as (Hnd & Hord & Hp).
    assert (Forall (λ p, p.2 ≠ JUndefined) l) as Hdef.
    { eapply Forall_impl; [exact Hp|]. intros p. apply kept_defined. }
    rewrite JSON_stringify_object, !string_app_assoc in * by done.
    destruct (object_read JSON_stringify eq l rest fuel) as (ws & Hws & Hs); [|exact Hfuel|].
    { rewrite Forall_forall in IH, Hp |- *. auto. }
    assert (l = ws) as <-.
    { apply list_eq_Forall2. eapply Forall2_impl; [exact Hs|].
      intros [] [] [Hk Hv]. simpl in *. congruence. }
    exists (JObject l). rewrite Hws. split; [|done]. unfold objectOf.
    by rewrite (setKeys_NoDup l []), app_nil_l, Hord.
Qed.

Lemma JSON_parse_stringify v :
  kept v → JSON_parse_text numberText (JSON_stringify v) = Some v.
Proof.
  intros Hv. destruct (kept_reads v Hv "" (enough (JSON_stringify v))) as (w & Hw & <-);
    [done..|]. rewrite string_app_nil_r in Hw. unfold JSON_parse_text. by rewrite Hw.
Qed.

Lemma cloneJson_kept v : kept v → cloneJson v = v.
Proof.
  induction v as [v Hv|l IH|l IH] using Json_children_ind; intros Hp.
  - by destruct v.
  - apply kept_array_inv in Hp. simpl. f_equal. rewrite <- (map_id l) at 2.
    apply map_ext_Forall. rewrite Forall_forall in IH, Hp |- *. intros v Hv.
    rewrite (IH v Hv) by auto. by destruct v; try done; apply Hp, kept_defined in Hv.
  - apply kept_object_inv in Hp as (_ & _ & Hp). simpl. f_equal.
    induction l as [|[k v] l IHl]; [done|]. apply Forall_cons in IH as [Hv IH], Hp as [Hpv Hp].
    simpl in *. rewrite (Hv Hpv). apply kept_defined in Hpv.
    by destruct v; try done; simpl; f_equal; auto.
Qed.

(** ** Fuel *)

Lemma skipSpace_length s : String.length (skipSpace s) ≤ String.length s.
Proof. induction s as [|c s IH]; simpl; [done|]. destruct (is_space c); simpl; lia. Qed.

Lemma eat_length c s t : eat c s = Some t → String.length t < String.length s.
Proof.
  unfold eat. pose proof (skipSpace_length s). destruct (skipSpace s) as [|d u]; [done|].
  simpl in *. case_decide; intros; simplify_eq; lia.
Qed.

Lemma parseChars_length s text t :
  parseChars s = Some (text, t) → String.length t < String.length s.
Proof.
  remember (String.length s) as n eqn:Hn. revert s text t Hn.
  induction n as [n IH] using lt_wf_ind. intros s text t -> H.
  destruct s as [|c s]; [done|]. cbn [parseChars] in H.
  assert (∀ (o : option Ascii.ascii) u, String.length u < String.length (String c s) →
    (k ← o; '(text, t) ← parseChars u; Some (String k text, t)) = Some (text, t) →
    String.length t < String.length (String c s)) as Hrec.
  { intros [k|] u Hu E; [|done]. simpl in E.
    destruct (parseChars u) as [[x y]|] eqn:Eu; simplify_eq/=.
    enough (String.length t < String.length u) by lia. by eapply IH. }
  repeat case_decide; simplify_eq/=; try lia.
  - destruct s as [|e s]; [done|]. case_decide.
    + destruct s as [|h1 [|h2 [|h3 [|h4 s]]]]; try done.
      apply (Hrec (hexChar h1 h2 h3 h4) s); [simpl; lia|exact H].
    + apply (Hrec (unescape e) s); [simpl; lia|exact H].
  - apply (Hrec (Some c) s); [lia|exact H].
Qed.

Lemma slice_length n s : String.length (slice n s) ≤ String.length s.
Proof.
  revert s. induction n as [|n IH]; intros [|c s]; simpl; try lia. specialize (IH s). lia.
Qed.

Lemma word_length d w s v v' t :
  word (String d w) s v = Some (v', t) → String.length t < String.length s.
Proof.
  unfold word. case_match eqn:E; intros; simplify_eq. destruct s as [|c s]; [done|].
  cbn [String.length slice]. pose proof (slice_length (String.length w) s). lia.
Qed.

Lemma parseNumber_length s v t :
  parseNumber numberText s = Some (v, t) → String.length t < String.length s.
Proof.
  unfold parseNumber. pose proof (span_spec is_numeric s) as Hs.
  destruct (span is_numeric s) as [n u]. destruct Hs as [-> _].
  case_match eqn:Hn; intros; simplify_eq. apply numeral_head in Hn as (c & m & -> & _).
  rewrite string_length_app. simpl. lia.
Qed.

Lemma parseWord_length s v t :
  parseWord numberText s = Some (v, t) → String.length t < String.length s.
Proof.
  unfold parseWord.
  rewrite !union_Some. intros [H|[_ [H|[_ [H|[_ H]]]]]];
    [by apply word_length in H..|by eapply parseNumber_length].
Qed.

(** What is read is consumed. *)
Lemma parse_length fuel :
  (∀ s v t, parseValue fuel s = Some (v, t) → String.length t < String.length s) ∧
  (∀ s l t, parseItems numberText fuel s = Some (l, t) → String.length t < String.length s) ∧
  (∀ s l t, parseMembers numberText fuel s = Some (l, t) → String.length t < String.length s).
Proof.
  induction fuel as [|fuel (IHv & IHi & IHm)]; [done|]. split_and!; intros s v t; simpl.
  - pose proof (skipSpace_length s).
    destruct (eat "[" s) as [u|] eqn:E1; [apply eat_length in E1|].
    { destruct (eat "]" u) as [w|] eqn:E; [apply eat_length in E; intros; simplify_eq; lia|].
      destruct (parseItems _ fuel u) as [[]|] eqn:Ei; intros; simplify_eq/=.
      apply IHi in Ei. lia. }
    destruct (eat "{" s) as [u|] eqn:E2; [apply eat_length in E2|].
    { destruct (eat "}" u) as [w|] eqn:E; [apply eat_length in E; intros; simplify_eq; lia|].
      destruct (parseMembers _ fuel u) as [[]|] eqn:Ei; intros; simplify_eq/=.
      apply IHm in Ei. lia. }
    destruct (eat quoteChar s) as [u|] eqn:E3; [apply eat_length in E3|].
    { destruct (parseChars u) as [[]|] eqn:Ei; intros; simplify_eq/=.
      apply parseChars_length in Ei. lia. }
    intros Hw%parseWord_length. lia.
  - destruct (parseValue fuel s) as [[x u]|] eqn:E; [apply IHv in E; simpl|done].
    destruct (eat "," u) as [w|] eqn:E1; [apply eat_length in E1|].
    + destruct (parseItems _ fuel w) as [[]|] eqn:Ei; intros; simplify_eq/=.
      apply IHi in Ei. lia.
    + destruct (eat "]" u) as [w|] eqn:E2; intros; simplify_eq/=.
      apply eat_length in E2. lia.
  - destruct (eat quoteChar s) as [u0|] eqn:E0; [apply eat_length in E0; simpl|done].
    destruct (parseChars u0) as [[k u1]|] eqn:Ek; [apply parseChars_length in Ek; simpl|done].
    destruct (eat ":" u1) as [u2|] eqn:E3; [apply eat_length in E3; simpl|done].
    destruct (parseValue fuel u2) as [[x u]|] eqn:E; [apply IHv in E; simpl|done].
    destruct (eat "," u) as [w|] eqn:E1; [apply eat_length in E1|].
    + destruct (parseMembers _ fuel w) as [[]|] eqn:Ei; intros; simplify_eq/=.
      apply IHm in Ei. lia.
    + destruct (eat "}" u) as [w|] eqn:E2; intros; simplify_eq/=.
      apply eat_length in E2. lia.
Qed.

(** More fuel than enough changes nothing: a text that is refused is no JSON. *)
Lemma parse_fuel n :
  (∀ s m, 2 * String.length s + 2 ≤ n → n ≤ m → parseValue m s = parseValue n s) ∧
  (∀ s m, 2 * String.length s + 3 ≤ n → n ≤ m →
    parseItems numberText m s = parseItems numberText n s) ∧
  (∀ s m, 2 * String.length s + 3 ≤ n → n ≤ m →
    parseMembers numberText m s = parseMembers numberText n s).
Proof.
  induction n as [|n (IHv & IHi & IHm)]; [split_and!; intros; lia|].
  split_and!; intros s [|m] Hs Hm; try lia; simpl.
  - destruct (eat "[" s) as [u|] eqn:E1; [apply eat_length in E1|].
    { rewrite (IHi u m) by lia. done. }
    destruct (eat "{" s) as [u|] eqn:E2; [apply eat_length in E2|done].
    rewrite (IHm u m) by lia. done.
  - rewrite (IHv s m) by lia. destruct (parseValue n s) as [[x u]|] eqn:E; [simpl|done].
    apply parse_length in E. destruct (eat "," u) as [w|] eqn:E1; [apply eat_length in E1|done].
    by rewrite (IHi w m) by lia.
  - destruct (eat quoteChar s) as [u0|] eqn:E0; [apply eat_length in E0; simpl|done].
    destruct (parseChars u0) as [[k u1]|] eqn:Ek; [apply parseChars_length in Ek; simpl|done].
    destruct (eat ":" u1) as [u2|] eqn:E3; [apply eat_length in E3; simpl|done].
    rewrite (IHv u2 m) by lia. destruct (parseValue n u2) as [[x u]|] eqn:E; [simpl|done].
    apply parse_length in E. destruct (eat "," u) as [w|] eqn:E1; [apply eat_length in E1|done].
    by rewrite (IHm w m) by lia.
Qed.

Lemma parseValue_fuel s fuel : enough s ≤ fuel → parseValue fuel s = parseValue (enough s) s.
Proof. intros. by apply parse_fuel. Qed.

(** ** The text of a value *)

Lemma stableStringify_read v :
  printable v → ∃ w, JSON_parse_text numberText (stableStringify v) = Some w ∧ same_value v w.
Proof.
  intros Hv. destruct (printable_reads v Hv "" (enough (stableStringify v))) as (w & Hw & Hs);
    [done..|]. rewrite string_app_nil_r in Hw. exists w. split; [|done].
  unfold JSON_parse_text. by rewrite Hw.
Qed.

(** C33.  The text hashed of a value is JSON of the same value: [JSON.parse] reads it
    back up to the order of the keys, so two values have one text exactly when they
    are the same up to the order of their keys. *)
Theorem stableStringify_faithful a b :
  printable a → printable b →
  (∃ w, JSON_parse_text numberText (stableStringify a) = Some w ∧ same_value a w) ∧
  (stableStringify a = stableStringify b ↔ same_value a b).
Proof.
  intros Ha Hb. split; [by apply stableStringify_read|].
  split; [|apply stableStringify_same]. intros E.
  destruct (stableStringify_read a Ha) as (w & Hw & Hs).
  destruct (stableStringify_read b Hb) as (w' & Hw' & Hs').
  rewrite E in Hw. simplify_eq. etrans; [exact Hs|by symmetry].
Qed.
End print.

Ltac print :=
  repeat first
    [ apply printable_leaf; repeat split; reflexivity
    | apply printable_object; [decided|]
    | apply printable_array
    | apply Forall_nil_2 | apply Forall_cons_2
    | progress cbn [fst snd] ].

Lemma stableStringify_faithful_witness :
  let a := JObject [("name", JString "a door"); ("at", JArray [JNumber "-1.5"; JNull])] in
  let b := JObject [("at", JArray [JNumber "-1.5"; JNull]); ("name", JString "a door")] in
  stableStringify a = stableStringify b ∧ same_value a b ∧
  JSON_parse_text id (stableStringify a) = Some b.
Proof.
  intros a b. split; [by vm_compute|]. split; [|by vm_compute].
  apply (stableStringify_faithful id); [unfold a; print|unfold b; print|by vm_compute].
Defined.
