(* ===== verification/DebugDiff.v ===== *)
(** * Differences between two ticks of a scene

    [ui3/src/editor/debugger.ts]: what the step debugger of the scene editor shows
    of two snapshots of the components of a scene.  A snapshot is read from JSON:
    an object stands as its properties in order, each key once; a key is never the
    name of a property of all objects, such as [__proto__].  [formatNum], which
    rounds a number to three decimals in floating point, is an argument.  Texts are
    cut and measured by characters of one byte. *)

From S2P Require Import Prelude JsString SyncEngine.
Open Scope string_scope.
Open Scope list_scope.
Open Scope Z_scope.

(** [LeafChange], ui3/src/editor/debugger.ts:3-7 *)
Record LeafChange := { lc_path : string; lc_before : string; lc_after : string }.

(** [CompChangeKind], ui3/src/editor/debugger.ts:9-9 *)
Inductive CompChangeKind := CompAdded | CompRemoved | CompChanged.

(** [CompDiff], ui3/src/editor/debugger.ts:11-16 *)
Record CompDiff := {
  cd_name : string;
  cd_kind : CompChangeKind;
  cd_changes : list LeafChange;
  cd_value : option string
}.

(** [EntityChangeKind], ui3/src/editor/debugger.ts:18-18 *)
Inductive EntityChangeKind := EntityNew | EntityGone | EntityChanged.

#[export] Instance EntityChangeKind_eq_dec : EqDecision EntityChangeKind.
Proof. solve_decision. Defined.

(** [EntityDiff], ui3/src/editor/debugger.ts:20-25 *)
Record EntityDiff := {
  ed_id : string;
  ed_kind : EntityChangeKind;
  ed_comps : list CompDiff;
  ed_unchanged : Z
}.

(** The components of an entity, and a snapshot, ui3/src/editor/debugger.ts:1-1 *)
Definition Components := list (string * Json).
Definition DebugSnapshot := list (string * Components).

(** [obj[k]], [None] for a key that is not one. *)
Fixpoint prop {A} (k : string) (obj : list (string * A)) : option A :=
  match obj with
  | [] => None
  | (k', v) :: obj => if decide (k' = k) then Some v else prop k obj
  end.

(** [===] on values that are no objects. *)
Definition identical (a b : Json) : bool :=
  match a, b with
  | JUndefined, JUndefined | JNull, JNull => true
  | JBool p, JBool q => Bool.eqb p q
  | JNumber s, JNumber t | JString s, JString t => String.eqb s t
  | _, _ => false
  end.

(** [deepEqual], ui3/src/editor/debugger.ts:63-79 *)
Fixpoint deepEqual (a b : Json) : bool :=
  match a, b with
  | JArray x, JArray y =>
      (length x =? length y)%nat &&
      (fix every (x y : list Json) : bool :=
         match x, y with
         | v :: x, w :: y => deepEqual v w && every x y
         | _, _ => true
         end) x y
  | JObject ao, JObject bo =>
      (length ao =? length bo)%nat &&
      (fix every (ao : list (string * Json)) : bool :=
         match ao with
         | [] => true
         | (k, v) :: ao =>
             match prop k bo with
             | Some w => deepEqual v w && every ao
             | None => false
             end
         end) ao
  | _, _ => identical a b
  end.

Section format.
Context (formatNum : string → string).

(** [MAX_STR], ui3/src/editor/debugger.ts:34-34 *)
Definition MAX_STR : nat := 42.

(** A text in at most [MAX_STR] characters, ui3/src/editor/debugger.ts:45-45 *)
Definition shortText (v : string) : string :=
  if (MAX_STR <? String.length v)%nat
  then jsonString (substr 0 (MAX_STR - 1) v +:+ "…")
  else jsonString v.

(** What is left out of a list shown in part. *)
Definition extra (shown total : nat) : string :=
  if (shown <? total)%nat then ", …+" +:+ pretty (Z.of_nat (total - shown)) else "".

(** [formatValue], ui3/src/editor/debugger.ts:36-61 *)
Fixpoint formatValue (v : Json) (depth : nat) : string :=
  match v with
  | JNull => "null"
  | JUndefined => "∅"
  | JNumber n => formatNum n
  | JBool b => if b then "true" else "false"
  | JString s => shortText s
  | JArray l =>
      if (2 <=? depth)%nat then "[…" +:+ pretty (Z.of_nat (length l)) +:+ "]"
      else
        let shown := take 4 (map (λ x, formatValue x (S depth)) l) in
        "[" +:+ join ", " shown +:+ extra 4 (length l) +:+ "]"
  | JObject entries =>
      if (2 <=? depth)%nat then "{…}"
      else
        let shown := take 6 (map (λ '(k, x), k +:+ ": " +:+ formatValue x (S depth)) entries) in
        "{" +:+ join ", " shown +:+ extra 6 (length entries) +:+ "}"
  end.

(** [MAX_LEAF_CHANGES], ui3/src/editor/debugger.ts:81-81 *)
Definition MAX_LEAF_CHANGES : nat := 12.

(** The keys of two objects, each once, ui3/src/editor/debugger.ts:101-101 *)
Definition bothKeys {A B} (a : list (string * A)) (b : list (string * B)) : list string :=
  set_values (map fst a ++ map fst b).

(** [walk], ui3/src/editor/debugger.ts:85-105; [None] when the values are deeper
    than [fuel]. *)
Fixpoint walk (fuel cap : nat) (a b : Json) (path : string) (out : list LeafChange)
    : option (list LeafChange) :=
  match fuel with
  | O => None
  | S fuel =>
      if (cap <=? length out)%nat then Some out
      else if deepEqual a b then Some out
      else
        match a, b with
        | JObject ao, JObject bo =>
            (fix each (keys : list string) (out : list LeafChange) : option (list LeafChange) :=
               match keys with
               | [] => Some out
               | k :: keys =>
                   out ← walk fuel cap (default JUndefined (prop k ao))
                     (default JUndefined (prop k bo))
                     (if String.eqb path "" then k else path +:+ "." +:+ k) out;
                   if (cap <=? length out)%nat then Some out else each keys out
               end) (bothKeys ao bo) out
        | _, _ =>
            Some (out ++ [{| lc_path := path; lc_before := formatValue a 0;
                             lc_after := formatValue b 0 |}])
        end
  end.

(** How deep a value is. *)
Fixpoint depthOf (v : Json) : nat :=
  match v with
  | JArray l => S (foldr Nat.max 0%nat (map depthOf l))
  | JObject l => S (foldr Nat.max 0%nat (map (λ '(_, x), depthOf x) l))
  | _ => 0%nat
  end.

(** [leafChanges], ui3/src/editor/debugger.ts:83-108 *)
Definition leafChanges (before after : Json) (cap : nat) : option (list LeafChange) :=
  walk (S (depthOf before)) cap before after "" [].

(** The difference of a component that both have or one has,
    ui3/src/editor/debugger.ts:143-153; [None] for one that has not changed. *)
Definition diffComponent (name : string) (va vb : option Json) : option CompDiff :=
  match va, vb with
  | None, None => None
  | None, Some vb => Some {| cd_name := name; cd_kind := CompAdded; cd_changes := [];
                             cd_value := Some (formatValue vb 0) |}
  | Some va, None => Some {| cd_name := name; cd_kind := CompRemoved; cd_changes := [];
                             cd_value := Some (formatValue va 0) |}
  | Some va, Some vb =>
      if deepEqual va vb then None
      else Some {| cd_name := name; cd_kind := CompChanged;
                   cd_changes := default [] (leafChanges va vb MAX_LEAF_CHANGES);
                   cd_value := None |}
  end.

(** The components of an entity that both snapshots have, and how many are the
    same, ui3/src/editor/debugger.ts:140-154 *)
Definition diffComponents (a b : Components) : list CompDiff * Z :=
  foldl (λ '(comps, unchanged) name,
    match diffComponent name (prop name a) (prop name b) with
    | Some d => (comps ++ [d], unchanged)
    | None => (comps, unchanged + 1)
    end) ([], 0) (bothKeys a b).

(** One turn of the loop over the entities, ui3/src/editor/debugger.ts:114-155 *)
Definition diffEntity (prev next : DebugSnapshot) (id : string) : option EntityDiff :=
  match prop id prev, prop id next with
  | None, None => None
  | None, Some b => Some {| ed_id := id; ed_kind := EntityNew;
      ed_comps := map (λ '(name, v), {| cd_name := name; cd_kind := CompAdded;
                                        cd_changes := [];
                                        cd_value := Some (formatValue v 0) |}) b;
      ed_unchanged := 0 |}
  | Some a, None => Some {| ed_id := id; ed_kind := EntityGone;
      ed_comps := map (λ '(name, _), {| cd_name := name; cd_kind := CompRemoved;
                                        cd_changes := []; cd_value := None |}) a;
      ed_unchanged := 0 |}
  | Some a, Some b =>
      let '(comps, unchanged) := diffComponents a b in
      if (0 <? length comps)%nat
      then Some {| ed_id := id; ed_kind := EntityChanged; ed_comps := comps;
                   ed_unchanged := unchanged |}
      else None
  end.

(** [RESERVED], ui3/src/editor/debugger.ts:160-160 *)
Definition RESERVED : list string := ["0"; "1"; "2"].

(** [rank], ui3/src/editor/debugger.ts:163-163 *)
Definition rank (d : EntityDiff) : Z := if decide (ed_id d ∈ RESERVED) then 1 else 0.

(** [Number(id)]: identifiers are natural numbers in decimal. *)
Definition idNumber (id : string) : Z := default 0 (parseInt id).

(** The comparison of [orderEntityDiffs], ui3/src/editor/debugger.ts:166-166 *)
Definition before_eq (a b : EntityDiff) : Prop :=
  rank a < rank b ∨ (rank a = rank b ∧ idNumber (ed_id a) ≤ idNumber (ed_id b)).

#[export] Instance before_eq_dec a b : Decision (before_eq a b).
Proof. unfold before_eq. apply _. Defined.

(** [orderEntityDiffs], ui3/src/editor/debugger.ts:162-167 *)
Definition orderEntityDiffs (diffs : list EntityDiff) : list EntityDiff :=
  merge_sort before_eq diffs.

(** [diffSnapshots], ui3/src/editor/debugger.ts:110-158 *)
Definition diffSnapshots (prev next : DebugSnapshot) : list EntityDiff :=
  orderEntityDiffs (omap (diffEntity prev next) (bothKeys prev next)).

(** [snapshotEntityCount], ui3/src/editor/debugger.ts:169-171 *)
Definition snapshotEntityCount (s : DebugSnapshot) : Z := Z.of_nat (length s).
End format.
