(* ===== verification/SceneComposite.v ===== *)
(** * The composite of a scene

    [sites/packages/data/src/lib/catalyst/creator-hub/scene-composite.ts]: what a
    scene file holds, components of entities that form a tree by the parents in
    their transforms, and the operations with which the editor changes it.  An
    operation returns a new composite; the one it is given is not changed.

    An entity is an integer from 0 and its key is its numeral, as the code writes
    them; a key of another form, such as [01] or [1.5], is taken for no number.  A
    number read from a file stands as its text. *)

From S2P Require Import Prelude JsString SyncEngine JsonParse DebugDiff.
Open Scope string_scope.
Open Scope list_scope.
Open Scope Z_scope.

(** [CompositeComponentBlock],
    sites/packages/data/src/lib/catalyst/creator-hub/scene-composite.ts:4-7; the value
    of an entity stands for its envelope. *)
Record Block := { cb_name : string; cb_data : list (string * Json) }.

(** [SceneComposite],
    sites/packages/data/src/lib/catalyst/creator-hub/scene-composite.ts:9-12 *)
Record SceneComposite := { sc_version : string; sc_components : list Block }.

#[export] Instance eta_Block : Eta Block := λ b, {| cb_name := cb_name b; cb_data := cb_data b |}.
#[export] Instance eta_SceneComposite : Eta SceneComposite := λ c,
  {| sc_version := sc_version c; sc_components := sc_components c |}.

(** sites/packages/data/src/lib/catalyst/creator-hub/scene-composite.ts:14-14 *)
Definition TRANSFORM : string := "core::Transform".
(** sites/packages/data/src/lib/catalyst/creator-hub/scene-composite.ts:15-15 *)
Definition NAME : string := "core-schema::Name".
(** sites/packages/data/src/lib/catalyst/creator-hub/scene-composite.ts:17-17 *)
Definition ROOT_ENTITY : Z := 0.
(** sites/packages/data/src/lib/catalyst/creator-hub/scene-composite.ts:18-18 *)
Definition FIRST_AUTHORED_ENTITY : Z := 512.

(** A number that is an integer. *)
Definition number (z : Z) : Json := JNumber (pretty z).

(** [identityTransform],
    sites/packages/data/src/lib/catalyst/creator-hub/scene-composite.ts:29-36 *)
Definition identityTransform (parent : Z) : Json :=
  let vec z := [("x", number z); ("y", number z); ("z", number z)] in
  JObject [("position", JObject (vec 0)); ("scale", JObject (vec 1));
           ("rotation", JObject (vec 0 ++ [("w", number 1)])); ("parent", number parent)].

(** [obj[k] = v] and [delete obj[k]] on the properties of an object. *)
Definition assignKey {A} (k : string) (v : A) (l : list (string * A)) : list (string * A) :=
  ownOrder (setKey k v l).

Definition deleteKey {A} (k : string) (l : list (string * A)) : list (string * A) :=
  filter (λ p, p.1 ≠ k) l.

(** [clone] of a composite,
    sites/packages/data/src/lib/catalyst/creator-hub/scene-composite.ts:41-43 *)
Definition cloneBlock (b : Block) : Block :=
  b <| cb_data ::= map (λ '(k, v), (k, cloneJson v)) |>.

(** sites/packages/data/src/lib/catalyst/creator-hub/scene-composite.ts:41-43 *)
Definition cloneComposite (c : SceneComposite) : SceneComposite :=
  c <| sc_components ::= map cloneBlock |>.

(** [envelope], the value in it,
    sites/packages/data/src/lib/catalyst/creator-hub/scene-composite.ts:45-50 *)
Definition envelope (value : Json) : Json :=
  match value with
  | JObject [(k, v)] => if String.eqb k "json" then v else value
  | _ => value
  end.

(** [emptyComposite],
    sites/packages/data/src/lib/catalyst/creator-hub/scene-composite.ts:52-54 *)
Definition emptyComposite : SceneComposite := {| sc_version := "1"; sc_components := [] |}.

(** A block of [parseComposite],
    sites/packages/data/src/lib/catalyst/creator-hub/scene-composite.ts:62-69 *)
Definition parseBlock (raw : Json) : option Block :=
  match raw with
  | JObject o =>
      match prop "name" o with
      | Some (JString name) =>
          Some {| cb_name := name;
                  cb_data := match prop "data" o with
                             | Some (JObject entries) =>
                                 foldl (λ data '(id, value), assignKey id (envelope value) data)
                                   [] entries
                             | _ => []
                             end |}
      | _ => None
      end
  | _ => None
  end.

(** [parseComposite],
    sites/packages/data/src/lib/catalyst/creator-hub/scene-composite.ts:56-72 *)
Definition parseComposite (input : Json) : SceneComposite :=
  match input with
  | JObject o => {|
      sc_version := match prop "version" o with Some (JNumber v) => v | _ => "1" end;
      sc_components := omap parseBlock
        match prop "components" o with Some (JArray raw) => raw | _ => [] end
    |}
  | _ => emptyComposite
  end.

(** What [serializeSceneComposite] prints,
    sites/packages/data/src/lib/catalyst/creator-hub/scene-composite.ts:75-83 *)
Definition compositeJson (c : SceneComposite) : Json :=
  JObject [
    ("version", JNumber (sc_version c));
    ("components", JArray (map (λ b, JObject [
       ("name", JString (cb_name b));
       ("data", JObject (foldl (λ data '(id, v), assignKey id (JObject [("json", v)]) data)
                           [] (cb_data b)))]) (sc_components c)))].

(** [serializeSceneComposite],
    sites/packages/data/src/lib/catalyst/creator-hub/scene-composite.ts:74-85 *)
Definition serializeSceneComposite (c : SceneComposite) : string :=
  JSON_stringify (compositeJson c).

(** [getComponentBlock],
    sites/packages/data/src/lib/catalyst/creator-hub/scene-composite.ts:87-92 *)
Definition getComponentBlock (c : SceneComposite) (name : string) : option Block :=
  List.find (λ b, String.eqb (cb_name b) name) (sc_components c).

(** [getComponentValue],
    sites/packages/data/src/lib/catalyst/creator-hub/scene-composite.ts:94-103 *)
Definition getComponentValue (c : SceneComposite) (entityId : Z) (name : string) : Json :=
  match getComponentBlock c name with
  | Some block => default JUndefined (prop (pretty entityId) (cb_data block))
  | None => JUndefined
  end.

(** [Number(key)] of the numeral of an integer, [None] for another key. *)
Definition keyEntity (key : string) : option Z :=
  n ← parseInt key; if decide (pretty n = key) then Some n else None.

(** [listEntities],
    sites/packages/data/src/lib/catalyst/creator-hub/scene-composite.ts:105-114 *)
Definition listEntities (c : SceneComposite) : list Z :=
  merge_sort Z.le (remove_dups (c.(sc_components) ≫= λ b, omap keyEntity (cb_data b).*1)).

(** [parentOf], the text of the number,
    sites/packages/data/src/lib/catalyst/creator-hub/scene-composite.ts:116-122 *)
Definition parentOf (c : SceneComposite) (entityId : Z) : string :=
  match getComponentValue c entityId TRANSFORM with
  | JObject t => match prop "parent" t with
                 | Some (JNumber parent) => parent
                 | _ => pretty ROOT_ENTITY
                 end
  | _ => pretty ROOT_ENTITY
  end.

(** [childrenOf],
    sites/packages/data/src/lib/catalyst/creator-hub/scene-composite.ts:124-126 *)
Definition childrenOf (c : SceneComposite) (parent : Z) : list Z :=
  filter (λ id, id ≠ parent ∧ parentOf c id = pretty parent) (listEntities c).

(** [nextEntityId],
    sites/packages/data/src/lib/catalyst/creator-hub/scene-composite.ts:128-132 *)
Definition nextEntityId (c : SceneComposite) : Z :=
  foldl (λ max id, if decide (id > max) then id else max) (FIRST_AUTHORED_ENTITY - 1)
    (listEntities c) + 1.

(** [entityName],
    sites/packages/data/src/lib/catalyst/creator-hub/scene-composite.ts:134-141 *)
Definition entityName (c : SceneComposite) (entityId : Z) : string :=
  let fallback :=
    if decide (entityId = ROOT_ENTITY) then "Scene" else "Entity " +:+ pretty entityId in
  let text v := match v with Some (JString s) => s | _ => "" end in
  match getComponentValue c entityId NAME with
  | JObject n =>
      if negb (String.eqb (text (prop "value" n)) "") then text (prop "value" n)
      else if negb (String.eqb (text (prop "name" n)) "") then text (prop "name" n)
      else fallback
  | _ => fallback
  end.

(** The first block of a name, made when there is none, is changed. *)
Fixpoint updateBlock (name : string) (f : list (string * Json) → list (string * Json))
    (bs : list Block) : list Block :=
  match bs with
  | [] => [{| cb_name := name; cb_data := f [] |}]
  | b :: bs =>
      if String.eqb (cb_name b) name then b <| cb_data ::= f |> :: bs
      else b :: updateBlock name f bs
  end.

(** [setComponentValue],
    sites/packages/data/src/lib/catalyst/creator-hub/scene-composite.ts:143-157 *)
Definition setComponentValue (c : SceneComposite) (entityId : Z) (name : string) (value : Json)
    : SceneComposite :=
  cloneComposite c <| sc_components ::= updateBlock name (assignKey (pretty entityId) value) |>.

(** The first block of a name loses an entity, and goes when it was its last. *)
Fixpoint removeFrom (name key : string) (bs : list Block) : list Block :=
  match bs with
  | [] => []
  | b :: bs =>
      if String.eqb (cb_name b) name then
        let data := deleteKey key (cb_data b) in
        if (length data =? 0)%nat then bs else b <| cb_data := data |> :: bs
      else b :: removeFrom name key bs
  end.

(** [removeComponentValue],
    sites/packages/data/src/lib/catalyst/creator-hub/scene-composite.ts:159-173 *)
Definition removeComponentValue (c : SceneComposite) (entityId : Z) (name : string)
    : SceneComposite :=
  cloneComposite c <| sc_components ::= removeFrom name (pretty entityId) |>.

(** [AddEntityInput],
    sites/packages/data/src/lib/catalyst/creator-hub/scene-composite.ts:175-180 *)
Record AddEntityInput := {
  ae_id : option Z;
  ae_name : option string;
  ae_parent : option Z;
  ae_components : list (string * Json)
}.

(** [addEntity],
    sites/packages/data/src/lib/catalyst/creator-hub/scene-composite.ts:182-202 *)
Definition addEntity (c : SceneComposite) (input : AddEntityInput) : SceneComposite * Z :=
  let entity := default (nextEntityId c) (ae_id input) in
  let next := setComponentValue c entity TRANSFORM
                (identityTransform (default ROOT_ENTITY (ae_parent input))) in
  let next :=
    if String.eqb (default "" (ae_name input)) "" then next
    else setComponentValue next entity NAME
           (JObject [("value", JString (default "" (ae_name input)))]) in
  let next := foldl (λ next '(name, value), setComponentValue next entity name value) next
                (ae_components input) in
  (next, entity).

(** [renameEntity],
    sites/packages/data/src/lib/catalyst/creator-hub/scene-composite.ts:204-210 *)
Definition renameEntity (c : SceneComposite) (entityId : Z) (name : string) : SceneComposite :=
  setComponentValue c entityId NAME (JObject [("value", JString name)]).

(** [reparentEntity],
    sites/packages/data/src/lib/catalyst/creator-hub/scene-composite.ts:212-223 *)
Definition reparentEntity (c : SceneComposite) (entityId parent : Z) : SceneComposite :=
  let base := match getComponentValue c entityId TRANSFORM with
              | JObject _ as existing => cloneJson existing
              | _ => identityTransform ROOT_ENTITY
              end in
  setComponentValue c entityId TRANSFORM
    match base with JObject o => JObject (assignKey "parent" (number parent) o) | v => v end.

(** The loop of [descendantsOf], the stack with its top first: [None] when it takes
    more than [fuel] turns.
    sites/packages/data/src/lib/catalyst/creator-hub/scene-composite.ts:227-235 *)
Fixpoint descend (fuel : nat) (c : SceneComposite) (stack seen out : list Z) : option (list Z) :=
  match fuel, stack with
  | _, [] => Some out
  | O, _ => None
  | S fuel, id :: stack =>
      if decide (id ∈ seen) then descend fuel c stack seen out
      else descend fuel c (reverse (childrenOf c id) ++ stack) (id :: seen) (out ++ [id])
  end.

(** [descendantsOf],
    sites/packages/data/src/lib/catalyst/creator-hub/scene-composite.ts:225-237 *)
Definition descendantsOf (c : SceneComposite) (entityId : Z) : list Z :=
  default [] (descend (S (length (listEntities c))) c [entityId] [] []).

(** [deleteEntity],
    sites/packages/data/src/lib/catalyst/creator-hub/scene-composite.ts:239-254 *)
Definition deleteEntity (c : SceneComposite) (entityId : Z) (recursive : bool) : SceneComposite :=
  if decide (entityId = ROOT_ENTITY) then cloneComposite c
  else
    let targets := filter (.≠ ROOT_ENTITY)
                     (if recursive then descendantsOf c entityId else [entityId]) in
    cloneComposite c <| sc_components ::= λ bs,
      filter (λ b, (0 < length (cb_data b))%nat)
        (map (λ b, b <| cb_data ::= λ data,
                foldl (λ data id, deleteKey (pretty id) data) data targets |>) bs) |>.

(** [DEFAULT_COMPONENT_VALUES],
    sites/packages/data/src/lib/catalyst/creator-hub/scene-composite.ts:256-264 *)
Definition DEFAULT_COMPONENT_VALUES : list (string * Json) :=
  let colour := JNumber "0.8" in
  [("core::MeshRenderer",
    JObject [("mesh", JObject [("$case", JString "box");
                               ("box", JObject [("uvs", JArray [])])])]);
   ("core::MeshCollider",
    JObject [("mesh", JObject [("$case", JString "box"); ("box", JObject [])])]);
   ("core::Material",
    JObject [("material", JObject [("$case", JString "pbr");
      ("pbr", JObject [("albedoColor",
         JObject [("r", colour); ("g", colour); ("b", colour); ("a", number 1)])])])]);
   ("core::GltfContainer", JObject [("src", JString "")]);
   ("core::VisibilityComponent", JObject [("visible", JBool true)])].

(** A node of [buildCompositeFromHierarchy],
    sites/packages/data/src/lib/catalyst/creator-hub/scene-composite.ts:267-272 *)
Record HierarchyNode := {
  hn_entity : Z;
  hn_name : string;
  hn_parent : Z;
  hn_components : list string
}.

(** [buildCompositeFromHierarchy],
    sites/packages/data/src/lib/catalyst/creator-hub/scene-composite.ts:266-287 *)
Definition buildCompositeFromHierarchy (nodes : list HierarchyNode) : SceneComposite :=
  foldl (λ c n,
    if decide (hn_entity n = ROOT_ENTITY) then c
    else
      let c := setComponentValue c (hn_entity n) TRANSFORM (identityTransform (hn_parent n)) in
      let c := if String.eqb (hn_name n) "" then c
               else setComponentValue c (hn_entity n) NAME
                      (JObject [("value", JString (hn_name n))]) in
      foldl (λ c comp,
        if decide (comp = TRANSFORM ∨ comp = NAME) then c
        else match prop comp DEFAULT_COMPONENT_VALUES with
             | Some value => setComponentValue c (hn_entity n) comp value
             | None => c
             end) c (hn_components n)) emptyComposite nodes.
