(* ===== verification/DebugDiffProofs.v ===== *)
(** * What the step debugger shows is what changed

    [deepEqual] is equality of values up to the order of keys; the differences of
    two values are the places where they part; the differences of two snapshots
    are exactly the entities and components that differ, each once, in order. *)

From S2P Require Import Prelude JsString SyncEngine SyncProofs JsonParse JsonProofs DebugDiff.
Open Scope string_scope.
Open Scope list_scope.

(** ** Values *)

Lemma prop_Some {A} k (l : list (string * A)) v : prop k l = Some v → (k, v) ∈ l.
Proof.
  induction l as [|[k' w] l IH]; simpl; [done|].
  case_decide; intros; simplify_eq; [by left|right; auto].
Qed.

Lemma prop_unique {A} k (l : list (string * A)) v :
  NoDup l.*1 → (k, v) ∈ l → prop k l = Some v.
Proof.
  induction l as [|[k' w] l IH]; simpl; intros Hnd Hin; [set_solver|].
  apply NoDup_cons in Hnd as [Hk Hnd]. apply elem_of_cons in Hin as [Hin|Hin].
  - simplify_eq. by rewrite decide_True.
  - rewrite decide_False; [by apply IH|]. intros <-. apply Hk.
    apply list_elem_of_fmap. by exists (k', v).
Qed.

Lemma prop_None {A} k (l : list (string * A)) : prop k l = None ↔ k ∉ l.*1.
Proof.
  induction l as [|[k' w] l IH]; simpl; [set_solver|].
  rewrite not_elem_of_cons. case_decide; naive_solver.
Qed.

Lemma prop_is_Some {A} k (l : list (string * A)) : is_Some (prop k l) ↔ k ∈ l.*1.
Proof.
  rewrite <- not_eq_None_Some, prop_None. destruct (decide (k ∈ l.*1)); naive_solver.
Qed.

Lemma bothKeys_NoDup {A B} (a : list (string * A)) (b : list (string * B)) :
  NoDup (bothKeys a b).
Proof. apply set_values_spec. Qed.

Lemma elem_of_bothKeys {A B} k (a : list (string * A)) (b : list (string * B)) :
  k ∈ bothKeys a b ↔ is_Some (prop k a) ∨ is_Some (prop k b).
Proof.
  unfold bothKeys. rewrite (proj2 (set_values_spec _)), elem_of_app, !prop_is_Some. done.
Qed.

(** *** Equality of values *)

Definition every2 : list Json → list Json → bool :=
  fix every (x y : list Json) : bool :=
    match x, y with
    | v :: x, w :: y => deepEqual v w && every x y
    | _, _ => true
    end.

Definition everyKey (bo : list (string * Json)) : list (string * Json) → bool :=
  fix every (ao : list (string * Json)) : bool :=
    match ao with
    | [] => true
    | (k, v) :: ao =>
        match prop k bo with
        | Some w => deepEqual v w && every ao
        | None => false
        end
    end.

Lemma deepEqual_array x y :
  deepEqual (JArray x) (JArray y) = (length x =? length y)%nat && every2 x y.
Proof. done. Qed.

Lemma deepEqual_object ao bo :
  deepEqual (JObject ao) (JObject bo) = (length ao =? length bo)%nat && everyKey bo ao.
Proof. done. Qed.

Lemma every2_Forall2 x y :
  length x = length y → every2 x y = true ↔ Forall2 (λ v w, deepEqual v w = true) x y.
Proof.
  revert y. induction x as [|v x IH]; intros [|w y]; simpl; try done; intros Hlen.
  rewrite andb_true_iff, Forall2_cons, IH by lia. done.
Qed.

Lemma everyKey_Forall bo ao :
  everyKey bo ao = true ↔
  Forall (λ p, ∃ w, prop p.1 bo = Some w ∧ deepEqual p.2 w = true) ao.
Proof.
  induction ao as [|[k v] ao IH]; simpl; [naive_solver constructor|].
  rewrite Forall_cons. destruct (prop k bo) as [w|] eqn:E; simpl; [|naive_solver].
  rewrite andb_true_iff, IH. naive_solver.
Qed.

Lemma identical_eq a b : is_node a = false → identical a b = true ↔ a = b.
Proof.
  destruct a, b; simpl; try (by intuition congruence); intros _;
    rewrite ?eqb_true_iff, ?String.eqb_eq; naive_solver.
Qed.

Lemma same_keys {A B} (R : A → B → Prop) l m :
  Forall2 (λ p q, p.1 = q.1 ∧ R p.2 q.2) l m → l.*1 =@{list string} m.*1.
Proof. induction 1 as [|p q l m [Hk _] _ IH]; [done|]. rewrite !fmap_cons. by f_equal. Qed.

(** The entries of an object found in another with as many keys are all of them. *)
Lemma found_all {A B} (R : A → B → Prop) (ao : list (string * A)) (bo : list (string * B)) :
  NoDup ao.*1 → NoDup bo.*1 →
  (length ao = length bo ∧ Forall (λ p, ∃ w, prop p.1 bo = Some w ∧ R p.2 w) ao) ↔
  ∃ m, m ≡ₚ bo ∧ Forall2 (λ p q, p.1 = q.1 ∧ R p.2 q.2) ao m.
Proof.
  intros Ha Hb. split.
  - intros [Hlen Hall].
    assert (∃ m, Forall (.∈ bo) m ∧ Forall2 (λ p q, p.1 = q.1 ∧ R p.2 q.2) ao m)
      as (m & Hin & Hm).
    { clear Ha Hlen. induction Hall as [|[k v] ao (w & Hw & HR) _ (m & ? & ?)];
        [by exists []|]. exists ((k, w) :: m).
      split; constructor; simpl; auto using prop_Some. }
    exists m. split; [|done]. apply submseteq_length_Permutation.
    + apply NoDup_submseteq.
      * apply (NoDup_fmap_1 fst). by rewrite <- (same_keys _ _ _ Hm).
      * by apply Forall_forall.
    + apply Forall2_length in Hm. lia.
  - intros (m & Hm & Hall). split.
    + by rewrite <- (Permutation_length Hm), (Forall2_length _ _ _ Hall).
    + apply Forall_forall. intros p Hp.
      apply list_elem_of_lookup in Hp as [i Hi].
      destruct (Forall2_lookup_l _ _ _ _ _ Hall Hi) as ([k w] & Hq & Hk & HR).
      exists w. split; [|done]. apply prop_unique; [done|]. rewrite <- Hm, Hk.
      by eapply list_elem_of_lookup_2.
Qed.

Lemma same_value_object_NoDup l b :
  NoDup l.*1 →
  same_value (JObject l) b ↔ ∃ m l', b = JObject l' ∧ m ≡ₚ l' ∧ Forall2 same_entry l m.
Proof.
  intros Hnd. rewrite same_value_object. split; [|naive_solver].
  intros [->|(m & l' & -> & _ & Hm & Hp)]; [|by eauto 6]. exists l, l.
  split_and!; [done|done|]. apply Forall_Forall2_diag, Forall_true. by split.
Qed.

Lemma iff_impl (P Q R : Prop) : (P → Q ↔ R) → (P → Q) ↔ (P → R).
Proof. tauto. Qed.

Lemma iff_and (P Q R : Prop) : (P → Q ↔ R) → P ∧ Q ↔ P ∧ R.
Proof. tauto. Qed.

Lemma deepEqual_same a b : parsed a → parsed b → deepEqual a b = true ↔ same_value a b.
Proof.
  revert b. induction a as [a Ha|l IH|l IH] using Json_children_ind; intros b Hpa Hpb.
  - rewrite same_value_leaf by done. by destruct a; try done; apply identical_eq.
  - rewrite same_value_array. apply parsed_array_inv in Hpa.
    destruct b as [ | | | | |l'|]; try (simpl; naive_solver).
    rewrite deepEqual_array, andb_true_iff, Nat.eqb_eq. apply parsed_array_inv in Hpb.
    transitivity (Forall2 same_value l l'); [|naive_solver]. split.
    + intros [Hlen Hl]. apply every2_Forall2 in Hl; [|done].
      clear Hlen. induction Hl; decompose_Forall_hyps; constructor; naive_solver.
    + intros Hl. pose proof (Forall2_length _ _ _ Hl) as Hlen. split; [done|].
      apply every2_Forall2; [done|]. clear Hlen.
      induction Hl; decompose_Forall_hyps; constructor; naive_solver.
  - apply parsed_object_inv in Hpa as [Hnd Hpa]. rewrite same_value_object_NoDup by done.
    destruct b as [ | | | | | |l']; try (simpl; naive_solver).
    apply parsed_object_inv in Hpb as [Hnd' Hpb].
    rewrite deepEqual_object, andb_true_iff, Nat.eqb_eq, everyKey_Forall.
    transitivity (∃ m, m ≡ₚ l' ∧ Forall2 (λ p q, p.1 = q.1 ∧ same_value p.2 q.2) l m);
      [|naive_solver].
    rewrite <- (found_all same_value) by done. apply and_iff_compat_l.
    rewrite !Forall_forall. apply forall_proper. intros [k v]. apply iff_impl. intros Hin.
    f_equiv. intros w. apply iff_and. intros Hw. apply prop_Some in Hw.
    rewrite Forall_forall in IH, Hpa, Hpb.
    apply (IH _ Hin); [apply (Hpa _ Hin)|apply (Hpb _ Hw)].
Qed.

(** ** Where two values part *)

Definition both_objects (a b : Json) : bool :=
  match a, b with JObject _, JObject _ => true | _, _ => false end.

(** The values at a key, and the path that names it. *)
Definition at_key (k : string) (v : Json) : Json :=
  match v with JObject l => default JUndefined (prop k l) | _ => JUndefined end.

Definition below (path k : string) : string :=
  if String.eqb path "" then k else path +:+ "." +:+ k.

Section leaves.
Context (formatNum : string → string).

(** [leaf_diff a b path c]: under [path], [c] is a place where two different values
    stand that are not both objects. *)
Inductive leaf_diff : Json → Json → string → LeafChange → Prop :=
  | leaf_here a b path :
      deepEqual a b = false → both_objects a b = false →
      leaf_diff a b path {| lc_path := path; lc_before := formatValue formatNum a 0;
                            lc_after := formatValue formatNum b 0 |}
  | leaf_below ao bo path k c :
      deepEqual (JObject ao) (JObject bo) = false → k ∈ bothKeys ao bo →
      leaf_diff (at_key k (JObject ao)) (at_key k (JObject bo)) (below path k) c →
      leaf_diff (JObject ao) (JObject bo) path c.

(** What a walk that began with [out] may return when the changes to be found are
    those of [P]: nothing else, no more than [cap], and all of them below [cap]. *)
Definition gathers (cap : nat) (P : LeafChange → Prop) (out out' : list LeafChange) : Prop :=
  ∃ new, out' = out ++ new ∧ Forall P new ∧ (length out ≤ cap → length out' ≤ cap)%nat ∧
    ((length out' < cap)%nat → ∀ c, P c → c ∈ new).

Lemma gathers_none cap P out : (∀ c, ¬ P c) → gathers cap P out out.
Proof. intros HP. exists []. rewrite app_nil_r. split_and!; auto. intros _ c Hc. by destruct (HP c). Qed.

Lemma gathers_full cap P out : (cap ≤ length out)%nat → gathers cap P out out.
Proof. intros ?. exists []. rewrite app_nil_r. split_and!; auto. lia. Qed.

Lemma gathers_app cap (P Q R : LeafChange → Prop) out out' out'' :
  (∀ c, R c ↔ P c ∨ Q c) →
  gathers cap P out out' → gathers cap Q out' out'' → gathers cap R out out''.
Proof.
  intros HR (l & -> & Hl & Hc & Hall) (m & -> & Hm & Hc' & Hall').
  exists (l ++ m). rewrite <- app_assoc. split_and!; [done| | |].
  - apply Forall_app. split; eapply Forall_impl; eauto; naive_solver.
  - intros H. rewrite app_assoc. auto.
  - rewrite !length_app in *. intros H c Hc0. rewrite elem_of_app.
    apply HR in Hc0 as [?|?]; [left; apply Hall; [lia|done]|right; apply Hall'; [lia|done]].
Qed.

(** The loop over the keys. *)
Definition eachKey (fuel cap : nat) (ao bo : list (string * Json)) (path : string) :=
  fix each (keys : list string) (out : list LeafChange) : option (list LeafChange) :=
    match keys with
    | [] => Some out
    | k :: keys =>
        out ← walk formatNum fuel cap (default JUndefined (prop k ao))
          (default JUndefined (prop k bo))
          (if String.eqb path "" then k else path +:+ "." +:+ k) out;
        if (cap <=? length out)%nat then Some out else each keys out
    end.

Lemma depth_child l k v : (k, v) ∈ l → (depthOf v < depthOf (JObject l))%nat.
Proof.
  simpl. induction l as [|[k' w] l IH]; simpl; intros Hin; [set_solver|].
  apply elem_of_cons in Hin as [Hin|Hin]; simplify_eq; [lia|]. apply IH in Hin. lia.
Qed.

Lemma depth_at_key k l : (depthOf (at_key k (JObject l)) < depthOf (JObject l))%nat.
Proof.
  simpl at_key. destruct (prop k l) eqn:E; simpl default.
  - by eapply depth_child, prop_Some.
  - simpl. lia.
Qed.

Lemma eachKey_gathers fuel cap ao bo path keys out :
  (∀ k out, ∃ out',
     walk formatNum fuel cap (at_key k (JObject ao)) (at_key k (JObject bo)) (below path k) out
       = Some out' ∧
     gathers cap (leaf_diff (at_key k (JObject ao)) (at_key k (JObject bo)) (below path k))
       out out') →
  ∃ out', eachKey fuel cap ao bo path keys out = Some out' ∧
    gathers cap (λ c, ∃ k, k ∈ keys ∧
      leaf_diff (at_key k (JObject ao)) (at_key k (JObject bo)) (below path k) c) out out'.
Proof.
  intros Hwalk. revert out. induction keys as [|k keys IH]; intros out.
  - exists out. split; [done|]. apply gathers_none. set_solver.
  - destruct (Hwalk k out) as (o & Ho & Hg). simpl.
    change (walk _ _ _ _ _ _ _) with (walk formatNum fuel cap (at_key k (JObject ao))
      (at_key k (JObject bo)) (below path k) out).
    rewrite Ho. simpl. destruct (Nat.leb_spec cap (length o)) as [Hfull|Hfull].
    + exists o. split; [done|]. eapply gathers_app; [|exact Hg|by apply gathers_full].
      instantiate (1 := λ c, ∃ k, k ∈ keys ∧
        leaf_diff (at_key k (JObject ao)) (at_key k (JObject bo)) (below path k) c).
      intros c. set_solver.
    + destruct (IH o) as (o' & -> & Hg'). exists o'. split; [done|].
      eapply gathers_app; [|exact Hg|exact Hg']. intros c. set_solver.
Qed.

Lemma gathers_one cap (P : LeafChange → Prop) out c :
  (length out < cap)%nat → P c → (∀ c', P c' → c' = c) → gathers cap P out (out ++ [c]).
Proof.
  intros Hlen Hc Hone. exists [c]. split_and!; [done|by constructor| |].
  - rewrite length_app. simpl. lia.
  - intros _ c' Hc'. rewrite (Hone c' Hc'). by left.
Qed.

Lemma gathers_iff cap (P Q : LeafChange → Prop) out out' :
  (∀ c, P c ↔ Q c) → gathers cap Q out out' → gathers cap P out out'.
Proof.
  intros HPQ (l & -> & Hl & Hlen & Hall). exists l. split_and!; [done| |done|].
  - eapply Forall_impl; [exact Hl|]. naive_solver.
  - intros H c Hc. apply Hall; [done|]. by apply HPQ.
Qed.

Lemma walk_S fuel cap a b path out :
  walk formatNum (S fuel) cap a b path out =
  if (cap <=? length out)%nat then Some out
  else if deepEqual a b then Some out
  else match a, b with
       | JObject ao, JObject bo => eachKey fuel cap ao bo path (bothKeys ao bo) out
       | _, _ => Some (out ++ [{| lc_path := path; lc_before := formatValue formatNum a 0;
                                  lc_after := formatValue formatNum b 0 |}])
       end.
Proof. done. Qed.

Lemma walk_gathers fuel cap a b path out :
  (depthOf a < fuel)%nat →
  ∃ out', walk formatNum fuel cap a b path out = Some out' ∧
    gathers cap (leaf_diff a b path) out out'.
Proof.
  revert a b path out. induction fuel as [|fuel IH]; intros a b path out Hd; [lia|].
  rewrite walk_S. destruct (Nat.leb_spec cap (length out)) as [Hfull|Hfull];
    [eexists; split; [done|by apply gathers_full]|].
  destruct (deepEqual a b) eqn:Heq.
  { eexists. split; [done|]. apply gathers_none. intros c Hc. destruct Hc; congruence. }
  destruct (both_objects a b) eqn:Hboth.
  - destruct a as [ | | | | | |ao], b as [ | | | | | |bo]; try done.
    destruct (eachKey_gathers fuel cap ao bo path (bothKeys ao bo) out) as (o & Ho & Hg).
    { intros k o. apply IH. pose proof (depth_at_key k ao). lia. }
    exists o. split; [exact Ho|]. eapply gathers_iff; [|exact Hg]. intros c. split.
    + intros H. inversion H; subst; [done|by eauto].
    + intros (k & Hk & Hc). by eapply leaf_below.
  - eexists. split; [by destruct a, b|]. apply gathers_one; [done|by constructor|].
    intros c Hc. inversion Hc; subst; [done|]. done.
Qed.

Lemma parted_key bo ao :
  everyKey bo ao = false →
  ∃ k v, (k, v) ∈ ao ∧
    (prop k bo = None ∨ deepEqual v (default JUndefined (prop k bo)) = false).
Proof.
  induction ao as [|[k v] ao IH]; simpl; [done|].
  destruct (prop k bo) as [w|] eqn:E; [|exists k, v; split; [by left|by left]].
  destruct (deepEqual v w) eqn:Hv; simpl.
  - intros H. destruct (IH H) as (k' & v' & Hin & ?). exists k', v'. split; [by right|done].
  - intros _. exists k, v. split; [by left|]. right. by rewrite E.
Qed.

Lemma other_key (ao bo : list (string * Json)) :
  NoDup ao.*1 → NoDup bo.*1 → everyKey bo ao = true → length ao ≠ length bo →
  ∃ k, k ∈ bo.*1 ∧ k ∉ ao.*1.
Proof.
  intros Ha Hb Hall Hlen. apply everyKey_Forall in Hall.
  destruct (decide (Exists (.∉ ao.*1) bo.*1)) as [H|H];
    [apply Exists_exists in H; naive_solver|].
  destruct Hlen. rewrite <- (length_fmap fst ao), <- (length_fmap fst bo).
  apply Permutation_length, NoDup_Permutation; [done..|]. intros k. split.
  - intros Hk. apply list_elem_of_fmap in Hk as (p & -> & Hp). rewrite Forall_forall in Hall.
    destruct (Hall _ Hp) as (w & Hw & _). apply prop_is_Some. eauto.
  - intros Hk. destruct (decide (k ∈ ao.*1)); [done|]. destruct H. apply Exists_exists. eauto.
Qed.

(** Two different values part somewhere. *)
Lemma leaf_diff_exists a b path :
  parsed a → (b = JUndefined ∨ parsed b) → deepEqual a b = false → ∃ c, leaf_diff a b path c.
Proof.
  revert b path. induction a as [a Ha|l IH|l IH] using Json_children_ind; intros b path Hpa Hpb Hne.
  - eexists. apply leaf_here; [done|]. by destruct a.
  - eexists. by apply leaf_here.
  - destruct b as [ | | | | | |l']; try (eexists; by apply leaf_here).
    destruct Hpb as [?|Hpb]; [done|].
    apply parsed_object_inv in Hpa as [Hnd Hpa], Hpb as [Hnd' Hpb].
    cut (∃ k c, k ∈ bothKeys l l' ∧
      leaf_diff (at_key k (JObject l)) (at_key k (JObject l')) (below path k) c).
    { intros (k & c & Hk & Hc). exists c. by eapply leaf_below. }
    destruct (everyKey l' l) eqn:Hevery.
    + destruct (other_key l l') as (k & Hk & Hk'); [done..| |].
      { rewrite deepEqual_object, Hevery, andb_true_r, Nat.eqb_neq in Hne. done. }
      apply prop_is_Some in Hk as [w Hw]. apply prop_None in Hk'.
      exists k. simpl. rewrite Hk', Hw. eexists. split.
      * apply elem_of_bothKeys. rewrite Hw. eauto.
      * apply leaf_here; [|done]. apply prop_Some in Hw.
        rewrite Forall_forall in Hpb. specialize (Hpb _ Hw). simpl in *.
        by destruct w; try done; inversion Hpb.
    + destruct (parted_key l' l Hevery) as (k & v & Hin & Hv).
      rewrite Forall_forall in IH, Hpa.
      destruct (IH _ Hin (default JUndefined (prop k l')) (below path k)) as [c Hc];
        [by apply (Hpa _ Hin)| | |].
      * destruct (prop k l') eqn:E; [right|by left]. apply prop_Some in E.
        rewrite Forall_forall in Hpb. by apply (Hpb _ E).
      * destruct Hv as [-> |Hv]; [|done]. specialize (Hpa _ Hin). simpl in *.
        by destruct v; try done; inversion Hpa.
      * exists k, c. simpl. rewrite (prop_unique k l v) by done. split; [|done].
        apply elem_of_bothKeys. rewrite (prop_unique k l v) by done. eauto.
Qed.

(** [leafChanges] always returns, shows at most [cap] changes, each of them a
    place where the two values part with the values that stand there, all of them
    when they are fewer than [cap], and none only of values that are the same up to
    the order of their keys. *)
Theorem leafChanges_exact a b cap :
  parsed a → parsed b →
  ∃ out, leafChanges formatNum a b cap = Some out ∧ (length out ≤ cap)%nat ∧
    Forall (leaf_diff a b "") out ∧
    ((length out < cap)%nat → ∀ c, leaf_diff a b "" c → c ∈ out) ∧
    ((0 < cap)%nat → out = [] ↔ same_value a b).
Proof.
  intros Ha Hb. unfold leafChanges.
  destruct (walk_gathers (S (depthOf a)) cap a b "" []) as (out & Hout & Hg); [lia|].
  exists out. destruct Hg as (new & -> & Hall & Hlen & Hcomplete). simpl in *.
  split_and!; [done|apply Hlen; lia|done|done|].
  intros Hcap. rewrite <- deepEqual_same by done. split.
  - intros ->. destruct (deepEqual a b) eqn:E; [done|].
    destruct (leaf_diff_exists a b "") as [c Hc]; [done|by right|done|].
    specialize (Hcomplete Hcap c Hc). set_solver.
  - intros E. destruct new as [|c new]; [done|]. inversion Hall as [|? ? Hc]; subst.
    inversion Hc; congruence.
Qed.
End leaves.

(** ** Snapshots *)

Definition snapshot_ok (s : DebugSnapshot) : Prop :=
  NoDup s.*1 ∧ Forall (λ e, parsed (JObject e.2)) s.

Definition same_components (a b : Components) : Prop :=
  ∀ name, option_Forall2 same_value (prop name a) (prop name b).

Section snapshots.
Context (formatNum : string → string).

Lemma diffComponent_None name va vb :
  (∀ v, va = Some v → parsed v) → (∀ v, vb = Some v → parsed v) →
  diffComponent formatNum name va vb = None ↔ option_Forall2 same_value va vb.
Proof.
  intros Ha Hb. destruct va as [va|], vb as [vb|]; simpl.
  - pose proof (deepEqual_same va vb (Ha _ eq_refl) (Hb _ eq_refl)) as E.
    destruct (deepEqual va vb); split; try done; [intros _; constructor; by apply E|].
    inversion 1; subst. naive_solver.
  - split; [done|inversion 1].
  - split; [done|inversion 1].
  - split; [constructor|done].
Qed.

Lemma diffComponent_name name va vb d : diffComponent formatNum name va vb = Some d → cd_name d = name.
Proof. destruct va, vb; simpl; intros; repeat case_match; simplify_eq; done. Qed.

Lemma diffComponents_eq a b :
  diffComponents formatNum a b =
  (omap (λ n, diffComponent formatNum n (prop n a) (prop n b)) (bothKeys a b),
   Z.of_nat (length (bothKeys a b)) -
   Z.of_nat (length (omap (λ n, diffComponent formatNum n (prop n a) (prop n b)) (bothKeys a b))))%Z.
Proof.
  unfold diffComponents. generalize (bothKeys a b). intros keys.
  cut (∀ comps n, foldl (λ '(comps, unchanged) name,
      match diffComponent formatNum name (prop name a) (prop name b) with
      | Some d => (comps ++ [d], unchanged)
      | None => (comps, unchanged + 1)
      end)%Z (comps, n) keys =
    let new := omap (λ n, diffComponent formatNum n (prop n a) (prop n b)) keys in
    (comps ++ new, n + (Z.of_nat (length keys) - Z.of_nat (length new)))%Z).
  { intros H. by rewrite H. }
  induction keys as [|k keys IH]; intros comps n; [simpl; f_equal; [by rewrite app_nil_r|lia]|].
  simpl foldl. destruct (diffComponent formatNum k (prop k a) (prop k b)) as [d|] eqn:E; rewrite IH;
    cbn [omap list_omap]; rewrite E; [rewrite <- app_assoc|]; cbn [length app]; f_equal;
    lia.
Qed.

Lemma NoDup_omap_key {A B} (f : A → option B) (key : B → A) (l : list A) :
  (∀ x y, f x = Some y → key y = x) → NoDup l → NoDup (key <$> omap f l).
Proof.
  intros Hf. induction 1 as [|x l Hx _ IH]; simpl; [constructor|].
  destruct (f x) as [y|] eqn:E; [|done]. rewrite fmap_cons, NoDup_cons. split; [|done].
  rewrite (Hf _ _ E). intros Hin. apply list_elem_of_fmap in Hin as (z & -> & Hz).
  apply list_elem_of_omap in Hz as (w & Hw & Hfw). by rewrite (Hf _ _ Hfw) in Hx.
Qed.

Lemma elem_of_omap_key {A B} (f : A → option B) (key : B → A) (l : list A) k :
  (∀ x y, f x = Some y → key y = x) →
  k ∈ key <$> omap f l ↔ k ∈ l ∧ is_Some (f k).
Proof.
  intros Hf. rewrite list_elem_of_fmap. setoid_rewrite list_elem_of_omap. split.
  - intros (y & -> & x & Hx & Hy). rewrite (Hf _ _ Hy). eauto.
  - intros [Hk [y Hy]]. exists y. rewrite (Hf _ _ Hy). eauto.
Qed.

(** What the difference of an entity says of its components. *)
Definition entity_changed (x : EntityDiff) (a b : Components) : Prop :=
  NoDup (cd_name <$> ed_comps x) ∧
  (∀ n, n ∈ cd_name <$> ed_comps x ↔ ¬ option_Forall2 same_value (prop n a) (prop n b)) ∧
  (ed_unchanged x + Z.of_nat (length (ed_comps x)) = Z.of_nat (length (bothKeys a b)))%Z ∧
  Forall (λ c,
    match cd_kind c, prop (cd_name c) a, prop (cd_name c) b with
    | CompAdded, None, Some v | CompRemoved, Some v, None =>
        cd_changes c = [] ∧ cd_value c = Some (formatValue formatNum v 0)
    | CompChanged, Some v, Some w =>
        leafChanges formatNum v w MAX_LEAF_CHANGES = Some (cd_changes c) ∧ cd_value c = None
    | _, _, _ => False
    end) (ed_comps x).

Definition entity_shown (x : EntityDiff) (a b : option Components) : Prop :=
  match ed_kind x, a, b with
  | EntityNew, None, Some b =>
      cd_name <$> ed_comps x = b.*1 ∧ Forall (λ c, cd_kind c = CompAdded) (ed_comps x)
  | EntityGone, Some a, None =>
      cd_name <$> ed_comps x = a.*1 ∧ Forall (λ c, cd_kind c = CompRemoved) (ed_comps x)
  | EntityChanged, Some a, Some b => entity_changed x a b
  | _, _, _ => False
  end.
Lemma components_parsed (a : Components) name :
  parsed (JObject a) → ∀ v, prop name a = Some v → parsed v.
Proof.
  intros Ha v Hv. apply parsed_object_inv in Ha as [_ Ha]. rewrite Forall_forall in Ha.
  by apply (Ha _ (prop_Some _ _ _ Hv)).
Qed.

Lemma diffComponent_shown a b n c :
  diffComponent formatNum n (prop n a) (prop n b) = Some c →
  match cd_kind c, prop (cd_name c) a, prop (cd_name c) b with
  | CompAdded, None, Some v | CompRemoved, Some v, None =>
      cd_changes c = [] ∧ cd_value c = Some (formatValue formatNum v 0)
  | CompChanged, Some v, Some w =>
      leafChanges formatNum v w MAX_LEAF_CHANGES = Some (cd_changes c) ∧ cd_value c = None
  | _, _, _ => False
  end.
Proof.
  intros Hc. rewrite (diffComponent_name _ _ _ _ Hc).
  destruct (prop n a) as [v|], (prop n b) as [w|]; simpl in Hc; simplify_eq; try done.
  case_match; simplify_eq. simpl. split; [|done]. unfold leafChanges.
  by destruct (walk_gathers formatNum (S (depthOf v)) MAX_LEAF_CHANGES v w "" [])
    as (out & -> & _); [lia|].
Qed.

Lemma diffComponents_shown a b kind id :
  parsed (JObject a) → parsed (JObject b) →
  let '(comps, unchanged) := diffComponents formatNum a b in
  entity_changed {| ed_id := id; ed_kind := kind; ed_comps := comps;
                    ed_unchanged := unchanged |} a b ∧
  (comps = [] ↔ same_components a b).
Proof.
  intros Ha Hb. rewrite diffComponents_eq.
  set (comps := omap _ (bothKeys a b)).
  assert (∀ n c, diffComponent formatNum n (prop n a) (prop n b) = Some c → cd_name c = n)
    as Hname by (intros; by eapply diffComponent_name).
  assert (∀ n, n ∈ cd_name <$> comps ↔ ¬ option_Forall2 same_value (prop n a) (prop n b))
    as Hin.
  { intros n. unfold comps. rewrite elem_of_omap_key by done.
    rewrite <- (diffComponent_None n) by eauto using components_parsed.
    rewrite not_eq_None_Some, elem_of_bothKeys. split; [by intros [_ ?]|].
    intros Hs. split; [|done]. destruct (prop n a), (prop n b); eauto.
    simpl in Hs. by destruct Hs. }
  split.
  - unfold entity_changed. simpl. split_and!; [|done|lia|].
    + apply NoDup_omap_key; [done|apply bothKeys_NoDup].
    + apply Forall_forall. intros c Hc. apply list_elem_of_omap in Hc as (n & _ & Hc).
      by eapply diffComponent_shown.
  - split.
    + intros E n. rewrite E in Hin. specialize (Hin n).
      apply diffComponent_None with (name := n); eauto using components_parsed.
      apply eq_None_not_Some. intros Hs.
      rewrite <- not_eq_None_Some, diffComponent_None in Hs by eauto using components_parsed.
      apply Hin in Hs. set_solver.
    + intros Hsame. destruct comps as [|c l]; [done|].
      destruct (proj1 (Hin (cd_name c))); [by left|]. apply Hsame.
Qed.

Lemma diffEntity_id prev next id d : diffEntity formatNum prev next id = Some d → ed_id d = id.
Proof. unfold diffEntity. intros. repeat case_match; simplify_eq; done. Qed.

Lemma snapshot_entity (s : DebugSnapshot) id c :
  snapshot_ok s → prop id s = Some c → parsed (JObject c).
Proof.
  intros [_ Hs] Hc. rewrite Forall_forall in Hs. by apply (Hs _ (prop_Some _ _ _ Hc)).
Qed.

Lemma diffEntity_shown prev next id :
  snapshot_ok prev → snapshot_ok next →
  match diffEntity formatNum prev next id with
  | Some d => entity_shown d (prop id prev) (prop id next) ∧
              ¬ option_Forall2 same_components (prop id prev) (prop id next)
  | None => option_Forall2 same_components (prop id prev) (prop id next)
  end.
Proof.
  intros Hprev Hnext. unfold diffEntity.
  destruct (prop id prev) as [a|] eqn:Ea, (prop id next) as [b|] eqn:Eb.
  - pose proof (diffComponents_shown a b EntityChanged id (snapshot_entity _ _ _ Hprev Ea)
      (snapshot_entity _ _ _ Hnext Eb)) as H.
    destruct (diffComponents formatNum a b) as [comps unchanged]. destruct H as [H Hnil].
    destruct comps as [|c comps]; simpl.
    + constructor. by apply Hnil.
    + split; [done|]. inversion 1; subst. naive_solver.
  - split; [|inversion 1]. simpl. split.
    + clear. induction a as [|[k v] a IH]; csimpl; [done|]. by f_equal.
    + apply Forall_fmap, Forall_true. by intros [].
  - split; [|inversion 1]. simpl. split.
    + clear. induction b as [|[k v] b IH]; csimpl; [done|]. by f_equal.
    + apply Forall_fmap, Forall_true. by intros [].
  - constructor.
Qed.

#[local] Instance before_eq_trans : Transitive before_eq.
Proof. unfold before_eq. intros x y z. lia. Qed.

#[local] Instance before_eq_total : Total before_eq.
Proof. unfold before_eq. intros x y. lia. Qed.

(** C14.  The differences of two snapshots name each entity once, in the order of the
    panel, and exactly the entities whose components differ; one that appeared or
    went shows all of its components, and one that both have shows each component
    that differs, once, as added, removed or changed, and counts the others. *)
Theorem diffSnapshots_exact prev next :
  snapshot_ok prev → snapshot_ok next →
  let diffs := diffSnapshots formatNum prev next in
  NoDup (ed_id <$> diffs) ∧ StronglySorted before_eq diffs ∧
  (∀ id, id ∈ ed_id <$> diffs ↔
    ¬ option_Forall2 same_components (prop id prev) (prop id next)) ∧
  Forall (λ d, entity_shown d (prop (ed_id d) prev) (prop (ed_id d) next)) diffs.
Proof.
  intros Hprev Hnext. cbv zeta. unfold diffSnapshots, orderEntityDiffs.
  pose proof (diffEntity_id prev next) as Hid. split_and!.
  - rewrite merge_sort_Permutation. apply NoDup_omap_key; [done|apply bothKeys_NoDup].
  - apply (StronglySorted_merge_sort before_eq).
  - intros id. rewrite merge_sort_Permutation, elem_of_omap_key by done.
    pose proof (diffEntity_shown prev next id Hprev Hnext) as H.
    destruct (diffEntity formatNum prev next id) as [d|] eqn:E.
    + split; [by intros _; apply H|]. intros _. split; [|done]. apply elem_of_bothKeys.
      unfold diffEntity in E. destruct (prop id prev), (prop id next); eauto. done.
    + split; [by intros [_ [? ?]]|]. intros Hne. by destruct Hne.
  - rewrite merge_sort_Permutation. apply Forall_forall. intros d Hd.
    apply list_elem_of_omap in Hd as (id & _ & Hd). rewrite (Hid _ _ Hd).
    pose proof (diffEntity_shown prev next id Hprev Hnext) as H. rewrite Hd in H. apply H.
Qed.
End snapshots.

(** ** Examples *)

Definition before_tick : DebugSnapshot :=
  [("0", [("core::Clock", JNumber "1")]);
   ("512", [("core::Transform", JObject [("x", JNumber "1"); ("y", JNumber "2")]);
            ("core::Name", JString "door")]);
   ("513", [("core::Name", JString "lamp")])].

Definition after_tick : DebugSnapshot :=
  [("0", [("core::Clock", JNumber "2")]);
   ("512", [("core::Name", JString "door"); ("core::Tween", JNull);
            ("core::Transform", JObject [("y", JNumber "3"); ("x", JNumber "1")])]);
   ("514", [("core::Name", JString "sign")])].

Ltac parse :=
  repeat first
    [ apply parsed_leaf; [reflexivity|discriminate]
    | apply parsed_object; [decided|]
    | apply parsed_array
    | apply Forall_nil_2 | apply Forall_cons_2
    | progress cbn [fst snd] ].

Lemma leafChanges_exact_witness :
  let a := JObject [("x", JNumber "1"); ("y", JArray [JBool true])] in
  let b := JObject [("y", JArray [JBool false]); ("x", JNumber "1"); ("z", JNull)] in
  ∃ out, leafChanges id a b 12 = Some out ∧ lc_path <$> out = ["y"; "z"] ∧
    Forall (leaf_diff id a b "") out ∧ ¬ same_value a b.
Proof.
  intros a b. destruct (leafChanges_exact id a b 12) as (out & Hout & _ & Hall & _ & Hnil).
  - unfold a. parse.
  - unfold b. parse.
  - exists out. split_and!; [done| |done|].
    + revert Hout. vm_compute. by intros [= <-].
    + rewrite <- Hnil by lia. revert Hout. vm_compute. by intros [= <-].
Defined.

Lemma diffSnapshots_exact_witness :
  let diffs := diffSnapshots id before_tick after_tick in
  ed_id <$> diffs = ["512"; "513"; "514"; "0"] ∧
  Forall (λ d, entity_shown id d (prop (ed_id d) before_tick) (prop (ed_id d) after_tick)) diffs.
Proof.
  intros diffs. split; [by vm_compute|].
  apply (diffSnapshots_exact id before_tick after_tick).
  - split; [decided|]. unfold before_tick. parse.
  - split; [decided|]. unfold after_tick. parse.
Defined.
