(* ===== verification/SceneProofs.v ===== *)
(** * A scene stays a tree and is read back as written

    What each operation on the composite of a scene does to every component of every
    entity; that composites keep their form and entities their place in a tree; and
    that a scene file is read back as the composite that was written. *)

From stdpp Require Import relations.
From S2P Require Import Prelude JsString SyncEngine SyncProofs JsonParse JsonProofs DebugDiff.
From S2P Require Import DebugDiffProofs SceneComposite.
Open Scope string_scope.
Open Scope list_scope.
Open Scope Z_scope.

(** ** The order of properties *)

Definition key_before {A} (p q : string * A) : Prop :=
  match arrayIndex p.1, arrayIndex q.1 with
  | Some a, Some b => a < b
  | None, Some _ => False
  | _, None => True
  end.

Definition in_order {A} (l : list (string * A)) : Prop := StronglySorted key_before l.

Lemma arrayIndex_pretty k n : arrayIndex k = Some n → k = pretty n.
Proof.
  unfold arrayIndex. destruct (parseInt k) as [m|]; simpl; [|done].
  case_decide as H; intros; simplify_eq. by destruct H.
Qed.

Lemma index_le_anti {A} (l : list (string * A)) x y :
  NoDup l.*1 → Forall (λ p, is_Some (arrayIndex p.1)) l → x ∈ l → y ∈ l →
  index_le x y → index_le y x → x = y.
Proof.
  intros Hnd Hl Hx Hy Hxy Hyx. rewrite Forall_forall in Hl.
  destruct (Hl x Hx) as [a Ha], (Hl y Hy) as [b Hb].
  unfold index_le in *. rewrite Ha, Hb in *. simpl in *. assert (a = b) as -> by lia.
  apply arrayIndex_pretty in Ha, Hb. destruct x as [k v], y as [k' w]; simpl in *; subst.
  f_equal. pose proof (prop_unique _ _ _ Hnd Hx) as E. rewrite (prop_unique _ _ _ Hnd Hy) in E.
  by simplify_eq.
Qed.

#[local] Instance index_le_trans {A} : Transitive (@index_le A).
Proof. unfold index_le. intros x y z. lia. Qed.

#[local] Instance index_le_total {A} : Total (@index_le A).
Proof. unfold index_le. intros x y. lia. Qed.

Lemma NoDup_filter_keys {A} (P : string * A → Prop) `{∀ p, Decision (P p)} l :
  NoDup l.*1 → NoDup (filter P l).*1.
Proof.
  induction l as [|p l IH]; intros Hnd; [done|]. apply NoDup_cons in Hnd as [Hp Hnd].
  rewrite filter_cons. case_decide; [|auto]. apply NoDup_cons. split; [|auto].
  intros Hin. apply Hp. apply list_elem_of_fmap in Hin as (q & -> & Hq).
  apply list_elem_of_fmap. exists q. split; [done|]. by apply list_elem_of_filter in Hq as [_ ?].
Qed.

Lemma ownOrder_in_order {A} (l : list (string * A)) : NoDup l.*1 → in_order (ownOrder l).
Proof.
  intros Hnd. unfold ownOrder. set (idx := filter (λ p, is_Some (arrayIndex p.1)) l).
  assert (Forall (λ p, is_Some (arrayIndex p.1)) (merge_sort index_le idx)) as Hidx.
  { rewrite merge_sort_Permutation. apply Forall_forall. intros p Hp.
    by apply list_elem_of_filter in Hp as [? _]. }
  apply StronglySorted_app_2.
  - intros p q Hp Hq. rewrite Forall_forall in Hidx. apply Hidx in Hp as [a Ha].
    apply list_elem_of_filter in Hq as [Hq _]. unfold key_before. rewrite Ha.
    destruct (arrayIndex q.1); [destruct Hq; eauto|done].
  - assert (NoDup (merge_sort index_le idx).*1) as Hnd'.
    { rewrite merge_sort_Permutation. by apply NoDup_filter_keys. }
    pose proof (StronglySorted_merge_sort index_le idx) as Hs. revert Hidx Hnd' Hs.
    generalize (merge_sort index_le idx). induction l0 as [|p l0 IH]; intros Hidx Hnd' Hs;
      [constructor|].
    apply Forall_cons in Hidx as [Hp Hidx]. apply NoDup_cons in Hnd' as [Hk Hnd'].
    apply StronglySorted_inv in Hs as [Hs Hle]. constructor; [by apply IH|].
    rewrite Forall_forall in Hidx, Hle |- *. intros q Hq.
    specialize (Hidx q Hq). specialize (Hle q Hq). unfold index_le, key_before in *.
    destruct Hp as [a Ha], Hidx as [b Hb]. rewrite Ha, Hb in *. simpl in Hle.
    assert (a ≠ b); [|lia]. intros ->. apply Hk. apply list_elem_of_fmap. exists q.
    split; [|done]. apply arrayIndex_pretty in Ha, Hb. congruence.
  - clear. induction l as [|p l IH]; [constructor|]. rewrite filter_cons.
    case_decide as Hp; [|done]. constructor; [done|]. apply Forall_forall. intros q Hq.
    apply list_elem_of_filter in Hq as [Hq _]. unfold key_before.
    destruct (arrayIndex q.1); [destruct Hq; eauto|]. by destruct (arrayIndex p.1).
Qed.

Lemma in_order_ownOrder {A} (l : list (string * A)) :
  NoDup l.*1 → in_order l → ownOrder l = l.
Proof.
  intros Hnd Hl. unfold ownOrder.
  set (idx := filter (λ p, is_Some (arrayIndex p.1)) l).
  assert (merge_sort index_le idx = idx) as ->.
  { symmetry. apply (StronglySorted_unique_strong index_le).
    - intros x y Hx. rewrite merge_sort_Permutation. revert x y Hx.
      intros x y Hx Hy. apply (index_le_anti idx); [by apply NoDup_filter_keys| |done|done].
      apply Forall_forall. intros p Hp. by apply list_elem_of_filter in Hp as [? _].
    - unfold idx. clear idx Hnd. induction Hl as [|p l _ IH Hp]; [constructor|].
      rewrite filter_cons. case_decide as Hi; [|done]. constructor; [done|].
      rewrite Forall_forall in Hp |- *. intros q Hq. apply list_elem_of_filter in Hq as [Hq Hin].
      specialize (Hp q Hin). unfold key_before, index_le in *.
      destruct Hi as [a Ha], Hq as [b Hb]. rewrite Ha, Hb in *. simpl. lia.
    - apply (StronglySorted_merge_sort index_le).
    - by rewrite merge_sort_Permutation. }
  unfold idx. clear idx Hnd. induction Hl as [|p l _ IH Hp]; [done|].
  rewrite !filter_cons. destruct (decide (is_Some (arrayIndex p.1))) as [Hi|Hi].
  - rewrite decide_False by tauto. simpl. by f_equal.
  - rewrite decide_True by done.
    assert (filter (λ p, is_Some (arrayIndex p.1)) l = []) as E.
    { destruct (filter _ l) as [|q l'] eqn:E; [done|exfalso].
      assert (q ∈ filter (λ p, is_Some (arrayIndex p.1)) l) as Hq by (rewrite E; by left).
      apply list_elem_of_filter in Hq as [[b Hb] Hq]. rewrite Forall_forall in Hp.
      specialize (Hp q Hq). unfold key_before in Hp. rewrite Hb in Hp.
      destruct (arrayIndex p.1); [by destruct Hi; eauto|done]. }
    rewrite E in IH |- *. simpl in *. by f_equal.
Qed.

(** ** Properties set and deleted *)

Lemma setKey_keys {A} k (v : A) l :
  NoDup l.*1 → NoDup (setKey k v l).*1 ∧ (∀ x, x ∈ (setKey k v l).*1 ↔ x = k ∨ x ∈ l.*1).
Proof.
  induction l as [|[k' w] l IH]; intros Hnd.
  - simpl. split; [apply NoDup_singleton|]. intros x. by rewrite elem_of_cons.
  - apply NoDup_cons in Hnd as [Hk' Hnd]. destruct (IH Hnd) as [IH1 IH2]. simpl.
    case_decide as Hk; simpl.
    + subst. split; [by constructor|]. intros x. rewrite !elem_of_cons. tauto.
    + split.
      * constructor; [|done]. rewrite IH2. simpl in Hk'. tauto.
      * intros x. rewrite !elem_of_cons, IH2. tauto.
Qed.

Lemma prop_setKey {A} k (v : A) l x :
  prop x (setKey k v l) = if decide (x = k) then Some v else prop x l.
Proof.
  induction l as [|[k' w] l IH]; simpl.
  - destruct (decide (k = x)), (decide (x = k)); congruence.
  - destruct (decide (k' = k)) as [->|Hk]; simpl.
    + destruct (decide (k = x)), (decide (x = k)); congruence.
    + rewrite IH. destruct (decide (k' = x)), (decide (x = k)); congruence.
Qed.

Lemma prop_Permutation {A} k (l l' : list (string * A)) :
  NoDup l.*1 → l ≡ₚ l' → prop k l = prop k l'.
Proof.
  intros Hnd Hp. assert (NoDup l'.*1) as Hnd' by by rewrite <- Hp.
  apply option_eq. intros v. split; intros H%prop_Some; apply prop_unique; try done.
  - by rewrite <- Hp.
  - by rewrite Hp.
Qed.

Lemma assignKey_ok {A} k (v : A) l :
  NoDup l.*1 →
  NoDup (assignKey k v l).*1 ∧ ownOrder (assignKey k v l) = assignKey k v l ∧
  (∀ x, x ∈ (assignKey k v l).*1 ↔ x = k ∨ x ∈ l.*1).
Proof.
  intros Hnd. destruct (setKey_keys k v l Hnd) as [Hnd' Hin]. unfold assignKey.
  assert (NoDup (ownOrder (setKey k v l)).*1) as Hnd'' by by rewrite ownOrder_Permutation.
  split_and!; [done| |].
  - apply in_order_ownOrder; [done|by apply ownOrder_in_order].
  - intros x. by rewrite ownOrder_Permutation.
Qed.

Lemma prop_assignKey {A} k (v : A) l x :
  NoDup l.*1 → prop x (assignKey k v l) = if decide (x = k) then Some v else prop x l.
Proof.
  intros Hnd. unfold assignKey. rewrite <- prop_setKey. symmetry.
  apply prop_Permutation; [by apply setKey_keys|by rewrite ownOrder_Permutation].
Qed.

Lemma elem_of_assignKey {A} k (v : A) l p :
  NoDup l.*1 → p ∈ assignKey k v l → p = (k, v) ∨ p ∈ l.
Proof.
  intros Hnd Hp. destruct p as [x w].
  apply (prop_unique x) in Hp; [|by apply assignKey_ok].
  rewrite prop_assignKey in Hp by done. case_decide; simplify_eq; [by left|].
  right. by apply prop_Some.
Qed.

Lemma prop_deleteKey {A} k (l : list (string * A)) x :
  prop x (deleteKey k l) = if decide (x = k) then None else prop x l.
Proof.
  unfold deleteKey. induction l as [|[k' w] l IH]; [by case_decide|]. rewrite filter_cons. simpl.
  destruct (decide (k' = k)) as [->|Hk].
  - rewrite decide_False by tauto. rewrite IH.
    destruct (decide (x = k)), (decide (k = x)); congruence.
  - rewrite decide_True by done. simpl. rewrite IH.
    destruct (decide (x = k)), (decide (k' = x)); congruence.
Qed.

Lemma in_order_filter {A} (P : string * A → Prop) `{∀ p, Decision (P p)} l :
  in_order l → in_order (filter P l).
Proof.
  unfold in_order. induction 1 as [|p l _ IH Hp]; [constructor|]. rewrite filter_cons.
  case_decide; [|done]. constructor; [done|]. apply Forall_forall. intros q Hq.
  rewrite Forall_forall in Hp. apply Hp. by apply list_elem_of_filter in Hq as [_ ?].
Qed.

Lemma ownOrder_names {A} (l : list (string * A)) :
  NoDup l.*1 → Forall (λ p, arrayIndex p.1 = None) l → ownOrder l = l.
Proof.
  intros Hnd Hl. apply in_order_ownOrder; [done|]. unfold in_order. clear Hnd.
  induction Hl as [|p l Hp Hl IH]; constructor; [done|].
  eapply Forall_impl; [exact Hl|]. intros q Hq. unfold key_before. by rewrite Hp, Hq.
Qed.

(** Other values under the same keys. *)
Definition mapValues {A B} (g : A → B) (l : list (string * A)) : list (string * B) :=
  (λ '(k, v), (k, g v)) <$> l.

Lemma mapValues_keys {A B} (g : A → B) l : (mapValues g l).*1 = l.*1.
Proof. unfold mapValues. induction l as [|[] l IH]; [done|]. csimpl. by f_equal. Qed.

Lemma in_order_mapValues {A B} (g : A → B) l : in_order l → in_order (mapValues g l).
Proof.
  unfold in_order, mapValues. induction 1 as [|p l _ IH Hp]; [constructor|]. rewrite fmap_cons.
  constructor; [done|]. rewrite Forall_fmap. eapply Forall_impl; [exact Hp|].
  intros q. by destruct p, q.
Qed.

Lemma ownOrder_mapValues {A B} (g : A → B) l :
  NoDup l.*1 → ownOrder l = l → ownOrder (mapValues g l) = mapValues g l.
Proof.
  intros Hnd Hord. apply in_order_ownOrder; [by rewrite mapValues_keys|].
  apply in_order_mapValues. rewrite <- Hord. by apply ownOrder_in_order.
Qed.

(** Assigning the properties of an object in their order copies it. *)
Lemma assign_all {A B} (g : A → B) l :
  NoDup l.*1 → ownOrder l = l →
  foldl (λ data '(k, v), assignKey k (g v) data) [] l = mapValues g l.
Proof.
  intros Hnd Hord.
  assert (in_order l) as Hl by (rewrite <- Hord; by apply ownOrder_in_order).
  assert (∀ acc l, NoDup (acc ++ l).*1 → in_order (acc ++ l) →
    foldl (λ data '(k, v), assignKey k (g v) data) (mapValues g acc) l = mapValues g (acc ++ l))
    as H; [|by apply (H [] l)].
  clear l Hnd Hord Hl. intros acc l. revert acc.
  induction l as [|[k v] l IH]; intros acc Hnd Hl; simpl; [by rewrite app_nil_r|].
  replace (acc ++ (k, v) :: l) with ((acc ++ [(k, v)]) ++ l) in Hnd, Hl |- *
    by by rewrite <- app_assoc.
  rewrite <- IH by done. f_equal. rewrite fmap_app in Hnd.
  apply NoDup_app in Hnd as (Hnd & _ & _). apply StronglySorted_app in Hl as (_ & Hl & _).
  assert (mapValues g (acc ++ [(k, v)]) = mapValues g acc ++ [(k, g v)]) as E
    by (unfold mapValues; by rewrite fmap_app).
  unfold assignKey. rewrite setKey_new, <- E.
  - apply in_order_ownOrder; [by rewrite mapValues_keys|by apply in_order_mapValues].
  - rewrite mapValues_keys. rewrite fmap_app in Hnd. apply NoDup_app in Hnd as (_ & Hdis & _).
    intros Hk. apply (Hdis k Hk). simpl. by left.
Qed.

(** ** Composites in form *)

Section scene.
Context (numberText : string → string).
Local Abbreviation kept := (kept numberText).

(** The values of a block are those of entities, each once and in order, and are
    values of JSON. *)
Definition data_ok (data : list (string * Json)) : Prop :=
  NoDup data.*1 ∧ ownOrder data = data ∧
  Forall (λ p, is_Some (keyEntity p.1) ∧ kept p.2) data.

Definition composite_ok (c : SceneComposite) : Prop :=
  NoDup (cb_name <$> sc_components c) ∧ Forall (λ b, data_ok (cb_data b)) (sc_components c).

Lemma keyEntity_pretty z : 0 ≤ z → keyEntity (pretty z) = Some z.
Proof. intros Hz. unfold keyEntity. rewrite parseInt_pretty by done. simpl. by rewrite decide_True. Qed.

Lemma keyEntity_Some k z : keyEntity k = Some z → k = pretty z ∧ 0 ≤ z.
Proof.
  unfold keyEntity. destruct (parseInt k) as [n|] eqn:E; simpl; [|done].
  case_decide; intros; simplify_eq. split; [done|]. by eapply parseInt_nonneg.
Qed.

Lemma clone_data_ok data : data_ok data → map (λ '(k, v), (k, cloneJson v)) data = data.
Proof.
  intros (_ & _ & Hdata). rewrite <- (map_id data) at 2. apply map_ext_Forall.
  eapply Forall_impl; [exact Hdata|]. intros [k v] [_ Hv]. by rewrite (cloneJson_kept numberText).
Qed.

Lemma clone_ok c : composite_ok c → cloneComposite c = c.
Proof.
  intros [_ Hbs]. destruct c as [version bs]. unfold cloneComposite. simpl in *.
  unfold set. simpl. f_equal. rewrite <- (map_id bs) at 2. apply map_ext_Forall.
  eapply Forall_impl; [exact Hbs|]. intros [name data] Hdata. unfold cloneBlock, set. simpl in *.
  by rewrite clone_data_ok.
Qed.
(** *** The data of a component *)

Definition dataOf (bs : list Block) (name : string) : list (string * Json) :=
  match List.find (λ b, String.eqb (cb_name b) name) bs with
  | Some b => cb_data b
  | None => []
  end.

Lemma getComponentValue_data c e n :
  getComponentValue c e n = default JUndefined (prop (pretty e) (dataOf (sc_components c) n)).
Proof.
  unfold getComponentValue, getComponentBlock, dataOf. by destruct (List.find _ _).
Qed.

Lemma dataOf_cons b bs n :
  dataOf (b :: bs) n = if decide (cb_name b = n) then cb_data b else dataOf bs n.
Proof.
  unfold dataOf. simpl. destruct (String.eqb_spec (cb_name b) n); case_decide; congruence.
Qed.

Lemma dataOf_ok bs n : Forall (λ b, data_ok (cb_data b)) bs → data_ok (dataOf bs n).
Proof.
  induction 1 as [|b bs Hb _ IH].
  - split_and!; [constructor|done|constructor].
  - rewrite dataOf_cons. by case_decide.
Qed.

Lemma dataOf_update name f bs n :
  dataOf (updateBlock name f bs) n =
  if decide (n = name) then f (dataOf bs name) else dataOf bs n.
Proof.
  induction bs as [|b bs IH]; simpl.
  - rewrite dataOf_cons. simpl. by destruct (decide (name = n)), (decide (n = name)); try congruence.
  - destruct (String.eqb_spec (cb_name b) name) as [Hb|Hb]; rewrite !dataOf_cons; simpl.
    + destruct (decide (cb_name b = n)), (decide (n = name)), (decide (cb_name b = name));
        congruence.
    + rewrite IH. destruct (decide (cb_name b = n)), (decide (n = name)),
        (decide (cb_name b = name)); congruence.
Qed.

Lemma updateBlock_ok name f bs :
  (∀ data, data_ok data → data_ok (f data)) →
  NoDup (cb_name <$> bs) → Forall (λ b, data_ok (cb_data b)) bs →
  NoDup (cb_name <$> updateBlock name f bs) ∧
  (∀ n, n ∈ cb_name <$> updateBlock name f bs ↔ n = name ∨ n ∈ cb_name <$> bs) ∧
  Forall (λ b, data_ok (cb_data b)) (updateBlock name f bs).
Proof.
  intros Hf Hnd Hbs. induction bs as [|b bs IH]; simpl.
  - split_and!; [apply NoDup_singleton| |constructor; [|constructor]].
    + intros n. csimpl. by rewrite elem_of_cons.
    + apply Hf. split_and!; [constructor|done|constructor].
  - apply NoDup_cons in Hnd as [Hb Hnd]. apply Forall_cons in Hbs as [Hdata Hbs].
    destruct (String.eqb_spec (cb_name b) name) as [<-|Hne].
    + split_and!; csimpl.
      * by constructor.
      * intros n. rewrite !elem_of_cons. tauto.
      * constructor; [by apply Hf|done].
    + destruct (IH Hnd Hbs) as (IH1 & IH2 & IH3). csimpl. split_and!.
      * constructor; [|done]. rewrite IH2. tauto.
      * intros n. rewrite !elem_of_cons, IH2. tauto.
      * by constructor.
Qed.

Lemma data_ok_assign e v data :
  0 ≤ e → kept v → data_ok data → data_ok (assignKey (pretty e) v data).
Proof.
  intros He Hv (Hnd & Hord & Hdata). destruct (assignKey_ok (pretty e) v data Hnd) as (? & ? & _).
  split_and!; [done..|]. apply Forall_forall. intros p Hp.
  apply elem_of_assignKey in Hp as [->|Hp]; [|by rewrite Forall_forall in Hdata; apply Hdata|done].
  simpl. rewrite keyEntity_pretty by done. eauto.
Qed.

Lemma data_ok_filter (P : string * Json → Prop) `{∀ p, Decision (P p)} data :
  data_ok data → data_ok (filter P data).
Proof.
  intros (Hnd & Hord & Hdata). split_and!.
  - by apply NoDup_filter_keys.
  - apply in_order_ownOrder; [by apply NoDup_filter_keys|]. apply in_order_filter.
    rewrite <- Hord. by apply ownOrder_in_order.
  - apply Forall_forall. intros p Hp. apply list_elem_of_filter in Hp as [_ Hp].
    rewrite Forall_forall in Hdata. auto.
Qed.

(** *** Setting and removing components *)

Lemma set_ok c e n v :
  composite_ok c → 0 ≤ e → kept v → composite_ok (setComponentValue c e n v).
Proof.
  intros Hc He Hv. unfold setComponentValue. rewrite clone_ok by done.
  destruct Hc as [Hnd Hbs]. split; simpl;
    by destruct (updateBlock_ok n (assignKey (pretty e) v) (sc_components c)
      (λ data, data_ok_assign e v data He Hv) Hnd Hbs) as (? & _ & ?).
Qed.

Lemma set_get c e n v e' n' :
  composite_ok c →
  getComponentValue (setComponentValue c e n v) e' n' =
  if decide (e' = e ∧ n' = n) then v else getComponentValue c e' n'.
Proof.
  intros Hc. rewrite !getComponentValue_data. unfold setComponentValue.
  rewrite clone_ok by done. simpl. rewrite dataOf_update.
  destruct (decide (n' = n)) as [->|Hn].
  - rewrite prop_assignKey by apply dataOf_ok, Hc.
    destruct (decide (pretty e' = pretty e)) as [E%(inj pretty)|E].
    + by rewrite decide_True.
    + by rewrite decide_False by naive_solver.
  - by rewrite decide_False by tauto.
Qed.

Lemma removeFrom_spec name key bs n :
  NoDup (cb_name <$> bs) →
  dataOf (removeFrom name key bs) n =
  if decide (n = name) then deleteKey key (dataOf bs name) else dataOf bs n.
Proof.
  induction bs as [|b bs IH]; simpl; intros Hnd; [by case_decide|].
  apply NoDup_cons in Hnd as [Hb Hnd].
  assert (∀ m, m ∉ cb_name <$> bs → dataOf bs m = []) as Hnone.
  { clear. intros m Hm. induction bs as [|b bs IH]; [done|]. csimpl in Hm.
    rewrite not_elem_of_cons in Hm. rewrite dataOf_cons, decide_False by naive_solver.
    apply IH. tauto. }
  destruct (String.eqb_spec (cb_name b) name) as [<-|Hne].
  - rewrite !dataOf_cons. rewrite (decide_True (P := cb_name b = cb_name b)) by done.
    destruct (Nat.eqb_spec (length (deleteKey key (cb_data b))) 0) as [H0|H0].
    + apply length_zero_iff_nil in H0. rewrite H0.
      destruct (decide (n = cb_name b)) as [->|Hn]; [by apply Hnone|].
      by rewrite decide_False by congruence.
    + rewrite dataOf_cons. simpl.
      destruct (decide (cb_name b = n)), (decide (n = cb_name b)); congruence.
  - rewrite !dataOf_cons, IH by done.
    destruct (decide (cb_name b = n)), (decide (n = name)), (decide (cb_name b = name));
      congruence.
Qed.

Lemma removeFrom_ok name key bs :
  NoDup (cb_name <$> bs) → Forall (λ b, data_ok (cb_data b)) bs →
  NoDup (cb_name <$> removeFrom name key bs) ∧
  (∀ n, n ∈ cb_name <$> removeFrom name key bs → n ∈ cb_name <$> bs) ∧
  Forall (λ b, data_ok (cb_data b)) (removeFrom name key bs).
Proof.
  intros Hnd Hbs. induction bs as [|b bs IH]; simpl; [done|].
  apply NoDup_cons in Hnd as [Hb Hnd]. apply Forall_cons in Hbs as [Hdata Hbs].
  destruct (String.eqb_spec (cb_name b) name) as [<-|Hne].
  - case_match; csimpl.
    + split_and!; [done| |done]. intros n. rewrite elem_of_cons. auto.
    + split_and!; [by constructor|done|]. constructor; [by apply data_ok_filter|done].
  - destruct (IH Hnd Hbs) as (IH1 & IH2 & IH3). csimpl. split_and!.
    + constructor; [|done]. naive_solver.
    + intros n. rewrite !elem_of_cons. naive_solver.
    + by constructor.
Qed.

Lemma remove_ok c e n : composite_ok c → composite_ok (removeComponentValue c e n).
Proof.
  intros Hc. unfold removeComponentValue. rewrite clone_ok by done. destruct Hc as [Hnd Hbs].
  by destruct (removeFrom_ok n (pretty e) _ Hnd Hbs) as (? & _ & ?).
Qed.

Lemma remove_get c e n e' n' :
  composite_ok c →
  getComponentValue (removeComponentValue c e n) e' n' =
  if decide (e' = e ∧ n' = n) then JUndefined else getComponentValue c e' n'.
Proof.
  intros Hc. rewrite !getComponentValue_data. unfold removeComponentValue.
  rewrite clone_ok by done. simpl. rewrite removeFrom_spec by apply Hc.
  destruct (decide (n' = n)) as [->|Hn].
  - rewrite prop_deleteKey. destruct (decide (pretty e' = pretty e)) as [E%(inj pretty)|E].
    + by rewrite decide_True.
    + by rewrite decide_False by naive_solver.
  - by rewrite decide_False by tauto.
Qed.

Lemma component_kept c e n :
  composite_ok c → getComponentValue c e n ≠ JUndefined → kept (getComponentValue c e n).
Proof.
  intros [_ Hbs]. rewrite getComponentValue_data.
  destruct (dataOf_ok _ n Hbs) as (_ & _ & Hd). rewrite Forall_forall in Hd.
  destruct (prop (pretty e) _) as [v|] eqn:E; [|done]. intros _.
  by apply prop_Some, Hd in E as [_ ?].
Qed.

(** *** Entities *)

Lemma elem_of_listEntities c e :
  composite_ok c →
  e ∈ listEntities c ↔ 0 ≤ e ∧ ∃ n, getComponentValue c e n ≠ JUndefined.
Proof.
  intros [Hnd Hbs]. unfold listEntities. rewrite merge_sort_Permutation, elem_of_remove_dups.
  rewrite list_elem_of_bind. split.
  - intros (b & Hin & Hb). apply list_elem_of_omap in Hin as (k & Hk & Hke).
    apply keyEntity_Some in Hke as [-> He]. split; [done|]. exists (cb_name b).
    rewrite getComponentValue_data.
    replace (dataOf (sc_components c) (cb_name b)) with (cb_data b).
    + apply prop_is_Some in Hk as [v Hv]. rewrite Hv. simpl.
      rewrite Forall_forall in Hbs. destruct (Hbs b Hb) as (_ & _ & Hdata).
      rewrite Forall_forall in Hdata. apply prop_Some, Hdata in Hv as [_ Hv].
      by eapply kept_defined.
    + clear Hk Hbs. induction (sc_components c) as [|b' bs IH]; [set_solver|].
      apply NoDup_cons in Hnd as [Hb' Hnd]. rewrite dataOf_cons.
      apply elem_of_cons in Hb as [->|Hb]; [by rewrite decide_True|].
      rewrite decide_False; [auto|]. intros E. apply Hb'. rewrite E.
      apply list_elem_of_fmap. eauto.
  - intros [He [n Hn]]. rewrite getComponentValue_data in Hn.
    destruct (prop (pretty e) (dataOf (sc_components c) n)) as [v|] eqn:E; [|done].
    unfold dataOf in E. destruct (List.find _ _) as [b|] eqn:Eb; [|done].
    apply List.find_some in Eb as [Hb _]. exists b. split; [|by apply list_elem_of_In].
    apply list_elem_of_omap. exists (pretty e). rewrite keyEntity_pretty by done.
    split; [|done]. apply prop_is_Some. eauto.
Qed.

Lemma listEntities_sorted c : StronglySorted Z.le (listEntities c) ∧ NoDup (listEntities c).
Proof.
  unfold listEntities. split; [apply (StronglySorted_merge_sort Z.le)|].
  rewrite merge_sort_Permutation. apply NoDup_remove_dups.
Qed.

Lemma nextEntityId_fresh c :
  (nextEntityId c ∉ listEntities c) ∧ (FIRST_AUTHORED_ENTITY ≤ nextEntityId c).
Proof.
  unfold nextEntityId.
  set (step := (λ max id : Z, if decide (id > max) then id else max)).
  assert (∀ l m, m ≤ foldl step m l ∧ ∀ x, x ∈ l → x ≤ foldl step m l) as H.
  { induction l as [|y l IH]; intros m; simpl; [split; [lia|set_solver]|].
    destruct (IH (step m y)) as [H1 H2].
    assert (m ≤ step m y ∧ y ≤ step m y) by (unfold step; case_decide; lia).
    split; [lia|]. intros x [->|Hx]%elem_of_cons; [lia|auto]. }
  destruct (H (listEntities c) (FIRST_AUTHORED_ENTITY - 1)) as [H1 H2].
  split; [|unfold FIRST_AUTHORED_ENTITY in *; lia]. intros Hin. specialize (H2 _ Hin). lia.
Qed.
(** ** Reading back *)

Lemma parseBlock_json b :
  data_ok (cb_data b) →
  parseBlock (JObject [("name", JString (cb_name b));
    ("data", JObject (foldl (λ data '(id, v), assignKey id (JObject [("json", v)]) data) []
                        (cb_data b)))]) = Some b.
Proof.
  intros (Hnd & Hord & _). destruct b as [name data]. simpl in *. do 2 f_equal.
  rewrite (assign_all (λ v, JObject [("json", v)])) by done.
  rewrite (assign_all envelope); [|by rewrite mapValues_keys|by apply ownOrder_mapValues].
  unfold mapValues. clear. induction data as [|[k v] data IH]; [done|]. csimpl. by f_equal.
Qed.

Lemma kept_names l :
  NoDup l.*1 → Forall (λ k, arrayIndex k = None) l.*1 → Forall (λ p, kept p.2) l →
  kept (JObject l).
Proof.
  intros Hnd Hn Hl. apply kept_object; [done| |done]. apply ownOrder_names; [done|].
  by rewrite Forall_fmap in Hn.
Qed.

Lemma kept_pair k v : kept v → ownOrder [(k, v)] = [(k, v)] → kept (JObject [(k, v)]).
Proof.
  intros Hv Hk. apply kept_object; [apply NoDup_singleton|done|].
  by apply Forall_cons_2; [|constructor].
Qed.

Lemma compositeJson_kept c :
  leaf_ok numberText (JNumber (sc_version c)) →
  Forall (λ b, data_ok (cb_data b)) (sc_components c) → kept (compositeJson c).
Proof.
  intros Hv Hbs. apply kept_names; [decided|by repeat constructor|].
  apply Forall_cons_2; [by apply kept_leaf|]. apply Forall_cons_2; [|constructor].
  apply kept_array. apply Forall_map. eapply Forall_impl; [exact Hbs|].
  intros [name data] (Hnd & Hord & Hdata). simpl in *.
  apply kept_names; [decided|by repeat constructor|].
  apply Forall_cons_2; [by apply kept_leaf|]. apply Forall_cons_2; [|constructor]. simpl.
  rewrite (assign_all (λ v, JObject [("json", v)])) by done.
  apply kept_object; [by rewrite mapValues_keys|by apply ownOrder_mapValues|].
  apply Forall_fmap. eapply Forall_impl; [exact Hdata|]. intros [k v] [_ Hkv]. simpl in *.
  by apply kept_pair.
Qed.

(** C22.  A scene file is read back as the composite that was written: every
    component of every entity, in order. *)
Theorem serializeSceneComposite_roundtrip c :
  leaf_ok numberText (JNumber (sc_version c)) → composite_ok c →
  parseComposite <$> JSON_parse_text numberText (serializeSceneComposite c) = Some c.
Proof.
  intros Hv [_ Hbs]. unfold serializeSceneComposite.
  rewrite JSON_parse_stringify by by apply compositeJson_kept. simpl. f_equal.
  destruct c as [version bs]. simpl in *. f_equal. clear Hv.
  induction Hbs as [|b bs Hb _ IH]; [done|]. simpl map.
  change (omap parseBlock (?x :: ?l)) with
    (match parseBlock x with Some y => y :: omap parseBlock l | None => omap parseBlock l end).
  by rewrite parseBlock_json, IH.
Qed.
(** ** Descendants *)

(** [x] is a child of [p]. *)
Definition child (c : SceneComposite) (p x : Z) : Prop := x ∈ childrenOf c p.

Lemma child_iff c p x :
  child c p x ↔ x ∈ listEntities c ∧ x ≠ p ∧ parentOf c x = pretty p.
Proof. unfold child, childrenOf. rewrite list_elem_of_filter. tauto. Qed.

(** Entities whose parent has not been expanded. *)
Definition waitingChildren (c : SceneComposite) (seen : list Z) : list Z :=
  filter (λ x, parentOf c x ∉ (pretty <$> seen : list string)) (listEntities c).

Lemma waitingChildren_cons c id seen :
  id ∉ seen →
  (length (waitingChildren c (id :: seen)) + length (childrenOf c id) ≤
   length (waitingChildren c seen))%nat.
Proof.
  intros Hid. unfold waitingChildren, childrenOf.
  rewrite fmap_cons. induction (listEntities c) as [|x l IH]; [done|]. rewrite !filter_cons.
  destruct (decide (parentOf c x = pretty id)) as [E|E].
  - rewrite (decide_False (P := parentOf c x ∉ _ :: _)) by (rewrite E; intros H; apply H; by left).
    rewrite (decide_True (P := parentOf c x ∉ _)).
    + case_decide; simpl; lia.
    + rewrite E. intros Hin%list_elem_of_fmap. destruct Hin as (y & Hy%(inj pretty) & Hin).
      by subst.
  - rewrite (decide_False (P := x ≠ id ∧ _)) by tauto.
    destruct (decide (parentOf c x ∉ pretty <$> seen)) as [Hn|Hn].
    + rewrite decide_True; [simpl; lia|]. by rewrite not_elem_of_cons.
    + rewrite decide_False; [lia|]. rewrite not_elem_of_cons. tauto.
Qed.

Lemma descend_spec fuel c stack seen out :
  NoDup out → (∀ x, x ∈ out ↔ x ∈ seen) →
  (∀ x y, x ∈ seen → child c x y → y ∈ seen ∨ y ∈ stack) →
  (length stack + length (waitingChildren c seen) ≤ fuel)%nat →
  ∃ res, descend fuel c stack seen out = Some res ∧ NoDup res ∧
    (∀ x, x ∈ seen ∨ x ∈ stack → x ∈ res) ∧
    (∀ x y, x ∈ res → child c x y → y ∈ res) ∧
    (∀ x, x ∈ res → x ∈ seen ∨ ∃ s, s ∈ stack ∧ rtc (child c) s x).
Proof.
  revert stack seen out. induction fuel as [|fuel IH]; intros stack seen out Hnd Hout Hclosed Hf.
  - destruct stack as [|id stack]; [|simpl in Hf; lia]. exists out.
    split_and!; [done|done| | |]; setoid_rewrite Hout; set_solver.
  - destruct stack as [|id stack].
    { exists out. split_and!; [done|done| | |]; setoid_rewrite Hout; set_solver. }
    simpl. case_decide as Hid.
    + destruct (IH stack seen out) as (res & Hres & Hnd' & Hin & Hcl & Hsound);
        [done|done|set_solver|simpl in Hf; lia|].
      exists res. split_and!; [done|done| |done|].
      * intros x. rewrite elem_of_cons. naive_solver.
      * intros x Hx. destruct (Hsound x Hx) as [|(s & ? & ?)]; [by left|right].
        exists s. split; [by right|done].
    + destruct (IH (reverse (childrenOf c id) ++ stack) (id :: seen) (out ++ [id]))
        as (res & Hres & Hnd' & Hin & Hcl & Hsound).
      * apply NoDup_app. split_and!; [done| |apply NoDup_singleton].
        intros x Hx Hx'%list_elem_of_singleton. subst. by apply Hout in Hx.
      * intros x. rewrite elem_of_app, Hout, list_elem_of_singleton, elem_of_cons. tauto.
      * intros x y. rewrite elem_of_cons. intros [->|Hx] Hxy.
        -- right. apply elem_of_app. left. by apply elem_of_reverse.
        -- destruct (Hclosed x y Hx Hxy) as [|[->|]%elem_of_cons]; [left; by right|left; by left|].
           right. apply elem_of_app. by right.
      * pose proof (waitingChildren_cons c id seen Hid). simpl in Hf.
        rewrite length_app, length_reverse. lia.
      * exists res. split_and!; [done|done| |done|].
        -- intros x [Hx|[->|Hx]%elem_of_cons]; apply Hin; [left; by right|left; by left|].
           right. apply elem_of_app. by right.
        -- intros x Hx. destruct (Hsound x Hx) as [[->|]%elem_of_cons|(s & Hs & Hsx)];
             [right; exists id; split; [by left|done]|by left|].
           right. apply elem_of_app in Hs as [Hs|Hs]; [|exists s; split; [by right|done]].
           exists id. split; [by left|]. rewrite elem_of_reverse in Hs.
           by eapply rtc_l.
Qed.

Lemma descendantsOf_spec c e :
  ∃ res, descend (S (length (listEntities c))) c [e] [] [] = Some res ∧
    descendantsOf c e = res ∧ NoDup res ∧ ∀ x, x ∈ res ↔ rtc (child c) e x.
Proof.
  destruct (descend_spec (S (length (listEntities c))) c [e] [] []) as
    (res & Hres & Hnd & Hin & Hcl & Hsound).
  - constructor.
  - done.
  - set_solver.
  - simpl. unfold waitingChildren. pose proof (length_filter (λ x, parentOf c x ∉ (pretty <$> ([] : list Z) : list string))
      (listEntities c)). lia.
  - exists res. split_and!; [done|unfold descendantsOf; by rewrite Hres|done|].
    intros x. split.
    + intros Hx. destruct (Hsound x Hx) as [?|(s & Hs & ?)]; [set_solver|].
      by apply list_elem_of_singleton in Hs as ->.
    + revert x. apply rtc_ind_r; [apply Hin; right; by left|].
      intros y z _ Hyz Hy. by eapply Hcl.
Qed.

Lemma elem_of_descendantsOf c e x : x ∈ descendantsOf c e ↔ rtc (child c) e x.
Proof. destruct (descendantsOf_spec c e) as (res & _ & -> & _ & H). apply H. Qed.
(** ** Deleting *)

Definition deleteKeys (targets : list Z) (data : list (string * Json)) : list (string * Json) :=
  foldl (λ data id, deleteKey (pretty id) data) data targets.

Lemma prop_deleteKeys targets data x :
  prop (pretty x) (deleteKeys targets data) =
  if decide (x ∈ targets) then None else prop (pretty x) data.
Proof.
  unfold deleteKeys. revert data. induction targets as [|t targets IH]; intros data; simpl; [done|].
  rewrite IH, prop_deleteKey.
  destruct (decide (x ∈ targets)) as [Hx|Hx], (decide (x ∈ t :: targets)) as [Hx'|Hx'];
    rewrite elem_of_cons in Hx'; try done; [tauto| |].
  - rewrite decide_True; [done|]. f_equal. tauto.
  - rewrite decide_False; [done|]. intros E%(inj pretty). tauto.
Qed.

Lemma deleteKeys_ok targets data : data_ok data → data_ok (deleteKeys targets data).
Proof.
  unfold deleteKeys. revert data. induction targets as [|t targets IH]; intros data Hd; [done|].
  apply IH. by apply data_ok_filter.
Qed.

Definition deleteIn (targets : list Z) (bs : list Block) : list Block :=
  filter (λ b, (0 < length (cb_data b))%nat)
    (map (λ b, b <| cb_data ::= deleteKeys targets |>) bs).

Lemma deleteIn_spec targets bs :
  NoDup (cb_name <$> bs) → Forall (λ b, data_ok (cb_data b)) bs →
  (NoDup (cb_name <$> deleteIn targets bs) ∧ Forall (λ b, data_ok (cb_data b)) (deleteIn targets bs)) ∧
  (∀ n, n ∈ cb_name <$> deleteIn targets bs → n ∈ cb_name <$> bs) ∧
  ∀ n, dataOf (deleteIn targets bs) n = deleteKeys targets (dataOf bs n).
Proof.
  intros Hnd Hbs. assert (∀ targets, deleteKeys targets [] = []) as Hnil.
  { clear. induction targets as [|t targets IH]; [done|]. apply IH. }
  induction bs as [|b bs IH].
  { split_and!; [constructor|constructor|done|]. intros n. symmetry. apply Hnil. }
  apply NoDup_cons in Hnd as [Hb Hnd]. apply Forall_cons in Hbs as [Hdata Hbs].
  destruct (IH Hnd Hbs) as ((IH1 & IH2) & IH3 & IH4).
  unfold deleteIn in *. simpl map. rewrite filter_cons. cbn [cb_data].
  assert (∀ n, cb_name b = n → dataOf bs n = []) as Hnone.
  { intros n <-. clear -Hb. induction bs as [|b' bs IH]; [done|]. csimpl in Hb.
    rewrite not_elem_of_cons in Hb. rewrite dataOf_cons, decide_False by naive_solver.
    apply IH. tauto. }
  case_decide as Hlen; csimpl.
  - split_and!.
    + constructor; [|done]. intros Hin. by apply Hb, IH3.
    + constructor; [|done]. by apply deleteKeys_ok.
    + intros n. rewrite !elem_of_cons. naive_solver.
    + intros n. rewrite !dataOf_cons. simpl. case_decide; [done|apply IH4].
  - split_and!; [done..| |].
    + intros n Hn. rewrite elem_of_cons. auto.
    + intros n. rewrite IH4, dataOf_cons. case_decide as Hn; [|done].
      rewrite (Hnone n Hn), Hnil. symmetry. apply length_zero_iff_nil.
      unfold set in Hlen. simpl in Hlen. lia.
Qed.

(** The entities a deletion removes. *)
Definition deleted (c : SceneComposite) (e : Z) (recursive : bool) (x : Z) : Prop :=
  e ≠ ROOT_ENTITY ∧ x ≠ ROOT_ENTITY ∧ if recursive then rtc (child c) e x else x = e.

Lemma delete_targets c (e : Z) (recursive : bool) (x : Z) :
  e ≠ ROOT_ENTITY →
  x ∈ (filter (.≠ ROOT_ENTITY) (if recursive then descendantsOf c e else [e]) : list Z) ↔
  deleted c e recursive x.
Proof.
  intros He. unfold deleted. rewrite list_elem_of_filter. destruct recursive.
  - rewrite elem_of_descendantsOf. tauto.
  - rewrite list_elem_of_singleton. tauto.
Qed.

Lemma delete_ok c e recursive : composite_ok c → composite_ok (deleteEntity c e recursive).
Proof.
  intros Hc. unfold deleteEntity. rewrite clone_ok by done. case_decide; [done|].
  destruct Hc as [Hnd Hbs]. apply (deleteIn_spec _ _ Hnd Hbs).
Qed.

Lemma delete_get c e recursive x n :
  composite_ok c →
  (deleted c e recursive x → getComponentValue (deleteEntity c e recursive) x n = JUndefined) ∧
  (¬ deleted c e recursive x →
     getComponentValue (deleteEntity c e recursive) x n = getComponentValue c x n).
Proof.
  intros Hc. unfold deleteEntity. rewrite clone_ok by done.
  destruct (decide (e = ROOT_ENTITY)) as [He|He]; [by split; [intros [? _]|]|].
  set (targets := filter _ _).
  assert (getComponentValue (c <| sc_components ::= deleteIn targets |>) x n =
    if decide (x ∈ targets) then JUndefined else getComponentValue c x n) as E.
  { rewrite !getComponentValue_data. simpl. destruct Hc as [Hnd Hbs].
    rewrite (proj2 (proj2 (deleteIn_spec targets _ Hnd Hbs))), prop_deleteKeys. by case_decide. }
  change (getComponentValue (c <| sc_components ::= λ bs, _ |>) x n) with
    (getComponentValue (c <| sc_components ::= deleteIn targets |>) x n).
  rewrite E. unfold targets. rewrite <- (delete_targets c e recursive) by done. split; intros Ht; [by rewrite decide_True|by rewrite decide_False].
Qed.
End scene.
