(* ===== verification/SceneTree.v ===== *)
(** * The entities of a scene form a tree

    Edits keep the entities of a scene in a tree under the root exactly as long as
    none is put below itself or deleted without what is below it; what deleting an
    entity removes is the part of the tree below it. *)

From stdpp Require Import relations.
From S2P Require Import Prelude JsString SyncEngine SyncProofs JsonParse JsonProofs DebugDiff.
From S2P Require Import DebugDiffProofs SceneComposite SceneProofs.
Open Scope string_scope.
Open Scope list_scope.
Open Scope Z_scope.

Section tree.
Context (numberText : string → string).
Local Abbreviation kept := (kept numberText).
Local Abbreviation composite_ok := (composite_ok numberText).
(** Some chain of parents leads from the entity to the root. *)
Definition rooted (c : SceneComposite) (x : Z) : Prop := rtc (child c) ROOT_ENTITY x.

Definition tree (c : SceneComposite) : Prop :=
  parentOf c ROOT_ENTITY = pretty ROOT_ENTITY ∧ ∀ x, x ∈ listEntities c → rooted c x.

(** What entities and parents are depends on the values of the components only. *)
Lemma listEntities_ext c c' (P : Z → Prop) :
  composite_ok c → composite_ok c' →
  (∀ x, P x → ∀ n, getComponentValue c' x n = getComponentValue c x n) →
  ∀ x, P x → x ∈ listEntities c' ↔ x ∈ listEntities c.
Proof.
  intros Hc Hc' HP x Hx. rewrite !elem_of_listEntities by done.
  setoid_rewrite (HP x Hx). done.
Qed.

Lemma child_ext c c' p x :
  composite_ok c → composite_ok c' →
  (∀ n, getComponentValue c' x n = getComponentValue c x n) → child c' p x ↔ child c p x.
Proof.
  intros Hc Hc' Hx. rewrite !child_iff. rewrite (listEntities_ext c c' (λ y, y = x)); [|done..| |done].
  - unfold parentOf. by rewrite Hx.
  - by intros ? ->.
Qed.

Lemma child_unique c p q x : child c p x → child c q x → p = q.
Proof. rewrite !child_iff. intros (_ & _ & Hp) (_ & _ & Hq). apply (inj pretty). congruence. Qed.

Lemma child_root c p : tree c → ¬ child c p ROOT_ENTITY.
Proof.
  intros [Hroot _] (_ & Hne & Hp)%child_iff. rewrite Hroot in Hp. by apply (inj pretty) in Hp.
Qed.

(** Rootedness by the chain of parents. *)
Lemma rooted_ind_chain c (P : Z → Prop) :
  P ROOT_ENTITY → (∀ p x, rooted c p → child c p x → P p → P x) → ∀ x, rooted c x → P x.
Proof. intros H0 Hstep. apply rtc_ind_r; [done|]. eauto. Qed.

Lemma rooted_child c p x : rooted c p → child c p x → rooted c x.
Proof. apply rtc_r. Qed.

Lemma rooted_parent c x :
  tree c → rooted c x → x ≠ ROOT_ENTITY → ∃ p, rooted c p ∧ child c p x.
Proof.
  intros _ Hx. revert x Hx. apply (rooted_ind_chain c (λ x, x ≠ ROOT_ENTITY → _)); [done|]. eauto.
Qed.

Lemma tc_last {A} (R : relation A) x z : tc R x z → ∃ y, rtc R x y ∧ R y z.
Proof.
  revert z. apply tc_ind_r.
  - eauto using rtc_refl.
  - intros y z Hxy Hyz _. eauto using tc_rtc.
Qed.

(** No entity is below itself. *)
Lemma tree_acyclic c : tree c → ∀ x, rooted c x → ¬ tc (child c) x x.
Proof.
  intros Hc. apply rooted_ind_chain.
  - intros Hcyc. apply tc_last in Hcyc as (q & _ & Hq). by apply child_root in Hq.
  - intros p x _ Hpx IH Hcyc. apply IH. apply tc_last in Hcyc as (q & Hxq & Hqx).
    rewrite (child_unique _ _ _ _ Hqx Hpx) in Hxq. eapply tc_rtc_r; [by apply tc_once|done].
Qed.

(** What hangs from an entity that is not there and is not the root. *)
Lemma fresh_below c e x :
  tree c → e ∉ listEntities c → e ≠ ROOT_ENTITY → rtc (child c) e x → x = e.
Proof.
  intros Hc He Hne Hx. inversion Hx as [|? y ? Hey Hyx]; [done|]. subst. exfalso.
  apply He. pose proof Hey as Hy. apply child_iff in Hy as (Hin & _ & _).
  assert (y ≠ ROOT_ENTITY) as Hy by (intros ->; by apply (child_root c e)).
  destruct (rooted_parent c y Hc (proj2 Hc y Hin) Hy) as (p & Hp & Hpy).
  rewrite (child_unique _ _ _ _ Hpy Hey) in Hp.
  destruct (rooted_parent c e Hc Hp Hne) as (q & _ & Hq). by apply child_iff in Hq as (? & _).
Qed.

(** ** What keeps the tree *)

(** Only one entity changes, and it hangs from one that is not below it. *)
Lemma tree_graft c c' e p :
  composite_ok c → composite_ok c' → tree c →
  (∀ x n, x ≠ e → getComponentValue c' x n = getComponentValue c x n) →
  e ≠ ROOT_ENTITY → e ∈ listEntities c' → parentOf c' e = pretty p →
  rooted c p → ¬ rtc (child c) e p → tree c'.
Proof.
  intros Hc Hc' Ht Hsame He Hin Hpar Hp Hbelow.
  assert (∀ q x, x ≠ e → child c q x → child c' q x) as Hkeep.
  { intros q x Hx. apply (child_ext c c'); auto. }
  assert (∀ y, rooted c y → ¬ rtc (child c) e y → rooted c' y) as Hout.
  { apply (rooted_ind_chain c (λ y, ¬ rtc (child c) e y → rooted c' y)); [constructor|].
    intros q x Hq Hqx IH Hx. apply (rooted_child _ q).
    - apply IH. intros Heq. apply Hx. by eapply rtc_r.
    - apply Hkeep; [|done]. intros ->. by apply Hx. }
  assert (rooted c' e) as He'.
  { apply (rooted_child _ p); [by apply Hout|]. apply child_iff. split_and!; [done| |done].
    intros ->. by apply Hbelow. }
  assert (∀ y, rooted c y → rooted c' y) as Hall.
  { apply rooted_ind_chain; [constructor|]. intros q x _ Hqx Hq.
    destruct (decide (x = e)) as [->|Hx]; [done|]. eapply rooted_child; eauto. }
  split; [unfold parentOf; rewrite Hsame by done; apply Ht|]. intros x Hx.
  destruct (decide (x = e)) as [->|Hne]; [done|]. apply Hall, Ht.
  by apply (listEntities_ext c c' (λ x, x ≠ e)); auto.
Qed.

Lemma parentOf_absent c x :
  composite_ok c → 0 ≤ x → x ∉ listEntities c → parentOf c x = pretty ROOT_ENTITY.
Proof.
  intros Hc Hx Hin. unfold parentOf.
  destruct (getComponentValue c x TRANSFORM) eqn:E; try done.
  exfalso. apply Hin, (elem_of_listEntities numberText); [done|]. split; [done|]. exists TRANSFORM. by rewrite E.
Qed.

(** Transforms stay, and no entity goes. *)
Lemma tree_same c c' :
  composite_ok c → composite_ok c' → tree c →
  (∀ x, getComponentValue c' x TRANSFORM = getComponentValue c x TRANSFORM) →
  (∀ x, x ∈ listEntities c → x ∈ listEntities c') → tree c'.
Proof.
  intros Hc Hc' [Hroot Ht] Hsame Hin.
  assert (∀ x, parentOf c' x = parentOf c x) as Hpar by (intros x; unfold parentOf; by rewrite Hsame).
  split; [by rewrite Hpar|]. intros x Hx.
  destruct (decide (x ∈ listEntities c)) as [Hxc|Hxc].
  - apply Ht in Hxc. revert Hxc. apply (rtc_congruence id). intros q y.
    rewrite !child_iff, Hpar. naive_solver.
  - destruct (decide (x = ROOT_ENTITY)) as [->|Hne]; [constructor|].
    apply rtc_once, child_iff. rewrite Hpar. split_and!; [done..|].
    apply parentOf_absent; [done| |done]. by apply (elem_of_listEntities numberText) in Hx as [? _].
Qed.

(** What is below an entity goes. *)
Lemma tree_prune c c' e :
  composite_ok c → composite_ok c' → tree c → e ≠ ROOT_ENTITY →
  (∀ x n, deleted c e true x → getComponentValue c' x n = JUndefined) →
  (∀ x n, ¬ deleted c e true x → getComponentValue c' x n = getComponentValue c x n) → tree c'.
Proof.
  intros Hc Hc' Ht He Hgone Hsame.
  assert (¬ deleted c e true ROOT_ENTITY) as Hroot by (intros (_ & Hr & _); done).
  split; [unfold parentOf; rewrite Hsame by done; apply Ht|].
  assert (∀ x, rooted c x → ¬ deleted c e true x → rooted c' x) as Hall.
  { apply (rooted_ind_chain c (λ x, ¬ deleted c e true x → rooted c' x)); [constructor|].
    intros q x Hq Hqx IH Hx. apply (rooted_child _ q).
    - apply IH. intros (_ & _ & Heq). apply Hx. split_and!; [done| |by eapply rtc_r].
      intros ->. by eapply child_root.
    - apply (child_ext c c'); auto. }
  intros x Hx. assert (¬ deleted c e true x) as Hd.
  { intros Hd. apply (elem_of_listEntities numberText) in Hx as (_ & n & Hn); [|done]. auto. }
  apply Hall; [|done]. apply Ht.
  by apply (listEntities_ext c c' (λ x, ¬ deleted c e true x)); auto.
Qed.

(** ** Values that are set *)

(** Numbers that JavaScript holds exactly print as their numerals. *)
Definition MAX_SAFE : Z := 2 ^ 53 - 1.
Context (numberText_safe : ∀ z, 0 ≤ z ≤ MAX_SAFE → numberText (pretty z) = pretty z).

Lemma kept_number z : 0 ≤ z ≤ MAX_SAFE → kept (number z).
Proof. intros Hz. apply kept_leaf. split; [apply numeral_pretty; lia|auto]. Qed.

Lemma kept_record l :
  NoDup l.*1 → Forall (λ k, arrayIndex k = None) l.*1 → Forall kept l.*2 → kept (JObject l).
Proof. intros Hnd Hk Hl. apply kept_names; [done..|]. rewrite Forall_fmap in Hl. exact Hl. Qed.

Lemma kept_identityTransform p : 0 ≤ p ≤ MAX_SAFE → kept (identityTransform p).
Proof.
  intros Hp. assert (∀ z, 0 ≤ z ≤ MAX_SAFE → kept (number z)) as Hn by apply kept_number.
  assert (kept (number 0)) by (apply Hn; done). assert (kept (number 1)) by (apply Hn; done).
  repeat (apply Forall_nil_2 || apply Forall_cons_2 || (apply kept_record; [decided|by repeat constructor|]));
    simpl; auto.
Qed.

Lemma kept_text (s : string) : kept (JObject [("value", JString s)]).
Proof. apply kept_record; [decided|by repeat constructor|]. by repeat constructor. Qed.

(** Components set on one entity, one after the other. *)
Definition setAll (c : SceneComposite) (e : Z) (l : list (string * Json)) : SceneComposite :=
  foldl (λ c '(n, v), setComponentValue c e n v) c l.

Lemma setAll_spec c e l :
  composite_ok c → 0 ≤ e → Forall (λ p, kept p.2) l →
  composite_ok (setAll c e l) ∧
  (∀ x n, x ≠ e ∨ n ∉ l.*1 → getComponentValue (setAll c e l) x n = getComponentValue c x n) ∧
  (∀ x, x ∈ listEntities c → x ∈ listEntities (setAll c e l)).
Proof.
  unfold setAll. revert c. induction l as [|[n v] l IH]; intros c Hc He Hl; [done|].
  apply Forall_cons in Hl as [Hv Hl]. simpl in *.
  assert (composite_ok (setComponentValue c e n v)) as Hc' by by apply set_ok.
  destruct (IH (setComponentValue c e n v) Hc' He Hl) as (Hok & Hget & Hin). split_and!; [done| |].
  - intros x m Hx. rewrite not_elem_of_cons in Hx. rewrite Hget by tauto.
    rewrite (set_get numberText) by done. rewrite decide_False; [done|]. naive_solver.
  - intros x Hx. apply Hin. apply (elem_of_listEntities numberText) in Hx as [H0 [m Hm]]; [|done].
    apply (elem_of_listEntities numberText); [done|]. split; [done|]. exists m.
    rewrite (set_get numberText) by done. case_decide; [|done]. by eapply kept_defined.
Qed.

Lemma set_in c e n v :
  composite_ok c → 0 ≤ e → kept v → e ∈ listEntities (setComponentValue c e n v).
Proof.
  intros Hc He Hv. apply (elem_of_listEntities numberText); [by apply set_ok|]. split; [done|].
  exists n. rewrite (set_get numberText), decide_True by done. by eapply kept_defined.
Qed.

(** ** The edits *)

(** The entity an addition makes, its parent and the components it is given. *)
Definition addedEntity (c : SceneComposite) (input : AddEntityInput) : Z :=
  default (nextEntityId c) (ae_id input).

Definition addedParent (input : AddEntityInput) : Z := default ROOT_ENTITY (ae_parent input).

Definition addedComponents (input : AddEntityInput) : list (string * Json) :=
  (if String.eqb (default "" (ae_name input)) "" then []
   else [(NAME, JObject [("value", JString (default "" (ae_name input)))])]) ++
  ae_components input.

(** The root or an entity of the scene. *)
Definition placed (c : SceneComposite) (p : Z) : Prop :=
  p = ROOT_ENTITY ∨ p ∈ listEntities c ∧ p ≤ MAX_SAFE.

(** The edits of a scene. *)
Inductive Edit :=
  | Add (input : AddEntityInput)
  | SetComponent (e : Z) (n : string) (v : Json)
  | Rename (e : Z) (name : string)
  | RemoveComponent (e : Z) (n : string)
  | Reparent (e p : Z)
  | Delete (e : Z) (recursive : bool).

Definition applyEdit (c : SceneComposite) (ed : Edit) : SceneComposite :=
  match ed with
  | Add input => (addEntity c input).1
  | SetComponent e n v => setComponentValue c e n v
  | Rename e name => renameEntity c e name
  | RemoveComponent e n => removeComponentValue c e n
  | Reparent e p => reparentEntity c e p
  | Delete e recursive => deleteEntity c e recursive
  end.

(** What an edit is given: a new entity is new, parents are there, transforms are
    changed by moves only, and an entity keeps its transform. *)
Definition proper (c : SceneComposite) (ed : Edit) : Prop :=
  match ed with
  | Add input =>
      0 < addedEntity c input ∧ (addedEntity c input ∉ listEntities c) ∧
      placed c (addedParent input) ∧
      Forall (λ '(n, v), n ≠ TRANSFORM ∧ kept v) (ae_components input)
  | SetComponent e n v => 0 ≤ e ∧ n ≠ TRANSFORM ∧ kept v
  | Rename e name => 0 ≤ e
  | RemoveComponent e n => n ≠ TRANSFORM ∧ getComponentValue c e TRANSFORM ≠ JUndefined
  | Reparent e p => 0 < e ∧ placed c p
  | Delete e recursive => True
  end.

(** An edit that puts no entity below itself, and takes none away from above others. *)
Definition safe (c : SceneComposite) (ed : Edit) : Prop :=
  match ed with
  | Reparent e p => ¬ rtc (child c) e p
  | Delete e recursive => recursive = true ∨ e = ROOT_ENTITY ∨ (∀ x, ¬ child c e x)
  | _ => True
  end.

Inductive edit (c : SceneComposite) : SceneComposite → Prop :=
  | edit_by ed : proper c ed → safe c ed → edit c (applyEdit c ed).

Lemma placed_rooted c p : tree c → placed c p → rooted c p.
Proof. intros [_ Ht] [->|[Hp _]]; [constructor|auto]. Qed.

Lemma placed_safe c p : composite_ok c → placed c p → 0 ≤ p ≤ MAX_SAFE.
Proof.
  intros Hc [->|[Hp ?]]; [done|]. by apply (elem_of_listEntities numberText) in Hp as [? _].
Qed.

Lemma addEntity_setAll c input :
  (addEntity c input).1 =
  setAll (setComponentValue c (addedEntity c input) TRANSFORM
            (identityTransform (addedParent input)))
    (addedEntity c input) (addedComponents input).
Proof.
  unfold addEntity, setAll, addedComponents. simpl. rewrite foldl_app.
  by destruct (String.eqb (default "" (ae_name input)) "").
Qed.

Lemma addedComponents_ok input :
  Forall (λ '(n, v), n ≠ TRANSFORM ∧ kept v) (ae_components input) →
  Forall (λ p, kept p.2) (addedComponents input) ∧ TRANSFORM ∉ (addedComponents input).*1.
Proof.
  intros Hl. assert (Forall (λ '(n, v), n ≠ TRANSFORM ∧ kept v) (addedComponents input)) as H.
  { unfold addedComponents. apply Forall_app. split; [|done].
    destruct (String.eqb _ _); [constructor|]. apply Forall_cons_2; [|constructor].
    split; [done|apply kept_text]. }
  split; [eapply Forall_impl; [exact H|]; by intros [n v] [_ ?]|].
  intros Hin%list_elem_of_fmap. destruct Hin as ([n v] & Hn & Hin).
  rewrite Forall_forall in H. by apply H in Hin as [[] _].
Qed.

Lemma parentOf_set c e p o :
  composite_ok c → NoDup o.*1 → prop "parent" o = Some (number p) →
  parentOf (setComponentValue c e TRANSFORM (JObject o)) e = pretty p.
Proof.
  intros Hc Ho Hp. unfold parentOf. rewrite (set_get numberText), decide_True by done.
  by rewrite Hp.
Qed.

Lemma add_ok c input :
  composite_ok c → 0 ≤ addedEntity c input → placed c (addedParent input) →
  Forall (λ '(n, v), n ≠ TRANSFORM ∧ kept v) (ae_components input) →
  composite_ok (addEntity c input).1 ∧
  (∀ x n, x ≠ addedEntity c input →
     getComponentValue (addEntity c input).1 x n = getComponentValue c x n) ∧
  addedEntity c input ∈ listEntities (addEntity c input).1 ∧
  parentOf (addEntity c input).1 (addedEntity c input) = pretty (addedParent input).
Proof.
  intros Hc He Hp Hl. rewrite addEntity_setAll. set (e := addedEntity c input) in *.
  pose proof (kept_identityTransform _ (placed_safe _ _ Hc Hp)) as Hv.
  pose proof (set_ok numberText _ e TRANSFORM _ Hc He Hv) as Hc'.
  destruct (addedComponents_ok input Hl) as [Hl1 Hl2].
  destruct (setAll_spec _ e _ Hc' He Hl1) as (Hok & Hget & Hin). split_and!; [done| | |].
  - intros x n Hx. rewrite Hget by tauto. rewrite (set_get numberText) by done.
    rewrite decide_False; [done|]. tauto.
  - apply Hin. by apply set_in.
  - transitivity (parentOf (setComponentValue c e TRANSFORM
      (identityTransform (addedParent input))) e).
    + unfold parentOf. rewrite Hget by tauto. done.
    + apply parentOf_set; [done|decided|done].
Qed.

Lemma reparent_ok c e p :
  composite_ok c → 0 ≤ e → 0 ≤ p ≤ MAX_SAFE →
  composite_ok (reparentEntity c e p) ∧
  (∀ x n, x ≠ e ∨ n ≠ TRANSFORM →
     getComponentValue (reparentEntity c e p) x n = getComponentValue c x n) ∧
  e ∈ listEntities (reparentEntity c e p) ∧ parentOf (reparentEntity c e p) e = pretty p.
Proof.
  intros Hc He Hp.
  assert (∃ o, kept (JObject o) ∧ reparentEntity c e p =
    setComponentValue c e TRANSFORM (JObject (assignKey "parent" (number p) o))) as (o & Ho & ->).
  { unfold reparentEntity. pose proof (component_kept numberText c e TRANSFORM Hc) as Hk.
    destruct (getComponentValue c e TRANSFORM) as [| | | | | |o];
      try (eexists; split; [apply (kept_identityTransform ROOT_ENTITY); done|done]).
    exists o. rewrite (cloneJson_kept numberText) by by apply Hk. split; [by apply Hk|done]. }
  apply kept_object_inv in Ho as (Hnd & _ & Ho).
  destruct (assignKey_ok "parent" (number p) o Hnd) as (Hnd' & Hord & _).
  assert (kept (JObject (assignKey "parent" (number p) o))) as Hk.
  { apply kept_object; [done..|]. apply Forall_forall. intros q Hq.
    apply elem_of_assignKey in Hq as [->|Hq]; [by apply kept_number| |done].
    rewrite Forall_forall in Ho. auto. }
  split_and!; [by apply set_ok| |by apply set_in|].
  - intros x n Hx. rewrite (set_get numberText), decide_False by (done || tauto). done.
  - apply parentOf_set; [done..|]. by rewrite prop_assignKey, decide_True.
Qed.

Lemma applyEdit_ok c ed : composite_ok c → proper c ed → composite_ok (applyEdit c ed).
Proof.
  intros Hc. destruct ed; simpl.
  - intros (He & _ & Hp & Hl). apply add_ok; [done|lia|done..].
  - intros (He & _ & Hv). by apply set_ok.
  - intros He. apply set_ok; [done..|apply kept_text].
  - intros _. by apply remove_ok.
  - intros [He Hp]. apply reparent_ok; [done|lia|by apply (placed_safe c)].
  - intros _. by apply delete_ok.
Qed.

Lemma tree_set c e n v :
  composite_ok c → tree c → 0 ≤ e → n ≠ TRANSFORM → kept v → tree (setComponentValue c e n v).
Proof.
  intros Hc Ht He Hn Hv.
  destruct (setAll_spec c e [(n, v)]) as (Hok & Hget & Hin); [done|done|by apply Forall_singleton|].
  apply (tree_same c); [done..| |exact Hin]. intros x. apply Hget. right.
  intros E%list_elem_of_singleton. by apply Hn.
Qed.

Lemma tree_remove c e n :
  composite_ok c → tree c → n ≠ TRANSFORM → getComponentValue c e TRANSFORM ≠ JUndefined →
  tree (removeComponentValue c e n).
Proof.
  intros Hc Ht Hn He. pose proof (remove_ok numberText c e n Hc) as Hc'.
  apply (tree_same c); [done..| |].
  - intros x. rewrite (remove_get numberText), decide_False by (done || naive_solver). done.
  - intros x Hx. apply (elem_of_listEntities numberText) in Hx as [H0 [m Hm]]; [|done].
    apply (elem_of_listEntities numberText); [done|]. split; [done|].
    destruct (decide (x = e)) as [->|Hxe].
    + exists TRANSFORM. rewrite (remove_get numberText), decide_False by (done || naive_solver). done.
    + exists m. rewrite (remove_get numberText), decide_False by (done || naive_solver). done.
Qed.

(** A leaf is all there is below it. *)
Lemma leaf_below c e x : (∀ y, ¬ child c e y) → rtc (child c) e x → x = e.
Proof. intros He Hx. inversion Hx as [|? y ? Hey]; [done|]. by apply He in Hey. Qed.

Lemma tree_delete c e recursive :
  composite_ok c → tree c → safe c (Delete e recursive) → tree (deleteEntity c e recursive).
Proof.
  intros Hc Ht Hr. simpl in Hr. destruct (decide (e = ROOT_ENTITY)) as [->|He].
  { unfold deleteEntity. rewrite decide_True by done. by rewrite (clone_ok numberText). }
  assert (∀ x, deleted c e recursive x ↔ deleted c e true x) as Hd.
  { intros x. unfold deleted. destruct Hr as [->|[|Hr]]; [done|done|].
    destruct recursive; [done|].
    split; intros (? & ? & Hx); (split_and!; [done..|]); [by rewrite Hx|by apply (leaf_below c)]. }
  apply (tree_prune c _ e); [done|by apply delete_ok|done..| |];
    intros x n Hx; apply (delete_get numberText); rewrite ?Hd; done.
Qed.

Lemma tree_reparent c e p :
  composite_ok c → tree c → proper c (Reparent e p) → ¬ rtc (child c) e p →
  tree (reparentEntity c e p).
Proof.
  intros Hc Ht [He Hp] Hbelow.
  destruct (reparent_ok c e p Hc) as (Hok & Hget & Hin & Hpar); [lia|by apply (placed_safe c)|].
  apply (tree_graft c _ e p); try done.
  - intros x n Hx. apply Hget. by left.
  - unfold ROOT_ENTITY. lia.
  - by apply placed_rooted.
Qed.

Lemma tree_add c input :
  composite_ok c → tree c → proper c (Add input) → tree (addEntity c input).1.
Proof.
  intros Hc Ht (He & Hnew & Hp & Hl).
  destruct (add_ok c input Hc) as (Hok & Hget & Hin & Hpar); [lia|done..|].
  apply (tree_graft c _ (addedEntity c input) (addedParent input)); try done.
  - unfold ROOT_ENTITY. lia.
  - by apply placed_rooted.
  - intros Hb. apply fresh_below in Hb; [|done..|unfold ROOT_ENTITY; lia].
    destruct Hp as [Hp|[Hp _]]; [unfold ROOT_ENTITY in Hp; lia|]. congruence.
Qed.

Lemma applyEdit_tree c ed :
  composite_ok c → tree c → proper c ed → safe c ed → tree (applyEdit c ed).
Proof.
  intros Hc Ht. destruct ed; intros Hed Hs.
  - by apply tree_add.
  - destruct Hed as (He & Hn & Hv). by apply tree_set.
  - apply tree_set; [done..|apply kept_text].
  - destruct Hed as [Hn He]. by apply tree_remove.
  - by apply tree_reparent.
  - by apply tree_delete.
Qed.

(** *** The edits that are not safe *)

(** An entity moved below itself is no longer in a tree. *)
Lemma below_itself c e p :
  composite_ok c → proper c (Reparent e p) → rtc (child c) e p → ¬ tree (reparentEntity c e p).
Proof.
  intros Hc [He Hp] Hbelow Ht'.
  destruct (reparent_ok c e p Hc) as (Hc' & Hget & Hin & Hpar); [lia|by apply (placed_safe c)|].
  set (c' := reparentEntity c e p) in *.
  assert (∀ y, rtc (child c) e y → rtc (child c') e y) as Hkeep.
  { apply rtc_ind_r; [done|]. intros y z _ Hyz IH. destruct (decide (z = e)) as [->|Hz]; [done|].
    eapply rtc_r; [exact IH|]. apply (child_ext c c'); [done..| |done].
    intros n. apply Hget. by left. }
  assert (rooted c' e) as Hr by by apply Ht'.
  destruct (rooted_parent c' e Ht' Hr) as (q & _ & Hq); [unfold ROOT_ENTITY; lia|].
  assert (q = p) as ->.
  { apply child_iff in Hq as (_ & _ & Hq). apply (inj pretty). congruence. }
  apply (tree_acyclic c' Ht' e Hr). apply tc_rtc_l with p; [by apply Hkeep|by apply tc_once].
Qed.

(** What was below an entity that alone is deleted hangs from nothing. *)
Lemma left_behind c e x :
  composite_ok c → e ≠ ROOT_ENTITY → child c e x → ¬ tree (deleteEntity c e false).
Proof.
  intros Hc He Hx Ht'. pose proof (delete_ok numberText c e false Hc) as Hc'.
  set (c' := deleteEntity c e false) in *. pose proof Hx as (Hin & Hne & _)%child_iff.
  destruct (decide (x = ROOT_ENTITY)) as [->|Hroot].
  { destruct Ht' as [Hr _]. apply child_iff in Hx as (_ & _ & Hx).
    unfold c', parentOf in *. destruct (delete_get numberText c e false ROOT_ENTITY TRANSFORM Hc)
      as [_ Hg]. rewrite Hg in Hr by (by intros (_ & [] & _)). rewrite Hr in Hx.
    by apply (inj pretty) in Hx. }
  assert (∀ y, y ≠ e → ∀ n, getComponentValue c' y n = getComponentValue c y n) as Hsame.
  { intros y Hy n. apply (delete_get numberText); [done|]. by intros (_ & _ & ->). }
  assert (child c' e x) as Hx' by (apply (child_ext c c'); auto).
  assert (x ∈ listEntities c') as Hin' by by apply child_iff in Hx' as [? _].
  destruct (rooted_parent c' x Ht') as (q & Hq & Hqx); [by apply Ht'|done|].
  rewrite (child_unique _ _ _ _ Hqx Hx') in Hq.
  destruct (rooted_parent c' e Ht' Hq He) as (r & _ & (Hl & _)%child_iff).
  apply (elem_of_listEntities numberText) in Hl as (_ & n & Hn); [|done].
  apply Hn. apply (delete_get numberText); [done|]. split_and!; [done|done|done].
Qed.


(** C21.  Deleting an entity removes it, with those below it unless it is told not to
    look below: all their components go, and no other.  What stays is as it was, and in
    the same place.  The root itself is never deleted. *)
Theorem deleteEntity_exact c (e : Z) (recursive : bool) (x : Z) :
  composite_ok c →
  let gone : Prop := e ≠ ROOT_ENTITY ∧ x ≠ ROOT_ENTITY ∧
    (if recursive then rtc (child c) e x else x = e) in
  (gone → x ∉ listEntities (deleteEntity c e recursive)) ∧
  (¬ gone →
     (∀ n, getComponentValue (deleteEntity c e recursive) x n = getComponentValue c x n) ∧
     (x ∈ listEntities (deleteEntity c e recursive) ↔ x ∈ listEntities c) ∧
     ∀ p, child (deleteEntity c e recursive) p x ↔ child c p x).
Proof.
  intros Hc gone. pose proof (delete_ok numberText c e recursive Hc) as Hc'. split.
  - intros Hd Hx. apply (elem_of_listEntities numberText) in Hx as (_ & n & Hn); [|done].
    apply Hn. by apply (delete_get numberText).
  - intros Hd.
    assert (∀ n, getComponentValue (deleteEntity c e recursive) x n = getComponentValue c x n)
      as Hn by (intros n; by apply (delete_get numberText)).
    split_and!; [done| |].
    + by apply (listEntities_ext c _ (λ y, y = x)); [..|intros ? ->|].
    + intros p. by apply child_ext.
Qed.
End tree.

(** ** A room with a chair *)

Definition aRoom : AddEntityInput :=
  {| ae_id := None; ae_name := Some "Room"; ae_parent := None; ae_components := [] |}.

Definition aChair : AddEntityInput :=
  {| ae_id := None; ae_name := Some "Chair"; ae_parent := Some 512;
     ae_components := [("core::VisibilityComponent", JObject [("visible", JBool true)])] |}.

Definition room : SceneComposite := (addEntity (addEntity emptyComposite aRoom).1 aChair).1.

Ltac value_kept :=
  repeat first
    [ apply kept_leaf; repeat split; reflexivity
    | apply kept_object; [decided|by vm_compute|]
    | apply kept_array
    | apply Forall_nil_2 | apply Forall_cons_2
    | progress cbn [fst snd] ].

Ltac composite_kept :=
  split; [decided|];
  match goal with |- Forall _ ?bs => let l := eval vm_compute in bs in change (Forall (λ b, data_ok id (cb_data b)) l) end;
  repeat first
    [ apply Forall_nil_2 | apply Forall_cons_2 | progress cbn [cb_data fst snd]
    | split; [decided|split; [by vm_compute|]]
    | split; [eexists; by vm_compute|value_kept] ].

Lemma serializeSceneComposite_roundtrip_witness :
  parseComposite <$> JSON_parse_text id (serializeSceneComposite room) = Some room ∧
  listEntities room = [512; 513].
Proof.
  split; [|by vm_compute]. apply (serializeSceneComposite_roundtrip id); [by vm_compute|].
  composite_kept.
Defined.

(** The room with the chair in it goes, the lamp beside it stays. *)
Lemma deleteEntity_exact_witness :
  let scene := (addEntity room {| ae_id := None; ae_name := Some "Lamp"; ae_parent := None;
                                  ae_components := [] |}).1 in
  listEntities scene = [512; 513; 514] ∧
  (513 ∉ listEntities (deleteEntity scene 512 true)) ∧
  child (deleteEntity scene 513 true) 0 512.
Proof.
  intros scene. split; [by vm_compute|]. assert (composite_ok id scene) as Hc by composite_kept.
  split.
  - apply (deleteEntity_exact id scene 512 true 513 Hc). split_and!; [done..|].
    apply rtc_once. unfold child. decided.
  - apply (deleteEntity_exact id scene 513 true 512 Hc); [|unfold child; decided].
    intros (_ & _ & Hb). apply leaf_below in Hb; [done|].
    intros y. unfold child. assert (childrenOf scene 513 = []) as -> by by vm_compute.
    apply not_elem_of_nil.
Defined.


(** Nothing keeps an entity from being moved below itself: then neither it nor what is
    below it is below the root. *)
Example reparented_below_itself :
  let scene := reparentEntity room 512 513 in
  listEntities scene = [512; 513] ∧ descendantsOf scene ROOT_ENTITY = [0] ∧
  descendantsOf scene 512 = [512; 513].
Proof. by vm_compute. Qed.
