(* ===== verification/TextSearch.v ===== *)
(** * Patterns in texts

    The regular expressions of the program, on Latin-1: where a pattern first matches,
    blanks, lines, and [trim]. *)

From Stdlib Require Import Ascii.
From S2P Require Import Prelude JsString JsonParse.
Open Scope string_scope.
Open Scope list_scope.
Open Scope Z_scope.

(** The first place where a pattern matches. *)
Fixpoint firstMatch {A} (pattern : string → option A) (s : string) : option A :=
  match pattern s with
  | Some x => Some x
  | None => match s with String _ t => firstMatch pattern t | EmptyString => None end
  end.

(** [\s], on Latin-1. *)
Definition is_blank (c : Ascii.ascii) : bool :=
  bool_decide (Ascii.N_of_ascii c ∈ [9; 10; 11; 12; 13; 32; 160]%N).

Definition skipBlanks (s : string) : string := (span is_blank s).2.

(** What follows [word]. *)
Definition after (word s : string) : option string :=
  if startsWith word s then Some (slice (String.length word) s) else None.

(** The rest of a line. *)
Definition restOfLine (s : string) : string :=
  (span (λ c, negb (bool_decide (Ascii.N_of_ascii c ∈ [10; 13]%N))) s).1.

(** [\d] and the letters of hexadecimal numerals, [[0-9a-fA-F]]. *)
Definition is_hex (c : Ascii.ascii) : bool := bool_decide (is_Some (hex_digit c)).

(** [[a-z0-9]] with the flag that ignores case. *)
Definition is_alphanumeric (c : Ascii.ascii) : bool :=
  let n := Ascii.N_of_ascii c in
  is_digit c || bool_decide ((97 ≤ n ∧ n ≤ 122) ∨ (65 ≤ n ∧ n ≤ 90))%N.

(** [s.trimEnd()] *)
Fixpoint trimEnd (s : string) : string :=
  match s with
  | EmptyString => ""
  | String c t => if all_chars is_blank s then "" else String c (trimEnd t)
  end.

(** [s.trim()] *)
Definition trim (s : string) : string := trimEnd (skipBlanks s).

(** [s.toUpperCase()] of letters without accents. *)
Definition upper_char (c : Ascii.ascii) : Ascii.ascii :=
  let n := Ascii.N_of_ascii c in
  if decide (97 ≤ n ∧ n ≤ 122)%N then Ascii.ascii_of_N (n - 32) else c.

Fixpoint toUpperCase (s : string) : string :=
  match s with String c t => String (upper_char c) (toUpperCase t) | EmptyString => "" end.

(** A match at the first character, and a first character to be passed over. *)
Lemma firstMatch_here {A} (p : string → option A) s x : p s = Some x → firstMatch p s = Some x.
Proof. destruct s; simpl; by intros ->. Qed.

Lemma firstMatch_skip {A} (p : string → option A) c t :
  p (String c t) = None → firstMatch p (String c t) = firstMatch p t.
Proof. simpl. by intros ->. Qed.

(** A text without blanks. *)
Lemma trimEnd_solid s : all_chars (λ c, negb (is_blank c)) s = true → trimEnd s = s.
Proof.
  induction s as [|c s IH]; [done|]. simpl. intros [Hc Hs]%andb_true_iff.
  destruct (is_blank c); [done|]. simpl. by rewrite IH.
Qed.

Lemma trim_solid s : all_chars (λ c, negb (is_blank c)) s = true → trim s = s.
Proof.
  intros Hs. unfold trim, skipBlanks. destruct s as [|c s]; [done|].
  pose proof (trimEnd_solid _ Hs) as E. simpl in Hs |- *. apply andb_true_iff in Hs as [Hc _].
  by destruct (is_blank c).
Qed.
