(* ===== verification/AuthChain.v ===== *)
(** * Signed requests

    [sites/packages/data/src/lib/auth] and [ui3/src/data/auth/signerCore.ts]: a wallet
    vouches for a key of the browser until a time, and that key signs every request;
    and what the server checks of one
    ([sites/packages/data/src/lib/catalyst/creator-hub/scene-drafts.server.ts]).

    Signatures, dates and the numerals of [Number] are services of the platform. *)

From Stdlib Require Import Ascii QArith Qabs.
From S2P Require Import Prelude JsString TextSearch SyncEngine JsonParse DebugDiff.
Open Scope string_scope.
Open Scope list_scope.
Open Scope Z_scope.

(** What the code calls: viem's signatures and the address of a key, dates as
    milliseconds ([None] for an invalid one), [Number] of a text ([None] for what is not
    finite), the text of a number, adding one to a number, and the path of a URL ([None]
    for what is none). *)
Class Web := {
  privateKeyToAccount : string → string;
  signMessage : string → string → string;
  recoverMessageAddress : string → string → option string;
  toISOString : Z → string;
  Date_parse : string → option Z;
  Number : string → option Q;
  numberText : string → string;
  numberSucc : string → string;
  pathname : string → option string
}.

Section auth.
Context `{Web}.

Definition newline : string := String (Ascii.ascii_of_N 10) "".

(** [AuthLink], sites/packages/data/src/lib/auth/types.ts:1-7 *)
Record AuthLink := { al_type : string; al_payload : string; al_signature : string }.

(** [EphemeralKey], sites/packages/data/src/lib/auth/types.ts:9-12 *)
Record EphemeralKey := { ek_address : string; ek_privateKey : string }.

(** [AuthIdentity], sites/packages/data/src/lib/auth/types.ts:14-19 *)
Record AuthIdentity := {
  ai_signer : string;
  ai_ephemeral : EphemeralKey;
  ai_expiration : string;
  ai_authChain : list AuthLink
}.

(** [ETH_ADDRESS_RE.test], sites/packages/data/src/lib/catalyst/format/address.ts:1-5 *)
Definition isEthAddress (v : string) : bool :=
  startsWith "0x" v && all_chars is_hex (slice 2 v) && (String.length v =? 42)%nat.

(** ** Identities *)

(** sites/packages/data/src/lib/auth/identity.ts:6-6 *)
Definition DEFAULT_EXPIRATION_MS : Z := 7 * 24 * 60 * 60 * 1000.

(** [generateEphemeralKey] of the key the platform made,
    sites/packages/data/src/lib/auth/identity.ts:8-12 *)
Definition generateEphemeralKey (privateKey : string) : EphemeralKey :=
  {| ek_address := toLowerCase (privateKeyToAccount privateKey); ek_privateKey := privateKey |}.

(** [buildEphemeralMessage], sites/packages/data/src/lib/auth/identity.ts:14-23 *)
Definition buildEphemeralMessage (ephemeralAddress : string) (expiration : Z) : string :=
  join newline ["Decentraland Login"; "Ephemeral address: " +:+ ephemeralAddress;
                "Expiration: " +:+ toISOString expiration].

(** [createIdentityWith], the wallet signing with [signWith],
    sites/packages/data/src/lib/auth/identity.ts:25-48 *)
Definition createIdentityWith (signer : string) (signWith : string → string)
    (privateKey : string) (now : Z) (expirationMs : option Z) : AuthIdentity :=
  let ephemeral := generateEphemeralKey privateKey in
  let expiration := now + default DEFAULT_EXPIRATION_MS expirationMs in
  let message := buildEphemeralMessage (ek_address ephemeral) expiration in
  {| ai_signer := toLowerCase signer; ai_ephemeral := ephemeral;
     ai_expiration := toISOString expiration;
     ai_authChain := [
       {| al_type := "SIGNER"; al_payload := signer; al_signature := "" |};
       {| al_type := "ECDSA_EPHEMERAL"; al_payload := message;
          al_signature := signWith message |}] |}.

(** [createIdentityFromPrivateKey], sites/packages/data/src/lib/auth/identity.ts:68-87 *)
Definition createIdentityFromPrivateKey (signerPrivateKey privateKey : string) (now : Z)
    (expirationMs : option Z) : AuthIdentity :=
  createIdentityWith (toLowerCase (privateKeyToAccount signerPrivateKey))
    (signMessage signerPrivateKey) privateKey now expirationMs.

(** [isIdentityExpired], sites/packages/data/src/lib/auth/expiry.ts:3-9 *)
Definition isIdentityExpired (identity : AuthIdentity) (now : Z) : bool :=
  match Date_parse (ai_expiration identity) with
  | Some exp => bool_decide (exp ≤ now)
  | None => true
  end.

(** ** Signing a request *)

(** ui3/src/data/auth/signerCore.ts:3-3 *)
Definition AUTH_CHAIN_HEADER_PREFIX : string := "x-identity-auth-chain-".
(** ui3/src/data/auth/signerCore.ts:4-4 *)
Definition AUTH_TIMESTAMP_HEADER : string := "x-identity-timestamp".
(** ui3/src/data/auth/signerCore.ts:5-5 *)
Definition AUTH_METADATA_HEADER : string := "x-identity-metadata".

(** [buildRequestPayload], ui3/src/data/auth/signerCore.ts:7-14 *)
Definition buildRequestPayload (method path timestamp metadataStr : string) : string :=
  toLowerCase (method +:+ ":" +:+ path +:+ ":" +:+ timestamp +:+ ":" +:+ metadataStr).

Definition linkJson (link : AuthLink) : Json :=
  JObject [("type", JString (al_type link)); ("payload", JString (al_payload link));
           ("signature", JString (al_signature link))].

Definition chainHeader (i : nat) : string :=
  AUTH_CHAIN_HEADER_PREFIX +:+ pretty (Z.of_nat i).

(** [signAuthChain], the headers, ui3/src/data/auth/signerCore.ts:22-46 *)
Definition signAuthChain (ephemeralPrivateKey : string) (authChain : list AuthLink)
    (method path timestamp metadataStr : string) : list (string * string) :=
  let payload := buildRequestPayload method path timestamp metadataStr in
  let chain := authChain ++ [
    {| al_type := "ECDSA_SIGNED_ENTITY"; al_payload := payload;
       al_signature := signMessage ephemeralPrivateKey payload |}] in
  [(AUTH_TIMESTAMP_HEADER, timestamp); (AUTH_METADATA_HEADER, metadataStr)] ++
  imap (λ i link, (chainHeader i, JSON_stringify (linkJson link))) chain.

(** [s.replace(/\/+/g, "/")] *)
Fixpoint squeezeSlashes (s : string) : string :=
  match s with
  | EmptyString => ""
  | String c t =>
      if decide (c = slash) then
        match t with
        | String d _ => if decide (d = slash) then squeezeSlashes t else String c (squeezeSlashes t)
        | EmptyString => String c ""
        end
      else String c (squeezeSlashes t)
  end.

(** What precedes the first question mark. *)
Definition beforeQuery (s : string) : string := default "" (head (split "?"%char s)).

(** [signedPath], sites/packages/data/src/lib/auth/signer.ts:26-33 *)
Definition signedPath (input : string) : string :=
  if startsWith "/" input then beforeQuery input
  else match pathname input with
       | Some path => path
       | None => beforeQuery (squeezeSlashes ("/" +:+ input))
       end.

(** [signRequest], the headers, or [None] for the error that the identity has expired,
    sites/packages/data/src/lib/auth/signer.ts:43-65 *)
Definition signRequest (identity : AuthIdentity) (method url : string) (metadata : Json) (now : Z)
    : option (list (string * string)) :=
  if isIdentityExpired identity now then None
  else Some (signAuthChain (ek_privateKey (ai_ephemeral identity)) (ai_authChain identity) method
               (signedPath url) (pretty now) (JSON_stringify metadata)).

(** ** Checking a request *)

(** What the server reads of a request: its headers, with names in small letters, its
    method, the path of its URL and its body. *)
Record Request := {
  rq_headers : list (string * string);
  rq_method : string;
  rq_path : string;
  rq_body : string
}.

(** [AuthResult],
    sites/packages/data/src/lib/catalyst/creator-hub/scene-drafts.server.ts:144-146 *)
Inductive AuthResult :=
  | AuthOk (wallet : string)
  | AuthError (status : Z) (error : string).

(** sites/packages/data/src/lib/catalyst/creator-hub/scene-drafts.server.ts:148-148 *)
Definition DEFAULT_MAX_AGE_MS : Z := 10 * 60000.

(** The address of [parseEphemeral],
    sites/packages/data/src/lib/catalyst/creator-hub/scene-drafts.server.ts:153-153 *)
Definition addressHere (s : string) : option string :=
  if startsWith "ephemeral address:" (toLowerCase s) then
    let t := skipBlanks (slice (String.length "ephemeral address:") s) in
    let address := substr 0 42 t in
    if isEthAddress (toLowerCase address) then Some address else None
  else None.

(** Its expiration, the rest of a line; when only blanks follow it is no date.
    sites/packages/data/src/lib/catalyst/creator-hub/scene-drafts.server.ts:154-154 *)
Definition expirationHere (s : string) : option string :=
  if startsWith "expiration:" (toLowerCase s) then
    match skipBlanks (slice (String.length "expiration:") s) with
    | EmptyString => None
    | t => Some (restOfLine t)
    end
  else None.

(** [parseEphemeral], [None] for an expiration that is [Infinity],
    sites/packages/data/src/lib/catalyst/creator-hub/scene-drafts.server.ts:150-161 *)
Definition parseEphemeral (message : string) : option (string * option Z) :=
  addr ← firstMatch addressHere message;
  Some (toLowerCase addr, exp ← firstMatch expirationHere message; Date_parse (trim exp)).

(** A link of the chain, [None] when it is malformed,
    sites/packages/data/src/lib/catalyst/creator-hub/scene-drafts.server.ts:187-200 *)
Definition parseLink (header : string) : option AuthLink :=
  match JSON_parse_text numberText header with
  | Some (JObject link) =>
      match prop "type" link, prop "payload" link, prop "signature" link with
      | Some (JString type), Some (JString payload), Some (JString signature) =>
          Some {| al_type := type; al_payload := payload; al_signature := signature |}
      | _, _, _ => None
      end
  | _ => None
  end.

(** The loop that reads the chain, link [i] next: its error or the chain.  It takes ten
    turns at most.
    sites/packages/data/src/lib/catalyst/creator-hub/scene-drafts.server.ts:183-203 *)
Fixpoint readChain (turns i : nat) (headers : list (string * string)) (chain : list AuthLink)
    : string + list AuthLink :=
  match turns, prop (chainHeader i) headers with
  | O, _ | _, None => inr chain
  | S turns, Some header =>
      match parseLink header with
      | None => inl ("malformed auth link " +:+ pretty (Z.of_nat i))
      | Some link =>
          if (8 <? i)%nat then inl "auth chain too long"
          else readChain turns (S i) headers (chain ++ [link])
      end
  end.

(** The loop that follows the chain from link [i], with the address that has to sign it
    and the payload last signed: its error or that payload.
    sites/packages/data/src/lib/catalyst/creator-hub/scene-drafts.server.ts:215-264 *)
Fixpoint followChain (now : Z) (i : nat) (chain : list AuthLink) (authority : string)
    (finalPayload : option string) : string + option string :=
  match chain with
  | [] => inr finalPayload
  | link :: chain =>
      let at_link := pretty (Z.of_nat i) in
      match recoverMessageAddress (al_payload link) (al_signature link) with
      | None => inl ("unrecoverable signature at link " +:+ at_link)
      | Some recovered =>
          if negb (String.eqb (toLowerCase recovered) authority)
          then inl ("broken auth chain at link " +:+ at_link)
          else if String.eqb (al_type link) "ECDSA_EPHEMERAL" ||
                  String.eqb (al_type link) "ECDSA_PERSONAL_EPHEMERAL" then
            match parseEphemeral (al_payload link) with
            | None => inl "malformed ephemeral payload"
            | Some (address, expiration) =>
                if match expiration with Some e => bool_decide (e ≤ now) | None => false end
                then inl "identity expired"
                else followChain now (S i) chain address finalPayload
            end
          else if String.eqb (al_type link) "ECDSA_SIGNED_ENTITY" ||
                  String.eqb (al_type link) "ECDSA_PERSONAL_SIGNED_ENTITY" then
            followChain now (S i) chain authority (Some (al_payload link))
          else inl ("unsupported auth link type " +:+ al_type link)
      end
  end.

(** The time of a request is no finite number, too far away, or right.
    sites/packages/data/src/lib/catalyst/creator-hub/scene-drafts.server.ts:175-181 *)
Definition checkTimestamp (now maxAge : Z) (timestampRaw : string) : option string :=
  match Number timestampRaw with
  | None => Some "invalid identity timestamp"
  | Some timestamp =>
      if negb (Qle_bool (Qabs (inject_Z now - timestamp)) (inject_Z maxAge))
      then Some "stale identity timestamp" else None
  end.

(** [verifyAuthChainRequest],
    sites/packages/data/src/lib/catalyst/creator-hub/scene-drafts.server.ts:163-283 *)
Definition verifyAuthChainRequest (now maxAge : Z) (request : Request) : AuthResult :=
  let timestampRaw := default "" (prop AUTH_TIMESTAMP_HEADER (rq_headers request)) in
  let metadataStr := default "" (prop AUTH_METADATA_HEADER (rq_headers request)) in
  if String.eqb timestampRaw "" then AuthError 401 "missing identity timestamp"
  else match checkTimestamp now maxAge timestampRaw with
  | Some err => AuthError 401 err
  | None =>
    match readChain 10 0 (rq_headers request) [] with
    | inl err => AuthError 401 err
    | inr chain =>
      match chain with
      | signerLink :: (_ :: _) as links =>
        if negb (String.eqb (al_type signerLink) "SIGNER") ||
           negb (isEthAddress (al_payload signerLink))
        then AuthError 401 "missing SIGNER link"
        else
          let owner := toLowerCase (al_payload signerLink) in
          match followChain now 1 (tail chain) owner None with
          | inl err => AuthError 401 err
          | inr None => AuthError 401 "missing signed request link"
          | inr (Some finalPayload) =>
              let rawMethod := toUpperCase (rq_method request) in
              let method := if String.eqb rawMethod "HEAD" then "GET" else rawMethod in
              let expected := buildRequestPayload method (rq_path request) timestampRaw metadataStr in
              if negb (String.eqb (toLowerCase finalPayload) expected)
              then AuthError 401 "request signature does not match request"
              else AuthOk owner
          end
      | _ => AuthError 401 "empty auth chain"
      end
    end
  end.
End auth.
