(* ===== verification/AuthProofs.v ===== *)
(** * Who signed a request

    A request is accepted only along an unbroken chain of signatures from its owner to
    the request itself; and the requests that the browser signs with an identity are
    accepted until the identity expires. *)

From Stdlib Require Import Ascii QArith Qabs.
From S2P Require Import Prelude JsString TextSearch SyncEngine SyncProofs JsonParse JsonProofs.
From S2P Require Import DebugDiff SceneComposite SceneProofs SceneTree AuthChain.
Open Scope string_scope.
Open Scope list_scope.
Open Scope Z_scope.

(** ** Accepted requests *)

Section safety.
Context `{Web}.

(** [a] signs [message]. *)
Definition signed_by (a message : string) : Prop :=
  ∃ signature r, recoverMessageAddress message signature = Some r ∧ toLowerCase r = a.

(** The addresses that may sign for [owner] at a time: its own, and those that such an
    address named in a message that has not expired, one without a date never. *)
Inductive delegated (now : Z) (owner : string) : string → Prop :=
  | delegated_owner : delegated now owner owner
  | delegated_to a b message exp :
      delegated now owner a → signed_by a message →
      parseEphemeral message = Some (b, exp) → (∀ e, exp = Some e → now < e) →
      delegated now owner b.

Definition vouched (now : Z) (owner message : string) : Prop :=
  ∃ a, delegated now owner a ∧ signed_by a message.

Lemma followChain_vouched now owner i chain a final out :
  delegated now owner a → (∀ p, final = Some p → vouched now owner p) →
  followChain now i chain a final = inr out → ∀ p, out = Some p → vouched now owner p.
Proof.
  revert i a final. induction chain as [|link chain IH]; intros i a final Ha Hf E.
  { simpl in E. by simplify_eq. }
  simpl in E. destruct (recoverMessageAddress _ _) as [r|] eqn:Hr; [|done].
  destruct (String.eqb_spec (toLowerCase r) a) as [Hra|]; [simpl in E|done].
  assert (signed_by a (al_payload link)) as Hs by (by eexists _, _).
  destruct (String.eqb _ _ || _) in E.
  - destruct (parseEphemeral _) as [[b exp]|] eqn:He; [|done].
    assert ((∀ e, exp = Some e → now < e) ∧
      followChain now (S i) chain b final = inr out) as [Hexp E'].
    { destruct exp as [e|]; [|done]. case_bool_decide; [done|]. split; [|done].
      intros e' [= <-]. lia. }
    revert E'. apply IH; [by eapply delegated_to|done].
  - destruct (String.eqb _ _ || _) in E; [|done]. revert E. apply IH; [done|].
    intros p [= <-]. by exists a.
Qed.

(** C9.  A request is accepted for a wallet only when it is recent and its method, path,
    time and metadata were signed by the wallet or by a key it vouched for, directly
    or through others, each time until a time not yet over or without a time that
    can be read: such a delegation does not end. *)
Theorem verifyAuthChainRequest_vouched now maxAge request wallet :
  verifyAuthChainRequest now maxAge request = AuthOk wallet →
  let header name := default "" (prop name (rq_headers request)) in
  let method := toUpperCase (rq_method request) in
  (∃ t, Number (header AUTH_TIMESTAMP_HEADER) = Some t ∧
     (Qabs (inject_Z now - t) <= inject_Z maxAge)%Q) ∧
  ∃ payload, vouched now wallet payload ∧
    toLowerCase payload =
    buildRequestPayload (if String.eqb method "HEAD" then "GET" else method) (rq_path request)
      (header AUTH_TIMESTAMP_HEADER) (header AUTH_METADATA_HEADER).
Proof.
  intros E header method. unfold verifyAuthChainRequest in E.
  fold (header AUTH_TIMESTAMP_HEADER) in E. fold (header AUTH_METADATA_HEADER) in E.
  destruct (String.eqb (header _) ""); [done|]. unfold checkTimestamp in E.
  destruct (Number (header AUTH_TIMESTAMP_HEADER)) as [t|]; [|done].
  destruct (Qle_bool _ _) eqn:Ht; [cbn [negb] in E|done].
  split; [exists t; split; [done|by apply Qle_bool_iff]|].
  destruct (readChain _ _ _ _) as [|[|signer [|link links]]]; try done.
  destruct (negb _ || negb _); [done|]. cbn [tail] in E.
  destruct (followChain _ _ _ _ _) as [|[payload|]] eqn:Hc; [done| |done].
  fold method in E. destruct (String.eqb_spec (toLowerCase payload)
    (buildRequestPayload (if String.eqb method "HEAD" then "GET" else method) (rq_path request)
      (header AUTH_TIMESTAMP_HEADER) (header AUTH_METADATA_HEADER))) as [Hp|]; [|done].
  injection E as <-. exists payload. split; [|done].
  by eapply (followChain_vouched now _ _ _ _ _ _ (delegated_owner now _)); [|exact Hc|].
Qed.
End safety.

(** ** Requests signed with an identity *)

(** The characters of a date. *)
Definition iso_char (c : Ascii.ascii) : bool :=
  is_digit c || bool_decide (c ∈ ["-"; ":"; "."; "T"; "Z"; "+"]%char).

(** The milliseconds of a date up to the end of the year 9999. *)
Definition MAX_DATE : Z := 253402300799999.

(** What the platform documents: who signed is recovered from the signature, addresses
    are forty hexadecimal digits, the text of a date is read back, and an integer that
    is safe prints as its numeral, which is read back, and has a successor. *)
Class WebLaws `{Web} := {
  recover_sign key m : recoverMessageAddress m (signMessage key m) = Some (privateKeyToAccount key);
  account_address key : isEthAddress (privateKeyToAccount key) = true;
  ISO_parse d : 0 ≤ d ≤ MAX_DATE → Date_parse (toISOString d) = Some d;
  ISO_text d : 0 ≤ d ≤ MAX_DATE → toISOString d ≠ "" ∧ all_chars iso_char (toISOString d) = true;
  Number_pretty z : 0 ≤ z ≤ MAX_SAFE → Number (pretty z) = Some (inject_Z z);
  numberText_pretty z : 0 ≤ z ≤ MAX_SAFE → numberText (pretty z) = pretty z;
  numberSucc_pretty z : 0 ≤ z < MAX_SAFE → numberSucc (pretty z) = pretty (z + 1)
}.

Lemma skipBlanks_solid s : head_is is_blank s = false → skipBlanks s = s.
Proof. unfold skipBlanks. destruct s as [|c s]; [done|]. simpl. by intros ->. Qed.

Lemma iso_solid c : iso_char c = true →
  is_blank c = false ∧ bool_decide (Ascii.N_of_ascii c ∈ [10; 13]%N) = false.
Proof. by destruct c as [[] [] [] [] [] [] [] []]. Qed.

(** The rest of a line that is a date, between blanks. *)
Lemma iso_line s : all_chars iso_char s = true → restOfLine s = s ∧ trim s = s.
Proof.
  intros Hs. split.
  - unfold restOfLine. rewrite span_all; [done|]. revert Hs. apply all_chars_impl.
    intros c Hc. by destruct (iso_solid c Hc) as [_ ->].
  - apply trim_solid. revert Hs. apply all_chars_impl. intros c Hc.
    by destruct (iso_solid c Hc) as [-> _].
Qed.

(** An address: [0x] and forty hexadecimal digits. *)
Lemma isEthAddress_shape s : isEthAddress s = true →
  ∃ h, s = "0x" +:+ h ∧ all_chars is_hex h = true ∧ String.length h = 40%nat.
Proof.
  unfold isEthAddress. rewrite !andb_true_iff. intros [[H0 Hh] Hl].
  destruct s as [|c [|d h]]; [done..| |].
  - exfalso. by destruct c as [[] [] [] [] [] [] [] []].
  - exists h. apply Nat.eqb_eq in Hl. simpl in Hl, Hh. split_and!; [|done|lia].
    unfold startsWith in H0. destruct c as [[] [] [] [] [] [] [] []]; try done.
    destruct d as [[] [] [] [] [] [] [] []]; try done; by destruct h.
Qed.

Lemma is_hex_lower c : is_hex c = true → is_hex (lower_char c) = true.
Proof. by destruct c as [[] [] [] [] [] [] [] []]. Qed.

Lemma all_chars_lower h : all_chars is_hex h = true → all_chars is_hex (toLowerCase h) = true.
Proof.
  induction h as [|c h IH]; [done|]. simpl. intros [Hc Hh]%andb_true_iff.
  by rewrite is_hex_lower, IH.
Qed.

Lemma toLowerCase_length s : String.length (toLowerCase s) = String.length s.
Proof. induction s as [|c s IH]; [done|]. simpl. by rewrite IH. Qed.

Lemma isEthAddress_lower s : isEthAddress s = true → isEthAddress (toLowerCase s) = true.
Proof.
  intros (h & -> & Hh & Hl)%isEthAddress_shape. unfold isEthAddress.
  rewrite !andb_true_iff. split_and!.
  - unfold startsWith. simpl. by destruct (toLowerCase _).
  - by apply (all_chars_lower h).
  - apply Nat.eqb_eq. rewrite toLowerCase_length. change (S (S (String.length h)) = 42%nat). by rewrite Hl.
Qed.

Lemma substr_app s t : substr 0 (String.length s) (s +:+ t) = s.
Proof. unfold substr. induction s as [|c s IH]; simpl; [by destruct t|]. by rewrite IH. Qed.

Lemma startsWith_two a b c d p t :
  startsWith (String a (String b p)) (String c (String d t)) = true → a = c ∧ b = d.
Proof. unfold startsWith. simpl. by repeat case_match. Qed.

(** An expiration is not found inside an address. *)
Lemma expiration_after_hex h t : all_chars is_hex h = true →
  firstMatch expirationHere (h +:+ newline +:+ t) = firstMatch expirationHere (newline +:+ t).
Proof.
  induction h as [|c h IH]; intros Hh; [done|]. simpl in Hh. apply andb_true_iff in Hh as [Hc Hh].
  rewrite <- IH by done. apply firstMatch_skip. unfold expirationHere.
  assert (startsWith "expiration:" (toLowerCase (String c (h +:+ newline +:+ t))) = false) as ->; [|done].
  destruct (startsWith _ _) eqn:E; [exfalso|done]. destruct h as [|d h].
  - by apply startsWith_two in E as [_ ?].
  - apply startsWith_two in E as [_ Hd]. simpl in Hh. apply andb_true_iff in Hh as [Hh _].
    revert Hh Hd. by destruct d as [[] [] [] [] [] [] [] []].
Qed.

Lemma addressHere_message a t : isEthAddress a = true →
  addressHere ("Ephemeral address: " +:+ a +:+ t) = Some a.
Proof.
  intros Ha. pose proof (isEthAddress_lower _ Ha) as Hlow.
  destruct (isEthAddress_shape _ Ha) as (h & -> & Hh & Hl).
  unfold addressHere. replace (startsWith _ _) with true by reflexivity. cbv zeta.
  change (slice _ _) with (String " " (("0x" +:+ h) +:+ t)).
  replace (skipBlanks _) with (("0x" +:+ h) +:+ t) by reflexivity.
  replace (substr 0 42 (("0x" +:+ h) +:+ t)) with ("0x" +:+ h); [by rewrite Hlow|].
  rewrite <- (substr_app ("0x" +:+ h) t) at 1. f_equal. change (S (S (String.length h)) = 42%nat). by rewrite Hl.
Qed.

Lemma expirationHere_message d : d ≠ "" → all_chars iso_char d = true →
  expirationHere ("Expiration: " +:+ d) = Some d.
Proof.
  intros Hne Hd. unfold expirationHere. replace (startsWith _ _) with true by reflexivity.
  change (slice _ _) with (String " " d).
  assert (skipBlanks (String " " d) = d) as ->.
  { transitivity (skipBlanks d).
    - unfold skipBlanks. simpl. by destruct (span is_blank d).
    - apply skipBlanks_solid. destruct d as [|c d]; [done|]. simpl in *.
      apply andb_true_iff in Hd as [Hc _]. by apply iso_solid. }
  destruct d as [|c d]; [done|]. by rewrite (proj1 (iso_line _ Hd)).
Qed.

(** The message of an identity names its key and says when it expires. *)
Lemma parseEphemeral_message `{WebLaws} address d :
  isEthAddress address = true → 0 ≤ d ≤ MAX_DATE →
  parseEphemeral (buildEphemeralMessage address d) = Some (toLowerCase address, Some d).
Proof.
  intros Ha Hd. pose proof (isEthAddress_lower _ Ha) as Hlow.
  destruct (isEthAddress_shape _ Ha) as (h & -> & Hh & Hl).
  destruct (ISO_text d Hd) as [Hne Hiso]. destruct (iso_line _ Hiso) as [Hline Htrim].
  assert (buildEphemeralMessage ("0x" +:+ h) d =
    "Decentraland Login" +:+ newline +:+ "Ephemeral address: 0x" +:+ h +:+ newline +:+
    "Expiration: " +:+ toISOString d) as ->.
  { unfold buildEphemeralMessage. simpl. by rewrite !string_app_assoc. }
  set (rest := newline +:+ "Expiration: " +:+ toISOString d).
  assert (firstMatch addressHere ("Decentraland Login" +:+ newline +:+ "Ephemeral address: 0x" +:+ h +:+ rest)
    = Some ("0x" +:+ h)) as Haddr.
  { do 19 (etransitivity; [apply firstMatch_skip; reflexivity|]). apply firstMatch_here.
    change ("Ephemeral address: 0x" +:+ h +:+ rest) with
      ("Ephemeral address: " +:+ ("0x" +:+ h) +:+ rest). by apply addressHere_message. }
  assert (firstMatch expirationHere
    ("Decentraland Login" +:+ newline +:+ "Ephemeral address: 0x" +:+ h +:+ rest)
    = Some (toISOString d)) as Hexp.
  { do 40 (etransitivity; [apply firstMatch_skip; reflexivity|]).
    transitivity (firstMatch expirationHere rest); [by apply expiration_after_hex|].
    etransitivity; [apply firstMatch_skip; reflexivity|]. apply firstMatch_here.
    by apply expirationHere_message. }
  unfold parseEphemeral. rewrite Haddr, Hexp. simpl. by rewrite Htrim, ISO_parse.
Qed.

Section accepted.
Context `{WebLaws}.

Lemma parseLink_print link : parseLink (JSON_stringify (linkJson link)) = Some link.
Proof.
  unfold parseLink. rewrite (JSON_parse_stringify numberText).
  - by destruct link.
  - apply kept_object; [decided|done|]. repeat (apply Forall_cons_2; [by apply kept_leaf|]). constructor.
Qed.

Lemma lower_upper_char c : lower_char (upper_char c) = lower_char c.
Proof. by destruct c as [[] [] [] [] [] [] [] []]. Qed.

Lemma toLowerCase_upper s : toLowerCase (toUpperCase s) = toLowerCase s.
Proof. induction s as [|c s IH]; [done|]. simpl. by rewrite lower_upper_char, IH. Qed.

Lemma checkTimestamp_near now now' maxAge :
  0 ≤ now ≤ MAX_SAFE → Z.abs (now' - now) ≤ maxAge → checkTimestamp now' maxAge (pretty now) = None.
Proof.
  intros Hnow Hage. unfold checkTimestamp. rewrite Number_pretty by done.
  assert (Qle_bool (Qabs (inject_Z now' - inject_Z now)) (inject_Z maxAge) = true) as ->; [|done].
  apply Qle_bool_iff. unfold Qminus. rewrite <- inject_Z_opp, <- inject_Z_plus.
  change (Qabs (inject_Z (now' + - now))) with (inject_Z (Z.abs (now' + - now))).
  by rewrite <- Zle_Qle.
Qed.

(** The message by which a wallet vouches for a key until a time. *)
Definition vouchFor (key : string) (expiration : Z) : string :=
  buildEphemeralMessage (ek_address (generateEphemeralKey key)) expiration.

(** An identity of a wallet, with its key and its expiration. *)
Definition identity_for (owner key : string) (expiration : Z) (identity : AuthIdentity) : Prop :=
  ai_ephemeral identity = generateEphemeralKey key ∧ ai_expiration identity = toISOString expiration ∧
  ∃ payload signature r,
    ai_authChain identity = [
      {| al_type := "SIGNER"; al_payload := payload; al_signature := "" |};
      {| al_type := "ECDSA_EPHEMERAL"; al_payload := vouchFor key expiration;
         al_signature := signature |}] ∧
    isEthAddress payload = true ∧ toLowerCase payload = owner ∧
    recoverMessageAddress (vouchFor key expiration) signature = Some r ∧ toLowerCase r = owner.

Lemma createIdentityFromPrivateKey_for signerKey key created expirationMs :
  identity_for (toLowerCase (privateKeyToAccount signerKey)) key
    (created + default DEFAULT_EXPIRATION_MS expirationMs)
    (createIdentityFromPrivateKey signerKey key created expirationMs).
Proof.
  split; [done|]. split; [done|]. eexists _, _, _. split; [reflexivity|].
  split_and!; [apply isEthAddress_lower, account_address|apply toLowerCase_idem|apply recover_sign|done].
Qed.

(** Following the chain of an identity whose key signed a payload. *)
Lemma followChain_signed now owner key expiration signature r payload :
  0 ≤ expiration ≤ MAX_DATE →
  recoverMessageAddress (vouchFor key expiration) signature = Some r → toLowerCase r = owner →
  followChain now 1 [
    {| al_type := "ECDSA_EPHEMERAL"; al_payload := vouchFor key expiration;
       al_signature := signature |};
    {| al_type := "ECDSA_SIGNED_ENTITY"; al_payload := payload;
       al_signature := signMessage key payload |}] owner None =
  if decide (now < expiration) then inr (Some payload) else inl "identity expired".
Proof.
  intros Hexp Hr <-. simpl followChain. rewrite Hr, !recover_sign, !String.eqb_refl. simpl.
  unfold vouchFor. rewrite parseEphemeral_message; [|apply isEthAddress_lower, account_address|done].
  cbn [generateEphemeralKey ek_address]. rewrite toLowerCase_idem, String.eqb_refl. simpl.
  case_bool_decide; case_decide; (done || lia).
Qed.

(** The chain of a request signed by a key that the wallet vouched for. *)
Lemma readChain_signed timestamp metadata a b c extra :
  prop (chainHeader 3) extra = None →
  readChain 10 0 ([(AUTH_TIMESTAMP_HEADER, timestamp); (AUTH_METADATA_HEADER, metadata)] ++
    imap (λ i link, (chainHeader i, JSON_stringify (linkJson link))) [a; b; c] ++ extra) [] =
  inr [a; b; c].
Proof.
  intros Hextra.
  assert (∀ n i l chain x, prop (chainHeader i) l = Some (JSON_stringify (linkJson x)) →
    (i <= 8)%nat → readChain (S n) i l chain = readChain n (S i) l (chain ++ [x])) as Hstep.
  { intros n i l chain x E Hi. simpl. rewrite E, parseLink_print.
    by rewrite (proj2 (Nat.ltb_ge 8 i)) by done. }
  rewrite (Hstep 9%nat 0%nat _ _ a) by (reflexivity || lia).
  rewrite (Hstep 8%nat 1%nat _ _ b) by (reflexivity || lia).
  rewrite (Hstep 7%nat 2%nat _ _ c) by (reflexivity || lia).
  assert (∀ n i l chain, prop (chainHeader i) l = None → readChain n i l chain = inr chain) as Hend.
  { intros n i l chain E. destruct n; simpl; [done|]. by rewrite E. }
  apply Hend. transitivity (prop (chainHeader 3) extra); [reflexivity|done].
Qed.

(** C20.  A request that the browser signs with an identity of a wallet, and whatever else it
    carries, is accepted for the wallet when it arrives in time; once the identity has
    expired it is refused. *)
Theorem signRequest_accepted owner key expiration identity method url metadata now extra now'
    maxAge body :
  identity_for owner key expiration identity →
  0 ≤ expiration ≤ MAX_DATE → 0 ≤ now < expiration → Z.abs (now' - now) ≤ maxAge →
  toUpperCase method ≠ "HEAD" → prop (chainHeader 3) extra = None →
  ∃ headers, signRequest identity method url metadata now = Some headers ∧
    verifyAuthChainRequest now' maxAge
      {| rq_headers := headers ++ extra; rq_method := method; rq_path := signedPath url;
         rq_body := body |} =
    if decide (now' < expiration) then AuthOk owner else AuthError 401 "identity expired".
Proof.
  intros (Hkey & Hdate & payload0 & signature & r & Hchain & Haddr & Hlow & Hr & Hro)
    Hexp Hnow Hage Hhead Hextra. eexists. split.
  { unfold signRequest, isIdentityExpired. rewrite Hdate, ISO_parse by done.
    by rewrite bool_decide_eq_false_2 by lia. }
  unfold verifyAuthChainRequest. cbn [rq_headers rq_method rq_path]. rewrite Hchain, Hkey.
  set (path := signedPath url). set (text := JSON_stringify metadata).
  set (payload := buildRequestPayload method path (pretty now) text).
  set (headers := signAuthChain _ _ _ _ _ _ ++ extra).
  change (prop AUTH_TIMESTAMP_HEADER headers) with (Some (pretty now)).
  change (prop AUTH_METADATA_HEADER headers) with (Some text). cbn [from_option id].
  rewrite (proj2 (String.eqb_neq _ _) (pretty_Z_nonempty now)).
  rewrite checkTimestamp_near by (done || (unfold MAX_DATE, MAX_SAFE in *; lia)).
  pose proof (readChain_signed (pretty now) text
    {| al_type := "SIGNER"; al_payload := payload0; al_signature := "" |}
    {| al_type := "ECDSA_EPHEMERAL"; al_payload := vouchFor key expiration;
       al_signature := signature |}
    {| al_type := "ECDSA_SIGNED_ENTITY"; al_payload := payload;
       al_signature := signMessage key payload |} extra Hextra) as E.
  lazymatch type of E with _ = ?r => change (readChain 10 0 headers [] = r) in E end. rewrite E.
  cbn [al_type al_payload tail]. rewrite String.eqb_refl, Haddr, Hlow. cbn [negb orb].
  rewrite (followChain_signed _ owner key expiration signature r) by done. case_decide; [|done].
  rewrite (proj2 (String.eqb_neq _ _) Hhead). unfold payload, buildRequestPayload.
  rewrite toLowerCase_idem, !(toLowerCase_app (toUpperCase method)), toLowerCase_upper, <- toLowerCase_app.
  by rewrite String.eqb_refl.
Qed.
End accepted.
