(* ===== verification/Drafts.v ===== *)
(** * The drafts of scenes on the server

    [sites/packages/data/src/lib/catalyst/creator-hub/scene-drafts.ts] and
    [scene-drafts.server.ts], the route in front of them
    ([sites/packages/routes/app/routes/api.creator-hub.drafts.$.tsx]) and the transport
    by which the sync engine reaches it ([SyncEngineBridge.tsx]).

    A draft is a file in the directory of its wallet; its text is JSON.  A number is the
    text JavaScript prints of it.  Files are told apart by their paths, and paths are
    joined as [path.join] joins them, parents and all. *)

From Stdlib Require Import Ascii QArith.
From S2P Require Import Prelude JsString TextSearch SyncEngine JsonParse DebugDiff.
From S2P Require Import SceneComposite AuthChain.
Open Scope string_scope.
Open Scope list_scope.
Open Scope Z_scope.

(** ** Names of wallets and drafts *)

(** [normalizeWallet],
    sites/packages/data/src/lib/catalyst/creator-hub/scene-drafts.ts:26-28 *)
Definition normalizeWallet (wallet : string) : string := toLowerCase (trim wallet).

(** [[0-9a-f]], sites/packages/data/src/lib/catalyst/creator-hub/scene-drafts.ts:22-22 *)
Definition is_lower_hex (c : Ascii.ascii) : bool := is_hex c && bool_decide (lower_char c = c).

(** [isSafeWallet],
    sites/packages/data/src/lib/catalyst/creator-hub/scene-drafts.ts:30-32 *)
Definition isSafeWallet (wallet : string) : bool :=
  let w := normalizeWallet wallet in
  startsWith "0x" w && all_chars is_lower_hex (slice 2 w) && (String.length w =? 42)%nat.

(** The characters of [DRAFT_ID_RE],
    sites/packages/data/src/lib/catalyst/creator-hub/scene-drafts.ts:24-24 *)
Definition draft_char (c : Ascii.ascii) : bool :=
  is_alphanumeric c || bool_decide (c ∈ ["_"; "."; ","; "-"]%char).

(** [isSafeDraftId],
    sites/packages/data/src/lib/catalyst/creator-hub/scene-drafts.ts:34-41 *)
Definition isSafeDraftId (id : string) : bool :=
  (all_chars draft_char id && (1 <=? String.length id)%nat && (String.length id <=? 200)%nat) &&
  negb (includes ".." id) && negb (String.eqb id ".").

(** ** The store *)

(** A path from the root of the file system: the names on the way. *)
Abbreviation Path := (list string).

(** The texts of all files, by their paths; a temporary file is not among them. *)
Abbreviation Disk := (gmap Path string).

(** One name of a path that is joined to another: nothing and [.] stay where they are,
    [..] goes to the parent, if there is one. *)
Definition enter (base : Path) (name : string) : Path :=
  if String.eqb name "" || String.eqb name "." then base
  else if String.eqb name ".." then take (pred (length base)) base
  else base ++ [name].

(** [path.join(base, s)]: the names between the slashes, one after the other. *)
Definition path_join (base : Path) (s : string) : Path := foldl enter base (split "/"%char s).

(** The name of a file that is directly in a directory. *)
Definition nameIn (dir p : Path) : option string :=
  if decide (take (length dir) p = dir)
  then match drop (length dir) p with [name] => Some name | _ => None end else None.

(** [fs.readdir]: the names of the files in a directory.  The program makes no
    directories but those of wallets, so none is among them. *)
Definition readdir (d : Disk) (dir : Path) : list string :=
  elements (set_omap (nameIn dir) (dom d : gset Path) : gset string).

(** [draftsRoot]: a path that the environment of the server gives. *)
Class DraftsRoot := draftsRoot : Path.

Section drafts.
Context `{Web, DraftsRoot}.

(** [StoredFile],
    sites/packages/data/src/lib/catalyst/creator-hub/scene-drafts.server.ts:30-30 *)
Record StoredFile := {
  sf_meta : list (string * Json);
  sf_version : string;
  sf_blob : Json
}.

(** [PutDraftInput],
    sites/packages/data/src/lib/catalyst/creator-hub/scene-drafts.ts:15-20 *)
Record PutDraftInput := {
  pi_baseVersion : string;
  pi_hash : string;
  pi_blob : Json;
  pi_title : option string
}.

(** [PutResult],
    sites/packages/data/src/lib/catalyst/creator-hub/scene-drafts.ts:11-13 *)
Inductive PutResult :=
  | PutOk (meta : list (string * Json))
  | PutConflict (server : list (string * Json)).

(** [walletDir], or its error,
    sites/packages/data/src/lib/catalyst/creator-hub/scene-drafts.server.ts:38-42 *)
Definition walletDir (wallet : string) : string + Path :=
  let w := normalizeWallet wallet in
  if negb (isSafeWallet w) then inl "invalid wallet" else inr (path_join draftsRoot w).

(** [draftPath], or its error,
    sites/packages/data/src/lib/catalyst/creator-hub/scene-drafts.server.ts:44-47 *)
Definition draftPath (wallet id : string) : string + Path :=
  if negb (isSafeDraftId id) then inl "invalid draft id"
  else match walletDir wallet with
       | inl err => inl err
       | inr dir => inr (path_join dir (id +:+ ".json"))
       end.

(** The text of a file that is read as a draft,
    sites/packages/data/src/lib/catalyst/creator-hub/scene-drafts.server.ts:60-73 *)
Definition parseStored (raw : string) : option StoredFile :=
  match JSON_parse_text numberText raw with
  | Some (JObject parsed) =>
      match prop "meta" parsed with
      | Some (JObject meta) =>
          match prop "version" meta with
          | Some (JNumber version) =>
              Some {| sf_meta := meta; sf_version := version;
                      sf_blob := default JUndefined (prop "blob" parsed) |}
          | _ => None
          end
      | _ => None
      end
  | _ => None
  end.

(** [readStored],
    sites/packages/data/src/lib/catalyst/creator-hub/scene-drafts.server.ts:49-74 *)
Definition readStored (d : Disk) (wallet id : string) : string + option StoredFile :=
  match draftPath wallet id with
  | inl err => inl err
  | inr p => inr (raw ← d !! p; parseStored raw)
  end.

(** [{ ...meta, blob }] *)
Definition draftOf (stored : StoredFile) : list (string * Json) :=
  assignKey "blob" (sf_blob stored) (sf_meta stored).

(** [b.updatedAt - a.updatedAt <= 0], or no number. *)
Definition notOlder (a b : list (string * Json)) : Prop :=
  match prop "updatedAt" a, prop "updatedAt" b with
  | Some (JNumber x), Some (JNumber y) =>
      match Number x, Number y with
      | Some x, Some y => Qle_bool y x = true
      | _, _ => True
      end
  | _, _ => True
  end.

#[export] Instance notOlder_dec a b : Decision (notOlder a b).
Proof. unfold notOlder. repeat case_match; apply _. Defined.

(** [listDrafts],
    sites/packages/data/src/lib/catalyst/creator-hub/scene-drafts.server.ts:76-95 *)
Definition listDrafts (d : Disk) (wallet : string) : list (list (string * Json)) :=
  if negb (isSafeWallet wallet) then []
  else match walletDir wallet with
  | inl _ => []
  | inr dir =>
      let names := readdir d dir in
      let ids := omap (λ name,
        let n := (String.length name - 5)%nat in
        if String.eqb (slice n name) ".json" then Some (substr 0 n name) else None) names in
      merge_sort notOlder
        (omap (λ id, match readStored d wallet id with
                     | inr (Some stored) => Some (sf_meta stored)
                     | _ => None
                     end) (filter (λ id, isSafeDraftId id = true) ids))
  end.

(** [getDraft],
    sites/packages/data/src/lib/catalyst/creator-hub/scene-drafts.server.ts:97-105 *)
Definition getDraft (d : Disk) (wallet id : string) : option (list (string * Json)) :=
  if negb (isSafeWallet wallet) || negb (isSafeDraftId id) then None
  else match readStored d wallet id with
       | inr (Some stored) => Some (draftOf stored)
       | _ => None
       end.

(** [input.title ?? existing?.meta.title ?? ""] *)
Definition titleOr (title : option string) (existing : option StoredFile) : Json :=
  match title, existing with
  | Some t, _ => JString t
  | None, Some stored =>
      match prop "title" (sf_meta stored) with
      | None | Some JNull | Some JUndefined => JString ""
      | Some t => t
      end
  | None, None => JString ""
  end.

(** The file a put makes of the one it read,
    sites/packages/data/src/lib/catalyst/creator-hub/scene-drafts.server.ts:124-132 *)
Definition nextFile (id : string) (input : PutDraftInput) (existing : option StoredFile) (now : Z)
    : StoredFile :=
  let version := match existing with Some e => numberSucc (sf_version e) | None => "1" end in
  {| sf_meta := [("id", JString id); ("hash", JString (pi_hash input));
                 ("version", JNumber version); ("updatedAt", number now);
                 ("title", titleOr (pi_title input) existing)];
     sf_version := version;
     sf_blob := pi_blob input |}.

(** The text of a file,
    sites/packages/data/src/lib/catalyst/creator-hub/scene-drafts.server.ts:138-138 *)
Definition fileText (file : StoredFile) : string :=
  JSON_stringify (JObject [("meta", JObject (sf_meta file)); ("blob", sf_blob file)]).

(** [fs.rename] of a temporary file that holds a text. *)
Definition renameTo (p : Path) (text : string) (d : Disk) : Disk := <[p := text]> d.

(** What [putDraft] does after it has read the file: the awaits before it renames its
    temporary file change nothing that others read.
    sites/packages/data/src/lib/catalyst/creator-hub/scene-drafts.server.ts:115-141 *)
Definition putFinish (d : Disk) (wallet id : string) (input : PutDraftInput)
    (existing : option StoredFile) (now : Z) : (string + PutResult) * Disk :=
  let write :=
    let file := nextFile id input existing now in
    match draftPath wallet id with
    | inl err => (inl err, d)
    | inr p => (inr (PutOk (sf_meta file)), renameTo p (fileText file) d)
    end in
  match existing with
  | Some stored =>
      if String.eqb (sf_version stored) (pi_baseVersion input) then write
      else (inr (PutConflict (draftOf stored)), d)
  | None => write
  end.

(** [putDraft], while nothing else writes,
    sites/packages/data/src/lib/catalyst/creator-hub/scene-drafts.server.ts:107-142 *)
Definition putDraft (d : Disk) (wallet id : string) (input : PutDraftInput) (now : Z)
    : (string + PutResult) * Disk :=
  if negb (isSafeWallet wallet) then (inl "invalid wallet", d)
  else if negb (isSafeDraftId id) then (inl "invalid draft id", d)
  else match readStored d wallet id with
       | inl err => (inl err, d)
       | inr existing => putFinish d wallet id input existing now
       end.

(** Puts of one wallet that run at once: each has read its file and has yet to write. *)
Record RunningPut := { rp_id : string; rp_input : PutDraftInput; rp_existing : option StoredFile }.

Record Puts := { ps_disk : Disk; ps_running : list RunningPut; ps_answers : list PutResult }.

(** A put is called, up to the await of its first read,
    sites/packages/data/src/lib/catalyst/creator-hub/scene-drafts.server.ts:112-115 *)
Definition startPut (wallet id : string) (input : PutDraftInput) (s : Puts) : Puts :=
  if negb (isSafeWallet wallet) || negb (isSafeDraftId id) then s
  else match readStored (ps_disk s) wallet id with
       | inl _ => s
       | inr existing =>
           {| ps_disk := ps_disk s;
              ps_running := ps_running s ++
                [{| rp_id := id; rp_input := input; rp_existing := existing |}];
              ps_answers := ps_answers s |}
       end.

(** The put of a number writes its file, or refuses,
    sites/packages/data/src/lib/catalyst/creator-hub/scene-drafts.server.ts:116-141 *)
Definition endPut (wallet : string) (n : nat) (now : Z) (s : Puts) : Puts :=
  match ps_running s !! n with
  | None => s
  | Some put =>
      let '(answer, d) := putFinish (ps_disk s) wallet (rp_id put) (rp_input put)
                            (rp_existing put) now in
      {| ps_disk := d;
         ps_running := take n (ps_running s) ++ drop (S n) (ps_running s);
         ps_answers := ps_answers s ++ match answer with inr r => [r] | inl _ => [] end |}
  end.

(** ** The route *)

(** A response: its status, its headers and its text. *)
Record Response := { rs_status : Z; rs_headers : list (string * string); rs_body : string }.

(** [json],
    sites/packages/routes/app/routes/api.creator-hub.drafts.$.tsx:15-28 *)
Definition json (status : Z) (body : Json) (extraHeaders : list (string * string)) : Response :=
  {| rs_status := status;
     rs_headers := foldl (λ h '(k, v), setKey k v h)
       [("content-type", "application/json"); ("cache-control", "no-store")] extraHeaders;
     rs_body := JSON_stringify body |}.

Definition jsonError (status : Z) (error : string) : Response :=
  json status (JObject [("error", JString error)]) [].

(** [draftId],
    sites/packages/routes/app/routes/api.creator-hub.drafts.$.tsx:30-32 *)
Definition draftId (splat : option string) : string := trim (default "" splat).

(** [Number.isInteger(n) && n >= 0] *)
Definition isNatural (n : string) : bool :=
  match Number n with
  | Some q => Qle_bool 0 q && (Qden (Qred q) =? 1)%positive
  | None => false
  end.

(** [parsePutBody], its error or the input,
    sites/packages/routes/app/routes/api.creator-hub.drafts.$.tsx:38-65 *)
Definition parsePutBody (body : Json) : string + PutDraftInput :=
  match body with
  | JObject _ | JArray _ =>
      let b := match body with JObject b => b | _ => [] end in
      match prop "baseVersion" b with
      | Some (JNumber baseVersion) =>
          if negb (isNatural baseVersion) then inl "baseVersion must be a non-negative integer"
          else match prop "hash" b with
          | Some (JString hash) =>
              if String.eqb hash "" || (512 <? String.length hash)%nat
              then inl "hash must be a non-empty string"
              else match prop "blob" b with
              | None => inl "blob is required"
              | Some blob =>
                  let value title := {| pi_baseVersion := baseVersion; pi_hash := hash;
                                        pi_blob := blob; pi_title := title |} in
                  match prop "title" b with
                  | None => inr (value None)
                  | Some (JString title) =>
                      if (512 <? String.length title)%nat then inl "title must be a string"
                      else inr (value (Some title))
                  | Some _ => inl "title must be a string"
                  end
              end
          | _ => inl "hash must be a non-empty string"
          end
      | _ => inl "baseVersion must be a non-negative integer"
      end
  | _ => inl "body must be a JSON object"
  end.

(** [loader],
    sites/packages/routes/app/routes/api.creator-hub.drafts.$.tsx:67-80 *)
Definition loader (d : Disk) (request : Request) (splat : option string) (now : Z) : Response :=
  match verifyAuthChainRequest now DEFAULT_MAX_AGE_MS request with
  | AuthError status err => jsonError status err
  | AuthOk wallet =>
      let id := draftId splat in
      if String.eqb id "" then
        json 200 (JObject [("drafts", JArray (map JObject (listDrafts d wallet)))]) []
      else if negb (isSafeDraftId id) then jsonError 400 "invalid draft id"
      else match getDraft d wallet id with
           | None => jsonError 404 "draft not found"
           | Some draft => json 200 (JObject draft) []
           end
  end.

Definition putResultJson (result : PutResult) : Json :=
  match result with
  | PutOk meta => JObject [("ok", JBool true); ("meta", JObject meta)]
  | PutConflict server =>
      JObject [("ok", JBool false); ("conflict", JBool true); ("server", JObject server)]
  end.

(** [action],
    sites/packages/routes/app/routes/api.creator-hub.drafts.$.tsx:82-114 *)
Definition action (d : Disk) (request : Request) (splat : option string) (now : Z)
    : Response * Disk :=
  if negb (String.eqb (toUpperCase (rq_method request)) "PUT") then
    (json 405 (JObject [("error", JString "method not allowed")]) [("Allow", "PUT")], d)
  else match verifyAuthChainRequest now DEFAULT_MAX_AGE_MS request with
  | AuthError status err => (jsonError status err, d)
  | AuthOk wallet =>
      let id := draftId splat in
      if String.eqb id "" then (jsonError 400 "draft id is required", d)
      else if negb (isSafeDraftId id) then (jsonError 400 "invalid draft id", d)
      else match JSON_parse_text numberText (rq_body request) with
      | None => (jsonError 400 "invalid JSON body", d)
      | Some body =>
          match parsePutBody body with
          | inl err => (jsonError 400 err, d)
          | inr value =>
              match putDraft d wallet id value now with
              | (inl message, d) => (jsonError 400 message, d)
              | (inr result, d) =>
                  (json match result with PutOk _ => 200 | PutConflict _ => 409 end
                     (putResultJson result) [], d)
              end
          end
      end
  end.

(** ** The transport of the sync engine *)

Definition draftsPath : string := "/api/creator-hub/drafts/".

(** A version in an answer; the server sends integers. *)
Definition versionIn (v : option Json) : option Z :=
  match v with Some (JNumber n) => keyEntity n | _ => None end.

(** What the transport sends,
    sites/packages/features/src/components/creator-hub/SyncEngineBridge.tsx:16-23 *)
Definition draftRequest (headers : list (string * string)) (p : Push) : Request := {|
  rq_headers := headers ++ [("content-type", "application/json")];
  rq_method := "PUT";
  rq_path := draftsPath +:+ p_id p;
  rq_body := JSON_stringify (JObject [
    ("baseVersion", number (p_baseVersion p)); ("hash", JString (p_hash p));
    ("title", match p_title p with Some t => JString t | None => JUndefined end);
    ("blob", p_blob p)])
|}.

(** What it makes of the response; a response that is no JSON makes it fail.
    sites/packages/features/src/components/creator-hub/SyncEngineBridge.tsx:25-32 *)
Definition pushResultOf (res : Response) : SyncEngine.PushResult :=
  let field (k : string) (v : option Json) : option Json :=
    match v with Some (JObject o) => prop k o | _ => None end in
  let body := JSON_parse_text numberText (rs_body res) in
  if rs_status res =? 409 then
    match body with
    | None | Some JNull => PushFailed
    | _ => PushConflict (versionIn (field "version" (field "server" body)))
             (default JUndefined (field "blob" (field "server" body)))
    end
  else if negb ((200 <=? rs_status res) && (rs_status res <=? 299)) then PushFailed
  else match body with
       | None | Some JNull => PushFailed
       | _ => PushOk (versionIn (field "version" (field "meta" body)))
       end.

(** The transport and the server, for a draft whose name is plain in a URL: the
    request is signed at one time and served at another.
    sites/packages/features/src/components/creator-hub/SyncEngineBridge.tsx:12-33 *)
Definition draftsTransport (identity : option AuthIdentity) (signedAt servedAt : Z) (p : Push)
    (d : Disk) : SyncEngine.PushResult * Disk :=
  match identity with
  | None => (PushFailed, d)
  | Some identity =>
      match signRequest identity "PUT" (draftsPath +:+ p_id p) (JObject []) signedAt with
      | None => (PushFailed, d)
      | Some headers =>
          let '(res, d) := action d (draftRequest headers p) (Some (p_id p)) servedAt in
          (pushResultOf res, d)
      end
  end.
End drafts.
