(* ===== verification/DraftsProofs.v ===== *)
(** * Drafts are kept as they were put

    Files hold what was put, and the paths that requests reach are those of the
    directory of the wallet they are accepted for.  The store of drafts, behind its route and the transport, is a server
    the sync engine can rely on: when the engine says that all is synced, the disk
    holds the scenes. *)

From Stdlib Require Import Ascii QArith.
From S2P Require Import Prelude JsString SyncEngine SyncProofs SyncSystemProofs.
From S2P Require Import JsonParse JsonProofs DebugDiff SceneComposite DebugDiffProofs.
From S2P Require Import SceneProofs SceneTree TextSearch AuthChain AuthProofs Drafts.
Open Scope string_scope.
Open Scope list_scope.
Open Scope Z_scope.

(** ** Names *)

Lemma all_chars_app_inv p s t : all_chars p (s +:+ t) = true → all_chars p s = true ∧ all_chars p t = true.
Proof. rewrite all_chars_app. by intros ?%andb_true_iff. Qed.

Lemma isSafeDraftId_chars id : isSafeDraftId id = true → all_chars draft_char id = true ∧ id ≠ "".
Proof.
  unfold isSafeDraftId. rewrite !andb_true_iff. intros [[[[H1 H2] _] _] _].
  split; [done|]. by intros ->.
Qed.

Lemma draft_char_solid c : draft_char c = true → is_blank c = false ∧ c ≠ slash ∧ c ≠ "?"%char.
Proof. by destruct c as [[] [] [] [] [] [] [] []]. Qed.

Lemma draftId_safe id : isSafeDraftId id = true → draftId (Some id) = id.
Proof.
  intros [Hid _]%isSafeDraftId_chars. apply trim_solid. revert Hid. apply all_chars_impl.
  intros c Hc. by destruct (draft_char_solid c Hc) as [-> _].
Qed.

Lemma hex_solid c : is_hex c = true → is_blank c = false.
Proof. by destruct c as [[] [] [] [] [] [] [] []]. Qed.

Lemma lower_hex c : is_hex c = true → is_lower_hex (lower_char c) = true.
Proof. by destruct c as [[] [] [] [] [] [] [] []]. Qed.

(** The wallets of accepted requests are directories as they are. *)
Lemma address_wallet a : isEthAddress a = true →
  isSafeWallet (toLowerCase a) = true ∧ normalizeWallet (toLowerCase a) = toLowerCase a.
Proof.
  intros Ha. destruct (isEthAddress_shape _ Ha) as (h & -> & Hh & Hl).
  assert (all_chars is_lower_hex (toLowerCase h) = true) as Hlow.
  { clear Hl Ha. induction h as [|c h IH]; [done|]. simpl in *. apply andb_true_iff in Hh as [Hc Hh].
    by rewrite lower_hex, IH. }
  assert (normalizeWallet (toLowerCase ("0x" +:+ h)) = toLowerCase ("0x" +:+ h)) as Hn.
  { unfold normalizeWallet. rewrite trim_solid, toLowerCase_idem; [done|].
    apply (all_chars_lower h) in Hh. revert Hh. simpl. apply all_chars_impl. intros c Hc.
    by rewrite hex_solid. }
  split; [|done]. unfold isSafeWallet. rewrite Hn, !andb_true_iff. split_and!.
  - unfold startsWith. simpl. by destruct (toLowerCase _).
  - exact Hlow.
  - apply Nat.eqb_eq. rewrite toLowerCase_length. change (S (S (String.length h)) = 42%nat). by rewrite Hl.
Qed.

(** ** Paths *)

Lemma lacks_chars c s : all_chars (λ x, negb (Ascii.eqb x c)) s = true → lacks c s.
Proof.
  induction s as [|x s IH]; [done|]. simpl. rewrite andb_true_iff, negb_true_iff.
  intros [Hx Hs]. split; [by apply Ascii.eqb_neq|auto].
Qed.

(** A name without slashes that is no name of a place is one step down. *)
Lemma path_join_plain base s :
  all_chars (λ x, negb (Ascii.eqb x slash)) s = true → s ≠ "" → s ≠ "." → s ≠ ".." →
  path_join base s = base ++ [s].
Proof.
  intros Hs H0 H1 H2. unfold path_join. rewrite split_lacks by by apply lacks_chars.
  simpl. unfold enter. by rewrite !(proj2 (String.eqb_neq _ _)) by done.
Qed.

Lemma hex_plain c : is_lower_hex c = true → negb (Ascii.eqb c slash) = true.
Proof. by destruct c as [[] [] [] [] [] [] [] []]. Qed.

Lemma draft_plain c : draft_char c = true → negb (Ascii.eqb c slash) = true.
Proof. by destruct c as [[] [] [] [] [] [] [] []]. Qed.

Lemma startsWith_split p s : startsWith p s = true → ∃ t, s = p +:+ t.
Proof.
  unfold startsWith. revert s. induction p as [|a p IH]; intros s; [by exists s|].
  destruct s as [|b s]; [done|]. simpl. destruct (Ascii.ascii_dec a b) as [<-|]; [|done].
  intros [t ->]%IH. by exists t.
Qed.

Lemma walletDir_plain base w : isSafeWallet w = true → path_join base (normalizeWallet w) =
  base ++ [normalizeWallet w].
Proof.
  unfold isSafeWallet. set (n := normalizeWallet w).
  rewrite !andb_true_iff. intros [[Hx Hh] Hl%Nat.eqb_eq].
  apply startsWith_split in Hx as [h Hn].
  rewrite Hn in *. apply path_join_plain; [|done..]. simpl. simpl in Hh. revert Hh.
  apply all_chars_impl, hex_plain.
Qed.

Lemma draftName_plain base id :
  isSafeDraftId id = true → path_join base (id +:+ ".json") = base ++ [id +:+ ".json"].
Proof.
  intros [Hc _]%isSafeDraftId_chars. apply path_join_plain.
  - rewrite all_chars_app, andb_true_iff. split; [|done]. revert Hc. apply all_chars_impl, draft_plain.
  - by destruct id.
  - by destruct id as [|? []].
  - by destruct id as [|? [|? []]].
Qed.

Lemma nameIn_Some dir p name : nameIn dir p = Some name ↔ p = dir ++ [name].
Proof.
  unfold nameIn. split.
  - case_decide as Hd; [|done]. destruct (drop _ p) as [|n []] eqn:E; [done| |done].
    intros [= ->]. by rewrite <- (take_drop (length dir) p), Hd, E.
  - intros ->. by rewrite take_app_length, drop_app_length, decide_True.
Qed.

Lemma elem_of_readdir d dir name : name ∈ readdir d dir ↔ is_Some (d !! (dir ++ [name])).
Proof.
  unfold readdir. rewrite elem_of_elements, elem_of_set_omap. split.
  - intros (p & Hp%elem_of_dom & ->%nameIn_Some). done.
  - intros Hp. exists (dir ++ [name]). by rewrite elem_of_dom, nameIn_Some.
Qed.

(** What is listed depends on the files of the directory only. *)
Lemma readdir_ext d d' dir :
  (∀ name, d' !! (dir ++ [name]) = d !! (dir ++ [name])) → readdir d' dir = readdir d dir.
Proof.
  intros Hd. unfold readdir. f_equal. apply leibniz_equiv. intros name.
  rewrite <- !(elem_of_elements _ name). fold (readdir d' dir) (readdir d dir).
  by rewrite !elem_of_readdir, Hd.
Qed.

(** ** Files *)

Section files.
Context `{WebLaws, DraftsRoot}.
Local Abbreviation kept := (kept numberText).

Lemma kept_safe z : 0 ≤ z ≤ MAX_SAFE → kept (number z).
Proof. apply kept_number, numberText_pretty. Qed.

(** What a put leaves in a file. *)
Inductive stored_ok : StoredFile → Prop :=
  | stored_as id hash n t title blob :
      1 ≤ n ≤ MAX_SAFE → 0 ≤ t ≤ MAX_SAFE → kept title → kept blob →
      stored_ok {|
        sf_meta := [("id", JString id); ("hash", JString hash); ("version", number n);
                    ("updatedAt", number t); ("title", title)];
        sf_version := pretty n; sf_blob := blob |}.

Lemma stored_meta_kept s : stored_ok s → kept (JObject (sf_meta s)).
Proof.
  intros [id hash n t title blob Hn Ht Htitle _]. simpl.
  apply kept_record; [decided|by repeat constructor|].
  repeat (apply Forall_cons_2; [(by apply kept_leaf) || done || (apply kept_safe; lia)|]). constructor.
Qed.

Lemma file_kept s : stored_ok s →
  kept (JObject [("meta", JObject (sf_meta s)); ("blob", sf_blob s)]).
Proof.
  intros Hs. apply kept_record; [decided|by repeat constructor|].
  apply Forall_cons_2; [by apply stored_meta_kept|].
  apply Forall_cons_2; [by destruct Hs|constructor].
Qed.

Lemma parseStored_fileText s : stored_ok s → parseStored (fileText s) = Some s.
Proof.
  intros Hs. unfold parseStored, fileText.
  rewrite (JSON_parse_stringify numberText) by by apply file_kept. by destruct Hs.
Qed.

Lemma draftOf_ok s : stored_ok s →
  kept (JObject (draftOf s)) ∧ prop "blob" (draftOf s) = Some (sf_blob s) ∧
  prop "version" (draftOf s) = Some (JNumber (sf_version s)).
Proof.
  intros Hs. pose proof (stored_meta_kept s Hs) as (Hnd & _ & Hk)%kept_object_inv.
  destruct (assignKey_ok "blob" (sf_blob s) (sf_meta s) Hnd) as (Hnd' & Hord & _).
  unfold draftOf. rewrite !prop_assignKey by done. split_and!; [|done|by destruct Hs].
  apply kept_object; [done..|]. apply Forall_forall. intros q Hq.
  apply elem_of_assignKey in Hq as [->|Hq]; [by destruct Hs| |done].
  rewrite Forall_forall in Hk. auto.
Qed.

(** Every file is what a put left. *)
Definition disk_ok (d : Disk) : Prop :=
  ∀ p text, d !! p = Some text → ∃ s, stored_ok s ∧ text = fileText s.

Lemma disk_ok_rename d p s :
  disk_ok d → stored_ok s → disk_ok (renameTo p (fileText s) d).
Proof.
  intros Hd Hs p' text Ht. unfold renameTo in Ht.
  apply lookup_insert_Some in Ht as [[_ <-]|[_ Hp]]; [by exists s|by apply (Hd p')].
Qed.

(** ** Reading and putting *)

(** The file of a draft in the directory of a wallet. *)
Definition draftFile (wallet id : string) : Path := draftsRoot ++ [wallet; id +:+ ".json"].

Definition fileOf (d : Disk) (wallet id : string) : option StoredFile :=
  raw ← d !! draftFile wallet id; parseStored raw.

Lemma draftFile_inj w w' id id' : draftFile w id = draftFile w' id' → w' = w ∧ id' = id.
Proof.
  intros E%(inj (app draftsRoot)). injection E as -> E. by split; [|apply app_inj_l in E].
Qed.

(** The place of a safe draft. *)
Lemma draftPath_safe wallet id :
  isSafeWallet wallet = true → isSafeDraftId id = true → normalizeWallet wallet = wallet →
  draftPath wallet id = inr (draftFile wallet id).
Proof.
  intros Hw Hid Hn. unfold draftPath, walletDir. rewrite Hid, Hn, Hw. cbn [negb].
  rewrite <- Hn at 1. rewrite walletDir_plain, Hn, draftName_plain by done.
  unfold draftFile. by rewrite <- app_assoc.
Qed.

Lemma readStored_safe d wallet id :
  isSafeWallet wallet = true → isSafeDraftId id = true → normalizeWallet wallet = wallet →
  readStored d wallet id = inr (fileOf d wallet id).
Proof.
  intros Hw Hid Hn. unfold readStored. by rewrite draftPath_safe.
Qed.

Lemma fileOf_ok d dir id s : disk_ok d → fileOf d dir id = Some s → stored_ok s.
Proof.
  intros Hd E. unfold fileOf in E. destruct (d !! draftFile dir id) as [raw|] eqn:Er; [|done].
  destruct (Hd _ _ Er) as (s' & Hs & ->). simpl in E.
  rewrite parseStored_fileText in E by done. by injection E as <-.
Qed.

Lemma fileOf_rename d dir id s dir' id' :
  stored_ok s → fileOf (renameTo (draftFile dir id) (fileText s) d) dir' id' =
  if decide (dir' = dir ∧ id' = id) then Some s else fileOf d dir' id'.
Proof.
  intros Hs. unfold fileOf, renameTo. case_decide as Hd.
  - destruct Hd as [-> ->]. rewrite lookup_insert_eq. by apply parseStored_fileText.
  - rewrite lookup_insert_ne; [done|]. intros E. by apply draftFile_inj in E.
Qed.

(** An input the transport can carry. *)
Definition input_ok (b : Z) (input : PutDraftInput) : Prop :=
  pi_baseVersion input = pretty b ∧ 0 ≤ b < MAX_SAFE ∧ kept (pi_blob input).

Lemma titleOr_kept title existing :
  (∀ s, existing = Some s → stored_ok s) → kept (titleOr title existing).
Proof.
  intros Hs. destruct title as [t|]; [by apply kept_leaf|].
  destruct existing as [s|]; [|by apply kept_leaf]. destruct (Hs s eq_refl). simpl.
  destruct title; try done; by apply kept_leaf.
Qed.

(** The file after a put that is accepted. *)
Lemma nextFile_ok id input existing now b :
  input_ok b input → 0 ≤ now ≤ MAX_SAFE → (∀ s, existing = Some s → stored_ok s) →
  (∀ s, existing = Some s → sf_version s = pretty b) →
  stored_ok (nextFile id input existing now) ∧
  sf_version (nextFile id input existing now) =
    pretty (match existing with Some _ => b + 1 | None => 1 end).
Proof.
  intros (_ & Hb & Hblob) Hnow Hs Hv. unfold nextFile.
  assert (match existing with Some e => numberSucc (sf_version e) | None => "1" end =
    pretty (match existing with Some _ => b + 1 | None => 1 end)) as ->.
  { destruct existing as [s|]; [|done]. rewrite (Hv s eq_refl). apply numberSucc_pretty. lia. }
  split; [|done]. constructor; [|done|by apply titleOr_kept|done].
  destruct existing; [|done]. lia.
Qed.

(** A put of a safe draft. *)
Lemma putDraft_safe d wallet id input now b :
  isSafeWallet wallet = true → isSafeDraftId id = true → normalizeWallet wallet = wallet →
  disk_ok d → input_ok b input → 0 ≤ now ≤ MAX_SAFE →
  let existing := fileOf d wallet id in
  let file := nextFile id input existing now in
  putDraft d wallet id input now =
    match existing with
    | Some s =>
        if String.eqb (sf_version s) (pretty b)
        then (inr (PutOk (sf_meta file)), renameTo (draftFile wallet id) (fileText file) d)
        else (inr (PutConflict (draftOf s)), d)
    | None => (inr (PutOk (sf_meta file)), renameTo (draftFile wallet id) (fileText file) d)
    end.
Proof.
  intros Hw Hid Hn Hd Hin Hnow existing file. unfold putDraft.
  rewrite Hw, Hid, readStored_safe by done. fold existing. unfold putFinish.
  rewrite draftPath_safe by done. destruct Hin as [-> _]. by destruct existing.
Qed.
End files.

(** ** Requests *)

Section requests.
Context `{Web, DraftsRoot}.

(** The wallet of an accepted request is that of the first link of its chain. *)
Lemma verify_owner now maxAge request wallet :
  verifyAuthChainRequest now maxAge request = AuthOk wallet →
  ∃ first chain, readChain 10 0 (rq_headers request) [] = inr (first :: chain) ∧
    wallet = toLowerCase (al_payload first) ∧ isEthAddress (al_payload first) = true.
Proof.
  unfold verifyAuthChainRequest. destruct (String.eqb _ ""); [done|].
  destruct (checkTimestamp _ _ _); [done|].
  destruct (readChain _ _ _ _) as [|[|first [|link links]]]; try done.
  destruct (negb _ || negb _) eqn:E; [done|].
  apply orb_false_iff in E as [_ E]. apply negb_false_iff in E.
  destruct (followChain _ _ _ _ _) as [|[payload|]]; try done.
  destruct (negb _); [done|]. intros [= <-]. by exists first, (link :: links).
Qed.

Lemma verify_status now maxAge request status err :
  verifyAuthChainRequest now maxAge request = AuthError status err → status = 401.
Proof.
  unfold verifyAuthChainRequest. destruct (String.eqb _ ""); [by intros [= <- _]|].
  destruct (checkTimestamp _ _ _); [by intros [= <- _]|].
  destruct (readChain _ _ _ _) as [|[|first [|link links]]]; try by intros [= <- _].
  destruct (negb _ || negb _); [by intros [= <- _]|].
  destruct (followChain _ _ _ _ _) as [|[payload|]]; try by intros [= <- _].
  destruct (negb _); by intros [= <- _].
Qed.

Lemma verify_wallet now maxAge request wallet :
  verifyAuthChainRequest now maxAge request = AuthOk wallet →
  isSafeWallet wallet = true ∧ normalizeWallet wallet = wallet.
Proof.
  intros (first & chain & _ & -> & Ha)%verify_owner. by apply address_wallet.
Qed.

(** What is read of a wallet is in its directory. *)
Section own_directory.
Context (d d' : Disk) (wallet : string).
Context (Hw : isSafeWallet wallet = true) (Hn : normalizeWallet wallet = wallet).
Context (Hd : ∀ name, d' !! (draftsRoot ++ [wallet; name]) = d !! (draftsRoot ++ [wallet; name])).

Lemma readStored_own id : readStored d' wallet id = readStored d wallet id.
Proof.
  destruct (isSafeDraftId id) eqn:Hid.
  - unfold readStored. rewrite draftPath_safe by done. unfold draftFile. by rewrite Hd.
  - unfold readStored, draftPath. by rewrite Hid.
Qed.

Lemma listDrafts_own : listDrafts d' wallet = listDrafts d wallet.
Proof.
  unfold listDrafts, walletDir. rewrite Hn, Hw. cbn [negb].
  pose proof (walletDir_plain draftsRoot wallet Hw) as Hdir. rewrite Hn in Hdir. rewrite Hdir.
  rewrite (readdir_ext d d').
  2: { intros name. rewrite <- app_assoc. apply Hd. }
  f_equal. lazymatch goal with |- omap _ ?l = _ => generalize l end.
  intros ids. induction ids as [|i ids IH]; [done|]. csimpl. by rewrite readStored_own, IH.
Qed.

Lemma putDraft_own id input now :
  (putDraft d' wallet id input now).1 = (putDraft d wallet id input now).1.
Proof.
  unfold putDraft. destruct (negb _); [done|]. destruct (negb _); [done|].
  rewrite readStored_own. destruct (readStored d wallet id) as [err|existing]; [done|].
  unfold putFinish. destruct (draftPath wallet id) as [err'|p]; destruct existing as [s|];
    try done; by destruct (String.eqb _ _).
Qed.

Lemma putDraft_writes id input now p :
  (putDraft d wallet id input now).2 !! p ≠ d !! p → p = draftFile wallet id.
Proof.
  unfold putDraft. rewrite Hw. cbn [negb]. destruct (isSafeDraftId id) eqn:Hid; [|done].
  cbn [negb]. rewrite readStored_safe by done. unfold putFinish. rewrite draftPath_safe by done.
  assert (∀ text, renameTo (draftFile wallet id) text d !! p ≠ d !! p → p = draftFile wallet id)
    as Hp.
  { intros text Ht. destruct (decide (p = draftFile wallet id)) as [|Hne]; [done|].
    exfalso. apply Ht. unfold renameTo. by rewrite lookup_insert_ne. }
  destruct (fileOf d wallet id) as [s|]; [destruct (String.eqb _ _); [|done]|]; apply Hp.
Qed.
End own_directory.

(** C19.  Requests stay in the directory of their wallet.  A file that one changes is
    directly in the directory of the wallet it is accepted for; and its answer depends
    on no other file: on any two disks that agree on that directory, which is any two
    when it is accepted for none, the answers are the same.  No name of a draft leads
    out of the directory. *)
Theorem drafts_isolated d request splat now :
  let mine wallet := verifyAuthChainRequest now DEFAULT_MAX_AGE_MS request = AuthOk wallet in
  (∀ p, (action d request splat now).2 !! p ≠ d !! p →
     ∃ wallet name, mine wallet ∧ p = draftsRoot ++ [wallet; name]) ∧
  ∀ d', (∀ wallet name, mine wallet →
      d' !! (draftsRoot ++ [wallet; name]) = d !! (draftsRoot ++ [wallet; name])) →
    loader d' request splat now = loader d request splat now ∧
    (action d' request splat now).1 = (action d request splat now).1.
Proof.
  intros mine. unfold action, loader, mine.
  destruct (verifyAuthChainRequest now DEFAULT_MAX_AGE_MS request) as [wallet|status err] eqn:E;
    [|by destruct (negb (String.eqb _ _))].
  destruct (verify_wallet _ _ _ _ E) as [Hw Hn].
  split; [intros p|intros d' Hd; specialize (λ name, Hd wallet name eq_refl); split].
  - destruct (negb _); [done|]. destruct (String.eqb _ _); [done|]. destruct (negb _); [done|].
    destruct (JSON_parse_text _ _) as [body|]; [|done].
    destruct (parsePutBody body) as [|value]; [done|].
    pose proof (putDraft_writes d wallet Hw Hn (draftId splat) value now p) as Hp.
    destruct (putDraft _ _ _ _ _) as [[|result] d']; intros Hne; apply Hp in Hne as ->;
      by exists wallet, (draftId splat +:+ ".json").
  - rewrite (listDrafts_own d d') by done. unfold getDraft. by rewrite (readStored_own d d').
  - destruct (negb _); [done|]. destruct (String.eqb _ _); [done|]. destruct (negb _); [done|].
    destruct (JSON_parse_text _ _) as [body|]; [|done].
    destruct (parsePutBody body) as [|value]; [done|].
    pose proof (putDraft_own d d' wallet Hw Hn Hd (draftId splat) value now) as Hk.
    destruct (putDraft _ _ _ _ _) as [r d1], (putDraft d _ _ _ _) as [r' d2]. simpl in Hk. subst.
    by destruct r'.
Qed.
End requests.

Section sync.
Context `{WebLaws, DraftsRoot}.
Local Abbreviation kept := (kept numberText).

(** The identity of the session. *)
Context (signerKey ephemeralKey : string) (created : Z) (expirationMs : option Z).
Definition session : AuthIdentity :=
  createIdentityFromPrivateKey signerKey ephemeralKey created expirationMs.
Definition sessionWallet : string := toLowerCase (privateKeyToAccount signerKey).

(** A push the transport carries as it is: its draft has a plain name, its value is one
    of JSON, and its version is one the server can still count from. *)
Definition carried (p : Push) : Prop :=
  isSafeDraftId (p_id p) = true ∧ kept (p_blob p) ∧ 0 ≤ p_baseVersion p < MAX_SAFE.

(** ** The body of a request *)

Definition bodyOf (p : Push) : Json :=
  JObject ([("baseVersion", number (p_baseVersion p)); ("hash", JString (p_hash p))] ++
    match p_title p with Some t => [("title", JString t)] | None => [] end ++
    [("blob", p_blob p)]).

Lemma body_read headers p :
  carried p → JSON_parse_text numberText (rq_body (draftRequest headers p)) = Some (bodyOf p).
Proof.
  intros (_ & Hb & Hv). assert (kept (bodyOf p)) as Hk.
  { assert (kept (number (p_baseVersion p))) by (apply kept_safe; lia).
    unfold bodyOf. destruct (p_title p); (apply kept_record; [decided|by repeat constructor|]);
      repeat (apply Forall_cons_2; [(by apply kept_leaf) || done|]); constructor. }
  rewrite <- (JSON_parse_stringify numberText _ Hk).
  assert (rq_body (draftRequest headers p) = JSON_stringify (bodyOf p)) as ->; [|done].
  apply kept_defined in Hb. unfold bodyOf, draftRequest. cbn [rq_body].
  destruct (p_title p); (destruct (p_blob p); [by destruct Hb|reflexivity..]).
Qed.

Lemma isNatural_pretty z : 0 ≤ z ≤ MAX_SAFE → isNatural (pretty z) = true.
Proof.
  intros Hz. unfold isNatural. rewrite Number_pretty by done. apply andb_true_iff. split.
  - apply Qle_bool_iff. change 0%Q with (inject_Z 0). rewrite <- Zle_Qle. lia.
  - unfold inject_Z, Qred. pose proof (Z.ggcd_gcd z 1) as Hg. pose proof (Z.ggcd_correct_divisors z 1) as Hd.
    destruct (Z.ggcd z 1) as [g [a b]]. simpl in *. rewrite Z.gcd_1_r in Hg. subst g.
    destruct Hd as [_ Hb]. assert (b = 1) as -> by lia. done.
Qed.

(** The body is refused or put as it was pushed. *)
Lemma parsePutBody_push p value :
  carried p → parsePutBody (bodyOf p) = inr value →
  value = {| pi_baseVersion := pretty (p_baseVersion p); pi_hash := p_hash p;
             pi_blob := p_blob p; pi_title := p_title p |}.
Proof.
  intros (_ & _ & Hv). unfold parsePutBody, bodyOf.
  destruct (p_title p) as [t|]; simpl; rewrite isNatural_pretty by lia; simpl;
    (destruct (_ || _); [done|]); [destruct (512 <? _)%nat; [done|]|]; by intros [= <-].
Qed.

(** ** The answer *)

Lemma pushResultOf_error status err extra :
  status = 400 ∨ status = 401 → pushResultOf (json status err extra) = PushFailed.
Proof. by intros [-> | ->]. Qed.

Lemma answer_read status body extra :
  kept body → JSON_parse_text numberText (rs_body (json status body extra)) = Some body.
Proof. apply JSON_parse_stringify. Qed.

Lemma pushResultOf_ok s n :
  stored_ok s → sf_version s = pretty n → 0 ≤ n →
  pushResultOf (json 200 (putResultJson (PutOk (sf_meta s))) []) = PushOk (Some n).
Proof.
  intros Hs Hn Hpos. unfold pushResultOf. rewrite answer_read.
  - simpl. destruct Hs. simpl in *. apply (inj pretty) in Hn as ->. by rewrite keyEntity_pretty.
  - apply kept_record; [decided|by repeat constructor|].
    apply Forall_cons_2; [by apply kept_leaf|].
    apply Forall_cons_2; [by apply stored_meta_kept|constructor].
Qed.

Lemma pushResultOf_conflict s n :
  stored_ok s → sf_version s = pretty n → 0 ≤ n →
  pushResultOf (json 409 (putResultJson (PutConflict (draftOf s))) []) =
  PushConflict (Some n) (sf_blob s).
Proof.
  intros Hs Hn Hpos. destruct (draftOf_ok s Hs) as (Hk & Hb & Hv).
  unfold pushResultOf. rewrite answer_read.
  - simpl. rewrite Hb, Hv, Hn. simpl. by rewrite keyEntity_pretty.
  - apply kept_record; [decided|by repeat constructor|].
    repeat (apply Forall_cons_2; [(by apply kept_leaf) || done|]). constructor.
Qed.

(** A request signed by the session is accepted for its wallet or not at all. *)
Lemma session_wallet signedAt headers p now wallet :
  signRequest session "PUT" (draftsPath +:+ p_id p) (JObject []) signedAt = Some headers →
  verifyAuthChainRequest now DEFAULT_MAX_AGE_MS (draftRequest headers p) = AuthOk wallet →
  wallet = sessionWallet.
Proof.
  unfold signRequest. destruct (isIdentityExpired _ _); [done|]. intros [= <-] E.
  apply verify_owner in E as (first & chain & Hc & -> & _).
  lazymatch type of Hc with readChain _ _ ?headers _ = _ =>
    assert (∃ links, readChain 10 0 headers [] = inr ({| al_type := "SIGNER";
      al_payload := sessionWallet; al_signature := "" |} :: links)) as [links Hr];
      [|rewrite Hr in Hc; injection Hc as <- _; apply toLowerCase_idem]
  end.
  eexists. exact (readChain_signed (pretty signedAt) (JSON_stringify (JObject [])) _ _ _
    [("content-type", "application/json")] eq_refl).
Qed.

(** ** The server *)

(** The disk, and the times at which the pushes to come are signed and served. *)
Record DraftServer := { ds_disk : Disk; ds_clock : list (Z * Z) }.

(** The version and the value that the file of a draft holds. *)
Definition draftDoc (d : Disk) (id : string) : option (Z * Json) :=
  s ← fileOf d sessionWallet id; n ← keyEntity (sf_version s); Some (n, sf_blob s).

#[export] Instance draft_server : VersionedServer DraftServer := {
  sv_ok s := disk_ok (ds_disk s) ∧ Forall (λ c, 0 ≤ c.1 ≤ MAX_SAFE ∧ 0 ≤ c.2 ≤ MAX_SAFE) (ds_clock s);
  sv_carries := carried;
  sv_doc s id := if isSafeDraftId id then draftDoc (ds_disk s) id else None;
  sv_push s p :=
    match ds_clock s with
    | [] => (PushFailed, s)
    | (signedAt, servedAt) :: clock =>
        let '(result, d) := draftsTransport (Some session) signedAt servedAt p (ds_disk s) in
        (result, {| ds_disk := d; ds_clock := clock |})
    end
}.

Lemma stored_version s : stored_ok s → ∃ n, 1 ≤ n ≤ MAX_SAFE ∧ sf_version s = pretty n ∧
  keyEntity (sf_version s) = Some n.
Proof.
  intros []. exists n. split; [lia|]. split; [done|]. simpl. apply keyEntity_pretty. lia.
Qed.

Lemma session_wallet_safe : isSafeWallet sessionWallet = true ∧ normalizeWallet sessionWallet = sessionWallet.
Proof. apply address_wallet, account_address. Qed.

(** What the transport answers, and what it leaves on the disk. *)
Lemma draftsTransport_spec signedAt servedAt p d :
  carried p → disk_ok d → 0 ≤ servedAt ≤ MAX_SAFE →
  let base := p_baseVersion p in
  (∃ existing file n,
     draftsTransport (Some session) signedAt servedAt p d =
       (PushOk (Some n), renameTo (draftFile sessionWallet (p_id p)) (fileText file) d) ∧
     fileOf d sessionWallet (p_id p) = existing ∧
     (∀ s, existing = Some s → sf_version s = pretty base) ∧
     stored_ok file ∧ sf_version file = pretty n ∧ 0 ≤ n ∧ sf_blob file = p_blob p) ∨
  (∃ s n, draftsTransport (Some session) signedAt servedAt p d =
       (PushConflict (Some n) (sf_blob s), d) ∧
     fileOf d sessionWallet (p_id p) = Some s ∧ sf_version s = pretty n ∧ 0 ≤ n) ∨
  draftsTransport (Some session) signedAt servedAt p d = (PushFailed, d).
Proof.
  intros Hp Hd Ht base. unfold draftsTransport.
  destruct (signRequest _ _ _ _ _) as [headers|] eqn:Hs; [|by right; right].
  unfold action. replace (negb _) with false by reflexivity.
  destruct (verifyAuthChainRequest _ _ _) as [wallet|status err] eqn:Hv; cycle 1.
  { right; right. f_equal. apply pushResultOf_error. right. by eapply verify_status. }
  rewrite (session_wallet _ _ _ _ _ Hs Hv). destruct session_wallet_safe as [Hw Hn].
  pose proof Hp as (Hid & Hblob & Hbase). rewrite draftId_safe by done.
  destruct (isSafeDraftId_chars _ Hid) as [_ Hne]. rewrite (proj2 (String.eqb_neq _ _) Hne), Hid.
  rewrite body_read by done. cbn [negb].
  destruct (parsePutBody _) as [err|value] eqn:Hval.
  { by right; right. }
  apply parsePutBody_push in Hval; [|done].
  assert (input_ok base value) as Hin by by subst.
  pose proof (putDraft_safe d sessionWallet (p_id p) value servedAt base Hw Hid Hn Hd Hin Ht) as Hput.
  cbv zeta in Hput. rewrite Hput. clear Hput.
  set (existing := fileOf d sessionWallet (p_id p)) in *.
  set (file := nextFile (p_id p) value existing servedAt).
  assert (∀ s, existing = Some s → stored_ok s) as Hex by (intros s; by apply fileOf_ok).
  assert ((∀ s, existing = Some s → sf_version s = pretty base) →
    ∃ n, stored_ok file ∧ sf_version file = pretty n ∧ 0 ≤ n ∧ sf_blob file = p_blob p) as Hfile.
  { intros Hb. destruct (nextFile_ok (p_id p) value existing servedAt base Hin Ht Hex Hb) as [Hf Hfv].
    exists (match existing with Some _ => base + 1 | None => 1 end).
    split_and!; [done|done|destruct existing; lia|by subst]. }
  destruct existing as [s|] eqn:E.
  - destruct (String.eqb_spec (sf_version s) (pretty base)) as [Hb|Hb].
    + left. destruct Hfile as (n & Hf & Hfv & Hpos & Hfb); [by intros ? [= <-]|].
      exists (Some s), file, n. rewrite (pushResultOf_ok _ n) by done.
      split_and!; try done. by intros ? [= <-].
    + right; left. destruct (stored_version s (Hex s eq_refl)) as (n & Hr & Hsv & _).
      exists s, n. rewrite (pushResultOf_conflict _ n) by (auto; lia). split_and!; [done..|lia].
  - left. destruct Hfile as (n & Hf & Hfv & Hpos & Hfb); [done|].
    exists None, file, n. rewrite (pushResultOf_ok _ n) by done. by split_and!.
Qed.

#[export] Instance draft_server_laws : ServerLaws DraftServer.
Proof.
  constructor. intros [d clock] p [Hd Hc] Hp.
  cbn [sv_ok sv_carries sv_doc sv_push draft_server ds_disk ds_clock] in *.
  pose proof Hp as (Hid & _ & _). rewrite Hid.
  destruct clock as [|[t t'] clock]; [by cbn|]. apply Forall_cons in Hc as [[_ Ht] Hc].
  destruct (draftsTransport_spec t t' p d Hp Hd Ht) as
    [(existing & file & n & -> & He & Hb & Hf & Hn & Hpos & Hfb)|[(f & n & -> & He & Hn & Hpos)| ->]];
    cbn [fst snd ds_disk ds_clock].
  - split; [split; [by apply disk_ok_rename|done]|]. unfold draftDoc. split_and!.
    + intros v. rewrite He. destruct existing as [e|]; [|done]. simpl. rewrite (Hb e eq_refl).
      rewrite keyEntity_pretty by apply Hp. by intros [= <-].
    + rewrite fileOf_rename, decide_True by done. simpl. by rewrite Hn, keyEntity_pretty, Hfb.
    + intros id Hne. by rewrite fileOf_rename, decide_False by (done || naive_solver).
  - split; [done|]. split; [|done]. exists n. split; [done|].
    unfold draftDoc. rewrite He. simpl. by rewrite Hn, keyEntity_pretty.
  - done.
Qed.

(** C8.  The editor's sync engine, a session of a wallet, the route and the store of
    drafts, others that write files and everything in between: when the summary of the
    engine says that all is synced and nothing waits for its local store, then
    [getDraft] reads, for every scene with a plain name that was saved and that
    nobody else wrote last, a draft with the local value, up to its hash, at the
    local version. *)
Theorem synced_is_on_disk net s others y id r :
  sv_ok s → rtc system_step (system_start net s others) y →
  stored (sy_engine y) → s_overall (summary (sy_engine y)) = synced →
  recs (sy_engine y) !! id = Some r → r_hash r ≠ "" → id ∉ sy_others y →
  isSafeDraftId id = true ∧
  ∃ draft blob, getDraft (ds_disk (sy_server y)) sessionWallet id = Some draft ∧
    prop "version" draft = Some (number (r_version r)) ∧ prop "blob" draft = Some blob ∧
    hashBlob blob = hashBlob (r_blob r).
Proof.
  intros Hs Hy Hst Hsum E Hne Hno.
  destruct (synced_saved net s others y id r Hs Hy Hst Hsum E Hne Hno) as [[Hd _] (blob & Hdoc & Hh)].
  simpl in Hdoc. destruct (isSafeDraftId id) eqn:Hid; [|done]. split; [done|].
  unfold draftDoc in Hdoc. destruct (fileOf _ _ _) as [f|] eqn:Hf; simpl in Hdoc; [|done].
  pose proof (fileOf_ok _ _ _ _ Hd Hf) as Hfok.
  destruct (stored_version f Hfok) as (n & _ & Hn & Hk). rewrite Hk in Hdoc. injection Hdoc as -> <-.
  destruct session_wallet_safe as [Hw Hnorm]. destruct (draftOf_ok f Hfok) as (_ & Hb & Hv).
  exists (draftOf f), (sf_blob f). unfold getDraft. rewrite Hw, Hid. cbn [negb orb].
  rewrite readStored_safe, Hf by done. split_and!; [done| |done|done]. by rewrite Hv, Hn.
Qed.
End sync.
