(* ===== verification/PairStore.v ===== *)
(** * Signing in with a phone

    [sites/packages/data/src/lib/auth/pair-store.server.ts] and the route in front of it
    ([sites/packages/routes/app/routes/internal.pair.tsx]): a browser opens a session, a
    phone signs its message, and the browser, which alone knows the session's token,
    collects the signature.

    A run of the server that does not wait takes place at one time. *)

From Stdlib Require Import Ascii QArith.
From S2P Require Import Prelude JsString TextSearch SyncEngine JsonParse DebugDiff AuthChain.
Open Scope string_scope.
Open Scope list_scope.
Open Scope Z_scope.

(** sites/packages/data/src/lib/auth/pair-store.server.ts:3-3 *)
Definition PAIR_TTL_MS : Z := 5 * 60000.
(** sites/packages/data/src/lib/auth/pair-store.server.ts:4-4 *)
Definition MAX_SESSIONS : Z := 500.

(** [PairSession], sites/packages/data/src/lib/auth/pair-store.server.ts:6-15 *)
Record PairSession := {
  pa_id : string;
  pa_pollToken : string;
  pa_ephemeral : string;
  pa_expiration : string;
  pa_message : string;
  pa_createdAt : Z;
  pa_expiresAt : Z;
  pa_completed : option (string * string)
}.

#[export] Instance eta_PairSession : Eta PairSession := λ s, {|
  pa_id := pa_id s; pa_pollToken := pa_pollToken s; pa_ephemeral := pa_ephemeral s;
  pa_expiration := pa_expiration s; pa_message := pa_message s; pa_createdAt := pa_createdAt s;
  pa_expiresAt := pa_expiresAt s; pa_completed := pa_completed s |}.

(** [PairPollResult], sites/packages/data/src/lib/auth/pair-store.server.ts:17-22 *)
Inductive PairPollResult :=
  | PollMissing
  | PollForbidden
  | PollExpired
  | PollPending
  | PollCompleted (signer signature : string).

(** [PairCompleteResult], sites/packages/data/src/lib/auth/pair-store.server.ts:24-24 *)
Inductive PairCompleteResult := CompleteOk | CompleteMissing | CompleteExpired | CompleteAlready.

Abbreviation PairSessions := (gmap string PairSession).

(** [tokenMatches], sites/packages/data/src/lib/auth/pair-store.server.ts:38-42 *)
Definition tokenMatches (a b : string) : bool := String.eqb a b.

(** ** The store *)

(** [sweep], sites/packages/data/src/lib/auth/pair-store.server.ts:47-52 *)
Definition sweep (now : Z) (sessions : PairSessions) : PairSessions :=
  filter (λ e : string * PairSession, ¬ pa_expiresAt e.2 < now) sessions.

(** [create], with the identifier and the token drawn,
    sites/packages/data/src/lib/auth/pair-store.server.ts:55-71 *)
Definition pairCreate (id pollToken ephemeral expiration message : string) (now : Z)
    (sessions : PairSessions) : option PairSession * PairSessions :=
  let sessions := sweep now sessions in
  if decide (MAX_SESSIONS ≤ Z.of_nat (size sessions)) then (None, sessions)
  else
    let session := {| pa_id := id; pa_pollToken := pollToken; pa_ephemeral := ephemeral;
                      pa_expiration := expiration; pa_message := message; pa_createdAt := now;
                      pa_expiresAt := now + PAIR_TTL_MS; pa_completed := None |} in
    (Some session, <[id := session]> sessions).

(** [get], sites/packages/data/src/lib/auth/pair-store.server.ts:72-75 *)
Definition pairGet (id : string) (now : Z) (sessions : PairSessions)
    : option PairSession * PairSessions :=
  let sessions := sweep now sessions in (sessions !! id, sessions).

(** [complete], sites/packages/data/src/lib/auth/pair-store.server.ts:76-87 *)
Definition pairComplete (id signer signature : string) (now : Z) (sessions : PairSessions)
    : PairCompleteResult * PairSessions :=
  let sessions := sweep now sessions in
  match sessions !! id with
  | None => (CompleteMissing, sessions)
  | Some s =>
      if decide (pa_expiresAt s < now) then (CompleteExpired, delete id sessions)
      else match pa_completed s with
           | Some _ => (CompleteAlready, sessions)
           | None => (CompleteOk, <[id := s <| pa_completed := Some (signer, signature) |>]> sessions)
           end
  end.

(** [poll], sites/packages/data/src/lib/auth/pair-store.server.ts:88-100 *)
Definition pairPoll (id pollToken : string) (now : Z) (sessions : PairSessions)
    : PairPollResult * PairSessions :=
  let sessions := sweep now sessions in
  match sessions !! id with
  | None => (PollMissing, sessions)
  | Some s =>
      if negb (tokenMatches pollToken (pa_pollToken s)) then (PollForbidden, sessions)
      else if decide (pa_expiresAt s < now) then (PollExpired, delete id sessions)
      else match pa_completed s with
           | None => (PollPending, sessions)
           | Some (signer, signature) => (PollCompleted signer signature, delete id sessions)
           end
  end.

(** [cancel], sites/packages/data/src/lib/auth/pair-store.server.ts:101-106 *)
Definition pairCancel (id pollToken : string) (sessions : PairSessions) : bool * PairSessions :=
  match sessions !! id with
  | Some s => if tokenMatches pollToken (pa_pollToken s) then (true, delete id sessions)
              else (false, sessions)
  | None => (false, sessions)
  end.

(** ** The limit on sessions opened *)

(** sites/packages/data/src/lib/auth/pair-store.server.ts:112-112 *)
Definition RATE_WINDOW_MS : Z := 5 * 60000.
(** sites/packages/data/src/lib/auth/pair-store.server.ts:113-113 *)
Definition RATE_MAX_CREATES : Z := 30.

(** sites/packages/data/src/lib/auth/pair-store.server.ts:114-114 *)
Record RateBucket := { rb_windowStart : Z; rb_count : Z }.

Abbreviation RateBuckets := (gmap string RateBucket).

(** [allowPairCreate], sites/packages/data/src/lib/auth/pair-store.server.ts:116-129 *)
Definition allowPairCreate (ip : string) (now : Z) (buckets : RateBuckets) : bool * RateBuckets :=
  let old (b : RateBucket) := RATE_WINDOW_MS < now - rb_windowStart b in
  let buckets :=
    if decide (10000 < Z.of_nat (size buckets))
    then filter (λ e : string * RateBucket, ¬ (RATE_WINDOW_MS < now - rb_windowStart e.2)) buckets
    else buckets in
  let fresh := (true, <[ip := {| rb_windowStart := now; rb_count := 1 |}]> buckets) in
  match buckets !! ip with
  | None => fresh
  | Some b =>
      if decide (old b) then fresh
      else
        let b := {| rb_windowStart := rb_windowStart b; rb_count := rb_count b + 1 |} in
        (bool_decide (rb_count b ≤ RATE_MAX_CREATES), <[ip := b]> buckets)
  end.

(** ** The route *)

Section pair.
Context `{Web}.

(** [[A-Za-z0-9_-]] *)
Definition token_char (c : Ascii.ascii) : bool :=
  is_alphanumeric c || bool_decide (c ∈ ["_"; "-"]%char).

Definition sized (low high : nat) (s : string) : bool :=
  (low <=? String.length s)%nat && (String.length s <=? high)%nat.

(** [ID_RE.test], sites/packages/routes/app/routes/internal.pair.tsx:7-7 *)
Definition isPairId (s : string) : bool := all_chars token_char s && sized 20 64 s.
(** [SIG_RE.test], sites/packages/routes/app/routes/internal.pair.tsx:9-9 *)
Definition isSignature (s : string) : bool :=
  startsWith "0x" s && all_chars is_hex (slice 2 s) && sized 132 262 s.
(** [TOKEN_RE.test], sites/packages/routes/app/routes/internal.pair.tsx:10-10 *)
Definition isPollToken (s : string) : bool := all_chars token_char s && sized 20 128 s.
(** sites/packages/routes/app/routes/internal.pair.tsx:11-11 *)
Definition MAX_EXPIRATION_MS : Z := 31 * 24 * 60 * 60 * 1000.

(** A number of two digits, or three, in a range, before a dot. *)
Definition octetIn (low high : Z) (s : string) : bool :=
  match span is_digit s with
  | (n, String "." _) =>
      match parseInt n with
      | Some z => bool_decide (pretty z = n ∧ low ≤ z ≤ high)
      | None => false
      end
  | _ => false
  end.

(** [PRIVATE_HOP.test], sites/packages/routes/app/routes/internal.pair.tsx:20-21 *)
Definition isPrivateHop (s : string) : bool :=
  let l := toLowerCase s in
  let rest p := default "" (after p l) in
  startsWith "127." l || startsWith "10." l || startsWith "192.168." l ||
  octetIn 16 31 (rest "172.") || octetIn 64 127 (rest "100.") ||
  String.eqb l "::1" || startsWith "fc" l || startsWith "fd" l.

(** [clientIp], sites/packages/routes/app/routes/internal.pair.tsx:23-32 *)
Definition clientIp (headers : list (string * string)) : string :=
  let hops := filter (λ s, s ≠ "") (map trim (split comma (default "" (prop "x-forwarded-for" headers)))) in
  default "local" (List.find (λ hop, negb (isPrivateHop hop)) (reverse hops)).

(** An answer of the route, or the exception of [body.kind] for a body that is [null]. *)
Inductive PairAnswer :=
  | PairJson (status : Z) (body : Json)
  | PairEmpty (status : Z)
  | PairThrown.

(** A phone's completion that waits for the address of its signature. *)
Record Completion := { co_id : string; co_signer : string; co_signature : string; co_message : string }.

(** What the server keeps between runs. *)
Record PairServer := {
  pv_sessions : PairSessions;
  pv_buckets : RateBuckets;
  pv_waiting : list Completion
}.

Definition pairError (status : Z) (err : string) : PairAnswer :=
  PairJson status (JObject [("error", JString err)]).

Definition field (k : string) (body : list (string * Json)) : option string :=
  match prop k body with Some (JString s) => Some s | _ => None end.

(** A request to open a session, with the identifier and the token drawn for it,
    sites/packages/routes/app/routes/internal.pair.tsx:53-84 *)
Definition pairActionCreate (headers : list (string * string)) (body : list (string * Json))
    (id pollToken : string) (now : Z) (s : PairServer) : PairAnswer * PairServer :=
  match field "ephemeral" body with
  | Some ephemeral =>
      if negb (isEthAddress ephemeral) then (pairError 400 "bad ephemeral", s)
      else match Date_parse (default "" (field "expiration" body)) with
      | None => (pairError 400 "bad expiration", s)
      | Some exp =>
          if decide (exp ≤ now ∨ now + MAX_EXPIRATION_MS < exp)
          then (pairError 400 "bad expiration", s)
          else
            let '(allowed, buckets) := allowPairCreate (clientIp headers) now (pv_buckets s) in
            let s := {| pv_sessions := pv_sessions s; pv_buckets := buckets;
                        pv_waiting := pv_waiting s |} in
            if negb allowed then (pairError 429 "too many sessions, try again later", s)
            else
              let message := buildEphemeralMessage (toLowerCase ephemeral) exp in
              let '(session, sessions) :=
                pairCreate id pollToken (toLowerCase ephemeral) (toISOString exp) message now
                  (pv_sessions s) in
              let s := {| pv_sessions := sessions; pv_buckets := pv_buckets s;
                          pv_waiting := pv_waiting s |} in
              match session with
              | None => (pairError 429 "too many active sign-ins", s)
              | Some session =>
                  (PairJson 200 (JObject [("id", JString (pa_id session));
                     ("pollToken", JString (pa_pollToken session));
                     ("expiresAt", JString (toISOString (pa_expiresAt session)))]), s)
              end
      end
  | None => (pairError 400 "bad ephemeral", s)
  end.

(** A completion up to its [await]: [None] for its answer while it waits,
    sites/packages/routes/app/routes/internal.pair.tsx:86-105 *)
Definition pairActionComplete (body : list (string * Json)) (now : Z) (s : PairServer)
    : option PairAnswer * PairServer :=
  let id := default "" (field "id" body) in
  let signer := default "" (field "signer" body) in
  let signature := default "" (field "signature" body) in
  if negb (isPairId id) then (Some (pairError 400 "bad id"), s)
  else if negb (isEthAddress signer) then (Some (pairError 400 "bad signer"), s)
  else if negb (isSignature signature) then (Some (pairError 400 "bad signature"), s)
  else
    let '(session, sessions) := pairGet id now (pv_sessions s) in
    match session with
    | None => (Some (pairError 404 "unknown session"),
               {| pv_sessions := sessions; pv_buckets := pv_buckets s; pv_waiting := pv_waiting s |})
    | Some session =>
        (None, {| pv_sessions := sessions; pv_buckets := pv_buckets s;
                  pv_waiting := pv_waiting s ++ [{| co_id := id; co_signer := signer;
                    co_signature := signature; co_message := pa_message session |}] |})
    end.

(** The rest of the completion of a number,
    sites/packages/routes/app/routes/internal.pair.tsx:106-117 *)
Definition pairCompleted (n : nat) (now : Z) (s : PairServer) : PairAnswer * PairServer :=
  match pv_waiting s !! n with
  | None => (PairThrown, s)
  | Some c =>
      let s := {| pv_sessions := pv_sessions s; pv_buckets := pv_buckets s;
                  pv_waiting := take n (pv_waiting s) ++ drop (S n) (pv_waiting s) |} in
      match recoverMessageAddress (co_message c) (co_signature c) with
      | None => (pairError 400 "unrecoverable signature", s)
      | Some recovered =>
          if negb (String.eqb (toLowerCase recovered) (toLowerCase (co_signer c)))
          then (pairError 400 "signature does not match signer", s)
          else
            let '(result, sessions) :=
              pairComplete (co_id c) (toLowerCase (co_signer c)) (co_signature c) now (pv_sessions s) in
            let s := {| pv_sessions := sessions; pv_buckets := pv_buckets s;
                        pv_waiting := pv_waiting s |} in
            (match result with
             | CompleteMissing => pairError 404 "unknown session"
             | CompleteExpired => pairError 410 "session expired"
             | CompleteAlready => pairError 409 "already completed"
             | CompleteOk => PairJson 200 (JObject [("ok", JBool true)])
             end, s)
      end
  end.

Definition pollJson (result : PairPollResult) : PairAnswer :=
  match result with
  | PollMissing => pairError 404 "unknown session"
  | PollForbidden => pairError 403 "bad token"
  | PollExpired => PairJson 410 (JObject [("state", JString "expired")])
  | PollPending => PairJson 200 (JObject [("state", JString "pending")])
  | PollCompleted signer signature =>
      PairJson 200 (JObject [("state", JString "completed"); ("signer", JString signer);
                             ("signature", JString signature)])
  end.

(** A poll or a cancellation,
    sites/packages/routes/app/routes/internal.pair.tsx:119-139 *)
Definition pairActionPoll (cancels : bool) (body : list (string * Json)) (now : Z) (s : PairServer)
    : PairAnswer * PairServer :=
  let id := default "" (field "id" body) in
  let pollToken := default "" (field "pollToken" body) in
  let with_sessions sessions := {| pv_sessions := sessions; pv_buckets := pv_buckets s;
                                   pv_waiting := pv_waiting s |} in
  if negb (isPairId id) then (pairError 400 "bad id", s)
  else if negb (isPollToken pollToken) then (pairError 400 "bad pollToken", s)
  else if cancels then (PairEmpty 204, with_sessions (pairCancel id pollToken (pv_sessions s)).2)
  else
    let '(result, sessions) := pairPoll id pollToken now (pv_sessions s) in
    (pollJson result, with_sessions sessions).

(** [action] up to its first [await] on a signature, with what the platform drew,
    sites/packages/routes/app/routes/internal.pair.tsx:44-142 *)
Definition pairAction (request : Request) (id pollToken : string) (now : Z) (s : PairServer)
    : option PairAnswer * PairServer :=
  let answered '(a, s) := (Some a, s) in
  if negb (String.eqb (rq_method request) "POST") then (Some (pairError 405 "POST only"), s)
  else match JSON_parse_text numberText (rq_body request) with
  | None => (Some (pairError 400 "invalid JSON"), s)
  | Some JNull => (Some PairThrown, s)
  | Some parsed =>
      let body := match parsed with JObject body => body | _ => [] end in
      let kind := default "" (field "kind" body) in
      if String.eqb kind "create"
      then answered (pairActionCreate (rq_headers request) body id pollToken now s)
      else if String.eqb kind "complete" then pairActionComplete body now s
      else if String.eqb kind "poll" || String.eqb kind "cancel"
      then answered (pairActionPoll (String.eqb kind "cancel") body now s)
      else (Some (pairError 400 "unknown kind"), s)
  end.

(** The identity the browser makes of what it collected, for the key and the date of
    its session: [None] when the signature is not of the signer.
    sites/packages/data/src/lib/auth/pair.ts:89-106 *)
Definition pairedIdentity (ephemeral : EphemeralKey) (expiration : Z) (signer signature : string)
    : option AuthIdentity :=
  let message := buildEphemeralMessage (ek_address ephemeral) expiration in
  recovered ← recoverMessageAddress message signature;
  if negb (String.eqb (toLowerCase recovered) (toLowerCase signer)) then None
  else Some {|
    ai_signer := toLowerCase signer; ai_ephemeral := ephemeral;
    ai_expiration := toISOString expiration;
    ai_authChain := [
      {| al_type := "SIGNER"; al_payload := toLowerCase signer; al_signature := "" |};
      {| al_type := "ECDSA_EPHEMERAL"; al_payload := message; al_signature := signature |}] |}.
End pair.
