(* ===== verification/PairProofs.v ===== *)
(** * What a browser collects was signed for it

    Over any requests, completions that overlap included, a signature is collected at
    most once, in time, with the token of its session, and it is one of its signer
    over the message of that session.  How often sessions may be opened is bounded. *)

From Stdlib Require Import Ascii QArith.
From S2P Require Import Prelude JsString TextSearch SyncEngine JsonParse DebugDiff AuthChain.
From S2P Require Import AuthProofs PairStore.
Open Scope string_scope.
Open Scope list_scope.
Open Scope Z_scope.

Section pairing.
Context `{Web}.

(** What the answers tell: a session was opened, a signature was collected. *)
Inductive Fact :=
  | Opened (id token ephemeral : string) (expiration t : Z)
  | Collected (id token signer signature : string) (t : Z).

Definition opened (f : Fact) : option string :=
  match f with Opened id _ _ _ _ => Some id | _ => None end.
Definition collected (f : Fact) : option string :=
  match f with Collected id _ _ _ _ => Some id | _ => None end.

Definition bodyOf (request : Request) : list (string * Json) :=
  match JSON_parse_text numberText (rq_body request) with Some (JObject body) => body | _ => [] end.

(** The facts in the answer to a request. *)
Definition factsOf (request : Request) (now : Z) (answer : option PairAnswer) : list Fact :=
  let text k := default "" (field k (bodyOf request)) in
  match answer with
  | Some (PairJson 200 (JObject [("id", JString id); ("pollToken", JString token); _])) =>
      [Opened id token (toLowerCase (text "ephemeral"))
         (default 0 (Date_parse (text "expiration"))) now]
  | Some (PairJson 200 (JObject [("state", _); ("signer", JString signer);
                                 ("signature", JString signature)])) =>
      [Collected (text "id") (text "pollToken") signer signature now]
  | _ => []
  end.

(** A request comes, with an identifier that was not drawn before; a completion goes
    on. *)
Inductive pair_step (s : PairServer * list Fact) : PairServer * list Fact → Prop :=
  | step_request request id token now :
      id ∉ omap opened s.2 →
      let r := pairAction request id token now s.1 in
      pair_step s (r.2, s.2 ++ factsOf request now r.1)
  | step_completed n now : pair_step s ((pairCompleted n now s.1).2, s.2).

Definition pair_start : PairServer * list Fact :=
  ({| pv_sessions := ∅; pv_buckets := ∅; pv_waiting := [] |}, []).

(** [signer] is an address that signed the message. *)
Definition signed (message signer signature : string) : Prop :=
  isEthAddress signer = true ∧ toLowerCase signer = signer ∧
  ∃ r, recoverMessageAddress message signature = Some r ∧ toLowerCase r = signer.

(** A session is one that was opened and not collected. *)
Definition session_ok (h : list Fact) (id : string) (sess : PairSession) : Prop :=
  (id ∉ omap collected h) ∧
  ∃ eph exp t0, Opened id (pa_pollToken sess) eph exp t0 ∈ h ∧
    pa_message sess = buildEphemeralMessage eph exp ∧ pa_expiresAt sess = t0 + PAIR_TTL_MS ∧
    ∀ signer signature, pa_completed sess = Some (signer, signature) →
      signed (pa_message sess) signer signature.

Definition waiting_ok (h : list Fact) (c : Completion) : Prop :=
  isEthAddress (co_signer c) = true ∧
  ∃ token eph exp t0, Opened (co_id c) token eph exp t0 ∈ h ∧
    co_message c = buildEphemeralMessage eph exp.

Definition collected_ok (h : list Fact) (f : Fact) : Prop :=
  match f with
  | Collected id token signer signature t =>
      ∃ eph exp t0, Opened id token eph exp t0 ∈ h ∧ t ≤ t0 + PAIR_TTL_MS ∧
        signed (buildEphemeralMessage eph exp) signer signature
  | _ => True
  end.

Record pairs_ok (s : PairServer) (h : list Fact) : Prop := {
  po_sessions : map_Forall (session_ok h) (pv_sessions s);
  po_waiting : Forall (waiting_ok h) (pv_waiting s);
  po_opened : NoDup (omap opened h);
  po_once : NoDup (omap collected h);
  po_collected : Forall (collected_ok h) h;
  po_size : Z.of_nat (size (pv_sessions s)) ≤ MAX_SESSIONS
}.

(** ** The sessions *)

Lemma sweep_sub now sessions : sweep now sessions ⊆ sessions.
Proof. apply map_filter_subseteq. Qed.

Lemma sweep_lookup now sessions id sess :
  sweep now sessions !! id = Some sess → sessions !! id = Some sess ∧ now ≤ pa_expiresAt sess.
Proof. unfold sweep. rewrite map_lookup_filter_Some. simpl. intros [? ?]. split; [done|lia]. Qed.

Lemma sub_ok (P : string → PairSession → Prop) (m m' : PairSessions) :
  m' ⊆ m → map_Forall P m → map_Forall P m'.
Proof. intros Hsub HP id sess E. apply HP. by eapply lookup_weaken. Qed.

Lemma sub_size (m m' : PairSessions) : m' ⊆ m → Z.of_nat (size m) ≤ MAX_SESSIONS →
  Z.of_nat (size m') ≤ MAX_SESSIONS.
Proof. intros Hsub. apply map_subseteq_size in Hsub. lia. Qed.

(** Fewer sessions are as good. *)
Lemma pairs_ok_sub s h sessions buckets waiting :
  pairs_ok s h → sessions ⊆ pv_sessions s → Forall (waiting_ok h) waiting →
  pairs_ok {| pv_sessions := sessions; pv_buckets := buckets; pv_waiting := waiting |} h.
Proof.
  intros [Hs Hw Ho Hc Hf Hn] Hsub Hwait.
  split; [by eapply sub_ok|done..|by eapply sub_size].
Qed.

Lemma opened_unique h id t1 e1 x1 n1 t2 e2 x2 n2 :
  NoDup (omap opened h) → Opened id t1 e1 x1 n1 ∈ h → Opened id t2 e2 x2 n2 ∈ h →
  Opened id t1 e1 x1 n1 = Opened id t2 e2 x2 n2.
Proof.
  intros Hnd H1 H2. induction h as [|f h IH]; [by apply not_elem_of_nil in H1|].
  assert (∀ f', opened f = Some id → f' ∈ h → opened f' = Some id → False) as Hno.
  { intros f' Hf Hin Hf'. csimpl in Hnd. rewrite Hf in Hnd. apply NoDup_cons in Hnd as [Hn _].
    apply Hn, list_elem_of_omap. eauto. }
  assert (NoDup (omap opened h)) as Hnd'.
  { csimpl in Hnd. destruct (opened f); [by apply NoDup_cons in Hnd as [_ ?]|done]. }
  apply elem_of_cons in H1 as [<-|H1], H2 as [H2|H2]; [done| | |by apply IH].
  - exfalso. by eapply Hno; [|exact H2|].
  - subst f. exfalso. by eapply Hno; [|exact H1|].
Qed.

(** Facts that come later. *)
Lemma session_ok_app h f id sess :
  (∀ i, collected f = Some i → i ≠ id) → session_ok h id sess → session_ok (h ++ [f]) id sess.
Proof.
  intros Hf (Hno & eph & exp & t0 & Hin & Hrest). split.
  - rewrite omap_app, elem_of_app. intros [?|Hi]; [done|]. simpl in Hi.
    destruct (collected f) as [i|]; [|by apply not_elem_of_nil in Hi].
    apply list_elem_of_singleton in Hi. by eapply Hf.
  - exists eph, exp, t0. split; [apply elem_of_app; by left|done].
Qed.

Lemma waiting_ok_app h f c : waiting_ok h c → waiting_ok (h ++ [f]) c.
Proof.
  intros (Ha & token & eph & exp & t0 & Hin & Hm). split; [done|].
  exists token, eph, exp, t0. split; [apply elem_of_app; by left|done].
Qed.

Lemma collected_ok_app h f g : collected_ok h g → collected_ok (h ++ [f]) g.
Proof.
  destruct g as [|id token signer signature t]; [done|]. intros (eph & exp & t0 & Hin & Hrest).
  exists eph, exp, t0. split; [apply elem_of_app; by left|done].
Qed.

Lemma collected_opened s h id : pairs_ok s h → id ∈ omap collected h → id ∈ omap opened h.
Proof.
  intros [_ _ _ _ Hf _] Hid. apply list_elem_of_omap in Hid as (f & Hin & Hid).
  rewrite Forall_forall in Hf. specialize (Hf f Hin).
  destruct f as [|i token signer signature t]; [done|]. injection Hid as ->.
  destruct Hf as (eph & exp & t0 & Ho & _). apply list_elem_of_omap. eauto.
Qed.

Lemma pairCreate_ok s h id token eph exp iso now session sessions buckets :
  pairs_ok s h → id ∉ omap opened h →
  pairCreate id token eph iso (buildEphemeralMessage eph exp) now (pv_sessions s) =
    (Some session, sessions) →
  (pa_id session = id ∧ pa_pollToken session = token) ∧
  pairs_ok {| pv_sessions := sessions; pv_buckets := buckets; pv_waiting := pv_waiting s |}
    (h ++ [Opened id token eph exp now]).
Proof.
  intros Hok Hid. unfold pairCreate. case_decide as Hn; [done|]. intros [= <- <-]. split; [done|].
  pose proof (λ Hc, Hid (collected_opened s h id Hok Hc)) as Hnc.
  destruct Hok as [Hs Hw Ho Hc Hf Hsize]. split; simpl.
  - apply map_Forall_insert_2.
    + split; [by rewrite omap_app, app_nil_r|]. exists eph, exp, now.
      split_and!; [apply elem_of_app; right; by left|done|done|by intros ? ?].
    + intros i sess [E _]%sweep_lookup. apply session_ok_app; [done|]. by apply Hs.
  - eapply Forall_impl; [exact Hw|]. intros c. apply waiting_ok_app.
  - rewrite omap_app. apply NoDup_app. split_and!; [done| |apply NoDup_singleton].
    intros i Hi Hi'%list_elem_of_singleton. congruence.
  - by rewrite omap_app, app_nil_r.
  - apply Forall_app. split; [|by constructor]. eapply Forall_impl; [exact Hf|].
    intros f. apply collected_ok_app.
  - rewrite map_size_insert. destruct (_ !! id); simpl; lia.
Qed.

Lemma pairComplete_ok s h c now result sessions buckets waiting :
  pairs_ok s h → waiting_ok h c → Forall (waiting_ok h) waiting →
  (∃ r, recoverMessageAddress (co_message c) (co_signature c) = Some r ∧
     toLowerCase r = toLowerCase (co_signer c)) →
  pairComplete (co_id c) (toLowerCase (co_signer c)) (co_signature c) now (pv_sessions s) =
    (result, sessions) →
  pairs_ok {| pv_sessions := sessions; pv_buckets := buckets; pv_waiting := waiting |} h.
Proof.
  intros Hok (Haddr & token & eph & exp & t0 & Hin & Hm) Hwait (r & Hr & Hrl).
  unfold pairComplete. pose proof (sweep_sub now (pv_sessions s)) as Hsub.
  destruct (sweep now (pv_sessions s) !! co_id c) as [sess|] eqn:E;
    [|intros [= <- <-]; by apply (pairs_ok_sub s)].
  case_decide.
  { intros [= <- <-]. apply (pairs_ok_sub s); [done| |done]. etrans; [apply delete_subseteq|done]. }
  destruct (pa_completed sess) eqn:Ec; [intros [= <- <-]; by apply (pairs_ok_sub s)|].
  intros [= <- <-]. apply sweep_lookup in E as [E Hexp].
  destruct Hok as [Hs Hw Ho Hc Hf Hsize]. split; simpl; try done.
  - apply map_Forall_insert_2; [|by eapply sub_ok].
    destruct (Hs _ _ E) as (Hno & eph' & exp' & t0' & Hin' & Hm' & Hx & _). split; [done|].
    exists eph', exp', t0'. simpl. split_and!; [done..|]. intros signer signature [= <- <-].
    pose proof (opened_unique _ _ _ _ _ _ _ _ _ _ Ho Hin Hin') as Hsame. simplify_eq.
    split; [by apply isEthAddress_lower|]. split; [apply toLowerCase_idem|].
    exists r. by rewrite Hm', <- Hm.
  - rewrite map_size_insert_Some; [by apply (sub_size (pv_sessions s))|].
    exists sess. unfold sweep. rewrite map_lookup_filter_Some. simpl. split; [done|lia].
Qed.

Lemma pairPoll_ok s h id token now result sessions buckets :
  pairs_ok s h → pairPoll id token now (pv_sessions s) = (result, sessions) →
  pairs_ok {| pv_sessions := sessions; pv_buckets := buckets; pv_waiting := pv_waiting s |}
    (h ++ match result with
          | PollCompleted signer signature => [Collected id token signer signature now]
          | _ => []
          end).
Proof.
  intros Hok. unfold pairPoll. pose proof (sweep_sub now (pv_sessions s)) as Hsub.
  assert (∀ m, m ⊆ sweep now (pv_sessions s) →
    pairs_ok {| pv_sessions := m; pv_buckets := buckets; pv_waiting := pv_waiting s |} (h ++ [])) as Hless.
  { intros m Hm. rewrite app_nil_r. apply (pairs_ok_sub s); [done|by etrans|apply Hok]. }
  destruct (sweep now (pv_sessions s) !! id) as [sess|] eqn:E; [|intros [= <- <-]; by apply Hless].
  destruct (String.eqb_spec token (pa_pollToken sess)) as [Ht|]; unfold tokenMatches;
    [subst token; rewrite String.eqb_refl|rewrite (proj2 (String.eqb_neq _ _)) by done; intros [= <- <-]; by apply Hless].
  cbn [negb]. case_decide; [intros [= <- <-]; apply Hless, delete_subseteq|].
  destruct (pa_completed sess) as [[signer signature]|] eqn:Ec; [|intros [= <- <-]; by apply Hless].
  intros [= <- <-]. apply sweep_lookup in E as [E Hexp].
  destruct Hok as [Hs Hw Ho Hc Hf Hsize].
  destruct (Hs _ _ E) as (Hno & eph & exp & t0 & Hin & Hm & Hx & Hsig). split; simpl.
  - intros i sess' [Hne [E' _]%sweep_lookup]%lookup_delete_Some. apply session_ok_app.
    + intros i' [= <-]. done.
    + by apply Hs.
  - eapply Forall_impl; [exact Hw|]. intros c. apply waiting_ok_app.
  - by rewrite omap_app, app_nil_r.
  - rewrite omap_app. apply NoDup_app. split_and!; [done| |apply NoDup_singleton].
    intros i Hi Hi'%list_elem_of_singleton. congruence.
  - apply Forall_app. split.
    + eapply Forall_impl; [exact Hf|]. intros f. apply collected_ok_app.
    + constructor; [|constructor]. exists eph, exp, t0. split; [apply elem_of_app; by left|].
      split; [lia|]. rewrite <- Hm. by apply Hsig.
  - apply (sub_size (pv_sessions s)); [|done]. etrans; [apply delete_subseteq|done].
Qed.

(** ** Requests *)

Lemma pairs_ok_buckets s h buckets :
  pairs_ok s h →
  pairs_ok {| pv_sessions := pv_sessions s; pv_buckets := buckets; pv_waiting := pv_waiting s |} h.
Proof. intros Hok. apply (pairs_ok_sub s); [done|done|apply Hok]. Qed.

(** The facts of an answer, as an opening, a collection or none. *)
Definition collectedIn (request : Request) (now : Z) (result : PairPollResult) : list Fact :=
  match result with
  | PollCompleted signer signature =>
      [Collected (default "" (field "id" (bodyOf request)))
         (default "" (field "pollToken" (bodyOf request))) signer signature now]
  | _ => []
  end.

Lemma factsOf_poll request now result :
  factsOf request now (Some (pollJson result)) = collectedIn request now result.
Proof. by destruct result. Qed.

Lemma pairActionPoll_ok cancels request now s h :
  pairs_ok s h →
  let r := pairActionPoll cancels (bodyOf request) now s in
  pairs_ok r.2 (h ++ factsOf request now (Some r.1)).
Proof.
  intros Hok r. unfold r, pairActionPoll. clear r.
  destruct (negb _); [by rewrite app_nil_r|]. destruct (negb _); [by rewrite app_nil_r|].
  destruct cancels.
  - simpl. rewrite app_nil_r. apply (pairs_ok_sub s); [done| |apply Hok].
    unfold pairCancel. destruct (_ !! _) as [sess|]; [|done].
    destruct (tokenMatches _ _); [apply delete_subseteq|done].
  - destruct (pairPoll _ _ _ _) as [result sessions] eqn:E. cbn [fst snd].
    rewrite factsOf_poll. by apply pairPoll_ok.
Qed.

Lemma pairActionCreate_ok request id token now s h :
  pairs_ok s h → id ∉ omap opened h →
  let r := pairActionCreate (rq_headers request) (bodyOf request) id token now s in
  pairs_ok r.2 (h ++ factsOf request now (Some r.1)).
Proof.
  intros Hok Hid r. unfold r, pairActionCreate. clear r.
  destruct (field "ephemeral" (bodyOf request)) as [eph|] eqn:Ee; [|by rewrite app_nil_r].
  destruct (negb _); [by rewrite app_nil_r|].
  destruct (Date_parse _) as [exp|] eqn:Ex; [|by rewrite app_nil_r].
  case_decide; [by rewrite app_nil_r|].
  destruct (allowPairCreate _ _ _) as [allowed buckets].
  destruct allowed; simpl negb; cbv iota; [|rewrite app_nil_r; by apply pairs_ok_buckets].
  destruct (pairCreate _ _ _ _ _ _ _) as [[session|] sessions] eqn:E.
  - cbn [fst snd factsOf]. rewrite Ee, Ex.
    destruct (pairCreate_ok s h _ _ _ _ _ _ _ _ buckets Hok Hid E) as [[-> ->] E']. exact E'.
  - rewrite app_nil_r. apply (pairs_ok_sub s); [done| |apply Hok].
    unfold pairCreate in E. case_decide; [|done]. injection E as <-. apply sweep_sub.
Qed.

Lemma pairActionComplete_ok request now s h :
  pairs_ok s h →
  let r := pairActionComplete (bodyOf request) now s in
  pairs_ok r.2 (h ++ factsOf request now r.1).
Proof.
  intros Hok r. unfold r, pairActionComplete. clear r.
  destruct (negb _); [by rewrite app_nil_r|].
  destruct (isEthAddress _) eqn:Ha; [|by rewrite app_nil_r].
  destruct (negb (isSignature _)); [by rewrite app_nil_r|]. cbn [negb pairGet].
  set (id := default "" (field "id" (bodyOf request))).
  destruct (sweep _ _ !! _) as [sess|] eqn:E; rewrite app_nil_r;
    apply (pairs_ok_sub s); try apply sweep_sub; try done; [|apply Hok].
  apply Forall_app. split; [apply Hok|]. constructor; [|constructor]. split; [done|].
  apply sweep_lookup in E as [E _].
  destruct (po_sessions _ _ Hok _ _ E) as (_ & eph & exp & t0 & Hin & Hm & _).
  by exists (pa_pollToken sess), eph, exp, t0.
Qed.

Lemma pairCompleted_ok n now s h : pairs_ok s h → pairs_ok (pairCompleted n now s).2 h.
Proof.
  intros Hok. unfold pairCompleted. destruct (pv_waiting s !! n) as [c|] eqn:E; [|done].
  assert (Forall (waiting_ok h) (take n (pv_waiting s) ++ drop (S n) (pv_waiting s))) as Hw.
  { apply Forall_app. split; [apply Forall_take|apply Forall_drop]; apply Hok. }
  assert (waiting_ok h c) as Hc by (eapply Forall_lookup_1; [apply Hok|exact E]).
  destruct (recoverMessageAddress _ _) as [r|] eqn:Hr; [|by apply (pairs_ok_sub s)].
  destruct (String.eqb_spec (toLowerCase r) (toLowerCase (co_signer c))) as [Hl|];
    [cbn [negb]|by apply (pairs_ok_sub s)].
  destruct (pairComplete _ _ _ _ _) as [result sessions] eqn:Ec. cbn [pv_sessions] in Ec.
  cbn [snd pv_sessions pv_buckets pv_waiting].
  by eapply (pairComplete_ok s h c); [| | |eexists|exact Ec].
Qed.

Lemma pair_step_ok s s' : pair_step s s' → pairs_ok s.1 s.2 → pairs_ok s'.1 s'.2.
Proof.
  intros [request id token now Hid r|n now] Hok; [|by apply pairCompleted_ok].
  unfold r, pairAction. clear r. cbn [fst snd].
  destruct (negb _); [by rewrite app_nil_r|].
  assert (∀ body, body = bodyOf request → 
    let r := (if String.eqb (default "" (field "kind" body)) "create"
      then (λ '(a, s), (Some a, s)) (pairActionCreate (rq_headers request) body id token now s.1)
      else if String.eqb (default "" (field "kind" body)) "complete" then pairActionComplete body now s.1
      else if String.eqb (default "" (field "kind" body)) "poll" ||
              String.eqb (default "" (field "kind" body)) "cancel"
      then (λ '(a, s), (Some a, s))
             (pairActionPoll (String.eqb (default "" (field "kind" body)) "cancel") body now s.1)
      else (Some (pairError 400 "unknown kind"), s.1)) in
    pairs_ok r.2 (s.2 ++ factsOf request now r.1)) as Hbody.
  { intros body -> r. unfold r. clear r. destruct (String.eqb _ "create").
    { pose proof (pairActionCreate_ok request id token now _ _ Hok Hid) as H1.
      by destruct (pairActionCreate _ _ _ _ _ _). }
    destruct (String.eqb _ "complete"); [by apply pairActionComplete_ok|].
    destruct (_ || _); [|by rewrite app_nil_r].
    pose proof (pairActionPoll_ok (String.eqb (default "" (field "kind" (bodyOf request))) "cancel")
      request now _ _ Hok) as H1.
    by destruct (pairActionPoll _ _ _ _). }
  unfold bodyOf in Hbody. destruct (JSON_parse_text _ _) as [[]|];
    try (by rewrite app_nil_r); by apply Hbody.
Qed.

Lemma pairs_reachable s : rtc pair_step pair_start s → pairs_ok s.1 s.2.
Proof.
  intros Hs. assert (pairs_ok pair_start.1 pair_start.2) as H0.
  { split; simpl; [apply map_Forall_empty|constructor..|by rewrite map_size_empty]. }
  revert H0. induction Hs as [|s1 s2 s3 Hstep _ IH]; [done|]. intros H0.
  by apply IH, (pair_step_ok s1).
Qed.

(** C10.  However sessions are opened, completed, polled and cancelled, and however
    completions that wait overlap: at most 500 sessions are kept; no session is
    collected twice; and what was collected with a token is, for a session that was
    opened with this token at most five minutes before, an address and its signature
    of the message for the key and the date of that session, so the browser with
    that key makes an identity of the address of it. *)
Theorem pairing_safe `{!WebLaws} s h :
  rtc pair_step pair_start (s, h) →
  Z.of_nat (size (pv_sessions s)) ≤ MAX_SESSIONS ∧ NoDup (omap collected h) ∧
  ∀ id token signer signature t, Collected id token signer signature t ∈ h →
    ∃ eph exp t0, Opened id token eph exp t0 ∈ h ∧ t ≤ t0 + PAIR_TTL_MS ∧
      ∀ key, eph = ek_address (generateEphemeralKey key) →
        ∃ identity, pairedIdentity (generateEphemeralKey key) exp signer signature = Some identity ∧
          identity_for signer key exp identity.
Proof.
  intros [Hs Hw Ho Hc Hf Hsize]%pairs_reachable. split_and!; [done..|].
  intros id token signer signature t Hin. rewrite Forall_forall in Hf.
  destruct (Hf _ Hin) as (eph & exp & t0 & Hop & Ht & Haddr & Hlow & r & Hr & Hrl).
  exists eph, exp, t0. split_and!; [done..|]. intros key ->. unfold pairedIdentity. rewrite Hr. simpl.
  rewrite Hrl, Hlow, String.eqb_refl. eexists. split; [done|].
  split; [done|]. split; [done|]. exists signer, signature, r. by split_and!.
Qed.
End pairing.

(** ** How often sessions are opened *)

(** How many of the calls of [allowPairCreate] are allowed for an address within the time
    of a window from [a] on. *)
Fixpoint allowedIn (ip : string) (a : Z) (calls : list (string * Z)) (buckets : RateBuckets) : Z :=
  match calls with
  | [] => 0
  | (i, t) :: calls =>
      let '(allowed, buckets) := allowPairCreate i t buckets in
      (if decide (i = ip ∧ a ≤ t ≤ a + RATE_WINDOW_MS ∧ allowed = true) then 1 else 0) +
      allowedIn ip a calls buckets
  end.

(** What may still be allowed from [a] on, with the bucket of the address. *)
Definition capacity (a : Z) (bucket : option RateBucket) : Z :=
  match bucket with
  | None => RATE_MAX_CREATES
  | Some b => Z.max 0 (RATE_MAX_CREATES - rb_count b) +
              (if decide (a ≤ rb_windowStart b) then 0 else RATE_MAX_CREATES)
  end.

(** The window of a bucket is over. *)
Definition over (now : Z) (b : RateBucket) : Prop := RATE_WINDOW_MS < now - rb_windowStart b.

Definition sweepBuckets (now : Z) (buckets : RateBuckets) : RateBuckets :=
  if decide (10000 < Z.of_nat (size buckets))
  then filter (λ e : string * RateBucket, ¬ (RATE_WINDOW_MS < now - rb_windowStart e.2)) buckets
  else buckets.

Lemma sweepBuckets_lookup ip now buckets :
  sweepBuckets now buckets !! ip = buckets !! ip ∨
  sweepBuckets now buckets !! ip = None ∧ ∃ b, buckets !! ip = Some b ∧ over now b.
Proof.
  unfold sweepBuckets. case_decide; [|by left]. rewrite map_lookup_filter.
  destruct (buckets !! ip) as [b|]; simpl; [|by left]. case_guard as Hb; simpl; [by left|right].
  split; [done|]. by exists b.
Qed.

(** A call for an address: a new window, or one more in its window. *)
Lemma allow_spec ip now buckets :
  let r := allowPairCreate ip now buckets in
  (r.1 = true ∧ r.2 !! ip = Some {| rb_windowStart := now; rb_count := 1 |} ∧
     (buckets !! ip = None ∨ ∃ b, buckets !! ip = Some b ∧ over now b)) ∨
  (∃ b, buckets !! ip = Some b ∧
     r.2 !! ip = Some {| rb_windowStart := rb_windowStart b; rb_count := rb_count b + 1 |} ∧
     r.1 = bool_decide (rb_count b + 1 ≤ RATE_MAX_CREATES)).
Proof.
  intros r. unfold r, allowPairCreate. clear r. fold (sweepBuckets now buckets).
  destruct (sweepBuckets_lookup ip now buckets) as [E|[E (b & Eb & Hb)]].
  - rewrite E. destruct (buckets !! ip) as [b|]; [case_decide as Hold|].
    + left. simpl. rewrite lookup_insert_eq. split_and!; [done|done|right; by exists b].
    + right. exists b. simpl. by rewrite lookup_insert_eq.
    + left. simpl. rewrite lookup_insert_eq. split_and!; [done|done|by left].
  - rewrite E. left. simpl. rewrite lookup_insert_eq. split_and!; [done|done|right; by exists b].
Qed.

(** A call for another address leaves the bucket, or removes it when it is over. *)
Lemma allow_other i ip now buckets : i ≠ ip →
  let r := allowPairCreate i now buckets in
  r.2 !! ip = buckets !! ip ∨ r.2 !! ip = None ∧ ∃ b, buckets !! ip = Some b ∧ over now b.
Proof.
  intros Hne r. unfold r, allowPairCreate. clear r. fold (sweepBuckets now buckets).
  pose proof (sweepBuckets_lookup ip now buckets) as H.
  destruct (sweepBuckets now buckets !! i) as [b|]; [case_decide|]; simpl;
    by rewrite lookup_insert_ne.
Qed.

Lemma allowedIn_late ip a calls buckets :
  Forall (λ c, a + RATE_WINDOW_MS < c.2) calls → allowedIn ip a calls buckets = 0.
Proof.
  intros Hl. revert buckets. induction Hl as [|[i t] calls Ht _ IH]; intros buckets; [done|]. simpl in *.
  destruct (allowPairCreate _ _ _) as [allowed buckets']. rewrite decide_False by lia. by rewrite IH.
Qed.

(** From [a] on. *)
Lemma allowedIn_capacity ip a calls buckets :
  StronglySorted (λ c d, c.2 ≤ d.2) calls → Forall (λ c, a ≤ c.2) calls →
  allowedIn ip a calls buckets ≤ capacity a (buckets !! ip).
Proof.
  intros Hsort Ha. revert buckets.
  assert (∀ bucket, 0 ≤ capacity a bucket) as Hpos.
  { intros [b|]; simpl; [|done]. unfold RATE_MAX_CREATES. case_decide; lia. }
  induction Hsort as [|[i t] calls Hsort IH Hle]; intros buckets; [apply Hpos|].
  apply Forall_cons in Ha as [Hat Ha]. simpl in Hat. specialize (IH Ha). simpl.
  pose proof (allow_spec i t buckets) as Hspec. pose proof (allow_other i ip t buckets) as Hother.
  destruct (allowPairCreate i t buckets) as [allowed buckets'] eqn:E. cbn [fst snd] in *.
  specialize (IH buckets').
  assert (a + RATE_WINDOW_MS < t → allowedIn ip a calls buckets' = 0) as Hlate.
  { intros Ht. apply allowedIn_late. eapply Forall_impl; [exact Hle|]. simpl. lia. }
  destruct (decide (i = ip)) as [->|Hne].
  - clear Hother. destruct Hspec as [(-> & E' & Hold)|(b & Eb & E' & ->)]; rewrite E' in IH.
    + simpl in IH. rewrite decide_True in IH by done. unfold RATE_MAX_CREATES in *.
      destruct Hold as [->|(b & -> & Hb)]; unfold capacity, over, RATE_MAX_CREATES in *;
        repeat case_decide; lia.
    + rewrite Eb. simpl in *. unfold RATE_MAX_CREATES in *.
      destruct (decide (rb_count b + 1 ≤ 30)) as [Hc|Hc];
        [rewrite bool_decide_eq_true_2 by done|rewrite bool_decide_eq_false_2 by done];
        repeat case_decide; try lia; naive_solver lia.
  - rewrite decide_False by tauto. destruct (Hother Hne) as [E'|[E' (b & Eb & Hb)]]; rewrite E' in IH.
    + lia.
    + rewrite Eb. unfold capacity, over, RATE_MAX_CREATES in *. case_decide; lia.
Qed.

Lemma allowPairCreate_counts ip now buckets :
  map_Forall (λ _ b, 1 ≤ rb_count b) buckets →
  map_Forall (λ _ b, 1 ≤ rb_count b) (allowPairCreate ip now buckets).2.
Proof.
  intros Hb. unfold allowPairCreate. fold (sweepBuckets now buckets).
  assert (map_Forall (λ _ b, 1 ≤ rb_count b) (sweepBuckets now buckets)) as Hs.
  { intros i b Hi. destruct (sweepBuckets_lookup i now buckets) as [E|[E _]]; rewrite E in Hi; [|done].
    by eapply Hb. }
  destruct (sweepBuckets now buckets !! ip) as [b|] eqn:E; [case_decide|]; simpl;
    (apply map_Forall_insert_2; [simpl|done]); try done. specialize (Hs _ _ E). simpl in Hs. lia.
Qed.

(** C23.  Whoever else asks, an address is allowed to open fewer than sixty sessions within
    any five minutes: at most those of a window and of another but its first. *)
Theorem allowPairCreate_bounded ip a calls :
  StronglySorted (λ c d, c.2 ≤ d.2) calls →
  allowedIn ip a calls ∅ < 2 * RATE_MAX_CREATES.
Proof.
  intros Hsort.
  enough (∀ buckets, map_Forall (λ _ b, 1 ≤ rb_count b) buckets →
    allowedIn ip a calls buckets < 2 * RATE_MAX_CREATES) as H by apply H, map_Forall_empty.
  induction Hsort as [|[i t] calls Hsort IH Hle]; intros buckets Hb; [done|].
  destruct (decide (a ≤ t)) as [Ht|Ht].
  - eapply Z.le_lt_trans; [apply allowedIn_capacity; [by constructor|]|].
    + constructor; [done|]. eapply Forall_impl; [exact Hle|]. simpl. lia.
    + destruct (buckets !! ip) as [b|] eqn:E; simpl; [|done]. specialize (Hb _ _ E). simpl in Hb.
      unfold RATE_MAX_CREATES in *. case_decide; lia.
  - simpl. pose proof (allowPairCreate_counts i t buckets Hb) as Hb'.
    destruct (allowPairCreate i t buckets) as [allowed buckets']. rewrite decide_False by lia.
    by apply IH.
Qed.
