(* ===== verification/WebSamples.v ===== *)
(** * Requests and scenes on one server

    A platform whose signatures name their key, on which the laws of [WebLaws] hold, and
    requests of its wallets; a scene that the editor saves and the server writes, and
    puts that run at once; a browser that signs in with a phone. *)

From Stdlib Require Import Ascii QArith.
From S2P Require Import Prelude JsString SyncEngine SyncProofs SyncSystemProofs.
From S2P Require Import JsonParse JsonProofs DebugDiff SceneComposite DebugDiffProofs.
From S2P Require Import SceneProofs SceneTree TextSearch AuthChain AuthProofs Drafts.
From S2P Require Import DraftsProofs PairStore PairProofs.
Open Scope string_scope.
Open Scope list_scope.
Open Scope Z_scope.

Definition aWallet : string := "0x7bbea9c18cd0541acab8c19da2b11d0c03faef1c".
Definition aKey : string := "0x1111111111111111111111111111111111111111".

Definition readInteger (s : string) : option Z :=
  n ← parseInt s; if decide (pretty n = s) then Some n else None.

(** Ninety hexadecimal digits that depend on a text. *)
Fixpoint codeSum (s : string) : Z :=
  match s with String c t => Z.of_N (Ascii.N_of_ascii c) + codeSum t | EmptyString => 0 end.

Definition stamp (m : string) : string := Buffer_to_hex (replicate 45 (codeSum m mod 256)).

#[export] Instance plainWeb : Web := {|
  privateKeyToAccount k := if isEthAddress k then k else aKey;
  signMessage k m := (if isEthAddress k then k else aKey) +:+ stamp m;
  recoverMessageAddress m s :=
    let signer := substr 0 42 s in
    if isEthAddress signer && String.eqb (slice 42 s) (stamp m) then Some signer else None;
  toISOString := pretty;
  Date_parse := readInteger;
  Number s := inject_Z <$> readInteger s;
  numberText := id;
  numberSucc s := match readInteger s with Some n => pretty (n + 1) | None => s end;
  pathname _ := None
|}.

Lemma readInteger_pretty z : 0 ≤ z → readInteger (pretty z) = Some z.
Proof. intros Hz. unfold readInteger. rewrite parseInt_pretty by done. simpl. by rewrite decide_True. Qed.

Lemma slice_app s t : slice (String.length s) (s +:+ t) = t.
Proof. induction s as [|c s IH]; [done|exact IH]. Qed.

#[export] Instance plainWeb_laws : WebLaws.
Proof.
  assert (∀ k, isEthAddress (if isEthAddress k then k else aKey) = true) as Hk
    by (intros k; by destruct (isEthAddress k) eqn:E).
  constructor.
  - intros k m. specialize (Hk k).
    unfold recoverMessageAddress, signMessage, privateKeyToAccount, plainWeb. set (a := if isEthAddress k then k else aKey) in *.
    destruct (isEthAddress_shape _ Hk) as (h & Ha & _ & Hl).
    assert (String.length a = 42%nat) as <- by (rewrite Ha; change (S (S (String.length h)) = 42%nat); by rewrite Hl).
    by rewrite substr_app, slice_app, Hk, String.eqb_refl.
  - exact Hk.
  - intros d Hd. apply readInteger_pretty. lia.
  - intros d Hd. split; [apply pretty_Z_nonempty|].
    apply (all_chars_impl is_digit); [|apply pretty_digits; lia].
    intros c Hc. unfold iso_char. by rewrite Hc.
  - intros z Hz. simpl. by rewrite readInteger_pretty by lia.
  - done.
  - intros z Hz. simpl. by rewrite readInteger_pretty by lia.
Qed.

(** A week's identity of the wallet. *)
Definition anIdentity : AuthIdentity := createIdentityFromPrivateKey aWallet aKey 1000 None.

Lemma signRequest_accepted_witness :
  ∃ headers, signRequest anIdentity "PUT" "/api/creator-hub/drafts/s1" (JObject []) 2000 = Some headers ∧
    verifyAuthChainRequest 3000 DEFAULT_MAX_AGE_MS
      {| rq_headers := headers ++ [("content-type", "application/json")]; rq_method := "PUT";
         rq_path := "/api/creator-hub/drafts/s1"; rq_body := "" |} = AuthOk aWallet.
Proof.
  destruct (signRequest_accepted aWallet aKey (1000 + DEFAULT_EXPIRATION_MS) anIdentity "PUT"
    "/api/creator-hub/drafts/s1" (JObject []) 2000 [("content-type", "application/json")] 3000
    DEFAULT_MAX_AGE_MS "" (createIdentityFromPrivateKey_for aWallet aKey 1000 None))
    as (headers & Hs & Hv); [done..|].
  exists headers. split; [exact Hs|]. rewrite decide_True in Hv by done. exact Hv.
Defined.

Definition aRequest : Request := {|
  rq_headers := default [] (signRequest anIdentity "GET" "/api/creator-hub/drafts/s1" (JObject []) 2000);
  rq_method := "GET"; rq_path := "/api/creator-hub/drafts/s1"; rq_body := "" |}.

Lemma verifyAuthChainRequest_vouched_witness :
  verifyAuthChainRequest 3000 DEFAULT_MAX_AGE_MS aRequest = AuthOk aWallet ∧
  ∃ payload, vouched 3000 aWallet payload ∧
    toLowerCase payload = "get:/api/creator-hub/drafts/s1:2000:{}".
Proof.
  assert (verifyAuthChainRequest 3000 DEFAULT_MAX_AGE_MS aRequest = AuthOk aWallet) as E
    by by vm_compute.
  split; [exact E|].
  destruct (proj2 (verifyAuthChainRequest_vouched 3000 DEFAULT_MAX_AGE_MS aRequest aWallet E))
    as (payload & Hv & Hp).
  exists payload. split; [exact Hv|]. rewrite Hp. by vm_compute.
Defined.

(** A wallet that vouched for a key without a date. *)
Definition undated : AuthIdentity :=
  let message := "Ephemeral address: " +:+ aKey in
  {| ai_signer := aWallet; ai_ephemeral := generateEphemeralKey aKey; ai_expiration := "";
     ai_authChain := [
       {| al_type := "SIGNER"; al_payload := aWallet; al_signature := "" |};
       {| al_type := "ECDSA_EPHEMERAL"; al_payload := message;
          al_signature := signMessage aWallet message |}] |}.

(** The browser takes such an identity for expired; the server accepts it for ever. *)
Example undated_never_expires :
  isIdentityExpired undated 0 = true ∧
  let now := 10 ^ 15 in
  verifyAuthChainRequest now DEFAULT_MAX_AGE_MS {|
    rq_headers := signAuthChain aKey (ai_authChain undated) "GET" "/api/creator-hub/drafts/s1"
                    (pretty now) "{}";
    rq_method := "GET"; rq_path := "/api/creator-hub/drafts/s1"; rq_body := "" |} = AuthOk aWallet.
Proof. by vm_compute. Qed.

(** ** A scene saved *)

#[local] Instance aRoot : DraftsRoot := ["srv"; "data"; "ch-drafts"].
#[local] Instance aServer : VersionedServer DraftServer := draft_server aWallet aKey 1000 None.
#[local] Instance aServer_laws : ServerLaws DraftServer := draft_server_laws aWallet aKey 1000 None.

Definition emptyServer : DraftServer := {| ds_disk := ∅; ds_clock := [(2000, 3000)] |}.

Definition aPush : Push := mkPush "s1" 0 (hashBlob (sceneBlob "a")) (sceneBlob "a") None.

Definition savedSystem : System (Srv := DraftServer) :=
  mkSystem (afterEvents [SaveLocal "s1" (sceneBlob "a") None 10; SetTransport; RunTask 1;
                         Answer (PushOk (Some 1)) 20; RunTask 0] (createSyncEngine true))
    (sv_push emptyServer aPush).2 None ∅.

Lemma aPush_carried : sv_carries aPush.
Proof.
  split; [by vm_compute|]. split; [|done]. apply kept_record; [decided|by repeat constructor|].
  apply Forall_cons_2; [by apply kept_leaf|constructor].
Qed.

Lemma savedSystem_reachable : rtc system_step (system_start true emptyServer ∅) savedSystem.
Proof.
  unfold savedSystem, system_start, afterEvents. cbn [foldl].
  set (e0 := createSyncEngine true). set (e1 := apply (SaveLocal _ _ _ _) e0).
  set (e2 := apply SetTransport e1). set (e3 := apply (RunTask 1) e2).
  set (e4 := apply (Answer _ _) e3).
  eapply rtc_l; [by apply (engine_acts _ (SaveLocal "s1" (sceneBlob "a") None 10))|].
  eapply rtc_l; [by apply (engine_acts _ SetTransport)|].
  eapply rtc_l; [by apply (engine_acts _ (RunTask 1))|].
  eapply rtc_l; [eapply (server_serves _ aPush (PushOk (Some 1)) (sv_push emptyServer aPush).2);
    [by vm_compute|exact aPush_carried|done|by vm_compute]|].
  eapply rtc_l; [by apply (answer_arrives _ (PushOk (Some 1)) 20)|].
  eapply rtc_l; [by apply (engine_acts _ (RunTask 0))|].
  cbn [written p_id sy_others sy_server sy_answer sy_engine].
  replace ((∅ : gset string) ∖ {[p_id aPush]}) with (∅ : gset string) by set_solver. apply rtc_refl.
Qed.

Lemma emptyServer_ok : sv_ok emptyServer.
Proof.
  split; [|by repeat constructor]. intros p text Hp. done.
Qed.

Lemma synced_is_on_disk_witness :
  s_overall (summary (sy_engine savedSystem)) = synced ∧
  ∃ draft blob, getDraft (ds_disk (sy_server savedSystem)) aWallet "s1" = Some draft ∧
    prop "version" draft = Some (number 1) ∧ prop "blob" draft = Some blob ∧
    hashBlob blob = hashBlob (sceneBlob "a").
Proof.
  assert (s_overall (summary (sy_engine savedSystem)) = synced) as Hsum by (vm_compute; reflexivity).
  assert (stored (sy_engine savedSystem)) as Hst.
  { unfold stored. vm_compute. repeat constructor. }
  split; [exact Hsum|].
  assert (∃ r, recs (sy_engine savedSystem) !! "s1" = Some r ∧ r_blob r = sceneBlob "a" ∧
    r_hash r ≠ "" ∧ r_version r = 1) as (r & E & Hb & Hh & Hv).
  { eexists. split; [vm_compute; reflexivity|]. split; [reflexivity|]. split; [discriminate|reflexivity]. }
  destruct (synced_is_on_disk aWallet aKey 1000 None true emptyServer ∅ savedSystem "s1" r
    emptyServer_ok savedSystem_reachable Hst Hsum E Hh ltac:(apply not_elem_of_empty))
    as (_ & draft & blob & Hd & Hver & Hbl & Hhash).
  rewrite Hv in Hver. rewrite Hb in Hhash. exists draft, blob. split_and!; [exact Hd|exact Hver|exact Hbl|exact Hhash].
Defined.

Definition another : string := "0x2222222222222222222222222222222222222222".

(** A put of the wallet, on a disk that holds a draft of another. *)
Lemma drafts_isolated_witness :
  let request := draftRequest (default [] (signRequest anIdentity "PUT" (draftsPath +:+ "s1")
                                             (JObject []) 2000)) aPush in
  let d : Disk := {[ ["srv"; "data"; "ch-drafts"; another; "s1.json"] := "{}" ]} in
  (action d request (Some "s1") 3000).2 !! ["srv"; "data"; "ch-drafts"; another; "s1.json"] =
    Some "{}" ∧
  rs_status (action d request (Some "s1") 3000).1 = 200 ∧
  (action d request (Some "s1") 3000).1 = (action ∅ request (Some "s1") 3000).1.
Proof.
  intros request d.
  assert (verifyAuthChainRequest 3000 DEFAULT_MAX_AGE_MS request = AuthOk aWallet) as Hv
    by by vm_compute.
  split; [|split; [by vm_compute|]].
  - destruct (decide ((action d request (Some "s1") 3000).2 !!
      ["srv"; "data"; "ch-drafts"; another; "s1.json"] =
      d !! ["srv"; "data"; "ch-drafts"; another; "s1.json"])) as [-> | Hne]; [by vm_compute|].
    exfalso. apply (drafts_isolated d request (Some "s1") 3000) in Hne as (wallet & name & Hw & Hp).
    rewrite Hv in Hw. injection Hw as <-. discriminate Hp.
  - apply (drafts_isolated ∅ request (Some "s1") 3000). intros wallet name Hw.
    rewrite Hv in Hw. injection Hw as <-. unfold d. by rewrite lookup_singleton_ne.
Defined.

(** What the guard of names keeps out. *)
Example unguarded_name_leaves :
  path_join (path_join draftsRoot aWallet) ("../" +:+ another +:+ "/s1.json") =
    draftsRoot ++ [another; "s1.json"] ∧
  isSafeDraftId ("../" +:+ another +:+ "/s1") = false.
Proof. by vm_compute. Qed.

(** ** Puts that run at once *)

Definition aValue (base : string) (v : string) : PutDraftInput :=
  {| pi_baseVersion := base; pi_hash := "h" +:+ v; pi_blob := JString v; pi_title := None |}.

Definition nothing : Puts := {| ps_disk := ∅; ps_running := []; ps_answers := [] |}.

(** Two puts of the first version of a draft that overlap are both accepted as version
    1, and only the value of the last one stays. *)
Example overlapping_puts_lose :
  let s := endPut aWallet 0 20 (endPut aWallet 0 10
    (startPut aWallet "s1" (aValue "0" "b") (startPut aWallet "s1" (aValue "0" "a") nothing))) in
  (λ r, match r with PutOk meta => prop "version" meta | PutConflict _ => None end) <$> ps_answers s =
    [Some (JNumber "1"); Some (JNumber "1")] ∧
  (d ← getDraft (ps_disk s) aWallet "s1"; prop "blob" d) = Some (JString "b").
Proof. by vm_compute. Qed.

(** One that is overtaken puts the draft back to an earlier version. *)
Example overtaken_put_goes_back :
  let puts l s := foldl (λ s i, endPut aWallet 1 10 (startPut aWallet "s1" i s)) s l in
  let before := endPut aWallet 0 5 (startPut aWallet "s1" (aValue "0" "a") nothing) in
  let s := puts [aValue "1" "b"; aValue "2" "c"] (startPut aWallet "s1" (aValue "1" "x") before) in
  let version s := d ← getDraft (ps_disk s) aWallet "s1"; prop "version" d in
  version s = Some (JNumber "3") ∧ version (endPut aWallet 0 20 s) = Some (JNumber "2").
Proof. by vm_compute. Qed.

Definition pairRequest (body : list (string * Json)) : Request := {|
  rq_headers := [("x-forwarded-for", "203.0.113.7, 10.0.0.1")]; rq_method := "POST";
  rq_path := "/internal/pair"; rq_body := JSON_stringify (JObject body) |}.

Definition anId : string := "session-0000000000000001".
Definition aToken : string := "token-000000000000000000000000000000000001".

Definition openRequest : Request := pairRequest
  [("kind", JString "create"); ("ephemeral", JString aKey); ("expiration", JString "100000")].
Definition phoneSignature : string := signMessage aWallet (buildEphemeralMessage aKey 100000).
Definition completeRequest : Request := pairRequest
  [("kind", JString "complete"); ("id", JString anId); ("signer", JString aWallet);
   ("signature", JString phoneSignature)].
Definition pollRequest : Request := pairRequest
  [("kind", JString "poll"); ("id", JString anId); ("pollToken", JString aToken)].

(** The state and the facts after a request. *)
Definition afterRequest (request : Request) (id token : string) (now : Z) (s : PairServer * list Fact)
    : PairServer * list Fact :=
  let r := pairAction request id token now s.1 in (r.2, s.2 ++ factsOf request now r.1).

Definition afterCompletion (n : nat) (now : Z) (s : PairServer * list Fact) : PairServer * list Fact :=
  ((pairCompleted n now s.1).2, s.2).

Definition signedIn : PairServer * list Fact :=
  afterRequest pollRequest "unused-3" "" 4000 (afterCompletion 0 3000
    (afterRequest completeRequest "unused-2" "" 2000
      (afterRequest openRequest anId aToken 1000 pair_start))).

Lemma signedIn_facts : signedIn.2 =
  [Opened anId aToken aKey 100000 1000; Collected anId aToken aWallet phoneSignature 4000].
Proof. by vm_compute. Qed.

Lemma signedIn_reachable : rtc pair_step pair_start signedIn.
Proof.
  eapply rtc_l; [apply (step_request _ openRequest anId aToken 1000); apply not_elem_of_nil|].
  eapply rtc_l; [apply (step_request _ completeRequest "unused-2" "" 2000)|].
  { change (omap opened _) with (omap opened (afterRequest openRequest anId aToken 1000 pair_start).2).
    assert (omap opened (afterRequest openRequest anId aToken 1000 pair_start).2 = [anId]) as -> by by vm_compute.
    intros E%list_elem_of_singleton. discriminate. }
  eapply rtc_l; [apply (step_completed _ 0 3000)|].
  eapply rtc_l; [apply (step_request _ pollRequest "unused-3" "" 4000)|apply rtc_refl].
  lazymatch goal with |- _ ∉ ?l => assert (l = [anId]) as -> by by vm_compute end.
  intros E%list_elem_of_singleton. discriminate.
Qed.

Lemma pairing_safe_witness :
  Collected anId aToken aWallet phoneSignature 4000 ∈ signedIn.2 ∧
  NoDup (omap collected signedIn.2).
Proof.
  assert (Collected anId aToken aWallet phoneSignature 4000 ∈ signedIn.2) as Hin.
  { rewrite signedIn_facts. right. by left. }
  split; [exact Hin|].
  destruct (pairing_safe signedIn.1 signedIn.2) as (_ & Hnd & _); [|exact Hnd].
  rewrite <- surjective_pairing. exact signedIn_reachable.
Defined.

(** The bound is reached: after a first call, forty at the end of its window and forty when
    it is over. *)
Definition manyCalls : list (string * Z) :=
  ("203.0.113.7", 0) :: replicate 40 ("203.0.113.7", 300000) ++ replicate 40 ("203.0.113.7", 300001).

Lemma allowPairCreate_bounded_witness :
  allowedIn "203.0.113.7" 1 manyCalls ∅ = 59 ∧
  allowedIn "203.0.113.7" 1 manyCalls ∅ < 2 * RATE_MAX_CREATES.
Proof.
  split; [by vm_compute|]. apply (allowPairCreate_bounded "203.0.113.7" 1 manyCalls).
  apply Sorting.Sorted.Sorted_StronglySorted; [intros c d e; simpl; lia|]. unfold manyCalls. simpl.
  repeat (constructor; [|constructor; simpl; lia]). by repeat constructor.
Defined.
