(* ===== verification/StepDebugger.v ===== *)
(** * The step debugger of the scene editor

    [ui3/src/editor/debugger.ts]: it freezes the running scene, advances it by some
    ticks at a time and shows what changed.  It talks to the engine by commands of
    its console, whose answers are texts.

    A function of the controller is a computation that runs until its next [await]
    and goes on when what it waits for is settled; until then any other function may
    be called or go on ([Session]).  Awaiting a function of the controller itself
    is an [await] too. *)

From Stdlib Require Import Ascii.
From S2P Require Import Prelude JsString TextSearch SyncEngine JsonParse DebugDiff.
Open Scope string_scope.
Open Scope list_scope.
Open Scope Z_scope.

(** ** What the console answers *)

(** [(\d+)] *)
Definition digits (s : string) : option Z :=
  let d := (span is_digit s).1 in if String.eqb d "" then None else Some (parseDigits 0 d).

(** [parseTickReply], ui3/src/editor/debugger.ts:243-246 *)
Definition parseTickReply (reply : string) : option Z :=
  firstMatch (λ s, t ← after "from" s;
    if String.eqb (skipBlanks t) t then None else digits (skipBlanks t)) reply.

(** [SceneStats], ui3/src/editor/debugger.ts:248-253 *)
Record SceneStats := {
  st_tick : option Z;
  st_frozen : bool;
  st_title : option string;
  st_entities : option Z
}.

(** [status], whose group is not empty; after [status:] there may be blanks only,
    which do not say [frozen].  ui3/src/editor/debugger.ts:258-258 *)
Definition statusOf (raw : string) : option string :=
  firstMatch (λ s, t ← after "status:" s;
    let line := restOfLine (skipBlanks t) in
    if String.eqb line "" then None else Some line) raw.

(** [title], ui3/src/editor/debugger.ts:259-259 *)
Definition titleOf (raw : string) : option string :=
  let quote := Ascii.ascii_of_N 39 in
  firstMatch (λ s, t ← after "scene:" s; t ← after (String quote "") (skipBlanks t);
    let '(title, rest) := span (λ c, negb (Ascii.eqb c quote)) t in
    if String.eqb rest "" then None else Some title) raw.

(** [parseSceneStats], ui3/src/editor/debugger.ts:255-266 *)
Definition parseSceneStats (raw : string) : SceneStats :=
  let number name := firstMatch (λ s, t ← after name s; digits (skipBlanks t)) raw in
  {| st_tick := number "tick:";
     st_frozen := match statusOf raw with
                  | Some status => includes "frozen" (toLowerCase status)
                  | None => false
                  end;
     st_title := titleOf raw;
     st_entities := number "entities:" |}.

(** ** Telemetry *)

(** [DEBUG_LOG_PREFIX], ui3/src/editor/debugger.ts:173-173 *)
Definition DEBUG_LOG_PREFIX : string := "one-dbg ".

(** [DebugSystemRow], ui3/src/editor/debugger.ts:175-179 *)
Record DebugSystemRow := { row_name : string; row_ran : bool; row_runs : string }.

(** [DebugManifest], ui3/src/editor/debugger.ts:181-188; the created entities are not
    read.  Numbers stand as they are printed. *)
Record DebugManifest := {
  dm_game : option string;
  dm_tick : string;
  dm_systems : list DebugSystemRow;
  dm_handlers : string;
  dm_registry : bool
}.

(** [DebugSystemsView], ui3/src/editor/debugger.ts:190-195 *)
Record DebugSystemsView := {
  dv_game : option string;
  dv_rows : list DebugSystemRow;
  dv_handlers : string;
  dv_harnessTick : option string
}.

Definition textOf (v : option Json) : option string :=
  match v with Some (JString s) => Some s | _ => None end.

Definition numberOf (v : option Json) : option string :=
  match v with Some (JNumber t) => Some t | _ => None end.

Definition truthOf (v : option Json) : bool :=
  match v with Some (JBool b) => b | _ => false end.

(** A row and a manifest of the declared types, ui3/src/editor/debugger.ts:204-207 *)
Definition rowOf (v : Json) : DebugSystemRow :=
  match v with
  | JObject o => {| row_name := default "" (textOf (prop "name" o));
                    row_ran := truthOf (prop "ran" o);
                    row_runs := default "0" (numberOf (prop "runs" o)) |}
  | _ => {| row_name := ""; row_ran := false; row_runs := "0" |}
  end.

Definition manifestOf (v : Json) : option DebugManifest :=
  match v with
  | JObject o =>
      match prop "tick" o, prop "systems" o with
      | Some (JNumber tick), Some (JArray rows) =>
          Some {| dm_game := textOf (prop "game" o); dm_tick := tick;
                  dm_systems := rowOf <$> rows;
                  dm_handlers := default "0" (numberOf (prop "handlers" o));
                  dm_registry := truthOf (prop "registry" o) |}
      | _, _ => None
      end
  | _ => None
  end.

(** [aggregateManifests], ui3/src/editor/debugger.ts:214-241 *)
Definition ranByName (source : list DebugManifest) : list (string * bool) :=
  foldl (λ ran m,
    if dm_registry m then ran
    else foldl (λ ran s, setKey (row_name s) (default false (prop (row_name s) ran) || row_ran s)
                           ran) ran (dm_systems m)) [] source.

Definition aggregateManifests (batch : list DebugManifest) (fallback : option DebugManifest)
    : option DebugSystemsView :=
  let source :=
    if (0 <? length batch)%nat then batch
    else match fallback with Some m => [m] | None => [] end in
  last' ← last source;
  let ran := ranByName source in
  let rows := (λ s, {| row_name := row_name s;
                       row_ran := default false (prop (row_name s) ran);
                       row_runs := row_runs s |}) <$> dm_systems last' in
  Some {|
    dv_game := dm_game last';
    dv_rows := foldl (λ rows '(name, ran),
      if existsb (λ r, String.eqb (row_name r) name) rows then rows
      else rows ++ [{| row_name := name; row_ran := ran; row_runs := "0" |}]) rows ran;
    dv_handlers := dm_handlers last';
    dv_harnessTick := if dm_registry last' then None else Some (dm_tick last')
  |}.

(** ** Functions that await *)

(** What is awaited: an answer of the console, a pause, or a function of the
    controller that has returned. *)
Inductive Call :=
  | Run (command : string)
  | Sleep (ms : Z)
  | Turn.

(** How it settles: with a text, or with an error. *)
Inductive Reply := Resolved (text : string) | Rejected (error : string).

Export Awaits.
Abbreviation Async := (Awaits.Async Call Reply).
Abbreviation Act := (Awaits.Act Call Reply).

Section async.
Context {T : Type}.

(** [await] of a call, and of a function. *)
Definition await (c : Call) : Act T string :=
  λ s, (s, Await c (λ r s, (s, match r with Resolved t => Returned t | Rejected e => Threw e end))).

Definition awaiting {A} (m : Act T A) : Act T A :=
  after_all m (λ r s, (s, Await Turn (λ _ s,
    (s, match r with inl a => Returned a | inr e => Threw e end)))).
End async.

(** ** The controller *)

(** What it keeps, ui3/src/editor/debugger.ts:310-315; the manifests seen are a set
    of keys. *)
Record Dbg := {
  prev : option DebugSnapshot;
  busy : bool;
  disposed : bool;
  seenManifests : gset string;
  latestManifest : option DebugManifest
}.

#[export] Instance eta_Dbg : Eta Dbg := λ d, {|
  prev := prev d; busy := busy d; disposed := disposed d;
  seenManifests := seenManifests d; latestManifest := latestManifest d
|}.

Definition newDbg : Dbg :=
  {| prev := None; busy := false; disposed := false; seenManifests := ∅;
     latestManifest := None |}.

(** [DebugOpenResult], ui3/src/editor/debugger.ts:277-282 *)
Record DebugOpenResult := {
  or_tick : option Z;
  or_entities : Z;
  or_frozen : bool;
  or_systems : option DebugSystemsView
}.

(** [DebugStepResult], ui3/src/editor/debugger.ts:284-293 *)
Record DebugStepResult := {
  sr_tick : option Z;
  sr_fromTick : option Z;
  sr_count : Z;
  sr_entries : list EntityDiff;
  sr_unchangedEntities : Z;
  sr_totalEntities : Z;
  sr_timedOut : bool;
  sr_systems : option DebugSystemsView
}.

(** [Object.keys(null)] *)
Definition nullError : string :=
  "TypeError: Cannot convert undefined or null to object".

(** [createStepDebugger], with the pauses between polls and for how long it polls.  A
    pause is positive: for a pause of zero the number of polls is [Infinity], and the
    debugger polls until the scene stops. *)
Section controller.
Context (formatNum numberText : string → string) (pollMs : positive) (budgetMs : Z).
Local Open Scope act_scope.

(** The key of a manifest, ui3/src/editor/debugger.ts:326-326 *)
Definition manifestKey (m : DebugManifest) : string :=
  default "null" (dm_game m) +:+ "|" +:+ dm_tick m +:+ "|" +:+
  (if dm_registry m then "1" else "0").

(** [parseDebugLogManifests], ui3/src/editor/debugger.ts:197-212 *)
Definition parseDebugLogManifests (raw : string) : list DebugManifest :=
  omap (λ line,
    let i := indexOf DEBUG_LOG_PREFIX line in
    if decide (i = -1) then None
    else (m ← JSON_parse_text numberText
                (slice (Z.to_nat i + String.length DEBUG_LOG_PREFIX) line);
          manifestOf m)%stdpp) (split (Ascii.ascii_of_N 10) raw).

(** The loop over the manifests of a log, ui3/src/editor/debugger.ts:325-331 *)
Definition freshManifests (ms : list DebugManifest) (d : Dbg) : Dbg * list DebugManifest :=
  foldl (λ '(d, fresh) m,
    if decide (manifestKey m ∈ seenManifests d) then (d, fresh)
    else (d <| seenManifests ::= union {[manifestKey m]} |> <| latestManifest := Some m |>,
          fresh ++ [m])) (d, []) ms.

(** [readTelemetry], ui3/src/editor/debugger.ts:317-333 *)
Definition readTelemetry : Act Dbg (option DebugSystemsView) :=
  after_all (await (Run "scene_logs 150")) (λ r,
    match r with
    | inr _ => reading (λ d, returns (aggregateManifests [] (latestManifest d)))
    | inl raw => reading (λ d,
        let '(d', fresh) := freshManifests (parseDebugLogManifests raw) d in
        writing (λ _, d');;
        returns (aggregateManifests fresh (latestManifest d')))
    end).

(** A snapshot holds the components of each entity, ui3/src/editor/debugger.ts:1-1 *)
Definition snapshotOf (entities : list (string * Json)) : DebugSnapshot :=
  (λ '(id, v), (id, match v with JObject comps => comps | _ => [] end)) <$> entities.

(** [snapshot], ui3/src/editor/debugger.ts:335-342 *)
Definition snapshot : Act Dbg DebugSnapshot :=
  raw ← await (Run "crdt_snapshot");
  match JSON_parse_text numberText raw with
  | Some (JObject entities) => returns (snapshotOf entities)
  | Some _ => throws "Error: crdt_snapshot: unexpected shape"
  | None => throws "SyntaxError"
  end.

(** [stats], ui3/src/editor/debugger.ts:344-344 *)
Definition stats : Act Dbg SceneStats :=
  raw ← await (Run "scene_stats"); returns (parseSceneStats raw).

(** Whether the scene has stopped where it should, ui3/src/editor/debugger.ts:352-352 *)
Definition arrived (target : option Z) (st : SceneStats) : bool :=
  st_frozen st &&
  match target, st_tick st with
  | None, _ => true
  | Some target, Some tick => target <=? tick
  | Some _, None => false
  end.

(** The rounds of polling, ui3/src/editor/debugger.ts:349-356 *)
Fixpoint polls (rounds : nat) (target : option Z) (last : SceneStats)
    : Act Dbg (SceneStats * bool) :=
  match rounds with
  | O => returns (last, true)
  | S rounds => reading (λ d,
      if disposed d then returns (last, true)
      else
        last ← awaiting stats;
        if arrived target last then returns (last, false)
        else await (Sleep (Zpos pollMs));; polls rounds target last)
  end.

(** [Math.max(1, Math.ceil(budget / pollMs))] for a positive pause,
    ui3/src/editor/debugger.ts:348-348 *)
Definition rounds (budget : Z) : Z := Z.max 1 (- (- budget / Zpos pollMs)).

(** [waitFrozen], ui3/src/editor/debugger.ts:346-358 *)
Definition waitFrozen (target : option Z) (budget : Z) : Act Dbg (SceneStats * bool) :=
  polls (Z.to_nat (rounds budget)) target
    {| st_tick := None; st_frozen := false; st_title := None; st_entities := None |}.

(** [await run("freeze_scene").catch(() => undefined)],
    ui3/src/editor/debugger.ts:364-364 *)
Definition freeze : Act Dbg unit :=
  after_all (await (Run "freeze_scene")) (λ _, returns tt).

(** [open], ui3/src/editor/debugger.ts:361-370 *)
Definition open : Act Dbg DebugOpenResult :=
  first ← awaiting (waitFrozen None 1200);
  reading (λ d,
    waited ← (if first.2 && negb (disposed d)
              then freeze;; awaiting (waitFrozen None 1200)
              else returns first);
    snap ← awaiting snapshot;
    writing (λ d, d <| prev := Some snap |>);;
    systems ← awaiting readTelemetry;
    reading (λ d,
      match prev d with
      | None => throws nullError
      | Some snap => returns {| or_tick := st_tick waited.1;
                                or_entities := snapshotEntityCount snap;
                                or_frozen := st_frozen waited.1;
                                or_systems := systems |}
      end)).

(** [tick_scene], with a second try after freezing the scene,
    ui3/src/editor/debugger.ts:378-385 *)
Definition tickScene (n : Z) : Act Dbg string :=
  let tick := await (Run ("tick_scene " +:+ pretty n)) in
  catching tick (λ e,
    if includes "not frozen" (toLowerCase e) then freeze;; tick else throws e).

(** The body of [step], ui3/src/editor/debugger.ts:377-406 *)
Definition stepBody (n : Z) : Act Dbg (option DebugStepResult) :=
  reading (λ d,
    match prev d with
    | None => snap ← awaiting snapshot; writing (λ d, d <| prev := Some snap |>)
    | Some _ => returns tt
    end);;
  reply ← tickScene n;
  let fromTick := parseTickReply reply in
  let target := (λ t, t + n) <$> fromTick in
  waited ← awaiting (waitFrozen target (budgetMs + n * 50));
  next ← awaiting snapshot;
  systems ← awaiting readTelemetry;
  reading (λ d,
    match prev d with
    | None => throws nullError
    | Some before =>
        let entries := diffSnapshots formatNum before next in
        let total := snapshotEntityCount next in
        let changed := length (filter (λ e, ed_kind e ≠ EntityGone) entries) in
        writing (λ d, d <| prev := Some next |>);;
        returns (Some {|
          sr_tick := match st_tick waited.1 with Some t => Some t | None => target end;
          sr_fromTick := fromTick;
          sr_count := n;
          sr_entries := entries;
          sr_unchangedEntities := Z.max 0 (total - Z.of_nat changed);
          sr_totalEntities := total;
          sr_timedOut := waited.2;
          sr_systems := systems |})
    end).

(** The number of ticks of a step, ui3/src/editor/debugger.ts:374-374 *)
Definition ticks (count : Z) : Z := Z.max 1 (if decide (count = 0) then 1 else count).

(** [step], ui3/src/editor/debugger.ts:372-410 *)
Definition step (count : Z) : Act Dbg (option DebugStepResult) :=
  reading (λ d,
    if busy d || disposed d then returns None
    else
      writing (λ d, d <| busy := true |>);;
      finishing (stepBody (ticks count)) (λ d, d <| busy := false |>)).

(** [dispose], ui3/src/editor/debugger.ts:413-416 *)
Definition dispose (d : Dbg) : Dbg := d <| disposed := true |> <| prev := None |>.

(** ** Sessions *)

(** The calls of [open] and [step] so far, each where it has got to. *)
Inductive DbgTask :=
  | Opening (t : Async Dbg DebugOpenResult)
  | Stepping (t : Async Dbg (option DebugStepResult)).

Record Session := { dbg : Dbg; tasks : list DbgTask }.

Definition newSession : Session := {| dbg := newDbg; tasks := [] |}.

(** What happens: a call, or what a call waits for settles. *)
Inductive DbgEvent :=
  | CallOpen
  | CallStep (count : Z)
  | CallDispose
  | Settle (i : nat) (r : Reply).

Definition happen (ev : DbgEvent) (s : Session) : Session :=
  match ev with
  | CallOpen =>
      let '(d, t) := open (dbg s) in {| dbg := d; tasks := tasks s ++ [Opening t] |}
  | CallStep count =>
      let '(d, t) := step count (dbg s) in {| dbg := d; tasks := tasks s ++ [Stepping t] |}
  | CallDispose => {| dbg := dispose (dbg s); tasks := tasks s |}
  | Settle i r =>
      match tasks s !! i with
      | Some (Opening (Await _ next)) =>
          let '(d, t) := next r (dbg s) in
          {| dbg := d; tasks := <[i := Opening t]> (tasks s) |}
      | Some (Stepping (Await _ next)) =>
          let '(d, t) := next r (dbg s) in
          {| dbg := d; tasks := <[i := Stepping t]> (tasks s) |}
      | _ => s
      end
  end.

Definition session (evs : list DbgEvent) : Session := foldl (λ s ev, happen ev s) newSession evs.
End controller.

(** A function alone with a console: what it waits for settles as [answer] says. *)
Fixpoint drive {W T A} (answer : W → Call → W * Reply) (t : Async T A) (w : W) (s : T)
    : W * T * (A + string) :=
  match t with
  | Returned a => (w, s, inl a)
  | Threw e => (w, s, inr e)
  | Await c next =>
      let '(w, r) := answer w c in
      let '(s, t) := next r s in
      drive answer t w s
  end.
