(* ===== verification/StepDebuggerProofs.v ===== *)
(** * The step debugger ends its steps and shows them right

    Whatever is called and answered, in any order: one step runs at a time and the
    debugger is busy exactly while it does; every call ends after a bounded number
    of answers.  Alone with a scene that does as it is told, each step shows what
    its ticks changed.  Two histories show where calls that overlap disturb each
    other.

    At the end, a scene whose lamp is on at even ticks, over a console that needs a few
    polls, with two such histories. *)

From S2P Require Import Prelude JsString SyncEngine JsonParse JsonProofs DebugDiff.
From S2P Require Import TextSearch StepDebugger.
From Stdlib Require Import Ascii.
Open Scope string_scope.
Open Scope list_scope.
Open Scope Z_scope.

(** ** What a computation does to the state *)

Section abides.
Context {T : Type} (R : T → T → Prop) `{!PreOrder R}.

(** Every part of what is left of a function relates the state before it to the
    state after it. *)
#[warnings="-register-all"]
Inductive stays {A} : Async T A → Prop :=
  | stays_returned a : stays (Returned a)
  | stays_threw e : stays (Threw e)
  | stays_await c next :
      (∀ r s, R s (next r s).1) → (∀ r s, stays (next r s).2) → stays (Await c next).

Definition abides {A} (m : Act T A) : Prop := ∀ s, R s (m s).1 ∧ stays (m s).2.

Lemma abides_returns {A} (a : A) : abides (returns a).
Proof. intros s. split; [done|constructor]. Qed.

Lemma abides_throws {A} e : abides (throws (A := A) e).
Proof. intros s. split; [done|constructor]. Qed.

Lemma abides_reading {A} (f : T → Act T A) : (∀ s, abides (f s)) → abides (reading f).
Proof. intros Hf s. apply Hf. Qed.

Lemma abides_writing (f : T → T) : (∀ s, R s (f s)) → abides (writing f).
Proof. intros Hf s. split; [apply Hf|constructor]. Qed.

Lemma abides_await c : abides (await c).
Proof.
  intros s. split; [done|]. constructor; intros [] s'; simpl; done || constructor.
Qed.

Lemma abides_resume {A B} (t : Async T A) (f : A + string → Act T B) :
  stays t → (∀ r, abides (f r)) → abides (resume t f).
Proof.
  intros Ht Hf. induction Ht as [a|e|c next HR _ IH]; [apply Hf..|].
  intros s. split; [done|]. constructor; intros r s'; pose proof (HR r s') as H;
    specialize (IH r s'); destruct (next r s') as [s'' t'].
  - etrans; [exact H|apply IH].
  - apply IH.
Qed.

Lemma abides_after_all {A B} (m : Act T A) (f : A + string → Act T B) :
  abides m → (∀ r, abides (f r)) → abides (after_all m f).
Proof.
  intros Hm Hf s. unfold after_all. destruct (Hm s) as [HR Ht]. destruct (m s) as [s' t].
  destruct (abides_resume t f Ht Hf s') as [HR' Ht']. split; [by etrans|done].
Qed.

Lemma abides_bind {A B} (m : Act T A) (f : A → Act T B) :
  abides m → (∀ a, abides (f a)) → abides (bind m f).
Proof.
  intros Hm Hf. apply abides_after_all; [done|]. intros []; [done|apply abides_throws].
Qed.

Lemma abides_catching {A} (m : Act T A) f :
  abides m → (∀ e, abides (f e)) → abides (catching m f).
Proof.
  intros Hm Hf. apply abides_after_all; [done|]. intros []; [apply abides_returns|done].
Qed.

Lemma abides_awaiting {A} (m : Act T A) : abides m → abides (awaiting m).
Proof.
  intros Hm. apply abides_after_all; [done|]. intros r s. split; [done|].
  constructor; intros _ s'; [done|]. destruct r; constructor.
Qed.
End abides.

(** ** How long a computation takes *)

Section within.
Context {T : Type}.

(** What is left of a function ends after [n] answers at most, whatever they are and
    whatever else happens in between. *)
#[warnings="-register-all"]
Inductive within {A} : nat → Async T A → Prop :=
  | within_returned n a : within n (Returned a)
  | within_threw n e : within n (Threw e)
  | within_await n c next : (∀ r s, within n (next r s).2) → within (S n) (Await c next).

Definition settles {A} (n : nat) (m : Act T A) : Prop := ∀ s, within n (m s).2.

Lemma within_le {A} n n' (t : Async T A) : (n ≤ n')%nat → within n t → within n' t.
Proof.
  intros Hn Ht. revert n' Hn. induction Ht as [| |n c next _ IH]; intros n' Hn;
    [constructor..|]. destruct n' as [|n']; [lia|]. constructor. intros. apply IH. lia.
Qed.

Lemma settles_le {A} n n' (m : Act T A) : (n ≤ n')%nat → settles n m → settles n' m.
Proof. intros Hn Hm s. by eapply within_le. Qed.

Lemma settles_returns {A} n (a : A) : settles n (returns a).
Proof. constructor. Qed.

Lemma settles_throws {A} n e : settles n (throws (A := A) e).
Proof. constructor. Qed.

Lemma settles_reading {A} n (f : T → Act T A) : (∀ s, settles n (f s)) → settles n (reading f).
Proof. intros Hf s. apply Hf. Qed.

Lemma settles_writing n (f : T → T) : settles n (writing f).
Proof. constructor. Qed.

Lemma settles_await c : settles 1 (await c).
Proof. intros s. constructor. intros []; constructor. Qed.

Lemma settles_resume {A B} n n' (t : Async T A) (f : A + string → Act T B) :
  within n t → (∀ r, settles n' (f r)) → settles (n + n') (resume t f).
Proof.
  intros Ht Hf. induction Ht as [n a|n e|n c next _ IH];
    [intros s; eapply within_le; [|apply Hf]; lia..|].
  intros s. simpl. constructor. intros r s'. specialize (IH r s').
  destruct (next r s') as [s'' t']. apply IH.
Qed.

Lemma settles_after_all {A B} n n' (m : Act T A) (f : A + string → Act T B) :
  settles n m → (∀ r, settles n' (f r)) → settles (n + n') (after_all m f).
Proof.
  intros Hm Hf s. unfold after_all. specialize (Hm s). destruct (m s) as [s' t].
  by apply (settles_resume n n' t f).
Qed.

Lemma settles_bind {A B} n n' (m : Act T A) (f : A → Act T B) :
  settles n m → (∀ a, settles n' (f a)) → settles (n + n') (bind m f).
Proof. intros Hm Hf. apply settles_after_all; [done|]. intros []; [done|apply settles_throws]. Qed.

Lemma settles_catching {A} n n' (m : Act T A) f :
  settles n m → (∀ e, settles n' (f e)) → settles (n + n') (catching m f).
Proof. intros Hm Hf. apply settles_after_all; [done|]. intros []; [apply settles_returns|done]. Qed.

Lemma settles_awaiting {A} n (m : Act T A) : settles n m → settles (S n) (awaiting m).
Proof.
  intros Hm. rewrite <- Nat.add_1_r. apply settles_after_all; [done|].
  intros r s. constructor. intros _ s'. destruct r; constructor.
Qed.
End within.

Create HintDb async.
#[export] Hint Resolve abides_returns abides_throws abides_await abides_awaiting
  settles_returns settles_throws settles_writing : async.

(** ** The controller *)

(** What an [open], and a step but for its end, do to the state: what is seen and
    disposed of stays so, and the gate is not touched. *)
Definition gated (d d' : Dbg) : Prop :=
  busy d' = busy d ∧ (disposed d = true → disposed d' = true) ∧
  seenManifests d ⊆ seenManifests d'.

#[export] Instance gated_preorder : PreOrder gated.
Proof. unfold gated. split; [intros d; auto|intros d1 d2 d3; intuition (congruence || set_solver)]. Qed.

Ltac abide :=
  repeat (intros; lazymatch goal with
    | |- abides _ (returns _) => apply (abides_returns _)
    | |- abides _ (throws _) => apply (abides_throws _)
    | |- abides _ (await _) => apply (abides_await _)
    | |- abides _ (bind _ _) => apply (abides_bind _)
    | |- abides _ (after_all _ _) => apply (abides_after_all _)
    | |- abides _ (catching _ _) => apply (abides_catching _)
    | |- abides _ (awaiting _) => apply (abides_awaiting _)
    | |- abides _ (reading _) => apply abides_reading
    | |- abides _ (writing _) => apply abides_writing
    | |- abides _ (match ?x with _ => _ end) => destruct x
    end).

Section controller.
Context (formatNum numberText : string → string) (pollMs : positive) (budgetMs : Z).

Lemma freshManifests_gated ms d : gated d (freshManifests ms d).1.
Proof.
  unfold freshManifests. cut (∀ fresh, gated d (foldl (λ '(d, fresh) m,
    if decide (manifestKey m ∈ seenManifests d) then (d, fresh)
    else (d <| seenManifests ::= union {[manifestKey m]} |> <| latestManifest := Some m |>,
          fresh ++ [m])) (d, fresh) ms).1); [auto|].
  revert d. induction ms as [|m ms IH]; intros d fresh; simpl; [done|].
  case_decide; [apply IH|]. etrans; [|apply IH]. split_and!; [done|done|set_solver].
Qed.

Lemma readTelemetry_gated : abides gated (readTelemetry numberText).
Proof.
  apply abides_after_all; [apply _|apply (abides_await _)|].
  intros [raw|e]; [|abide]. intros d. unfold reading.
  pose proof (freshManifests_gated (parseDebugLogManifests numberText raw) d) as H.
  destruct (freshManifests _ d) as [d' fresh]. split; [done|constructor].
Qed.

Lemma snapshot_gated : abides gated (snapshot numberText).
Proof. unfold snapshot. abide. Qed.

Lemma polls_gated rounds target last : abides gated (polls pollMs rounds target last).
Proof.
  revert last. induction rounds as [|rounds IH]; intros last; simpl; unfold stats; abide. intros. apply IH.
Qed.

Lemma freeze_gated : abides gated freeze.
Proof. unfold freeze. abide. Qed.

Lemma writing_prev_gated f : abides gated (writing (λ d, d <| prev := f d |>)).
Proof. abide. intros d. by split_and!. Qed.

#[local] Hint Resolve readTelemetry_gated snapshot_gated polls_gated freeze_gated
  writing_prev_gated : core.

Lemma open_gated : abides gated (open numberText pollMs).
Proof. unfold open, waitFrozen. abide; auto; try (intros; by split_and!). Qed.

Lemma stepBody_gated n : abides gated (stepBody formatNum numberText pollMs budgetMs n).
Proof.
  unfold stepBody, waitFrozen, tickScene. abide; auto; try (intros; by split_and!).
Qed.

(** *** One step at a time *)

Definition running {T A} (t : Async T A) : bool :=
  match t with Await _ _ => true | _ => false end.

Definition running_step (task : DbgTask) : bool :=
  match task with Stepping t => running t | Opening _ => false end.

(** What is left of a step opens the gate when it ends and not before. *)
#[warnings="-register-all"]
Inductive guarded {A} : Async Dbg A → Prop :=
  | guarded_returned a : guarded (Returned a)
  | guarded_threw e : guarded (Threw e)
  | guarded_await c next :
      (∀ r d, busy d = true → busy (next r d).1 = running (next r d).2) →
      (∀ r d, busy d = true → guarded (next r d).2) → guarded (Await c next).

Lemma finishing_guarded {A} (t : Async Dbg A) :
  stays gated t →
  let release := λ (r : A + string) (d : Dbg),
    (d <| busy := false |>, match r with inl a => Returned a | inr e => Threw e end) in
  ∀ d, busy d = true →
    busy (resume t release d).1 = running (resume t release d).2 ∧
    guarded (resume t release d).2.
Proof.
  intros Ht release. induction Ht as [a|e|c next HR _ IH]; intros d Hd;
    [split; [done|constructor]..|].
  simpl. split; [done|].
  assert (∀ r d, busy d = true →
    let '(d, t) := next r d in
    busy (resume t release d).1 = running (resume t release d).2 ∧
    guarded (resume t release d).2) as H.
  { intros r d' Hd'. specialize (HR r d'). specialize (IH r d').
    destruct (next r d') as [d'' t']. apply IH. simpl in HR. by rewrite (proj1 HR). }
  constructor; intros r d' Hd'; specialize (H r d' Hd'); destruct (next r d') as [d'' t'];
    apply H.
Qed.

Local Abbreviation step := (step formatNum numberText pollMs budgetMs).
Local Abbreviation happen := (happen formatNum numberText pollMs budgetMs).
Local Abbreviation session := (session formatNum numberText pollMs budgetMs).

Lemma step_gate count d :
  let '(d', t) := step count d in
  guarded t ∧
  if busy d || disposed d then d' = d ∧ t = Returned None else busy d' = running t.
Proof.
  unfold step, StepDebugger.step, reading. destruct (busy d || disposed d) eqn:Hd.
  { split; [constructor|done]. }
  apply orb_false_iff in Hd as [Hd _]. unfold bind, after_all, writing, finishing. simpl.
  set (d1 := d <| busy := true |>).
  destruct (stepBody_gated (ticks count) d1) as [Hg Hs].
  unfold after_all. destruct (stepBody _ _ _ _ _ d1) as [d2 t]. simpl in *.
  destruct (finishing_guarded t Hs d2) as [Hb Ht]; [by rewrite (proj1 Hg)|].
  by destruct (resume t _ d2) as [d3 t'].
Qed.

(** The steps that are running are as many as the gate says, none or one. *)
Definition session_ok (s : Session) : Prop :=
  length (filter running_step (tasks s)) = (if busy (dbg s) then 1 else 0)%nat ∧
  Forall (λ task, match task with Opening t => stays gated t | Stepping t => guarded t end)
    (tasks s).

Lemma filter_app_one {A} (P : A → Prop) `{∀ x, Decision (P x)} l x :
  length (filter P (l ++ [x])) = (length (filter P l) + if decide (P x) then 1 else 0)%nat.
Proof. rewrite filter_app, length_app, filter_cons. by destruct (decide (P x)). Qed.

Lemma filter_insert {A} (P : A → Prop) `{∀ x, Decision (P x)} l i x y :
  l !! i = Some x →
  (length (filter P (<[i := y]> l)) + (if decide (P x) then 1 else 0) =
   length (filter P l) + (if decide (P y) then 1 else 0))%nat.
Proof.
  intros Hi. rewrite insert_take_drop by by eapply lookup_lt_Some.
  assert (filter P l = filter P (take i l) ++ filter P (x :: drop (S i) l)) as ->
    by by rewrite <- filter_app, take_drop_middle.
  rewrite !filter_app, !filter_cons, !length_app.
  destruct (decide (P x)), (decide (P y)); simpl; lia.
Qed.

Lemma happen_ok ev s : session_ok s → session_ok (happen ev s).
Proof.
  destruct s as [d ts]. intros [Hn Hall]. destruct ev as [|count| |i r]; simpl in *.
  - pose proof (open_gated d) as [Hg Hs]. destruct (open numberText pollMs d) as [d' t].
    split; simpl.
    + rewrite filter_app_one, (decide_False (P := running_step (Opening t))) by (intros []). simpl in Hg. rewrite Hn, (proj1 Hg). lia.
    + apply Forall_app. by repeat constructor.
  - pose proof (step_gate count d) as H. destruct (step count d) as [d' t].
    destruct H as [Ht Hd]. split; simpl; [|apply Forall_app; by repeat constructor].
    rewrite filter_app_one, Hn. simpl. destruct (busy d) eqn:Hb.
    + destruct Hd as [-> ->]. by rewrite Hb.
    + destruct (disposed d); [destruct Hd as [-> ->]; by rewrite Hb|].
      rewrite Hd. by destruct (running t).
  - split; simpl; [|done]. exact Hn.
  - destruct (ts !! i) as [task|] eqn:Hi; [|done].
    pose proof (Forall_lookup_1 _ _ _ _ Hall Hi) as Ht.
    destruct task as [[| |c next]|[| |c next]]; try done.
    + inversion Ht as [| |? ? HR Hnext]; subst. specialize (HR r d). specialize (Hnext r d).
      destruct (next r d) as [d' t]. split; simpl; [|by apply Forall_insert].
      pose proof (filter_insert running_step ts i (Opening (Await c next)) (Opening t) Hi) as H.
      simpl in *. rewrite (proj1 HR). lia.
    + assert (busy d = true) as Hd.
      { destruct (busy d); [done|]. apply length_zero_iff_nil in Hn.
        assert (Stepping (Await c next) ∈ filter running_step ts) as H; [|by rewrite Hn in H; apply not_elem_of_nil in H].
        apply list_elem_of_filter. split; [done|by eapply list_elem_of_lookup_2]. }
      inversion Ht as [| |? ? Hb Hnext]; subst. specialize (Hb r d Hd).
      specialize (Hnext r d Hd). destruct (next r d) as [d' t].
      split; simpl; [|by apply Forall_insert].
      pose proof (filter_insert running_step ts i (Stepping (Await c next)) (Stepping t) Hi) as H.
      simpl in *. rewrite Hd in Hn. rewrite Hb. destruct (running t); simpl in *; lia.
Qed.

Lemma session_reachable evs : session_ok (session evs).
Proof.
  unfold session. assert (session_ok newSession) as H by by split.
  revert H. generalize newSession. induction evs as [|ev evs IH]; [done|].
  intros s Hs. apply IH. by apply happen_ok.
Qed.

(** *** Every call ends *)

Lemma stats_ends : settles 1 stats.
Proof. apply (settles_bind 1 0); auto with async. apply settles_await. Qed.

Lemma polls_ends n target last : settles (3 * n) (polls pollMs n target last).
Proof.
  revert last. induction n as [|n IH]; intros last; [apply settles_returns|].
  apply settles_reading. intros d. destruct (disposed d); [apply settles_returns|].
  apply (settles_le (2 + (1 + 3 * n))); [lia|]. apply settles_bind.
  - apply settles_awaiting, stats_ends.
  - intros st. destruct (arrived target st); [apply settles_returns|].
    apply (settles_bind 1 (3 * n)); [apply settles_await|auto].
Qed.

Lemma snapshot_ends : settles 1 (snapshot numberText).
Proof.
  apply (settles_bind 1 0); [apply settles_await|]. intros raw. repeat case_match; auto with async.
Qed.

Lemma readTelemetry_ends : settles 1 (readTelemetry numberText).
Proof.
  apply (settles_after_all 1 0); [apply settles_await|].
  intros [raw|e]; apply settles_reading; intros d; [|apply settles_returns].
  destruct (freshManifests _ d). apply (settles_bind 0 0); auto with async.
Qed.

Lemma open_ends : settles (6 * Z.to_nat (rounds pollMs 1200) + 7) (open numberText pollMs).
Proof.
  set (k := Z.to_nat (rounds pollMs 1200)).
  assert (settles (3 * k + 1) (awaiting (waitFrozen pollMs None 1200))) as Hwait.
  { rewrite Nat.add_1_r. apply settles_awaiting, polls_ends. }
  apply (settles_le ((3 * k + 1) + ((1 + (3 * k + 1)) + (2 + (0 + (2 + 0)))))); [lia|].
  apply settles_bind; [done|]. intros first. apply settles_reading. intros d. apply settles_bind.
  { destruct (first.2 && negb (disposed d)); [|apply settles_returns].
    apply settles_bind; [|done]. apply (settles_after_all 1 0); [apply settles_await|].
    intros. apply settles_returns. }
  intros waited. apply settles_bind; [apply settles_awaiting, snapshot_ends|]. intros snap.
  apply settles_bind; [apply settles_writing|]. intros _.
  apply settles_bind; [apply settles_awaiting, readTelemetry_ends|]. intros systems.
  apply settles_reading. intros d'. destruct (prev d'); auto with async.
Qed.

Lemma tickScene_ends n : settles 3 (tickScene n).
Proof.
  apply (settles_catching 1 2); [apply settles_await|]. intros e.
  destruct (includes _ _); [|apply settles_throws]. apply (settles_bind 1 1); [|intros; apply settles_await].
  apply (settles_after_all 1 0); [apply settles_await|]. intros. apply settles_returns.
Qed.

Lemma stepBody_ends n :
  settles (3 * Z.to_nat (rounds pollMs (budgetMs + n * 50)) + 10)
    (stepBody formatNum numberText pollMs budgetMs n).
Proof.
  set (k := Z.to_nat (rounds pollMs (budgetMs + n * 50))).
  apply (settles_le ((2 + 0) + (3 + ((3 * k + 1) + (2 + (2 + 0)))))); [lia|].
  apply settles_bind.
  { apply settles_reading. intros d. destruct (prev d); [apply settles_returns|].
    apply settles_bind; [apply settles_awaiting, snapshot_ends|]. intros. apply settles_writing. }
  intros _. apply settles_bind; [apply tickScene_ends|]. intros reply.
  apply settles_bind; [rewrite Nat.add_1_r; apply settles_awaiting, polls_ends|]. intros waited.
  apply settles_bind; [apply settles_awaiting, snapshot_ends|]. intros next.
  apply settles_bind; [apply settles_awaiting, readTelemetry_ends|]. intros systems.
  apply settles_reading. intros d. destruct (prev d); [|apply settles_throws].
  apply (settles_bind 0 0); auto with async.
Qed.

Lemma step_ends count :
  settles (3 * Z.to_nat (rounds pollMs (budgetMs + ticks count * 50)) + 10) (step count).
Proof.
  apply settles_reading. intros d. destruct (busy d || disposed d); [apply settles_returns|].
  apply (settles_bind 0); [apply settles_writing|]. intros _.
  rewrite <- (Nat.add_0_r (_ + 10)). apply settles_after_all; [apply stepBody_ends|].
  intros [] d'; constructor.
Qed.

(** C15.  Whatever is called, in any order, and however what is awaited settles, the
    step debugger runs no two steps at once and is busy exactly while it runs one: a
    step that fails frees it too.  A step asked for meanwhile, or after it was
    disposed of, is null at once and changes nothing. *)
Theorem debugger_one_step evs :
  let s := session evs in
  length (filter running_step (tasks s)) = (if busy (dbg s) then 1 else 0)%nat ∧
  ∀ count, busy (dbg s) || disposed (dbg s) = true →
    happen (CallStep count) s = {| dbg := dbg s; tasks := tasks s ++ [Stepping (Returned None)] |}.
Proof.
  intros s. split; [apply session_reachable|]. intros count Hd. simpl.
  pose proof (step_gate count (dbg s)) as H. destruct (step count (dbg s)) as [d t].
  rewrite Hd in H. by destruct H as [_ [-> ->]].
Qed.

(** C30.  With a positive number of milliseconds between polls, every call of the step
    debugger ends: whatever the console answers and whatever else is called in between,
    [open] ends after [6 * r + 7] answers at most and a step after [3 * r + 10], where
    [r] is the number of its polls.  With none between them the code polls for ever, and
    the model leaves that case out. *)
Theorem debugger_ends count d :
  within (6 * Z.to_nat (rounds pollMs 1200) + 7) (open numberText pollMs d).2 ∧
  within (3 * Z.to_nat (rounds pollMs (budgetMs + ticks count * 50)) + 10) (step count d).2.
Proof. split; [apply open_ends|apply step_ends]. Qed.
End controller.

(** ** Alone with a scene *)

Section run.
Context {W T : Type} (answer : W → Call → W * Reply).

(** A function called and answered until it ends. *)
Definition run {A} (m : Act T A) (w : W) (s : T) : W * T * (A + string) :=
  let '(s, t) := m s in drive answer t w s.

Lemma drive_resume {A B} (t : Async T A) (f : A + string → Act T B) w s :
  run (resume t f) w s = let '(w, s, r) := drive answer t w s in run (f r) w s.
Proof.
  revert t w s. fix IH 1. intros [a|e|c next] w s; [done..|].
  unfold run. simpl. destruct (answer w c) as [w' r].
  destruct (next r s) as [s' t']. pose proof (IH t' w' s') as E. clear IH. unfold run in E.
  by destruct (resume t' f s') as [s'' t''].
Qed.

Lemma run_after_all {A B} (m : Act T A) (f : A + string → Act T B) w s :
  run (after_all m f) w s = let '(w, s, r) := run m w s in run (f r) w s.
Proof.
  unfold run at 1 2, after_all. destruct (m s) as [s' t]. rewrite <- drive_resume. done.
Qed.

Lemma run_bind {A B} (m : Act T A) (f : A → Act T B) w s w' s' a :
  run m w s = (w', s', inl a) → run (bind m f) w s = run (f a) w' s'.
Proof. intros Hm. unfold bind. by rewrite run_after_all, Hm. Qed.

Lemma run_await c w s w' r :
  answer w c = (w', r) →
  run (await c) w s = (w', s, match r with Resolved t => inl t | Rejected e => inr e end).
Proof. intros Hc. unfold run, await. simpl. rewrite Hc. by destruct r. Qed.

Lemma run_awaiting {A} (m : Act T A) w s w' s' r :
  run m w s = (w', s', r) →
  run (awaiting m) w s = ((answer w' Turn).1, s', r).
Proof.
  intros Hm. unfold awaiting. rewrite run_after_all, Hm. unfold run. simpl.
  destruct (answer w' Turn). by destruct r.
Qed.

Lemma run_reading {A} (f : T → Act T A) w s : run (reading f) w s = run (f s) w s.
Proof. done. Qed.
End run.

(** A console of a scene: what it answers, what the scene holds at each tick, and how
    many times at most it is polled before it has stopped. *)
Class SceneConsole (W : Type) := {
  answer : W → Call → W * Reply;
  scene : Z → DebugSnapshot;
  lag : nat;
  (** The scene stops at a tick, after some more polls at most. *)
  stops : W → Z → nat → Prop
}.

Class SceneConsoleLaws (numberText : string → string) (W : Type) `{SceneConsole W} := {
  snapshot_law w t : stops w t 0 →
    ∃ w' text es, answer w (Run "crdt_snapshot") = (w', Resolved text) ∧ stops w' t 0 ∧
      JSON_parse_text numberText text = Some (JObject es) ∧ snapshotOf es = scene t;
  tick_law w t n : stops w t 0 → 1 ≤ n →
    ∃ w' text, answer w (Run ("tick_scene " +:+ pretty n)) = (w', Resolved text) ∧
      stops w' (t + n) lag ∧ parseTickReply text = Some t;
  stats_law w t k : stops w t k →
    ∃ w' text, answer w (Run "scene_stats") = (w', Resolved text) ∧
      (if arrived (Some t) (parseSceneStats text)
       then stops w' t 0 ∧ st_tick (parseSceneStats text) = Some t
       else ∃ k', k = S k' ∧ stops w' t k');
  logs_law w t : stops w t 0 →
    ∃ w' text, answer w (Run "scene_logs 150") = (w', Resolved text) ∧ stops w' t 0;
  sleep_law w t k ms : stops w t k →
    ∃ w' text, answer w (Sleep ms) = (w', Resolved text) ∧ stops w' t k;
  turn_law w t k : stops w t k → stops (answer w Turn).1 t k
}.

Section alone.
Context (formatNum numberText : string → string) (pollMs : positive) (budgetMs : Z).
Context {W : Type} `{Laws : SceneConsoleLaws numberText W}.
Local Abbreviation step := (step formatNum numberText pollMs budgetMs).

Lemma polls_arrive t n k w d last :
  stops w t k → (k < n)%nat → disposed d = false →
  ∃ w' st, run answer (polls pollMs n (Some t) last) w d = (w', d, inl (st, false)) ∧
    stops w' t 0 ∧ st_tick st = Some t.
Proof.
  intros Hw Hk Hd. revert k w last Hw Hk.
  induction n as [|n IH]; intros k w last Hw Hk; [lia|].
  simpl polls. rewrite run_reading, Hd.
  destruct (stats_law w t k Hw) as (w1 & text & Hstats & Harr).
  erewrite run_bind; [|apply run_awaiting; unfold stats;
    erewrite run_bind; [done|by eapply run_await in Hstats]].
  set (st := parseSceneStats text) in *.
  destruct (arrived (Some t) st) eqn:Ha.
  - destruct Harr as [Hs Ht]. eexists _, st. split; [done|]. split; [by apply turn_law|done].
  - destruct Harr as (k' & -> & Hs). apply turn_law in Hs.
    destruct (sleep_law _ t k' (Zpos pollMs) Hs) as (w2 & x & Hsleep & Hs2).
    erewrite run_bind; [|by eapply run_await in Hsleep].
    apply (IH k'); [done|lia].
Qed.
Lemma run_snapshot w t d :
  stops w t 0 →
  ∃ w', run answer (awaiting (snapshot numberText)) w d = (w', d, inl (scene t)) ∧ stops w' t 0.
Proof.
  intros Hw. destruct (snapshot_law w t Hw) as (w1 & text & es & Hsnap & H1 & Hjson & Hes).
  eexists. split; [|by apply (turn_law w1)]. apply run_awaiting. unfold snapshot.
  erewrite run_bind; [|by eapply run_await in Hsnap]. by rewrite Hjson, Hes.
Qed.

Lemma freshManifests_kept ms d :
  let d' := (freshManifests ms d).1 in
  prev d' = prev d ∧ busy d' = busy d ∧ disposed d' = disposed d.
Proof.
  unfold freshManifests. cut (∀ fresh, let d' := (foldl (λ '(d, fresh) m,
    if decide (manifestKey m ∈ seenManifests d) then (d, fresh)
    else (d <| seenManifests ::= union {[manifestKey m]} |> <| latestManifest := Some m |>,
          fresh ++ [m])) (d, fresh) ms).1 in
    prev d' = prev d ∧ busy d' = busy d ∧ disposed d' = disposed d); [auto|].
  revert d. induction ms as [|m ms IH]; intros d fresh; simpl; [done|].
  case_decide; [apply IH|]. by destruct (IH (d <| seenManifests ::= union {[manifestKey m]} |>
    <| latestManifest := Some m |>) (fresh ++ [m])) as (-> & -> & ->).
Qed.

Lemma run_telemetry w t d :
  stops w t 0 →
  ∃ w' d' view, run answer (awaiting (readTelemetry numberText)) w d = (w', d', inl view) ∧
    stops w' t 0 ∧ prev d' = prev d ∧ busy d' = busy d ∧ disposed d' = disposed d.
Proof.
  intros Hw. destruct (logs_law w t Hw) as (w1 & text & Hlogs & H1).
  pose proof (freshManifests_kept (parseDebugLogManifests numberText text) d) as Hkept.
  destruct (freshManifests (parseDebugLogManifests numberText text) d) as [d' fresh] eqn:Hf.
  eexists _, d', _. split; [|split; [by apply (turn_law w1)|done]].
  apply run_awaiting. unfold readTelemetry. rewrite run_after_all.
  erewrite run_await by exact Hlogs. cbv beta iota. rewrite run_reading, Hf. done.
Qed.

Lemma run_tick w t n d :
  stops w t 0 → 1 ≤ n →
  ∃ w' reply, run answer (tickScene n) w d = (w', d, inl reply) ∧
    stops w' (t + n) lag ∧ parseTickReply reply = Some t.
Proof.
  intros Hw Hn. destruct (tick_law w t n Hw Hn) as (w1 & reply & Htick & H1 & Hr).
  exists w1, reply. split; [|done]. unfold tickScene, catching. rewrite run_after_all.
  by erewrite run_await by exact Htick.
Qed.

(** What a step of [n] ticks from [t] shows. *)
Definition step_shows (t n : Z) (r : DebugStepResult) : Prop :=
  sr_fromTick r = Some t ∧ sr_tick r = Some (t + n) ∧ sr_count r = n ∧
  sr_timedOut r = false ∧
  sr_entries r = diffSnapshots formatNum (scene t) (scene (t + n)) ∧
  sr_totalEntities r = Z.of_nat (length (scene (t + n))).

Definition ready (d : Dbg) (t : Z) : Prop :=
  prev d = Some (scene t) ∧ busy d = false ∧ disposed d = false.

Definition polled_enough (n : Z) : Prop :=
  (lag < Z.to_nat (rounds pollMs (budgetMs + n * 50)))%nat.

Lemma run_stepBody w t n d :
  stops w t 0 → 1 ≤ n → polled_enough n → prev d = Some (scene t) → disposed d = false →
  ∃ w' d' r, run answer (stepBody formatNum numberText pollMs budgetMs n) w d =
      (w', d', inl (Some r)) ∧
    stops w' (t + n) 0 ∧ prev d' = Some (scene (t + n)) ∧ disposed d' = false ∧
    step_shows t n r.
Proof.
  intros Hw Hn Hpolls Hprev Hdis. unfold stepBody.
  destruct (run_tick w t n d Hw Hn) as (w1 & reply & Htick & H1 & Hreply).
  destruct (polls_arrive (t + n) _ _ w1 d
    {| st_tick := None; st_frozen := false; st_title := None; st_entities := None |}
    H1 Hpolls Hdis) as (w2 & st & Hwait & H2 & Hst).
  apply turn_law in H2. destruct (run_snapshot _ _ d H2) as (w3 & Hsnap & H3).
  destruct (run_telemetry _ _ d H3) as (w4 & d4 & view & Htele & H4 & Hp4 & Hb4 & Hd4).
  erewrite run_bind by (rewrite run_reading, Hprev; done).
  erewrite run_bind by exact Htick. rewrite Hreply. simpl.
  erewrite run_bind by (apply run_awaiting; exact Hwait).
  erewrite run_bind by exact Hsnap. erewrite run_bind by exact Htele.
  rewrite run_reading, Hp4, Hprev. eexists _, _, _. split; [done|]. simpl.
  split_and!; [done|done|congruence|]. split_and!; simpl; try done. by rewrite Hst.
Qed.

Lemma run_step w t count d :
  stops w t 0 → ready d t → polled_enough (ticks count) →
  ∃ w' d' r, run answer (step count) w d = (w', d', inl (Some r)) ∧
    stops w' (t + ticks count) 0 ∧ ready d' (t + ticks count) ∧ step_shows t (ticks count) r.
Proof.
  intros Hw (Hprev & Hb & Hd) Hpolls. unfold step, StepDebugger.step.
  rewrite run_reading, Hb, Hd. simpl.
  destruct (run_stepBody w t (ticks count) (d <| busy := true |>)) as
    (w' & d' & r & Hrun & Hw' & Hp' & Hd' & Hr); [done|unfold ticks; lia|done..|].
  exists w', (d' <| busy := false |>), r. split; [|done].
  erewrite run_bind by done. unfold finishing. by rewrite run_after_all, Hrun.
Qed.

(** Steps one after the other. *)
Fixpoint run_steps (counts : list Z) (w : W) (d : Dbg)
    : W * Dbg * list (option DebugStepResult + string) :=
  match counts with
  | [] => (w, d, [])
  | count :: counts =>
      let '(w, d, r) := run answer (step count) w d in
      let '(w, d, rs) := run_steps counts w d in (w, d, r :: rs)
  end.

Fixpoint steps_show (t : Z) (counts : list Z) (rs : list (option DebugStepResult + string))
    : Prop :=
  match counts, rs with
  | [], [] => True
  | count :: counts, inl (Some r) :: rs =>
      step_shows t (ticks count) r ∧ steps_show (t + ticks count) counts rs
  | _, _ => False
  end.

(** C16.  Alone with a scene that does as it is told and stops before it has been
    polled too often, every step of a series returns what its ticks changed: the
    differences between the components before and after them, from the tick where
    the last step ended. *)
Theorem debugger_shows_steps counts t w d :
  stops w t 0 → ready d t → Forall (λ count, polled_enough (ticks count)) counts →
  let '(w', d', rs) := run_steps counts w d in
  steps_show t counts rs ∧
  stops w' (foldl (λ t count, t + ticks count) t counts) 0 ∧
  ready d' (foldl (λ t count, t + ticks count) t counts).
Proof.
  intros Hw Hd Hcounts. revert t w d Hw Hd.
  induction Hcounts as [|count counts Hc _ IH]; intros t w d Hw Hd; [done|]. simpl.
  destruct (run_step w t count d Hw Hd Hc) as (w1 & d1 & r & -> & Hw1 & Hd1 & Hr).
  specialize (IH _ _ _ Hw1 Hd1). destruct (run_steps counts w1 d1) as [[w2 d2] rs].
  destruct IH as (Hrs & Hw2 & Hd2). done.
Qed.
End alone.

(** ** A console *)

Definition newline : string := String (Ascii.ascii_of_N 10) "".

Definition lampScene (on : bool) : list (string * Json) :=
  [("512", JObject [("core::Lamp", JObject [("on", JBool on)])])].

Definition lampStats (status : string) (tick : Z) : string :=
  "status: " +:+ status +:+ newline +:+ "tick: " +:+ pretty tick.

(** The scene is at a tick and reports another status for some polls. *)
Definition lampAnswer (w : Z * nat) (c : Call) : (Z * nat) * Reply :=
  match c with
  | Run command =>
      if String.eqb command "crdt_snapshot" then
        (w, Resolved (stableStringify (JObject (lampScene (Z.even w.1)))))
      else if String.eqb command "scene_stats" then
        match w.2 with
        | O => (w, Resolved (lampStats "frozen" w.1))
        | S k => ((w.1, k), Resolved (lampStats "running" w.1))
        end
      else if startsWith "tick_scene " command then
        ((w.1 + default 0 (parseInt (slice 11 command)), 2%nat),
         Resolved ("from " +:+ pretty w.1))
      else (w, Resolved "")
  | _ => (w, Resolved "")
  end.

#[local] Instance lamp : SceneConsole (Z * nat) := {|
  answer := lampAnswer;
  scene t := snapshotOf (lampScene (Z.even t));
  lag := 2;
  stops w t k := 0 ≤ t ∧ w.1 = t ∧ (w.2 ≤ k)%nat
|}.

Lemma digits_pretty t : 0 ≤ t → digits (pretty t) = Some t.
Proof.
  intros Ht. pose proof (span_all _ _ (pretty_digits t Ht)) as Hs.
  unfold digits. rewrite Hs. simpl.
  pose proof (parseInt_pretty t Ht) as Hp. unfold parseInt in Hp.
  destruct (pretty t) as [|c s]; [done|]. destruct (digit c); [|done].
  rewrite (proj2 (String.eqb_neq _ _)) by done. done.
Qed.

Lemma skipBlanks_pretty t : 0 ≤ t → skipBlanks (" " +:+ pretty t) = pretty t.
Proof.
  intros Ht. unfold skipBlanks. change (" " +:+ pretty t) with (String " " "" +:+ pretty t).
  rewrite span_app; [done|done|]. pose proof (pretty_digits t Ht) as H.
  destruct (pretty t) as [|c s]; [done|]. simpl in *. apply andb_true_iff in H as [H _].
  destruct (is_blank c) eqn:Hb; [|done]. unfold is_blank in Hb.
  apply bool_decide_eq_true in Hb. unfold is_digit in H. apply bool_decide_eq_true in H.
  unfold digit in H. case_decide as Hd; [|by destruct H].
  rewrite !elem_of_cons, elem_of_nil in Hb. lia.
Qed.

Lemma parseTickReply_from t : 0 ≤ t → parseTickReply ("from " +:+ pretty t) = Some t.
Proof.
  intros Ht. apply firstMatch_here.
  change (after "from" ("from " +:+ pretty t)) with (Some (" " +:+ pretty t)). simpl mbind.
  rewrite skipBlanks_pretty by done. rewrite (proj2 (String.eqb_neq _ _)).
  - by apply digits_pretty.
  - intros E. apply (f_equal String.length) in E. rewrite string_length_app in E. simpl in E. lia.
Qed.

Lemma lampStats_tick status t :
  status = "frozen" ∨ status = "running" → 0 ≤ t →
  st_tick (parseSceneStats (lampStats status t)) = Some t.
Proof.
  intros Hs Ht. unfold parseSceneStats. simpl st_tick.
  assert (firstMatch (λ s, t ← after "tick:" s; digits (skipBlanks t)) ("tick: " +:+ pretty t)
    = Some t) as H.
  { apply firstMatch_here. change (after "tick:" ("tick: " +:+ pretty t)) with
      (Some (" " +:+ pretty t)). simpl mbind. by rewrite skipBlanks_pretty, digits_pretty. }
  rewrite <- H. unfold lampStats. destruct Hs as [-> | ->].
  - repeat (cbn [String.append newline]; rewrite firstMatch_skip by reflexivity). done.
  - repeat (cbn [String.append newline]; rewrite firstMatch_skip by reflexivity). done.
Qed.

Lemma lampStats_frozen t : st_frozen (parseSceneStats (lampStats "frozen" t)) = true.
Proof.
  change (match statusOf (lampStats "frozen" t) with
          | Some status => includes "frozen" (toLowerCase status)
          | None => false
          end = true).
  assert (statusOf (lampStats "frozen" t) = Some "frozen") as -> by by apply firstMatch_here.
  by vm_compute.
Qed.

Lemma lampStats_running t : st_frozen (parseSceneStats (lampStats "running" t)) = false.
Proof.
  change (match statusOf (lampStats "running" t) with
          | Some status => includes "frozen" (toLowerCase status)
          | None => false
          end = false).
  assert (statusOf (lampStats "running" t) = Some "running") as -> by by apply firstMatch_here.
  by vm_compute.
Qed.

#[local] Instance lamp_laws : SceneConsoleLaws id (Z * nat).
Proof.
  split.
  - intros [t' k] t (Ht & <- & Hk). eexists (t', k), _, (lampScene (Z.even t')).
    split; [done|split; [done|split; [|done]]]. cbn [fst]. by destruct (Z.even t'); vm_compute.
  - intros [t' k] t n (Ht & <- & Hk) Hn.
    exists (t' + n, 2%nat), ("from " +:+ pretty t'). split; [|split].
    + cbn [answer lamp]. unfold lampAnswer.
      change (String.eqb ("tick_scene " +:+ pretty n) "crdt_snapshot") with false.
      change (String.eqb ("tick_scene " +:+ pretty n) "scene_stats") with false.
      unfold startsWith. rewrite prefix_app.
      change (slice 11 ("tick_scene " +:+ pretty n)) with (pretty n).
      by rewrite parseInt_pretty by lia.
    + cbn [stops lamp lag fst snd]. simpl in Ht. lia.
    + by apply parseTickReply_from.
  - intros [t' [|j]] t k (Ht & <- & Hk); simpl in Hk.
    + exists (t', 0%nat), (lampStats "frozen" t'). split; [done|].
      unfold arrived. rewrite lampStats_frozen, lampStats_tick by auto. simpl.
      rewrite Z.leb_refl. done.
    + exists (t', j), (lampStats "running" t'). split; [done|].
      unfold arrived. rewrite lampStats_running. simpl.
      destruct k as [|k]; [lia|]. exists k. cbn [stops lamp fst snd]. simpl in Ht. split; [done|lia].
  - intros [t' k] t H. by eexists (t', k), "".
  - intros [t' k] t j ms H. by eexists (t', k), "".
  - intros w t k H. exact H.
Qed.

Lemma debugger_shows_steps_witness :
  let d := newDbg <| prev := Some (snapshotOf (lampScene true)) |> in
  let '(_, _, rs) := run_steps id id 60 4000 [1; 10] (0, 0%nat) d in
  steps_show id 0 [1; 10] rs.
Proof.
  intros d.
  pose proof (debugger_shows_steps id id 60 4000 [1; 10] 0 (0, 0%nat) d) as H.
  destruct (run_steps id id 60 4000 [1; 10] (0, 0%nat) d) as [[w d'] rs].
  apply H.
  - by split_and!.
  - by split_and!.
  - repeat constructor; vm_compute; lia.
Defined.

(** ** Calls that overlap *)

Definition ok : Reply := Resolved "".
Definition showing (on : bool) : Reply :=
  Resolved (stableStringify (JObject (lampScene on))).

(** While [open] still polls, a step is asked for: the lamp goes out, but [open]
    then takes the snapshot that the step compares with, and the step shows nothing. *)
Definition step_before_open : list DbgEvent :=
  [ CallOpen; Settle 0 (Resolved (lampStats "running" 5)); Settle 0 ok;
    CallStep 1; Settle 1 (showing true); Settle 1 ok; Settle 1 (Resolved "from 5");
    Settle 0 ok; Settle 0 (Resolved (lampStats "frozen" 6)); Settle 0 ok; Settle 0 ok;
    Settle 0 (showing false); Settle 0 ok;
    Settle 1 (Resolved (lampStats "frozen" 6)); Settle 1 ok; Settle 1 ok;
    Settle 1 (showing false); Settle 1 ok; Settle 1 ok; Settle 1 ok ].

Definition entries_of (task : option DbgTask) : option (list EntityDiff) :=
  match task with Some (Stepping (Returned (Some r))) => Some (sr_entries r) | _ => None end.

Example step_before_open_shows_nothing :
  entries_of (tasks (session id id 60 4000 step_before_open) !! 1%nat) = Some [] ∧
  diffSnapshots id (snapshotOf (lampScene true)) (snapshotOf (lampScene false)) ≠ [].
Proof. by vm_compute. Qed.

(** A debugger that is disposed of during a step has no snapshot to compare with. *)
Definition disposed_during_step : list DbgEvent :=
  [ CallStep 1; Settle 0 (showing true); Settle 0 ok; Settle 0 (Resolved "from 5");
    CallDispose; Settle 0 (Resolved (lampStats "running" 5)); Settle 0 ok; Settle 0 ok;
    Settle 0 ok; Settle 0 (showing false); Settle 0 ok; Settle 0 ok; Settle 0 ok ].

Example disposed_during_step_throws :
  tasks (session id id 60 4000 disposed_during_step) = [Stepping (Threw nullError)].
Proof. by vm_compute. Qed.
