(* ===== verification/Experiments.v ===== *)
(** * Experiments of the web sites

    [sites/packages/core/src/lib/experiments]: a visitor is a session, whose
    identifier a cookie keeps; an experiment has variants with weights, and a hash of
    the session and the experiment chooses one, unless the dashboard says otherwise;
    what the dashboard says is asked of a service and kept for a while.

    Texts are Latin-1.  A number with a fraction is a rational that a [number] can
    hold, and every operation on such numbers rounds. *)

From Stdlib Require Import Ascii QArith.
From S2P Require Import Prelude JsString SyncEngine JsonParse TextSearch DebugDiff.
Open Scope string_scope.
Open Scope list_scope.
Open Scope Z_scope.

(** ** Texts in cookies and URLs *)

(** The characters [encodeURIComponent] leaves alone. *)
Definition is_unescaped (c : Ascii.ascii) : bool :=
  is_alphanumeric c || bool_decide (c ∈ ["-"; "_"; "."; "!"; "~"; "*"; "'"; "("; ")"]%char).

(** A byte as a percent sign and two digits. *)
Definition percent (b : Z) : string :=
  String "%" (String (upper_char (hex_char (b / 16))) (String (upper_char (hex_char (b mod 16))) "")).

(** [encodeURIComponent(s)]: the bytes of UTF-8. *)
Definition encodeChar (c : Ascii.ascii) : string :=
  let n := Z.of_N (Ascii.N_of_ascii c) in
  if is_unescaped c then String c ""
  else if decide (n < 128) then percent n
  else percent (192 + n / 64) +:+ percent (128 + n mod 64).

Fixpoint encodeURIComponent (s : string) : string :=
  match s with String c s => encodeChar c +:+ encodeURIComponent s | EmptyString => "" end.

(** The character of two bytes, the first one being 194 or 195. *)
Definition twoBytes (a b : Z) : option Ascii.ascii :=
  if decide (194 ≤ a ≤ 195 ∧ 128 ≤ b < 192)
  then Some (Ascii.ascii_of_N (Z.to_N (64 * (a - 192) + (b - 128)))) else None.

(** [decodeURIComponent(s)], [None] when it throws; a character that is not of Latin-1
    is taken for an error. *)
Fixpoint decodeURIComponent (s : string) : option string :=
  match s with
  | EmptyString => Some ""
  | String "%" (String h (String l t)) =>
      match hex_digit h, hex_digit l with
      | Some x, Some y =>
          let a := 16 * x + y in
          if decide (a < 128) then
            String (Ascii.ascii_of_N (Z.to_N a)) <$> decodeURIComponent t
          else match t with
          | String "%" (String h' (String l' u)) =>
              match hex_digit h', hex_digit l' with
              | Some x', Some y' =>
                  match twoBytes a (16 * x' + y') with
                  | Some c => String c <$> decodeURIComponent u
                  | None => None
                  end
              | _, _ => None
              end
          | _ => None
          end
      | _, _ => None
      end
  | String "%" _ => None
  | String c t => String c <$> decodeURIComponent t
  end.

(** ** Cookies *)

(** sites/packages/core/src/lib/experiments/assign.ts:10-10 *)
Definition SID_COOKIE : string := "sid".
(** sites/packages/core/src/lib/experiments/assign.ts:11-11 *)
Definition SID_MAX_AGE : Z := 60 * 60 * 24 * 365.
(** sites/packages/core/src/lib/experiments/assign.ts:12-12 *)
Definition WALLET_COOKIE : string := "dcl_wallet_verified".
(** sites/packages/core/src/lib/experiments/assign.ts:13-13 *)
Definition WALLET_MAX_AGE : Z := 60 * 60 * 24 * 30.

(** [ADDRESS.test], sites/packages/core/src/lib/experiments/assign.ts:14-14 *)
Definition isWallet (s : string) : bool :=
  startsWith "0x" s && all_chars (λ c, is_hex c && bool_decide (lower_char c = c)) (slice 2 s) &&
  (String.length s =? 42)%nat.

(** The name and the value of one part of a header, [None] without an equals sign or a
    name, sites/packages/core/src/lib/experiments/assign.ts:20-24 *)
Definition cookiePart (part : string) : option (string * string) :=
  match String.index 0 "=" part with
  | None => None
  | Some eq =>
      let k := trim (substr 0 eq part) in
      if String.eqb k "" then None else Some (k, trim (slice (S eq) part))
  end.

(** [parseCookies], sites/packages/core/src/lib/experiments/assign.ts:16-32 *)
Definition parseCookies (header : string) : list (string * string) :=
  foldl (λ out part,
    match cookiePart part with
    | Some (k, v) => setKey k (default v (decodeURIComponent v)) out
    | None => out
    end) [] (split ";"%char header).

(** What the code reads of a request: its cookies and the name of its host, [None] for
    an address that is none. *)
Record Visit := { vi_cookie : string; vi_hostname : option string }.

(** [readSid], sites/packages/core/src/lib/experiments/assign.ts:34-37 *)
Definition readSid (request : Visit) : option string :=
  match prop SID_COOKIE (parseCookies (vi_cookie request)) with
  | Some sid => if String.eqb sid "" then None else Some sid
  | None => None
  end.

(** sites/packages/core/src/lib/experiments/assign.ts:42-42 *)
Definition SID_SHARED_PARENT : string := "catalyst.example.com".

(** [s.endsWith(p)] *)
Definition endsWith (p s : string) : bool :=
  (String.length p <=? String.length s)%nat &&
  String.eqb (slice (String.length s - String.length p) s) p.

(** [sharedSidDomain], sites/packages/core/src/lib/experiments/assign.ts:46-57 *)
Definition sharedSidDomain (request : Visit) : option string :=
  match vi_hostname request with
  | None => None
  | Some hostname =>
      if String.eqb hostname SID_SHARED_PARENT || endsWith ("." +:+ SID_SHARED_PARENT) hostname
      then Some SID_SHARED_PARENT else None
  end.

(** [hasSplitSidCookie], sites/packages/core/src/lib/experiments/assign.ts:63-72 *)
Definition hasSplitSidCookie (request : Visit) : bool :=
  let isSid (part : string) : Prop :=
    match String.index 0 "=" part with
    | Some eq => trim (substr 0 eq part) = SID_COOKIE
    | None => False
    end in
  let dec part : Decision (isSid part) := ltac:(unfold isSid; case_match; apply _) in
  (1 <? length (@list_filter _ isSid dec (split ";"%char (vi_cookie request))))%nat.

(** [ensureSid], with the identifier that would be made,
    sites/packages/core/src/lib/experiments/assign.ts:86-90 *)
Definition ensureSid (request : Visit) (minted : string) : string * bool :=
  match readSid request with
  | Some existing => (existing, false)
  | None => (minted, true)
  end.

(** The attributes of the cookie of a session, from its value on. *)
Definition sidCookie (value maxAge : string) (domain : option string) : string :=
  join "; " ([SID_COOKIE +:+ "=" +:+ value; "Path=/"; "Max-Age=" +:+ maxAge; "SameSite=Lax";
              "HttpOnly"; "Secure"] ++
             match domain with
             | Some d => if String.eqb d "" then [] else ["Domain=" +:+ d]
             | None => []
             end).

(** [serializeSidCookie], sites/packages/core/src/lib/experiments/assign.ts:92-114 *)
Definition serializeSidCookie (sid : string) (domain : option string) : string :=
  sidCookie (encodeURIComponent sid) (pretty SID_MAX_AGE) domain.

(** [expireSidCookie], sites/packages/core/src/lib/experiments/assign.ts:119-129 *)
Definition expireSidCookie (domain : option string) : string := sidCookie "" "0" domain.

(** [readVerifiedWallet], sites/packages/core/src/lib/experiments/assign.ts:131-134 *)
Definition readVerifiedWallet (request : Visit) : option string :=
  match prop WALLET_COOKIE (parseCookies (vi_cookie request)) with
  | Some w => if isWallet w then Some w else None
  | None => None
  end.

(** [serializeVerifiedWalletCookie],
    sites/packages/core/src/lib/experiments/assign.ts:136-145 *)
Definition serializeVerifiedWalletCookie (address : string) : string :=
  join "; " [WALLET_COOKIE +:+ "=" +:+ encodeURIComponent (toLowerCase address); "Path=/";
             "Max-Age=" +:+ pretty WALLET_MAX_AGE; "SameSite=Lax"; "HttpOnly"; "Secure"].

(** [clearVerifiedWalletCookie],
    sites/packages/core/src/lib/experiments/assign.ts:147-156 *)
Definition clearVerifiedWalletCookie : string :=
  join "; " [WALLET_COOKIE +:+ "="; "Path=/"; "Max-Age=0"; "SameSite=Lax"; "HttpOnly"; "Secure"].

(** ** Numbers with a fraction *)

(** [a / b], to the nearest integer, of two as near to the even one. *)
Definition roundHalfEven (a b : Z) : Z :=
  let k := a / b in
  match 2 * (a mod b) ?= b with
  | Lt => k
  | Gt => k + 1
  | Eq => if Z.even k then k else k + 1
  end.

(** The greatest [e] with 2 to the power [e] at most [x]. *)
Definition floorLog2 (x : Q) : Z :=
  let e := Z.log2 (Qnum x) - Z.log2 (Zpos (Qden x)) in
  if Qle_bool (2 ^ e)%Q x then e else e - 1.

(** The [number] nearest to [x], which is not negative and below 2 to the power 1024: a
    multiple of a power of 2 with 53 binary digits, fewer close to 0. *)
Definition toNumber (x : Q) : Q :=
  if decide (Qnum x ≤ 0) then 0%Q
  else
    let s := Z.max (floorLog2 x) (-1022) - 52 in
    let k := if decide (0 ≤ s) then roundHalfEven (Qnum x) (Zpos (Qden x) * 2 ^ s)
             else roundHalfEven (Qnum x * 2 ^ (- s)) (Zpos (Qden x)) in
    Qred (inject_Z k * 2 ^ s)%Q.

(** ** The choice of a variant *)

(** [VariantSchema], sites/packages/core/src/lib/experiments/context.ts:7-12 *)
Record Variant := { va_id : string; va_weight : Q; va_flags : list (string * Json) }.

(** What the choice reads of [StoryMeta],
    sites/packages/core/src/lib/experiments/context.ts:14-21 *)
Record Story := { st_key : string; st_variants : list Variant }.

(** [Math.imul(a, b)] *)
Definition imul (a b : Z) : Z := toInt32 (a * b).

(** [x >>> n] *)
Definition shiftRight (x n : Z) : Z := Z.shiftr (x mod 2 ^ 32) n.

(** The loop of [cyrb53], sites/packages/core/src/lib/experiments/assign.ts:161-165 *)
Fixpoint cyrbChars (h1 h2 : Z) (str : string) : Z * Z :=
  match str with
  | EmptyString => (h1, h2)
  | String c str =>
      let ch := Z.of_N (Ascii.N_of_ascii c) in
      cyrbChars (imul (Z.lxor h1 ch) 2654435761) (imul (Z.lxor h2 ch) 1597334677) str
  end.

(** [cyrb53], sites/packages/core/src/lib/experiments/assign.ts:158-171 *)
Definition cyrb53 (str : string) (seed : Z) : Z :=
  let '(h1, h2) := cyrbChars (toInt32 (Z.lxor 3735928559 seed)) (toInt32 (Z.lxor 1103547991 seed)) str in
  let h1 := imul (Z.lxor h1 (shiftRight h1 16)) 2246822507 in
  let h1 := Z.lxor h1 (imul (Z.lxor h2 (shiftRight h2 13)) 3266489909) in
  let h2 := imul (Z.lxor h2 (shiftRight h2 16)) 2246822507 in
  let h2 := Z.lxor h2 (imul (Z.lxor h1 (shiftRight h1 13)) 3266489909) in
  4294967296 * Z.land 2097151 h2 + shiftRight h1 0.

(** The unit interval from a hash, sites/packages/core/src/lib/experiments/assign.ts:174-174 *)
Definition unitInterval (hash : Z) : Q := toNumber (inject_Z hash / inject_Z 9007199254740992).

(** [hashToUnitInterval], sites/packages/core/src/lib/experiments/assign.ts:173-175 *)
Definition hashToUnitInterval (input : string) : Q := unitInterval (cyrb53 input 0).

(** [weights.reduce((a, b) => a + b, 0)],
    sites/packages/core/src/lib/experiments/assign.ts:184-186 *)
Definition sumNumbers (l : list Q) : Q := foldl (λ a b, toNumber (a + b)) 0%Q l.

(** [a < b] *)
Definition less (a b : Q) : bool := negb (Qle_bool b a).

(** The loop of [bucket], the index of the first variant whose sum passes the target,
    sites/packages/core/src/lib/experiments/assign.ts:189-193 *)
Fixpoint passes (target acc : Q) (weights : list Q) : option nat :=
  match weights with
  | [] => None
  | w :: weights =>
      let acc := toNumber (acc + w) in
      if less target acc then Some O else S <$> passes target acc weights
  end.

(** The weights [bucket] goes by, sites/packages/core/src/lib/experiments/assign.ts:183-185 *)
Definition effectiveWeights (variants : list Variant) : list Q :=
  let weights := map (λ v, if less 0 (va_weight v) then va_weight v else 0%Q) variants in
  if less 0 (sumNumbers weights) then weights else map (λ _, 1%Q) variants.

(** The index [bucket] chooses for a number of the unit interval,
    sites/packages/core/src/lib/experiments/assign.ts:183-194 *)
Definition bucketIndex (unit : Q) (variants : list Variant) : nat :=
  let effective := effectiveWeights variants in
  let target := toNumber (unit * sumNumbers effective) in
  default (length variants - 1)%nat (passes target 0 effective).

(** [bucket], [None] for its error,
    sites/packages/core/src/lib/experiments/assign.ts:177-195 *)
Definition bucket (sid experimentKey : string) (variants : list Variant) : option Variant :=
  match variants with
  | [] => None
  | [v] => Some v
  | _ => variants !! bucketIndex (hashToUnitInterval (sid +:+ ":" +:+ experimentKey)) variants
  end.

(** ** What the dashboard says *)

(** [RuntimeFlag], sites/packages/core/src/lib/experiments/flags.ts:9-13 *)
Record RuntimeFlag := {
  rf_killed : bool;
  rf_variant : option string;
  rf_flags : option (list (string * Json))
}.

(** [ForcedFlag], sites/packages/core/src/lib/experiments/flags.ts:15-19 *)
Record ForcedFlag := { ff_value : bool; ff_variant : option string; ff_overridden : bool }.

(** A text of an object. *)
Definition textProp (k : string) (o : list (string * Json)) : option string :=
  match prop k o with Some (JString s) => Some s | _ => None end.

Definition boolProp (k : string) (o : list (string * Json)) : option bool :=
  match prop k o with Some (JBool b) => Some b | _ => None end.

(** [coerceFlag], sites/packages/core/src/lib/experiments/flags.ts:21-42 *)
Definition coerceFlag (value : Json) : option RuntimeFlag :=
  match value with
  | JObject v =>
      let killed := bool_decide (boolProp "killed" v = Some true ∨
                                 boolProp "enabled" v = Some false) in
      let variant := match textProp "variant" v with
                     | Some s => Some s
                     | None => textProp "override" v
                     end in
      let flags := match prop "flags" v with
                   | Some (JObject ((_ :: _) as flags)) => Some flags
                   | _ => None
                   end in
      match killed, variant, flags with
      | false, None, None => None
      | _, _, _ => Some {| rf_killed := killed; rf_variant := variant; rf_flags := flags |}
      end
  | _ => None
  end.

(** [coerceForcedFlags], sites/packages/core/src/lib/experiments/flags.ts:132-152 *)
Definition coerceForcedFlags (payload : Json) : option (list (string * ForcedFlag)) :=
  match payload with
  | JObject p =>
      match prop "flags" p with
      | Some (JObject flags) =>
          Some (foldl (λ out '(name, raw),
            match raw with
            | JObject r =>
                setKey name {| ff_value := bool_decide (boolProp "value" r = Some true);
                               ff_variant := textProp "variant" r;
                               ff_overridden := bool_decide (boolProp "overridden" r = Some true) |} out
            | _ => out
            end) [] flags)
      | _ => None
      end
  | _ => None
  end.

(** What comes of a request to the service: a response, its body [None] when it is no
    JSON, or nothing in time. *)
Inductive FlagsReply :=
  | FlagsResponse (ok : bool) (body : option Json)
  | NoReply.

(** [fetchRuntimeFlags] of the reply, and [fetchForcedFlags],
    sites/packages/core/src/lib/experiments/flags.ts:117-129 *)
Definition fetchFlags {A} (coerce : Json → option A) (reply : FlagsReply) : option A :=
  match reply with FlagsResponse true (Some body) => coerce body | _ => None end.

(** [cacheKey], sites/packages/core/src/lib/experiments/flags.ts:60-62 *)
Definition cacheKey (parts : list (option string)) : string :=
  join (String (Ascii.ascii_of_N 0) "") (map (default "") parts).

(** sites/packages/core/src/lib/experiments/flags.ts:50-50 *)
Definition FLAGS_TTL_MS : Z := 15000.

(** ** Answers of the service are kept for a while *)

Section cached.
Context {V : Type}.

(** A request to the service, by the key it is made for: it waits for the reply, or its
    value is known and [finally] has yet to run. *)
Inductive Pending := Fetching | Fetched (value : V).

(** A cache with the requests in flight, and the promises of the requests by number,
    sites/packages/core/src/lib/experiments/flags.ts:51-58 *)
Record Flags := {
  fl_cache : gmap string (Z * V);
  fl_inflight : gmap string nat;
  fl_promises : gmap nat (string * Pending);
  fl_next : nat
}.

(** What a call gets: a value that is kept, or the promise of one. *)
Inductive FlagsAnswer := Kept (value : V) | Promised (n : nat).

(** [getRuntimeFlags] and [getForcedFlags] for the key of a call,
    sites/packages/core/src/lib/experiments/flags.ts:82-97 *)
Definition getFlags (key : string) (now : Z) (s : Flags) : FlagsAnswer * Flags :=
  let ask :=
    match fl_inflight s !! key with
    | Some n => (Promised n, s)
    | None =>
        let n := fl_next s in
        (Promised n, {| fl_cache := fl_cache s;
                        fl_inflight := <[key := n]> (fl_inflight s);
                        fl_promises := <[n := (key, Fetching)]> (fl_promises s);
                        fl_next := S n |})
    end in
  match fl_cache s !! key with
  | Some (at_, value) => if decide (now - at_ < FLAGS_TTL_MS) then (Kept value, s) else ask
  | None => ask
  end.

(** The [then] of a request, sites/packages/core/src/lib/experiments/flags.ts:89-92 *)
Definition fetched (n : nat) (value : V) (now : Z) (s : Flags) : Flags :=
  match fl_promises s !! n with
  | Some (key, Fetching) =>
      {| fl_cache := <[key := (now, value)]> (fl_cache s); fl_inflight := fl_inflight s;
         fl_promises := <[n := (key, Fetched value)]> (fl_promises s); fl_next := fl_next s |}
  | _ => s
  end.

(** Its [finally]: those that wait for the promise get the value,
    sites/packages/core/src/lib/experiments/flags.ts:93-95 *)
Definition released (n : nat) (s : Flags) : Flags :=
  match fl_promises s !! n with
  | Some (key, Fetched _) =>
      {| fl_cache := fl_cache s; fl_inflight := delete key (fl_inflight s);
         fl_promises := delete n (fl_promises s); fl_next := fl_next s |}
  | _ => s
  end.

Definition noFlags : Flags :=
  {| fl_cache := ∅; fl_inflight := ∅; fl_promises := ∅; fl_next := O |}.

(** [resetRuntimeFlagCache] of one of the two caches; only tests call it.
    sites/packages/core/src/lib/experiments/flags.ts:68-73 *)
Definition resetRuntimeFlagCache (s : Flags) : Flags :=
  {| fl_cache := ∅; fl_inflight := ∅; fl_promises := fl_promises s; fl_next := fl_next s |}.
End cached.
Arguments Flags : clear implicits.
Arguments FlagsAnswer : clear implicits.
Arguments Pending : clear implicits.

(** [getRuntimeFlags] while the service is configured,
    sites/packages/core/src/lib/experiments/flags.ts:75-98 *)
Definition getRuntimeFlags (experimentKey : string) (user : option string) :=
  @getFlags (option RuntimeFlag) (cacheKey [Some experimentKey; user]).

(** [getForcedFlags], sites/packages/core/src/lib/experiments/flags.ts:183-205 *)
Definition getForcedFlags (user : option string) :=
  @getFlags (option (list (string * ForcedFlag))) (cacheKey [user]).

(** [resolveFlag] of the flags received,
    sites/packages/core/src/lib/experiments/flags.ts:207-219 *)
Definition resolveFlag (name : string) (fallback : bool)
    (flags : option (list (string * ForcedFlag))) : bool :=
  match flags ≫= prop name with
  | Some forced => if ff_overridden forced then ff_value forced else fallback
  | None => fallback
  end.

(** [experimentActive] of the flag received,
    sites/packages/core/src/lib/experiments/flags.ts:226-237 *)
Definition experimentActive (envActive : bool) (flag : option RuntimeFlag) : bool :=
  envActive || match flag with Some f => negb (rf_killed f) | None => false end.

(** ** The assignment of a visitor *)

(** [Assignment], sites/packages/core/src/lib/experiments/assign.ts:4-8 *)
Record Assignment := {
  as_variant : string;
  as_flags : list (string * Json);
  as_experimentKey : string
}.

(** [{ ...a, ...b }] *)
Definition spread {A} (a b : list (string * A)) : list (string * A) :=
  foldl (λ o '(k, v), setKey k v o) a b.

(** [findVariant], sites/packages/core/src/lib/experiments/assign.ts:211-214 *)
Definition findVariant (story : Story) (id : option string) : option Variant :=
  match id with
  | None | Some "" => None
  | Some id => List.find (λ v, String.eqb (va_id v) id) (st_variants story)
  end.

(** [buildAssignment], [None] for the error of a story without variants,
    sites/packages/core/src/lib/experiments/assign.ts:197-209 *)
Definition buildAssignment (variant : option Variant) (story : Story)
    (overrideFlags : option (list (string * Json))) : option Assignment :=
  resolved ← match variant with Some v => Some v | None => head (st_variants story) end;
  Some {| as_variant := va_id resolved; as_experimentKey := st_key story;
          as_flags := spread (va_flags resolved) (default [] overrideFlags) |}.

(** [findVariant(story, id) ?? defaultVariant], built. *)
Definition pinned (story : Story) (id : option string) (flags : option (list (string * Json)))
    : option Assignment :=
  buildAssignment (match findVariant story id with
                   | Some v => Some v
                   | None => head (st_variants story)
                   end) story flags.

(** The assignment of a variant that the dashboard names, whether the story has it or not,
    sites/packages/core/src/lib/experiments/assign.ts:240-248 *)
Definition named (story : Story) (id : string) (flags : option (list (string * Json)))
    : option Assignment :=
  match findVariant story (Some id) with
  | Some v => buildAssignment (Some v) story flags
  | None => Some {| as_variant := id; as_experimentKey := st_key story;
                    as_flags := default [] flags |}
  end.

(** A text that is not empty. *)
Definition nonEmpty (s : option string) : option string :=
  match s with Some "" => None | _ => s end.

(** The end of [resolveAssignment],
    sites/packages/core/src/lib/experiments/assign.ts:272-273 *)
Definition hashedAssignment (sid : string) (story : Story)
    (flags : option (list (string * Json))) : option Assignment :=
  v ← bucket sid (st_key story) (st_variants story); buildAssignment (Some v) story flags.

(** The body of the [try] of [resolveAssignment]: [None] when it throws or comes to its
    end, sites/packages/core/src/lib/experiments/assign.ts:228-270 *)
Definition dashboardAssignment (sid : string) (story : Story)
    (forcedFlags : option (list (string * ForcedFlag))) (flag : option RuntimeFlag)
    : option Assignment :=
  let flags := flag ≫= rf_flags in
  let dashFlag := forcedFlags ≫= prop (st_key story) in
  let dashForced := match dashFlag with Some f => ff_overridden f | None => false end in
  let byFlag :=
    match flag with
    | None => None
    | Some f =>
        if rf_killed f && negb dashForced then pinned story (rf_variant f) flags
        else match nonEmpty (rf_variant f) with
        | Some id => named story id flags
        | None => match flags with
                  | Some _ => hashedAssignment sid story flags
                  | None => None
                  end
        end
    end in
  match dashFlag with
  | Some f =>
      if ff_overridden f then
        if negb (ff_value f) then pinned story (ff_variant f) flags
        else match nonEmpty (ff_variant f) with
             | Some id => named story id flags
             | None => byFlag
             end
      else byFlag
  | None => byFlag
  end.

(** [resolveAssignment] of what the service answered, [None] when it rejects,
    sites/packages/core/src/lib/experiments/assign.ts:216-274 *)
Definition resolveAssignment (sid : string) (story : Story)
    (forcedFlags : option (list (string * ForcedFlag))) (flag : option RuntimeFlag)
    : option Assignment :=
  match dashboardAssignment sid story forcedFlags flag with
  | Some assignment => Some assignment
  | None => hashedAssignment sid story None
  end.

(** ** Loading a page with an experiment *)

(** [parseVariantOverride] of the parameter [variant],
    sites/packages/core/src/lib/experiments/story-loader.ts:18-31 *)
Definition parseVariantOverride (raw : option string) (experimentKey : string) : option string :=
  raw ← raw;
  sep ← String.index 0 ":" raw;
  let variant := slice (S sep) raw in
  if negb (String.eqb (substr 0 sep raw) experimentKey) || String.eqb variant "" then None
  else Some variant.

(** [sidOnce] for a request of a number, with the sessions already made,
    sites/packages/core/src/lib/experiments/story-loader.ts:46-53 *)
Definition sidOnce (key : N) (request : Visit) (minted : string)
    (memo : gmap N (string * bool)) : (string * bool) * gmap N (string * bool) :=
  match memo !! key with
  | Some fresh => (fresh, memo)
  | None =>
      let fresh := ensureSid request minted in
      (fresh, if fresh.2 then <[key := fresh]> memo else memo)
  end.

(** What [sidLoader] returns, with the cookies of [wrap]. *)
Record SidBase := {
  sb_sid : string;
  sb_wallet : option string;
  sb_userKey : string;
  sb_created : bool;
  sb_cookies : list string
}.

(** [sidLoader], sites/packages/core/src/lib/experiments/story-loader.ts:55-81 *)
Definition sidLoader (key : N) (request : Visit) (minted : string)
    (memo : gmap N (string * bool)) : SidBase * gmap N (string * bool) :=
  let '((sid, created), memo) := sidOnce key request minted memo in
  let wallet := readVerifiedWallet request in
  let domain := sharedSidDomain request in
  ({| sb_sid := sid; sb_wallet := wallet; sb_userKey := default sid wallet; sb_created := created;
      sb_cookies :=
        if created then [serializeSidCookie sid domain]
        else match domain with
             | Some _ => if hasSplitSidCookie request
                         then [serializeSidCookie sid domain; expireSidCookie None] else []
             | None => []
             end |}, memo).

(** An exposure that is tracked,
    sites/packages/core/src/lib/telemetry/track.ts:141-147 *)
Record Exposure := {
  ex_sid : string;
  ex_story : string;
  ex_variant : string;
  ex_experimentKey : string
}.

(** [storyLoader] of the story read, [None] when it cannot be, and what the service
    answered: what it returns and the exposure it tracks,
    sites/packages/core/src/lib/experiments/story-loader.ts:83-126 *)
Definition storyLoader (key : N) (request : Visit) (variantParam : option string)
    (storyDir : string) (story : option Story)
    (forcedFlags : option (list (string * ForcedFlag))) (flag : option RuntimeFlag)
    (fallback : Assignment) (skipExposure : bool) (minted : string)
    (memo : gmap N (string * bool))
    : (SidBase * Assignment * option Exposure) * gmap N (string * bool) :=
  let '(base, memo) := sidLoader key request minted memo in
  let '(assignment, previewOverride) :=
    match story with
    | None => (fallback, false)
    | Some story =>
        match resolveAssignment (sb_sid base) story forcedFlags flag with
        | None => (fallback, false)
        | Some assignment =>
            match vi_hostname request ≫= λ _, parseVariantOverride variantParam (st_key story) with
            | None => (assignment, false)
            | Some override =>
                match List.find (λ v, String.eqb (va_id v) override) (st_variants story) with
                | Some v => ({| as_variant := va_id v; as_flags := va_flags v;
                                as_experimentKey := st_key story |}, true)
                | None => (assignment, true)
                end
            end
        end
    end in
  (base, assignment,
   if negb skipExposure && negb previewOverride
   then Some {| ex_sid := sb_sid base; ex_story := storyDir; ex_variant := as_variant assignment;
                ex_experimentKey := as_experimentKey assignment |}
   else None, memo).
