(* ===== verification/ExperimentProofs.v ===== *)
(** * Experiments give each variant its share, and visitors keep theirs

    Rounding included, the hashes that choose a variant are an interval as long as its
    weight says, for weights that are multiples of a power of two.  A visitor whose browser keeps the cookie of the first page has the
    same session and the same variant ever after.  What the dashboard says is asked
    once at a time, and not again while the last answer is fresh. *)

From Stdlib Require Import Ascii QArith Qpower Lqa.
From S2P Require Import Prelude JsString SyncEngine JsonParse JsonProofs DebugDiff SceneProofs.
From S2P Require Import TextSearch Experiments.
Open Scope string_scope.
Open Scope list_scope.
Open Scope Z_scope.

(** ** Rounding *)

Lemma pow2_pos e : (0 < 2 ^ e)%Q.
Proof. by apply Qpower_0_lt. Qed.

Lemma pow2_plus a b : (2 ^ (a + b) == 2 ^ a * 2 ^ b)%Q.
Proof. by apply Qpower_plus. Qed.

Lemma pow2_int n : 0 ≤ n → (inject_Z (2 ^ n) == 2 ^ n)%Q.
Proof. intros Hn. by rewrite Zpower_Qpower by done. Qed.

Lemma roundHalfEven_near a b : 0 < b → - b ≤ 2 * (roundHalfEven a b * b - a) ≤ b.
Proof.
  intros Hb. unfold roundHalfEven. pose proof (Z.mod_pos_bound a b Hb).
  pose proof (Z.div_mod a b ltac:(lia)). destruct (Z.compare_spec (2 * (a mod b)) b); [case_match|..]; nia.
Qed.

Lemma roundHalfEven_ge m a b : 0 < b → m * b ≤ a → m ≤ roundHalfEven a b.
Proof.
  intros Hb Hm. assert (m ≤ a / b) by (by apply Z.div_le_lower_bound; lia).
  unfold roundHalfEven. destruct (_ ?= _); [case_match|..]; lia.
Qed.

(** The fraction of a number by another. *)
Lemma Qfraction x : (x == inject_Z (Qnum x) / inject_Z (Zpos (Qden x)))%Q.
Proof. destruct x as [n d]. simpl. rewrite (Qmake_Qdiv n d). reflexivity. Qed.

Lemma Qmult_lt_le a b c d : (0 < b → 0 <= c → a < b → c < d → 0 <= a → a * c < b * d)%Q.
Proof. intros. nra. Qed.

Lemma Qpos_num x : (0 < x)%Q ↔ 0 < Qnum x.
Proof. unfold Qlt. simpl. lia. Qed.

Lemma log2_bounds n : 0 < n → (2 ^ Z.log2 n <= inject_Z n /\ inject_Z n < 2 ^ (Z.log2 n + 1))%Q.
Proof.
  intros Hn. pose proof (Z.log2_spec n Hn) as [Hl Hu]. pose proof (Z.log2_nonneg n).
  rewrite <- !pow2_int by lia. rewrite <- Zle_Qle, <- Zlt_Qlt. auto.
Qed.

Lemma floorLog2_spec x : (0 < x)%Q → (2 ^ floorLog2 x <= x /\ x < 2 ^ (floorLog2 x + 1))%Q.
Proof.
  intros Hx. pose proof (proj1 (Qpos_num x) Hx) as Hn. set (n := Qnum x) in *. set (d := Zpos (Qden x)).
  destruct (log2_bounds n Hn) as [Hnl Hnu]. destruct (log2_bounds d ltac:(unfold d; lia)) as [Hdl Hdu].
  assert (x * inject_Z d == inject_Z n)%Q as Hxd.
  { unfold n, d. rewrite (Qfraction x) at 1. field. discriminate. }
  set (a := Z.log2 n) in *. set (b := Z.log2 d) in *.
  assert (x < 2 ^ (a - b + 1))%Q as Hup.
  { apply Qnot_le_lt. intros Hle.
    assert (2 ^ (a - b + 1) * 2 ^ b == 2 ^ (a + 1))%Q as E by (rewrite <- pow2_plus; f_equiv; lia).
    pose proof (pow2_pos b). pose proof (pow2_pos (a - b + 1)). nra. }
  assert (2 ^ (a - b - 1) < x)%Q as Hlow.
  { apply Qnot_le_lt. intros Hle.
    assert (2 ^ (a - b - 1) * 2 ^ (b + 1) == 2 ^ a)%Q as E by (rewrite <- pow2_plus; f_equiv; lia).
    pose proof (pow2_pos b). nra. }
  unfold floorLog2. fold n d a b. destruct (Qle_bool _ _) eqn:E.
  - by apply Qle_bool_iff in E.
  - replace (a - b - 1 + 1) with (a - b) by lia. split; [lra|].
    apply Qnot_le_lt. intros Hle. apply Qle_bool_iff in Hle. congruence.
Qed.

(** A number is the multiple of a power of 2 that is nearest. *)
Lemma toNumber_spec x : (0 < x)%Q →
  let s := Z.max (floorLog2 x) (-1022) - 52 in
  ∃ k, toNumber x = Qred (inject_Z k * 2 ^ s) ∧
    (∀ m : Z, (inject_Z m * 2 ^ s <= x)%Q → m ≤ k) ∧
    (inject_Z k * 2 ^ s <= x + 2 ^ (s - 1))%Q.
Proof.
  intros Hx s. pose proof (proj1 (Qpos_num x) Hx) as Hn.
  assert (∃ a b, 0 < b ∧ (x == inject_Z a / inject_Z b * 2 ^ s)%Q ∧
    toNumber x = Qred (inject_Z (roundHalfEven a b) * 2 ^ s)) as (a & b & Hb & Hab & ->).
  { unfold toNumber. rewrite decide_False by lia. fold s. destruct (decide (0 ≤ s)) as [Hs|Hs].
    - exists (Qnum x), (Zpos (Qden x) * 2 ^ s). split; [lia|]. split; [|done].
      rewrite (Qfraction x) at 1. rewrite inject_Z_mult, pow2_int by done. field.
      split; [|discriminate]. pose proof (pow2_pos s). lra.
    - exists (Qnum x * 2 ^ (- s)), (Zpos (Qden x)). split; [lia|]. split; [|done].
      rewrite (Qfraction x) at 1. rewrite inject_Z_mult, pow2_int by lia.
      assert (2 ^ (- s) * 2 ^ s == 1)%Q as E.
      { rewrite <- pow2_plus. by replace (- s + s) with 0 by lia. }
      transitivity (inject_Z (Qnum x) / inject_Z (Zpos (Qden x)) * (2 ^ (- s) * 2 ^ s))%Q;
        [rewrite E; field; discriminate|field; discriminate]. }
  exists (roundHalfEven a b). split; [done|].
  pose proof (pow2_pos s) as Hs. assert (0 < inject_Z b)%Q as Hbq by (rewrite (Zlt_Qlt 0 b) in Hb; exact Hb).
  set (y := (inject_Z a / inject_Z b)%Q) in *.
  assert (y * inject_Z b == inject_Z a)%Q as Hy by (unfold y; field; lra).
  assert (2 ^ s == 2 * 2 ^ (s - 1))%Q as Hhalf.
  { replace s with (1 + (s - 1)) at 1 by lia. by rewrite pow2_plus. }
  split.
  - intros m Hm. apply roundHalfEven_ge; [done|]. rewrite Zle_Qle, inject_Z_mult.
    assert (inject_Z m <= y)%Q; [|nra].
    rewrite Hab in Hm. apply Qmult_le_r in Hm; [done|]. done.
  - pose proof (roundHalfEven_near a b Hb) as [_ Hnear]. rewrite Hab.
    rewrite Zle_Qle, inject_Z_mult in Hnear. unfold Z.sub in Hnear.
    rewrite inject_Z_plus, inject_Z_mult, inject_Z_opp in Hnear.
    set (k := inject_Z (roundHalfEven a b)) in *. change (inject_Z 2) with 2%Q in Hnear.
    assert (k * 2 <= y * 2 + 1)%Q; [|nra].
    apply (Qmult_le_r _ _ (inject_Z b)); [done|]. nra.
Qed.

Lemma floorLog2_lt x e : (0 < x)%Q → (x < 2 ^ e)%Q → floorLog2 x < e.
Proof.
  intros Hx He. destruct (floorLog2_spec x Hx) as [Hl _].
  apply (Qpower_lt_compat_l_inv 2); [lra|done].
Qed.

Lemma floorLog2_ge x e : (2 ^ e <= x)%Q → e ≤ floorLog2 x.
Proof.
  intros He. assert (0 < x)%Q as Hx by (pose proof (pow2_pos e); lra).
  destruct (floorLog2_spec x Hx) as [_ Hu].
  assert (2 ^ e < 2 ^ (floorLog2 x + 1))%Q as H by lra.
  apply Qpower_lt_compat_l_inv in H; [lia|done].
Qed.

(** A multiple of a power of 2 that a number can hold is not passed. *)
Lemma toNumber_ge x e m : (0 < x)%Q → (x < 2 ^ (53 + e))%Q → -1074 ≤ e →
  (inject_Z m * 2 ^ e <= x)%Q → (inject_Z m * 2 ^ e <= toNumber x)%Q.
Proof.
  intros Hx Hlt He Hm. destruct (toNumber_spec x Hx) as (k & -> & Hk & _).
  set (s := Z.max (floorLog2 x) (-1022) - 52) in *. rewrite Qred_correct.
  pose proof (floorLog2_lt x _ Hx Hlt). assert (s ≤ e) by lia.
  assert (inject_Z m * 2 ^ e == inject_Z (m * 2 ^ (e - s)) * 2 ^ s)%Q as E.
  { rewrite inject_Z_mult, pow2_int by lia. rewrite <- Qmult_assoc, <- pow2_plus. f_equiv. f_equiv. lia. }
  rewrite E in Hm |- *. apply Hk in Hm. apply Qmult_le_compat_r; [by rewrite <- Zle_Qle|].
  apply Qlt_le_weak, pow2_pos.
Qed.

(** What rounding adds. *)
Lemma toNumber_le x : (2 ^ (-1022) <= x)%Q → (toNumber x <= x * (1 + 2 ^ (-53)))%Q.
Proof.
  intros Hx. assert (0 < x)%Q as Hpos by (pose proof (pow2_pos (-1022)); lra).
  destruct (toNumber_spec x Hpos) as (k & -> & _ & Hk). rewrite Qred_correct.
  apply floorLog2_ge in Hx. destruct (floorLog2_spec x Hpos) as [Hl _].
  rewrite Z.max_l in * by lia. set (e := floorLog2 x) in *.
  assert (2 ^ (e - 52 - 1) == 2 ^ e * 2 ^ (-53))%Q as E by (rewrite <- pow2_plus; f_equiv; lia).
  rewrite E in Hk. pose proof (pow2_pos (-53)). nra.
Qed.

(** A number that can be held is held. *)
Lemma toNumber_exact x m e : 0 ≤ m < 2 ^ 53 → -1074 ≤ e →
  (x == inject_Z m * 2 ^ e)%Q → toNumber x = Qred x.
Proof.
  intros Hm He Hxm. pose proof (pow2_pos e) as He2. destruct (decide (m = 0)) as [->|Hne].
  { rewrite Qmult_0_l in Hxm. rewrite (Qred_complete _ _ Hxm). unfold toNumber.
    rewrite decide_True; [done|]. unfold Qeq in Hxm. simpl in Hxm. lia. }
  assert (0 < inject_Z m)%Q as Hmq by (change 0%Q with (inject_Z 0); rewrite <- Zlt_Qlt; lia).
  assert (0 < x)%Q as Hx by (rewrite Hxm; nra).
  assert (x < 2 ^ (53 + e))%Q as Hlt.
  { rewrite Hxm, pow2_plus. apply Qmult_lt_r; [done|]. rewrite <- pow2_int by done.
    rewrite <- Zlt_Qlt. lia. }
  destruct (toNumber_spec x Hx) as (k & -> & Hk & Hnear). apply Qred_complete.
  set (s := Z.max (floorLog2 x) (-1022) - 52) in *.
  pose proof (floorLog2_lt x _ Hx Hlt). assert (s ≤ e) by lia.
  assert (x == inject_Z (m * 2 ^ (e - s)) * 2 ^ s)%Q as E.
  { rewrite Hxm, inject_Z_mult, pow2_int by lia. rewrite <- Qmult_assoc, <- pow2_plus.
    f_equiv. f_equiv. lia. }
  set (n := m * 2 ^ (e - s)) in *.
  assert (n ≤ k) by (apply Hk; rewrite E; lra).
  assert (k < n + 1) as Hkn; [|replace k with n by lia; by rewrite E].
  rewrite Zlt_Qlt, inject_Z_plus. pose proof (pow2_pos s).
  assert (2 ^ s == 2 * 2 ^ (s - 1))%Q as Hhalf.
  { replace s with (1 + (s - 1)) at 1 by lia. by rewrite pow2_plus. }
  rewrite E in Hnear. apply (Qmult_lt_r _ _ (2 ^ s)); [done|]. change (inject_Z 1) with 1%Q. nra.
Qed.

Lemma Qred_int n : Qred (inject_Z n) = inject_Z n.
Proof.
  unfold inject_Z, Qred. pose proof (Z.ggcd_gcd n 1) as Hg. pose proof (Z.ggcd_correct_divisors n 1) as Hd.
  destruct (Z.ggcd n 1) as [g [a b]]. simpl in *. rewrite Z.gcd_1_r in Hg. subst g.
  destruct Hd as [Ha Hb]. assert (b = 1) as -> by lia. by rewrite Z.mul_1_l in Ha; subst.
Qed.

Lemma toNumber_int n : 0 ≤ n < 2 ^ 53 → toNumber (inject_Z n) = inject_Z n.
Proof.
  intros Hn. rewrite (toNumber_exact _ n 0), Qred_int; [done|done|lia|].
  change (2 ^ 0)%Q with 1%Q. by rewrite Qmult_1_r.
Qed.

(** ** The target of a hash *)

Lemma less_iff a b : less a b = true ↔ (a < b)%Q.
Proof.
  unfold less. rewrite negb_true_iff. split.
  - intros E. apply Qnot_le_lt. intros Hle. apply Qle_bool_iff in Hle. congruence.
  - intros Hlt. apply not_true_is_false. rewrite Qle_bool_iff. by apply Qlt_not_le.
Qed.

Lemma unitInterval_eq h : 0 ≤ h < 2 ^ 53 → (unitInterval h == inject_Z h * 2 ^ (-53))%Q.
Proof.
  intros Hh. assert (inject_Z h / inject_Z 9007199254740992 == inject_Z h * 2 ^ (-53))%Q as E
    by reflexivity.
  unfold unitInterval. rewrite (toNumber_exact _ h (-53)) by (done || lia). by rewrite Qred_correct.
Qed.

(** Multiples of a power of 2, as numbers. *)
Definition scaled (e n : Z) : Q := Qred (inject_Z n * 2 ^ e).

Lemma scaled_eq e n : (scaled e n == inject_Z n * 2 ^ e)%Q.
Proof. apply Qred_correct. Qed.

Lemma scaled_le e m n : (scaled e m <= scaled e n)%Q ↔ m ≤ n.
Proof. rewrite !scaled_eq. pose proof (pow2_pos e). rewrite Zle_Qle. by rewrite Qmult_le_r. Qed.

Lemma scaled_lt e m n : (scaled e m < scaled e n)%Q ↔ m < n.
Proof. rewrite !scaled_eq. pose proof (pow2_pos e). rewrite Zlt_Qlt. by rewrite Qmult_lt_r. Qed.

Lemma scaled_0 e : scaled e 0 = 0%Q.
Proof. unfold scaled. apply (Qred_complete _ 0). by rewrite Qmult_0_l. Qed.

Lemma scaled_int n : scaled 0 n = inject_Z n.
Proof.
  unfold scaled. rewrite <- (Qred_int n). apply Qred_complete. change (2 ^ 0)%Q with 1%Q.
  by rewrite Qmult_1_r, Qred_int.
Qed.

(** Their sums are exact. *)
Lemma toNumber_scaled e m n : 0 ≤ m + n < 2 ^ 53 → -1074 ≤ e →
  toNumber (scaled e m + scaled e n) = scaled e (m + n).
Proof.
  intros Hmn He. assert (scaled e m + scaled e n == inject_Z (m + n) * 2 ^ e)%Q as E.
  { rewrite !scaled_eq, inject_Z_plus. ring. }
  rewrite (toNumber_exact _ (m + n) e) by done. by apply Qred_complete.
Qed.

Section target.
Context (e : Z) (He : -900 ≤ e).
Context (h total : Z) (Hh : 0 ≤ h < 2 ^ 53) (Htotal : 0 < total < 2 ^ 53).
Definition target : Q := toNumber (unitInterval h * scaled e total).

Lemma target_exact : (unitInterval h * scaled e total == inject_Z (h * total) * 2 ^ (e - 53))%Q.
Proof.
  rewrite unitInterval_eq, scaled_eq, inject_Z_mult by done.
  replace (e - 53) with (-53 + e) by lia. rewrite pow2_plus. ring.
Qed.

Lemma target_zero : h = 0 → target = scaled e 0.
Proof.
  intros E. unfold target. rewrite scaled_0, (toNumber_exact _ 0 0); [|lia..|].
  - apply (Qred_complete _ 0). rewrite target_exact, E. apply Qmult_0_l.
  - rewrite target_exact, E. by rewrite !Qmult_0_l.
Qed.

Lemma target_arg : 0 < h →
  (2 ^ (e - 53) <= unitInterval h * scaled e total /\
   unitInterval h * scaled e total < 2 ^ (53 + e))%Q.
Proof.
  intros Hpos. rewrite target_exact. pose proof (pow2_pos (e - 53)). split.
  - assert (1 <= inject_Z (h * total))%Q; [|nra]. change 1%Q with (inject_Z 1).
    rewrite <- Zle_Qle. nia.
  - replace (53 + e) with (106 + (e - 53)) by lia. rewrite pow2_plus. apply Qmult_lt_r; [done|].
    rewrite <- pow2_int by done. rewrite <- Zlt_Qlt. nia.
Qed.

Lemma target_ge c : 0 ≤ c → c * 2 ^ 53 ≤ h * total → (scaled e c <= target)%Q.
Proof.
  intros Hc Hle. destruct (decide (h = 0)) as [E|Hne].
  { rewrite target_zero by done. apply scaled_le. nia. }
  destruct (target_arg ltac:(lia)) as [Hlow Hup]. pose proof (pow2_pos (e - 53)).
  rewrite scaled_eq. unfold target. apply toNumber_ge; [lra|done|lia|]. rewrite target_exact.
  replace e with (53 + (e - 53)) at 1 by lia. rewrite pow2_plus, Qmult_assoc.
  apply Qmult_le_r; [done|]. rewrite <- pow2_int, <- inject_Z_mult by done. by rewrite <- Zle_Qle.
Qed.

Lemma target_lt c : h * total * (2 ^ 53 + 1) < c * 2 ^ 106 → (target < scaled e c)%Q.
Proof.
  intros Hlt. destruct (decide (h = 0)) as [E|Hne].
  { rewrite target_zero by done. apply scaled_lt. nia. }
  destruct (target_arg ltac:(lia)) as [Hlow _].
  assert (2 ^ (-1022) <= 2 ^ (e - 53))%Q as Hsmall by (apply Qpower_le_compat_l; [lia|done]).
  eapply Qle_lt_trans; [apply toNumber_le; lra|]. rewrite target_exact, scaled_eq.
  assert (1 + 2 ^ (-53) == inject_Z (2 ^ 53 + 1) * 2 ^ (-53))%Q as -> by reflexivity.
  assert (inject_Z (h * total) * 2 ^ (e - 53) * (inject_Z (2 ^ 53 + 1) * 2 ^ (-53)) ==
    inject_Z (h * total * (2 ^ 53 + 1)) * 2 ^ (e - 106))%Q as ->.
  { rewrite !inject_Z_mult. replace (e - 106) with ((e - 53) + -53) by lia.
    rewrite (pow2_plus (e - 53)). ring. }
  assert (inject_Z c * 2 ^ e == inject_Z (c * 2 ^ 106) * 2 ^ (e - 106))%Q as ->.
  { rewrite inject_Z_mult, pow2_int by done. rewrite <- Qmult_assoc, <- pow2_plus.
    f_equiv. f_equiv. lia. }
  apply Qmult_lt_r; [apply pow2_pos|]. by rewrite <- Zlt_Qlt.
Qed.
End target.

(** The hashes whose target is below a sum of weights are those below a bound, which is
    off by less than one. *)
Lemma target_bound e total c : -900 ≤ e → 0 < total < 2 ^ 53 → 0 ≤ c ≤ total →
  ∃ b, 0 ≤ b ≤ 2 ^ 53 ∧
    (∀ h, 0 ≤ h < 2 ^ 53 → (target e h total < scaled e c)%Q ↔ h < b) ∧
    c * 2 ^ 53 - total ≤ b * total < c * 2 ^ 53 + total ∧
    (c = total → b = 2 ^ 53).
Proof.
  intros He Ht Hc.
  assert (∀ h, 0 ≤ h < 2 ^ 53 → c * 2 ^ 53 ≤ h * total → ¬ (target e h total < scaled e c)%Q) as Hge.
  { intros h Hh Hle. apply Qle_not_lt. apply target_ge; lia. }
  assert (∀ h, 0 ≤ h < 2 ^ 53 → h * total + total < c * 2 ^ 53 ∨ c = total →
    (target e h total < scaled e c)%Q) as Hlt.
  { intros h Hh H. apply target_lt; [done..|]. set (x := h * total) in *.
    assert (x ≤ (2 ^ 53 - 1) * total) by (unfold x; nia).
    change (2 ^ 106) with (2 ^ 53 * 2 ^ 53). destruct H as [H| ->]; nia. }
  destruct (decide (c = total)) as [->|Hne].
  { exists (2 ^ 53). split_and!; [lia..| |lia|lia|done]. intros h Hh. split; [lia|]. intros _.
    apply Hlt; auto. }
  set (B := (c * 2 ^ 53 + total - 1) / total).
  assert (c * 2 ^ 53 ≤ B * total < c * 2 ^ 53 + total) as HB.
  { pose proof (Z.div_mod (c * 2 ^ 53 + total - 1) total ltac:(lia)) as E. fold B in E.
    pose proof (Z.mod_pos_bound (c * 2 ^ 53 + total - 1) total ltac:(lia)). lia. }
  assert (0 ≤ B ≤ 2 ^ 53) as HBb by nia.
  assert (∀ h, 0 ≤ h < 2 ^ 53 → h ≠ B - 1 → (target e h total < scaled e c)%Q ↔ h < B) as Hother.
  { intros h Hh Hn. destruct (decide (h < B)).
    - split; [done|]. intros _. apply Hlt; [done|]. left. nia.
    - split; [|lia]. intros H. exfalso. apply (Hge h); [done|nia|done]. }
  destruct (less (target e (B - 1) total) (scaled e c)) eqn:E; [apply less_iff in E|].
  - exists B. split_and!; [lia..| |lia|lia|done]. intros h Hh. destruct (decide (h = B - 1)) as [->|]; [|auto].
    split; [lia|done].
  - assert (¬ (target e (B - 1) total < scaled e c)%Q) as E' by (rewrite <- less_iff; congruence).
    destruct (decide (B = 0)) as [HB0|HB0].
    + exists 0. split_and!; [lia..| |lia|lia|lia]. intros h Hh. rewrite Hother by lia. lia.
    + exists (B - 1). split_and!; [lia..| |lia|lia|lia]. intros h Hh.
      destruct (decide (h = B - 1)) as [->|]; [split; [done|lia]|]. rewrite Hother by done. lia.
Qed.

(** ** Sums of weights *)

Definition sumZ (l : list Z) : Z := foldr Z.add 0 l.

Lemma inject_plus a b : (inject_Z a + inject_Z b)%Q = inject_Z (a + b).
Proof. unfold inject_Z, Qplus. simpl. by rewrite !Z.mul_1_r. Qed.

Lemma sumZ_nonneg l : Forall (Z.le 0) l → 0 ≤ sumZ l.
Proof. induction 1; simpl; lia. Qed.

Lemma sumZ_take_S l i w : l !! i = Some w → sumZ (take (S i) l) = sumZ (take i l) + w.
Proof.
  revert i. induction l as [|x l IH]; intros [|i]; simpl; intros E; try done.
  - injection E as ->. lia.
  - rewrite <- Z.add_assoc, <- (IH i E). done.
Qed.

Lemma sumZ_take_le l i j : Forall (Z.le 0) l → (i ≤ j)%nat → sumZ (take i l) ≤ sumZ (take j l).
Proof.
  intros Hl. revert i j. induction Hl as [|x l Hx Hl IH]; intros [|i] [|j] Hij; simpl; try lia.
  - pose proof (sumZ_nonneg (take j l) (Forall_take _ _ _ Hl)). lia.
  - specialize (IH i j). lia.
Qed.

Lemma sumZ_take_total l i : Forall (Z.le 0) l → 0 ≤ sumZ (take i l) ≤ sumZ l.
Proof.
  intros Hl. split; [by apply sumZ_nonneg, Forall_take|].
  rewrite <- (take_ge l (max i (length l))) at 2 by lia. apply sumZ_take_le; [done|lia].
Qed.

Lemma sumZ_ones {A} (l : list A) : sumZ ((λ _, 1) <$> l) = Z.of_nat (length l).
Proof. induction l as [|x l IH]; [done|]. csimpl. rewrite IH. lia. Qed.

Section sums.
Context (e : Z) (He : -900 ≤ e).

Lemma sumNumbers_scaled l a : Forall (Z.le 0) l → 0 ≤ a → a + sumZ l < 2 ^ 53 →
  foldl (λ a b, toNumber (a + b)) (scaled e a) (scaled e <$> l) = scaled e (a + sumZ l).
Proof.
  intros Hl. revert a. induction Hl as [|x l Hx Hl IH]; intros a Ha Hs; simpl.
  - by rewrite Z.add_0_r.
  - simpl in Hs. pose proof (sumZ_nonneg l Hl). rewrite toNumber_scaled by lia.
    rewrite IH by lia. f_equal. lia.
Qed.

Lemma sumNumbers_total l : Forall (Z.le 0) l → sumZ l < 2 ^ 53 →
  sumNumbers (scaled e <$> l) = scaled e (sumZ l).
Proof.
  intros Hl Hs. unfold sumNumbers. rewrite <- (scaled_0 e). by apply (sumNumbers_scaled l 0).
Qed.

Lemma passes_scaled t l a : Forall (Z.le 0) l → 0 ≤ a → a + sumZ l < 2 ^ 53 → (scaled e a <= t)%Q →
  match passes t (scaled e a) (scaled e <$> l) with
  | Some i => ∃ w, l !! i = Some w ∧ (scaled e (a + sumZ (take i l)) <= t)%Q ∧
                   (t < scaled e (a + sumZ (take i l) + w))%Q
  | None => (scaled e (a + sumZ l) <= t)%Q
  end.
Proof.
  intros Hl. revert a. induction Hl as [|x l Hx Hl IH]; intros a Ha Hs Hat; csimpl.
  - by rewrite Z.add_0_r.
  - simpl in Hs. pose proof (sumZ_nonneg l Hl). rewrite toNumber_scaled by lia.
    destruct (less t (scaled e (a + x))) eqn:E.
    + apply less_iff in E. exists x. simpl. by rewrite Z.add_0_r.
    + assert (scaled e (a + x) <= t)%Q as Hle.
      { apply Qnot_lt_le. rewrite <- less_iff. congruence. }
      specialize (IH (a + x) ltac:(lia) ltac:(lia) Hle).
      destruct (passes t (scaled e (a + x)) _) as [i|]; simpl.
      * destruct IH as (w & Hw & H1 & H2). exists w. by rewrite !Z.add_assoc.
      * by rewrite Z.add_assoc.
Qed.
End sums.

(** ** The shares *)

(** What the choice goes by: the positive parts of the weights, or ones. *)
Definition sharesOf (weights : list Z) : list Z :=
  let positive := Z.max 0 <$> weights in
  if decide (sumZ positive = 0) then (λ _, 1) <$> weights else positive.

(** A choice by whole shares of a power of 2. *)
Section chosen.
Context (variants : list Variant) (e : Z) (weights : list Z).
Context (He : -900 ≤ e) (Heff : effectiveWeights variants = scaled e <$> weights).
Context (Hpos : Forall (Z.le 0) weights) (Htotal : 0 < sumZ weights < 2 ^ 53).

(** The variant of a hash is the one in whose part of the sum the target falls. *)
Lemma bucketIndex_iff h i w : 0 ≤ h < 2 ^ 53 → weights !! i = Some w →
  bucketIndex (unitInterval h) variants = i ↔
  (scaled e (sumZ (take i weights)) <= target e h (sumZ weights))%Q ∧
  (target e h (sumZ weights) < scaled e (sumZ (take i weights) + w))%Q.
Proof using All.
  intros Hh Hi. unfold bucketIndex. rewrite Heff, sumNumbers_total by (done || lia).
  fold (target e h (sumZ weights)). set (t := target e h (sumZ weights)).
  assert (scaled e 0 <= t)%Q as Ht0 by (apply target_ge; [done..|lia|nia]).
  assert (t < scaled e (sumZ weights))%Q as HtT.
  { apply target_lt; [done..|]. change (2 ^ 106) with (2 ^ 53 * 2 ^ 53). nia. }
  pose proof (passes_scaled e He t weights 0 Hpos ltac:(lia) ltac:(lia) Ht0) as Hp.
  rewrite scaled_0 in Hp.
  destruct (passes t 0 (scaled e <$> weights)) as [j|]; simpl.
  - destruct Hp as (u & Hj & H1 & H2). rewrite !Z.add_0_l in *. split.
    + intros ->. rewrite Hi in Hj. injection Hj as ->. done.
    + intros [G1 G2]. destruct (lt_eq_lt_dec j i) as [[Hji|]|Hij]; [|done|]; exfalso.
      * pose proof (sumZ_take_le weights (S j) i Hpos Hji) as Hle.
        rewrite (sumZ_take_S _ _ _ Hj), <- (scaled_le e) in Hle. lra.
      * pose proof (sumZ_take_le weights (S i) j Hpos Hij) as Hle.
        rewrite (sumZ_take_S _ _ _ Hi), <- (scaled_le e) in Hle. lra.
  - rewrite Z.add_0_l in Hp. lra.
Qed.

Lemma bucketIndex_lt h : (bucketIndex (unitInterval h) variants < length variants)%nat.
Proof using All.
  assert (length variants = length weights) as Hlen.
  { pose proof (f_equal length Heff) as E. rewrite length_fmap in E. rewrite <- E.
    unfold effectiveWeights. by case_match; rewrite length_map. }
  assert (weights ≠ []) as Hne by (intros ->; simpl in *; lia).
  assert (∀ t l a i, passes t a l = Some i → (i < length l)%nat) as Hlt.
  { intros t l. induction l as [|x l IH]; intros a i E; simpl in *; [done|].
    destruct (less _ _); [injection E as <-; lia|].
    destruct (passes _ _ l) eqn:E'; [|done]. injection E as <-. apply IH in E'. lia. }
  unfold bucketIndex. rewrite Heff.
  destruct (passes _ _ _) as [i|] eqn:E; simpl.
  - apply Hlt in E. rewrite length_fmap in E. lia.
  - destruct weights; [done|]. simpl in *. lia.
Qed.

(** Its hashes are an interval of about its share. *)
Lemma bucket_interval i w : weights !! i = Some w →
  ∃ a b, 0 ≤ a ≤ b ∧ b ≤ 2 ^ 53 ∧
    (∀ h, 0 ≤ h < 2 ^ 53 → bucketIndex (unitInterval h) variants = i ↔ a ≤ h < b) ∧
    Z.abs ((b - a) * sumZ weights - 2 ^ 53 * w) < 2 * sumZ weights.
Proof using All.
  intros Hi. pose proof (sumZ_take_total weights i Hpos) as Hci.
  pose proof (sumZ_take_total weights (S i) Hpos) as HcS.
  rewrite (sumZ_take_S _ _ _ Hi) in HcS.
  assert (0 ≤ w) as Hw by (rewrite Forall_lookup in Hpos; by eapply Hpos).
  destruct (target_bound e (sumZ weights) _ He Htotal Hci) as (a & Ha & Hlow & Hea & _).
  destruct (target_bound e (sumZ weights) _ He Htotal HcS) as (b & Hb & Hup & Heb & _).
  assert (∀ h, 0 ≤ h < 2 ^ 53 → h < a → h < b) as Hab.
  { intros h Hh Hlt. apply Hup; [done|]. apply Hlow in Hlt; [|done].
    eapply Qlt_le_trans; [exact Hlt|]. apply scaled_le. lia. }
  exists a, b. split; [|split; [lia|split; [|lia]]].
  - split; [lia|]. destruct (decide (a ≤ b)) as [|Hba]; [done|].
    specialize (Hab b ltac:(lia) ltac:(lia)). lia.
  - intros h Hh. rewrite bucketIndex_iff by done. rewrite Hup by done. split; intros [H1 H2]; (split; [|done]).
    + destruct (decide (a ≤ h)) as [|Hn]; [done|]. exfalso. apply (Qle_not_lt _ _ H1), Hlow; [done|lia].
    + apply Qnot_lt_le. rewrite Hlow by done. lia.
Qed.
End chosen.

Lemma shiftRight_bounds x n : 0 ≤ n → 0 ≤ shiftRight x n < 2 ^ 32.
Proof.
  intros Hn. unfold shiftRight. pose proof (Z.mod_pos_bound x (2 ^ 32) ltac:(lia)).
  rewrite Z.shiftr_div_pow2 by done. split; [apply Z.div_pos; lia|].
  apply Z.div_lt_upper_bound; [lia|]. nia.
Qed.

Lemma cyrb53_bounds str seed : 0 ≤ cyrb53 str seed < 2 ^ 53.
Proof.
  unfold cyrb53. destruct (cyrbChars _ _ _) as [h1 h2]. cbv zeta.
  lazymatch goal with |- 0 ≤ 4294967296 * Z.land _ ?a + shiftRight ?b 0 < _ =>
    pose proof (shiftRight_bounds b 0 ltac:(lia)); rewrite (Z.land_comm 2097151 a);
    change 2097151 with (Z.ones 21); rewrite Z.land_ones by lia;
    pose proof (Z.mod_pos_bound a (2 ^ 21) ltac:(lia))
  end. lia.
Qed.

(** The weights [bucket] goes by, for weights that are multiples of a power of 2. *)
Lemma effectiveWeights_scaled variants e weights :
  va_weight <$> variants = scaled e <$> weights → -900 ≤ e →
  sumZ (Z.max 0 <$> weights) < 2 ^ 53 →
  effectiveWeights variants =
  scaled (if decide (sumZ (Z.max 0 <$> weights) = 0) then 0 else e) <$> sharesOf weights.
Proof.
  intros Hint He Hs. set (positive := Z.max 0 <$> weights) in *.
  assert (Forall (Z.le 0) positive) as Hpos by (apply Forall_fmap, Forall_forall; intros; simpl; lia).
  assert (map (λ v, if less 0 (va_weight v) then va_weight v else 0%Q) variants =
    scaled e <$> positive) as E.
  { transitivity ((λ w, if less 0 w then w else 0%Q) <$> (va_weight <$> variants));
      [by rewrite <- list_fmap_compose|]. rewrite Hint. unfold positive. rewrite <- !list_fmap_compose.
    apply list_fmap_ext. intros i w _. simpl. rewrite <- (scaled_0 e).
    destruct (less _ _) eqn:E; [apply less_iff, scaled_lt in E; by rewrite Z.max_r by lia|].
    rewrite Z.max_l; [done|]. destruct (decide (w ≤ 0)) as [|Hw]; [done|]. exfalso.
    assert (less (scaled e 0) (scaled e w) = true); [|congruence]. apply less_iff, scaled_lt. lia. }
  unfold effectiveWeights, sharesOf. rewrite E, sumNumbers_total by done. fold positive.
  pose proof (sumZ_nonneg positive Hpos). rewrite <- (scaled_0 e).
  case_decide as Hz; destruct (less (scaled e 0) (scaled e (sumZ positive))) eqn:Hless.
  - apply less_iff, scaled_lt in Hless. lia.
  - assert (length variants = length weights) as Hlen.
    { pose proof (f_equal length Hint) as Hlen. by rewrite !length_fmap in Hlen. }
    rewrite <- list_fmap_compose. clear -Hlen. revert weights Hlen.
    induction variants as [|v variants IH]; intros [|w weights]; [done..|].
    intros [= Hlen]. simpl. f_equal. by apply IH.
  - done.
  - exfalso. assert (less (scaled e 0) (scaled e (sumZ positive)) = true); [|congruence].
    apply less_iff, scaled_lt. lia.
Qed.

(** C25.  A hash is one of 2^53, and it alone decides the variant of a session.  Let the
    weights be whole multiples of a power of 2, as integers, halves and quarters are,
    and their sum below 2^53 of it; negative ones count as zero, and when none is
    positive all count the same.  Then, all rounding included, the hashes of a variant
    are those of an interval, and their share of the hashes is that of the weight, off
    by less than two of them. *)
Theorem bucket_shares variants e weights i w :
  va_weight <$> variants = scaled e <$> weights → -900 ≤ e ≤ 900 →
  sumZ (Z.max 0 <$> weights) < 2 ^ 53 → Z.of_nat (length weights) < 2 ^ 53 →
  sharesOf weights !! i = Some w →
  (∀ sid key, let hash := cyrb53 (sid +:+ ":" +:+ key) 0 in
     0 ≤ hash < 2 ^ 53 ∧
     bucket sid key variants = variants !! bucketIndex (unitInterval hash) variants) ∧
  ∃ a b, 0 ≤ a ≤ b ∧ b ≤ 2 ^ 53 ∧
    (∀ h, 0 ≤ h < 2 ^ 53 → bucketIndex (unitInterval h) variants = i ↔ a ≤ h < b) ∧
    Z.abs ((b - a) * sumZ (sharesOf weights) - 2 ^ 53 * w) < 2 * sumZ (sharesOf weights).
Proof.
  intros Hint He Hs Hl Hi.
  assert (∃ e', -900 ≤ e' ∧ effectiveWeights variants = scaled e' <$> sharesOf weights)
    as (e' & He' & Heff).
  { eexists. split; [|apply (effectiveWeights_scaled _ e); [done|lia|done]]. case_decide; lia. }
  assert (Forall (Z.le 0) (sharesOf weights) ∧ 0 < sumZ (sharesOf weights) < 2 ^ 53) as [Hpos Htotal].
  { assert (Forall (Z.le 0) (Z.max 0 <$> weights)) as Hpos
      by (apply Forall_fmap, Forall_forall; intros; simpl; lia).
    pose proof (sumZ_nonneg _ Hpos). unfold sharesOf in *. case_decide as Hz; [|split; [done|lia]].
    split; [apply Forall_fmap, Forall_forall; intros; simpl; lia|].
    rewrite sumZ_ones. split; [|done]. destruct weights; [done|]. simpl. lia. }
  split; [|by apply (bucket_interval variants e')].
  intros sid key hash.
  pose proof (cyrb53_bounds (sid +:+ ":" +:+ key) 0 : 0 ≤ hash < 2 ^ 53) as Hh.
  split; [done|]. unfold bucket, hashToUnitInterval. fold hash.
  pose proof (bucketIndex_lt variants e' _ He' Heff Hpos Htotal hash) as Hlt.
  destruct variants as [|v [|]]; [simpl in *; lia| |done].
  by replace (bucketIndex (unitInterval hash) [v]) with 0%nat by (simpl in *; lia).
Qed.

(** ** Cookies *)

Lemma decode_encodeChar c t :
  decodeURIComponent (encodeChar c +:+ t) = String c <$> decodeURIComponent t.
Proof. by destruct c as [[] [] [] [] [] [] [] []]. Qed.

Lemma decode_encode s : decodeURIComponent (encodeURIComponent s) = Some s.
Proof. induction s as [|c s IH]; [done|]. simpl. by rewrite decode_encodeChar, IH. Qed.

Lemma encode_chars s :
  all_chars (λ c, negb (is_blank c) && negb (Ascii.eqb c ";")) (encodeURIComponent s) = true.
Proof.
  induction s as [|c s IH]; [done|]. simpl. rewrite all_chars_app, IH, andb_true_r.
  by destruct c as [[] [] [] [] [] [] [] []].
Qed.

Lemma encode_trim s : trim (encodeURIComponent s) = encodeURIComponent s.
Proof.
  apply trim_solid. generalize (encode_chars s). apply all_chars_impl.
  by intros c [? _]%andb_true_iff.
Qed.

Lemma encode_lacks s : lacks ";" (encodeURIComponent s).
Proof.
  pose proof (encode_chars s) as H. induction (encodeURIComponent s) as [|c t IH]; [done|].
  simpl in *. apply andb_true_iff in H as [[_ Hc]%andb_true_iff Ht]. split; [|by apply IH].
  intros ->. done.
Qed.

(** Cookies as a browser sends them. *)
Definition cookies (l : list string) : string := join "; " l.

(** What a browser keeps of a cookie that is set. *)
Definition cookiePair (set : string) : string := default "" (head (split ";"%char set)).

Lemma join_cookies x l : cookies (x :: l) = join ";" (x :: (String " " <$> l)).
Proof.
  revert x. unfold cookies. induction l as [|y l IH]; intros x; [done|].
  change (join "; " (x :: y :: l)) with (x +:+ "; " +:+ join "; " (y :: l)). rewrite IH.
  csimpl. destruct (String " " <$> l); done.
Qed.

Lemma trim_space s : trim (String " " s) = trim s.
Proof. unfold trim, skipBlanks. simpl. by destruct (span is_blank s). Qed.

Lemma cookiePart_space p : cookiePart (String " " p) = cookiePart p.
Proof.
  unfold cookiePart. simpl String.index. destruct (String.index 0 "=" p) as [n|]; [|done].
  change (substr 0 (S n) (String " " p)) with (String " " (substr 0 n p)).
  change (slice (S (S n)) (String " " p)) with (slice (S n) p). by rewrite trim_space.
Qed.

Definition putCookie (out : list (string * string)) (part : string) : list (string * string) :=
  match cookiePart part with
  | Some (k, v) => setKey k (default v (decodeURIComponent v)) out
  | None => out
  end.

Lemma parseCookies_list x l : Forall (lacks ";") (x :: l) →
  parseCookies (cookies (x :: l)) = foldl putCookie [] (x :: l).
Proof.
  intros Hl. unfold parseCookies. rewrite join_cookies.
  rewrite split_join; [|done|].
  - change (foldl putCookie (putCookie [] x) (String " " <$> l) = foldl putCookie (putCookie [] x) l).
    generalize (putCookie [] x). clear Hl.
    induction l as [|y l IH]; intros out; [done|]. csimpl. rewrite IH. f_equal.
    unfold putCookie. by rewrite cookiePart_space.
  - inversion Hl as [|?? Hx Hl']; subst. constructor; [done|]. apply Forall_fmap.
    eapply Forall_impl; [exact Hl'|]. intros p Hp. simpl. by split.
Qed.

Lemma putCookie_others k out l : Forall (λ p, ∀ v, cookiePart p ≠ Some (k, v)) l →
  prop k (foldl putCookie out l) = prop k out.
Proof.
  intros Hl. revert out. induction Hl as [|p l Hp _ IH]; intros out; [done|]. simpl. rewrite IH.
  unfold putCookie. destruct (cookiePart p) as [[k' v]|]; [|done]. rewrite prop_setKey.
  rewrite decide_False; [done|]. intros <-. by apply (Hp v).
Qed.

(** A cookie that no later one replaces is read. *)
Lemma cookie_read k v before part after :
  cookiePart part = Some (k, v) → Forall (lacks ";") (before ++ part :: after) →
  Forall (λ p, ∀ v, cookiePart p ≠ Some (k, v)) after →
  prop k (parseCookies (cookies (before ++ part :: after))) = Some (default v (decodeURIComponent v)).
Proof.
  intros Hp Hl Ha. destruct (before ++ part :: after) as [|x l] eqn:E; [by destruct before|].
  rewrite parseCookies_list by done. rewrite <- E, foldl_app. simpl. rewrite putCookie_others by done.
  unfold putCookie at 1. rewrite Hp, prop_setKey. by rewrite decide_True.
Qed.

Lemma cookiePair_join x y l : lacks ";" x → cookiePair (join "; " (x :: y :: l)) = x.
Proof.
  intros Hx. unfold cookiePair.
  change (join "; " (x :: y :: l)) with (x +:+ String ";" (String " " (join "; " (y :: l)))).
  by rewrite split_app.
Qed.

(** The cookie of a session, as a browser keeps it. *)
Definition sidPair (sid : string) : string := SID_COOKIE +:+ "=" +:+ encodeURIComponent sid.

Lemma sidPair_lacks sid : lacks ";" (sidPair sid).
Proof. apply lacks_app. split; [by vm_compute|]. apply lacks_app. split; [by vm_compute|]. apply encode_lacks. Qed.

Lemma cookiePair_sid sid domain : cookiePair (serializeSidCookie sid domain) = sidPair sid.
Proof. apply cookiePair_join, sidPair_lacks. Qed.

Lemma cookiePart_sid sid : cookiePart (sidPair sid) = Some (SID_COOKIE, encodeURIComponent sid).
Proof.
  assert (∀ v, cookiePart (SID_COOKIE +:+ "=" +:+ v) = Some (SID_COOKIE, trim v)) as E
    by (intros [|]; reflexivity).
  unfold sidPair. by rewrite E, encode_trim.
Qed.

(** Cookies a browser sends: the one of a session among others, none of a session after
    it. *)
Definition keeps_session (set : string) (request : Visit) : Prop :=
  ∃ before after, vi_cookie request = cookies (before ++ cookiePair set :: after) ∧
    Forall (lacks ";") (before ++ after) ∧
    Forall (λ p, ∀ v, cookiePart p ≠ Some (SID_COOKIE, v)) after.

Lemma readSid_kept sid domain request : sid ≠ "" →
  keeps_session (serializeSidCookie sid domain) request → readSid request = Some sid.
Proof.
  intros Hne (before & after & Hc & Hl & Ha). unfold readSid. rewrite Hc, cookiePair_sid.
  rewrite (cookie_read _ _ _ _ _ (cookiePart_sid sid)).
  - rewrite decode_encode. simpl. by rewrite (proj2 (String.eqb_neq _ _) Hne).
  - apply Forall_app in Hl as [? ?]. apply Forall_app. split; [done|].
    constructor; [apply sidPair_lacks|done].
  - done.
Qed.

(** C24.  A visitor without a session gets one on the first page, the same for all that
    load this page, in one cookie; and on every later page to which the browser sends
    that cookie, the visitor has this session, no other is made, and the variant, its
    flags and what is tracked are the same, as long as the dashboard says nothing. *)
Theorem visitor_sticks key memo request minted storyDir story fallback :
  readSid request = None → memo !! key = None → minted ≠ "" →
  let load key request memo minted :=
    storyLoader key request None storyDir (Some story) None None fallback false minted memo in
  ∃ base assignment exposure memo' cookie,
    load key request memo minted = ((base, assignment, Some exposure), memo') ∧
    sb_cookies base = [cookie] ∧ ex_sid exposure = sb_sid base ∧ ex_variant exposure = as_variant assignment ∧
    (∀ minted', load key request memo' minted' = ((base, assignment, Some exposure), memo')) ∧
    ∀ key' next minted', memo' !! key' = None → keeps_session cookie next →
      ∃ base', load key' next memo' minted' = ((base', assignment, Some exposure), memo') ∧
        sb_sid base' = sb_sid base ∧ sb_created base' = false.
Proof.
  intros Hno Hkey Hne load. unfold load, storyLoader, sidLoader, sidOnce, ensureSid.
  rewrite Hkey, Hno. cbn [snd fst]. cbv beta iota zeta.
  set (base := {| sb_sid := minted |}).
  assert (∀ hostname : option string, (hostname ≫= λ _, parseVariantOverride None (st_key story)) = None) as Hnone
    by (by intros [|]).
  rewrite Hnone.
  set (assignment := match resolveAssignment (sb_sid base) story None None with
    Some a => a | None => fallback end).
  eexists base, assignment, _, _, _. split; [|split; [reflexivity|]].
  { unfold assignment. by destruct (resolveAssignment _ _ _ _). }
  split; [done|]. split; [done|]. split.
  - intros minted'. rewrite lookup_insert_eq. cbn [snd fst]. cbv beta iota zeta. fold base.
    unfold assignment. by destruct (resolveAssignment _ _ _ _).
  - intros key' next minted' Hkey' Hkeep. rewrite Hkey'. rewrite (readSid_kept _ _ _ Hne Hkeep).
    cbn [snd fst]. cbv beta iota zeta. rewrite Hnone.
    unfold assignment. cbn [sb_sid base].
    destruct (resolveAssignment _ _ _ _); (eexists; split; [reflexivity|by split]).
Qed.

(** ** Asking the service *)

Section flags.
Context {V : Type}.
Implicit Types s : Flags V.

(** What happens: a request is made for a key, is answered, a call is answered from the
    cache. *)
Inductive FlagsEvent :=
  | Asked (key : string) (t : Z)
  | Answered (key : string) (value : V) (t : Z)
  | Served (key : string) (value : V) (t : Z).

(** The last answer for a key, with its time, and whether one is awaited. *)
Definition lastAnswer (k : string) (h : list FlagsEvent) : option (Z * V) :=
  foldl (λ a e, match e with
                | Answered key v t => if decide (key = k) then Some (t, v) else a
                | _ => a
                end) None h.

Definition awaited (k : string) (h : list FlagsEvent) : bool :=
  foldl (λ b e, match e with
                | Asked key _ => bool_decide (key = k) || b
                | Answered key _ _ => negb (bool_decide (key = k)) && b
                | Served _ _ _ => b
                end) false h.

(** An event that is in order after a history. *)
Definition in_time (h : list FlagsEvent) (e : FlagsEvent) : Prop :=
  match e with
  | Served k v t => ∃ t', lastAnswer k h = Some (t', v) ∧ t - t' < FLAGS_TTL_MS
  | Asked k t => awaited k h = false ∧
                 ∀ t' v, lastAnswer k h = Some (t', v) → FLAGS_TTL_MS ≤ t - t'
  | Answered k _ _ => awaited k h = true
  end.

Inductive flags_step : Flags V * list FlagsEvent → Flags V * list FlagsEvent → Prop :=
  | flags_kept s h key now v s' :
      getFlags key now s = (Kept v, s') → flags_step (s, h) (s', h ++ [Served key v now])
  | flags_joined s h key now n s' :
      getFlags key now s = (Promised n, s') → n ≠ fl_next s → flags_step (s, h) (s', h)
  | flags_asked s h key now n s' :
      getFlags key now s = (Promised n, s') → n = fl_next s →
      flags_step (s, h) (s', h ++ [Asked key now])
  | flags_fetched s h n key v now :
      fl_promises s !! n = Some (key, Fetching) →
      flags_step (s, h) (fetched n v now s, h ++ [Answered key v now])
  | flags_released s h n : flags_step (s, h) (released n s, h).

Record flags_ok (s : Flags V) (h : list FlagsEvent) : Prop := {
  fo_cache : ∀ k, fl_cache s !! k = lastAnswer k h;
  fo_inflight : ∀ k n, fl_inflight s !! k = Some n ↔ ∃ p, fl_promises s !! n = Some (k, p);
  fo_next : ∀ n, is_Some (fl_promises s !! n) → (n < fl_next s)%nat;
  fo_awaited : ∀ k, awaited k h = true ↔ ∃ n, fl_promises s !! n = Some (k, Fetching);
  fo_in_time : ∀ h1 e h2, h = h1 ++ e :: h2 → in_time h1 e
}.

Lemma lastAnswer_snoc k h e : lastAnswer k (h ++ [e]) =
  match e with
  | Answered key v t => if decide (key = k) then Some (t, v) else lastAnswer k h
  | _ => lastAnswer k h
  end.
Proof. unfold lastAnswer. by rewrite foldl_snoc. Qed.

Lemma awaited_snoc k h e : awaited k (h ++ [e]) =
  match e with
  | Asked key _ => bool_decide (key = k) || awaited k h
  | Answered key _ _ => negb (bool_decide (key = k)) && awaited k h
  | Served _ _ _ => awaited k h
  end.
Proof. unfold awaited. by rewrite foldl_snoc. Qed.

Lemma in_time_snoc h e : (∀ h1 e' h2, h = h1 ++ e' :: h2 → in_time h1 e') → in_time h e →
  ∀ h1 e' h2, h ++ [e] = h1 ++ e' :: h2 → in_time h1 e'.
Proof.
  intros Hh He h1 e' h2 E. destruct h2 as [|e2 h2 _] using rev_ind.
  - by apply app_inj_tail in E as [-> ->].
  - rewrite app_comm_cons, app_assoc in E. apply app_inj_tail in E as [-> _]. by eapply Hh.
Qed.

(** A call that asks: nothing fresh is kept, and no request is in flight. *)
Lemma getFlags_ask s key now n s' : getFlags key now s = (Promised n, s') →
  (∀ t v, fl_cache s !! key = Some (t, v) → FLAGS_TTL_MS ≤ now - t) ∧
  ((s' = s ∧ fl_inflight s !! key = Some n) ∨
   (fl_inflight s !! key = None ∧ n = fl_next s ∧
    s' = {| fl_cache := fl_cache s; fl_inflight := <[key := n]> (fl_inflight s);
            fl_promises := <[n := (key, Fetching)]> (fl_promises s); fl_next := S n |})).
Proof.
  unfold getFlags. intros E. split.
  - intros t v Hc. rewrite Hc in E. destruct (decide _); [done|lia].
  - destruct (fl_cache s !! key) as [[t v]|]; [destruct (decide _); [done|]|];
      (destruct (fl_inflight s !! key) as [m|]; injection E as <- <-; [by left|by right]).
Qed.

Lemma getFlags_kept s key now v s' : getFlags key now s = (Kept v, s') →
  s' = s ∧ ∃ t, fl_cache s !! key = Some (t, v) ∧ now - t < FLAGS_TTL_MS.
Proof.
  unfold getFlags. destruct (fl_cache s !! key) as [[t w]|]; [destruct (decide _)|];
    (destruct (fl_inflight s !! key) || idtac); intros E; simplify_eq; eauto.
Qed.

Lemma asked_ok s h key now : flags_ok s h → fl_inflight s !! key = None →
  (∀ t v, fl_cache s !! key = Some (t, v) → FLAGS_TTL_MS ≤ now - t) →
  let n := fl_next s in
  flags_ok {| fl_cache := fl_cache s; fl_inflight := <[key := n]> (fl_inflight s);
              fl_promises := <[n := (key, Fetching)]> (fl_promises s); fl_next := S n |}
    (h ++ [Asked key now]).
Proof.
  intros [Hc Hi Hn Ha Ht] Hno Hold n.
  assert (fl_promises s !! n = None) as Hfresh.
  { apply eq_None_not_Some. intros Hs. apply Hn in Hs. lia. }
  assert (∀ m p, fl_promises s !! m ≠ Some (key, p)) as Hkey.
  { intros m p E. assert (fl_inflight s !! key = Some m) by (apply Hi; eauto). congruence. }
  split; simpl.
  - intros k. by rewrite lastAnswer_snoc.
  - intros k m. destruct (decide (key = k)) as [<-|Hk].
    + rewrite lookup_insert_eq. split; [intros [= <-]; rewrite lookup_insert_eq; eauto|].
      intros [p E]. destruct (decide (n = m)) as [->|]; [done|].
      rewrite lookup_insert_ne in E by done. by apply Hkey in E.
    + rewrite lookup_insert_ne, Hi by done. destruct (decide (n = m)) as [<-|].
      * rewrite lookup_insert_eq, Hfresh. naive_solver.
      * by rewrite lookup_insert_ne.
  - intros m. destruct (decide (n = m)) as [->|]; [lia|]. rewrite lookup_insert_ne by done.
    intros Hs%Hn. lia.
  - intros k. rewrite awaited_snoc, orb_true_iff, bool_decide_eq_true, Ha.
    split.
    + intros [<-|[m E]]; [exists n; by rewrite lookup_insert_eq|].
      exists m. rewrite lookup_insert_ne; [done|]. by intros <-; rewrite Hfresh in E.
    + intros [m E]. destruct (decide (n = m)) as [<-|];
        [rewrite lookup_insert_eq in E; injection E as <-; by left|].
      rewrite lookup_insert_ne in E by done. eauto.
  - apply in_time_snoc; [done|]. simpl. split.
    + apply not_true_is_false. rewrite Ha. intros [m E]. by apply Hkey in E.
    + intros t v. rewrite <- Hc. apply Hold.
Qed.

Lemma fetched_ok s h n key v now : flags_ok s h → fl_promises s !! n = Some (key, Fetching) →
  flags_ok (fetched n v now s) (h ++ [Answered key v now]).
Proof.
  intros [Hc Hi Hn Ha Ht] E. unfold fetched. rewrite E.
  assert (∀ m p, fl_promises s !! m = Some (key, p) → m = n) as Hone.
  { intros m p Em. assert (fl_inflight s !! key = Some m) by (apply Hi; eauto).
    assert (fl_inflight s !! key = Some n) by (apply Hi; eauto). congruence. }
  split; simpl.
  - intros k. rewrite lastAnswer_snoc. destruct (decide (key = k)) as [<-|];
      [by rewrite lookup_insert_eq|by rewrite lookup_insert_ne].
  - intros k m. rewrite Hi. destruct (decide (n = m)) as [<-|]; [|by rewrite lookup_insert_ne].
    rewrite lookup_insert_eq, E. naive_solver.
  - intros m. destruct (decide (n = m)) as [<-|]; [intros _; apply Hn; eauto|].
    rewrite lookup_insert_ne by done. apply Hn.
  - intros k. rewrite awaited_snoc, andb_true_iff, negb_true_iff, bool_decide_eq_false, Ha.
    split.
    + intros [Hk [m Em]]. exists m. rewrite lookup_insert_ne; [done|]. intros <-. congruence.
    + intros [m Em]. destruct (decide (n = m)) as [<-|Hne];
        [by rewrite lookup_insert_eq in Em|]. rewrite lookup_insert_ne in Em by done.
      split; [|eauto]. intros ->. by apply Hone in Em.
  - apply in_time_snoc; [done|]. simpl. apply Ha. eauto.
Qed.

Lemma released_ok s h n : flags_ok s h → flags_ok (released n s) h.
Proof.
  intros Hok. unfold released.
  destruct (fl_promises s !! n) as [[key [|v]]|] eqn:E; [done| |done].
  destruct Hok as [Hc Hi Hn Ha Ht].
  assert (fl_inflight s !! key = Some n) as Hin by (apply Hi; eauto).
  split; simpl; [done| | | |done].
  - intros k m. destruct (decide (key = k)) as [<-|Hk].
    + rewrite lookup_delete_eq. split; [done|]. intros [p Em].
      destruct (decide (n = m)) as [->|]; [by rewrite lookup_delete_eq in Em|].
      rewrite lookup_delete_ne in Em by done.
      assert (fl_inflight s !! key = Some m) by (apply Hi; eauto). congruence.
    + rewrite lookup_delete_ne, Hi by done. destruct (decide (n = m)) as [<-|];
        [|by rewrite lookup_delete_ne]. rewrite lookup_delete_eq, E. naive_solver.
  - intros m. destruct (decide (n = m)) as [<-|]; [rewrite lookup_delete_eq; by intros []|].
    rewrite lookup_delete_ne by done. apply Hn.
  - intros k. rewrite Ha. split; intros [m Em]; exists m.
    + rewrite lookup_delete_ne; [done|]. intros <-. congruence.
    + destruct (decide (n = m)) as [<-|]; [by rewrite lookup_delete_eq in Em|].
      by rewrite lookup_delete_ne in Em.
Qed.

Lemma flags_step_ok s h s' h' : flags_step (s, h) (s', h') → flags_ok s h → flags_ok s' h'.
Proof.
  intros Hstep Hok. inversion Hstep as [? ? key now v ? Hg|? ? key now n ? Hg Hne
    |? ? key now n ? Hg Heq|? ? n key v now Hp|? ? n]; subst; clear Hstep.
  - apply getFlags_kept in Hg as (-> & t & Hc & Ht). destruct Hok as [Hcache Hi Hn Ha Hin].
    split; try done.
    + intros k. by rewrite lastAnswer_snoc.
    + intros k. by rewrite awaited_snoc.
    + apply in_time_snoc; [done|]. exists t. by rewrite <- Hcache.
  - by apply getFlags_ask in Hg as [_ [[-> _]|(_ & -> & _)]].
  - apply getFlags_ask in Hg as [Hold [[-> Hin]|(Hno & _ & ->)]]; [|by apply asked_ok].
    destruct Hok as [_ Hi Hn _ _]. apply Hi in Hin as [p Hp].
    assert (fl_next s < fl_next s)%nat by (apply Hn; eauto). lia.
  - by apply fetched_ok.
  - by apply released_ok.
Qed.

Lemma noFlags_ok : flags_ok noFlags [].
Proof.
  split; simpl; [done|..].
  - intros k n. rewrite lookup_empty. split; [done|]. intros [p E]. by rewrite lookup_empty in E.
  - intros n [p E]. by rewrite lookup_empty in E.
  - intros k. split; [done|]. intros [n E]. by rewrite lookup_empty in E.
  - by intros [].
Qed.

Lemma flags_steps_ok x y : rtc flags_step x y → flags_ok x.1 x.2 → flags_ok y.1 y.2.
Proof.
  induction 1 as [|[s1 h1] [s2 h2] y Hstep _ IH]; [done|].
  intros H0. by apply IH, (flags_step_ok s1 h1).
Qed.

(** C26.  Whoever asks for flags, and whenever answers arrive: a key has one request in
    flight at a time; a request is made only when the last answer for its key is
    fifteen seconds old; and what a call is given from the cache is the last answer,
    younger than that. *)
Theorem flags_in_time s h :
  rtc flags_step (noFlags, []) (s, h) →
  (∀ n m k p q, fl_promises s !! n = Some (k, p) → fl_promises s !! m = Some (k, q) → n = m) ∧
  ∀ h1 e h2, h = h1 ++ e :: h2 → in_time h1 e.
Proof.
  intros [_ Hi _ _ Ht]%flags_steps_ok; [|apply noFlags_ok].
  split; [|done]. intros n m k p q Hn Hm.
  assert (fl_inflight s !! k = Some n) by (apply Hi; eauto).
  assert (fl_inflight s !! k = Some m) by (apply Hi; eauto). congruence.
Qed.
End flags.
Arguments FlagsEvent : clear implicits.

(** ** Samples *)

Definition threeVariants : list Variant := [
  {| va_id := "a"; va_weight := inject_Z 70; va_flags := [] |};
  {| va_id := "b"; va_weight := inject_Z 20; va_flags := [("layout", JString "wide")] |};
  {| va_id := "c"; va_weight := inject_Z 10; va_flags := [] |}].

(** Two halves, and seventy, twenty and ten. *)
Lemma bucket_shares_witness :
  (∃ a b, 0 ≤ a ≤ b ∧ b ≤ 2 ^ 53 ∧
    (∀ h, 0 ≤ h < 2 ^ 53 → bucketIndex (unitInterval h) threeVariants = 1%nat ↔ a ≤ h < b) ∧
    Z.abs ((b - a) * 100 - 2 ^ 53 * 20) < 200) ∧
  let halves := [ {| va_id := "control"; va_weight := 1 # 2; va_flags := [] |};
                  {| va_id := "treatment"; va_weight := 1 # 2; va_flags := [] |} ] in
  ∃ a b, 0 ≤ a ≤ b ∧ b ≤ 2 ^ 53 ∧
    (∀ h, 0 ≤ h < 2 ^ 53 → bucketIndex (unitInterval h) halves = 1%nat ↔ a ≤ h < b) ∧
    Z.abs ((b - a) * 2 - 2 ^ 53) < 4.
Proof.
  split; [apply (bucket_shares threeVariants 0 [70; 20; 10] 1 20)|intros halves;
    apply (bucket_shares halves (-1) [1; 1] 1 1)].
  all: try lia. all: try (vm_compute; reflexivity).
Defined.

(** Decimal weights are no such multiples: here a variant has more than two hashes
    fewer than the share of the weights as they are held. *)
Example decimal_weights :
  let weight z := toNumber (z # 100) in
  let variants := (λ z, {| va_id := ""; va_weight := weight z; va_flags := [] |}) <$>
    [70; 34; 70; 33; 10] in
  let chosen h := bucketIndex (unitInterval h) variants in
  chosen 7222362536059597 = 2%nat ∧ chosen 7222362536059598 = 3%nat ∧
  chosen 8592120948070898 = 3%nat ∧ chosen 8592120948070899 = 4%nat ∧
  (inject_Z (8592120948070899 - 7222362536059598) + 2 <
   inject_Z (2 ^ 53) * weight 33%Z /
   (weight 70%Z + weight 34%Z + weight 70%Z + weight 33%Z + weight 10%Z))%Q.
Proof. split_and!; vm_compute; reflexivity. Qed.

Definition aStory : Story := {| st_key := "layout_test"; st_variants := threeVariants |}.
Definition anAssignment : Assignment :=
  {| as_variant := "a"; as_flags := []; as_experimentKey := "layout_test" |}.
Definition firstVisit : Visit :=
  {| vi_cookie := "theme=dark"; vi_hostname := Some "studio.catalyst.example.com" |}.
Definition secondVisit : Visit :=
  {| vi_cookie := "theme=dark; sid=s%201; lang=en"; vi_hostname := Some "catalyst.example.com" |}.

Lemma visitor_sticks_witness :
  ∃ base assignment exposure memo' base',
    storyLoader 0 firstVisit None "layout" (Some aStory) None None anAssignment false "s 1" ∅ =
      ((base, assignment, Some exposure), memo') ∧
    storyLoader 1 secondVisit None "layout" (Some aStory) None None anAssignment false "s 2" memo' =
      ((base', assignment, Some exposure), memo') ∧
    sb_sid base' = "s 1".
Proof.
  destruct (visitor_sticks 0 ∅ firstVisit "s 1" "layout" aStory anAssignment) as
    (base & assignment & exposure & memo' & cookie & Hload & Hc & _ & _ & _ & Hnext);
    [reflexivity|reflexivity|done|].
  cbv zeta in Hload, Hnext.
  assert (base = (storyLoader 0 firstVisit None "layout" (Some aStory) None None anAssignment false "s 1" ∅).1.1.1)
    as Hb by by rewrite Hload.
  assert (memo' = (storyLoader 0 firstVisit None "layout" (Some aStory) None None anAssignment false "s 1" ∅).2)
    as Hm by by rewrite Hload.
  rewrite Hb in Hc. vm_compute in Hc. injection Hc as <-.
  destruct (Hnext 1%N secondVisit "s 2") as (base' & Hload' & Hsid & _).
  - rewrite Hm. by vm_compute.
  - exists ["theme=dark"], ["lang=en"]. split_and!; [by vm_compute|decided|].
    constructor; [|constructor]. intros v. by vm_compute.
  - exists base, assignment, exposure, memo', base'. split_and!; [done|done|].
    rewrite Hsid, Hb. by vm_compute.
Defined.

(** A request, its answer, and a call while the answer is fresh. *)
Definition someFlags : Flags (option RuntimeFlag) * list (FlagsEvent (option RuntimeFlag)) :=
  let key := cacheKey [Some "layout_test"; None] in
  let s1 := (getRuntimeFlags "layout_test" None 0 noFlags).2 in
  let s2 := released 0 (fetched 0 None 100 s1) in
  ((getRuntimeFlags "layout_test" None 15099 s2).2,
   [Asked key 0; Answered key None 100; Served key None 15099]).

Lemma flags_in_time_witness :
  rtc flags_step (noFlags, []) someFlags ∧ ∀ h1 e h2, someFlags.2 = h1 ++ e :: h2 → in_time h1 e.
Proof.
  assert (rtc flags_step (noFlags, []) someFlags) as H.
  { eapply rtc_l; [eapply (flags_asked _ [] (cacheKey [Some "layout_test"; None]) 0); reflexivity|].
    eapply rtc_l; [eapply (flags_fetched _ _ 0 _ None 100); reflexivity|].
    eapply rtc_l; [apply (flags_released _ _ 0)|].
    eapply rtc_l; [eapply (flags_kept _ _ (cacheKey [Some "layout_test"; None]) 15099); reflexivity|].
    apply rtc_refl. }
  split; [exact H|]. apply (flags_in_time someFlags.1 someFlags.2 H).
Defined.
