(* ===== verification/EngineInput.v ===== *)
(** * Touch controls as keys and pointers

    [ui3/src/explorer/mobile/controls/engineInput.ts]: on a phone, joysticks and
    buttons are sent to the engine as the keys and the mouse it expects.  What has been
    sent, and what could not be for want of an element, is the history [in_sent].

    Numbers are those of [Experiments].  Focusing the canvas, which touches the page
    only, and the wording of the log are left out. *)

From Stdlib Require Import QArith.
From S2P Require Import Prelude Experiments.
Open Scope string_scope.
Open Scope list_scope.
Open Scope Z_scope.

(** ** Keys and events *)

(** [SyntheticKeyCode], ui3/src/explorer/mobile/controls/engineInput.ts:5-9 *)
Inductive Key :=
  | KeyW | KeyA | KeyS | KeyD
  | ShiftLeft | ControlLeft
  | Space | KeyE | KeyF
  | ArrowUp | ArrowDown | ArrowLeft | ArrowRight.

#[export] Instance Key_eq_dec : EqDecision Key.
Proof. solve_decision. Defined.

(** The codes of [KEYS], without the names of the keys,
    ui3/src/explorer/mobile/controls/engineInput.ts:51-65 *)
Definition keySpec (code : Key) : Z * Z :=
  match code with
  | KeyW => (87, 0) | KeyA => (65, 0) | KeyS => (83, 0) | KeyD => (68, 0)
  | ShiftLeft => (16, 1) | ControlLeft => (17, 1)
  | Space => (32, 0) | KeyE => (69, 0) | KeyF => (70, 0)
  | ArrowUp => (38, 0) | ArrowDown => (40, 0) | ArrowLeft => (37, 0) | ArrowRight => (39, 0)
  end.

(** ui3/src/explorer/mobile/controls/engineInput.ts:67-67 *)
Definition MOVEMENT_CODES : list Key := [KeyW; KeyA; KeyS; KeyD].
(** ui3/src/explorer/mobile/controls/engineInput.ts:68-68 *)
Definition ARROW_CODES : list Key := [ArrowUp; ArrowDown; ArrowLeft; ArrowRight].

(** ui3/src/explorer/mobile/controls/engineInput.ts:70-70 *)
Definition LOOK_POINTER_ID : Z := 9001.
(** ui3/src/explorer/mobile/controls/engineInput.ts:71-71 *)
Definition TAP_POINTER_ID : Z := 9002.
(** ui3/src/explorer/mobile/controls/engineInput.ts:73-73 *)
Definition NO_BUTTON : Z := -1.
(** ui3/src/explorer/mobile/controls/engineInput.ts:74-74 *)
Definition LEFT_BUTTON : Z := 0.
(** ui3/src/explorer/mobile/controls/engineInput.ts:75-75 *)
Definition RIGHT_BUTTON : Z := 2.
(** ui3/src/explorer/mobile/controls/engineInput.ts:76-76 *)
Definition LEFT_BUTTONS : Z := 1.
(** ui3/src/explorer/mobile/controls/engineInput.ts:77-77 *)
Definition RIGHT_BUTTONS : Z := 2.
(** ui3/src/explorer/mobile/controls/engineInput.ts:78-78 *)
Definition NO_BUTTONS : Z := 0.

(** ui3/src/explorer/mobile/controls/engineInput.ts:80-80 *)
Definition ARROW_EPSILON : Q := toNumber (1 # 100).

(** An event that is dispatched: a key, or a pointer with its button, the buttons that
    are down, its place and how far it moved. *)
Inductive InputEvent :=
  | KeyEvent (down : bool) (code : Key) (keyCode location : Z)
  | PointerMove (pointerId button buttons : Z) (x y movementX movementY : Q)
  | PointerButton (down : bool) (pointerId button buttons : Z) (x y : Q).

(** [motionEvent], ui3/src/explorer/mobile/controls/engineInput.ts:103-125 *)
Definition motionEvent (x y dx dy : Q) (buttons : Z) : InputEvent :=
  PointerMove LOOK_POINTER_ID NO_BUTTON buttons x y dx dy.

(** [buttonEvent], ui3/src/explorer/mobile/controls/engineInput.ts:127-149 *)
Definition buttonEvent (down : bool) (pointerId button buttons : Z) (x y : Q) : InputEvent :=
  PointerButton down pointerId button buttons x y.

(** [keyEvent], ui3/src/explorer/mobile/controls/engineInput.ts:151-163 *)
Definition keyEvent (down : bool) (code : Key) : InputEvent :=
  let '(keyCode, location) := keySpec code in KeyEvent down code keyCode location.

(** ** The state *)

(** [LookStrategy], ui3/src/explorer/mobile/controls/engineInput.ts:11-11 *)
Inductive LookStrategy := PointerMotion | ArrowKeys.

(** [EngineInputConfig], whether there is a log, and an element by number,
    ui3/src/explorer/mobile/controls/engineInput.ts:20-28 *)
Record InputConfig := {
  ic_canvasId : string;
  ic_target : option N;
  ic_lookStrategy : LookStrategy;
  ic_lookSensitivity : Q;
  ic_lookInvertY : bool;
  ic_arrowHoldMs : Z;
  ic_logs : bool
}.

(** The closure of [createEngineInput], the elements of the page by their identifiers,
    what was sent, to an element or to none, and how many entries were logged,
    ui3/src/explorer/mobile/controls/engineInput.ts:165-174 *)
Record Input := {
  in_config : InputConfig;
  in_page : string → option N;
  in_held : list Key;
  in_arrows : list Key;
  in_lookHeld : bool;
  in_lastX : Q;
  in_lastY : Q;
  in_seq : Z;
  in_arrowTimer : option Z;
  in_disposed : bool;
  in_sent : list (option N * InputEvent)
}.

#[export] Instance eta_InputConfig : Eta InputConfig := λ c, {|
  ic_canvasId := ic_canvasId c; ic_target := ic_target c; ic_lookStrategy := ic_lookStrategy c;
  ic_lookSensitivity := ic_lookSensitivity c; ic_lookInvertY := ic_lookInvertY c;
  ic_arrowHoldMs := ic_arrowHoldMs c; ic_logs := ic_logs c |}.

#[export] Instance eta_Input : Eta Input := λ s, {|
  in_config := in_config s; in_page := in_page s; in_held := in_held s; in_arrows := in_arrows s;
  in_lookHeld := in_lookHeld s; in_lastX := in_lastX s; in_lastY := in_lastY s;
  in_seq := in_seq s; in_arrowTimer := in_arrowTimer s; in_disposed := in_disposed s;
  in_sent := in_sent s |}.

(** ui3/src/explorer/mobile/keys.ts:1-1 *)
Definition WORLD_CANVAS_ID : string := "mygame-canvas".

(** [DEFAULTS], ui3/src/explorer/mobile/controls/engineInput.ts:82-90 *)
Definition DEFAULTS : InputConfig := {|
  ic_canvasId := WORLD_CANVAS_ID; ic_target := None; ic_lookStrategy := PointerMotion;
  ic_lookSensitivity := 1; ic_lookInvertY := false; ic_arrowHoldMs := 80; ic_logs := false |}.

(** [createEngineInput] of the options merged into the defaults,
    ui3/src/explorer/mobile/controls/engineInput.ts:165-174 *)
Definition createEngineInput (config : InputConfig) (page : string → option N) : Input := {|
  in_config := config; in_page := page; in_held := []; in_arrows := []; in_lookHeld := false;
  in_lastX := 0; in_lastY := 0; in_seq := 0; in_arrowTimer := None; in_disposed := false;
  in_sent := [] |}.

(** ** Numbers with a sign *)

Definition signed (x : Q) : Q := if Qle_bool 0 x then toNumber x else (- toNumber (- x))%Q.
Definition addNumbers (a b : Q) : Q := signed (a + b).
Definition mulNumbers (a b : Q) : Q := signed (a * b).

(** ** Sending *)

(** [log], ui3/src/explorer/mobile/controls/engineInput.ts:176-181 *)
Definition log (s : Input) : Input :=
  if ic_logs (in_config s) then s <| in_seq ::= Z.succ |> else s.

(** [target], ui3/src/explorer/mobile/controls/engineInput.ts:183-187 *)
Definition inputTarget (s : Input) : option N :=
  match ic_target (in_config s) with
  | Some el => Some el
  | None => in_page s (ic_canvasId (in_config s))
  end.

(** [send], ui3/src/explorer/mobile/controls/engineInput.ts:189-198 *)
Definition send (event : InputEvent) (s : Input) : bool * Input :=
  let el := inputTarget s in
  (bool_decide (is_Some el), log (s <| in_sent ::= λ h, h ++ [(el, event)] |>)).

(** [pressKey], ui3/src/explorer/mobile/controls/engineInput.ts:200-204 *)
Definition pressKey (code : Key) (s : Input) : Input :=
  if in_disposed s || bool_decide (code ∈ in_held s) then s
  else
    let '(ok, s) := send (keyEvent true code) s in
    if ok then s <| in_held ::= λ h, h ++ [code] |> else s.

(** [releaseKey], ui3/src/explorer/mobile/controls/engineInput.ts:206-209 *)
Definition releaseKey (code : Key) (s : Input) : Input :=
  if bool_decide (code ∈ in_held s)
  then (send (keyEvent false code) (s <| in_held ::= filter (.≠ code) |>)).2
  else s.

(** [clearArrowTimer], ui3/src/explorer/mobile/controls/engineInput.ts:211-215 *)
Definition clearArrowTimer (s : Input) : Input := s <| in_arrowTimer := None |>.

(** [releaseArrows], ui3/src/explorer/mobile/controls/engineInput.ts:217-221 *)
Definition releaseArrows (s : Input) : Input :=
  let s := clearArrowTimer s in
  foldl (λ s code, releaseKey code s) s (in_arrows s) <| in_arrows := [] |>.

(** The arrows of a movement, ui3/src/explorer/mobile/controls/engineInput.ts:224-228 *)
Definition arrowsOf (dx dy : Q) : list Key :=
  (if less ARROW_EPSILON dx then [ArrowRight] else []) ++
  (if less dx (- ARROW_EPSILON) then [ArrowLeft] else []) ++
  (if less ARROW_EPSILON dy then [ArrowDown] else []) ++
  (if less dy (- ARROW_EPSILON) then [ArrowUp] else []).

(** A turn of the loop of [lookByArrows], ui3/src/explorer/mobile/controls/engineInput.ts:229-236 *)
Definition turnArrow (next : list Key) (s : Input) (code : Key) : Input :=
  if decide (code ∈ next) then
    pressKey code (s <| in_arrows ::= λ a, if decide (code ∈ a) then a else a ++ [code] |>)
  else if decide (code ∈ in_arrows s) then
    releaseKey code (s <| in_arrows ::= filter (.≠ code) |>)
  else s.

(** [lookByArrows], ui3/src/explorer/mobile/controls/engineInput.ts:223-239 *)
Definition lookByArrows (dx dy : Q) (s : Input) : Input :=
  let s := clearArrowTimer (foldl (turnArrow (arrowsOf dx dy)) s ARROW_CODES) in
  if (0 <? length (in_arrows s))%nat
  then s <| in_arrowTimer := Some (ic_arrowHoldMs (in_config s)) |> else s.

(** [pressCameraLock], ui3/src/explorer/mobile/controls/engineInput.ts:241-249 *)
Definition pressCameraLock (x y : Q) (s : Input) : Input :=
  if in_lookHeld s then s
  else (send (buttonEvent true LOOK_POINTER_ID RIGHT_BUTTON RIGHT_BUTTONS x y)
          (s <| in_lookHeld := true |>)).2.

(** [releaseCameraLock], ui3/src/explorer/mobile/controls/engineInput.ts:258-265 *)
Definition releaseCameraLock (s : Input) : Input :=
  if in_lookHeld s
  then (send (buttonEvent false LOOK_POINTER_ID RIGHT_BUTTON NO_BUTTONS (in_lastX s) (in_lastY s))
          (s <| in_lookHeld := false |>)).2
  else s.

(** [releaseEverything], ui3/src/explorer/mobile/controls/engineInput.ts:251-256 *)
Definition releaseEverything (s : Input) : Input :=
  let s := clearArrowTimer s <| in_arrows := [] |> in
  releaseCameraLock (foldl (λ s code, releaseKey code s) s (in_held s)).

(** ** The calls *)

(** [configure], ui3/src/explorer/mobile/controls/engineInput.ts:269-271 *)
Definition configure (patch : InputConfig → InputConfig) (s : Input) : Input :=
  s <| in_config ::= patch |>.

(** [setMovement], ui3/src/explorer/mobile/controls/engineInput.ts:283-288 *)
Definition setMovement (codes : list Key) (s : Input) : Input :=
  foldl (λ s code, if decide (code ∈ codes) then pressKey code s else releaseKey code s)
    s MOVEMENT_CODES.

(** [setModifier], and [setAction], ui3/src/explorer/mobile/controls/engineInput.ts:290-298 *)
Definition setKeyDown (code : Key) (down : bool) (s : Input) : Input :=
  if down then pressKey code s else releaseKey code s.

(** [tapAction], ui3/src/explorer/mobile/controls/engineInput.ts:300-303 *)
Definition tapAction (code : Key) (s : Input) : Input := releaseKey code (pressKey code s).

(** [beginLook], ui3/src/explorer/mobile/controls/engineInput.ts:305-309 *)
Definition beginLook (clientX clientY : Q) (s : Input) : Input :=
  let s := s <| in_lastX := clientX |> <| in_lastY := clientY |> in
  match ic_lookStrategy (in_config s) with
  | PointerMotion => pressCameraLock clientX clientY s
  | ArrowKeys => s
  end.

(** [look], ui3/src/explorer/mobile/controls/engineInput.ts:311-328 *)
Definition look (dx dy : Q) (s : Input) : Input :=
  if in_disposed s then s
  else
    let sx := mulNumbers dx (ic_lookSensitivity (in_config s)) in
    let sy := mulNumbers (mulNumbers dy (ic_lookSensitivity (in_config s)))
                (if ic_lookInvertY (in_config s) then -1 else 1) in
    if Qeq_bool sx 0 && Qeq_bool sy 0 then s
    else
      let s := s <| in_lastX ::= λ x, addNumbers x dx |> <| in_lastY ::= λ y, addNumbers y dy |> in
      match ic_lookStrategy (in_config s) with
      | ArrowKeys => lookByArrows sx sy s
      | PointerMotion =>
          let s := pressCameraLock (in_lastX s) (in_lastY s) s in
          (send (motionEvent (in_lastX s) (in_lastY s) sx sy RIGHT_BUTTONS) s).2
      end.

(** [endLook], ui3/src/explorer/mobile/controls/engineInput.ts:330-333 *)
Definition endLook (s : Input) : Input := releaseCameraLock (releaseArrows s).

(** [primaryTap], ui3/src/explorer/mobile/controls/engineInput.ts:335-353 *)
Definition primaryTap (clientX clientY : Q) (s : Input) : Input :=
  let s := s <| in_lastX := clientX |> <| in_lastY := clientY |> in
  let s := (send (motionEvent clientX clientY 0 0 NO_BUTTONS) s).2 in
  let s := (send (buttonEvent true TAP_POINTER_ID LEFT_BUTTON LEFT_BUTTONS clientX clientY) s).2 in
  (send (buttonEvent false TAP_POINTER_ID LEFT_BUTTON NO_BUTTONS clientX clientY) s).2.

(** [heldKeys], ui3/src/explorer/mobile/controls/engineInput.ts:357-359 *)
Definition heldKeys (s : Input) : list Key := in_held s.

(** [activate], ui3/src/explorer/mobile/controls/engineInput.ts:361-363 *)
Definition activate (s : Input) : Input := s <| in_disposed := false |>.

(** [dispose], ui3/src/explorer/mobile/controls/engineInput.ts:365-369 *)
Definition disposeInput (s : Input) : Input :=
  releaseEverything s <| in_disposed := true |> <| in_config ::= set ic_logs (λ _, false) |>.

(** The timer of [lookByArrows] fires, ui3/src/explorer/mobile/controls/engineInput.ts:238-238 *)
Definition arrowTimerFires (s : Input) : Input :=
  match in_arrowTimer s with Some _ => releaseArrows s | None => s end.

(** ** What the engine is sent *)

(** The presses and releases of a key that an element received. *)
Definition received (el : N) (k : Key) (h : list (option N * InputEvent)) : list bool :=
  omap (λ '(t, e), match e with
                   | KeyEvent down code _ _ =>
                       if decide (code = k ∧ t = Some el) then Some down else None
                   | _ => None
                   end) h.

(** Those of the button that locks the camera. *)
Definition receivedLock (el : N) (h : list (option N * InputEvent)) : list bool :=
  omap (λ '(t, e), match e with
                   | PointerButton down id _ _ _ _ =>
                       if decide (id = LOOK_POINTER_ID ∧ t = Some el) then Some down else None
                   | _ => None
                   end) h.

(** The element received every release of a key, and every press that any element
    received: its canvas was there when the key was released, and the same. *)
Definition keyGoesTo (el : N) (k : Key) (h : list (option N * InputEvent)) : Prop :=
  ∀ t down a b, (t, KeyEvent down k a b) ∈ h → t = Some el ∨ t = None ∧ down = true.

Definition lockGoesTo (el : N) (h : list (option N * InputEvent)) : Prop :=
  ∀ t down a b x y, (t, PointerButton down LOOK_POINTER_ID a b x y) ∈ h → t = Some el.

(** What the input goes by: the presses of a key that reached an element, and the
    releases whether or not they reached one. *)
Definition keyTrace (k : Key) (h : list (option N * InputEvent)) : list bool :=
  omap (λ '(el, e), match e with
                    | KeyEvent down code _ _ =>
                        if decide (code = k ∧ (down = true → is_Some el)) then Some down else None
                    | _ => None
                    end) h.

(** The presses and releases of the button that locks the camera, whether or not they
    reached an element. *)
Definition lockTrace (h : list (option N * InputEvent)) : list bool :=
  omap (λ '(_, e), match e with
                   | PointerButton down id _ _ _ _ =>
                       if decide (id = LOOK_POINTER_ID) then Some down else None
                   | _ => None
                   end) h.

(** What is down after presses and releases that alternate, [None] when they do not. *)
Definition turn (b : option bool) (down : bool) : option bool :=
  match b with
  | Some b => if Bool.eqb b down then None else Some down
  | None => None
  end.

Definition downAfter (l : list bool) : option bool := foldl turn (Some false) l.

Lemma keyTrace_snoc k h el e : downAfter (keyTrace k (h ++ [(el, e)])) =
  match e with
  | KeyEvent down code _ _ =>
      if decide (code = k ∧ (down = true → is_Some el)) then turn (downAfter (keyTrace k h)) down
      else downAfter (keyTrace k h)
  | _ => downAfter (keyTrace k h)
  end.
Proof.
  unfold keyTrace, downAfter. rewrite omap_app, foldl_app. destruct e; [|done..].
  simpl. by case_decide.
Qed.

Lemma lockTrace_snoc h el e : downAfter (lockTrace (h ++ [(el, e)])) =
  match e with
  | PointerButton down id _ _ _ _ =>
      if decide (id = LOOK_POINTER_ID) then turn (downAfter (lockTrace h)) down
      else downAfter (lockTrace h)
  | _ => downAfter (lockTrace h)
  end.
Proof.
  unfold lockTrace, downAfter. rewrite omap_app, foldl_app. destruct e; [done..|].
  simpl. by case_decide.
Qed.

(** Where nothing is lost, what the input goes by is what the element received. *)
Lemma received_keyTrace el k h : keyGoesTo el k h → received el k h = keyTrace k h.
Proof.
  induction h as [|[t e] h IH]; intros Hel; [done|]. cbn.
  assert (received el k h = keyTrace k h) as E.
  { apply IH. intros t' down a b Hin. apply (Hel t' down a b). by right. }
  unfold received, keyTrace in E. destruct e as [down code a b| |]; [|exact E..]. cbn.
  destruct (decide (code = k)) as [->|Hk].
  - destruct (Hel t down a b) as [->|[-> ->]]; [by left|..].
    + rewrite !decide_True by done. by rewrite E.
    + rewrite !decide_False; [exact E|intros [_ H]; by apply is_Some_None in H; auto|by intros [_ ?]].
  - rewrite !decide_False by tauto. exact E.
Qed.

Lemma received_lockTrace el h : lockGoesTo el h → receivedLock el h = lockTrace h.
Proof.
  induction h as [|[t e] h IH]; intros Hel; [done|]. cbn.
  assert (receivedLock el h = lockTrace h) as E.
  { apply IH. intros t' down a b x y Hin. apply (Hel t' down a b x y). by right. }
  unfold receivedLock, lockTrace in E. destruct e as [| |down id a b x y]; [exact E..|]. cbn.
  destruct (decide (id = LOOK_POINTER_ID)) as [->|Hid].
  - rewrite decide_True; [by rewrite E|]. split; [done|]. eapply Hel. by left.
  - rewrite decide_False by tauto. exact E.
Qed.

(** A press that reached an element and was not followed by a release. *)
Definition pressed (k : Key) (h : list (option N * InputEvent)) : Prop :=
  ∃ h1 el a b h2, h = h1 ++ (Some el, KeyEvent true k a b) :: h2 ∧
    ∀ t a b, (t, KeyEvent false k a b) ∉ h2.

Lemma keyTrace_pressed k h : downAfter (keyTrace k h) = Some true → pressed k h.
Proof.
  induction h as [|[el e] h IH] using rev_ind; [done|]. rewrite keyTrace_snoc. intros E.
  assert (downAfter (keyTrace k h) = Some true →
    (∀ a b, e ≠ KeyEvent false k a b) → pressed k (h ++ [(el, e)])) as Hmore.
  { intros (h1 & el' & a & b & h2 & -> & Hno)%IH Hne. exists h1, el', a, b, (h2 ++ [(el, e)]).
    split; [by rewrite <- app_assoc|]. intros t a' b' [Hin|Hin%list_elem_of_singleton]%elem_of_app;
      [by eapply Hno|]. injection Hin as _ <-. by eapply Hne. }
  destruct e as [down code a b| |]; [|by apply Hmore..]. case_decide as Hd.
  - destruct Hd as [-> Hel]. destruct (downAfter (keyTrace k h)) as [d|]; [|done].
    simpl in E. destruct (Bool.eqb d down); [done|]. injection E as ->.
    destruct (Hel eq_refl) as [x ->]. exists h, x, a, b, []. split; [done|].
    intros t a' b'. apply not_elem_of_nil.
  - apply Hmore; [done|]. intros a' b' [= -> -> -> ->]. by apply Hd.
Qed.

(** What is held is what is down, and a disposed input holds no key. *)
Record input_ok (s : Input) : Prop := {
  io_keys : ∀ k, downAfter (keyTrace k (in_sent s)) = Some (bool_decide (k ∈ in_held s));
  io_lock : downAfter (lockTrace (in_sent s)) = Some (in_lookHeld s);
  io_disposed : in_disposed s = true → in_held s = []
}.

(** The parts of the state that a call leaves as they are. *)
Definition same_look (s s' : Input) : Prop :=
  in_arrows s' = in_arrows s ∧ in_arrowTimer s' = in_arrowTimer s ∧
  in_disposed s' = in_disposed s ∧ in_lookHeld s' = in_lookHeld s.

#[export] Instance same_look_preorder : PreOrder same_look.
Proof. unfold same_look. split; [by intros ?|]. intros ???. intuition congruence. Qed.

Lemma send_spec e s : let '(ok, s') := send e s in
  ok = bool_decide (is_Some (inputTarget s)) ∧ same_look s s' ∧ in_held s' = in_held s ∧
  in_sent s' = in_sent s ++ [(inputTarget s, e)].
Proof. unfold send, log. by destruct (ic_logs _). Qed.

Lemma keyEvent_spec down code : ∃ keyCode location, keyEvent down code = KeyEvent down code keyCode location.
Proof. unfold keyEvent. destruct (keySpec code) as [a b]. eauto. Qed.

Lemma pressKey_spec k s : input_ok s →
  let s' := pressKey k s in
  input_ok s' ∧ same_look s s' ∧ ∀ x, x ∈ in_held s' → x ∈ in_held s ∨ x = k.
Proof.
  intros Hok. pose proof Hok as [Hk Hl Hd]. unfold pressKey. cbv zeta.
  destruct (in_disposed s) eqn:Ed; [split_and!; [done|reflexivity|auto]|].
  cbn [orb]. destruct (bool_decide_reflect (k ∈ in_held s)) as [|Hno]; [split_and!; [done|reflexivity|auto]|].
  pose proof (send_spec (keyEvent true k) s) as Hs.
  destruct (keyEvent_spec true k) as (a & b & E). rewrite E in *.
  destruct (send _ s) as [ok s1]. destruct Hs as (-> & Hsame & Hheld & Hsent).
  destruct Hsame as (? & ? & Hd1 & Hl1).
  destruct (bool_decide_reflect (is_Some (inputTarget s))) as [Hel|Hel]; split_and!; try done.
  - split; simpl.
    + intros x. rewrite Hsent, Hheld, keyTrace_snoc. destruct (decide (k = x)) as [<-|Hx].
      * rewrite decide_True by done. rewrite Hk, bool_decide_eq_false_2 by done. simpl.
        rewrite bool_decide_eq_true_2; [done|]. set_solver.
      * rewrite decide_False by naive_solver. rewrite Hk. do 2 f_equal. apply bool_decide_ext. set_solver.
    + by rewrite Hsent, lockTrace_snoc, Hl, Hl1.
    + intros E2. congruence.
  - simpl. rewrite Hheld. intros x. set_solver.
  - split; simpl.
    + intros x. rewrite Hsent, Hheld, keyTrace_snoc, decide_False by naive_solver. apply Hk.
    + by rewrite Hsent, lockTrace_snoc, Hl, Hl1.
    + intros E2. congruence.
  - rewrite Hheld. auto.
Qed.

Lemma releaseKey_spec k s : input_ok s →
  let s' := releaseKey k s in
  input_ok s' ∧ same_look s s' ∧ ∀ x, x ∈ in_held s' ↔ x ∈ in_held s ∧ x ≠ k.
Proof.
  intros Hok. pose proof Hok as [Hk Hl Hd]. unfold releaseKey. cbv zeta. destruct (bool_decide_reflect (k ∈ in_held s)) as [Hin|Hno];
    [|split_and!; [done|reflexivity|set_solver]].
  set (s0 := s <| in_held ::= filter (.≠ k) |>).
  pose proof (send_spec (keyEvent false k) s0) as Hs.
  destruct (keyEvent_spec false k) as (a & b & E). rewrite E in *.
  destruct (send _ s0) as [ok s1]. destruct Hs as (_ & Hsame & Hheld & Hsent).
  assert (∀ x, x ∈ in_held s1 ↔ x ∈ in_held s ∧ x ≠ k) as Hx.
  { intros x. rewrite Hheld. unfold s0. simpl. rewrite list_elem_of_filter. tauto. }
  destruct Hsame as (? & ? & Hd1 & Hl1). simpl. split_and!; try done. split.
  - intros x. rewrite Hsent, keyTrace_snoc. destruct (decide (k = x)) as [<-|Hne].
    + rewrite decide_True by done. unfold s0. simpl. rewrite Hk, bool_decide_eq_true_2 by done. simpl.
      rewrite bool_decide_eq_false_2; [done|]. rewrite Hx. tauto.
    + rewrite decide_False by naive_solver. unfold s0. simpl. rewrite Hk. do 2 f_equal.
      apply bool_decide_ext. rewrite Hx. naive_solver.
  - by rewrite Hsent, lockTrace_snoc, Hl1.
  - rewrite Hd1. unfold s0. simpl. intros Hd2. rewrite (Hd Hd2) in Hin. set_solver.
Qed.

(** A held arrow is among the arrows, and while there are any their timer runs. *)
Definition arrows_ok (s : Input) : Prop := ∀ k, k ∈ ARROW_CODES → k ∈ in_held s → k ∈ in_arrows s.

Definition full_ok (s : Input) : Prop :=
  input_ok s ∧ arrows_ok s ∧ (in_arrows s ≠ [] → is_Some (in_arrowTimer s)).

(** What [full_ok] looks at. *)
Definition core (s : Input) :=
  (in_sent s, in_held s, in_lookHeld s, in_disposed s, in_arrows s, in_arrowTimer s).

Lemma full_ok_core s s' : core s' = core s → full_ok s → full_ok s'.
Proof.
  unfold core, full_ok, arrows_ok. intros [= E1 E2 E3 E4 E5 E6] ([Hk Hl Hd] & Ha & Ht).
  split_and!; [split|..]; rewrite ?E1, ?E2, ?E3, ?E4, ?E5, ?E6; auto.
Qed.

Lemma press_full k s : k ∉ ARROW_CODES → full_ok s → full_ok (pressKey k s).
Proof.
  intros Hk (Hok & Ha & Ht). destruct (pressKey_spec k s Hok) as (Hok' & (E1 & E2 & _) & Hin).
  unfold full_ok, arrows_ok. rewrite E1, E2. split_and!; [done| |done].
  intros x Hx [Hh| ->]%Hin; [by apply Ha|done].
Qed.

Lemma release_full k s : full_ok s → full_ok (releaseKey k s).
Proof.
  intros (Hok & Ha & Ht). destruct (releaseKey_spec k s Hok) as (Hok' & (E1 & E2 & _) & Hin).
  unfold full_ok, arrows_ok. rewrite E1, E2. split_and!; [done| |done].
  intros x Hx [Hh _]%Hin. by apply Ha.
Qed.

Lemma releases_spec l s : input_ok s →
  let s' := foldl (λ s code, releaseKey code s) s l in
  input_ok s' ∧ same_look s s' ∧ ∀ x, x ∈ in_held s' ↔ x ∈ in_held s ∧ x ∉ l.
Proof.
  revert s. induction l as [|k l IH]; intros s Hok; simpl; [split_and!; [done|reflexivity|set_solver]|].
  destruct (releaseKey_spec k s Hok) as (Hok1 & Hs1 & Hin1).
  destruct (IH _ Hok1) as (Hok2 & Hs2 & Hin2). split_and!; [done|by etransitivity|].
  intros x. rewrite Hin2, Hin1. set_solver.
Qed.

Lemma releaseArrows_full s : full_ok s →
  let s' := releaseArrows s in
  full_ok s' ∧ in_arrows s' = [] ∧ (∀ x, x ∈ in_held s' ↔ x ∈ in_held s ∧ x ∉ in_arrows s).
Proof.
  intros (Hok & Ha & _). unfold releaseArrows. cbv zeta.
  assert (input_ok (clearArrowTimer s)) as Hok0 by (by destruct Hok).
  destruct (releases_spec (in_arrows s) _ Hok0) as ([Hk Hl Hd] & _ & Hin). simpl in Hin.
  split_and!; [|done|exact Hin]. split_and!; [by split| |done].
  intros x Hx Hh. simpl in Hh. apply Hin in Hh as [Hh Hno]. by destruct Hno; apply Ha.
Qed.

Lemma send_full e s :
  match e with KeyEvent _ _ _ _ => False | PointerButton _ id _ _ _ _ => id ≠ LOOK_POINTER_ID | _ => True end →
  full_ok s → full_ok (send e s).2.
Proof.
  intros He ([Hk Hl Hd] & Ha & Ht). pose proof (send_spec e s) as Hs.
  destruct (send e s) as [ok s']. simpl.
  destruct Hs as (_ & (E1 & E2 & E3 & E4) & E5 & E6).
  unfold full_ok, arrows_ok. rewrite E1, E2, E5. split_and!; [split|done..].
  - intros k. rewrite E5, E6, keyTrace_snoc. destruct e; [done|..]; apply Hk.
  - rewrite E4, E6, lockTrace_snoc. destruct e; [done|done|]. by rewrite decide_False.
  - by rewrite E3, E5.
Qed.

Lemma lock_full down button buttons x y s : full_ok s → in_lookHeld s = negb down →
  full_ok (send (buttonEvent down LOOK_POINTER_ID button buttons x y) (s <| in_lookHeld := down |>)).2 ∧
  in_lookHeld (send (buttonEvent down LOOK_POINTER_ID button buttons x y) (s <| in_lookHeld := down |>)).2 = down ∧
  in_held (send (buttonEvent down LOOK_POINTER_ID button buttons x y) (s <| in_lookHeld := down |>)).2 = in_held s.
Proof.
  intros ([Hk Hl Hd] & Ha & Ht) Hdown.
  pose proof (send_spec (buttonEvent down LOOK_POINTER_ID button buttons x y) (s <| in_lookHeld := down |>)) as Hs.
  destruct (send _ _) as [ok s']. simpl.
  destruct Hs as (_ & (E1 & E2 & E3 & E4) & E5 & E6). simpl in *. split_and!; [|done|done].
  unfold full_ok, arrows_ok. rewrite E1, E2, E5. split_and!; [split|done..].
  - intros k. rewrite E5, E6. unfold buttonEvent. rewrite keyTrace_snoc. apply Hk.
  - rewrite E4, E6. unfold buttonEvent. rewrite lockTrace_snoc, decide_True, Hl, Hdown by done.
    by destruct down.
  - by rewrite E3, E5.
Qed.

Lemma pressCameraLock_full x y s : full_ok s → full_ok (pressCameraLock x y s).
Proof.
  intros Hok. unfold pressCameraLock. destruct (in_lookHeld s) eqn:E; [done|]. by apply lock_full.
Qed.

Lemma releaseCameraLock_full s : full_ok s →
  full_ok (releaseCameraLock s) ∧ in_lookHeld (releaseCameraLock s) = false ∧
  in_held (releaseCameraLock s) = in_held s.
Proof.
  intros Hok. unfold releaseCameraLock. destruct (in_lookHeld s) eqn:E; [by apply lock_full|done].
Qed.

Lemma releaseEverything_full s : full_ok s →
  full_ok (releaseEverything s) ∧ in_held (releaseEverything s) = [] ∧
  in_lookHeld (releaseEverything s) = false.
Proof.
  intros (Hok & _ & _). unfold releaseEverything. cbv zeta.
  set (s0 := clearArrowTimer s <| in_arrows := [] |>).
  assert (input_ok s0) as Hok0 by (by destruct Hok).
  destruct (releases_spec (in_held s0) s0 Hok0) as (Hok1 & (E1 & E2 & _) & Hin).
  set (s1 := foldl _ s0 (in_held s0)) in *.
  assert (in_held s1 = []) as Hnil.
  { apply elem_of_nil_inv. intros x. rewrite Hin. tauto. }
  assert (full_ok s1) as Hfull.
  { unfold full_ok, arrows_ok. rewrite Hnil, E1. split_and!; [done|set_solver|done]. }
  destruct (releaseCameraLock_full s1 Hfull) as (H1 & H2 & H3). by rewrite H3.
Qed.

(** What releasing sends goes where the input sends now. *)
Definition sends (s s' : Input) : Prop :=
  inputTarget s' = inputTarget s ∧
  ∃ l, in_sent s' = in_sent s ++ l ∧ Forall (λ p, p.1 = inputTarget s) l.

#[export] Instance sends_preorder : PreOrder sends.
Proof.
  split.
  - intros s. split; [done|]. exists []. by rewrite app_nil_r.
  - intros s1 s2 s3 [T1 (l1 & E1 & F1)] [T2 (l2 & E2 & F2)]. split; [congruence|].
    exists (l1 ++ l2). rewrite E2, E1, app_assoc. split; [done|]. apply Forall_app.
    split; [done|]. by rewrite T1 in F2.
Qed.

Lemma send_sends e s : sends s (send e s).2.
Proof.
  unfold send, log, sends. destruct (ic_logs _); (split; [done|]); by eexists [_]; repeat constructor.
Qed.

Lemma releases_sends l s : sends s (foldl (λ s code, releaseKey code s) s l).
Proof.
  revert s. induction l as [|k l IH]; intros s; [done|]. simpl. etransitivity; [|apply IH].
  unfold releaseKey. case_bool_decide; [|done].
  match goal with |- sends _ (send ?e ?s0).2 => exact (send_sends e s0) end.
Qed.

Lemma releaseEverything_sends s : sends s (releaseEverything s).
Proof.
  unfold releaseEverything. cbv zeta. set (s0 := clearArrowTimer s <| in_arrows := [] |>).
  etransitivity; [apply (releases_sends (in_held s0) s0)|]. unfold releaseCameraLock.
  set (s1 := foldl _ s0 _). destruct (in_lookHeld s1); [|done].
  match goal with |- sends _ (send ?e ?s').2 => exact (send_sends e s') end.
Qed.

Lemma sends_keyGoesTo el k s s' :
  sends s s' → inputTarget s = Some el → keyGoesTo el k (in_sent s) → keyGoesTo el k (in_sent s').
Proof.
  intros [_ (l & -> & Hl)] Ht Hk t down a b [Hin|Hin]%elem_of_app; [by eapply Hk|].
  rewrite Forall_forall in Hl. left. rewrite <- Ht. by apply (Hl (t, KeyEvent down k a b)).
Qed.

Lemma sends_lockGoesTo el s s' :
  sends s s' → inputTarget s = Some el → lockGoesTo el (in_sent s) → lockGoesTo el (in_sent s').
Proof.
  intros [_ (l & -> & Hl)] Ht Hk t down a b x y [Hin|Hin]%elem_of_app; [by eapply Hk|].
  rewrite Forall_forall in Hl. rewrite <- Ht.
  by apply (Hl (t, PointerButton down LOOK_POINTER_ID a b x y)).
Qed.

Lemma turnArrow_ok next code s : input_ok s → arrows_ok s →
  input_ok (turnArrow next s code) ∧ arrows_ok (turnArrow next s code).
Proof.
  intros Hok Ha. unfold turnArrow. destruct (decide (code ∈ next)).
  - set (s0 := s <| in_arrows ::= _ |>). assert (input_ok s0) as Hok0 by (by destruct Hok).
    destruct (pressKey_spec code s0 Hok0) as (Hok' & (E & _) & Hin). split; [done|].
    intros x Hx Hh. rewrite E. unfold s0. simpl.
    apply Hin in Hh as [Hh| ->]; [apply Ha in Hh; [|done]|]; destruct (decide _); set_solver.
  - destruct (decide (code ∈ in_arrows s)); [|done].
    set (s0 := s <| in_arrows ::= _ |>). assert (input_ok s0) as Hok0 by (by destruct Hok).
    destruct (releaseKey_spec code s0 Hok0) as (Hok' & (E & _) & Hin). split; [done|].
    intros x Hx Hh. rewrite E. unfold s0. simpl. apply Hin in Hh as [Hh Hne].
    rewrite list_elem_of_filter. split; [done|by apply Ha].
Qed.

Lemma lookByArrows_full dx dy s : full_ok s → full_ok (lookByArrows dx dy s).
Proof.
  intros (Hok & Ha & _). unfold lookByArrows. cbv zeta.
  assert (∀ l s, input_ok s → arrows_ok s →
    input_ok (foldl (turnArrow (arrowsOf dx dy)) s l) ∧
    arrows_ok (foldl (turnArrow (arrowsOf dx dy)) s l)) as Hall.
  { intros l. induction l as [|k l IH]; intros s0 H1 H2; [done|]. simpl.
    apply IH; by apply turnArrow_ok. }
  destruct (Hall ARROW_CODES s Hok Ha) as [[Hk Hl Hd] Ha1]. set (s1 := foldl _ s ARROW_CODES) in *.
  destruct (in_arrows s1) as [|k l] eqn:E; simpl; rewrite E; simpl; (split_and!; [by split|exact Ha1|]).
  - simpl. by rewrite E.
  - eauto.
Qed.

(** ** Whatever is called *)

(** A call, with keys of the kind it takes, a change of the page, or the timer. *)
Inductive input_step (s : Input) : Input → Prop :=
  | step_configure patch : input_step s (configure patch s)
  | step_page page : input_step s (s <| in_page := page |>)
  | step_movement codes : input_step s (setMovement codes s)
  | step_key code down : code ∈ [ShiftLeft; ControlLeft; Space; KeyE; KeyF] →
      input_step s (setKeyDown code down s)
  | step_tap code : code ∈ [Space; KeyE; KeyF] → input_step s (tapAction code s)
  | step_beginLook x y : input_step s (beginLook x y s)
  | step_look dx dy : input_step s (look dx dy s)
  | step_endLook : input_step s (endLook s)
  | step_primaryTap x y : input_step s (primaryTap x y s)
  | step_releaseAll : input_step s (releaseEverything s)
  | step_activate : input_step s (activate s)
  | step_dispose : input_step s (disposeInput s)
  | step_timer : input_step s (arrowTimerFires s).

Lemma setMovement_full codes s : full_ok s → full_ok (setMovement codes s).
Proof.
  unfold setMovement. assert (Forall (.∉ ARROW_CODES) MOVEMENT_CODES) as Hl by decided.
  revert s. induction Hl as [|k l Hk _ IH]; intros s Hok; [done|]. simpl. apply IH.
  case_decide; [by apply press_full|by apply release_full].
Qed.

Lemma look_full dx dy s : full_ok s → full_ok (look dx dy s).
Proof.
  intros Hok. unfold look. destruct (in_disposed s); [done|]. cbv zeta. destruct (_ && _); [done|].
  lazymatch goal with |- full_ok (match _ with PointerMotion => _ | ArrowKeys => lookByArrows _ _ ?x end) =>
    set (s1 := x) end.
  assert (full_ok s1) as Hok1 by (by apply (full_ok_core s)).
  destruct (ic_lookStrategy _); [|by apply lookByArrows_full].
  apply send_full; [done|]. by apply pressCameraLock_full.
Qed.

Lemma input_step_full s s' : input_step s s' → full_ok s → full_ok s'.
Proof.
  intros Hstep Hok. destruct Hstep as [patch|page|codes|code down Hc|code Hc|x y|dx dy| |x y| | | |].
  - by apply (full_ok_core s).
  - by apply (full_ok_core s).
  - by apply setMovement_full.
  - destruct down; [apply press_full; [|done]|by apply release_full]. revert code Hc.
    apply Forall_forall. decided.
  - apply release_full, press_full; [|done]. revert code Hc. apply Forall_forall. decided.
  - unfold beginLook. cbv zeta. destruct (ic_lookStrategy _); [apply pressCameraLock_full|];
      by apply (full_ok_core s).
  - by apply look_full.
  - by apply releaseCameraLock_full, releaseArrows_full.
  - unfold primaryTap. cbv zeta. do 3 (apply send_full; [done|]). by apply (full_ok_core s).
  - by apply releaseEverything_full.
  - destruct Hok as ([Hk Hl _] & Ha & Ht). by split_and!; [split|..].
  - destruct (releaseEverything_full s Hok) as (([Hk Hl _] & Ha & Ht) & Hnil & _).
    split_and!; [split|exact Ha|exact Ht]; done.
  - unfold arrowTimerFires. destruct (in_arrowTimer s); [by apply releaseArrows_full|done].
Qed.

Lemma received_held s el k : full_ok s → keyGoesTo el k (in_sent s) →
  downAfter (received el k (in_sent s)) = Some (bool_decide (k ∈ heldKeys s)).
Proof. intros ([Hk _ _] & _ & _) Hel. rewrite received_keyTrace by done. apply Hk. Qed.

Lemma received_lockHeld s el : full_ok s → lockGoesTo el (in_sent s) →
  downAfter (receivedLock el (in_sent s)) = Some (in_lookHeld s).
Proof. intros ([_ Hl _] & _ & _) Hel. by rewrite received_lockTrace. Qed.

(** C35.  However the controls are called and whenever the timer fires: as long as no
    release of a key is lost and all goes to one canvas, the presses and releases of it
    that the canvas receives alternate, and the key is held exactly while it is down
    there; so it is with the button that locks the camera.  Whatever becomes of the
    canvas, a held key was pressed on some element and its release was not asked for
    since, a held arrow has a timer that releases it, releasing everything leaves
    nothing held, and nothing down on such a canvas if it is there then, and a disposed
    input holds no key. *)
Theorem input_alternates config page s :
  rtc input_step (createEngineInput config page) s →
  (∀ el k, keyGoesTo el k (in_sent s) →
     downAfter (received el k (in_sent s)) = Some (bool_decide (k ∈ heldKeys s))) ∧
  (∀ el, lockGoesTo el (in_sent s) →
     downAfter (receivedLock el (in_sent s)) = Some (in_lookHeld s)) ∧
  (∀ k, k ∈ heldKeys s → pressed k (in_sent s)) ∧
  (∀ k, k ∈ ARROW_CODES → k ∈ heldKeys s →
     is_Some (in_arrowTimer s) ∧ k ∉ heldKeys (arrowTimerFires s)) ∧
  (let released := releaseEverything s in
   heldKeys released = [] ∧ in_lookHeld released = false ∧
   ∀ el, inputTarget s = Some el →
     (∀ k, keyGoesTo el k (in_sent s) → downAfter (received el k (in_sent released)) = Some false) ∧
     (lockGoesTo el (in_sent s) → downAfter (receivedLock el (in_sent released)) = Some false)) ∧
  (in_disposed s = true → heldKeys s = []).
Proof.
  intros Hs. assert (full_ok s) as Hok.
  { assert (full_ok (createEngineInput config page)) as H0.
    { split_and!; [split; [intros k; by rewrite bool_decide_eq_false_2 by apply not_elem_of_nil|done|done]|..];
        [intros k _ Hk; simpl in Hk; set_solver|done]. }
    revert H0. induction Hs as [|s1 s2 s3 Hstep _ IH]; [done|]. intros H0.
    by apply IH, (input_step_full s1). }
  destruct (releaseEverything_full s Hok) as (Hok' & Hnil & Hlock).
  pose proof (releaseEverything_sends s) as Hsends.
  pose proof Hok as ([Hk Hl Hd] & Ha & Ht). split; [by intros; apply received_held|].
  split; [by intros; apply received_lockHeld|]. split.
  { intros k Hin. apply keyTrace_pressed. rewrite Hk. by rewrite bool_decide_eq_true_2. }
  split.
  { intros k Hk1 Hk2. assert (k ∈ in_arrows s) as Hin by (by apply Ha).
    assert (is_Some (in_arrowTimer s)) as [ms Hms]
      by (apply Ht; intros E; rewrite E in Hin; set_solver).
    split; [eauto|]. unfold arrowTimerFires. rewrite Hms. unfold heldKeys.
    destruct (releaseArrows_full s Hok) as (_ & _ & Hheld). rewrite Hheld. tauto. }
  split; [|done]. split; [done|]. split; [done|]. intros el Hel. split.
  - intros k Hkel. rewrite received_held by (done || by apply (sends_keyGoesTo el k s)).
    unfold heldKeys. rewrite Hnil, bool_decide_eq_false_2; [done|apply not_elem_of_nil].
  - intros Hlel. by rewrite received_lockHeld by (done || by apply (sends_lockGoesTo el s)); rewrite Hlock.
Qed.

(** ** Samples *)

Definition noPage : string → option N := λ _, None.
Definition onCanvas : InputConfig :=
  DEFAULTS <| ic_target := Some 1%N |> <| ic_lookStrategy := ArrowKeys |>.

(** Walking forward while looking to the upper right. *)
Definition walking : Input :=
  look 5 (-5) (setMovement [KeyW] (createEngineInput onCanvas noPage)).

Lemma input_alternates_witness :
  heldKeys walking = [KeyW; ArrowUp; ArrowRight] ∧
  downAfter (received 1 KeyW (in_sent walking)) = Some true ∧
  downAfter (received 1 KeyW (in_sent (releaseEverything walking))) = Some false ∧
  is_Some (in_arrowTimer walking) ∧ (ArrowUp ∉ heldKeys (arrowTimerFires walking)).
Proof.
  assert (rtc input_step (createEngineInput onCanvas noPage) walking) as H.
  { unfold walking. eapply rtc_l; [apply (step_movement _ [KeyW])|]. apply rtc_once, step_look. }
  assert (keyGoesTo 1 KeyW (in_sent walking)) as Hel.
  { intros t down a b Hin. left.
    assert (Forall (λ p, p.1 = Some 1%N) (in_sent walking)) as Hall by decided.
    rewrite Forall_forall in Hall. by apply (Hall _ Hin). }
  destruct (input_alternates onCanvas noPage walking H) as (Hrec & _ & _ & Harrows & (_ & _ & Hrel) & _).
  destruct (Harrows ArrowUp) as [Ht Hr]; [decided|decided|].
  destruct (Hrel 1%N eq_refl) as [Hdown _].
  split_and!; [by vm_compute|exact (Hrec 1%N KeyW Hel)|exact (Hdown KeyW Hel)|exact Ht|exact Hr].
Defined.

Definition onMouse : InputConfig := DEFAULTS <| ic_target := Some 1%N |>.

(** An input that was disposed of presses the button of the camera when a look begins,
    though it neither looks nor presses keys. *)
Example disposed_input_locks :
  let s := beginLook 10 10 (disposeInput (createEngineInput onMouse noPage)) in
  in_disposed s = true ∧ in_lookHeld s = true ∧
  in_sent s = [(Some 1%N, PointerButton true LOOK_POINTER_ID RIGHT_BUTTON RIGHT_BUTTONS 10 10)].
Proof. by vm_compute. Qed.

(** A key released while its canvas is away is forgotten, and stays down on the canvas. *)
Example lost_release_stays_down :
  let canvas id := if decide (id = WORLD_CANVAS_ID) then Some 1%N else None in
  let s := setMovement [KeyW] (createEngineInput DEFAULTS canvas) in
  let s := setMovement [] (s <| in_page := noPage |>) in
  heldKeys s = [] ∧ in_sent s = [(Some 1%N, keyEvent true KeyW); (None, keyEvent false KeyW)].
Proof. by vm_compute. Qed.
